(* ===== verification/_CoqProject ===== *)
-Q . S2P
Prelude.v
PyString.v
PyDict.v
SdkUtils.v
TopologicalSort.v
Md5.v
Constants.v
HashModel.v
SchemaDefs.v
NodeSchemaOps.v
SchemaPaths.v
SchemaStore.v
SchemaObjects.v
SchemaProcess.v
SchemaValidate.v
SchemaUpdate.v
ConstraintDeterminer.v
SchemaMerge.v
Uniqueness.v
PyValue.v
Enums.v
PropertyMixin.v
RelationshipList.v
DeleteValidator.v
Lock.v
Query.v
QueryFacts.v
Graph.v
Branch.v
IpNetwork.v
IpText.v
PrefixPool.v
Ipam.v
DiffModel.v
BranchDiffer.v
BranchMerge.v
ProposedChange.v
Attribute.v
AttributeObject.v
AttributeFacts.v
AttributeGraphql.v
RelationshipManager.v
RelationshipSync.v
NodeRead.v
Node.v
NodeFacts.v
NodeManager.v
NodeManagerFacts.v
SdkSchema.v
SdkStore.v
SdkGraphql.v
SdkGraphqlFacts.v
SdkNode.v
SdkNodeFacts.v
SdkQuery.v
Auth.v
AuthFacts.v
