(* ===== verification/Prelude.v ===== *)
(** * Infrahub: verification library

    Infrahub stores the data of an infrastructure in a graph database.  The graph has
    branches; every edge belongs to a branch and is valid for a period.  A schema,
    itself kept per branch, says which kinds of nodes exist, with their attributes and
    relationships.  Users work on a branch, compare it with its origin, and merge it
    through a proposed change.  This library models the logic of these parts as
    functions on explicit states, and proves what they compute.

    ** Files

    All the paths below are under [src/backend/infrahub] unless they start with
    [python_sdk].

    - [Prelude] (this file): exceptions, the error monad [result], the state monad with
      exceptions [Exec] (the state survives an exception, as an object that Python code
      mutates does), its predicate transformer [wp], record updates, general lemmas.
    - [PyString], [PyDict]: what the code uses of Python: strings, [sorted], [str] of
      values, dictionaries in the order of insertion, sets.
    - [SdkUtils]: [python_sdk/infrahub_sdk/utils.py] ([deep_merge_dict], [compare_lists],
      [base36encode] ...), and JSON values.
    - [TopologicalSort]: [python_sdk/infrahub_sdk/topological_sort.py].
    - [Md5], [Constants]: the MD5 digest of [hashlib], and the enumerations of
      [core/constants] with their guards.
    - [HashModel]: [core/models.py], class [HashableModel]: digest, difference and update
      of objects that contain lists of such objects.
    - [SchemaDefs]: the classes of [core/schema] (attributes, relationships, nodes,
      generics, profiles) with the metadata of their fields.
    - [NodeSchemaOps]: the operations of one schema ([core/schema/basenode_schema.py],
      [node_schema.py], [generic_schema.py] ...): access, difference, inheritance, paths.
    - [SchemaPaths]: [core/path.py].
    - [SchemaStore], [SchemaProcess], [SchemaValidate]: the class [SchemaBranch] of
      [core/schema_manager.py]: the cache of digests and [set], [get], [delete],
      [duplicate], [update], [load_schema]; the passes of [process_pre_validation] and
      [process_post_validation]; the checks of [process_validate].
    - [SchemaObjects]: a [SchemaBranch] as an object that refers to its three dictionaries,
      its constructor, [to_dict], and [duplicate] with the deep copy.
    - [SchemaUpdate]: [SchemaBranch.diff] and [validate_update], with the classes of
      [core/models.py] and the tables of [core/migrations] and [core/validators].
    - [ConstraintDeterminer]: [core/validators/determiner.py].
    - [SchemaMerge]: the three-way schema difference of [core/merge.py].
    - [Uniqueness]: [core/validators/uniqueness] (index, checker, requests) and the checks
      of a node in [core/node/constraints] ([grouped_uniqueness.py],
      [attribute_uniqueness.py]).
    - [RelationshipList], [RelationshipManager], [RelationshipSync]:
      [core/relationship/model.py]: the bounded list of a manager, the [Relationship]
      objects (with the mixins of [core/property.py]) in a heap, and the manager with the
      queries it records ([core/query/relationship.py]): [update], [fetch], [save]; the
      constraints [count.py] and [peer_kind.py] of [core/relationship/constraints].
    - [PyValue], [Enums], [PropertyMixin]: the values that attributes hold (JSON, members
      of enumerations, nodes); [core/enums.py] with what it uses of [enum.Enum]; the flags
      and the nodes of [core/property.py], shared by attributes and relationships through
      the class [HasProperties].
    - [Attribute], [AttributeObject]: [core/attribute.py]: the classes of attributes, their
      validation and the form of their values in the database; the object and its methods,
      with the queries of [core/query/attribute.py] it executes.  [AttributeFacts],
      [AttributeGraphql]: their theorems.
    - [Query]: [core/query/__init__.py]: the text of a query, its execution by pages, its
      results with their scores.  [QueryFacts]: its theorems.
    - [NodeRead]: what [core/query/node.py] makes of the rows it reads, and
      [ProfileAttributeIndex] of [core/manager.py].
    - [Node]: [core/node/__init__.py]: a node, its attributes ([AttributeObject]) and its
      relationships ([RelationshipManager]), with the queries they execute in order.
      [NodeFacts]: its theorems.
    - [NodeManager]: [core/manager.py]: the nodes of given ids, one node by its identifiers,
      and the deletion with the dependent nodes, with the schemas of [SchemaManager.get].
      [NodeManagerFacts]: its theorems.
    - [SdkSchema], [SdkStore]: [python_sdk/infrahub_sdk/schema.py], the schemas as the SDK
      sees them, the cache of the client and the creation payloads; [store.py], the nodes
      kept under a kind and a key, or under their human friendly id.
    - [SdkGraphql]: [python_sdk/infrahub_sdk/graphql.py]: how a dictionary is rendered as a
      query or a mutation; a reader of these documents (a lexer and a parser of the part of
      GraphQL they use), and what a dictionary means.  [SdkGraphqlFacts]: the round trip.
    - [SdkNode]: [python_sdk/infrahub_sdk/node.py]: the attributes, the related nodes and
      their managers, the nodes; the input data of a mutation, what is left out because it
      did not change, the requests.  [SdkNodeFacts]: their theorems.  [SdkQuery]: the
      queries of the nodes of a kind.
    - [Auth]: [auth.py], [core/account.py], [models.py], [api/auth.py],
      [api/dependencies.py]: the login, the tokens and the API keys, the session of a
      request; [graphql/auth] and [python_sdk/infrahub_sdk/analyzer.py]: which documents a
      session may execute; [graphql/mutations/account.py]: what an account changes of itself.
      [AuthFacts]: its theorems, with the requests to a server as a step relation.
    - [DeleteValidator]: [core/node/delete_validator.py].
    - [Lock]: [lock.py] and [Registry.get_branch] of [core/registry.py], with several tasks of
      several workers, whose blocks may be nested, as a step relation.
    - [Graph], [Branch]: the edges and the queries that write them, the fragment of
      Cypher of the branch filters with its evaluation, and [core/branch.py].
    - [IpNetwork]: the networks of Python's [ipaddress], as integers with a length;
      [IpText]: how this module reads and writes addresses.
    - [PrefixPool]: [pools/prefix.py], and [CoreIPPrefixPool.get_next] of
      [core/node/resource_manager/ip_prefix_pool.py].
    - [Ipam]: [core/ipam] (size, utilization, reconciliation), the query
      [IPPrefixReconcileQuery] of [core/query/ipam.py], [graphql/mutations/ipam.py].
    - [DiffModel], [BranchDiffer]: [core/diff/model.py] and [core/diff/branch_differ.py].
    - [BranchMerge]: [BranchMerger] of [core/merge.py].
    - [ProposedChange]: [graphql/mutations/proposed_change.py] with what it uses of the generic
      mutations ([graphql/mutations/main.py]), and the life of the proposed changes, their
      deletion included, as a step relation.

    ** How the parts interact

    [SchemaBranch] stores the schemas under their digest ([HashModel]) so that branches
    share objects; the passes of [SchemaProcess] are composed by [process] in
    [SchemaValidate], which uses [TopologicalSort] for the order of the generics.
    [Branch] holds the digest of its schema ([SchemaUpdate]) and reads and writes the
    graph.  [BranchDiffer] gives [BranchMerge] the elements to merge; [BranchMerge] uses
    [SchemaMerge] for the schema; [ProposedChange] calls [BranchMerge].  A [Node] is made of
    the rows that [Query] orders and [NodeRead] groups, and composes the attributes and the
    managers of the relationships of its schema; [NodeManager] makes nodes from the rows and
    deletes the nodes that [DeleteValidator] selects.  The validation of
    a schema update selects constraints with [ConstraintDeterminer].  On the side of the
    client, [SdkNode] and [SdkQuery] make dictionaries from the schemas of [SdkSchema] and
    the nodes of [SdkStore], and [SdkGraphql] renders them; the requests are the interface
    between the two sides.  A request reaches a mutation only with a session of [Auth].

    ** What the theorems show

    - Schema: a schema that went through [process] satisfies a well-formedness invariant;
      [set] then [get] gives the schema back; a branch and its duplicate, which share the
      cache, do not see what is set, deleted, loaded or updated in the other
      ([duplicate_isolation]), but for [process_default_values], which mutates a shared
      object; inheritance and cardinalities are characterised, and the branches whose
      parents and components are accepted; schemas without difference have the same
      digest; an update of the schema is accepted exactly when no field forbids it and
      every migration and constraint it requires exists; every required constraint is
      selected.
    - Graph and branches: the filters that a branch writes select exactly the edges that
      its specification allows; [rebase] and [delete] do to each edge what they
      announce; a merge only appends edges and closes edges of the default branch.
    - Differences: which nodes a difference contains, when its calculation raises, and
      exactly which pairs of paths are conflicts.
    - Deletion: the ids to delete are the closure of the given ones by the rows of the
      cascading relationships of the schemas; it is refused exactly when a mandatory
      relationship to one of the kinds given links a deleted node with one that stays (the
      kinds of the nodes deleted by cascade are not looked at, [mandatory_dependents_missed]).
    - Uniqueness: a node is refused exactly when another node has the same value in every
      field of a constraint; after a change of the schema, the check reports exactly the
      nodes that have a double in values that count (0, False and empty values do not), when
      the identifiers of the relationships differ.
    - Relationships: whatever operations are tried, the list of a manager keeps its bounds
      and never holds an element twice; [update] leaves exactly the given peers, each with
      the very object that it had, or a new one; [save] closes the relationships of the
      peers that left, creates those of the new ones, and updates those with a property
      that has another value than in the database; the count constraint passes exactly
      when every peer stays within the bounds of the other side.
    - Attributes: what is stored for a value is loaded as the same value, an address in the
      spelling of the database; [save] makes the row of the database hold the object, and
      writes nothing when it already does; [from_graphql] gives the object the properties
      it is given, and says that it changed exactly when one was different; which values
      an enumeration accepts.
    - Queries: a read executed by pages returns the rows of all the pages, in a known
      number of calls, and each row once, in order, when the answers are the slices of one
      list; of the rows of a group the one with the best scores remains, unless it is
      deleted.
    - Nodes: what creating a node guarantees of its fields, its names, its values and its
      id; saving one makes the row of each of its attributes hold the object, at one time;
      an attribute takes its value from the most important of its profiles; [get_many]
      returns one node for each id that exists, made from its own rows, and a deletion
      executes for each node given, and for each node selected that the database has, the
      query that deletes it.
    - SDK: a rendered document is read back as the query or the mutation that its
      dictionaries describe, as long as no value is None; creating a node gives the server
      each text attribute with exactly its text, in the document or as a variable; an
      update leaves out exactly the values that are those that were read; a manager holds
      a list of peers without duplicate; the query of the nodes of a kind asks for exactly
      the fields that its parameters select.
    - Sessions: an access token is only accepted for the account of a login made with the
      right password, within the lifetimes of the tokens, and a logout ends the session; a
      token is read back as what it is and never passes for the other kind; which documents
      an account that may write, a read-only account and an anonymous user may execute.
    - Locks: no lock is ever held by two tasks, even when an acquisition raises; blocks of
      the schema and graph locks, alone or nested in a block of another lock, never deadlock:
      every run ends with all the tasks done.  A block that takes again a lock that its task
      holds waits for ever, which the code can do ([get_branch_in_graph_lock_deadlocks]).
    - Proposed changes: merged and canceled ones keep their state and branches until they
      are deleted, and a merge happens only from an open one, once the validators that are
      linked to it after the update succeeded and its data conflicts have a branch to keep.
    - Prefixes: the free and the reserved networks of a pool always partition its network;
      [reserve] accepts exactly the networks that are free, and [get] gives a network of
      the requested length that is free, or fails exactly when there is none; the search
      over the resources of a pool of the database gives a network that overlaps no known
      one.  However a namespace was built, every node is under the most specific prefix
      that contains it ([ipam_tree_invariant]), although each operation only reconciles
      the node with its current and calculated parents and children.
    - Utilities: the topological sort terminates and returns layers, or the cycles; deep
      merge fails exactly on conflicts.

    Some theorems state what the code does where a comment or a name says something
    else: [set_shadowed], [process_default_values_leak], [absent_kind_blocks_merge],
    [merge_removed_property_active], [interrupted_acquire_leaks],
    [mandatory_dependents_missed], [different_actions_no_conflict], [sort_results_spec],
    [other_spelling_refused], [default_network_parent], [zero_never_unique],
    [enumeration_never_unique], [shared_identifier_missed],
    [update_checks_stale_details], [update_removal_unreported],
    [agnostic_edges_not_closed], [new_property_not_saved], [mandatory_many_refused],
    [delitem_keeps_count], [same_name_option_lost], [password_rehashed],
    [enum_always_changed], [enum_default_lost], [null_text_lost],
    [removed_source_not_saved], [not_default_resets], [get_result_deleted],
    [absent_counter_raises], [variable_prefix_replaced], [null_priority_blocks_reading],
    [label_not_validated], [node_source_lost], [node_and_profile_together],
    [fields_of_caller_changed], [quote_not_escaped], [final_newline_unreadable],
    [null_not_sent], [false_property_lost], [remove_after_unsaved],
    [unchanged_relationship_raises], [unchanged_relationships_sent],
    [prefetch_ignores_branch], [second_get_other_kind], [partial_schema_cached],
    [fragment_bypasses_checkers], [self_update_locks_out], [unordered_pages_lose_rows],
    [none_is_not_null], [get_branch_in_graph_lock_deadlocks].

    ** Bounds and fuel

    Integers are Python's, unbounded, hence [Z].  Loops over a finite list are folds.  The
    others take a fuel that theorems show to be enough: the topological sort (the number
    of keys, each iteration removes one), [encode_base] (the number itself), the cascade of
    [DeleteValidator] (the relationships not yet indexed, and the ids of the rows), the
    recursion of [reserve] (two levels, the limit of Python being 1000), the pages of a
    query (the number of rows divided by the size of a page, and one more), the reader of
    the documents (the number of its words).  The human friendly id of a node of the SDK
    asks for those of its peers: the fuel is the limit that Python puts on recursion, after
    which it raises.

    ** Conventions

    A timestamp is an instant, an integer; the ids of the database are natural numbers.
    The messages of exceptions are shortened to the words that identify the [raise].  The
    order in which Python lists a set is unspecified: code whose result depends on it takes
    the order as an instance of [SetOrder], and the theorems hold for all of them.  A
    mutable object is a value of the state that holds it; where the code shares one (the
    cache of schemas, the dictionaries of a branch, the relationships of a manager) the
    model has the store.

    ** Not modelled

    The rows that Cypher queries return (parameters, except for the edges that the branch
    operations write); [SchemaManager] but for its [get] and [get_schema_branch] (the load
    and the store of the schemas in the database); the validation of field formats by
    pydantic; the filters of queries on attributes; what [re], [pendulum], [httpx],
    [bcrypt] and [ujson] compute (fields of [Libraries]) and what [jwt] signs (parameters
    of [Auth], with the laws of a signature); the payloads of the difference for the API;
    the pools of addresses (netaddr, a third-party package), the reservations in the
    database and the listings of prefixes; the GraphQL and REST layers (but for the
    mutations above and who may use them), git, the message bus and the frontend, which are I/O or the glue of
    third-party frameworks; Redis locks, a third-party class; metrics and logs.  Of the SDK: the
    HTTP client, the answers to the mutations, [fetch], the artifacts and the groups, the
    configuration files of repositories, floating-point numbers, node objects inside the
    initial data of a node, and related nodes given as data; its synchronous classes
    repeat the asynchronous ones. *)

From stdpp Require Import prelude strings gmap sorting pretty.

(** ** Exceptions and fallible computations *)

(** The exceptions the modelled code raises.  The argument is the message
    (or the key) of the Python exception; long messages are shortened to the
    words that identify the raise statement. *)
Inductive exn :=
  | ValueError (msg : string)
  | TypeError (msg : string)
  | KeyError (key : string)
  | IndexError
  | ZeroDivisionError
  | AttributeError (name : string)
  | RuntimeError (msg : string)
  | ValidationError (msg : string)
  | SchemaNotFoundError (identifier : string)
  | BranchNotFoundError (identifier : string)
  | NodeNotFoundError (identifier : string)
  | InitializationError (msg : string)
  | QueryError (msg : string)
  | AttributePathParsingError (msg : string)
  | DependencyCycleExistsError (cycles : list (list string))
  | DiffFromRequiredOnDefaultBranchError
  | DiffRangeValidationError
  | JsonDecodeError
  | ValidationErrors (msgs : list string)
  | LookupError (msg : string)
  | TimestampFormatError (msg : string)
  | AuthorizationError (msg : string)
  | PermissionDeniedError (msg : string)
  | PermissionError (msg : string)
  | Error (msg : string).

#[export] Instance exn_eq_dec : EqDecision exn.
Proof. solve_decision. Defined.

Inductive result (A : Type) :=
  | Ok (a : A)
  | Err (e : exn).
Arguments Ok {_} _.
Arguments Err {_} _.

#[export] Instance result_eq_dec `{EqDecision A} : EqDecision (result A).
Proof. solve_decision. Defined.

#[export] Instance result_ret : MRet result := λ A a, Ok a.
#[export] Instance result_bind : MBind result := λ A B f m,
  match m with Ok a => f a | Err e => Err e end.
#[export] Instance result_fmap : FMap result := λ A B f m,
  match m with Ok a => Ok (f a) | Err e => Err e end.

Definition is_ok {A} (r : result A) : bool :=
  match r with Ok _ => true | Err _ => false end.

(** [require e o] is [Ok a] when [o] holds [a], the exception [e] otherwise. *)
Definition require {A} (e : exn) (o : option A) : result A :=
  match o with Some a => Ok a | None => Err e end.

(** [if c: raise e] *)
Definition raise_if (c : bool) (e : exn) : result unit :=
  if c then Err e else Ok tt.

Lemma bind_ok {A B} (m : result A) (f : A → result B) b :
  m ≫= f = Ok b ↔ ∃ a, m = Ok a ∧ f a = Ok b.
Proof. destruct m as [a|e]; cbn; naive_solver. Qed.

Lemma bind_err {A B} (m : result A) (f : A → result B) e :
  m ≫= f = Err e ↔ m = Err e ∨ ∃ a, m = Ok a ∧ f a = Err e.
Proof. destruct m as [a|e']; cbn; naive_solver. Qed.

Lemma raise_if_ok c e : raise_if c e = Ok tt ↔ c = false.
Proof. destruct c; naive_solver. Qed.

Lemma then_ok {B} (m : result unit) (k : result B) b :
  (m ≫= λ _, k) = Ok b ↔ m = Ok tt ∧ k = Ok b.
Proof. destruct m as [[]|e]; cbn; naive_solver. Qed.

Lemma raise_if_bind {B} c e (m : result B) b :
  (raise_if c e ≫= λ _, m) = Ok b ↔ c = false ∧ m = Ok b.
Proof. destruct c; cbn; naive_solver. Qed.

(** A loop over a list that threads an accumulator and stops at the first
    exception: [for x in l: acc = f(acc, x)]. *)
Fixpoint foldM {A B} (f : A → B → result A) (acc : A) (l : list B) : result A :=
  match l with
  | [] => Ok acc
  | x :: l' => f acc x ≫= λ acc', foldM f acc' l'
  end.

Lemma foldM_app {A B} (f : A → B → result A) acc l1 l2 :
  foldM f acc (l1 ++ l2) = foldM f acc l1 ≫= λ acc', foldM f acc' l2.
Proof.
  revert acc. induction l1 as [|x l1 IH]; intros acc; cbn; [done|].
  destruct (f acc x); cbn; [apply IH|done].
Qed.

Lemma foldM_inv {A B} (I : A → Prop) (f : A → B → result A) l acc acc' :
  (∀ a x a', x ∈ l → I a → f a x = Ok a' → I a') →
  I acc → foldM f acc l = Ok acc' → I acc'.
Proof.
  revert acc. induction l as [|x l IH]; intros acc Hstep HI Hf; cbn in Hf; [naive_solver|].
  apply bind_ok in Hf as (a & Hx & Hl).
  eapply IH, Hl; [|eapply Hstep, Hx; [left|done]].
  intros ????; apply Hstep; by right.
Qed.

(** A loop that never raises, with an invariant on the elements done. *)
Lemma foldM_total {A B} (I : list B → A → Prop) (f : A → B → result A) l :
  (∀ done acc x, x ∈ l → I done acc → ∃ acc', f acc x = Ok acc' ∧ I (done ++ [x]) acc') →
  ∀ acc, I [] acc → ∃ acc', foldM f acc l = Ok acc' ∧ I l acc'.
Proof.
  intros Hstep. assert (∀ l' done acc, (∀ x, x ∈ l' → x ∈ l) → I done acc →
    ∃ acc', foldM f acc l' = Ok acc' ∧ I (done ++ l') acc') as H.
  { induction l' as [|x l' IH]; intros done acc Hl HI; cbn; [exists acc; by rewrite app_nil_r|].
    destruct (Hstep done acc x) as (acc' & -> & HI'); [apply Hl; by left|done|]. cbn.
    destruct (IH (done ++ [x]) acc') as (acc'' & Hok & HI''); [intros y Hy; apply Hl; by right|done|].
    exists acc''. split; [done|]. by rewrite <-app_assoc in HI''. }
  intros acc HI. by apply (H l [] acc).
Qed.

(** A loop with an element that always raises does not return. *)
Lemma foldM_stuck {A B} (f : A → B → result A) l acc x :
  x ∈ l → (∀ acc, ∃ e, f acc x = Err e) → ∃ e, foldM f acc l = Err e.
Proof.
  intros Hx Hf. revert acc. induction l as [|y l IH]; intros acc; [by apply elem_of_nil in Hx|].
  cbn. destruct (f acc y) as [acc'|e] eqn:Hy; cbn; [|by eexists].
  apply elem_of_cons in Hx as [->|Hx]; [|by apply IH].
  destruct (Hf acc) as [e He]. congruence.
Qed.

(** A check run on every element: [for x in l: check(x)]. *)
Definition for_all {B} (f : B → result unit) (l : list B) : result unit :=
  foldM (λ _, f) tt l.

Lemma for_all_ok {B} (f : B → result unit) l :
  for_all f l = Ok tt ↔ ∀ x, x ∈ l → f x = Ok tt.
Proof.
  unfold for_all. induction l as [|x l IH]; cbn.
  { split; [set_solver|done]. }
  rewrite bind_ok. setoid_rewrite elem_of_cons. split.
  - intros ([] & Hx & Hl) y [->|Hy]; [done|]. by apply IH.
  - intros H. exists tt. split; [by apply H; left|]. apply IH. naive_solver.
Qed.

Lemma for_all_err {B} (f : B → result unit) l e :
  for_all f l = Err e →
  ∃ l1 x l2, l = l1 ++ x :: l2 ∧ f x = Err e ∧ for_all f l1 = Ok tt.
Proof.
  unfold for_all. induction l as [|x l IH]; cbn; [done|].
  rewrite bind_err. intros [Hx|([] & Hx & Hl)].
  - by exists [], x, l.
  - destruct (IH Hl) as (l1 & y & l2 & -> & Hy & H1).
    exists (x :: l1), y, l2. cbn. by rewrite Hx.
Qed.

Lemma mapM_result_ext {A B} (f g : A → result B) l :
  (∀ x, x ∈ l → f x = g x) → mapM f l = mapM g l.
Proof.
  induction l as [|x l IH]; intros Hfg; [done|]. cbn. rewrite (Hfg x) by left.
  rewrite IH; [done|]. intros y Hy. apply Hfg. by right.
Qed.

(** A loop in which no iteration raises returns the results of all of them. *)
Lemma mapM_total {A B} (f : A → result B) l :
  (∀ x, x ∈ l → ∃ y, f x = Ok y) →
  ∃ ys, mapM f l = Ok ys ∧ ∀ y, y ∈ ys ↔ ∃ x, x ∈ l ∧ f x = Ok y.
Proof.
  induction l as [|x l IH]; intros Hf.
  { exists []. split; [done|]. set_solver. }
  destruct (Hf x) as [y Hy]; [left|]. destruct IH as (ys & Hys & Hin); [intros; apply Hf; by right|].
  exists (y :: ys). cbn. rewrite Hy. cbn. rewrite Hys. split; [done|]. intros z.
  setoid_rewrite elem_of_cons. rewrite Hin. split.
  - intros [->|(w & Hw & Hz)]; [exists x|exists w]; auto.
  - intros (w & [->|Hw] & Hz); [left; congruence|right; by exists w].
Qed.

(** Case analysis on the exception tests of a handler in a hypothesis. *)
Ltac py_inv H :=
  repeat first
    [ progress simplify_eq/=
    | let a := fresh "a" in let Ha := fresh "Ha" in
      apply bind_ok in H as (a & Ha & H)
    | rewrite raise_if_ok in H ].

(** ** State passing with exceptions

    [Exec S A] is the meaning of a method that may mutate the state [S]: a
    raise keeps the mutations made before it, as it does in Python. *)
Definition Exec (S A : Type) : Type := S → result A * S.

#[export] Instance exec_ret {S} : MRet (Exec S) := λ A a s, (Ok a, s).
#[export] Instance exec_bind {S} : MBind (Exec S) := λ A B f m s,
  match m s with
  | (Ok a, s') => f a s'
  | (Err e, s') => (Err e, s')
  end.
#[export] Instance exec_fmap {S} : FMap (Exec S) := λ A B f m s,
  match m s with
  | (Ok a, s') => (Ok (f a), s')
  | (Err e, s') => (Err e, s')
  end.

Section exec.
Context {S : Type}.

Definition get_state : Exec S S := λ s, (Ok s, s).
Definition gets {A} (f : S → A) : Exec S A := λ s, (Ok (f s), s).
Definition modify (f : S → S) : Exec S unit := λ s, (Ok tt, f s).
Definition raise {A} (e : exn) : Exec S A := λ s, (Err e, s).
Definition lift {A} (r : result A) : Exec S A := λ s, (r, s).
(** [try: m except e if handler(e) is defined] *)
Definition catch {A} (m : Exec S A) (handler : exn → option (Exec S A)) : Exec S A :=
  λ s, match m s with
       | (Err e, s') => match handler e with Some h => h s' | None => (Err e, s') end
       | r => r
       end.

Fixpoint for_each {B} (f : B → Exec S unit) (l : list B) : Exec S unit :=
  match l with
  | [] => mret tt
  | x :: l' => f x ≫= λ _, for_each f l'
  end.

(** Weakest precondition of a method for a postcondition on its outcome. *)
Definition wp {A} (m : Exec S A) (Q : result A → S → Prop) (s : S) : Prop :=
  Q (m s).1 (m s).2.

Lemma wp_mono {A} (m : Exec S A) (Q Q' : result A → S → Prop) s :
  wp m Q s → (∀ r s', Q r s' → Q' r s') → wp m Q' s.
Proof. unfold wp. naive_solver. Qed.

Lemma wp_ret {A} (a : A) Q s : Q (Ok a) s → wp (mret a) Q s.
Proof. done. Qed.

Lemma wp_raise {A} e (Q : result A → S → Prop) s : Q (Err e) s → wp (raise e) Q s.
Proof. done. Qed.

Lemma wp_lift {A} (r : result A) (Q : result A → S → Prop) s : Q r s → wp (lift r) Q s.
Proof. done. Qed.

Lemma wp_gets {A} (f : S → A) Q s : Q (Ok (f s)) s → wp (gets f) Q s.
Proof. done. Qed.

Lemma wp_modify f (Q : result unit → S → Prop) s : Q (Ok tt) (f s) → wp (modify f) Q s.
Proof. done. Qed.

Lemma wp_bind {A B} (m : Exec S A) (f : A → Exec S B) Q s :
  wp m (λ r s', match r with Ok a => wp (f a) Q s' | Err e => Q (Err e) s' end) s →
  wp (m ≫= f) Q s.
Proof. unfold wp, mbind, exec_bind. destruct (m s) as [[a|e] s']; done. Qed.

(** A loop keeps what each iteration keeps: [I] holds between iterations,
    indexed by the elements already seen, and [E] after a raise. *)
Lemma wp_for_each {B} (I : list B → S → Prop) (E : exn → S → Prop)
    (f : B → Exec S unit) l s :
  (∀ done x todo s, l = done ++ x :: todo → I done s →
     wp (f x) (λ r s', match r with Ok _ => I (done ++ [x]) s' | Err e => E e s' end) s) →
  I [] s →
  wp (for_each f l) (λ r s', match r with Ok _ => I l s' | Err e => E e s' end) s.
Proof.
  intros Hstep HI.
  enough (H : ∀ done todo s, l = done ++ todo → I done s →
    wp (for_each f todo)
      (λ r s', match r with Ok _ => I l s' | Err e => E e s' end) s) by by apply (H []).
  clear s HI. intros done todo; revert done.
  induction todo as [|x todo IH]; intros done s Hl HI; cbn.
  { rewrite app_nil_r in Hl. by subst. }
  apply wp_bind. eapply wp_mono; [by eapply Hstep|].
  intros [u|e] s' Hs'; [|done]. apply (IH (done ++ [x])); [|done].
  by rewrite <-app_assoc.
Qed.

(** [m] never breaks [I], whether it returns or raises. *)
Definition keeps {A} (I : S → Prop) (m : Exec S A) : Prop :=
  ∀ s, I s → I (m s).2.

Lemma keeps_ret {A} I (a : A) : keeps I (mret a).
Proof. by intros s. Qed.
Lemma keeps_raise {A} I e : keeps I (raise (A:=A) e).
Proof. by intros s. Qed.
Lemma keeps_lift {A} I (r : result A) : keeps I (lift r).
Proof. by intros s. Qed.
Lemma keeps_gets {A} I (f : S → A) : keeps I (gets f).
Proof. by intros s. Qed.
Lemma keeps_modify (I : S → Prop) f : (∀ s, I s → I (f s)) → keeps I (modify f).
Proof. intros H s. apply H. Qed.
Lemma keeps_bind {A B} I (m : Exec S A) (f : A → Exec S B) :
  keeps I m → (∀ a, keeps I (f a)) → keeps I (m ≫= f).
Proof.
  intros Hm Hf s HI. specialize (Hm s HI).
  unfold mbind, exec_bind. destruct (m s) as [[a|e] s']; [by apply Hf|done].
Qed.
Lemma keeps_for_each {B} I (f : B → Exec S unit) l :
  (∀ x, keeps I (f x)) → keeps I (for_each f l).
Proof. intros Hf. induction l; [apply keeps_ret|]. by apply keeps_bind. Qed.
Lemma keeps_catch {A} I (m : Exec S A) h :
  keeps I m → (∀ e m', h e = Some m' → keeps I m') → keeps I (catch m h).
Proof.
  intros Hm Hh s HI. specialize (Hm s HI). unfold catch.
  destruct (m s) as [[a|e] s']; [done|].
  destruct (h e) as [m'|] eqn:He; [|done]. by eapply Hh.
Qed.

(** A sequence that returns is two methods that return. *)
Lemma exec_bind_ok {A B} (m : Exec S A) (f : A → Exec S B) s b s' :
  (m ≫= f) s = (Ok b, s') ↔ ∃ a s1, m s = (Ok a, s1) ∧ f a s1 = (Ok b, s').
Proof.
  unfold mbind, exec_bind. destruct (m s) as [[a|e] s1]; [|naive_solver]. split; [by eauto|].
  by intros (a' & s1' & [= <- <-] & ?).
Qed.

(** The exceptions [m] can raise are among [E]. *)
Definition raises {A} (E : exn → Prop) (m : Exec S A) : Prop :=
  ∀ s e, (m s).1 = Err e → E e.

Lemma raises_ret {A} E (a : A) : raises E (mret a).
Proof. done. Qed.
Lemma raises_raise {A} (E : exn → Prop) e : E e → raises E (raise (A:=A) e).
Proof. by intros He s e' [= <-]. Qed.
Lemma raises_gets {A} E (f : S → A) : raises E (gets f).
Proof. done. Qed.
Lemma raises_get_state E : raises E get_state.
Proof. done. Qed.
Lemma raises_modify E f : raises E (modify f).
Proof. done. Qed.
Lemma raises_bind {A B} E (m : Exec S A) (f : A → Exec S B) :
  raises E m → (∀ a, raises E (f a)) → raises E (m ≫= f).
Proof.
  intros Hm Hf s e. specialize (Hm s e). unfold mbind, exec_bind.
  destruct (m s) as [[a|e'] s']; [apply Hf|]. intros [= <-]. by apply Hm.
Qed.
Lemma raises_for_each {B} E (f : B → Exec S unit) l :
  (∀ x, raises E (f x)) → raises E (for_each f l).
Proof. intros Hf. induction l; [apply raises_ret|]. by apply raises_bind. Qed.
End exec.

(** One step of a method whose first call is known. *)
Lemma exec_step {S A B} (m : Exec S A) (f : A → Exec S B) s a s1 : m s = (Ok a, s1) → (m ≫= f) s = f a s1.
Proof. intros Hm. unfold mbind, exec_bind. by rewrite Hm. Qed.
Lemma exec_err {S A B} (m : Exec S A) (f : A → Exec S B) s e s1 : m s = (Err e, s1) → (m ≫= f) s = (Err e, s1).
Proof. intros Hm. unfold mbind, exec_bind. by rewrite Hm. Qed.

Create HintDb exec discriminated.
#[export] Hint Resolve keeps_ret keeps_raise keeps_lift keeps_gets keeps_modify : exec.
#[export] Hint Resolve keeps_bind keeps_for_each keeps_catch : exec.

(** Structural steps through a method body in a [keeps] goal. *)
Ltac keeps_step :=
  lazymatch goal with
  | |- ∀ _, _ => intros ?
  | |- keeps _ (mbind _ _) => apply keeps_bind; [|intros ?]
  | |- keeps _ (for_each _ _) => apply keeps_for_each; intros ?
  | |- keeps _ (mret _) => apply keeps_ret
  | |- keeps _ (raise _) => apply keeps_raise
  | |- keeps _ (lift _) => apply keeps_lift
  | |- keeps _ (gets _) => apply keeps_gets
  | |- keeps _ (if ?b then _ else _) => destruct b
  | |- keeps _ (match ?x with _ => _ end) => destruct x
  end.
Ltac keeps_auto := repeat (keeps_step || solve [eauto with exec]).

(** The same steps in a [raises] goal. *)
Ltac raises_step :=
  lazymatch goal with
  | |- ∀ _, _ => intros ?
  | |- raises _ (mbind _ _) => apply raises_bind; [|intros ?]
  | |- raises _ (for_each _ _) => apply raises_for_each; intros ?
  | |- raises _ (mret _) => apply raises_ret
  | |- raises _ (raise _) => apply raises_raise
  | |- raises _ (gets _) => apply raises_gets
  | |- raises _ get_state => apply raises_get_state
  | |- raises _ (modify _) => apply raises_modify
  | |- raises _ (if ?b then _ else _) => destruct b
  | |- raises _ (match ?x with _ => _ end) => destruct x
  end.
Ltac raises_auto := repeat (raises_step || solve [eauto with exec]).

(** ** Generic lemmas on lists and options *)

Definition opt_is_some {A} (o : option A) : bool :=
  match o with Some _ => true | None => false end.

(** Python's truth value of an optional list or string is false for [None]
    and for the empty value. *)
Definition truthy_list {A} (o : option (list A)) : bool :=
  match o with Some (_ :: _) => true | _ => false end.
Definition truthy_str (o : option string) : bool :=
  match o with Some (String _ _) => true | _ => false end.

Lemma existsb_bool_decide {A} `{EqDecision A} (x : A) l :
  existsb (λ y, bool_decide (x = y)) l = bool_decide (x ∈ l).
Proof.
  apply eq_true_iff_eq. rewrite existsb_exists, bool_decide_eq_true. split.
  - intros (y & Hy & ->%bool_decide_eq_true). by apply list_elem_of_In.
  - intros Hx. exists x. rewrite <-list_elem_of_In. by rewrite bool_decide_eq_true.
Qed.

Lemma NoDup_fmap_filter {A B} (f : A → B) (P : A → Prop) `{∀ x, Decision (P x)} l :
  NoDup (f <$> l) → NoDup (f <$> filter P l).
Proof.
  induction l as [|x l IH]; [done|]. rewrite fmap_cons, NoDup_cons, filter_cons.
  intros [Hx Hl]. case_decide; [|by apply IH].
  rewrite fmap_cons, NoDup_cons. split; [|by apply IH].
  intros (y & Heq & [_ Hy]%list_elem_of_filter)%list_elem_of_fmap.
  apply Hx, list_elem_of_fmap. by exists y.
Qed.

Lemma omap_id_Some {A} (l : list A) : omap id (Some <$> l) = l.
Proof. induction l as [|x l IH]; [done|]. cbn. by rewrite IH. Qed.

Lemma list_filter_ext {A} (P Q : A → Prop) `{∀ x, Decision (P x)} `{∀ x, Decision (Q x)} (l : list A) :
  (∀ x, x ∈ l → P x ↔ Q x) → filter P l = filter Q l.
Proof.
  induction l as [|x l IH]; intros HPQ; [done|]. rewrite !filter_cons.
  assert (P x ↔ Q x) as Hx by (apply HPQ; left). rewrite IH by (intros; apply HPQ; by right).
  destruct (decide (P x)), (decide (Q x)); tauto.
Qed.

(** ** Field assignment

    [r <| f := v |>] is the record [r] with the field [f] replaced: the
    constructor application that rebuilds [r] field by field ([rebuild]) with
    the projection [f r] abstracted. *)
Class Rebuild (R : Type) := rebuild : R → R.
Class Assign {R T : Type} (f : R → T) := assign : T → R → R.
Arguments assign {R T} f {_} _ _.

Ltac assign_tac R f :=
  let r := fresh "r" in let v := fresh "v" in
  intros v r;
  let t := eval hnf in (rebuild (R:=R) r) in
  match eval pattern (f r) in t with
  | ?ctx _ => let t' := eval cbv beta in (ctx v) in exact t'
  end.
#[export] Hint Extern 0 (Assign (R:=?R) ?f) => assign_tac R f : typeclass_instances.

Declare Scope record_scope.
Notation "r <| f := v |>" := (assign f v r)
  (at level 1, left associativity, format "r  <| f  :=  v |>") : record_scope.
#[global] Open Scope record_scope.

Lemma elem_of_concat {A} (x : A) ls : x ∈ concat ls ↔ ∃ l, l ∈ ls ∧ x ∈ l.
Proof. induction ls as [|l ls IH]; cbn; [set_solver|]. rewrite elem_of_app, IH. set_solver. Qed.

Lemma ex_elem_cons {A} (P : A → Prop) x l :
  (∃ y, y ∈ x :: l ∧ P y) ↔ P x ∨ ∃ y, y ∈ l ∧ P y.
Proof.
  setoid_rewrite elem_of_cons. split; [intros (y & [->|Hy] & HP); eauto|].
  intros [HP|(y & Hy & HP)]; eauto.
Qed.

Lemma length_filter_pos {A} (P : A → Prop) `{∀ x, Decision (P x)} l :
  0 < length (filter P l) ↔ ∃ x, x ∈ l ∧ P x.
Proof.
  assert (∀ x, x ∈ filter P l ↔ x ∈ l ∧ P x) as Hf by (intros x; rewrite list_elem_of_filter; tauto).
  setoid_rewrite <-Hf. destruct (filter P l) as [|y k]; cbn.
  - split; [lia|]. by intros (x & Hx%elem_of_nil).
  - split; [|lia]. intros _. exists y. left.
Qed.
