(* ===== verification/PyString.v ===== *)
(** * Python strings, orders and sorting

    The operations of [str] and [sorted] the modelled code uses, on ASCII
    text: comparison, [split], [join], [lower], [title], the [in] test,
    [startswith] and [endswith]. *)

From stdpp Require Import prelude strings sorting pretty.
From Stdlib Require Import Ascii.
From S2P Require Import Prelude.

Create Rewrite HintDb py_str.

(** ** Total orders used by [sorted] *)

Class PyOrd (A : Type) `{EqDecision A} := {
  py_le : relation A;
  #[global] py_le_dec :: RelDecision py_le;
  #[global] py_le_trans :: Transitive py_le;
  #[global] py_le_antisymm :: AntiSymm (=) py_le;
  #[global] py_le_total :: Total py_le;
}.

(** [sorted(l)]: Python's sort is stable and so is this merge sort. *)
Definition py_sorted {A} `{PyOrd A} (l : list A) : list A := merge_sort py_le l.

(** [sorted(l, key=key)] *)
Definition key_le {A K} `{PyOrd K} (key : A → K) : relation A :=
  λ x y, py_le (key x) (key y).
#[export] Instance key_le_dec {A K} `{PyOrd K} (key : A → K) : RelDecision (key_le key).
Proof. intros x y. unfold key_le. apply _. Defined.
#[export] Instance key_le_total {A K} `{PyOrd K} (key : A → K) : Total (key_le key).
Proof. intros x y. apply (total py_le). Qed.
#[export] Instance key_le_trans {A K} `{PyOrd K} (key : A → K) : Transitive (key_le key).
Proof. intros x y z. apply (transitivity (R:=py_le)). Qed.
Definition py_sorted_by {A K} `{PyOrd K} (key : A → K) (l : list A) : list A :=
  merge_sort (key_le key) l.

Section sorted.
Context {A} `{PyOrd A}.

Lemma py_sorted_perm (l : list A) : py_sorted l ≡ₚ l.
Proof. apply merge_sort_Permutation. Qed.

Lemma py_sorted_sorted (l : list A) : StronglySorted py_le (py_sorted l).
Proof. apply StronglySorted_merge_sort; apply _. Qed.

Lemma elem_of_py_sorted x (l : list A) : x ∈ py_sorted l ↔ x ∈ l.
Proof. by rewrite py_sorted_perm. Qed.

Lemma NoDup_py_sorted (l : list A) : NoDup (py_sorted l) ↔ NoDup l.
Proof. by rewrite py_sorted_perm. Qed.

(** The result depends on the multiset of elements only. *)
Lemma py_sorted_proper (l1 l2 : list A) : l1 ≡ₚ l2 → py_sorted l1 = py_sorted l2.
Proof.
  intros Hp. apply (StronglySorted_unique py_le); try apply py_sorted_sorted.
  by rewrite !py_sorted_perm.
Qed.

(** A sorted list without repetition is determined by its elements. *)
Lemma sorted_NoDup_unique (l1 l2 : list A) :
  StronglySorted py_le l1 ∧ NoDup l1 → StronglySorted py_le l2 ∧ NoDup l2 →
  (∀ x, x ∈ l1 ↔ x ∈ l2) → l1 = l2.
Proof.
  intros [Hs1 Hn1] [Hs2 Hn2] Heq. apply (StronglySorted_unique py_le); [done..|].
  by apply NoDup_Permutation.
Qed.

Lemma py_sorted_id (l : list A) : StronglySorted py_le l → py_sorted l = l.
Proof.
  intros Hs. apply (StronglySorted_unique py_le); [apply py_sorted_sorted|done|].
  apply py_sorted_perm.
Qed.
End sorted.

Lemma py_sorted_by_perm {A K} `{PyOrd K} (key : A → K) (l : list A) : py_sorted_by key l ≡ₚ l.
Proof. apply merge_sort_Permutation. Qed.
Lemma py_sorted_by_sorted {A K} `{PyOrd K} (key : A → K) (l : list A) :
  StronglySorted (key_le key) (py_sorted_by key l).
Proof. apply StronglySorted_merge_sort; apply _. Qed.

#[export] Instance py_sorted_Proper {A} `{PyOrd A} :
  Proper ((≡ₚ) ==> (=)) (py_sorted (A:=A)).
Proof. intros l1 l2. apply py_sorted_proper. Qed.

(** ** The order of strings, integers, pairs and lists *)

#[export] Program Instance string_ord : PyOrd string := {| py_le := String.le |}.

#[export] Program Instance Z_ord : PyOrd Z := {| py_le := Z.le |}.

Section pair_ord.
Context {A B} `{PyOrd A, PyOrd B}.
Definition pair_le (p q : A * B) : Prop :=
  (py_le p.1 q.1 ∧ p.1 ≠ q.1) ∨ (p.1 = q.1 ∧ py_le p.2 q.2).
#[export] Instance pair_le_dec : RelDecision pair_le.
Proof. intros p q. unfold pair_le. apply _. Defined.
#[export] Instance pair_le_trans : Transitive pair_le.
Proof.
  intros [a1 b1] [a2 b2] [a3 b3]; unfold pair_le; cbn.
  intros [[H12 N12]|[-> H12]] [[H23 N23]|[-> H23]].
  - left. split; [by etrans|]. intros ->. apply N12. by apply (anti_symm py_le).
  - by left.
  - by left.
  - right. split; [done|by etrans].
Qed.
#[export] Instance pair_le_antisymm : AntiSymm (=) pair_le.
Proof.
  intros [a1 b1] [a2 b2]; unfold pair_le; cbn.
  intros [[H12 N12]|[-> H12]] [[H21 N21]|[Heq H21]]; try done.
  - destruct N12. by apply (anti_symm py_le).
  - f_equal. by apply (anti_symm py_le).
Qed.
#[export] Instance pair_le_total : Total pair_le.
Proof.
  intros [a1 b1] [a2 b2]; unfold pair_le; cbn.
  destruct (decide (a1 = a2)) as [->|Hne].
  - destruct (total py_le b1 b2); naive_solver.
  - destruct (total py_le a1 a2); naive_solver.
Qed.
#[export] Instance pair_ord : PyOrd (A * B) := {| py_le := pair_le |}.
End pair_ord.

(** ** Operations of [str] *)

(** [strip_prefix p s] is the rest of [s] after the prefix [p]. *)
Fixpoint strip_prefix (p s : string) : option string :=
  match p, s with
  | EmptyString, _ => Some s
  | String a p', String b s' => if decide (a = b) then strip_prefix p' s' else None
  | String _ _, EmptyString => None
  end.

(** [s.startswith(p)] *)
Definition startswith (s p : string) : bool := opt_is_some (strip_prefix p s).

(** [p in s] *)
Fixpoint str_contains (p s : string) : bool :=
  startswith s p ||
  match s with EmptyString => false | String _ s' => str_contains p s' end.

(** [s.split(sep, maxsplit=1)]: the text before and after the first [sep]. *)
Fixpoint split_once (sep s : string) : option (string * string) :=
  match strip_prefix sep s with
  | Some rest => Some ("", rest)
  | None =>
      match s with
      | EmptyString => None
      | String c s' =>
          match split_once sep s' with
          | Some (l, r) => Some (String c l, r)
          | None => None
          end
      end
  end.

(** [s.split(sep)] for a non-empty [sep]; [skip] counts the characters of a
    separator still to be dropped. *)
Fixpoint split_aux (sep : string) (skip : nat) (cur s : string) : list string :=
  match s with
  | EmptyString => [cur]
  | String c s' =>
      match skip with
      | S k => split_aux sep k cur s'
      | O =>
          if startswith s sep then cur :: split_aux sep (String.length sep - 1) "" s'
          else split_aux sep 0 (cur +:+ String c "") s'
      end
  end.
Definition py_split (sep s : string) : list string := split_aux sep 0 "" s.

(** [sep.join(l)] *)
Fixpoint py_join (sep : string) (l : list string) : string :=
  match l with
  | [] => ""
  | [x] => x
  | x :: l' => x +:+ sep +:+ py_join sep l'
  end.

(** [s.replace(old, new)] for a non-empty [old] *)
Definition py_replace (old new s : string) : string := py_join new (py_split old s).

(** [s.lstrip(chars)] and [s.strip(chars)], with the characters as a test *)
Fixpoint str_lstrip (drop : ascii → bool) (s : string) : string :=
  match s with String c s' => if drop c then str_lstrip drop s' else s | EmptyString => "" end.
Fixpoint str_rev (s acc : string) : string :=
  match s with EmptyString => acc | String c s' => str_rev s' (String c acc) end.
Definition str_strip (drop : ascii → bool) (s : string) : string :=
  str_rev (str_lstrip drop (str_rev (str_lstrip drop s) "")) "".

Definition is_upper (c : ascii) : bool :=
  let n := N_of_ascii c in ((65 <=? n) && (n <=? 90))%N.
Definition is_lower (c : ascii) : bool :=
  let n := N_of_ascii c in ((97 <=? n) && (n <=? 122))%N.
Definition is_alpha (c : ascii) : bool := is_upper c || is_lower c.
Definition is_digit (c : ascii) : bool :=
  let n := N_of_ascii c in ((48 <=? n) && (n <=? 57))%N.
Definition lower_char (c : ascii) : ascii :=
  if is_upper c then ascii_of_N (N_of_ascii c + 32) else c.
Definition upper_char (c : ascii) : ascii :=
  if is_lower c then ascii_of_N (N_of_ascii c - 32) else c.

Fixpoint str_map (f : ascii → ascii) (s : string) : string :=
  match s with EmptyString => "" | String c s' => String (f c) (str_map f s') end.

(** [s.lower()] and [s.upper()] *)
Definition py_lower : string → string := str_map lower_char.
Definition py_upper : string → string := str_map upper_char.

(** [s.title()]: a letter is upper-cased after a non-letter, lower-cased after a letter. *)
Fixpoint title_aux (after_letter : bool) (s : string) : string :=
  match s with
  | EmptyString => ""
  | String c s' =>
      String (if after_letter then lower_char c else upper_char c)
             (title_aux (is_alpha c) s')
  end.
Definition py_title : string → string := title_aux false.

(** [str(b)] of a bool. *)
Definition str_bool (b : bool) : string := if b then "True" else "False".

(** ** Lemmas *)

Lemma str_app_cons c (s t : string) : String c s +:+ t = String c (s +:+ t).
Proof. done. Qed.

Lemma str_app_assoc (s t u : string) : (s +:+ t) +:+ u = s +:+ t +:+ u.
Proof. induction s as [|c s IH]; [done|]. by rewrite !str_app_cons, IH. Qed.

Lemma str_app_nil_r (s : string) : s +:+ "" = s.
Proof. induction s as [|c s IH]; [done|]. by rewrite str_app_cons, IH. Qed.

#[export] Hint Rewrite str_app_cons str_app_assoc str_app_nil_r : py_str.

Lemma strip_prefix_spec p s t : strip_prefix p s = Some t ↔ s = p +:+ t.
Proof.
  revert s. induction p as [|a p IH]; intros s.
  { change ("" +:+ t) with t. naive_solver. }
  rewrite str_app_cons. destruct s as [|b s]; cbn; [naive_solver|].
  case_decide as Hab; [subst; rewrite IH|]; naive_solver.
Qed.

Lemma startswith_spec s p : startswith s p = true ↔ ∃ t, s = p +:+ t.
Proof.
  unfold startswith. setoid_rewrite <-strip_prefix_spec.
  destruct (strip_prefix p s); cbn; naive_solver.
Qed.

Lemma split_once_some sep s l r : split_once sep s = Some (l, r) → s = l +:+ sep +:+ r.
Proof.
  revert l. induction s as [|c s IH]; intros l; cbn.
  - destruct (strip_prefix sep "") as [t|] eqn:Hs; [|done].
    intros [= <- <-]. by apply strip_prefix_spec in Hs.
  - destruct (strip_prefix sep (String c s)) as [t|] eqn:Hs.
    + intros [= <- <-]. by apply strip_prefix_spec in Hs.
    + destruct (split_once sep s) as [[l' r']|]; [|done].
      intros [= <- <-]. rewrite str_app_cons. f_equal. by apply IH.
Qed.

Lemma split_once_none sep s : split_once sep s = None ↔ str_contains sep s = false.
Proof.
  induction s as [|c s IH]; cbn; unfold startswith.
  - destruct (strip_prefix sep ""); cbn; naive_solver.
  - destruct (strip_prefix sep (String c s)); cbn; [naive_solver|].
    rewrite <-IH. destruct (split_once sep s) as [[]|]; naive_solver.
Qed.

