(* ===== verification/PyDict.v ===== *)
(** * Python dictionaries and sets

    A [dict] keeps its keys in insertion order, and the code iterates over
    dictionaries whose contents it updates, so a dictionary is an association
    list with unique keys: assigning an existing key keeps its position, a new
    key goes last.  A [set] is a list of distinct elements that is read back in
    an unspecified order. *)

From stdpp Require Import prelude strings gmap.
From S2P Require Import Prelude PyString.

Section dict.
Context {K V : Type} `{EqDecision K}.
Implicit Types (d : list (K * V)) (k : K) (v : V).

(** [d[k]] (a [KeyError] is [None]) and [d.get(k)] *)
Fixpoint dict_get d k : option V :=
  match d with
  | [] => None
  | (k', v) :: d' => if decide (k = k') then Some v else dict_get d' k
  end.

(** [d[k] = v] *)
Fixpoint dict_set d k v : list (K * V) :=
  match d with
  | [] => [(k, v)]
  | (k', v') :: d' =>
      if decide (k = k') then (k', v) :: d' else (k', v') :: dict_set d' k v
  end.

(** [del d[k]] when the key is present *)
Definition dict_del d k : list (K * V) := filter (λ p, p.1 ≠ k) d.

(** [d.keys()] and [d.values()] *)
Definition dict_keys d : list K := d.*1.
Definition dict_values d : list V := d.*2.

(** [k in d] *)
Definition dict_mem d k : bool := opt_is_some (dict_get d k).

(** [dict(l)] and [{k: v for ...}]: later pairs overwrite earlier ones. *)
Definition dict_of_list (l : list (K * V)) : list (K * V) :=
  foldl (λ d p, dict_set d p.1 p.2) [] l.

(** [d.update(e)] *)
Definition dict_update d (e : list (K * V)) : list (K * V) :=
  foldl (λ d p, dict_set d p.1 p.2) d e.

Lemma dict_get_set_eq d k v : dict_get (dict_set d k v) k = Some v.
Proof. induction d as [|[k' v'] d IH]; cbn; repeat (case_decide; cbn); congruence. Qed.

Lemma dict_get_set_ne d k k' v : k ≠ k' → dict_get (dict_set d k v) k' = dict_get d k'.
Proof.
  intros Hne. induction d as [|[k0 v0] d IH]; cbn; repeat (case_decide; cbn); congruence.
Qed.

Lemma dict_get_set d k k' v :
  dict_get (dict_set d k v) k' = if decide (k = k') then Some v else dict_get d k'.
Proof. case_decide; subst; auto using dict_get_set_eq, dict_get_set_ne. Qed.

Lemma dict_keys_set d k v :
  dict_keys (dict_set d k v) =
  if decide (k ∈ dict_keys d) then dict_keys d else dict_keys d ++ [k].
Proof.
  unfold dict_keys. induction d as [|[k0 v0] d IH]; [done|]. cbn [dict_set].
  destruct (decide (k = k0)) as [->|Hne].
  - by rewrite decide_True by set_solver.
  - rewrite !fmap_cons, IH. cbn [fst].
    destruct (decide (k ∈ d.*1)); [rewrite decide_True|rewrite decide_False]; set_solver.
Qed.

Lemma elem_of_dict_keys_set d k v k' :
  k' ∈ dict_keys (dict_set d k v) ↔ k' = k ∨ k' ∈ dict_keys d.
Proof. rewrite dict_keys_set. case_decide; set_solver. Qed.

Lemma NoDup_dict_set d k v : NoDup (dict_keys d) → NoDup (dict_keys (dict_set d k v)).
Proof.
  intros. rewrite dict_keys_set. case_decide; [done|].
  apply NoDup_app. split_and!; [done|set_solver|apply NoDup_singleton].
Qed.

Lemma dict_get_Some_in d k v : dict_get d k = Some v → (k, v) ∈ d.
Proof.
  induction d as [|[k' v'] d IH]; cbn; [done|]. case_decide; [|set_solver].
  intros; simplify_eq. set_solver.
Qed.

Lemma dict_get_in d k v : NoDup (dict_keys d) → (k, v) ∈ d → dict_get d k = Some v.
Proof.
  unfold dict_keys. induction d as [|[k' v'] d IH]; cbn; [set_solver|].
  rewrite NoDup_cons, elem_of_cons. intros [Hk Hd] [?|Hin]; simplify_eq.
  - by rewrite decide_True.
  - rewrite decide_False; [auto|]. intros ->.
    apply Hk, list_elem_of_fmap. by exists (k', v).
Qed.

Lemma dict_get_None d k : dict_get d k = None ↔ k ∉ dict_keys d.
Proof.
  unfold dict_keys. induction d as [|[k' v'] d IH]; cbn; [set_solver|].
  case_decide; set_solver.
Qed.

Lemma dict_get_is_Some d k : is_Some (dict_get d k) ↔ k ∈ dict_keys d.
Proof.
  rewrite <-not_eq_None_Some, dict_get_None.
  destruct (decide (k ∈ dict_keys d)); naive_solver.
Qed.

Lemma dict_mem_spec d k : dict_mem d k = true ↔ k ∈ dict_keys d.
Proof.
  rewrite <-dict_get_is_Some. unfold dict_mem.
  destruct (dict_get d k); cbn; naive_solver.
Qed.

Lemma dict_keys_del d k : dict_keys (dict_del d k) = filter (.≠ k) (dict_keys d).
Proof.
  unfold dict_keys, dict_del. induction d as [|[k' v'] d IH]; [done|].
  rewrite filter_cons, fmap_cons, filter_cons. cbn. repeat case_decide; try done.
  cbn. by rewrite IH.
Qed.

Lemma dict_get_del d k k' :
  dict_get (dict_del d k) k' = if decide (k = k') then None else dict_get d k'.
Proof.
  unfold dict_del. induction d as [|[k0 v0] d IH]; [by case_decide|].
  rewrite filter_cons. cbn [dict_get fst].
  destruct (decide (k0 ≠ k)) as [Hne|Heq%dec_stable]; cbn [dict_get]; rewrite IH;
    destruct (decide (k = k')), (decide (k' = k0)); congruence.
Qed.

Lemma NoDup_dict_del d k : NoDup (dict_keys d) → NoDup (dict_keys (dict_del d k)).
Proof. rewrite dict_keys_del. apply NoDup_filter. Qed.

Lemma NoDup_dict_update d e : NoDup (dict_keys d) → NoDup (dict_keys (dict_update d e)).
Proof.
  unfold dict_update. revert d. induction e as [|[k v] e IH]; intros d Hd; cbn; [done|].
  by apply IH, NoDup_dict_set.
Qed.

Lemma dict_get_update d e k :
  dict_get (dict_update d e) k =
  match dict_get (reverse e) k with Some v => Some v | None => dict_get d k end.
Proof.
  unfold dict_update. revert d. induction e as [|[k0 v0] e IH] using rev_ind; intros d; [done|].
  rewrite foldl_app, reverse_app. cbn. rewrite dict_get_set, IH.
  destruct (decide (k = k0)), (decide (k0 = k)); congruence.
Qed.

Lemma dict_keys_update d e k :
  k ∈ dict_keys (dict_update d e) ↔ k ∈ dict_keys d ∨ k ∈ dict_keys e.
Proof.
  unfold dict_update. revert d. induction e as [|[k0 v0] e IH]; intros d; [set_solver|].
  cbn [foldl fst snd]. rewrite IH, dict_keys_set.
  unfold dict_keys in *. case_decide; set_solver.
Qed.

Lemma NoDup_dict_of_list l : NoDup (dict_keys (dict_of_list l)).
Proof. apply (NoDup_dict_update []). constructor. Qed.

Lemma dict_of_list_keys l k : k ∈ dict_keys (dict_of_list l) ↔ k ∈ l.*1.
Proof.
  change (dict_of_list l) with (dict_update [] l). rewrite dict_keys_update. set_solver.
Qed.

Lemma dict_set_new d k v : k ∉ dict_keys d → dict_set d k v = d ++ [(k, v)].
Proof.
  unfold dict_keys. induction d as [|[k' v'] d IH]; [done|]. rewrite fmap_cons, not_elem_of_cons.
  intros [Hne Hk]. cbn [dict_set]. destruct (decide (k = k')) as [->|_]; [done|].
  cbn. by rewrite IH.
Qed.

Lemma elem_of_dict_set d k v kv : kv ∈ dict_set d k v → kv ∈ d ∨ kv = (k, v).
Proof.
  induction d as [|[k' v'] d IH]; cbn; [set_solver|].
  destruct (decide (k = k')) as [->|_]; set_solver.
Qed.

Lemma elem_of_dict_del d k kv : kv ∈ dict_del d k → kv ∈ d.
Proof. unfold dict_del. by intros [_ ?]%list_elem_of_filter. Qed.

(** A list of pairs with distinct keys is the dictionary it builds, and a list
    with a repeated key loses an entry. *)
Lemma dict_update_NoDup d e : NoDup (dict_keys d ++ e.*1) → dict_update d e = d ++ e.
Proof.
  unfold dict_update. revert d. induction e as [|[k v] e IH]; intros d Hnd.
  { by rewrite app_nil_r. }
  cbn [foldl fst snd]. rewrite fmap_cons in Hnd. cbn [fst] in Hnd.
  rewrite dict_set_new.
  - rewrite IH; [by rewrite <-app_assoc|]. unfold dict_keys. rewrite fmap_app, <-app_assoc. exact Hnd.
  - intros Hin. apply NoDup_app in Hnd as (_ & Hdis & _). apply (Hdis k Hin). left.
Qed.

Lemma dict_of_list_NoDup l : NoDup l.*1 → dict_of_list l = l.
Proof. apply (dict_update_NoDup []). Qed.

Lemma dict_of_list_length l : length (dict_of_list l) = length l ↔ NoDup l.*1.
Proof.
  split; [|by intros ->%dict_of_list_NoDup]. intros Hlen.
  assert (incl (dict_keys (dict_of_list l)) l.*1) as Hincl.
  { intros k Hk. apply list_elem_of_In, dict_of_list_keys, list_elem_of_In, Hk. }
  apply NoDup_ListNoDup. eapply NoDup_incl_NoDup; [apply NoDup_ListNoDup, NoDup_dict_of_list| |exact Hincl].
  unfold dict_keys. rewrite !length_fmap. lia.
Qed.
End dict.

(** A dictionary built from a list keeps the last pair of each key. *)
Lemma dict_get_of_list_last {K V} `{EqDecision K} (l : list (K * V)) k v :
  dict_get (dict_of_list l) k = Some v ↔
  ∃ l1 l2, l = l1 ++ (k, v) :: l2 ∧ ∀ kv, kv ∈ l2 → kv.1 ≠ k.
Proof.
  induction l as [|[k' v'] l IH] using rev_ind.
  { split; [done|]. intros (l1 & l2 & Hl & _). by destruct l1. }
  unfold dict_of_list in *. rewrite foldl_snoc. cbn. rewrite dict_get_set. case_decide as Hk.
  - subst k'. split.
    + intros [= ->]. exists l, []. split; [done|]. intros kv []%elem_of_nil.
    + intros (l1 & l2 & Hl & Hlast). destruct l2 as [|x l2 _] using rev_ind.
      { apply app_inj_tail in Hl as [_ [= ->]]. done. }
      rewrite app_comm_cons, app_assoc in Hl. apply app_inj_tail in Hl as [_ <-].
      exfalso. apply (Hlast (k, v')); [set_solver|done].
  - rewrite IH. split; intros (l1 & l2 & Hl & Hlast).
    + exists l1, (l2 ++ [(k', v')]). split; [by rewrite Hl, <-app_assoc|].
      intros kv [Hkv| ->%list_elem_of_singleton]%elem_of_app; [by apply Hlast|done].
    + destruct l2 as [|x l2 _] using rev_ind.
      { apply app_inj_tail in Hl as [_ [= -> ->]]. done. }
      rewrite app_comm_cons, app_assoc in Hl. apply app_inj_tail in Hl as [Hl <-].
      exists l1, l2. split; [done|]. intros kv Hkv. apply Hlast. set_solver.
Qed.

#[global] Arguments dict_keys {_ _} _ : simpl never.
#[global] Arguments dict_values {_ _} _ : simpl never.
#[global] Arguments dict_del {_ _ _} _ _ : simpl never.

Create HintDb py_dict discriminated.
#[export] Hint Resolve NoDup_dict_set NoDup_dict_del NoDup_dict_update : py_dict.

(** [defaultdict]: [d[k].append(v)] *)
Definition dict_append {K V} `{EqDecision K} (d : list (K * list V)) (k : K) (v : V) :
    list (K * list V) :=
  dict_set d k (default [] (dict_get d k) ++ [v]).

(** ** Sets *)

(** [set(l)]: the distinct elements of [l]. *)
Definition py_set {A} `{EqDecision A} (l : list A) : list A := remove_dups l.

(** [set(l1) & set(l2)] and [set(l1) - set(l2)] *)
Definition set_inter {A} `{EqDecision A} (l1 l2 : list A) : list A :=
  filter (.∈ l2) (py_set l1).
Definition set_diff {A} `{EqDecision A} (l1 l2 : list A) : list A :=
  filter (.∉ l2) (py_set l1).

Section set.
Context {A} `{EqDecision A}.
Implicit Types l : list A.

Lemma elem_of_py_set x l : x ∈ py_set l ↔ x ∈ l.
Proof. apply elem_of_remove_dups. Qed.
Lemma NoDup_py_set l : NoDup (py_set l).
Proof. apply NoDup_remove_dups. Qed.
Lemma elem_of_set_inter x l1 l2 : x ∈ set_inter l1 l2 ↔ x ∈ l1 ∧ x ∈ l2.
Proof. unfold set_inter. rewrite list_elem_of_filter, elem_of_py_set. naive_solver. Qed.
Lemma NoDup_set_inter l1 l2 : NoDup (set_inter l1 l2).
Proof. apply NoDup_filter, NoDup_py_set. Qed.
Lemma elem_of_set_diff x l1 l2 : x ∈ set_diff l1 l2 ↔ x ∈ l1 ∧ x ∉ l2.
Proof. unfold set_diff. rewrite list_elem_of_filter, elem_of_py_set. naive_solver. Qed.
Lemma NoDup_set_diff l1 l2 : NoDup (set_diff l1 l2).
Proof. apply NoDup_filter, NoDup_py_set. Qed.
End set.

(** [set.add], and [d.setdefault(k, v)] for its effect on [d]. *)
Definition set_add {A} `{EqDecision A} (x : A) (l : list A) : list A :=
  if decide (x ∈ l) then l else l ++ [x].
Definition dict_setdefault {K V} `{EqDecision K} (d : list (K * V)) (k : K) (v : V) : list (K * V) :=
  if dict_mem d k then d else dict_set d k v.

Lemma elem_of_set_add {A} `{EqDecision A} (x y : A) l : x ∈ set_add y l ↔ x = y ∨ x ∈ l.
Proof. unfold set_add. case_decide; [|rewrite elem_of_app, list_elem_of_singleton]; naive_solver. Qed.

Lemma NoDup_set_add {A} `{EqDecision A} (x : A) l : NoDup l → NoDup (set_add x l).
Proof.
  intros Hl. unfold set_add. case_decide; [done|]. apply NoDup_app. split; [done|]. split; [|apply NoDup_singleton].
  intros y Hy ->%list_elem_of_singleton. done.
Qed.

Lemma dict_get_setdefault {K V} `{EqDecision K} (d : list (K * V)) k v k' :
  dict_get (dict_setdefault d k v) k' = if decide (k' = k) then Some (default v (dict_get d k)) else dict_get d k'.
Proof.
  unfold dict_setdefault, dict_mem. destruct (dict_get d k) as [w|] eqn:Hw; cbn.
  - case_decide; [by subst|done].
  - rewrite dict_get_set. repeat case_decide; congruence.
Qed.

Lemma NoDup_dict_setdefault {K V} `{EqDecision K} (d : list (K * V)) k v :
  NoDup (dict_keys d) → NoDup (dict_keys (dict_setdefault d k v)).
Proof. unfold dict_setdefault. destruct (dict_mem d k); [done|apply NoDup_dict_set]. Qed.

(** The order in which Python lists the elements of a set of strings is
    unspecified (string hashes are salted per process).  Code whose result may
    depend on it takes the order as an instance of this class. *)
Class SetOrder := {
  set_list : ∀ {A} `{EqDecision A}, list A → list A;
  set_list_perm : ∀ {A} `{EqDecision A} (l : list A), set_list l ≡ₚ l;
}.

(** One such order: the order of first insertion. *)
Definition insertion_order : SetOrder := {| set_list _ _ l := l; set_list_perm _ _ l := reflexivity l |}.
