(* ===== verification/SdkUtils.v ===== *)
(** * Utility functions of the SDK and of the backend

    [python_sdk/infrahub_sdk/utils.py], [backend/infrahub/utils.py] and
    [backend/infrahub/visuals.py]: base conversions, list comparison, merging
    and measuring nested dictionaries, labels and colours. *)

From stdpp Require Import prelude strings gmap sorting pretty.
From Stdlib Require Import Ascii.
From S2P Require Import Prelude PyString PyDict.

(** ** Values of nested dictionaries *)

(** The JSON-like values the dictionary helpers run on. *)
Inductive json :=
  | JNull
  | JBool (b : bool)
  | JInt (z : Z)
  | JStr (s : string)
  | JList (l : list json)
  | JDict (d : list (string * json)).

(** Induction that reaches the elements of lists and the values of dicts. *)
Section json_ind.
Variable P : json → Prop.
Hypothesis (Pnull : P JNull) (Pbool : ∀ b, P (JBool b)) (Pint : ∀ z, P (JInt z))
  (Pstr : ∀ s, P (JStr s)) (Plist : ∀ l, Forall P l → P (JList l))
  (Pdict : ∀ d, Forall (λ kv, P kv.2) d → P (JDict d)).
Fixpoint json_nested_ind (j : json) : P j :=
  match j with
  | JNull => Pnull
  | JBool b => Pbool b
  | JInt z => Pint z
  | JStr s => Pstr s
  | JList l =>
      Plist l ((fix go l : Forall P l := match l with
                | [] => Forall_nil_2 _
                | x :: l' => Forall_cons_2 _ _ _ (json_nested_ind x) (go l')
                end) l)
  | JDict d =>
      Pdict d ((fix go d : Forall (λ kv, P kv.2) d := match d with
                | [] => Forall_nil_2 _
                | (k, x) :: d' => Forall_cons_2 (λ kv, P kv.2) (k, x) d' (json_nested_ind x) (go d')
                end) d)
  end.
End json_ind.

(** Equality of JSON values is decidable. *)
#[export] Instance json_eq_dec : EqDecision json.
Proof.
  refine (fix go x y := let _ : EqDecision json := @go in
    match x, y return Decision (x = y) with
    | JNull, JNull => left eq_refl
    | JBool b, JBool c => cast_if (decide (b = c))
    | JInt z, JInt t => cast_if (decide (z = t))
    | JStr s, JStr t => cast_if (decide (s = t))
    | JList l, JList m => cast_if (decide (l = m))
    | JDict d, JDict e => cast_if (decide (d = e))
    | _, _ => right _
    end); congruence.
Defined.

(** [bool(v)] *)
Definition truthy_json (v : json) : bool :=
  match v with
  | JNull => false | JBool b => b | JInt z => negb (z =? 0)%Z | JStr s => negb (bool_decide (s = ""))
  | JList l => negb (bool_decide (length l = 0)) | JDict d => negb (bool_decide (length d = 0))
  end.

(** A dictionary literal has distinct keys at every level. *)
Inductive json_wf : json → Prop :=
  | wf_null : json_wf JNull
  | wf_bool b : json_wf (JBool b)
  | wf_int z : json_wf (JInt z)
  | wf_str s : json_wf (JStr s)
  | wf_list l : Forall json_wf l → json_wf (JList l)
  | wf_dict d : NoDup (dict_keys d) → Forall (λ kv, json_wf kv.2) d → json_wf (JDict d).

(** Python's [==]: booleans are the integers 0 and 1, and two dictionaries are
    equal when they have the same keys with equal values, in any order. *)
Fixpoint py_eq (a b : json) {struct a} : bool :=
  match a, b with
  | JNull, JNull => true
  | JStr s, JStr t => bool_decide (s = t)
  | JBool x, JBool y => Bool.eqb x y
  | JBool x, JInt y => (Z.b2z x =? y)%Z
  | JInt x, JBool y => (x =? Z.b2z y)%Z
  | JInt x, JInt y => (x =? y)%Z
  | JList l, JList m =>
      (fix eq_list l m := match l, m with
         | [], [] => true
         | x :: l', y :: m' => py_eq x y && eq_list l' m'
         | _, _ => false
         end) l m
  | JDict d, JDict e =>
      (length d =? length e)%nat &&
      (fix eq_dict d := match d with
         | [] => true
         | (k, x) :: d' =>
             match dict_get e k with Some y => py_eq x y | None => false end && eq_dict d'
         end) d
  | _, _ => false
  end.

(** ** Identifiers *)

Definition is_space (c : ascii) : bool :=
  let n := nat_of_ascii c in (9 <=? n)%nat && (n <=? 13)%nat || (28 <=? n)%nat && (n <=? 32)%nat.
Definition is_hexdigit (c : ascii) : bool :=
  let n := nat_of_ascii (lower_char c) in is_digit c || (97 <=? n)%nat && (n <=? 102)%nat.

(** Hexadecimal digits, with an underscore allowed between two of them; [after] says that
    an underscore may come next. *)
Fixpoint hex_digits (after : bool) (s : string) : bool :=
  match s with
  | EmptyString => after
  | String c s' => if is_hexdigit c then hex_digits true s' else (after && bool_decide (c = "_"%char) && hex_digits false s')
  end.
Fixpoint only_zeros (s : string) : bool :=
  match s with EmptyString => true | String c s' => bool_decide (c = "0"%char ∨ c = "_"%char) && only_zeros s' end.
(** [int(s, 16)] returns, with a number that is not negative. *)
Definition hex_number (s : string) : bool :=
  let s := str_strip is_space s in
  let '(negative, s) := match s with
    | String c s' => if bool_decide (c = "-"%char) then (true, s') else if bool_decide (c = "+"%char) then (false, s') else (false, s)
    | EmptyString => (false, s) end in
  let '(prefixed, digits) := match strip_prefix "0x" s, strip_prefix "0X" s with
    | Some d, _ | None, Some d => (true, d) | None, None => (false, s) end in
  negb (bool_decide (digits = "")) && hex_digits prefixed digits && (negb negative || only_zeros digits).

(** [UUID(value)] does not raise. *)
Definition is_valid_uuid (value : string) : bool :=
  let hex := py_replace "uuid:" "" (py_replace "urn:" "" value) in
  let hex := py_replace "-" "" (str_strip (λ c, bool_decide (c = "{"%char ∨ c = "}"%char)) hex) in
  bool_decide (String.length hex = 32%nat) && hex_number hex.

(** ** Base conversions *)

(** [while number: number, i = divmod(number, base); text = alphabet[i] + text].
    The fuel bounds the number of iterations. *)
Fixpoint encode_loop (base : Z) (alphabet : string) (fuel : nat) (number : Z) (text : string) :
    result string :=
  if (number =? 0)%Z then Ok text
  else match fuel with
       | O => Ok text
       | S fuel' =>
           c ← require IndexError (String.get (Z.to_nat (number mod base)) alphabet);
           encode_loop base alphabet fuel' (number / base)%Z (String c text)
       end.

(** The bits of the number bound the iterations: each one divides it by 16 or more. *)
Definition encode_fuel (number : Z) : nat := S (Z.to_nat (Z.log2 number)).

Definition encode_base (base : Z) (alphabet : string) (number : Z) : result string :=
  let is_negative := (number <? 0)%Z in
  let number := Z.abs number in
  text ← encode_loop base alphabet (encode_fuel number) number "";
  let text := if is_negative then "-" +:+ text else text in
  (* [text or alphabet[0]] *)
  match text with
  | EmptyString => c ← require IndexError (String.get 0 alphabet); Ok (String c "")
  | _ => Ok text
  end.

Definition base36_alphabet : string := "0123456789ABCDEFGHIJKLMNOPQRSTUVWXYZ".
Definition base16_alphabet : string := "0123456789abcdef".

Definition base36encode (number : Z) : result string := encode_base 36 base36_alphabet number.
Definition base16encode (number : Z) : result string := encode_base 16 base16_alphabet number.

(** [int(text, base)] of Python on an optional sign followed by digits of
    either case; blanks, underscores and base prefixes are not modelled. *)
Definition digit_value (base : Z) (c : ascii) : option Z :=
  let n := Z.of_N (N_of_ascii c) in
  let v :=
    if is_digit c then Some (n - 48)%Z
    else if is_upper c then Some (n - 55)%Z
    else if is_lower c then Some (n - 87)%Z
    else None in
  match v with Some z => if (z <? base)%Z then Some z else None | None => None end.

Fixpoint decode_digits (base : Z) (acc : Z) (s : string) : result Z :=
  match s with
  | EmptyString => Ok acc
  | String c s' =>
      v ← require (ValueError "invalid literal for int()") (digit_value base c);
      decode_digits base (acc * base + v)%Z s'
  end.

Definition py_int (base : Z) (s : string) : result Z :=
  match s with
  | EmptyString => Err (ValueError "invalid literal for int()")
  | String c s' =>
      if decide (c = "-"%char) then
        if decide (s' = "") then Err (ValueError "invalid literal for int()")
        else z ← decode_digits base 0 s'; Ok (- z)%Z
      else if decide (c = "+"%char) then
        if decide (s' = "") then Err (ValueError "invalid literal for int()")
        else decode_digits base 0 s'
      else decode_digits base 0 s
  end.

Definition base36decode (data : string) : result Z := py_int 36 data.
Definition base16decode (data : string) : result Z := py_int 16 data.

(** ** Lists *)

(** [itertools.groupby(sorted(l))]: the runs of equal elements with their lengths. *)
Fixpoint groupby {A} `{EqDecision A} (l : list A) : list (A * nat) :=
  match l with
  | [] => []
  | x :: l' =>
      match groupby l' with
      | (y, n) :: g => if decide (x = y) then (y, S n) :: g else (x, 1) :: (y, n) :: g
      | [] => [(x, 1)]
      end
  end.

(** [duplicates]: an optional element stands for a value that may be [None]. *)
Definition duplicates {A} `{PyOrd A} (input_list : list (option A)) : list A :=
  let clean_input_list := omap id input_list in
  fst <$> filter (λ g, 1 < g.2) (groupby (py_sorted clean_input_list)).

(** [intersection] returns a set as a list, in an unspecified order. *)
Definition intersection `{SetOrder} {A} `{EqDecision A} (list1 list2 : list A) : list A :=
  set_list (set_inter list1 list2).

Definition compare_lists `{SetOrder} {A} `{PyOrd A} (list1 list2 : list A) :
    list A * list A * list A :=
  let in_both := intersection list1 list2 in
  let in_list_1 := set_list (set_diff list1 in_both) in
  let in_list_2 := set_list (set_diff list2 in_both) in
  (py_sorted in_both, py_sorted in_list_1, py_sorted in_list_2).

(** ** Nested dictionaries *)

(** The path of a conflict, dotted, as it stands in the exception message. *)
Definition conflict_error (path : list string) : exn :=
  ValueError ("Conflict at " +:+ py_join "." path).

(** [deep_merge_dict(dicta, dictb, path)] returns the updated [dicta]. *)
Fixpoint deep_merge_dict (dictb : json) (dicta : list (string * json)) (path : list string)
    {struct dictb} : result (list (string * json)) :=
  match dictb with
  | JDict items =>
      (fix go (acc : list (string * json)) (items : list (string * json)) {struct items} :=
         match items with
         | [] => Ok acc
         | (key, vb) :: rest =>
             acc' ← match dict_get acc key with
                    | Some va =>
                        match va, vb with
                        | JDict da, JDict _ =>
                            sub ← deep_merge_dict vb da (path ++ [key]);
                            Ok (dict_set acc key (JDict sub))
                        | _, _ =>
                            if py_eq va vb then Ok acc
                            else Err (conflict_error (path ++ [key]))
                        end
                    | None => Ok (dict_set acc key vb)
                    end;
             go acc' rest
         end) dicta items
  | _ => Err (TypeError "dictb is not a dictionary")
  end.

(** [calculate_dict_depth] *)
Fixpoint calculate_dict_depth (data : json) (level : nat) : nat :=
  match data with
  | JDict ((k, v) :: d) =>
      (fix go (best : nat) (d : list (string * json)) :=
         match d with
         | [] => best
         | (_, v) :: d' => go (best `max` calculate_dict_depth v (S level)) d'
         end) (calculate_dict_depth v (S level)) d
  | _ => level
  end.

(** [calculate_dict_height] *)
Fixpoint calculate_dict_height (data : json) (cnt : nat) : nat :=
  match data with
  | JDict d =>
      (fix go (cnt : nat) (d : list (string * json)) :=
         match d with
         | [] => cnt
         | (_, v) :: d' =>
             go (match v with
                 | JDict _ => calculate_dict_height v (S cnt)
                 | _ => S cnt
                 end) d'
         end) cnt d
  | _ => cnt
  end.

(** [get_nested_dict]: walk down the keys, an empty dict when one is missing. *)
Fixpoint get_nested_dict (current_level : json) (keys : list string) : list (string * json) :=
  match keys with
  | [] => match current_level with JDict d => d | _ => [] end
  | key :: keys' =>
      match current_level with
      | JDict d => match dict_get d key with Some j => get_nested_dict j keys' | None => [] end
      | _ => []
      end
  end.

(** ** Scalars *)

Definition bool_words : list (string * bool) :=
  [("y", true); ("yes", true); ("t", true); ("true", true); ("on", true); ("1", true);
   ("n", false); ("no", false); ("f", false); ("false", false); ("off", false); ("0", false)].

Definition str_to_bool (value : json) : result bool :=
  match value with
  | JBool b => Ok b
  | JInt 0 => Ok false
  | JInt 1 => Ok true
  | JStr s =>
      require (ValueError "can not be converted into a boolean")
              (dict_get bool_words (py_lower s))
  | _ => Err (TypeError "must be a string")
  end.

(** [format_label]: the words of a slug, capitalised, separated by blanks. *)
Definition format_label (slug : string) : string :=
  py_join " " (py_title <$> py_split "_" slug).

Definition COLOR_SELECTION : list string :=
  ["#ed6a5a"; "#f4f1bb"; "#9bc1bc"; "#5ca4a9"; "#e6ebe0"; "#52489c"; "#4062bb"; "#59c3c3";
   "#56638a"; "#5d737e"; "#55505c"; "#592941"; "#498467"; "#e5d0e3"; "#748cab"; "#018e42";
   "#50808e"; "#7b2d26"; "#9799ca"; "#51bbfe"].

(** [select_color] also appends the colour it picks to the caller's list. *)
Definition select_color (existing : list string) : string * list string :=
  match head (filter (.∉ existing) COLOR_SELECTION) with
  | Some color => (color, existing ++ [color])
  | None => ("#ff0000", existing)
  end.

(** ** Base conversions: lemmas *)

Section base_roundtrip.
Context (base : Z) (alphabet : string).
Context (Hbase : (2 ≤ base)%Z).
(** Every digit of the base has its letter, which reads back as the digit and
    is not a sign. *)
Context (Halphabet : ∀ i, (0 ≤ i < base)%Z → ∃ c,
  String.get (Z.to_nat i) alphabet = Some c ∧ digit_value base c = Some i ∧
  c ≠ "-"%char ∧ c ≠ "+"%char).

Definition unsigned_text (s : string) : Prop :=
  match s with String c _ => c ≠ "-"%char ∧ c ≠ "+"%char | EmptyString => False end.

Lemma encode_loop_decode fuel n text :
  (0 ≤ n < 2 ^ Z.of_nat fuel)%Z →
  ∃ r, encode_loop base alphabet fuel n text = Ok r ∧
       decode_digits base 0 r = decode_digits base n text ∧
       ((0 < n)%Z ∨ unsigned_text text → unsigned_text r).
Proof.
  revert n text. induction fuel as [|fuel IH]; intros n text Hn; cbn [encode_loop];
    destruct (Z.eqb_spec n 0) as [->|Hne].
  - exists text. split_and!; [done..|]. intros [?|?]; [lia|done].
  - change (2 ^ Z.of_nat 0)%Z with 1%Z in Hn. lia.
  - exists text. split_and!; [done..|]. intros [?|?]; [lia|done].
  - destruct (Halphabet (n mod base)) as (c & Hget & Hval & Hminus & Hplus).
    { apply Z.mod_pos_bound. lia. }
    rewrite Hget. cbn [require mbind result_bind].
    destruct (IH (n / base)%Z (String c text)) as (r & Hr & Hdec & Hun).
    { split; [apply Z.div_pos; lia|].
      apply Z.div_lt_upper_bound; [lia|].
      rewrite Nat2Z.inj_succ, Z.pow_succ_r in Hn by lia. nia. }
    exists r. split_and!; [done| |by intros _; apply Hun; right].
    rewrite Hdec. cbn [decode_digits]. rewrite Hval. cbn [require mbind result_bind].
    f_equal. pose proof (Z.div_mod n base). lia.
Qed.

Lemma encode_fuel_enough n : (0 ≤ n)%Z → (n < 2 ^ Z.of_nat (encode_fuel n))%Z.
Proof.
  intros Hn. unfold encode_fuel. rewrite Nat2Z.inj_succ, Z2Nat.id by apply Z.log2_nonneg.
  destruct (decide (n = 0)%Z) as [->|]; [done|]. apply Z.log2_spec. lia.
Qed.

Lemma py_int_unsigned s : unsigned_text s → py_int base s = decode_digits base 0 s.
Proof.
  destruct s as [|c s]; [done|]. intros [H1 H2]. cbn [py_int].
  by rewrite !decide_False by done.
Qed.

Lemma encode_base_roundtrip number :
  ∃ s, encode_base base alphabet number = Ok s ∧ py_int base s = Ok number.
Proof.
  unfold encode_base. destruct (decide (number = 0)%Z) as [->|Hnz].
  { destruct (Halphabet 0) as (c & Hget & Hval & ?); [lia|].
    change (Z.to_nat 0) with 0 in Hget. cbn. rewrite Hget. cbn.
    exists (String c ""). split; [done|].
    rewrite py_int_unsigned by done. cbn [decode_digits]. by rewrite Hval. }
  destruct (encode_loop_decode (encode_fuel (Z.abs number)) (Z.abs number) "")
    as (r & -> & Hdec & Hun).
  { split; [lia|]. apply encode_fuel_enough. lia. }
  cbn [decode_digits mbind result_bind] in *.
  assert (unsigned_text r) as Hr by (apply Hun; left; lia).
  destruct r as [|c r]; [done|]. destruct (Z.ltb_spec number 0).
  - exists ("-" +:+ String c r). split; [done|].
    change ("-" +:+ String c r) with (String "-" (String c r)). cbn [py_int].
    rewrite decide_True by done. rewrite decide_False by done.
    rewrite Hdec. cbn. f_equal. lia.
  - exists (String c r). split; [done|]. rewrite py_int_unsigned by done.
    rewrite Hdec. f_equal. lia.
Qed.
End base_roundtrip.

(** Checking an alphabet is a finite computation. *)
Definition alphabet_ok (base : nat) (alphabet : string) : bool :=
  forallb (λ i, match String.get i alphabet with
                | Some c => bool_decide (digit_value (Z.of_nat base) c = Some (Z.of_nat i)) &&
                            bool_decide (c ≠ "-"%char) && bool_decide (c ≠ "+"%char)
                | None => false
                end) (seq 0 base).

Lemma alphabet_ok_spec base alphabet :
  alphabet_ok base alphabet = true → ∀ i, (0 ≤ i < Z.of_nat base)%Z → ∃ c,
    String.get (Z.to_nat i) alphabet = Some c ∧ digit_value (Z.of_nat base) c = Some i ∧
    c ≠ "-"%char ∧ c ≠ "+"%char.
Proof.
  unfold alphabet_ok. rewrite forallb_forall. intros H i Hi.
  specialize (H (Z.to_nat i)). rewrite in_seq in H.
  destruct (String.get (Z.to_nat i) alphabet) as [c|] eqn:Hget; [|naive_solver lia].
  exists c. rewrite !andb_true_iff, !bool_decide_eq_true, Z2Nat.id in H by lia.
  destruct H as [[? ?] ?]; [lia|done].
Qed.

(** ** Lists: lemmas *)

Section lists.
Context {A} `{PyOrd A}.

Definition occurrences (x : A) (l : list A) : nat := length (filter (x =.) l).

Lemma occurrences_cons x y l :
  occurrences x (y :: l) = (if decide (x = y) then 1 else 0) + occurrences x l.
Proof. unfold occurrences. rewrite filter_cons. by case_decide. Qed.

Lemma occurrences_0 x l : x ∉ l → occurrences x l = 0.
Proof.
  intros Hx. unfold occurrences. rewrite (elem_of_nil_inv (filter _ _)); [done|].
  intros y [-> Hy]%list_elem_of_filter. done.
Qed.

Lemma groupby_head (x : A) l : ∃ n g, groupby (x :: l) = (x, n) :: g.
Proof. cbn. destruct (groupby l) as [|[y n] g]; [|case_decide]; naive_solver. Qed.

(** On a sorted list the runs are the distinct elements with their counts. *)
Lemma groupby_sorted (l : list A) :
  StronglySorted py_le l →
  StronglySorted py_le (groupby l).*1 ∧ NoDup (groupby l).*1 ∧
  ∀ x n, (x, n) ∈ groupby l ↔ x ∈ l ∧ n = occurrences x l.
Proof.
  induction l as [|x l IH]; intros Hs.
  { split_and!; [constructor..|set_solver]. }
  apply StronglySorted_cons in Hs as [Hx Hs]. destruct (IH Hs) as (Hg & Hnd & Hin).
  rewrite Forall_forall in Hx.
  assert (∀ y, y ∈ (groupby l).*1 ↔ y ∈ l) as Hkeys.
  { intros y. rewrite list_elem_of_fmap. split.
    - intros ([z n] & -> & Hz). by apply Hin in Hz as [].
    - intros Hy. exists (y, occurrences y l). by rewrite Hin. }
  destruct l as [|y l].
  { cbn [groupby fmap list_fmap fst].
    split_and!; [repeat constructor|apply NoDup_singleton|]. intros z n.
    rewrite occurrences_cons. destruct (decide (z = x)); set_solver. }
  destruct (groupby_head y l) as (n & g & Hgr).
  change (groupby (x :: y :: l)) with
    (match groupby (y :: l) with
     | (y, n) :: g => if decide (x = y) then (y, S n) :: g else (x, 1) :: (y, n) :: g
     | [] => [(x, 1)] end).
  rewrite Hgr in *. destruct (decide (x = y)) as [->|Hne].
  - split_and!; [done..|]. rewrite fmap_cons, NoDup_cons in Hnd. destruct Hnd as [Hy _].
    intros z m. rewrite occurrences_cons. specialize (Hin z).
    destruct (decide (z = y)) as [->|].
    + assert (n = occurrences y (y :: l)) by (apply (Hin n); left).
      assert (∀ k, (y, k) ∉ g) by (intros k Hk; apply Hy, list_elem_of_fmap; by exists (y, k)).
      set_solver.
    + specialize (Hin m). set_solver.
  - assert (x ∉ y :: l) as Hxl.
    { intros Hxl. apply Hne, (anti_symm py_le); [apply Hx; left|].
      apply StronglySorted_cons in Hs as [Hyl _]. rewrite Forall_forall in Hyl.
      apply elem_of_cons in Hxl as [->|]; [done|by apply Hyl]. }
    split_and!.
    + rewrite fmap_cons. apply StronglySorted_cons. split; [|done].
      rewrite Forall_forall. intros z Hz. apply Hx, Hkeys, Hz.
    + rewrite fmap_cons. apply NoDup_cons. split; [|done]. by rewrite Hkeys.
    + intros z m. rewrite elem_of_cons, Hin, (occurrences_cons z x).
      destruct (decide (z = x)) as [->|]; [rewrite (occurrences_0 x) by done|]; set_solver.
Qed.

Lemma occurrences_perm x (l1 l2 : list A) : l1 ≡ₚ l2 → occurrences x l1 = occurrences x l2.
Proof. intros Hp. unfold occurrences. by rewrite Hp. Qed.

Lemma elem_of_duplicates x (l : list (option A)) :
  x ∈ duplicates l ↔ 2 ≤ occurrences x (omap id l).
Proof.
  unfold duplicates. destruct (groupby_sorted (py_sorted (omap id l))) as (_ & _ & Hin).
  { apply py_sorted_sorted. }
  assert (Hocc : occurrences x (py_sorted (omap id l)) = occurrences x (omap id l)).
  { apply occurrences_perm, py_sorted_perm. }
  rewrite list_elem_of_fmap. split.
  - intros ([y n] & -> & Hy). apply list_elem_of_filter in Hy as [Hn Hy].
    apply Hin in Hy as [Hy ->]. cbn in *. rewrite <-Hocc. lia.
  - intros Hle. exists (x, occurrences x (omap id l)). split; [done|].
    apply list_elem_of_filter. split; [cbn; lia|]. apply Hin. split; [|done].
    destruct (decide (x ∈ py_sorted (omap id l))) as [|Hx]; [done|].
    apply occurrences_0 in Hx. lia.
Qed.

Lemma duplicates_nil (l : list (option A)) : duplicates l = [] ↔ NoDup (omap id l).
Proof.
  trans (∀ x, occurrences x (omap id l) ≤ 1).
  { split.
    - intros Hl x. pose proof (proj2 (elem_of_duplicates x l)) as Hx. rewrite Hl in Hx.
      destruct (decide (2 ≤ occurrences x (omap id l))) as [Hd|]; [|lia].
      by apply Hx, elem_of_nil in Hd.
    - intros Hl. apply elem_of_nil_inv. intros x Hx%elem_of_duplicates.
      specialize (Hl x). lia. }
  generalize (omap id l). clear l. intros l. split.
  - induction l as [|y l IH]; intros Hl; [constructor|]. apply NoDup_cons. split.
    + intros Hy. specialize (Hl y). rewrite occurrences_cons, decide_True in Hl by done.
      enough (1 ≤ occurrences y l) by lia.
      apply list_elem_of_split in Hy as (l1 & l2 & ->). unfold occurrences.
      rewrite filter_app, filter_cons_True, length_app by done. cbn. lia.
    + apply IH. intros x. specialize (Hl x). rewrite occurrences_cons in Hl. lia.
  - intros Hnd x.
    induction Hnd as [|y l Hy Hnd IH]; [cbn; lia|]. rewrite occurrences_cons.
    case_decide; subst; [rewrite occurrences_0 by done|]; lia.
Qed.

Context `{!SetOrder}.

Lemma elem_of_intersection_list x (l1 l2 : list A) : x ∈ intersection l1 l2 ↔ x ∈ l1 ∧ x ∈ l2.
Proof. unfold intersection. rewrite set_list_perm. apply elem_of_set_inter. Qed.

Lemma NoDup_intersection (l1 l2 : list A) : NoDup (intersection l1 l2).
Proof. unfold intersection. rewrite set_list_perm. apply NoDup_set_inter. Qed.

Lemma compare_lists_elem (l1 l2 b o1 o2 : list A) :
  compare_lists l1 l2 = (b, o1, o2) →
  (∀ x, x ∈ b ↔ x ∈ l1 ∧ x ∈ l2) ∧ (∀ x, x ∈ o1 ↔ x ∈ l1 ∧ x ∉ l2) ∧
  (∀ x, x ∈ o2 ↔ x ∈ l2 ∧ x ∉ l1).
Proof.
  unfold compare_lists. intros [= <- <- <-].
  split_and!; intros x; rewrite elem_of_py_sorted, ?set_list_perm, ?elem_of_set_diff,
    ?elem_of_intersection_list; tauto.
Qed.

Lemma compare_lists_sorted (l1 l2 b o1 o2 : list A) :
  compare_lists l1 l2 = (b, o1, o2) →
  (StronglySorted py_le b ∧ NoDup b) ∧ (StronglySorted py_le o1 ∧ NoDup o1) ∧
  (StronglySorted py_le o2 ∧ NoDup o2).
Proof.
  unfold compare_lists. intros [= <- <- <-].
  split_and!; try apply py_sorted_sorted; rewrite NoDup_py_sorted, ?set_list_perm;
    auto using NoDup_intersection, NoDup_set_diff.
Qed.
End lists.

(** ** Deep merge: lemmas *)

(** What [deep_merge_dict] does with one key of [dictb]. *)
Definition merge_value (path : list string) (va vb : json) : result json :=
  match va, vb with
  | JDict da, JDict _ => JDict <$> deep_merge_dict vb da path
  | _, _ => if py_eq va vb then Ok va else Err (conflict_error path)
  end.

Definition merge_item (path : list string) (acc : list (string * json)) (kv : string * json) :
    result (list (string * json)) :=
  match dict_get acc kv.1 with
  | Some va => v ← merge_value (path ++ [kv.1]) va kv.2; Ok (dict_set acc kv.1 v)
  | None => Ok (dict_set acc kv.1 kv.2)
  end.

Lemma dict_set_id {V} (d : list (string * V)) k v : dict_get d k = Some v → dict_set d k v = d.
Proof.
  induction d as [|[k' v'] d IH]; cbn; [done|].
  destruct (decide (k = k')) as [->|]; [by intros [= ->]|]. intros. by rewrite IH.
Qed.

Lemma deep_merge_dict_cons key vb rest acc path :
  deep_merge_dict (JDict ((key, vb) :: rest)) acc path =
  merge_item path acc (key, vb) ≫= λ acc', deep_merge_dict (JDict rest) acc' path.
Proof.
  unfold merge_item, merge_value. cbn [fst snd].
  destruct (dict_get acc key) as [va|] eqn:Hget; cbn [deep_merge_dict]; rewrite Hget; [|done].
  destruct va as [| | | | |da]; [..|destruct vb as [| | | | |db]];
    try (destruct (py_eq _ _); [|done]; cbn [mbind result_bind];
         by rewrite (dict_set_id acc) by done).
  cbn [fmap result_fmap]. by destruct (deep_merge_dict (JDict db) da (path ++ [key])).
Qed.

Lemma deep_merge_dict_fold items acc path :
  deep_merge_dict (JDict items) acc path = foldM (merge_item path) acc items.
Proof.
  revert acc. induction items as [|[key vb] rest IH]; intros acc; [done|].
  rewrite deep_merge_dict_cons. cbn [foldM].
  destruct (merge_item path acc (key, vb)); cbn; [apply IH|done].
Qed.

Lemma merge_value_dicts_err path da db e :
  merge_value path (JDict da) (JDict db) = Err e ↔ deep_merge_dict (JDict db) da path = Err e.
Proof.
  change (merge_value path (JDict da) (JDict db))
    with (JDict <$> deep_merge_dict (JDict db) da path).
  destruct (deep_merge_dict (JDict db) da path); cbn; naive_solver.
Qed.

(** A path at which the two dictionaries disagree. *)
Inductive conflict : list (string * json) → list (string * json) → list string → Prop :=
  | conflict_here d e k va vb :
      dict_get d k = Some va → dict_get e k = Some vb →
      (∀ da db, va = JDict da → vb = JDict db → False) →
      py_eq va vb = false → conflict d e [k]
  | conflict_below d e k da db p :
      dict_get d k = Some (JDict da) → dict_get e k = Some (JDict db) →
      conflict da db p → conflict d e (k :: p).

Lemma merge_items_get path items acc c :
  NoDup (dict_keys items) → foldM (merge_item path) acc items = Ok c → ∀ k,
  match dict_get items k with
  | None => dict_get c k = dict_get acc k
  | Some vb =>
      match dict_get acc k with
      | None => dict_get c k = Some vb
      | Some va => ∃ v, merge_value (path ++ [k]) va vb = Ok v ∧ dict_get c k = Some v
      end
  end.
Proof.
  revert acc. induction items as [|[key vb] rest IH]; intros acc Hnd Hm k; cbn in Hm.
  { by injection Hm as <-. }
  unfold dict_keys in Hnd. rewrite fmap_cons, NoDup_cons in Hnd. destruct Hnd as [Hkey Hnd].
  apply bind_ok in Hm as (acc' & Hacc' & Hm). specialize (IH acc' Hnd Hm k).
  unfold merge_item in Hacc'. cbn [fst snd dict_get] in *.
  destruct (decide (k = key)) as [->|Hne].
  - rewrite (proj2 (dict_get_None rest key)) in IH by done.
    destruct (dict_get acc key) as [va|] eqn:Hget.
    + apply bind_ok in Hacc' as (v & Hv & [= <-]). exists v. by rewrite IH, dict_get_set_eq.
    + injection Hacc' as <-. by rewrite IH, dict_get_set_eq.
  - assert (dict_get acc' k = dict_get acc k) as Heq.
    { destruct (dict_get acc key); [apply bind_ok in Hacc' as (v & _ & [= <-])|injection Hacc' as <-];
        by rewrite dict_get_set_ne by done. }
    by rewrite Heq in IH.
Qed.

Lemma merge_items_err path items acc e :
  NoDup (dict_keys items) → foldM (merge_item path) acc items = Err e → ∃ k va vb,
  dict_get items k = Some vb ∧ dict_get acc k = Some va ∧
  merge_value (path ++ [k]) va vb = Err e.
Proof.
  revert acc. induction items as [|[key vb] rest IH]; intros acc Hnd Hm; cbn in Hm; [done|].
  unfold dict_keys in Hnd. rewrite fmap_cons, NoDup_cons in Hnd. destruct Hnd as [Hkey Hnd].
  apply bind_err in Hm as [Hm|(acc' & Hacc' & Hm)]; unfold merge_item in *; cbn [fst snd] in *.
  - destruct (dict_get acc key) as [va|] eqn:Hget; [|done].
    apply bind_err in Hm as [Hm|(v & _ & [=])]. exists key, va, vb.
    cbn [dict_get]. by rewrite decide_True.
  - destruct (IH acc' Hnd Hm) as (k & va & vb' & Hk & Ha & Hv). exists k, va, vb'.
    assert (k ≠ key) as Hne.
    { intros ->. apply Hkey, dict_get_is_Some. by exists vb'. }
    cbn [dict_get]. rewrite decide_False by done. split_and!; [done| |done].
    destruct (dict_get acc key); [apply bind_ok in Hacc' as (v & _ & [= <-])|injection Hacc' as <-];
      by rewrite dict_get_set_ne in Ha by done.
Qed.

Lemma merge_items_conflict path items acc k va vb e :
  NoDup (dict_keys items) → dict_get items k = Some vb → dict_get acc k = Some va →
  merge_value (path ++ [k]) va vb = Err e → ∃ e', foldM (merge_item path) acc items = Err e'.
Proof.
  intros Hnd Hb Ha He. destruct (foldM (merge_item path) acc items) as [c|e'] eqn:Hm; [|by exists e'].
  pose proof (merge_items_get _ _ _ _ Hnd Hm k) as Hk. rewrite Hb, Ha in Hk.
  destruct Hk as (v & Hv & _). congruence.
Qed.

Lemma merge_value_leaf path va vb e :
  (∀ da db, va = JDict da → vb = JDict db → False) →
  merge_value path va vb = Err e ↔ py_eq va vb = false ∧ e = conflict_error path.
Proof.
  intros Hleaf. unfold merge_value.
  destruct va, vb; try (destruct (py_eq _ _); naive_solver).
Qed.

Lemma json_wf_dict_get d k v : json_wf (JDict d) → dict_get d k = Some v → json_wf v.
Proof.
  intros Hwf Hget. inversion Hwf as [| | | | |d' _ Hall]; subst.
  rewrite Forall_forall in Hall. apply dict_get_Some_in in Hget. apply (Hall _ Hget).
Qed.

Definition is_dict (j : json) : bool := match j with JDict _ => true | _ => false end.

Lemma both_dicts va vb :
  (∃ da db, va = JDict da ∧ vb = JDict db) ∨ (∀ da db, va = JDict da → vb = JDict db → False).
Proof. destruct va, vb; naive_solver. Qed.

Lemma deep_merge_err_conflict b : json_wf b → ∀ items acc path e, b = JDict items →
  deep_merge_dict b acc path = Err e →
  ∃ p, conflict acc items p ∧ e = conflict_error (path ++ p).
Proof.
  induction b as [| | | | |d IH] using json_nested_ind; intros Hwf items acc path e Hb; try done.
  injection Hb as <-. rewrite deep_merge_dict_fold. intros Hm.
  assert (Hnd : NoDup (dict_keys d)) by by inversion Hwf.
  apply merge_items_err in Hm as (k & va & vb & Hgb & Hga & Hv); [|done].
  destruct (both_dicts va vb) as [(da & db & -> & ->)|Hleaf].
  - apply merge_value_dicts_err in Hv. rewrite Forall_forall in IH.
    destruct (IH (k, JDict db)) with (items := db) (acc := da) (path := path ++ [k]) (e := e)
      as (p & Hp & ->); [by apply dict_get_Some_in|by eapply json_wf_dict_get|done|done|].
    exists (k :: p). rewrite <-app_assoc. split; [by eapply conflict_below|done].
  - apply merge_value_leaf in Hv as [Heq ->]; [|done].
    exists [k]. split; [by eapply conflict_here|done].
Qed.

Lemma deep_merge_conflict_err d e p : conflict d e p → json_wf (JDict e) → ∀ path,
  ∃ err, deep_merge_dict (JDict e) d path = Err err.
Proof.
  induction 1 as [d e k va vb Hd He Hleaf Heq|d e k da db p Hd He Hc IH]; intros Hwf path;
    rewrite deep_merge_dict_fold; (assert (NoDup (dict_keys e)) as Hnd by by inversion Hwf).
  - eapply merge_items_conflict; [done..|]. by apply merge_value_leaf.
  - destruct (IH (json_wf_dict_get _ _ _ Hwf He) (path ++ [k])) as [err Herr].
    eapply (merge_items_conflict _ _ _ k); [done..|]. by apply merge_value_dicts_err.
Qed.

(** ** Properties *)

(** encoding an integer in base 36 or base 16 always succeeds, and Python's
    [int(text, base)] reads the text back as the same integer, zero and negative
    numbers included; the loop's fuel is always enough. *)
Theorem base_encode_decode (number : Z) :
  (s ← base36encode number; base36decode s) = Ok number ∧
  (s ← base16encode number; base16decode s) = Ok number.
Proof.
  split.
  - destruct (encode_base_roundtrip 36 base36_alphabet ltac:(lia)
      (alphabet_ok_spec 36 base36_alphabet eq_refl) number) as (s & He & Hd).
    unfold base36encode. rewrite He. exact Hd.
  - destruct (encode_base_roundtrip 16 base16_alphabet ltac:(lia)
      (alphabet_ok_spec 16 base16_alphabet eq_refl) number) as (s & He & Hd).
    unfold base16encode. rewrite He. exact Hd.
Qed.

(** [compare_lists] splits two lists into the sorted common elements and the
    sorted elements of each side only, without repetition, whatever the order in
    which Python lists the sets it builds. *)
Theorem compare_lists_partition `{SetOrder} {A} `{PyOrd A} (list1 list2 : list A) :
  ∃ both only1 only2, compare_lists list1 list2 = (both, only1, only2) ∧
    (∀ x, x ∈ both ↔ x ∈ list1 ∧ x ∈ list2) ∧
    (∀ x, x ∈ only1 ↔ x ∈ list1 ∧ x ∉ list2) ∧
    (∀ x, x ∈ only2 ↔ x ∈ list2 ∧ x ∉ list1) ∧
    Forall (λ l, StronglySorted py_le l ∧ NoDup l) [both; only1; only2] ∧
    (∀ other : SetOrder, @compare_lists other A _ _ list1 list2 = (both, only1, only2)).
Proof.
  destruct (compare_lists list1 list2) as [[b o1] o2] eqn:Hc.
  exists b, o1, o2. destruct (compare_lists_elem _ _ _ _ _ Hc) as (? & ? & ?).
  destruct (compare_lists_sorted _ _ _ _ _ Hc) as (? & ? & ?).
  split_and!; [done..|by rewrite !Forall_cons, Forall_nil|].
  intros other. destruct (@compare_lists other _ _ _ list1 list2) as [[b' o1'] o2'] eqn:Hc'.
  destruct (@compare_lists_elem _ _ _ other _ _ _ _ _ Hc') as (? & ? & ?).
  destruct (@compare_lists_sorted _ _ _ other _ _ _ _ _ Hc') as (? & ? & ?).
  repeat f_equal; apply sorted_NoDup_unique; naive_solver.
Qed.

(** [duplicates] returns exactly the values that occur at least twice once
    [None] is left out, so it is empty exactly when those values are distinct. *)
Theorem duplicates_spec {A} `{PyOrd A} (input_list : list (option A)) :
  (∀ x, x ∈ duplicates input_list ↔ 2 ≤ occurrences x (omap id input_list)) ∧
  (duplicates input_list = [] ↔ NoDup (omap id input_list)).
Proof. split; [intros x; apply elem_of_duplicates|apply duplicates_nil]. Qed.

(** [deep_merge_dict] succeeds exactly when no path holds two values that
    are not both dictionaries and differ; it then keeps every key of either side,
    a key of both sides holding the recursive merge, and otherwise it raises the
    conflict of one such path. *)
Theorem deep_merge_dict_spec (dicta dictb : list (string * json)) :
  json_wf (JDict dictb) →
  (∀ c, deep_merge_dict (JDict dictb) dicta [] = Ok c → ∀ k,
     match dict_get dictb k, dict_get dicta k with
     | None, va => dict_get c k = va
     | Some vb, None => dict_get c k = Some vb
     | Some vb, Some va => ∃ v, merge_value [k] va vb = Ok v ∧ dict_get c k = Some v
     end) ∧
  (∀ e, deep_merge_dict (JDict dictb) dicta [] = Err e →
     ∃ p, conflict dicta dictb p ∧ e = conflict_error p) ∧
  (is_ok (deep_merge_dict (JDict dictb) dicta []) = true ↔ ¬ ∃ p, conflict dicta dictb p).
Proof.
  intros Hwf. assert (NoDup (dict_keys dictb)) as Hnd by by inversion Hwf. split_and!.
  - intros c Hc k. rewrite deep_merge_dict_fold in Hc.
    pose proof (merge_items_get [] _ _ _ Hnd Hc k) as Hk.
    destruct (dict_get dictb k); [|done]. by destruct (dict_get dicta k).
  - intros e He. by eapply (deep_merge_err_conflict _ Hwf) in He.
  - destruct (deep_merge_dict (JDict dictb) dicta []) as [c|e] eqn:Hm; cbn; split; try done.
    + intros _ [p Hp]. destruct (deep_merge_conflict_err _ _ _ Hp Hwf []). congruence.
    + eapply (deep_merge_err_conflict _ Hwf) in Hm as (p & Hp & _); [|done].
      intros []. by exists p.
Qed.

Lemma deep_merge_dict_spec_witness :
  json_wf (JDict [("a", JDict [("c", JInt 1)]); ("b", JInt 2)]) ∧
  is_ok (deep_merge_dict (JDict [("a", JDict [("c", JInt 1)]); ("b", JInt 2)])
           [("a", JDict [("d", JInt 3)])] []) = true ∧
  ¬ ∃ p, conflict [("a", JDict [("d", JInt 3)])]
                  [("a", JDict [("c", JInt 1)]); ("b", JInt 2)] p.
Proof.
  assert (Hwf : json_wf (JDict [("a", JDict [("c", JInt 1)]); ("b", JInt 2)])).
  { apply wf_dict; [apply (bool_decide_unpack _); vm_compute; exact I|].
    repeat constructor; apply (bool_decide_unpack _); vm_compute; exact I. }
  split; [exact Hwf|]. split; [reflexivity|].
  apply (deep_merge_dict_spec _ _ Hwf). reflexivity.
Defined.
