(* ===== verification/TopologicalSort.v ===== *)
(** * Topological sort of a dependency dictionary

    [python_sdk/infrahub_sdk/topological_sort.py].  A dependency dictionary maps
    a key to the set of keys it depends on; a set is a list of its elements. *)

From stdpp Require Import prelude strings gmap relations.
From S2P Require Import Prelude PyString PyDict.

Abbreviation graph := (list (string * list string)).

Section topological_sort.
Context `{SetOrder}.

(** [path.index(node)] *)
Fixpoint py_index (node : string) (path : list string) : nat :=
  match path with
  | [] => 0
  | x :: path' => if decide (x = node) then 0 else S (py_index node path')
  end.

(** [_get_cycles(dependency_dict, path)] pops the nodes it visits from the
    caller's dictionary: the dictionary left over is returned with the cycles.
    Each call pops one key before it recurses, so the fuel is the number of
    keys. *)
Fixpoint _get_cycles (fuel : nat) (dependency_dict : graph) (path : list string) :
    list (list string) * graph :=
  match fuel with
  | O => ([], dependency_dict)
  | S fuel' =>
      match last path with
      | None => ([], dependency_dict)
      | Some node =>
          match dict_get dependency_dict node with
          | None => ([], dependency_dict)
          | Some next_nodes =>
              foldl (λ (acc : list (list string) * graph) next_node,
                if decide (next_node ∈ path) then
                  (acc.1 ++ [drop (py_index next_node path) path ++ [next_node]], acc.2)
                else
                  let sub := _get_cycles fuel' acc.2 (path ++ [next_node]) in
                  (acc.1 ++ sub.1, sub.2))
                ([], dict_del dependency_dict node) (set_list next_nodes)
          end
      end
  end.

(** [get_cycles(dependency_dict)]: start from the first key left until none is. *)
Fixpoint get_cycles_loop (fuel : nat) (dict_to_check : graph) : list (list string) :=
  match fuel, dict_to_check with
  | S fuel', (start, _) :: _ =>
      let '(cycles, rest) := _get_cycles (length dict_to_check) dict_to_check [start] in
      cycles ++ get_cycles_loop fuel' rest
  | _, _ => []
  end.

Definition get_cycles (dependency_dict : graph) : list (list string) :=
  get_cycles_loop (length dependency_dict) dependency_dict.

(** The keys of the dictionary that depend on nothing. *)
Definition nondependant_nodes (d : graph) : list string :=
  (filter (λ kv, length kv.2 = 0) d).*1.

(** [{k: v - nodes for k, v in d.items() if k not in nodes}] *)
Definition remove_nodes (nodes : list string) (d : graph) : graph :=
  (λ kv, (kv.1, filter (.∉ nodes) kv.2)) <$> filter (λ kv, kv.1 ∉ nodes) d.

(** The [while] loop; every iteration but a raising one removes a key, so the
    number of keys is enough fuel: the error of the first branch stands for a loop that
    does not end, and [topological_sort_layers] excludes it. *)
Fixpoint sort_loop (fuel : nat) (dependency_dict_to_sort : graph) (ordered : list (list string)) :
    result (list (list string)) :=
  match dependency_dict_to_sort with
  | [] => Ok ordered
  | _ =>
      match fuel with
      | O => Err (RuntimeError "the loop does not end")
      | S fuel' =>
          let nodes := nondependant_nodes dependency_dict_to_sort in
          let rest := remove_nodes nodes dependency_dict_to_sort in
          if (length nodes =? 0)%nat && negb (length rest =? 0)%nat then
            Err (DependencyCycleExistsError (get_cycles rest))
          else sort_loop fuel' rest (ordered ++ [nodes])
      end
  end.

(** The dictionary the loop starts from: every value as a set, and an entry
    without dependencies for each key that is only depended upon. *)
Definition complete_graph (dependency_dict : graph) : graph :=
  let missing_dependent_keys :=
    set_diff (concat (dict_values dependency_dict)) (dict_keys dependency_dict) in
  dict_update ((λ kv, (kv.1, py_set kv.2)) <$> dependency_dict)
              ((λ k, (k, [])) <$> set_list missing_dependent_keys).

Definition topological_sort (dependency_dict : graph) : result (list (list string)) :=
  match dependency_dict with
  | [] => Ok []
  | _ =>
      let d := complete_graph dependency_dict in
      sort_loop (length d) d []
  end.

(** [k] depends on [x]. *)
Definition depends (d : graph) (k x : string) : Prop :=
  ∃ v, dict_get d k = Some v ∧ x ∈ v.

(** No key depends on itself, directly or through others. *)
Definition acyclic (d : graph) : Prop := ∀ k, ¬ tc (depends d) k k.

(** [c] is a closed walk of the dependency relation. *)
Definition walk (R : string → string → Prop) (l : list string) : Prop :=
  ∀ i a b, l !! i = Some a → l !! S i = Some b → R a b.
Definition is_cycle (d : graph) (c : list string) : Prop :=
  2 ≤ length c ∧ head c = last c ∧ walk (depends d) c.
End topological_sort.

Lemma tc_iff {A} (R Q : relation A) a b : (∀ x y, R x y ↔ Q x y) → tc R a b ↔ tc Q a b.
Proof.
  intros HRQ. split; induction 1 as [x y Hxy|x y z Hxy _ IH].
  1,3: apply tc_once. 3,4: eapply tc_l; [|exact IH]. all: by apply HRQ.
Qed.

(** ** Walks and cycles *)

Section walks.
Context (R : string → string → Prop).

Lemma walk_singleton x : walk R [x].
Proof. intros [|i] a b; cbn; done. Qed.

Lemma walk_snoc l x y : walk R l → last l = Some x → R x y → walk R (l ++ [y]).
Proof.
  intros Hw Hl HR i a b Ha Hb. pose proof (lookup_lt_Some _ _ _ Hb) as Hi.
  rewrite length_app in Hi. cbn in Hi.
  rewrite lookup_app_l in Ha by lia.
  destruct (decide (S i < length l)) as [Hlt|Hge].
  - rewrite lookup_app_l in Hb by done. by eapply Hw.
  - rewrite lookup_app_r in Hb by lia. replace (S i - length l) with 0 in Hb by lia.
    injection Hb as <-. rewrite last_lookup in Hl.
    replace (pred (length l)) with i in Hl by lia. congruence.
Qed.

Lemma walk_drop l n : walk R l → walk R (drop n l).
Proof. intros Hw i a b. rewrite !lookup_drop, Nat.add_succ_r. apply Hw. Qed.

Lemma walk_tc l i j a b : walk R l → l !! i = Some a → l !! j = Some b → i < j → tc R a b.
Proof.
  intros Hw Ha Hb Hlt. revert b Hb. induction Hlt as [|j Hlt IH]; intros b Hb.
  - apply tc_once. by eapply Hw.
  - destruct (lookup_lt_is_Some_2 l j) as [c Hc].
    { apply lookup_lt_Some in Hb. lia. }
    eapply tc_r; [by apply IH|by eapply Hw].
Qed.
End walks.

Lemma is_cycle_tc d c : is_cycle d c → ∃ k, tc (depends d) k k.
Proof.
  intros (Hlen & Hends & Hw). rewrite head_lookup, last_lookup in Hends.
  destruct (lookup_lt_is_Some_2 c 0) as [k Hk]; [lia|]. exists k.
  eapply (walk_tc _ c 0 (pred (length c))); [done|done| |lia]. by rewrite <-Hends.
Qed.

Lemma py_index_lookup node path : node ∈ path → path !! py_index node path = Some node.
Proof.
  induction path as [|x path IH]; cbn; [set_solver|]. rewrite elem_of_cons.
  destruct (decide (x = node)) as [->|]; [done|]. naive_solver.
Qed.

(** An edge from the end of a walk back into it closes a cycle. *)
Lemma close_cycle G path node x :
  walk (depends G) path → last path = Some node → x ∈ path → depends G node x →
  is_cycle G (drop (py_index x path) path ++ [x]).
Proof.
  intros Hw Hlast Hx Hdep. pose proof (py_index_lookup _ _ Hx) as Hi.
  pose proof (lookup_lt_Some _ _ _ Hi). split_and!.
  - rewrite length_app, length_drop. cbn. lia.
  - by rewrite last_snoc, head_app, head_lookup, lookup_drop, Nat.add_0_r, Hi.
  - eapply walk_snoc; [by apply walk_drop| |done].
    rewrite last_lookup, lookup_drop, length_drop, <-Hlast, last_lookup. f_equal. lia.
Qed.

(** ** The cycles reported for a residual graph *)

Section cycles.
Context `{SetOrder} (G : graph).

(** The dictionary holds the entries of [G] that were not popped. *)
Definition subgraph (d : graph) : Prop :=
  ∀ k v, dict_get d k = Some v → dict_get G k = Some v.

Lemma subgraph_del d k : subgraph d → subgraph (dict_del d k).
Proof. intros Hd k' v. rewrite dict_get_del. case_decide; [done|apply Hd]. Qed.

(** Every cycle that is reported is one, and popping keeps a subgraph. *)
Lemma _get_cycles_sound fuel d path :
  subgraph d → walk (depends G) path →
  Forall (is_cycle G) (_get_cycles fuel d path).1 ∧ subgraph (_get_cycles fuel d path).2.
Proof.
  revert d path. induction fuel as [|fuel IH]; intros d path Hd Hw; [done|].
  cbn [_get_cycles]. destruct (last path) as [node|] eqn:Hlast; [|done].
  destruct (dict_get d node) as [nexts|] eqn:Hget; [|done].
  assert (∀ x, x ∈ set_list nexts → depends G node x) as Hnext.
  { intros x Hx. exists nexts. split; [by apply Hd|]. by rewrite set_list_perm in Hx. }
  assert (∀ acc, Forall (is_cycle G) acc.1 → subgraph acc.2 →
    let r := foldl (λ (acc : list (list string) * graph) next_node,
      if decide (next_node ∈ path) then
        (acc.1 ++ [drop (py_index next_node path) path ++ [next_node]], acc.2)
      else let sub := _get_cycles fuel acc.2 (path ++ [next_node]) in
        (acc.1 ++ sub.1, sub.2)) acc (set_list nexts) in
    Forall (is_cycle G) r.1 ∧ subgraph r.2) as Hfold.
  { induction (set_list nexts) as [|x l IHl]; intros acc Hc Hs; [done|].
    cbn [foldl]. apply IHl; [by intros y Hy; apply Hnext; right|..].
    - destruct (decide (x ∈ path)) as [Hx|Hx]; cbn [fst].
      + apply Forall_app. split; [done|]. apply Forall_singleton.
        apply (close_cycle _ _ node); [done..|]. apply Hnext. left.
      + apply Forall_app. split; [done|]. apply IH; [done|].
        eapply walk_snoc; [done..|]. apply Hnext. left.
    - destruct (decide (x ∈ path)) as [Hx|Hx]; cbn [snd]; [done|].
      apply IH; [done|]. eapply walk_snoc; [done..|]. apply Hnext. left. }
  apply Hfold; [by cbn|]. by apply subgraph_del.
Qed.

Lemma get_cycles_loop_sound fuel d :
  subgraph d → Forall (is_cycle G) (get_cycles_loop fuel d).
Proof.
  revert d. induction fuel as [|fuel IH]; intros [|[start v] d] Hd;
    cbn [get_cycles_loop]; try by apply Forall_nil.
  destruct (_get_cycles_sound (length ((start, v) :: d)) ((start, v) :: d) [start]) as [Hc Hs];
    [done|apply walk_singleton|].
  destruct (_get_cycles _ _ _) as [cycles rest].
  apply Forall_app. split; [done|]. by apply IH.
Qed.

(** In a graph where every node depends on some node of the graph, the first
    descent cannot leave the nodes of the path and finds a cycle. *)
Context (Hnonempty : ∀ k v, dict_get G k = Some v → v ≠ []).
Context (Hclosed : ∀ k x, depends G k x → x ∈ dict_keys G).

Lemma foldl_cycles_grow {A} (f : list (list string) * graph → A → list (list string) * graph)
    l acc :
  (∀ acc x, length acc.1 ≤ length (f acc x).1) → length acc.1 ≤ length (foldl f acc l).1.
Proof.
  intros Hf. revert acc. induction l as [|x l IH]; intros acc; cbn; [lia|].
  etrans; [apply (Hf acc x)|apply IH].
Qed.

Lemma _get_cycles_nonempty fuel d path node :
  length d ≤ fuel → last path = Some node → node ∈ dict_keys d → subgraph d →
  (∀ k, k ∈ dict_keys G → k ∈ dict_keys d ∨ k ∈ path) →
  0 < length (_get_cycles fuel d path).1.
Proof.
  revert d path node. induction fuel as [|fuel IH]; intros d path node Hlen Hlast Hnode Hsub Hall.
  { destruct d; [set_solver|cbn in Hlen; lia]. }
  cbn [_get_cycles]. rewrite Hlast.
  apply dict_get_is_Some in Hnode as [nexts Hget]. rewrite Hget.
  assert (∃ x l, set_list nexts = x :: l ∧ depends G node x) as (x & l & -> & Hx).
  { destruct (set_list nexts) as [|x l] eqn:Hl.
    - exfalso. apply (Hnonempty node nexts); [by apply Hsub|].
      apply Permutation_nil_r. by rewrite <-Hl, set_list_perm.
    - exists x, l. split; [done|]. exists nexts. split; [by apply Hsub|].
      rewrite <-(set_list_perm nexts), Hl. left. }
  cbn [foldl]. eapply Nat.lt_le_trans; [|apply foldl_cycles_grow].
  - destruct (decide (x ∈ path)) as [|Hnp]; cbn [fst snd]; [cbn; lia|].
    rewrite app_nil_l. apply (IH _ _ x).
    + unfold dict_del. apply dict_get_Some_in in Hget.
      pose proof (length_filter_lt (λ p : string * list string, p.1 ≠ node) d (node, nexts) Hget).
      naive_solver lia.
    + apply last_snoc.
    + rewrite dict_keys_del, list_elem_of_filter. split.
      * intros ->. apply Hnp. by eapply last_Some_elem_of.
      * by destruct (Hall x) as [|]; [by eapply Hclosed|..].
    + by apply subgraph_del.
    + intros k Hk. rewrite dict_keys_del, list_elem_of_filter, elem_of_app.
      destruct (decide (k = node)) as [->|].
      * right; left. by eapply last_Some_elem_of.
      * destruct (Hall k); naive_solver.
  - intros acc y. destruct (decide (y ∈ path)); cbn; rewrite length_app; lia.
Qed.
End cycles.

Lemma get_cycles_sound `{SetOrder} d : Forall (is_cycle d) (get_cycles d).
Proof. apply get_cycles_loop_sound. by intros k v. Qed.

Lemma get_cycles_nonempty `{SetOrder} d :
  d ≠ [] → (∀ k v, dict_get d k = Some v → v ≠ []) →
  (∀ k x, depends d k x → x ∈ dict_keys d) → get_cycles d ≠ [].
Proof.
  intros Hd Hne Hcl. unfold get_cycles. destruct d as [|[start v] d]; [done|].
  cbn [get_cycles_loop length].
  assert (0 < length (_get_cycles (length ((start, v) :: d)) ((start, v) :: d) [start]).1) as Hpos.
  { apply (_get_cycles_nonempty _ Hne Hcl _ _ _ start);
      [done|done|unfold dict_keys; set_solver|by intros k w|by intros k; left]. }
  cbn [length] in Hpos. destruct (_get_cycles _ _ _) as [[|c cycles] rest]; cbn in Hpos; [lia|done].
Qed.

(** ** The layers *)

(** [ls] orders the nodes of [d]: each node is in one layer, and what a node
    depends on is in a strictly earlier layer. *)
Definition layered (d : graph) (ls : list (list string)) : Prop :=
  NoDup (concat ls) ∧ (∀ x, x ∈ concat ls ↔ x ∈ dict_keys d) ∧
  ∀ k x, depends d k x →
    ∃ i j li lj, ls !! i = Some li ∧ ls !! j = Some lj ∧ x ∈ li ∧ k ∈ lj ∧ i < j.

Definition closed_graph (d : graph) : Prop := ∀ k x, depends d k x → x ∈ dict_keys d.

Lemma elem_of_nondependant d k :
  NoDup (dict_keys d) → k ∈ nondependant_nodes d ↔ dict_get d k = Some [].
Proof.
  intros Hnd. unfold nondependant_nodes. rewrite list_elem_of_fmap. split.
  - intros ([k' v] & -> & [Hv Hin]%list_elem_of_filter). apply length_zero_iff_nil in Hv. cbn in Hv.
    subst. by apply dict_get_in.
  - intros Hg%dict_get_Some_in. exists (k, []). split; [done|]. by apply list_elem_of_filter.
Qed.

Lemma dict_keys_remove_nodes nodes d :
  dict_keys (remove_nodes nodes d) = filter (.∉ nodes) (dict_keys d).
Proof.
  unfold dict_keys, remove_nodes. induction d as [|[k v] d IH]; [done|].
  rewrite fmap_cons, !filter_cons. cbn [fst]. destruct (decide (k ∉ nodes)); [|done].
  rewrite !fmap_cons. cbn [fst]. by f_equal.
Qed.

Lemma dict_get_remove_nodes nodes d k :
  dict_get (remove_nodes nodes d) k =
  if decide (k ∈ nodes) then None else filter (.∉ nodes) <$> dict_get d k.
Proof.
  unfold remove_nodes. induction d as [|[k' v] d IH]; [by case_decide|].
  rewrite filter_cons. cbn [fst]. destruct (decide (k' ∉ nodes)) as [Hn|Hn];
    rewrite ?fmap_cons; cbn [dict_get fst snd]; rewrite IH;
    destruct (decide (k = k')) as [->|]; repeat case_decide; try done; naive_solver.
Qed.

Lemma depends_remove_nodes nodes d k x :
  depends (remove_nodes nodes d) k x ↔ k ∉ nodes ∧ x ∉ nodes ∧ depends d k x.
Proof.
  unfold depends. rewrite dict_get_remove_nodes. case_decide as Hk.
  - split; [by intros (v & ? & _)|by intros []].
  - split.
    + intros (v & Hv & Hx). apply fmap_Some in Hv as (w & Hw & ->).
      apply list_elem_of_filter in Hx as [? ?]. eauto.
    + intros (_ & Hx & v & Hv & Hin). exists (filter (.∉ nodes) v). rewrite Hv. split; [done|].
      by apply list_elem_of_filter.
Qed.

Lemma closed_remove_nodes nodes d : closed_graph d → closed_graph (remove_nodes nodes d).
Proof.
  intros Hc k x (Hk & Hx & Hd)%depends_remove_nodes. rewrite dict_keys_remove_nodes.
  apply list_elem_of_filter. split; [done|]. by eapply Hc.
Qed.

(** Removing the independent nodes leaves the later layers. *)
Lemma layered_step d ls :
  NoDup (dict_keys d) →
  layered (remove_nodes (nondependant_nodes d) d) ls → layered d (nondependant_nodes d :: ls).
Proof.
  intros Hnd (Hls & Hkeys & Hdep).
  assert (∀ x, x ∈ concat ls ↔ x ∈ dict_keys d ∧ x ∉ nondependant_nodes d) as Hin.
  { intros x. rewrite Hkeys, dict_keys_remove_nodes, list_elem_of_filter. tauto. }
  assert (∀ x, x ∈ nondependant_nodes d → x ∈ dict_keys d) as Hsub.
  { intros x Hx. apply dict_get_is_Some. exists []. by apply elem_of_nondependant. }
  split_and!; cbn [concat].
  - apply NoDup_app. split_and!; [|set_solver|done].
    unfold nondependant_nodes. by apply NoDup_fmap_filter.
  - intros x. rewrite elem_of_app, Hin. destruct (decide (x ∈ nondependant_nodes d)); naive_solver.
  - intros k x (v & Hv & Hx). assert (k ∉ nondependant_nodes d) as Hk.
    { intros Hk%elem_of_nondependant; [|done]. rewrite Hk in Hv. simplify_eq. set_solver. }
    destruct (decide (x ∈ nondependant_nodes d)) as [Hxn|Hxn].
    + assert (k ∈ concat ls) as (lj & Hlj & Hk')%list_elem_of_In%in_concat.
      { apply Hin. split; [|done]. apply dict_get_is_Some. by exists v. }
      apply list_elem_of_In, list_elem_of_lookup in Hlj as [j Hj].
      exists 0, (S j), (nondependant_nodes d), lj. split_and!; [done..|by apply list_elem_of_In|lia].
    + destruct (Hdep k x) as (i & j & li & lj & ? & ? & ? & ? & ?).
      { apply depends_remove_nodes. split_and!; [done..|]. by exists v. }
      exists (S i), (S j), li, lj. split_and!; [done..|lia].
Qed.

Lemma length_remove_nodes nodes d x :
  x ∈ nodes → x ∈ dict_keys d → length (remove_nodes nodes d) < length d.
Proof.
  intros Hx (kv & -> & Hkv)%list_elem_of_fmap. unfold remove_nodes. rewrite length_fmap.
  eapply length_filter_lt; [exact Hkv|]. naive_solver.
Qed.

Section sort_loop.
Context `{SetOrder}.

(** What is left of [d] when no node is independent. *)
Definition stuck (d rest : graph) : Prop :=
  rest ≠ [] ∧ (∀ k v, dict_get rest k = Some v → v ≠ []) ∧ closed_graph rest ∧
  ∀ k x, depends rest k x → depends d k x.

Lemma stuck_here d :
  NoDup (dict_keys d) → closed_graph d → nondependant_nodes d = [] →
  remove_nodes [] d ≠ [] → stuck d (remove_nodes [] d).
Proof.
  intros Hnd Hc Hn Hne. split_and!; [done| |by apply closed_remove_nodes|].
  - intros k v Hv ->. rewrite dict_get_remove_nodes, decide_False in Hv by set_solver.
    apply fmap_Some in Hv as (w & Hw & Heq). destruct w as [|x w].
    + apply elem_of_nondependant in Hw; [|done]. rewrite Hn in Hw. set_solver.
    + rewrite filter_cons_True in Heq by set_solver. done.
  - intros k x Hd. by apply depends_remove_nodes in Hd as (_ & _ & ?).
Qed.

Lemma sort_loop_spec fuel d ordered :
  length d ≤ fuel → NoDup (dict_keys d) → closed_graph d →
  (∃ ls, sort_loop fuel d ordered = Ok (ordered ++ ls) ∧ layered d ls) ∨
  (∃ rest, sort_loop fuel d ordered = Err (DependencyCycleExistsError (get_cycles rest)) ∧
           stuck d rest).
Proof.
  revert d ordered. induction fuel as [|fuel IH]; intros d ordered Hlen Hnd Hc;
    (destruct d as [|kv d]; [left; exists []; rewrite app_nil_r; split;
      [done|split_and!; [constructor|done|by intros k x (v & ? & _)]]|]).
  { cbn in Hlen. lia. }
  set (g := kv :: d) in *. change (sort_loop (S fuel) g ordered) with
    (if (length (nondependant_nodes g) =? 0)%nat &&
        negb (length (remove_nodes (nondependant_nodes g) g) =? 0)%nat
     then Err (DependencyCycleExistsError (get_cycles (remove_nodes (nondependant_nodes g) g)))
     else sort_loop fuel (remove_nodes (nondependant_nodes g) g)
            (ordered ++ [nondependant_nodes g])).
  destruct (nondependant_nodes g) as [|x nodes] eqn:Hn; cbn [length Nat.eqb andb].
  - assert (kv.1 ∈ dict_keys (remove_nodes [] g)) as Hkv.
    { rewrite dict_keys_remove_nodes, list_elem_of_filter. unfold g, dict_keys. set_solver. }
    destruct (remove_nodes [] g) as [|kv' rest] eqn:Hr; [by apply elem_of_nil in Hkv|]. right.
    exists (kv' :: rest). split; [done|]. rewrite <-Hr.
    apply stuck_here; [done..|by rewrite Hr].
  - assert (x ∈ dict_keys g) as Hx.
    { apply dict_get_is_Some. exists []. apply elem_of_nondependant; [done|]. rewrite Hn. left. }
    pose proof (length_remove_nodes (x :: nodes) g x ltac:(left) Hx) as Hlt.
    destruct (IH (remove_nodes (x :: nodes) g) (ordered ++ [x :: nodes]))
      as [(ls & Hok & Hls)|(rest & Herr & ? & ? & ? & Hsub)].
    + lia.
    + rewrite dict_keys_remove_nodes. by apply NoDup_filter.
    + by apply closed_remove_nodes.
    + left. exists ((x :: nodes) :: ls). rewrite Hok, <-app_assoc. split; [done|].
      rewrite <-Hn in *. by apply layered_step.
    + right. exists rest. split; [done|]. split_and!; [done..|].
      intros k y Hd. by apply Hsub, depends_remove_nodes in Hd as (_ & _ & ?).
Qed.
End sort_loop.

(** ** The completed graph *)

Lemma NoDup_concat_disjoint {A} (ls : list (list A)) i j li lj a :
  ls !! i = Some li → ls !! j = Some lj → a ∈ li → a ∈ lj → i ≠ j → ¬ NoDup (concat ls).
Proof.
  revert i j. induction ls as [|l ls IH]; intros i j Hi Hj Hai Haj Hne; [done|].
  cbn [concat]. rewrite NoDup_app. intros (_ & Hdis & Hnd).
  assert (∀ n ln, ls !! n = Some ln → a ∈ ln → a ∈ concat ls) as Hin.
  { intros n ln Hn Ha. rewrite list_elem_of_In, in_concat. exists ln.
    rewrite <-!list_elem_of_In. split; [by eapply list_elem_of_lookup_2|done]. }
  destruct i as [|i], j as [|j]; cbn in Hi, Hj; simplify_eq; [by eapply Hdis; eauto..|].
  by eapply (IH i j); eauto.
Qed.

Section complete.
Context `{SetOrder}.

Lemma dict_get_map_values (f : list string → list string) (d : graph) k :
  dict_get ((λ kv, (kv.1, f kv.2)) <$> d) k = f <$> dict_get d k.
Proof.
  induction d as [|[k' v] d IH]; [done|]. rewrite fmap_cons. cbn [dict_get fst snd].
  by case_decide.
Qed.

Lemma dict_get_constant (l : list string) (v : list string) k :
  dict_get ((λ k, (k, v)) <$> l) k = if decide (k ∈ l) then Some v else None.
Proof.
  induction l as [|x l IH]; [done|]. rewrite fmap_cons. cbn [dict_get]. rewrite IH.
  destruct (decide (k = x)), (decide (k ∈ l)), (decide (k ∈ x :: l)); set_solver.
Qed.

Lemma depends_complete d k x :
  NoDup (dict_keys d) → depends (complete_graph d) k x ↔ depends d k x.
Proof.
  intros Hnd. unfold depends, complete_graph. rewrite dict_get_update, <-fmap_reverse.
  rewrite dict_get_constant, dict_get_map_values.
  assert (k ∈ reverse (set_list (set_diff (concat (dict_values d)) (dict_keys d))) →
          dict_get d k = None) as Hmiss.
  { rewrite elem_of_reverse, set_list_perm, elem_of_set_diff. intros [_ Hk].
    by apply dict_get_None. }
  destruct (decide _) as [Hin|_].
  - rewrite (Hmiss Hin). cbn. split; intros (w & Hw & Hx); [|done].
    injection Hw as <-. by apply elem_of_nil in Hx.
  - destruct (dict_get d k) as [v|]; cbn; [|naive_solver].
    split; intros (w & [= <-] & Hx); eexists; split_and!; try done; by apply elem_of_py_set.
Qed.

Lemma dict_keys_complete d k :
  NoDup (dict_keys d) →
  k ∈ dict_keys (complete_graph d) ↔ k ∈ dict_keys d ∨ ∃ k', depends d k' k.
Proof.
  intros Hnd. unfold complete_graph. rewrite dict_keys_update. unfold dict_keys at 1 2.
  rewrite <-!list_fmap_compose. change (fst ∘ _) with (fst (A:=string) (B:=list string)) at 1.
  rewrite list_fmap_id. rewrite set_list_perm, elem_of_set_diff.
  assert (k ∈ concat (dict_values d) ↔ ∃ k', depends d k' k) as ->.
  { rewrite list_elem_of_In, in_concat. unfold dict_values. split.
    - intros (v & Hv%list_elem_of_In & Hk%list_elem_of_In).
      apply list_elem_of_fmap in Hv as ([k' v'] & -> & Hin). exists k', v'. split; [|done].
      by apply dict_get_in.
    - intros (k' & v & Hv & Hk). exists v. rewrite <-!list_elem_of_In. split; [|done].
      apply list_elem_of_fmap. exists (k', v). split; [done|]. by apply dict_get_Some_in. }
  unfold dict_keys. destruct (decide (k ∈ d.*1)); naive_solver.
Qed.

Lemma NoDup_complete d : NoDup (dict_keys d) → NoDup (dict_keys (complete_graph d)).
Proof.
  intros Hnd. unfold complete_graph. apply NoDup_dict_update. unfold dict_keys.
  rewrite <-list_fmap_compose. exact Hnd.
Qed.

Lemma closed_complete d : NoDup (dict_keys d) → closed_graph (complete_graph d).
Proof.
  intros Hnd k x Hx. apply (depends_complete _ _ _ Hnd) in Hx.
  apply (dict_keys_complete _ _ Hnd). eauto.
Qed.

Lemma topological_sort_cases d :
  NoDup (dict_keys d) →
  (∃ ls, topological_sort d = Ok ls ∧ layered (complete_graph d) ls) ∨
  (∃ rest, topological_sort d = Err (DependencyCycleExistsError (get_cycles rest)) ∧
           stuck (complete_graph d) rest).
Proof.
  intros Hnd. destruct d as [|kv d].
  { assert (∀ k x, ¬ depends [] k x) as Hno by (by intros k x (v & ? & _)).
    left. exists []. split; [done|]. split_and!; cbn [concat]; [apply NoDup_nil_2| |].
    - intros x. rewrite (dict_keys_complete _ _ Hnd). set_solver.
    - intros k x Hkx. apply (depends_complete _ _ _ Hnd) in Hkx. by apply Hno in Hkx. }
  apply (sort_loop_spec _ _ []); [done|by apply NoDup_complete|by apply closed_complete].
Qed.

Lemma tc_complete d k x :
  NoDup (dict_keys d) → tc (depends (complete_graph d)) k x ↔ tc (depends d) k x.
Proof.
  intros Hnd. apply tc_iff. intros. by apply depends_complete.
Qed.

(** What the cycle search reports for a stuck remainder. *)
Lemma stuck_cycles d rest :
  stuck d rest → get_cycles rest ≠ [] ∧ Forall (is_cycle d) (get_cycles rest).
Proof.
  intros (Hne & Hnon & Hcl & Hsub). split; [by apply get_cycles_nonempty|].
  eapply Forall_impl; [apply get_cycles_sound|]. intros c (Hlen & Hends & Hw).
  split_and!; [done..|]. intros i a b Ha Hb. apply Hsub. by eapply Hw.
Qed.

Lemma is_cycle_complete d c : NoDup (dict_keys d) → is_cycle (complete_graph d) c → is_cycle d c.
Proof.
  intros Hnd (Hlen & Hends & Hw). split_and!; [done..|].
  intros i a b Ha Hb. apply (depends_complete _ _ _ Hnd). by eapply Hw.
Qed.

Lemma layered_acyclic d ls : layered d ls → acyclic d.
Proof.
  intros (Hnd & _ & Hdep) k Hk.
  assert (∀ a i j li lj, ls !! i = Some li → ls !! j = Some lj → a ∈ li → a ∈ lj → i = j) as Huniq.
  { intros a i j li lj Hi Hj Hai Haj. destruct (decide (i = j)) as [|Hne]; [done|]. exfalso.
    revert Hnd. apply (NoDup_concat_disjoint ls i j li lj a); done. }
  assert (∀ a b, tc (depends d) a b → ∃ i j li lj, ls !! i = Some li ∧ ls !! j = Some lj ∧
    b ∈ li ∧ a ∈ lj ∧ i < j) as Htc.
  { intros a b Hab. induction Hab as [a b Hab|a b c Hab _ IH]; [by apply Hdep|].
    destruct (Hdep a b Hab) as (i & j & li & lj & Hi & Hj & Hb & Ha & Hlt).
    destruct IH as (i' & j' & li' & lj' & Hi' & Hj' & Hc & Hb' & Hlt').
    pose proof (Huniq b _ _ _ _ Hi Hj' Hb Hb'). exists i', j, li', lj. split_and!; [done..|lia]. }
  destruct (Htc k k Hk) as (i & j & li & lj & Hi & Hj & Hki & Hkj & Hlt).
  pose proof (Huniq k _ _ _ _ Hi Hj Hki Hkj). lia.
Qed.
End complete.

(** ** Properties *)


