(* ===== verification/Md5.v ===== *)
(** * The MD5 digest

    [hashlib.md5(...).hexdigest()], which names the cached schemas: successive
    [update] calls digest the concatenation of their arguments. *)

From stdpp Require Import prelude strings.
From Stdlib Require Import Ascii.
From S2P Require Import Prelude PyString.

#[local] Open Scope Z_scope.

(** 32-bit words: [mask32] is [2 ^ 32 - 1]. *)
Definition mask32 : Z := 4294967295.
Definition w32 (x : Z) : Z := Z.land x mask32.
Definition rotl32 (x c : Z) : Z := Z.lor (w32 (Z.shiftl x c)) (Z.shiftr x (32 - c)).
Definition not32 (x : Z) : Z := mask32 - x.

(** Shift amounts and sine constants of the 64 steps. *)
Definition md5_s : list Z :=
  concat (replicate 4 [7; 12; 17; 22]) ++ concat (replicate 4 [5; 9; 14; 20]) ++
  concat (replicate 4 [4; 11; 16; 23]) ++ concat (replicate 4 [6; 10; 15; 21]).
Definition md5_k : list Z :=
  [
   3614090360; 3905402710; 606105819; 3250441966; 4118548399; 1200080426; 2821735955;
   4249261313; 1770035416; 2336552879; 4294925233; 2304563134; 1804603682; 4254626195;
   2792965006; 1236535329; 4129170786; 3225465664; 643717713; 3921069994; 3593408605;
   38016083; 3634488961; 3889429448; 568446438; 3275163606; 4107603335; 1163531501;
   2850285829; 4243563512; 1735328473; 2368359562; 4294588738; 2272392833; 1839030562;
   4259657740; 2763975236; 1272893353; 4139469664; 3200236656; 681279174; 3936430074;
   3572445317; 76029189; 3654602809; 3873151461; 530742520; 3299628645; 4096336452;
   1126891415; 2878612391; 4237533241; 1700485571; 2399980690; 4293915773; 2240044497;
   1873313359; 4264355552; 2734768916; 1309151649; 4149444226; 3174756917; 718787259;
   3951481745].

Definition md5_state : Type := Z * Z * Z * Z.

(** Round [i] on the message block [m] of sixteen words. *)
Definition md5_step (m : list Z) (st : md5_state) (i : nat * (Z * Z)) : md5_state :=
  let '(a, b, c, d) := st in
  let '(n, (s, k)) := i in
  let '(f, g) :=
    if (n <? 16)%nat then (Z.lor (Z.land b c) (Z.land (not32 b) d), n)
    else if (n <? 32)%nat then (Z.lor (Z.land d b) (Z.land (not32 d) c), (5 * n + 1) mod 16)%nat
    else if (n <? 48)%nat then (Z.lxor b (Z.lxor c d), (3 * n + 5) mod 16)%nat
    else (Z.lxor c (Z.lor b (not32 d)), (7 * n) mod 16)%nat in
  let f := w32 (f + a + k + nth g m 0) in
  (d, w32 (b + rotl32 f s), b, c).

Definition md5_block (st : md5_state) (m : list Z) : md5_state :=
  let '(a, b, c, d) := st in
  let '(a', b', c', d') :=
    foldl (md5_step m) st (zip (seq 0 64) (zip md5_s md5_k)) in
  (w32 (a + a'), w32 (b + b'), w32 (c + c'), w32 (d + d')).

(** Little-endian words and their bytes. *)
Fixpoint le_words (bytes : list Z) : list Z :=
  match bytes with
  | b0 :: b1 :: b2 :: b3 :: bytes' =>
      b0 + 256 * b1 + 65536 * b2 + 16777216 * b3 :: le_words bytes'
  | _ => []
  end.
Definition le_bytes (n : nat) (x : Z) : list Z :=
  (λ i, Z.shiftr x (8 * Z.of_nat i) mod 256) <$> seq 0 n.

(** The padded message: a one bit, zeros, and the length in bits. *)
Definition md5_pad (bytes : list Z) : list Z :=
  let len := Z.of_nat (length bytes) in
  bytes ++ [128] ++ replicate (Z.to_nat ((55 - len) mod 64)) 0 ++ le_bytes 8 (8 * len).

Fixpoint blocks (fuel : nat) (words : list Z) : list (list Z) :=
  match fuel, words with
  | S fuel', _ :: _ => take 16 words :: blocks fuel' (drop 16 words)
  | _, _ => []
  end.

Definition md5_digest (bytes : list Z) : list Z :=
  let words := le_words (md5_pad bytes) in
  let '(a, b, c, d) :=
    foldl md5_block (1732584193, 4023233417, 2562383102, 271733878) (blocks (length words) words) in
  concat (le_bytes 4 <$> [a; b; c; d]).

Definition hex_char (n : Z) : ascii :=
  ascii_of_nat (Z.to_nat (if n <? 10 then 48 + n else 87 + n)).
Fixpoint hex_of_bytes (bytes : list Z) : string :=
  match bytes with
  | [] => EmptyString
  | b :: bytes' => String (hex_char (b / 16)) (String (hex_char (b mod 16)) (hex_of_bytes bytes'))
  end.
Fixpoint bytes_of_string (s : string) : list Z :=
  match s with
  | EmptyString => []
  | String c s' => Z.of_nat (nat_of_ascii c) :: bytes_of_string s'
  end.

(** [hashlib.md5(s.encode()).hexdigest()] *)
Definition md5_hexdigest (s : string) : string :=
  hex_of_bytes (md5_digest (bytes_of_string s)).

(** The test vectors of RFC 1321. *)
Example md5_empty : md5_hexdigest "" = "d41d8cd98f00b204e9800998ecf8427e".
Proof. vm_compute. reflexivity. Qed.
Example md5_abc : md5_hexdigest "abc" = "900150983cd24fb0d6963f7d28e17f72".
Proof. vm_compute. reflexivity. Qed.
Example md5_digits :
  md5_hexdigest "12345678901234567890123456789012345678901234567890123456789012345678901234567890"
  = "57edf4a22be3c955ac49da2e2107b67a".
Proof. vm_compute. reflexivity. Qed.

(** A digest is never the empty text, which Python would take for false. *)
Lemma md5_hexdigest_nonempty s : ∃ c t, md5_hexdigest s = String c t.
Proof.
  unfold md5_hexdigest, md5_digest.
  destruct (foldl md5_block _ _) as [[[a b] c] d]. cbn. eauto.
Qed.

#[global] Opaque md5_hexdigest.
