(* ===== verification/Constants.v ===== *)
(** * Constants and enumerations

    [backend/infrahub/core/constants/] ([__init__.py], [schema.py],
    [infrahubkind.py]) and the attribute kinds of [backend/infrahub/types.py].
    One module per Python enumeration, so that members read as they do in the
    source ([RelationshipKind.PARENT]); [value] is the member's string. *)

From stdpp Require Import prelude strings.
From S2P Require Import Prelude PyString PyDict Md5.

(** String enumerations hash their value ([InfrahubStringEnum.get_hash]). *)
Class StringEnum (T : Type) := enum_value : T → string.
Definition enum_get_hash {T} `{StringEnum T} (x : T) : string := md5_hexdigest (enum_value x).

Module BranchSupportType.
Inductive BranchSupportType := AWARE | AGNOSTIC | LOCAL.
#[export] Instance BranchSupportType_eq_dec : EqDecision BranchSupportType.
Proof. solve_decision. Defined.
#[export] Instance BranchSupportType_value : StringEnum BranchSupportType := λ x,
match x with
| AWARE => "aware" | AGNOSTIC => "agnostic" | LOCAL => "local"
end.
End BranchSupportType.
Export (hints) BranchSupportType.
Abbreviation BranchSupportType := BranchSupportType.BranchSupportType.

Module AllowOverrideType.
Inductive AllowOverrideType := NONE | ANY.
#[export] Instance AllowOverrideType_eq_dec : EqDecision AllowOverrideType.
Proof. solve_decision. Defined.
#[export] Instance AllowOverrideType_value : StringEnum AllowOverrideType := λ x,
match x with
| NONE => "none" | ANY => "any"
end.
End AllowOverrideType.
Export (hints) AllowOverrideType.
Abbreviation AllowOverrideType := AllowOverrideType.AllowOverrideType.

Module DiffAction.
Inductive DiffAction := ADDED | REMOVED | UPDATED | UNCHANGED.
#[export] Instance DiffAction_eq_dec : EqDecision DiffAction.
Proof. solve_decision. Defined.
#[export] Instance DiffAction_value : StringEnum DiffAction := λ x,
match x with
| ADDED => "added" | REMOVED => "removed" | UPDATED => "updated" | UNCHANGED => "unchanged"
end.
End DiffAction.
Export (hints) DiffAction.
Abbreviation DiffAction := DiffAction.DiffAction.

Module PathResourceType.
Inductive PathResourceType := SCHEMA | DATA | FILE.
#[export] Instance PathResourceType_eq_dec : EqDecision PathResourceType.
Proof. solve_decision. Defined.
#[export] Instance PathResourceType_value : StringEnum PathResourceType := λ x,
match x with
| SCHEMA => "schema" | DATA => "data" | FILE => "file"
end.
End PathResourceType.
Export (hints) PathResourceType.
Abbreviation PathResourceType := PathResourceType.PathResourceType.

Module SchemaPathType.
Inductive SchemaPathType := NODE | ATTRIBUTE | RELATIONSHIP.
#[export] Instance SchemaPathType_eq_dec : EqDecision SchemaPathType.
Proof. solve_decision. Defined.
#[export] Instance SchemaPathType_value : StringEnum SchemaPathType := λ x,
match x with
| NODE => "node" | ATTRIBUTE => "attribute" | RELATIONSHIP => "relationship"
end.
End SchemaPathType.
Export (hints) SchemaPathType.
Abbreviation SchemaPathType := SchemaPathType.SchemaPathType.

Module PathType.
Inductive PathType := NODE | ATTRIBUTE | RELATIONSHIP_ONE | RELATIONSHIP_MANY.
#[export] Instance PathType_eq_dec : EqDecision PathType.
Proof. solve_decision. Defined.
#[export] Instance PathType_value : StringEnum PathType := λ x,
match x with
| NODE => "node" | ATTRIBUTE => "attribute" | RELATIONSHIP_ONE => "relationship_one"
| RELATIONSHIP_MANY => "relationship_many"
end.
End PathType.
Export (hints) PathType.
Abbreviation PathType := PathType.PathType.

Module FilterSchemaKind.
Inductive FilterSchemaKind := TEXT | NUMBER | BOOLEAN | OBJECT | MULTIOBJECT | ENUM.
#[export] Instance FilterSchemaKind_eq_dec : EqDecision FilterSchemaKind.
Proof. solve_decision. Defined.
#[export] Instance FilterSchemaKind_value : StringEnum FilterSchemaKind := λ x,
match x with
| TEXT => "Text" | NUMBER => "Number" | BOOLEAN => "Boolean" | OBJECT => "Object"
| MULTIOBJECT => "MultiObject" | ENUM => "Enum"
end.
End FilterSchemaKind.
Export (hints) FilterSchemaKind.
Abbreviation FilterSchemaKind := FilterSchemaKind.FilterSchemaKind.

Module ProposedChangeState.
Inductive ProposedChangeState := OPEN | MERGED | CLOSED | CANCELED.
#[export] Instance ProposedChangeState_eq_dec : EqDecision ProposedChangeState.
Proof. solve_decision. Defined.
#[export] Instance ProposedChangeState_value : StringEnum ProposedChangeState := λ x,
match x with
| OPEN => "open" | MERGED => "merged" | CLOSED => "closed" | CANCELED => "canceled"
end.
End ProposedChangeState.
Export (hints) ProposedChangeState.
Abbreviation ProposedChangeState := ProposedChangeState.ProposedChangeState.

Module HashableModelState.
Inductive HashableModelState := PRESENT | ABSENT.
#[export] Instance HashableModelState_eq_dec : EqDecision HashableModelState.
Proof. solve_decision. Defined.
#[export] Instance HashableModelState_value : StringEnum HashableModelState := λ x,
match x with
| PRESENT => "present" | ABSENT => "absent"
end.
End HashableModelState.
Export (hints) HashableModelState.
Abbreviation HashableModelState := HashableModelState.HashableModelState.

Module RelationshipCardinality.
Inductive RelationshipCardinality := ONE | MANY.
#[export] Instance RelationshipCardinality_eq_dec : EqDecision RelationshipCardinality.
Proof. solve_decision. Defined.
#[export] Instance RelationshipCardinality_value : StringEnum RelationshipCardinality := λ x,
match x with
| ONE => "one" | MANY => "many"
end.
End RelationshipCardinality.
Export (hints) RelationshipCardinality.
Abbreviation RelationshipCardinality := RelationshipCardinality.RelationshipCardinality.

Module RelationshipKind.
Inductive RelationshipKind := GENERIC | ATTRIBUTE | COMPONENT | PARENT | GROUP | HIERARCHY | PROFILE.
#[export] Instance RelationshipKind_eq_dec : EqDecision RelationshipKind.
Proof. solve_decision. Defined.
#[export] Instance RelationshipKind_value : StringEnum RelationshipKind := λ x,
match x with
| GENERIC => "Generic" | ATTRIBUTE => "Attribute" | COMPONENT => "Component"
| PARENT => "Parent" | GROUP => "Group" | HIERARCHY => "Hierarchy" | PROFILE => "Profile"
end.
End RelationshipKind.
Export (hints) RelationshipKind.
Abbreviation RelationshipKind := RelationshipKind.RelationshipKind.

Module RelationshipStatus.
Inductive RelationshipStatus := ACTIVE | DELETED.
#[export] Instance RelationshipStatus_eq_dec : EqDecision RelationshipStatus.
Proof. solve_decision. Defined.
#[export] Instance RelationshipStatus_value : StringEnum RelationshipStatus := λ x,
match x with
| ACTIVE => "active" | DELETED => "deleted"
end.
End RelationshipStatus.
Export (hints) RelationshipStatus.
Abbreviation RelationshipStatus := RelationshipStatus.RelationshipStatus.

Module RelationshipDirection.
Inductive RelationshipDirection := BIDIR | OUTBOUND | INBOUND.
#[export] Instance RelationshipDirection_eq_dec : EqDecision RelationshipDirection.
Proof. solve_decision. Defined.
#[export] Instance RelationshipDirection_value : StringEnum RelationshipDirection := λ x,
match x with
| BIDIR => "bidirectional" | OUTBOUND => "outbound" | INBOUND => "inbound"
end.
End RelationshipDirection.
Export (hints) RelationshipDirection.
Abbreviation RelationshipDirection := RelationshipDirection.RelationshipDirection.

Module RelationshipDeleteBehavior.
Inductive RelationshipDeleteBehavior := NO_ACTION | CASCADE.
#[export] Instance RelationshipDeleteBehavior_eq_dec : EqDecision RelationshipDeleteBehavior.
Proof. solve_decision. Defined.
#[export] Instance RelationshipDeleteBehavior_value : StringEnum RelationshipDeleteBehavior := λ x,
match x with
| NO_ACTION => "no-action" | CASCADE => "cascade"
end.
End RelationshipDeleteBehavior.
Export (hints) RelationshipDeleteBehavior.
Abbreviation RelationshipDeleteBehavior := RelationshipDeleteBehavior.RelationshipDeleteBehavior.

Module ValidatorConclusion.
Inductive ValidatorConclusion := UNKNOWN | FAILURE | SUCCESS.
#[export] Instance ValidatorConclusion_eq_dec : EqDecision ValidatorConclusion.
Proof. solve_decision. Defined.
#[export] Instance ValidatorConclusion_value : StringEnum ValidatorConclusion := λ x,
match x with
| UNKNOWN => "unknown" | FAILURE => "failure" | SUCCESS => "success"
end.
End ValidatorConclusion.
Export (hints) ValidatorConclusion.
Abbreviation ValidatorConclusion := ValidatorConclusion.ValidatorConclusion.

Module UpdateSupport.
Inductive UpdateSupport := NOT_SUPPORTED | ALLOWED | MIGRATION_REQUIRED | VALIDATE_CONSTRAINT | NOT_APPLICABLE.
#[export] Instance UpdateSupport_eq_dec : EqDecision UpdateSupport.
Proof. solve_decision. Defined.
#[export] Instance UpdateSupport_value : StringEnum UpdateSupport := λ x,
match x with
| NOT_SUPPORTED => "not_supported" | ALLOWED => "allowed"
| MIGRATION_REQUIRED => "migration_required" | VALIDATE_CONSTRAINT => "validate_constraint"
| NOT_APPLICABLE => "not_applicable"
end.
End UpdateSupport.
Export (hints) UpdateSupport.
Abbreviation UpdateSupport := UpdateSupport.UpdateSupport.

Module UpdateValidationErrorType.
Inductive UpdateValidationErrorType := NOT_SUPPORTED | VALIDATOR_FAILED | MIGRATION_NOT_AVAILABLE | VALIDATOR_NOT_AVAILABLE.
#[export] Instance UpdateValidationErrorType_eq_dec : EqDecision UpdateValidationErrorType.
Proof. solve_decision. Defined.
#[export] Instance UpdateValidationErrorType_value : StringEnum UpdateValidationErrorType := λ x,
match x with
| NOT_SUPPORTED => "not_supported" | VALIDATOR_FAILED => "validator_failed"
| MIGRATION_NOT_AVAILABLE => "migration_not_available"
| VALIDATOR_NOT_AVAILABLE => "validator_not_available"
end.
End UpdateValidationErrorType.
Export (hints) UpdateValidationErrorType.
Abbreviation UpdateValidationErrorType := UpdateValidationErrorType.UpdateValidationErrorType.
(** ** Operations on the enumerations *)

(** [PathType.from_relationship] *)
Definition path_type_from_relationship (relationship : RelationshipCardinality) : PathType :=
  match relationship with
  | RelationshipCardinality.ONE => PathType.RELATIONSHIP_ONE
  | RelationshipCardinality.MANY => PathType.RELATIONSHIP_MANY
  end.

(** [RelationshipDirection.neighbor_direction] *)
Definition neighbor_direction (d : RelationshipDirection) : RelationshipDirection :=
  match d with
  | RelationshipDirection.BIDIR => RelationshipDirection.BIDIR
  | RelationshipDirection.INBOUND => RelationshipDirection.OUTBOUND
  | RelationshipDirection.OUTBOUND => RelationshipDirection.INBOUND
  end.

(** [SchemaElementPathType] is a set of flags. *)
Module SchemaElementPathType.
#[local] Open Scope Z_scope.
Definition ATTR : Z := 1.
Definition REL_ONE_NO_ATTR : Z := 2.
Definition REL_ONE_ATTR : Z := 4.
Definition REL_MANY_NO_ATTR : Z := 8.
Definition REL_MANY_ATTR : Z := 16.
Definition ALL_RELS : Z :=
Z.lor (Z.lor (Z.lor REL_ONE_NO_ATTR REL_MANY_NO_ATTR) REL_ONE_ATTR) REL_MANY_ATTR.
Definition RELS_ATTR : Z := Z.lor REL_ONE_ATTR REL_MANY_ATTR.
Definition RELS_NO_ATTR : Z := Z.lor REL_ONE_NO_ATTR REL_MANY_NO_ATTR.
Definition REL_ONE : Z := Z.lor REL_ONE_NO_ATTR REL_ONE_ATTR.
Definition REL_MANY : Z := Z.lor REL_MANY_NO_ATTR REL_MANY_ATTR.
(** [flag in allowed] *)
Definition has (allowed flag : Z) : bool := Z.land allowed flag =? flag.
(** [flag & allowed] as a truth value *)
Definition meets (allowed flag : Z) : bool := negb (Z.land allowed flag =? 0).
End SchemaElementPathType.

(** ** Reserved names *)

Definition NULL_VALUE : string := "NULL".
Definition GLOBAL_BRANCH_NAME : string := "-global-".
Definition RESERVED_BRANCH_NAMES : list string := [GLOBAL_BRANCH_NAME].
Definition RESERVED_ATTR_REL_NAMES : list string :=
  ["any"; "attribute"; "attributes"; "attr"; "attrs"; "relationship"; "relationships"; "rel";
   "rels"; "save"; "hfid"].
Definition RESERVED_ATTR_GEN_NAMES : list string := ["type"].
Definition RESTRICTED_NAMESPACES : list string :=
  ["Account"; "Branch"; "Deprecated"; "Diff"; "Infrahub"; "Internal"; "Lineage"; "Schema";
   "Profile"].

(** The kinds of [InfrahubKind] the modelled code refers to. *)
Module InfrahubKind.
Definition DATAVALIDATOR : string := "CoreDataValidator".
Definition GENERICGROUP : string := "CoreGroup".
Definition IPADDRESS : string := "BuiltinIPAddress".
Definition IPNAMESPACE : string := "BuiltinIPNamespace".
Definition IPPREFIX : string := "BuiltinIPPrefix".
Definition NAMESPACE : string := "IpamNamespace".
Definition NODE : string := "CoreNode".
Definition LINEAGEOWNER : string := "LineageOwner".
Definition LINEAGESOURCE : string := "LineageSource".
Definition PROFILE : string := "CoreProfile".
End InfrahubKind.

(** ** Attribute kinds *)

(** [ATTRIBUTE_TYPES]: the kinds with the Infrahub class that stores them. *)
Definition ATTRIBUTE_TYPES : list (string * string) :=
  [("ID", "String"); ("Dropdown", "Dropdown"); ("Text", "String"); ("TextArea", "String");
   ("DateTime", "DateTime"); ("Email", "String"); ("Password", "String");
   ("HashedPassword", "HashedPassword"); ("URL", "URL"); ("File", "String");
   ("MacAddress", "String"); ("Color", "String"); ("Number", "Integer");
   ("Bandwidth", "Integer"); ("IPHost", "IPHost"); ("IPNetwork", "IPNetwork");
   ("Boolean", "Boolean"); ("Checkbox", "Boolean"); ("List", "ListAttribute");
   ("JSON", "JSONAttribute"); ("Any", "AnyAttribute")].
Definition ATTRIBUTE_KIND_LABELS : list string := dict_keys ATTRIBUTE_TYPES.

(** [get_allowed_property_in_path] of an Infrahub class. *)
Definition get_allowed_property_in_path (infrahub_class : string) : list string :=
  if decide (infrahub_class = "IPNetwork") then ["value"; "version"; "binary_address"; "prefixlen"]
  else if decide (infrahub_class = "IPHost") then ["value"; "version"; "binary_address"]
  else ["value"].
