(* ===== verification/HashModel.v ===== *)
(** * Hashable models

    [HashableModel] of [backend/infrahub/core/models.py]: the base class of all
    schema objects, with the digest of an object ([get_hash]), the field-wise
    merge ([update], [update_list_hashable_model]) and the field-wise comparison
    ([diff]).  The Python class finds the fields of an object by reflection; here
    a class of schema objects is an instance of [HashableModel], whose
    [model_fields] lists the fields of an object with their values, and [update]
    picks the merge of a field by its type ([FieldUpdate]). *)

From stdpp Require Import prelude strings gmap sorting pretty.
From Stdlib Require Import Ascii.
From S2P Require Import Prelude PyString PyDict SdkUtils Md5 Constants.

(** ** Text of a value *)

(** [repr] of a string: single quotes unless the text holds one and no double
    quote, with the escapes of control characters. *)
Definition dquote : ascii := "034"%char.
Definition repr_char (quote c : ascii) : string :=
  let n := nat_of_ascii c in
  if decide (c = quote ∨ c = "\"%char) then String "\" (String c "")
  else if decide (n = 10) then "\n" else if decide (n = 13) then "\r"
  else if decide (n = 9) then "\t"
  else if decide (n < 32 ∨ n = 127) then
    "\x" +:+ String (hex_char (Z.of_nat n / 16)) (String (hex_char (Z.of_nat n mod 16)) "")
  else String c "".
Fixpoint repr_chars (quote : ascii) (s : string) : string :=
  match s with
  | EmptyString => EmptyString
  | String c s' => repr_char quote c +:+ repr_chars quote s'
  end.
Definition repr_str (s : string) : string :=
  let quote :=
    if str_contains "'" s && negb (str_contains (String dquote "") s) then dquote else "'"%char in
  String quote (repr_chars quote s +:+ String quote "").

Fixpoint py_repr (j : json) : string :=
  match j with
  | JNull => "None"
  | JBool b => str_bool b
  | JInt z => pretty z
  | JStr s => repr_str s
  | JList l => "[" +:+ py_join ", " (py_repr <$> l) +:+ "]"
  | JDict d => "{" +:+ py_join ", " ((λ kv, repr_str kv.1 +:+ ": " +:+ py_repr kv.2) <$> d) +:+ "}"
  end.
Definition py_str (j : json) : string :=
  match j with JStr s => s | _ => py_repr j end.

(** Python's [<]; [None] where the comparison raises [TypeError]. *)
Fixpoint py_lt (a b : json) {struct a} : option bool :=
  match a, b with
  | JInt x, JInt y => Some (x <? y)%Z
  | JInt x, JBool y => Some (x <? Z.b2z y)%Z
  | JBool x, JInt y => Some (Z.b2z x <? y)%Z
  | JBool x, JBool y => Some (Z.b2z x <? Z.b2z y)%Z
  | JStr s, JStr t => Some (String.ltb s t)
  | JList l, JList m =>
      (fix lt_list l m := match l, m with
         | [], [] => Some false
         | [], _ :: _ => Some true
         | _ :: _, [] => Some false
         | x :: l', y :: m' => if py_eq x y then lt_list l' m' else py_lt x y
         end) l m
  | _, _ => None
  end.

(** [sorted(l)]: a stable sort by [<], which raises when two elements cannot be
    compared. *)
Definition comparable (l : list json) : bool :=
  forallb (λ x, forallb (λ y, opt_is_some (py_lt x y)) l) l.
Definition not_after (a b : json) : Prop := py_lt b a ≠ Some true.
#[export] Instance not_after_dec : RelDecision not_after.
Proof. intros a b. unfold not_after. apply _. Defined.
Definition sort_json (l : list json) : result (list json) :=
  if decide (length l ≤ 1) then Ok l
  else if comparable l then Ok (merge_sort not_after l)
  else Err (TypeError "not supported between instances").

(** ** Signatures and digests *)

(** The value of a field: a plain value, a member of a string enumeration, or a
    list of hashable models, each as its sorting key and its digest. *)
Inductive fval :=
  | FVal (j : json)
  | FEnum (v : string)
  | FModels (items : list (string * result string)).

Definition FStr (s : string) : fval := FVal (JStr s).
Definition FBool (b : bool) : fval := FVal (JBool b).
Definition FInt (z : Z) : fval := FVal (JInt z).
Definition FOpt {A} (f : A → json) (o : option A) : fval :=
  FVal (match o with Some a => f a | None => JNull end).
Definition FStrs (l : list string) : fval := FVal (JList (JStr <$> l)).
Definition FEnumOpt {T} `{StringEnum T} (o : option T) : fval :=
  match o with Some x => FEnum (enum_value x) | None => FVal JNull end.

(** Lists and dictionaries are not hashable: a set of pairs that holds one raises. *)
Definition hashable (j : json) : bool :=
  match j with JList _ | JDict _ => false | _ => true end.

Section hash.
Context `{SetOrder}.

Definition _get_signature_field (value : fval) : result (list string) :=
  match value with
  | FModels items => mapM snd (py_sorted_by fst items)
  | FEnum v => Ok [md5_hexdigest v]
  | FVal (JList l) => map py_str <$> sort_json l
  | FVal (JDict d) =>
      if forallb (λ kv, hashable kv.2) d then
        let items := py_sorted_by fst ((λ kv, (kv.1, py_str kv.2)) <$> d) in
        Ok (concat ((λ kv, [kv.1; kv.2]) <$> set_list items))
      else Err (TypeError "unhashable type")
  | FVal j => Ok [py_str j]
  end.

(** A field is left out of the digest and of the comparison when its name
    starts with an underscore or is excluded by the class. *)
Definition skip_field (exclude_from_hash : list string) (field_name : string) : bool :=
  startswith field_name "_" || bool_decide (field_name ∈ exclude_from_hash).

Definition field_signature (fields : list (string * fval)) (field_name : string) :
    result (list string) :=
  value ← require (AttributeError field_name) (dict_get fields field_name);
  _get_signature_field value.

Definition fields_get_hash (exclude_from_hash : list string) (fields : list (string * fval)) :
    result string :=
  values ← mapM (λ field_name,
      if skip_field exclude_from_hash field_name then Ok []
      else field_signature fields field_name)
    (py_sorted (dict_keys fields));
  Ok (md5_hexdigest (py_join "" (concat values))).
End hash.

(** ** Differences *)

Inductive HashableModelDiff := mkHashableModelDiff {
  added : list (string * option HashableModelDiff);
  changed : list (string * option HashableModelDiff);
  removed : list (string * option HashableModelDiff);
}.
#[export] Instance HashableModelDiff_rebuild : Rebuild HashableModelDiff := λ d,
  mkHashableModelDiff (added d) (changed d) (removed d).

Definition empty_diff : HashableModelDiff := mkHashableModelDiff [] [] [].

Definition has_diff (d : HashableModelDiff) : bool :=
  negb (length (added d) + length (changed d) + length (removed d) =? 0)%nat.

(** [{name: None for name in names}] *)
Definition none_dict (names : list string) : list (string * option HashableModelDiff) :=
  (λ name, (name, None)) <$> names.

Section diff.
Context `{SetOrder}.

(** [HashableModel.diff]: the fields of one side only, and the common fields
    whose signatures differ.  No field of a schema class is itself a hashable
    model, so a changed field has no nested difference. *)
Definition fields_diff (exclude_from_hash : list string) (self other : list (string * fval)) :
    result HashableModelDiff :=
  let '(in_both, local_only, other_only) := compare_lists (dict_keys self) (dict_keys other) in
  foldM (λ diff_result field_name,
    if skip_field exclude_from_hash field_name then Ok diff_result
    else
      local_signatures ← field_signature self field_name;
      other_signatures ← field_signature other field_name;
      if decide (local_signatures = other_signatures) then Ok diff_result
      else Ok (diff_result <| changed := dict_set (changed diff_result) field_name None |>))
    (mkHashableModelDiff (none_dict local_only) [] (none_dict other_only)) in_both.
End diff.

(** ** Classes of hashable models *)

Class HashableModel (A : Type) := {
  model_fields : A → list (string * fval);
  exclude_from_hash : list string;
  hm_id : A → option string;
  hm_state : A → HashableModelState;
  (** [_sorting_id], the one field listed in [_sort_by] *)
  sorting_id : A → string;
}.
Arguments exclude_from_hash A {_}.

(** Python's [==] on the values of a type. *)
Class PyEq (A : Type) := py_eqb : A → A → bool.

(** [update] of an object and of one field. *)
Class Updatable (A : Type) := update : A → A → result A.
Class FieldUpdate (T : Type) := update_field : string → T → T → result T.

Definition get_hash `{SetOrder} {A} `{HashableModel A} (x : A) : result string :=
  fields_get_hash (exclude_from_hash A) (model_fields x).
Definition diff `{SetOrder} {A} `{HashableModel A} (self other : A) : result HashableModelDiff :=
  fields_diff (exclude_from_hash A) (model_fields self) (model_fields other).

(** The field view of a list of hashable models. *)
Definition FModelList `{SetOrder} {A} `{HashableModel A} (l : list A) : fval :=
  FModels ((λ x, (sorting_id x, get_hash x)) <$> l).

(** Equality of plain values is equality of their representations. *)
#[export] Instance string_py_eq : PyEq string := λ x y, bool_decide (x = y).
#[export] Instance bool_py_eq : PyEq bool := λ x y, bool_decide (x = y).
#[export] Instance Z_py_eq : PyEq Z := λ x y, bool_decide (x = y).
#[export] Instance enum_py_eq {T} `{StringEnum T} `{EqDecision T} : PyEq T :=
  λ x y, bool_decide (x = y).
#[export] Instance json_py_eq : PyEq json := py_eq.
#[export] Instance option_py_eq {A} `{PyEq A} : PyEq (option A) := λ x y,
  match x, y with Some a, Some b => py_eqb a b | None, None => true | _, _ => false end.
#[export] Instance list_py_eq {A} `{PyEq A} : PyEq (list A) :=
  fix eq_list l m := match l, m with
    | [], [] => true
    | x :: l', y :: m' => py_eqb x y && eq_list l' m'
    | _, _ => false
    end.

(** ** Merging *)

Section update_list.
Context `{SetOrder} {A} `{HashableModel A} `{Updatable A}.

(** [{item.id for item in l if item.id}] *)
Definition real_ids (l : list A) : list string :=
  py_set (omap (λ item, if truthy_str (hm_id item) then hm_id item else None) l).

(** The key of an item: its id when both sides have an item with that id, its
    sorting id otherwise. *)
Definition item_key (shared_ids : list string) (item : A) : string :=
  match hm_id item with
  | Some i => if truthy_str (Some i) && bool_decide (i ∈ shared_ids) then i else sorting_id item
  | None => sorting_id item
  end.

Definition _organize_sub_items (items : list A) (shared_ids : list string) : list (string * A) :=
  dict_of_list ((λ item, (item_key shared_ids item, item)) <$> items).

Definition update_list_hashable_model (field_name : string) (attr_local attr_other : list A) :
    result (list A) :=
  let shared_real_ids := set_inter (real_ids attr_local) (real_ids attr_other) in
  let local_sub_items := _organize_sub_items attr_local shared_real_ids in
  let other_sub_items := _organize_sub_items attr_other shared_real_ids in
  _ ← raise_if (negb (length local_sub_items =? length attr_local)%nat
                || negb (length other_sub_items =? length attr_other)%nat)
        (ValueError ("Unable to merge the list for " +:+ field_name +:+
           ", not all items are supporting _sorting_id"));
  _ ← raise_if (negb (length (duplicates (Some <$> dict_keys local_sub_items)) =? 0)%nat
                || negb (length (duplicates (Some <$> dict_keys other_sub_items)) =? 0)%nat)
        (ValueError ("Unable to merge the list for " +:+ field_name +:+
           ", some items have the same _sorting_id"));
  let shared_ids := intersection (dict_keys local_sub_items) (dict_keys other_sub_items) in
  let local_only_ids := set_diff (dict_keys local_sub_items) shared_ids in
  let other_only_ids := set_diff (dict_keys other_sub_items) shared_ids in
  let new_list :=
    dict_values (filter (λ kv, kv.1 ∈ local_only_ids) local_sub_items) ++
    dict_values (filter (λ kv, kv.1 ∈ other_only_ids ∧ hm_state kv.2 ≠ HashableModelState.ABSENT)
                   other_sub_items) in
  foldM (λ new_list item_id,
      other_item ← require (KeyError item_id) (dict_get other_sub_items item_id);
      local_item ← require (KeyError item_id) (dict_get local_sub_items item_id);
      if decide (hm_state other_item = HashableModelState.ABSENT) then Ok new_list
      else
        new_item ← update local_item other_item;
        Ok (new_list ++ [new_item]))
    new_list shared_ids.
End update_list.

(** The cases of [update] for one field, by the type of the field.  A value that
    equals the local one, and [None], change nothing. *)

(** [str], [int], [bool] and enumerations: the other value. *)
#[export] Instance update_str : FieldUpdate string := λ _ _ attr_other, Ok attr_other.
#[export] Instance update_bool : FieldUpdate bool := λ _ _ attr_other, Ok attr_other.
#[export] Instance update_int : FieldUpdate Z := λ _ _ attr_other, Ok attr_other.
#[export] Instance update_enum {T} `{StringEnum T} : FieldUpdate T := λ _ _ attr_other, Ok attr_other.

(** A list of plain values: the other list, as [_get_updated_list_value]. *)
#[export] Instance update_strs : FieldUpdate (list string) := λ _ _ attr_other, Ok attr_other.
#[export] Instance update_str_lists : FieldUpdate (list (list string)) := λ _ _ attr_other, Ok attr_other.
#[export] Instance update_jsons : FieldUpdate (list json) := λ _ attr_local attr_other,
  if py_eqb attr_local attr_other then Ok attr_local else Ok attr_other.

(** A value of any JSON type: a scalar replaces, a list replaces a list, and a
    dictionary never replaces another value. *)
#[export] Instance update_json : FieldUpdate json := λ _ attr_local attr_other,
  if py_eqb attr_local attr_other then Ok attr_local
  else match attr_local, attr_other with
       | _, JNull => Ok attr_local
       | JNull, _ => Ok attr_other
       | _, (JInt _ | JStr _ | JBool _) => Ok attr_other
       | JList _, JList _ => Ok attr_other
       | _, _ => Ok attr_local
       end.

(** A list of hashable models. *)
#[export] Instance update_models `{SetOrder} {A} `{PyEq A} `{HashableModel A} `{Updatable A} :
    FieldUpdate (list A) := λ field_name attr_local attr_other,
  if py_eqb attr_local attr_other then Ok attr_local
  else update_list_hashable_model field_name attr_local attr_other.

(** An optional field: [None] on the other side keeps the local value. *)
#[export] Instance update_option {T} `{FieldUpdate T} : FieldUpdate (option T) :=
  λ field_name attr_local attr_other,
  match attr_local, attr_other with
  | _, None => Ok attr_local
  | None, Some _ => Ok attr_other
  | Some l, Some o => Some <$> update_field field_name l o
  end.

(** ** Lemmas on differences *)

Section diff_lemmas.
Context `{SetOrder} (exclude : list string) (self other : list (string * fval)).

Definition diff_step (d : HashableModelDiff) (field_name : string) : result HashableModelDiff :=
  if skip_field exclude field_name then Ok d
  else
    local_signatures ← field_signature self field_name;
    other_signatures ← field_signature other field_name;
    if decide (local_signatures = other_signatures) then Ok d
    else Ok (d <| changed := dict_set (changed d) field_name None |>).

(** The signatures of a field on both sides agree, or differ. *)
Definition same_signature (field_name : string) : Prop :=
  ∃ sig, field_signature self field_name = Ok sig ∧ field_signature other field_name = Ok sig.
Definition differ (field_name : string) : Prop :=
  ∃ s1 s2, field_signature self field_name = Ok s1 ∧ field_signature other field_name = Ok s2 ∧
           s1 ≠ s2.

Lemma diff_step_spec d d' field_name :
  diff_step d field_name = Ok d' →
  added d' = added d ∧ removed d' = removed d ∧
  (skip_field exclude field_name = false → same_signature field_name ∨ differ field_name) ∧
  (∀ k, k ∈ dict_keys (changed d') ↔ k ∈ dict_keys (changed d) ∨
     (k = field_name ∧ skip_field exclude k = false ∧ differ k)).
Proof.
  unfold diff_step, same_signature, differ. destruct (skip_field exclude field_name) eqn:Hskip.
  { intros [= <-]. split_and!; [done..|]. intros k. split; [by left|].
    intros [Hk|(-> & Hs & _)]; [done|congruence]. }
  intros (ls & Hls & (os & Hos & Hd)%bind_ok)%bind_ok. rewrite Hls, Hos.
  destruct (decide (ls = os)) as [->|Hne]; injection Hd as <-; split_and!; try done; try eauto 7.
  - intros k. split; [by left|]. intros [Hk|(-> & _ & s1 & s2 & H1 & H2 & Hn)]; [done|congruence].
  - intros k. cbn. rewrite dict_keys_set.
    destruct (decide (field_name ∈ dict_keys (changed d))) as [Hin|Hin].
    + split; [by left|]. by intros [Hk|(-> & _ & _)].
    + rewrite elem_of_app, list_elem_of_singleton. split; [|naive_solver].
      intros [Hk| ->]; [by left|]. right. eauto 10.
Qed.

Lemma diff_steps_spec names d d' :
  foldM diff_step d names = Ok d' →
  added d' = added d ∧ removed d' = removed d ∧
  (∀ k, k ∈ names → skip_field exclude k = false → same_signature k ∨ differ k) ∧
  (∀ k, k ∈ dict_keys (changed d') ↔ k ∈ dict_keys (changed d) ∨
     (k ∈ names ∧ skip_field exclude k = false ∧ differ k)).
Proof.
  revert d. induction names as [|n names IH]; intros d Hd.
  { injection Hd as <-. split_and!; [done..|set_solver|set_solver]. }
  apply bind_ok in Hd as (d1 & Hd1%diff_step_spec & Hd'%IH).
  destruct Hd1 as (Ha & Hr & Hs1 & H1), Hd' as (-> & -> & Hs2 & H2).
  split_and!; [done..| |].
  - intros k Hk. apply elem_of_cons in Hk as [->|Hk]; auto.
  - intros k. rewrite H2, H1, elem_of_cons. tauto.
Qed.

Lemma fields_diff_spec d :
  fields_diff exclude self other = Ok d →
  (∀ k, k ∈ dict_keys (added d) ↔ k ∈ dict_keys self ∧ k ∉ dict_keys other) ∧
  (∀ k, k ∈ dict_keys (removed d) ↔ k ∈ dict_keys other ∧ k ∉ dict_keys self) ∧
  (∀ k, k ∈ dict_keys self → k ∈ dict_keys other → skip_field exclude k = false →
     same_signature k ∨ differ k) ∧
  (∀ k, k ∈ dict_keys (changed d) ↔
     k ∈ dict_keys self ∧ k ∈ dict_keys other ∧ skip_field exclude k = false ∧ differ k).
Proof.
  unfold fields_diff.
  destruct (compare_lists _ _) as [[in_both local_only] other_only] eqn:Hc.
  intros (Hadd & Hrem & Hs & Hch)%diff_steps_spec. cbn [added removed changed] in *.
  destruct (compare_lists_elem _ _ _ _ _ Hc) as (Hb & Hl & Ho).
  assert (∀ l, dict_keys (none_dict l) = l) as Hnd.
  { intros l. unfold none_dict, dict_keys. rewrite <-list_fmap_compose. apply list_fmap_id. }
  split_and!; intros k.
  - by rewrite Hadd, Hnd, Hl.
  - by rewrite Hrem, Hnd, Ho.
  - intros H1 H2. apply Hs, Hb. done.
  - rewrite Hch, Hb. change (dict_keys []) with (@nil string). rewrite elem_of_nil. tauto.
Qed.
End diff_lemmas.

Lemma dict_keys_nil {K V} (d : list (K * V)) : (∀ k, k ∉ dict_keys d) → d = [].
Proof. destruct d as [|[k v] d]; [done|]. intros Hd. destruct (Hd k). left. Qed.

Lemma has_diff_false (d : HashableModelDiff) :
  has_diff d = false ↔ added d = [] ∧ changed d = [] ∧ removed d = [].
Proof.
  unfold has_diff. rewrite negb_false_iff, Nat.eqb_eq.
  destruct (added d), (changed d), (removed d); cbn; split; naive_solver lia.
Qed.

(** Fields without a difference give the same digest. *)
Lemma no_diff_same_hash `{SetOrder} exclude self other d :
  NoDup (dict_keys self) → NoDup (dict_keys other) →
  fields_diff exclude self other = Ok d → has_diff d = false →
  fields_get_hash exclude self = fields_get_hash exclude other.
Proof.
  intros Hn1 Hn2 (Ha & Hr & Hcase & Hc)%fields_diff_spec (Hadd & Hch & Hrem)%has_diff_false.
  rewrite Hadd in Ha. rewrite Hch in Hc. rewrite Hrem in Hr.
  assert (∀ k, k ∈ dict_keys self ↔ k ∈ dict_keys other) as Hkeys.
  { intros k. specialize (Ha k). specialize (Hr k).
    change (dict_keys []) with (@nil string) in Ha, Hr. rewrite elem_of_nil in Ha, Hr.
    destruct (decide (k ∈ dict_keys self)), (decide (k ∈ dict_keys other)); naive_solver. }
  unfold fields_get_hash.
  assert (py_sorted (dict_keys self) = py_sorted (dict_keys other)) as ->
    by by apply py_sorted_proper, NoDup_Permutation.
  f_equal. apply mapM_result_ext. intros k Hk. rewrite elem_of_py_sorted in Hk.
  destruct (skip_field exclude k) eqn:Hs; [done|].
  destruct (Hcase k) as [(sig & -> & ->)|Hd]; [by apply Hkeys|done..|].
  destruct (proj1 (elem_of_nil k)). apply Hc. split_and!; [by apply Hkeys|done..].
Qed.

(** ** Lemmas on merging lists *)

Section update_list_lemmas.
Context `{SetOrder} {A} `{HashableModel A} `{Updatable A}.
Implicit Types (l o : list A) (x y z : A).

Definition shared_real_ids l o : list string := set_inter (real_ids l) (real_ids o).

Lemma organize_keys shared l :
  length (_organize_sub_items l shared) = length l ↔ NoDup (item_key shared <$> l).
Proof.
  unfold _organize_sub_items. rewrite <-(length_fmap (λ item, (item_key shared item, item)) l).
  rewrite dict_of_list_length, <-list_fmap_compose. done.
Qed.

Lemma organize_NoDup shared l :
  NoDup (item_key shared <$> l) →
  _organize_sub_items l shared = (λ item, (item_key shared item, item)) <$> l.
Proof.
  intros Hnd. apply dict_of_list_NoDup. by rewrite <-list_fmap_compose.
Qed.

(** What happens to the items that are on both sides. *)
Definition merge_shared (local_sub_items other_sub_items : list (string * A)) (new_list : list A)
    (item_id : string) : result (list A) :=
  other_item ← require (KeyError item_id) (dict_get other_sub_items item_id);
  local_item ← require (KeyError item_id) (dict_get local_sub_items item_id);
  if decide (hm_state other_item = HashableModelState.ABSENT) then Ok new_list
  else
    new_item ← update local_item other_item;
    Ok (new_list ++ [new_item]).

Section merged.
Context (key : A → string) (l o : list A).
Context (Hl : NoDup (key <$> l)) (Ho : NoDup (key <$> o)).
Let keyed (m : list A) : list (string * A) := (λ x, (key x, x)) <$> m.

Lemma dict_keys_keyed m : dict_keys (keyed m) = key <$> m.
Proof. unfold dict_keys, keyed. by rewrite <-list_fmap_compose. Qed.

Lemma dict_get_keyed m k x :
  NoDup (key <$> m) → dict_get (keyed m) k = Some x ↔ x ∈ m ∧ key x = k.
Proof.
  intros Hnd. split.
  - intros Hx%dict_get_Some_in. apply list_elem_of_fmap in Hx as (y & [= -> ->] & Hy). done.
  - intros [Hx <-]. apply dict_get_in; [by rewrite dict_keys_keyed|].
    apply list_elem_of_fmap. eauto.
Qed.

Definition is_merge z k : Prop :=
  ∃ x y, x ∈ l ∧ y ∈ o ∧ key x = k ∧ key y = k ∧ hm_state y ≠ HashableModelState.ABSENT ∧
         update x y = Ok z.

Lemma merge_shared_ok acc k acc' :
  merge_shared (keyed l) (keyed o) acc k = Ok acc' →
  ∀ z, z ∈ acc' ↔ z ∈ acc ∨ is_merge z k.
Proof.
  unfold merge_shared. intros (y & Hy & (x & Hx & Hm)%bind_ok)%bind_ok z.
  destruct (dict_get (keyed o) k) as [y'|] eqn:Hy'; [injection Hy as ->|done].
  destruct (dict_get (keyed l) k) as [x'|] eqn:Hx'; [injection Hx as ->|done].
  apply (dict_get_keyed _ _ _ Ho) in Hy' as [Hyo Hyk].
  apply (dict_get_keyed _ _ _ Hl) in Hx' as [Hxl Hxk].
  assert (∀ x1 y1, x1 ∈ l → y1 ∈ o → key x1 = k → key y1 = k → x1 = x ∧ y1 = y) as Huniq.
  { intros x1 y1 Hx1 Hy1 Hk1 Hk2. split; [|].
    - enough (Some x1 = Some x) by congruence.
      transitivity (dict_get (keyed l) k); [symmetry|]; by apply dict_get_keyed.
    - enough (Some y1 = Some y) by congruence.
      transitivity (dict_get (keyed o) k); [symmetry|]; by apply dict_get_keyed. }
  unfold is_merge. destruct (decide (hm_state y = HashableModelState.ABSENT)) as [Hab|Hab].
  - injection Hm as <-. split; [by left|]. intros [Hz|(x1 & y1 & Hx1 & Hy1 & Hk1 & Hk2 & Hs & _)]; [done|].
    destruct (Huniq x1 y1); [done..|]. by subst.
  - apply bind_ok in Hm as (w & Hw & [= <-]). rewrite elem_of_app, list_elem_of_singleton.
    split; [|intros [Hz|(x1 & y1 & Hx1 & Hy1 & Hk1 & Hk2 & Hs & Hu)]; [by left|right]].
    + intros [Hz| ->]; [by left|]. right. eauto 10.
    + destruct (Huniq x1 y1); [done..|]. subst. congruence.
Qed.

Lemma merge_all_ok ids acc acc' :
  foldM (merge_shared (keyed l) (keyed o)) acc ids = Ok acc' →
  ∀ z, z ∈ acc' ↔ z ∈ acc ∨ ∃ k, k ∈ ids ∧ is_merge z k.
Proof.
  revert acc. induction ids as [|k ids IH]; intros acc Hf z.
  { injection Hf as <-. set_solver. }
  apply bind_ok in Hf as (acc1 & Ha & Hf). rewrite (IH _ Hf), (merge_shared_ok _ _ _ Ha).
  setoid_rewrite elem_of_cons. naive_solver.
Qed.

Lemma merge_shared_eq acc x y :
  x ∈ l → y ∈ o → key x = key y →
  merge_shared (keyed l) (keyed o) acc (key x) =
  if decide (hm_state y = HashableModelState.ABSENT) then Ok acc
  else (z ← update x y; Ok (acc ++ [z])).
Proof.
  intros Hx Hy Hxy. unfold merge_shared.
  by rewrite (proj2 (dict_get_keyed o (key x) y Ho)), (proj2 (dict_get_keyed l (key x) x Hl)).
Qed.

Lemma merge_all_total ids acc :
  (∀ k, k ∈ ids → k ∈ key <$> l ∧ k ∈ key <$> o) →
  (∀ x y, x ∈ l → y ∈ o → key x = key y → hm_state y ≠ HashableModelState.ABSENT →
     is_ok (update x y) = true) →
  is_ok (foldM (merge_shared (keyed l) (keyed o)) acc ids) = true.
Proof.
  intros Hids Hup. revert acc. induction ids as [|k ids IH]; intros acc; [done|].
  cbn [foldM]. destruct (Hids k) as [(x & -> & Hx)%list_elem_of_fmap (y & Hxy & Hy)%list_elem_of_fmap];
    [left|].
  rewrite (merge_shared_eq _ x y) by done. destruct (decide (hm_state y = _)) as [Hab|Hab].
  - apply IH. intros k Hk. apply Hids. by right.
  - specialize (Hup x y Hx Hy Hxy Hab). destruct (update x y) as [z|]; [|done].
    apply IH. intros k Hk. apply Hids. by right.
Qed.
End merged.

(** The merge with the keys of both sides distinct: the items of one side only,
    then the merged items. *)
Lemma update_list_unfold field_name l o :
  let key := item_key (shared_real_ids l o) in
  NoDup (key <$> l) → NoDup (key <$> o) →
  let keyed (m : list A) := (λ x, (key x, x)) <$> m in
  let shared_ids := intersection (key <$> l) (key <$> o) in
  update_list_hashable_model field_name l o =
  foldM (merge_shared (keyed l) (keyed o))
    (dict_values (filter (λ kv, kv.1 ∈ set_diff (key <$> l) shared_ids) (keyed l)) ++
     dict_values (filter (λ kv, kv.1 ∈ set_diff (key <$> o) shared_ids ∧
                                hm_state kv.2 ≠ HashableModelState.ABSENT) (keyed o)))
    shared_ids.
Proof.
  intros key Hl Ho keyed shared_ids. unfold update_list_hashable_model. cbv zeta.
  fold (shared_real_ids l o). rewrite !organize_NoDup by done. fold key.
  rewrite !length_fmap, !Nat.eqb_refl. cbn [negb orb raise_if mbind result_bind].
  change (λ item : A, (key item, item)) with (λ x : A, (key x, x)).
  rewrite !(dict_keys_keyed key).
  assert (∀ m, NoDup (key <$> m) → duplicates (Some <$> (key <$> m)) = []) as Hdup.
  { intros m Hm. apply duplicates_nil. by rewrite omap_id_Some. }
  rewrite !Hdup by done. done.
Qed.

Lemma update_list_key_error field_name l o :
  let key := item_key (shared_real_ids l o) in
  ¬ (NoDup (key <$> l) ∧ NoDup (key <$> o)) →
  ∃ msg, update_list_hashable_model field_name l o = Err (ValueError msg).
Proof.
  intros key Hnd. unfold update_list_hashable_model. cbv zeta. fold (shared_real_ids l o).
  assert (negb (length (_organize_sub_items l (shared_real_ids l o)) =? length l)%nat
    || negb (length (_organize_sub_items o (shared_real_ids l o)) =? length o)%nat = true) as ->;
    [|by eexists].
  apply not_false_iff_true. rewrite orb_false_iff, !negb_false_iff, !Nat.eqb_eq, !organize_keys.
  exact Hnd.
Qed.

Lemma elem_of_one_side key (P : A → Prop) (Q : string * A → Prop) `{∀ kv, Decision (Q kv)} l o z :
  (∀ kv, Q kv ↔ kv.1 ∈ set_diff (key <$> l) (intersection (key <$> l) (key <$> o)) ∧ P kv.2) →
  z ∈ dict_values (filter Q ((λ x, (key x, x)) <$> l)) ↔ z ∈ l ∧ key z ∉ key <$> o ∧ P z.
Proof.
  intros HQ. unfold dict_values. rewrite list_elem_of_fmap. split.
  - intros ([k x] & -> & [[Hk HP]%HQ Hx]%list_elem_of_filter).
    apply list_elem_of_fmap in Hx as (y & [= -> ->] & Hy). cbn in *.
    apply elem_of_set_diff in Hk as [Hk Hn]. rewrite elem_of_intersection_list in Hn. naive_solver.
  - intros (Hz & Hk & HP). exists (key z, z). split; [done|]. apply list_elem_of_filter.
    assert (key z ∈ key <$> l) by (apply list_elem_of_fmap; eauto).
    split; [apply HQ; split; [|done]|apply list_elem_of_fmap; eauto].
    apply elem_of_set_diff. rewrite elem_of_intersection_list. naive_solver.
Qed.
End update_list_lemmas.

(** ** Properties *)

(** [update_list_hashable_model] pairs the items of the two lists by id when
    both lists have the id and by name otherwise.  It raises [ValueError] exactly
    when a list repeats a key or the update of a pair raises; otherwise the new
    list holds the items of the local list only, the items of the other list only
    that are not marked absent, and the updates of the pairs whose other item is
    not absent, and nothing else. *)
Theorem update_list_spec `{SetOrder} {A} `{HashableModel A} `{Updatable A}
    (field_name : string) (attr_local attr_other : list A) :
  let key := item_key (shared_real_ids attr_local attr_other) in
  let distinct := NoDup (key <$> attr_local) ∧ NoDup (key <$> attr_other) in
  (∀ new, update_list_hashable_model field_name attr_local attr_other = Ok new →
     distinct ∧ ∀ z, z ∈ new ↔
       (z ∈ attr_local ∧ key z ∉ key <$> attr_other) ∨
       (z ∈ attr_other ∧ key z ∉ key <$> attr_local ∧ hm_state z ≠ HashableModelState.ABSENT) ∨
       (∃ x y, x ∈ attr_local ∧ y ∈ attr_other ∧ key x = key y ∧
               hm_state y ≠ HashableModelState.ABSENT ∧ update x y = Ok z)) ∧
  (¬ distinct →
     ∃ msg, update_list_hashable_model field_name attr_local attr_other = Err (ValueError msg)) ∧
  (distinct →
   (∀ x y, x ∈ attr_local → y ∈ attr_other → key x = key y →
      hm_state y ≠ HashableModelState.ABSENT → is_ok (update x y) = true) →
     is_ok (update_list_hashable_model field_name attr_local attr_other) = true).
Proof.
  intros key distinct. split_and!.
  - intros new Hnew. destruct (decide (NoDup (key <$> attr_local) ∧ NoDup (key <$> attr_other)))
      as [[Hl Ho]|Hnd]; [|by destruct (update_list_key_error field_name _ _ Hnd); congruence].
    split; [done|]. intros z. unfold key in Hl, Ho. rewrite update_list_unfold in Hnew by done.
    rewrite (merge_all_ok _ _ _ Hl Ho _ _ _ Hnew), elem_of_app.
    fold key. setoid_rewrite elem_of_intersection_list.
    rewrite (elem_of_one_side key (λ _, True) _ attr_local attr_other) by (intros; tauto).
    rewrite (elem_of_one_side key (λ x, hm_state x ≠ HashableModelState.ABSENT) _ attr_other attr_local).
    2:{ intros kv. rewrite !elem_of_set_diff, !elem_of_intersection_list. tauto. }
    unfold is_merge. split.
    + intros [[?|?]|(k & _ & x & y & Hx & Hy & Hkx & Hky & Hs & Hu)]; [tauto..|].
      do 2 right. exists x, y. split_and!; congruence.
    + intros [?|[?|(x & y & Hx & Hy & Hk & Hs & Hu)]]; [left; tauto..|]. right. exists (key x).
      split; [|exists x, y; by split_and!]. rewrite Hk at 2. split; apply list_elem_of_fmap; eauto.
  - apply update_list_key_error.
  - intros [Hl Ho] Hup. unfold key in Hl, Ho. rewrite update_list_unfold by done.
    apply merge_all_total; [done..| |done]. intros k. apply elem_of_intersection_list.
Qed.

(** The digest of an object is a function of the fields the comparison looks
    at: when [diff] reports no difference, two objects of a class have the same
    [get_hash], and [diff] of an object with itself reports none. *)
Theorem diff_hash_agree `{SetOrder} {A} `{HashableModel A} (self other : A) (d : HashableModelDiff)
    (Hself : NoDup (dict_keys (model_fields self))) (Hother : NoDup (dict_keys (model_fields other)))
    (Hdiff : diff self other = Ok d) :
  (has_diff d = false → get_hash self = get_hash other) ∧
  (∀ d', diff self self = Ok d' → has_diff d' = false).
Proof.
  split; [by apply no_diff_same_hash|].
  intros d' (Ha & Hr & _ & Hc)%fields_diff_spec. apply has_diff_false.
  split_and!; apply dict_keys_nil; intros k Hk.
  - apply Ha in Hk. tauto.
  - apply Hc in Hk as (_ & _ & _ & s1 & s2 & H1 & H2 & Hne). congruence.
  - apply Hr in Hk. tauto.
Qed.
