(* ===== verification/SchemaDefs.v ===== *)
(** * Schema objects

    The classes of [backend/infrahub/core/schema/]: the generated field lists
    ([generated/attribute_schema.py], [generated/relationship_schema.py],
    [generated/base_node_schema.py], [generated/node_schema.py],
    [generated/genericnode_schema.py]), [dropdown.py], [filter.py] and
    [profile_schema.py].  Each class is a record with the Python fields in their
    order, its view as a hashable model, its equality and its [update].  A node,
    a generic and a profile share the fields of [GeneratedBaseNodeSchema]; the
    fields of the subclass are in [n_class]. *)

From stdpp Require Import prelude strings gmap.
From S2P Require Import Prelude PyString PyDict SdkUtils Md5 Constants HashModel.

(** ** Dropdown choices and filters *)

Record DropdownChoice := mkDropdownChoice {
  c_id : option string;
  c_state : HashableModelState;
  c_name : string;
  c_description : option string;
  c_color : option string;
  c_label : option string;
}.
Record FilterSchema := mkFilterSchema {
  f_id : option string;
  f_state : HashableModelState;
  f_name : string;
  f_kind : FilterSchemaKind;
  f_enum : option (list json);
  f_object_kind : option string;
  f_description : option string;
}.
#[export] Instance DropdownChoice_rebuild : Rebuild DropdownChoice := λ x,
  mkDropdownChoice (c_id x) (c_state x) (c_name x) (c_description x) (c_color x) (c_label x).
#[export] Instance FilterSchema_rebuild : Rebuild FilterSchema := λ x,
  mkFilterSchema (f_id x) (f_state x) (f_name x) (f_kind x) (f_enum x) (f_object_kind x)
    (f_description x).

Section choice_filter.
Context `{SetOrder}.

Definition choice_fields (x : DropdownChoice) : list (string * fval) :=
[("id", FOpt JStr (c_id x)); ("state", FEnum (enum_value (c_state x)));
 ("name", FStr (c_name x)); ("description", FOpt JStr (c_description x));
 ("color", FOpt JStr (c_color x)); ("label", FOpt JStr (c_label x))].
#[export] Instance choice_model : HashableModel DropdownChoice := {|
model_fields := choice_fields; exclude_from_hash := []; hm_id := c_id;
hm_state := c_state; sorting_id := c_name |}.
#[export] Instance choice_eq : PyEq DropdownChoice := λ x y,
py_eqb (c_id x) (c_id y) && py_eqb (c_state x) (c_state y) && py_eqb (c_name x) (c_name y) &&
py_eqb (c_description x) (c_description y) && py_eqb (c_color x) (c_color y) &&
py_eqb (c_label x) (c_label y).
#[export] Instance choice_update : Updatable DropdownChoice := λ self other,
id ← update_field "id" (c_id self) (c_id other);
state ← update_field "state" (c_state self) (c_state other);
name ← update_field "name" (c_name self) (c_name other);
description ← update_field "description" (c_description self) (c_description other);
color ← update_field "color" (c_color self) (c_color other);
label ← update_field "label" (c_label self) (c_label other);
Ok (mkDropdownChoice id state name description color label).
Definition filter_fields (x : FilterSchema) : list (string * fval) :=
[("id", FOpt JStr (f_id x)); ("state", FEnum (enum_value (f_state x)));
 ("name", FStr (f_name x)); ("kind", FEnum (enum_value (f_kind x)));
 ("enum", FOpt JList (f_enum x)); ("object_kind", FOpt JStr (f_object_kind x));
 ("description", FOpt JStr (f_description x))].
#[export] Instance filter_model : HashableModel FilterSchema := {|
model_fields := filter_fields; exclude_from_hash := []; hm_id := f_id;
hm_state := f_state; sorting_id := f_name |}.
#[export] Instance filter_eq : PyEq FilterSchema := λ x y,
py_eqb (f_id x) (f_id y) && py_eqb (f_state x) (f_state y) && py_eqb (f_name x) (f_name y) &&
py_eqb (f_kind x) (f_kind y) && py_eqb (f_enum x) (f_enum y) &&
py_eqb (f_object_kind x) (f_object_kind y) && py_eqb (f_description x) (f_description y).
#[export] Instance filter_update : Updatable FilterSchema := λ self other,
id ← update_field "id" (f_id self) (f_id other);
state ← update_field "state" (f_state self) (f_state other);
name ← update_field "name" (f_name self) (f_name other);
kind ← update_field "kind" (f_kind self) (f_kind other);
enum ← update_field "enum" (f_enum self) (f_enum other);
object_kind ← update_field "object_kind" (f_object_kind self) (f_object_kind other);
description ← update_field "description" (f_description self) (f_description other);
Ok (mkFilterSchema id state name kind enum object_kind description).
End choice_filter.

(** ** Attributes and relationships *)

Record AttributeSchema := mkAttributeSchema {
  a_id : option string;
  a_name : string;
  a_kind : string;
  a_enum : option (list json);
  a_choices : option (list DropdownChoice);
  a_regex : option string;
  a_max_length : option Z;
  a_min_length : option Z;
  a_label : option string;
  a_description : option string;
  a_read_only : bool;
  a_unique : bool;
  a_optional : bool;
  a_branch : option BranchSupportType;
  a_order_weight : option Z;
  a_default_value : option json;
  a_inherited : bool;
  a_state : HashableModelState;
  a_allow_override : AllowOverrideType;
}.
Record RelationshipSchema := mkRelationshipSchema {
  r_id : option string;
  r_name : string;
  r_peer : string;
  r_kind : RelationshipKind;
  r_label : option string;
  r_description : option string;
  r_identifier : option string;
  r_cardinality : RelationshipCardinality;
  r_min_count : Z;
  r_max_count : Z;
  r_order_weight : option Z;
  r_optional : bool;
  r_branch : option BranchSupportType;
  r_inherited : bool;
  r_direction : RelationshipDirection;
  r_hierarchical : option string;
  r_state : HashableModelState;
  r_filters : list FilterSchema;
  r_on_delete : option RelationshipDeleteBehavior;
  r_allow_override : AllowOverrideType;
  r_read_only : bool;
}.
#[export] Instance AttributeSchema_rebuild : Rebuild AttributeSchema := λ x,
  mkAttributeSchema (a_id x) (a_name x) (a_kind x) (a_enum x) (a_choices x) (a_regex x)
    (a_max_length x) (a_min_length x) (a_label x) (a_description x) (a_read_only x)
    (a_unique x) (a_optional x) (a_branch x) (a_order_weight x) (a_default_value x)
    (a_inherited x) (a_state x) (a_allow_override x).
#[export] Instance RelationshipSchema_rebuild : Rebuild RelationshipSchema := λ x,
  mkRelationshipSchema (r_id x) (r_name x) (r_peer x) (r_kind x) (r_label x) (r_description x)
    (r_identifier x) (r_cardinality x) (r_min_count x) (r_max_count x) (r_order_weight x)
    (r_optional x) (r_branch x) (r_inherited x) (r_direction x) (r_hierarchical x) (r_state x)
    (r_filters x) (r_on_delete x) (r_allow_override x) (r_read_only x).

Section attribute_relationship.
Context `{SetOrder}.

Definition attribute_fields (x : AttributeSchema) : list (string * fval) :=
[("id", FOpt JStr (a_id x)); ("name", FStr (a_name x)); ("kind", FStr (a_kind x));
 ("enum", FOpt JList (a_enum x));
 ("choices", match a_choices x with Some l => FModelList l | None => FVal JNull end);
 ("regex", FOpt JStr (a_regex x)); ("max_length", FOpt JInt (a_max_length x));
 ("min_length", FOpt JInt (a_min_length x)); ("label", FOpt JStr (a_label x));
 ("description", FOpt JStr (a_description x)); ("read_only", FBool (a_read_only x));
 ("unique", FBool (a_unique x)); ("optional", FBool (a_optional x));
 ("branch", FEnumOpt (a_branch x)); ("order_weight", FOpt JInt (a_order_weight x));
 ("default_value", FOpt id (a_default_value x)); ("inherited", FBool (a_inherited x));
 ("state", FEnum (enum_value (a_state x)));
 ("allow_override", FEnum (enum_value (a_allow_override x)))].
#[export] Instance attribute_model : HashableModel AttributeSchema := {|
model_fields := attribute_fields; exclude_from_hash := []; hm_id := a_id;
hm_state := a_state; sorting_id := a_name |}.
#[export] Instance attribute_eq : PyEq AttributeSchema := λ x y,
py_eqb (a_id x) (a_id y) && py_eqb (a_name x) (a_name y) && py_eqb (a_kind x) (a_kind y) &&
py_eqb (a_enum x) (a_enum y) && py_eqb (a_choices x) (a_choices y) &&
py_eqb (a_regex x) (a_regex y) && py_eqb (a_max_length x) (a_max_length y) &&
py_eqb (a_min_length x) (a_min_length y) && py_eqb (a_label x) (a_label y) &&
py_eqb (a_description x) (a_description y) && py_eqb (a_read_only x) (a_read_only y) &&
py_eqb (a_unique x) (a_unique y) && py_eqb (a_optional x) (a_optional y) &&
py_eqb (a_branch x) (a_branch y) && py_eqb (a_order_weight x) (a_order_weight y) &&
py_eqb (a_default_value x) (a_default_value y) && py_eqb (a_inherited x) (a_inherited y) &&
py_eqb (a_state x) (a_state y) && py_eqb (a_allow_override x) (a_allow_override y).
#[export] Instance attribute_update : Updatable AttributeSchema := λ self other,
id ← update_field "id" (a_id self) (a_id other);
name ← update_field "name" (a_name self) (a_name other);
kind ← update_field "kind" (a_kind self) (a_kind other);
enum ← update_field "enum" (a_enum self) (a_enum other);
choices ← update_field "choices" (a_choices self) (a_choices other);
regex ← update_field "regex" (a_regex self) (a_regex other);
max_length ← update_field "max_length" (a_max_length self) (a_max_length other);
min_length ← update_field "min_length" (a_min_length self) (a_min_length other);
label ← update_field "label" (a_label self) (a_label other);
description ← update_field "description" (a_description self) (a_description other);
read_only ← update_field "read_only" (a_read_only self) (a_read_only other);
unique ← update_field "unique" (a_unique self) (a_unique other);
optional ← update_field "optional" (a_optional self) (a_optional other);
branch ← update_field "branch" (a_branch self) (a_branch other);
order_weight ← update_field "order_weight" (a_order_weight self) (a_order_weight other);
default_value ← update_field "default_value" (a_default_value self) (a_default_value other);
inherited ← update_field "inherited" (a_inherited self) (a_inherited other);
state ← update_field "state" (a_state self) (a_state other);
allow_override ← update_field "allow_override" (a_allow_override self) (a_allow_override other);
Ok (mkAttributeSchema id name kind enum choices regex max_length min_length label description
    read_only unique optional branch order_weight default_value inherited state
    allow_override).
Definition relationship_fields (x : RelationshipSchema) : list (string * fval) :=
[("id", FOpt JStr (r_id x)); ("name", FStr (r_name x)); ("peer", FStr (r_peer x));
 ("kind", FEnum (enum_value (r_kind x))); ("label", FOpt JStr (r_label x));
 ("description", FOpt JStr (r_description x)); ("identifier", FOpt JStr (r_identifier x));
 ("cardinality", FEnum (enum_value (r_cardinality x))); ("min_count", FInt (r_min_count x));
 ("max_count", FInt (r_max_count x)); ("order_weight", FOpt JInt (r_order_weight x));
 ("optional", FBool (r_optional x)); ("branch", FEnumOpt (r_branch x));
 ("inherited", FBool (r_inherited x)); ("direction", FEnum (enum_value (r_direction x)));
 ("hierarchical", FOpt JStr (r_hierarchical x)); ("state", FEnum (enum_value (r_state x)));
 ("filters", FModelList (r_filters x)); ("on_delete", FEnumOpt (r_on_delete x));
 ("allow_override", FEnum (enum_value (r_allow_override x)));
 ("read_only", FBool (r_read_only x))].
#[export] Instance relationship_model : HashableModel RelationshipSchema := {|
model_fields := relationship_fields; exclude_from_hash := ["filters"]; hm_id := r_id;
hm_state := r_state; sorting_id := r_name |}.
#[export] Instance relationship_eq : PyEq RelationshipSchema := λ x y,
py_eqb (r_id x) (r_id y) && py_eqb (r_name x) (r_name y) && py_eqb (r_peer x) (r_peer y) &&
py_eqb (r_kind x) (r_kind y) && py_eqb (r_label x) (r_label y) &&
py_eqb (r_description x) (r_description y) && py_eqb (r_identifier x) (r_identifier y) &&
py_eqb (r_cardinality x) (r_cardinality y) && py_eqb (r_min_count x) (r_min_count y) &&
py_eqb (r_max_count x) (r_max_count y) && py_eqb (r_order_weight x) (r_order_weight y) &&
py_eqb (r_optional x) (r_optional y) && py_eqb (r_branch x) (r_branch y) &&
py_eqb (r_inherited x) (r_inherited y) && py_eqb (r_direction x) (r_direction y) &&
py_eqb (r_hierarchical x) (r_hierarchical y) && py_eqb (r_state x) (r_state y) &&
py_eqb (r_filters x) (r_filters y) && py_eqb (r_on_delete x) (r_on_delete y) &&
py_eqb (r_allow_override x) (r_allow_override y) && py_eqb (r_read_only x) (r_read_only y).
#[export] Instance relationship_update : Updatable RelationshipSchema := λ self other,
id ← update_field "id" (r_id self) (r_id other);
name ← update_field "name" (r_name self) (r_name other);
peer ← update_field "peer" (r_peer self) (r_peer other);
kind ← update_field "kind" (r_kind self) (r_kind other);
label ← update_field "label" (r_label self) (r_label other);
description ← update_field "description" (r_description self) (r_description other);
identifier ← update_field "identifier" (r_identifier self) (r_identifier other);
cardinality ← update_field "cardinality" (r_cardinality self) (r_cardinality other);
min_count ← update_field "min_count" (r_min_count self) (r_min_count other);
max_count ← update_field "max_count" (r_max_count self) (r_max_count other);
order_weight ← update_field "order_weight" (r_order_weight self) (r_order_weight other);
optional ← update_field "optional" (r_optional self) (r_optional other);
branch ← update_field "branch" (r_branch self) (r_branch other);
inherited ← update_field "inherited" (r_inherited self) (r_inherited other);
direction ← update_field "direction" (r_direction self) (r_direction other);
hierarchical ← update_field "hierarchical" (r_hierarchical self) (r_hierarchical other);
state ← update_field "state" (r_state self) (r_state other);
filters ← update_field "filters" (r_filters self) (r_filters other);
on_delete ← update_field "on_delete" (r_on_delete self) (r_on_delete other);
allow_override ← update_field "allow_override" (r_allow_override self) (r_allow_override other);
read_only ← update_field "read_only" (r_read_only self) (r_read_only other);
Ok (mkRelationshipSchema id name peer kind label description identifier cardinality min_count
    max_count order_weight optional branch inherited direction hierarchical state filters
    on_delete allow_override read_only).
End attribute_relationship.

(** ** Nodes, generics and profiles *)

Record NodePart := mkNodePart {
  np_inherit_from : list string;
  np_generate_profile : bool;
  np_hierarchy : option string;
  np_parent : option string;
  np_children : option string;
}.
Record GenericPart := mkGenericPart {
  gp_hierarchical : bool;
  gp_used_by : list string;
}.
Record ProfilePart := mkProfilePart {
  pp_inherit_from : list string;
}.
#[export] Instance NodePart_rebuild : Rebuild NodePart := λ x,
  mkNodePart (np_inherit_from x) (np_generate_profile x) (np_hierarchy x) (np_parent x)
    (np_children x).
#[export] Instance GenericPart_rebuild : Rebuild GenericPart := λ x,
  mkGenericPart (gp_hierarchical x) (gp_used_by x).
#[export] Instance ProfilePart_rebuild : Rebuild ProfilePart := λ x,
  mkProfilePart (pp_inherit_from x).

(** The class of a schema with the fields of the class. *)
Inductive schema_class :=
  | NodeSchema (p : NodePart)
  | GenericSchema (p : GenericPart)
  | ProfileSchema (p : ProfilePart).

Record MainSchema := mkMainSchema {
  n_id : option string;
  n_name : string;
  n_namespace : string;
  n_description : option string;
  n_label : option string;
  n_branch : BranchSupportType;
  n_default_filter : option string;
  n_human_friendly_id : option (list string);
  n_display_labels : option (list string);
  n_include_in_menu : option bool;
  n_menu_placement : option string;
  n_icon : option string;
  n_order_by : option (list string);
  n_uniqueness_constraints : option (list (list string));
  n_documentation : option string;
  n_state : HashableModelState;
  n_filters : list FilterSchema;
  n_attributes : list AttributeSchema;
  n_relationships : list RelationshipSchema;
  n_class : schema_class;
}.
#[export] Instance MainSchema_rebuild : Rebuild MainSchema := λ x,
  mkMainSchema (n_id x) (n_name x) (n_namespace x) (n_description x) (n_label x) (n_branch x)
    (n_default_filter x) (n_human_friendly_id x) (n_display_labels x) (n_include_in_menu x)
    (n_menu_placement x) (n_icon x) (n_order_by x) (n_uniqueness_constraints x)
    (n_documentation x) (n_state x) (n_filters x) (n_attributes x) (n_relationships x)
    (n_class x).

Section main_schema.
Context `{SetOrder}.

Definition node_fields (x : NodePart) : list (string * fval) :=
[("inherit_from", FStrs (np_inherit_from x));
 ("generate_profile", FBool (np_generate_profile x));
 ("hierarchy", FOpt JStr (np_hierarchy x)); ("parent", FOpt JStr (np_parent x));
 ("children", FOpt JStr (np_children x))].
Definition generic_fields (x : GenericPart) : list (string * fval) :=
[("hierarchical", FBool (gp_hierarchical x)); ("used_by", FStrs (gp_used_by x))].
Definition profile_fields (x : ProfilePart) : list (string * fval) :=
[("inherit_from", FStrs (pp_inherit_from x))].
Definition class_fields (c : schema_class) : list (string * fval) :=
match c with
| NodeSchema p => node_fields p | GenericSchema p => generic_fields p
| ProfileSchema p => profile_fields p
end.
Definition base_node_fields (x : MainSchema) : list (string * fval) :=
[("id", FOpt JStr (n_id x)); ("name", FStr (n_name x)); ("namespace", FStr (n_namespace x));
 ("description", FOpt JStr (n_description x)); ("label", FOpt JStr (n_label x));
 ("branch", FEnum (enum_value (n_branch x)));
 ("default_filter", FOpt JStr (n_default_filter x));
 ("human_friendly_id", FOpt (λ l, JList (JStr <$> l)) (n_human_friendly_id x));
 ("display_labels", FOpt (λ l, JList (JStr <$> l)) (n_display_labels x));
 ("include_in_menu", FOpt JBool (n_include_in_menu x));
 ("menu_placement", FOpt JStr (n_menu_placement x)); ("icon", FOpt JStr (n_icon x));
 ("order_by", FOpt (λ l, JList (JStr <$> l)) (n_order_by x));
 ("uniqueness_constraints", FOpt (λ l, JList ((λ m, JList (JStr <$> m)) <$> l)) (n_uniqueness_constraints x));
 ("documentation", FOpt JStr (n_documentation x)); ("state", FEnum (enum_value (n_state x)));
 ("filters", FModelList (n_filters x)); ("attributes", FModelList (n_attributes x));
 ("relationships", FModelList (n_relationships x))].
Definition schema_fields (x : MainSchema) : list (string * fval) :=
base_node_fields x ++ class_fields (n_class x).
(** Fields that [BaseNodeSchema.get_hash] and [BaseNodeSchema.diff] treat apart. *)
Definition base_node_exclude_from_hash : list string := ["attributes"; "relationships"; "filters"].

#[export] Instance node_part_eq : PyEq NodePart := λ x y,
py_eqb (np_inherit_from x) (np_inherit_from y) &&
py_eqb (np_generate_profile x) (np_generate_profile y) &&
py_eqb (np_hierarchy x) (np_hierarchy y) && py_eqb (np_parent x) (np_parent y) &&
py_eqb (np_children x) (np_children y).
#[export] Instance generic_part_eq : PyEq GenericPart := λ x y,
py_eqb (gp_hierarchical x) (gp_hierarchical y) && py_eqb (gp_used_by x) (gp_used_by y).
#[export] Instance profile_part_eq : PyEq ProfilePart := λ x y,
py_eqb (pp_inherit_from x) (pp_inherit_from y).
#[export] Instance node_part_update : Updatable NodePart := λ self other,
inherit_from ← update_field "inherit_from" (np_inherit_from self) (np_inherit_from other);
generate_profile ← update_field "generate_profile" (np_generate_profile self) (np_generate_profile other);
hierarchy ← update_field "hierarchy" (np_hierarchy self) (np_hierarchy other);
parent ← update_field "parent" (np_parent self) (np_parent other);
children ← update_field "children" (np_children self) (np_children other);
Ok (mkNodePart inherit_from generate_profile hierarchy parent children).
#[export] Instance generic_part_update : Updatable GenericPart := λ self other,
hierarchical ← update_field "hierarchical" (gp_hierarchical self) (gp_hierarchical other);
used_by ← update_field "used_by" (gp_used_by self) (gp_used_by other);
Ok (mkGenericPart hierarchical used_by).
#[export] Instance profile_part_update : Updatable ProfilePart := λ self other,
inherit_from ← update_field "inherit_from" (pp_inherit_from self) (pp_inherit_from other);
Ok (mkProfilePart inherit_from).
(** A field the object does not have cannot be set, so that only a schema whose
  class has all the fields of the other's can be updated from it. *)
#[export] Instance class_update : Updatable schema_class := λ self other,
match self, other with
| NodeSchema p, NodeSchema q => NodeSchema <$> update p q
| GenericSchema p, GenericSchema q => GenericSchema <$> update p q
| ProfileSchema p, ProfileSchema q => ProfileSchema <$> update p q
| NodeSchema p, ProfileSchema q =>
    NodeSchema <$> (inherit_from ← update_field "inherit_from" (np_inherit_from p) (pp_inherit_from q);
                    Ok (p <| np_inherit_from := inherit_from |>))
| _, _ => Err (ValueError "object has no field")
end.
#[export] Instance schema_update : Updatable MainSchema := λ self other,
id ← update_field "id" (n_id self) (n_id other);
name ← update_field "name" (n_name self) (n_name other);
namespace ← update_field "namespace" (n_namespace self) (n_namespace other);
description ← update_field "description" (n_description self) (n_description other);
label ← update_field "label" (n_label self) (n_label other);
branch ← update_field "branch" (n_branch self) (n_branch other);
default_filter ← update_field "default_filter" (n_default_filter self) (n_default_filter other);
human_friendly_id ← update_field "human_friendly_id" (n_human_friendly_id self) (n_human_friendly_id other);
display_labels ← update_field "display_labels" (n_display_labels self) (n_display_labels other);
include_in_menu ← update_field "include_in_menu" (n_include_in_menu self) (n_include_in_menu other);
menu_placement ← update_field "menu_placement" (n_menu_placement self) (n_menu_placement other);
icon ← update_field "icon" (n_icon self) (n_icon other);
order_by ← update_field "order_by" (n_order_by self) (n_order_by other);
uniqueness_constraints ← update_field "uniqueness_constraints" (n_uniqueness_constraints self) (n_uniqueness_constraints other);
documentation ← update_field "documentation" (n_documentation self) (n_documentation other);
state ← update_field "state" (n_state self) (n_state other);
filters ← update_field "filters" (n_filters self) (n_filters other);
attributes ← update_field "attributes" (n_attributes self) (n_attributes other);
relationships ← update_field "relationships" (n_relationships self) (n_relationships other);
class_ ← update (n_class self) (n_class other);
Ok (mkMainSchema id name namespace description label branch default_filter human_friendly_id
    display_labels include_in_menu menu_placement icon order_by uniqueness_constraints
    documentation state filters attributes relationships class_).
End main_schema.

(** ** Constructors

    An object built from its required fields has the defaults of the generated
    class for the others. *)
Definition new_choice (name : string) : DropdownChoice :=
  {| c_id := None; c_state := HashableModelState.PRESENT; c_name := name;
     c_description := None; c_color := None; c_label := None |}.
Definition new_filter (name : string) (kind : FilterSchemaKind) : FilterSchema :=
  {| f_id := None; f_state := HashableModelState.PRESENT; f_name := name; f_kind := kind;
     f_enum := None; f_object_kind := None; f_description := None |}.
Definition new_attribute (name kind : string) : AttributeSchema :=
  {| a_id := None; a_name := name; a_kind := kind; a_enum := None; a_choices := None;
     a_regex := None; a_max_length := None; a_min_length := None; a_label := None;
     a_description := None; a_read_only := false; a_unique := false; a_optional := false;
     a_branch := None; a_order_weight := None; a_default_value := None; a_inherited := false;
     a_state := HashableModelState.PRESENT; a_allow_override := AllowOverrideType.ANY |}.
Definition new_relationship (name peer : string) : RelationshipSchema :=
  {| r_id := None; r_name := name; r_peer := peer; r_kind := RelationshipKind.GENERIC;
     r_label := None; r_description := None; r_identifier := None;
     r_cardinality := RelationshipCardinality.MANY; r_min_count := 0%Z; r_max_count := 0%Z;
     r_order_weight := None; r_optional := true; r_branch := None; r_inherited := false;
     r_direction := RelationshipDirection.BIDIR; r_hierarchical := None;
     r_state := HashableModelState.PRESENT; r_filters := []; r_on_delete := None;
     r_allow_override := AllowOverrideType.ANY; r_read_only := false |}.
Definition new_schema (name namespace : string) (cls : schema_class) : MainSchema :=
  {| n_id := None; n_name := name; n_namespace := namespace; n_description := None;
     n_label := None; n_branch := BranchSupportType.AWARE; n_default_filter := None;
     n_human_friendly_id := None; n_display_labels := None; n_include_in_menu := None;
     n_menu_placement := None; n_icon := None; n_order_by := None;
     n_uniqueness_constraints := None; n_documentation := None;
     n_state := HashableModelState.PRESENT; n_filters := []; n_attributes := [];
     n_relationships := []; n_class := cls |}.
Definition new_node_part : NodePart :=
  {| np_inherit_from := []; np_generate_profile := true; np_hierarchy := None;
     np_parent := None; np_children := None |}.
Definition new_generic_part : GenericPart :=
  {| gp_hierarchical := false; gp_used_by := [] |}.
Definition new_node (name namespace : string) : MainSchema :=
  new_schema name namespace (NodeSchema new_node_part).
Definition new_generic (name namespace : string) : MainSchema :=
  new_schema name namespace (GenericSchema new_generic_part).

(** ** What a change of a field requires *)

(** The [update] entry of each field in [json_schema_extra]. *)
Definition attribute_update_support : list (string * UpdateSupport) :=
  [("id", UpdateSupport.NOT_APPLICABLE); ("name", UpdateSupport.MIGRATION_REQUIRED);
   ("kind", UpdateSupport.VALIDATE_CONSTRAINT); ("enum", UpdateSupport.VALIDATE_CONSTRAINT);
   ("choices", UpdateSupport.VALIDATE_CONSTRAINT);
   ("regex", UpdateSupport.VALIDATE_CONSTRAINT);
   ("max_length", UpdateSupport.VALIDATE_CONSTRAINT);
   ("min_length", UpdateSupport.VALIDATE_CONSTRAINT); ("label", UpdateSupport.ALLOWED);
   ("description", UpdateSupport.ALLOWED); ("read_only", UpdateSupport.ALLOWED);
   ("unique", UpdateSupport.VALIDATE_CONSTRAINT);
   ("optional", UpdateSupport.VALIDATE_CONSTRAINT); ("branch", UpdateSupport.NOT_SUPPORTED);
   ("order_weight", UpdateSupport.ALLOWED); ("default_value", UpdateSupport.ALLOWED);
   ("inherited", UpdateSupport.NOT_APPLICABLE); ("state", UpdateSupport.NOT_APPLICABLE);
   ("allow_override", UpdateSupport.ALLOWED)].
Definition relationship_update_support : list (string * UpdateSupport) :=
  [("id", UpdateSupport.NOT_APPLICABLE); ("name", UpdateSupport.ALLOWED);
   ("peer", UpdateSupport.VALIDATE_CONSTRAINT); ("kind", UpdateSupport.ALLOWED);
   ("label", UpdateSupport.ALLOWED); ("description", UpdateSupport.ALLOWED);
   ("identifier", UpdateSupport.ALLOWED); ("cardinality", UpdateSupport.VALIDATE_CONSTRAINT);
   ("min_count", UpdateSupport.VALIDATE_CONSTRAINT);
   ("max_count", UpdateSupport.VALIDATE_CONSTRAINT); ("order_weight", UpdateSupport.ALLOWED);
   ("optional", UpdateSupport.VALIDATE_CONSTRAINT); ("branch", UpdateSupport.NOT_SUPPORTED);
   ("inherited", UpdateSupport.NOT_APPLICABLE); ("direction", UpdateSupport.NOT_SUPPORTED);
   ("hierarchical", UpdateSupport.NOT_SUPPORTED); ("state", UpdateSupport.NOT_APPLICABLE);
   ("filters", UpdateSupport.NOT_APPLICABLE); ("on_delete", UpdateSupport.ALLOWED);
   ("allow_override", UpdateSupport.ALLOWED); ("read_only", UpdateSupport.ALLOWED)].
Definition base_node_update_support : list (string * UpdateSupport) :=
  [("id", UpdateSupport.NOT_APPLICABLE); ("name", UpdateSupport.MIGRATION_REQUIRED);
   ("namespace", UpdateSupport.MIGRATION_REQUIRED); ("description", UpdateSupport.ALLOWED);
   ("label", UpdateSupport.ALLOWED); ("branch", UpdateSupport.NOT_SUPPORTED);
   ("default_filter", UpdateSupport.ALLOWED); ("human_friendly_id", UpdateSupport.ALLOWED);
   ("display_labels", UpdateSupport.ALLOWED); ("include_in_menu", UpdateSupport.ALLOWED);
   ("menu_placement", UpdateSupport.ALLOWED); ("icon", UpdateSupport.ALLOWED);
   ("order_by", UpdateSupport.ALLOWED);
   ("uniqueness_constraints", UpdateSupport.VALIDATE_CONSTRAINT);
   ("documentation", UpdateSupport.ALLOWED); ("state", UpdateSupport.NOT_APPLICABLE);
   ("filters", UpdateSupport.NOT_APPLICABLE); ("attributes", UpdateSupport.NOT_APPLICABLE);
   ("relationships", UpdateSupport.NOT_APPLICABLE)].
Definition node_update_support : list (string * UpdateSupport) :=
  [("inherit_from", UpdateSupport.NOT_SUPPORTED);
   ("generate_profile", UpdateSupport.VALIDATE_CONSTRAINT);
   ("hierarchy", UpdateSupport.VALIDATE_CONSTRAINT);
   ("parent", UpdateSupport.VALIDATE_CONSTRAINT);
   ("children", UpdateSupport.VALIDATE_CONSTRAINT)].
Definition generic_update_support : list (string * UpdateSupport) :=
  [("hierarchical", UpdateSupport.VALIDATE_CONSTRAINT);
   ("used_by", UpdateSupport.NOT_APPLICABLE)].


(** ** Equality of two schemas *)

#[export] Instance class_eq : PyEq schema_class := λ x y,
  match x, y with
  | NodeSchema p, NodeSchema q => py_eqb p q
  | GenericSchema p, GenericSchema q => py_eqb p q
  | ProfileSchema p, ProfileSchema q => py_eqb p q
  | _, _ => false
  end.
#[export] Instance schema_eq : PyEq MainSchema := λ x y,
  py_eqb (n_id x) (n_id y) && py_eqb (n_name x) (n_name y) &&
  py_eqb (n_namespace x) (n_namespace y) && py_eqb (n_description x) (n_description y) &&
  py_eqb (n_label x) (n_label y) && py_eqb (n_branch x) (n_branch y) &&
  py_eqb (n_default_filter x) (n_default_filter y) &&
  py_eqb (n_human_friendly_id x) (n_human_friendly_id y) &&
  py_eqb (n_display_labels x) (n_display_labels y) &&
  py_eqb (n_include_in_menu x) (n_include_in_menu y) &&
  py_eqb (n_menu_placement x) (n_menu_placement y) && py_eqb (n_icon x) (n_icon y) &&
  py_eqb (n_order_by x) (n_order_by y) &&
  py_eqb (n_uniqueness_constraints x) (n_uniqueness_constraints y) &&
  py_eqb (n_documentation x) (n_documentation y) && py_eqb (n_state x) (n_state y) &&
  py_eqb (n_filters x) (n_filters y) && py_eqb (n_attributes x) (n_attributes y) &&
  py_eqb (n_relationships x) (n_relationships y) && py_eqb (n_class x) (n_class y).

(** ** A comparison of two attributes *)

Lemma diff_hash_agree_witness :
  let so := insertion_order in
  let x := new_attribute "name" "Text" in
  let y := x <| a_max_length := Some 12%Z |> in
  diff x y = Ok (mkHashableModelDiff [] [("max_length", None)] []) ∧
  get_hash x = get_hash x ∧
  (∀ d, diff x x = Ok d → has_diff d = false).
Proof.
  intros so x y.
  assert (NoDup (dict_keys (model_fields x)) ∧ NoDup (dict_keys (model_fields y))) as [Hx Hy]
    by (split; apply (bool_decide_unpack _); vm_compute; exact I).
  assert (diff x x = Ok empty_diff) as Hxx by (vm_compute; reflexivity).
  split; [vm_compute; reflexivity|].
  destruct (diff_hash_agree x x empty_diff Hx Hx Hxx) as [Hh Hd].
  split; [by apply Hh|exact Hd].
Defined.
