(* ===== verification/NodeSchemaOps.v ===== *)
(** * Operations on one schema

    [schema/basenode_schema.py], [schema/node_schema.py],
    [schema/generic_schema.py], [schema/profile_schema.py] and the methods of
    [schema/attribute_schema.py] and [schema/relationship_schema.py] that do not
    build database queries: names and lookups, the digest and the difference of
    two schemas, schema paths, and inheritance from a generic. *)

From stdpp Require Import prelude strings gmap.
From S2P Require Import Prelude PyString PyDict SdkUtils Md5 Constants HashModel SchemaDefs.

Definition NODE_METADATA_ATTRIBUTES : list string := ["_source"; "_owner"].

(** ** Accessors *)

Definition is_node_schema (s : MainSchema) : bool :=
  match n_class s with NodeSchema _ => true | _ => false end.
Definition is_generic_schema (s : MainSchema) : bool :=
  match n_class s with GenericSchema _ => true | _ => false end.
Definition is_profile_schema (s : MainSchema) : bool :=
  match n_class s with ProfileSchema _ => true | _ => false end.

Definition kind (s : MainSchema) : string :=
  if decide (n_namespace s = "Attribute") then n_name s else n_namespace s +:+ n_name s.

Definition menu_title (s : MainSchema) : string :=
  match n_label s with Some (String c l) => String c l | _ => n_name s end.

Definition get_id (s : MainSchema) : result string :=
  match n_id s with
  | Some (String c i) => Ok (String c i)
  | _ => Err (ValueError ("id is not defined on " +:+ kind s))
  end.

Definition attribute_names (s : MainSchema) : list string := a_name <$> n_attributes s.
Definition relationship_names (s : MainSchema) : list string := r_name <$> n_relationships s.
Definition filter_names (s : MainSchema) : list string := f_name <$> n_filters s.
Definition valid_input_names (s : MainSchema) : list string :=
  attribute_names s ++ relationship_names s ++ NODE_METADATA_ATTRIBUTES.

Definition mandatory_attribute_names (s : MainSchema) : list string :=
  a_name <$> filter (λ a, negb (a_optional a) && negb (opt_is_some (a_default_value a)))
               (n_attributes s).
Definition mandatory_relationship_names (s : MainSchema) : list string :=
  r_name <$> filter (λ r, negb (r_optional r)) (n_relationships s).
Definition mandatory_input_names (s : MainSchema) : list string :=
  mandatory_attribute_names s ++ mandatory_relationship_names s.
Definition local_attributes (s : MainSchema) : list AttributeSchema :=
  filter (λ a, negb (a_inherited a)) (n_attributes s).
Definition local_relationships (s : MainSchema) : list RelationshipSchema :=
  filter (λ r, negb (r_inherited r)) (n_relationships s).
Definition unique_attributes (s : MainSchema) : list AttributeSchema :=
  filter (λ a, a_unique a) (n_attributes s).

(** [for item in l: if test(item): return item] *)
Fixpoint find_first {A} (test : A → bool) (l : list A) : option A :=
  match l with
  | [] => None
  | x :: l' => if test x then Some x else find_first test l'
  end.

Definition get_attribute_or_none (s : MainSchema) (name : string) : option AttributeSchema :=
  find_first (λ a, bool_decide (a_name a = name)) (n_attributes s).
Definition get_attribute (s : MainSchema) (name : string) : result AttributeSchema :=
  require (ValueError ("Unable to find the attribute " +:+ name)) (get_attribute_or_none s name).
Definition get_attribute_by_id (s : MainSchema) (id : string) : result AttributeSchema :=
  require (ValueError ("Unable to find the attribute with the ID: " +:+ id))
    (find_first (λ a, bool_decide (a_id a = Some id)) (n_attributes s)).
Definition get_relationship_or_none (s : MainSchema) (name : string) : option RelationshipSchema :=
  find_first (λ r, bool_decide (r_name r = name)) (n_relationships s).
Definition get_relationship (s : MainSchema) (name : string) : result RelationshipSchema :=
  require (ValueError ("Unable to find the relationship " +:+ name)) (get_relationship_or_none s name).
Definition get_relationship_by_id (s : MainSchema) (id : string) : result RelationshipSchema :=
  require (ValueError ("Unable to find the relationship with the ID: " +:+ id))
    (find_first (λ r, bool_decide (r_id r = Some id)) (n_relationships s)).
Definition get_filter (s : MainSchema) (name : string) : result FilterSchema :=
  require (ValueError ("Unable to find the filter " +:+ name))
    (find_first (λ f, bool_decide (f_name f = name)) (n_filters s)).
Definition get_relationship_by_identifier (s : MainSchema) (id : string) : option RelationshipSchema :=
  find_first (λ r, bool_decide (r_identifier r = Some id)) (n_relationships s).
Definition get_relationships_by_identifier (s : MainSchema) (id : string) : list RelationshipSchema :=
  filter (λ r, r_identifier r = Some id) (n_relationships s).
Definition get_relationships_of_kind (s : MainSchema) (relationship_kinds : list RelationshipKind) :
    list RelationshipSchema :=
  filter (λ r, r_kind r ∈ relationship_kinds) (n_relationships s).

(** A field is an attribute or a relationship. *)
Definition get_field (s : MainSchema) (name : string) :
    result (AttributeSchema + RelationshipSchema) :=
  match get_attribute_or_none s name with
  | Some a => Ok (inl a)
  | None =>
      match get_relationship_or_none s name with
      | Some r => Ok (inr r)
      | None => Err (ValueError ("Unable to find the field " +:+ name))
      end
  end.

(** The names with the ids, the last id of a repeated name. *)
Definition get_attributes_name_id_map (s : MainSchema) : list (string * option string) :=
  dict_of_list ((λ a, (a_name a, a_id a)) <$> n_attributes s).
Definition get_relationship_name_id_map (s : MainSchema) : list (string * option string) :=
  dict_of_list ((λ r, (r_name r, r_id r)) <$> n_relationships s).

(** ** Attributes and relationships on their own *)

Definition attribute_get_branch (a : AttributeSchema) : result BranchSupportType :=
  require (ValueError "branch hasn't been defined yet") (a_branch a).
(** [get_class]: the Infrahub class that stores the attribute. *)
Definition attribute_get_class (a : AttributeSchema) : result string :=
  require (KeyError (a_kind a)) (dict_get ATTRIBUTE_TYPES (a_kind a)).
(** The validators of the class: a known kind, and choices exactly for a dropdown. *)
Definition kind_options (v : string) : result string :=
  if decide (v ∈ ATTRIBUTE_KIND_LABELS) then Ok v
  else Err (ValueError "Only valid Attribute Kind are").
Definition validate_dropdown_choices (akind : string) (choices : option (list DropdownChoice)) :
    result unit :=
  _ ← raise_if (negb (bool_decide (akind = "Dropdown")) && truthy_list choices)
        (ValueError ("Can only specify 'choices' for kind=Dropdown: " +:+ akind));
  raise_if (bool_decide (akind = "Dropdown") && negb (truthy_list choices))
    (ValueError "The property 'choices' is required for kind=Dropdown").

Definition internal_peer (r : RelationshipSchema) : bool := startswith (r_peer r) "Internal".
Definition get_identifier (r : RelationshipSchema) : result string :=
  match r_identifier r with
  | Some (String c i) => Ok (String c i)
  | _ => Err (ValueError "RelationshipSchema is not initialized")
  end.

(** The left and right arrows of a relationship in a query. *)
Definition QueryArrow : Type := string * string.
Definition QueryArrowInband : QueryArrow := ("<-", "-").
Definition QueryArrowOutband : QueryArrow := ("-", "->").
Definition get_query_arrows (r : RelationshipSchema) : QueryArrow * QueryArrow :=
  match r_direction r with
  | RelationshipDirection.OUTBOUND => (QueryArrowOutband, QueryArrowOutband)
  | RelationshipDirection.INBOUND => (QueryArrowInband, QueryArrowInband)
  | RelationshipDirection.BIDIR => (QueryArrowOutband, QueryArrowInband)
  end.

(** ** Labels *)

Definition inherit_from (s : MainSchema) : list string :=
  match n_class s with
  | NodeSchema p => np_inherit_from p
  | ProfileSchema p => pp_inherit_from p
  | GenericSchema _ => []
  end.

Definition get_labels (s : MainSchema) : list string :=
  let extra (label : string) (from : list string) :=
    if bool_decide (n_namespace s ∈ ["Schema"; "Internal"])
       || bool_decide (InfrahubKind.GENERICGROUP ∈ from) then [] else [label] in
  match n_class s with
  | NodeSchema p => kind s :: np_inherit_from p ++ extra InfrahubKind.NODE (np_inherit_from p)
  | ProfileSchema p => kind s :: pp_inherit_from p ++ extra InfrahubKind.PROFILE (pp_inherit_from p)
  | GenericSchema _ => [kind s]
  end.

Definition is_ip_prefix (p : NodePart) : bool :=
  bool_decide (InfrahubKind.IPPREFIX ∈ np_inherit_from p).
Definition is_ip_address (p : NodePart) : bool :=
  bool_decide (InfrahubKind.IPADDRESS ∈ np_inherit_from p).

(** ** Digest and difference *)

Section digest.
Context `{SetOrder}.

Definition schema_get_hash (s : MainSchema) : result string :=
  own ← fields_get_hash base_node_exclude_from_hash (schema_fields s);
  attrs ← mapM (λ name, get_attribute s name ≫= get_hash) (py_sorted (attribute_names s));
  rels ← mapM (λ name, get_relationship s name ≫= get_hash) (py_sorted (relationship_names s));
  filters ← mapM (λ name, get_filter s name ≫= get_hash) (py_sorted (filter_names s));
  Ok (md5_hexdigest (py_join "" (own :: attrs ++ rels ++ filters))).

(** [dict(map(reversed, m.items()))], for the entries that have an id. *)
Definition reversed_map (m : list (string * option string)) : list (option string * string) :=
  dict_of_list ((λ kv, (kv.2, kv.1)) <$> m).

(** [_diff_element], for the attributes and for the relationships:  elements
    are paired by id when both sides have the id, by name otherwise.
    [pytest_running] is the value of the environment variable. *)
Definition _diff_element {A} `{HashableModel A} (pytest_running : bool)
    (get_func : MainSchema → string → result A)
    (get_map_func : MainSchema → list (string * option string))
    (self other : MainSchema) : result HashableModelDiff :=
  let local_map := get_map_func self in
  let other_map := get_map_func other in
  let shared_ids := intersection (omap id (dict_values local_map)) (omap id (dict_values other_map)) in
  let local_names := (filter (λ kv, negb (bool_decide (kv.2 ∈ Some <$> shared_ids))) local_map).*1 in
  let other_names := (filter (λ kv, negb (bool_decide (kv.2 ∈ Some <$> shared_ids))) other_map).*1 in
  let '(present_both, present_local, present_other) := compare_lists local_names other_names in
  let compare (local_name other_name : string) (d : HashableModelDiff) : result HashableModelDiff :=
    local_element ← get_func self local_name;
    other_element ← get_func other other_name;
    element_diff ← diff local_element other_element;
    if has_diff element_diff
    then Ok (d <| changed := dict_set (changed d) local_name (Some element_diff) |>) else Ok d in
  by_name ← foldM (λ d name,
      if negb pytest_running
         && bool_decide (dict_get local_map name = Some None)
         && bool_decide (dict_get other_map name = Some None)
      then Ok (d <| added := dict_set (added d) name None |>)
      else compare name name d)
    (mkHashableModelDiff (none_dict present_local) [] (none_dict present_other))
    (py_sorted present_both);
  foldM (λ d element_id,
      local_name ← require (KeyError element_id)
                     (dict_get (reversed_map local_map) (Some element_id));
      other_name ← require (KeyError element_id)
                     (dict_get (reversed_map other_map) (Some element_id));
      compare local_name other_name d)
    by_name shared_ids.

Definition schema_diff (pytest_running : bool) (self other : MainSchema) :
    result HashableModelDiff :=
  node_diff ← fields_diff base_node_exclude_from_hash (schema_fields self) (schema_fields other);
  attrs_diff ← _diff_element pytest_running get_attribute get_attributes_name_id_map self other;
  rels_diff ← _diff_element pytest_running get_relationship get_relationship_name_id_map self other;
  let node_diff :=
    if has_diff attrs_diff
    then node_diff <| changed := dict_set (changed node_diff) "attributes" (Some attrs_diff) |>
    else node_diff in
  let node_diff :=
    if has_diff rels_diff
    then node_diff <| changed := dict_set (changed node_diff) "relationships" (Some rels_diff) |>
    else node_diff in
  Ok node_diff.
End digest.

(** ** GraphQL fields of a path *)

(** [convert_path_to_graphql_fields]: each recursive call is on a strictly
    shorter path, so the length of the path is enough fuel. *)
Fixpoint convert_path_fuel (fuel : nat) (path : string) : json :=
  match fuel, split_once "__" path with
  | S fuel', Some (first, rest) => JDict [(first, convert_path_fuel fuel' rest)]
  | _, _ => JDict [(path, JNull)]
  end.
Definition convert_path_to_graphql_fields (path : string) : json :=
  convert_path_fuel (String.length path) path.
Definition dict_items (j : json) : list (string * json) :=
  match j with JDict d => d | _ => [] end.

(** [fields.update(...)] for each path; [None] when there is no path. *)
Definition generate_fields (paths : option (list string)) : option (list (string * json)) :=
  if truthy_list paths then
    Some (foldl (λ fields item, dict_update fields (dict_items (convert_path_to_graphql_fields item)))
            [] (default [] paths))
  else None.
Definition node_generate_fields_for_display_label (s : MainSchema) : option (list (string * json)) :=
  generate_fields (n_display_labels s).
Definition generate_fields_for_hfid (s : MainSchema) : option (list (string * json)) :=
  generate_fields (n_human_friendly_id s).

(** ** Schema paths *)

Record SchemaAttributePath := mkSchemaAttributePath {
  relationship_schema : option RelationshipSchema;
  related_schema : option MainSchema;
  attribute_schema : option AttributeSchema;
  attribute_property_name : option string;
}.

Definition is_type_attribute (p : SchemaAttributePath) : bool :=
  opt_is_some (attribute_schema p) && negb (opt_is_some (related_schema p))
  && negb (opt_is_some (relationship_schema p)).
Definition is_type_relationship (p : SchemaAttributePath) : bool :=
  opt_is_some (relationship_schema p) && opt_is_some (related_schema p).
Definition has_property (p : SchemaAttributePath) : bool := truthy_str (attribute_property_name p).

Definition path_error {A} (msg : string) : result A := Err (AttributePathParsingError msg).

(** The attribute and property part of a path, on the schema it is about. *)
Definition parse_attribute_piece (schema_to_check : MainSchema) (attribute_piece property_piece : option string) :
    result (option AttributeSchema * option string) :=
  match attribute_piece with
  | Some attr =>
      if truthy_str attribute_piece then
        if decide (attr ∈ attribute_names schema_to_check) then
          attribute ← get_attribute schema_to_check attr;
          match property_piece with
          | Some prop =>
              if truthy_str property_piece then
                attr_class ← attribute_get_class attribute;
                if decide (prop ∈ get_allowed_property_in_path attr_class)
                then Ok (Some attribute, Some prop)
                else path_error (prop +:+ " is not a valid property of " +:+ a_name attribute)
              else Ok (Some attribute, None)
          | None => Ok (Some attribute, None)
          end
        else path_error (attr +:+ " is not a valid attribute of " +:+ kind schema_to_check)
      else Ok (None, None)
  | None => Ok (None, None)
  end.

(** [parse_schema_path(path, schema)]: [schema] is the lookup of the branch the
    schema belongs to, when one is given. *)
Definition parse_schema_path (s : MainSchema) (path : string)
    (schema : option (string → result MainSchema)) : result SchemaAttributePath :=
  let path_parts := py_split "__" path in
  first ← require IndexError (path_parts !! 0);
  if decide (first ∈ relationship_names s) then
    match schema with
    | None =>
        if truthy_str (Some first) then
          path_error "schema must be provided in order to check a path with a relationship"
        else
          '(attribute, prop) ← parse_attribute_piece s (path_parts !! 1) (path_parts !! 2);
          Ok (mkSchemaAttributePath None None attribute prop)
    | Some lookup =>
        if truthy_str (Some first) then
          relationship ← get_relationship s first;
          related ← lookup (r_peer relationship);
          '(attribute, prop) ← parse_attribute_piece related (path_parts !! 1) (path_parts !! 2);
          Ok (mkSchemaAttributePath (Some relationship) (Some related) attribute prop)
        else
          '(attribute, prop) ← parse_attribute_piece s (path_parts !! 1) (path_parts !! 2);
          Ok (mkSchemaAttributePath None None attribute prop)
    end
  else if decide (first ∈ attribute_names s) then
    '(attribute, prop) ← parse_attribute_piece s (Some first) (path_parts !! 1);
    Ok (mkSchemaAttributePath None None attribute prop)
  else path_error (path +:+ " is invalid on schema " +:+ kind s).

Definition get_unique_constraint_schema_attribute_paths (s : MainSchema)
    (schema_branch : string → result MainSchema) (include_unique_attributes : bool) :
    result (list (list SchemaAttributePath)) :=
  let unique :=
    if include_unique_attributes then
      (λ a, [mkSchemaAttributePath None None (Some a) (Some "value")]) <$> unique_attributes s
    else [] in
  if truthy_list (n_uniqueness_constraints s) then
    groups ← mapM (mapM (λ path, parse_schema_path s path (Some schema_branch)))
               (default [] (n_uniqueness_constraints s));
    Ok (unique ++ groups)
  else Ok unique.

(** ** Inheritance *)

Definition validate_attribute_inheritance (s interface : MainSchema) (attribute : AttributeSchema) :
    result unit :=
  if decide (a_name attribute ∈ attribute_names interface) then
    inherited ← get_attribute interface (a_name attribute);
    _ ← raise_if (negb (a_inherited attribute)
                  && bool_decide (a_allow_override inherited = AllowOverrideType.NONE))
          (ValueError (kind s +:+ "'s attribute " +:+ a_name attribute +:+ " inherited from "
             +:+ kind interface +:+ " cannot be overriden"));
    raise_if (negb (bool_decide (a_kind attribute = a_kind inherited)))
      (ValueError (kind s +:+ "." +:+ a_name attribute +:+ " inherited from "
         +:+ n_namespace interface +:+ n_name interface +:+ " must be the same kind"))
  else Ok tt.

Definition validate_relationship_inheritance (s interface : MainSchema)
    (relationship : RelationshipSchema) : result unit :=
  if decide (r_name relationship ∈ relationship_names interface ∧ r_inherited relationship = false) then
    inherited ← get_relationship interface (r_name relationship);
    raise_if (bool_decide (r_allow_override inherited = AllowOverrideType.NONE))
      (ValueError (kind s +:+ "'s relationship " +:+ r_name relationship +:+ " inherited from "
         +:+ kind interface +:+ " cannot be overriden"))
  else Ok tt.

Definition validate_inheritance (s interface : MainSchema) : result unit :=
  _ ← for_all (validate_attribute_inheritance s interface) (n_attributes s);
  for_all (validate_relationship_inheritance s interface) (n_relationships s).

(** [{item.name: idx for idx, item in enumerate(l) if item.inherited}] *)
Definition inherited_index {A} (name : A → string) (inherited : A → bool) (l : list A) :
    list (string * nat) :=
  dict_of_list (omap (λ p, if inherited p.2 then Some (name p.2, p.1) else None)
                  (zip (seq 0 (length l)) l)).

(** [if getattr(interface, p) and not getattr(self, p): setattr(self, p, ...)] *)
Definition inherit_list {A} (self interface : option (list A)) : option (list A) :=
  if truthy_list interface && negb (truthy_list self) then interface else self.
Definition inherit_str (self interface : option string) : option string :=
  if truthy_str interface && negb (truthy_str self) then interface else self.

Definition inherit_properties (s interface : MainSchema) : MainSchema :=
  {| n_id := n_id s; n_name := n_name s; n_namespace := n_namespace s;
     n_description := n_description s; n_label := n_label s; n_branch := n_branch s;
     n_default_filter := inherit_str (n_default_filter s) (n_default_filter interface);
     n_human_friendly_id := inherit_list (n_human_friendly_id s) (n_human_friendly_id interface);
     n_display_labels := inherit_list (n_display_labels s) (n_display_labels interface);
     n_include_in_menu := n_include_in_menu s;
     n_menu_placement := inherit_str (n_menu_placement s) (n_menu_placement interface);
     n_icon := inherit_str (n_icon s) (n_icon interface);
     n_order_by := inherit_list (n_order_by s) (n_order_by interface);
     n_uniqueness_constraints := inherit_list (n_uniqueness_constraints s) (n_uniqueness_constraints interface);
     n_documentation := n_documentation s; n_state := n_state s; n_filters := n_filters s;
     n_attributes := n_attributes s; n_relationships := n_relationships s;
     n_class := n_class s |}.

(** The loops over the attributes and the relationships of the interface; the
    index of the fields inherited before is taken once, at the start. *)
Definition inherit_attribute (attr_index rel_index : list (string * nat)) (s : MainSchema)
    (attribute : AttributeSchema) : result MainSchema :=
  if decide (a_name attribute ∈ valid_input_names s) then Ok s
  else
    let new_attribute := attribute <| a_inherited := true |> in
    if decide (a_name attribute ∈ dict_keys attr_index ++ dict_keys rel_index) then
      item_idx ← require (KeyError (a_name attribute)) (dict_get attr_index (a_name attribute));
      if decide (item_idx < length (n_attributes s))
      then Ok (s <| n_attributes := <[item_idx := new_attribute]> (n_attributes s) |>)
      else Err IndexError
    else Ok (s <| n_attributes := n_attributes s ++ [new_attribute] |>).

Definition inherit_relationship (attr_index rel_index : list (string * nat)) (s : MainSchema)
    (relationship : RelationshipSchema) : result MainSchema :=
  if decide (r_name relationship ∈ valid_input_names s) then Ok s
  else
    let new_relationship := relationship <| r_inherited := true |> in
    if decide (r_name relationship ∈ dict_keys attr_index ++ dict_keys rel_index) then
      item_idx ← require (KeyError (r_name relationship)) (dict_get rel_index (r_name relationship));
      if decide (item_idx < length (n_relationships s))
      then Ok (s <| n_relationships := <[item_idx := new_relationship]> (n_relationships s) |>)
      else Err IndexError
    else Ok (s <| n_relationships := n_relationships s ++ [new_relationship] |>).

Definition inherit_from_interface (s interface : MainSchema) : result MainSchema :=
  let existing_inherited_attributes := inherited_index a_name a_inherited (n_attributes s) in
  let existing_inherited_relationships := inherited_index r_name r_inherited (n_relationships s) in
  s ← foldM (inherit_attribute existing_inherited_attributes existing_inherited_relationships)
        (inherit_properties s interface) (n_attributes interface);
  foldM (inherit_relationship existing_inherited_attributes existing_inherited_relationships)
    s (n_relationships interface).

(** ** Lemmas *)

Lemma find_first_Some {A} (test : A → bool) l x :
  find_first test l = Some x → x ∈ l ∧ test x = true.
Proof.
  induction l as [|y l IH]; cbn; [done|]. destruct (test y) eqn:Hy; [|set_solver].
  intros [= ->]. split; [left|done].
Qed.

Lemma find_first_None {A} (test : A → bool) l :
  find_first test l = None ↔ ∀ x, x ∈ l → test x = false.
Proof.
  induction l as [|y l IH]; cbn; [set_solver|]. setoid_rewrite elem_of_cons.
  destruct (test y) eqn:Hy.
  - split; [done|]. intros Hx. specialize (Hx y (or_introl eq_refl)). congruence.
  - rewrite IH. naive_solver.
Qed.

(** With distinct names the lookup by name finds the element itself. *)
Lemma find_first_name {A} (name : A → string) l x :
  NoDup (name <$> l) → x ∈ l →
  find_first (λ y, bool_decide (name y = name x)) l = Some x.
Proof.
  induction l as [|y l IH]; [set_solver|]. rewrite fmap_cons, NoDup_cons, elem_of_cons.
  intros [Hy Hl] [->|Hx]; cbn.
  - by rewrite bool_decide_eq_true_2.
  - rewrite bool_decide_eq_false_2; [by apply IH|].
    intros Heq. apply Hy. rewrite Heq. apply list_elem_of_fmap. eauto.
Qed.

Lemma get_attribute_ok s name a : get_attribute s name = Ok a → a ∈ n_attributes s ∧ a_name a = name.
Proof.
  unfold get_attribute, get_attribute_or_none. destruct (find_first _ _) as [b|] eqn:Hf; [|done].
  intros [= <-]. apply find_first_Some in Hf as [? ?%bool_decide_eq_true]. done.
Qed.

Lemma get_relationship_ok s name r :
  get_relationship s name = Ok r → r ∈ n_relationships s ∧ r_name r = name.
Proof.
  unfold get_relationship, get_relationship_or_none. destruct (find_first _ _) as [b|] eqn:Hf; [|done].
  intros [= <-]. apply find_first_Some in Hf as [? ?%bool_decide_eq_true]. done.
Qed.

Lemma get_attribute_known s name :
  name ∈ attribute_names s → ∃ a, get_attribute s name = Ok a ∧ a_name a = name.
Proof.
  intros (a & -> & Ha)%list_elem_of_fmap. unfold get_attribute, get_attribute_or_none.
  destruct (find_first _ _) as [b|] eqn:Hf.
  - exists b. split; [done|]. by apply find_first_Some in Hf as [_ ?%bool_decide_eq_true].
  - rewrite find_first_None in Hf. apply Hf in Ha. by rewrite bool_decide_true in Ha.
Qed.

Lemma get_relationship_known s name :
  name ∈ relationship_names s → ∃ r, get_relationship s name = Ok r ∧ r_name r = name.
Proof.
  intros (r & -> & Hr)%list_elem_of_fmap. unfold get_relationship, get_relationship_or_none.
  destruct (find_first _ _) as [b|] eqn:Hf.
  - exists b. split; [done|]. by apply find_first_Some in Hf as [_ ?%bool_decide_eq_true].
  - rewrite find_first_None in Hf. apply Hf in Hr. by rewrite bool_decide_true in Hr.
Qed.

Lemma get_attribute_in s a :
  NoDup (attribute_names s) → a ∈ n_attributes s → get_attribute s (a_name a) = Ok a.
Proof.
  intros Hnd Ha. unfold get_attribute, get_attribute_or_none. by rewrite find_first_name.
Qed.

Lemma get_relationship_in s r :
  NoDup (relationship_names s) → r ∈ n_relationships s → get_relationship s (r_name r) = Ok r.
Proof.
  intros Hnd Hr. unfold get_relationship, get_relationship_or_none. by rewrite find_first_name.
Qed.

(** *** Inheritance *)

Lemma inherited_index_keys {A} (name : A → string) inherited l k :
  k ∈ dict_keys (inherited_index name inherited l) → k ∈ name <$> l.
Proof.
  unfold inherited_index. rewrite dict_of_list_keys.
  intros ([k' n] & -> & Hin)%list_elem_of_fmap.
  apply list_elem_of_omap in Hin as ([i x] & Hix & Hx). cbn in Hx.
  destruct (inherited x); [|done]. injection Hx as <- <-. cbn.
  apply elem_of_zip_r in Hix. apply list_elem_of_fmap. eauto.
Qed.

(** What a loop over the interface adds: the field is appended unless its name is
    in use; the branch that replaces a field inherited earlier is never taken. *)
Definition add_attribute (s : MainSchema) (a : AttributeSchema) : MainSchema :=
  if decide (a_name a ∈ valid_input_names s) then s
  else s <| n_attributes := n_attributes s ++ [a <| a_inherited := true |>] |>.
Definition add_relationship (s : MainSchema) (r : RelationshipSchema) : MainSchema :=
  if decide (r_name r ∈ valid_input_names s) then s
  else s <| n_relationships := n_relationships s ++ [r <| r_inherited := true |>] |>.

Section inherit.
Context (ai ri : list (string * nat)).
Definition indexed (s : MainSchema) : Prop :=
  ∀ k, k ∈ dict_keys ai ++ dict_keys ri → k ∈ valid_input_names s.

Lemma elem_of_valid_input_names k s :
  k ∈ valid_input_names s ↔
  k ∈ attribute_names s ∨ k ∈ relationship_names s ∨ k ∈ NODE_METADATA_ATTRIBUTES.
Proof. unfold valid_input_names. by rewrite !elem_of_app. Qed.

Lemma inherit_attributes_fold s l :
  indexed s → foldM (inherit_attribute ai ri) s l = Ok (foldl add_attribute s l).
Proof.
  revert s. induction l as [|a l IH]; intros s Hi; [done|]. cbn [foldM foldl].
  unfold inherit_attribute, add_attribute at 2. destruct (decide (a_name a ∈ valid_input_names s)) as [|Hn].
  { by apply IH. }
  rewrite decide_False by (intros Hk; apply Hn, Hi, Hk). apply IH.
  intros k Hk. apply Hi in Hk. apply elem_of_valid_input_names in Hk.
  apply elem_of_valid_input_names. unfold attribute_names in *. cbn. rewrite fmap_app. set_solver.
Qed.

Lemma inherit_relationships_fold s l :
  indexed s → foldM (inherit_relationship ai ri) s l = Ok (foldl add_relationship s l).
Proof.
  revert s. induction l as [|a l IH]; intros s Hi; [done|]. cbn [foldM foldl].
  unfold inherit_relationship, add_relationship at 2. destruct (decide (r_name a ∈ valid_input_names s)) as [|Hn].
  { by apply IH. }
  rewrite decide_False by (intros Hk; apply Hn, Hi, Hk). apply IH.
  intros k Hk. apply Hi in Hk. apply elem_of_valid_input_names in Hk.
  apply elem_of_valid_input_names. unfold relationship_names in *. cbn. rewrite fmap_app. set_solver.
Qed.
End inherit.

Lemma set_attributes_id s : s <| n_attributes := n_attributes s |> = s.
Proof. by destruct s. Qed.
Lemma set_relationships_id s : s <| n_relationships := n_relationships s |> = s.
Proof. by destruct s. Qed.

Lemma set_attributes_twice s x y : s <| n_attributes := x |> <| n_attributes := y |> = s <| n_attributes := y |>.
Proof. done. Qed.
Lemma set_relationships_twice s x y :
  s <| n_relationships := x |> <| n_relationships := y |> = s <| n_relationships := y |>.
Proof. done. Qed.

Definition inherited_attributes (s : MainSchema) (l : list AttributeSchema) : list AttributeSchema :=
  (λ a, a <| a_inherited := true |>) <$> filter (λ a, a_name a ∉ valid_input_names s) l.
Definition inherited_relationships (s : MainSchema) (l : list RelationshipSchema) :
    list RelationshipSchema :=
  (λ r, r <| r_inherited := true |>) <$> filter (λ r, r_name r ∉ valid_input_names s) l.

Lemma add_attributes_spec s l :
  NoDup (a_name <$> l) →
  foldl add_attribute s l =
  s <| n_attributes := n_attributes s ++ inherited_attributes s l |>.
Proof.
  revert s. induction l as [|a l IH]; intros s Hnd.
  { cbn. by rewrite app_nil_r, set_attributes_id. }
  rewrite fmap_cons, NoDup_cons in Hnd. destruct Hnd as [Ha Hl]. cbn [foldl]. rewrite IH by done.
  unfold inherited_attributes at 2. rewrite filter_cons. unfold add_attribute.
  destruct (decide (a_name a ∈ valid_input_names s)) as [Hin|Hin].
  { by rewrite decide_False by tauto. }
  rewrite decide_True by done. rewrite fmap_cons, set_attributes_twice. cbn [n_attributes assign].
  rewrite <-app_assoc. cbn [app]. do 3 f_equal.
  unfold inherited_attributes. f_equal. apply list_filter_ext. intros b Hb.
  rewrite !elem_of_valid_input_names. unfold attribute_names. cbn. rewrite fmap_app.
  assert (a_name b ≠ a_name a) by (intros Heq; apply Ha; rewrite <-Heq; apply list_elem_of_fmap; eauto).
  set_solver.
Qed.

Lemma add_relationships_spec s l :
  NoDup (r_name <$> l) →
  foldl add_relationship s l =
  s <| n_relationships := n_relationships s ++ inherited_relationships s l |>.
Proof.
  revert s. induction l as [|a l IH]; intros s Hnd.
  { cbn. by rewrite app_nil_r, set_relationships_id. }
  rewrite fmap_cons, NoDup_cons in Hnd. destruct Hnd as [Ha Hl]. cbn [foldl]. rewrite IH by done.
  unfold inherited_relationships at 2. rewrite filter_cons. unfold add_relationship.
  destruct (decide (r_name a ∈ valid_input_names s)) as [Hin|Hin].
  { by rewrite decide_False by tauto. }
  rewrite decide_True by done. rewrite fmap_cons, set_relationships_twice.
  cbn [n_relationships assign]. rewrite <-app_assoc. cbn [app]. do 3 f_equal.
  unfold inherited_relationships. f_equal. apply list_filter_ext. intros b Hb.
  rewrite !elem_of_valid_input_names. unfold relationship_names. cbn. rewrite fmap_app.
  assert (r_name b ≠ r_name a) by (intros Heq; apply Ha; rewrite <-Heq; apply list_elem_of_fmap; eauto).
  set_solver.
Qed.

Lemma inherit_list_idem {A} (x y : option (list A)) :
  inherit_list (inherit_list x y) y = inherit_list x y.
Proof. unfold inherit_list. by destruct (truthy_list y) eqn:Hy, (truthy_list x) eqn:Hx; cbn; rewrite ?Hx, ?Hy. Qed.
Lemma inherit_str_idem (x y : option string) :
  inherit_str (inherit_str x y) y = inherit_str x y.
Proof. unfold inherit_str. by destruct (truthy_str y) eqn:Hy, (truthy_str x) eqn:Hx; cbn; rewrite ?Hx, ?Hy. Qed.

(** The result of inheriting from an interface with distinct field names. *)
Definition with_inherited (s interface : MainSchema) : MainSchema :=
  {| n_id := n_id s; n_name := n_name s; n_namespace := n_namespace s;
     n_description := n_description s; n_label := n_label s; n_branch := n_branch s;
     n_default_filter := inherit_str (n_default_filter s) (n_default_filter interface);
     n_human_friendly_id := inherit_list (n_human_friendly_id s) (n_human_friendly_id interface);
     n_display_labels := inherit_list (n_display_labels s) (n_display_labels interface);
     n_include_in_menu := n_include_in_menu s;
     n_menu_placement := inherit_str (n_menu_placement s) (n_menu_placement interface);
     n_icon := inherit_str (n_icon s) (n_icon interface);
     n_order_by := inherit_list (n_order_by s) (n_order_by interface);
     n_uniqueness_constraints := inherit_list (n_uniqueness_constraints s) (n_uniqueness_constraints interface);
     n_documentation := n_documentation s; n_state := n_state s; n_filters := n_filters s;
     n_attributes := n_attributes s ++ inherited_attributes s (n_attributes interface);
     n_relationships := n_relationships s ++ inherited_relationships s (n_relationships interface);
     n_class := n_class s |}.

Lemma inherit_from_interface_fold s i :
  inherit_from_interface s i =
  Ok (foldl add_relationship
        (foldl add_attribute (inherit_properties s i) (n_attributes i)) (n_relationships i)).
Proof.
  unfold inherit_from_interface.
  set (ai := inherited_index a_name a_inherited (n_attributes s)).
  set (ri := inherited_index r_name r_inherited (n_relationships s)).
  assert (indexed ai ri (inherit_properties s i)) as Hi.
  { intros k [Hk|Hk]%elem_of_app; apply inherited_index_keys in Hk;
      apply elem_of_valid_input_names; [left|right; left]; exact Hk. }
  rewrite inherit_attributes_fold by done. cbn [mbind result_bind].
  apply inherit_relationships_fold. clear -Hi.
  generalize (inherit_properties s i), Hi. clear Hi. induction (n_attributes i) as [|a l IH]; [done|].
  intros s' Hi. cbn [foldl]. apply IH. unfold add_attribute. case_decide; [done|].
  intros k Hk. apply Hi, elem_of_valid_input_names in Hk. apply elem_of_valid_input_names.
  unfold attribute_names in *. cbn. rewrite fmap_app. set_solver.
Qed.

Lemma inherit_from_interface_eq s i :
  NoDup (attribute_names i ++ relationship_names i) →
  inherit_from_interface s i = Ok (with_inherited s i).
Proof.
  intros (Ha & Hdis & Hr)%NoDup_app. rewrite inherit_from_interface_fold.
  rewrite add_attributes_spec, add_relationships_spec by done. unfold with_inherited.
  set (s1 := (inherit_properties s i) <| n_attributes := _ |>).
  enough (inherited_relationships s1 (n_relationships i) =
          inherited_relationships s (n_relationships i)) as -> by done.
  unfold inherited_relationships. f_equal. apply list_filter_ext. intros r Hin.
  rewrite !elem_of_valid_input_names. unfold attribute_names, relationship_names. cbn.
  rewrite fmap_app, elem_of_app. assert (r_name r ∉ attribute_names i) as Hna.
  { intros Hx. apply (Hdis _ Hx). apply list_elem_of_fmap. eauto. }
  enough (r_name r ∉ a_name <$> inherited_attributes (inherit_properties s i) (n_attributes i)) by tauto.
  unfold inherited_attributes. rewrite <-list_fmap_compose.
  intros (a & Heq & [_ Hain]%list_elem_of_filter)%list_elem_of_fmap.
  apply Hna. rewrite Heq. apply list_elem_of_fmap. eauto.
Qed.

Lemma inherited_nil s i :
  (∀ k, k ∈ attribute_names i ++ relationship_names i → k ∈ valid_input_names s) →
  inherited_attributes s (n_attributes i) = [] ∧ inherited_relationships s (n_relationships i) = [].
Proof.
  intros Hall. unfold inherited_attributes, inherited_relationships. split.
  - enough (filter (λ a, a_name a ∉ valid_input_names s) (n_attributes i) = []) as -> by done.
    apply elem_of_nil_inv. intros a [Hn Ha]%list_elem_of_filter.
    apply Hn, Hall, elem_of_app. left. apply list_elem_of_fmap. eauto.
  - enough (filter (λ r, r_name r ∉ valid_input_names s) (n_relationships i) = []) as -> by done.
    apply elem_of_nil_inv. intros r [Hn Hr]%list_elem_of_filter.
    apply Hn, Hall, elem_of_app. right. apply list_elem_of_fmap. eauto.
Qed.

(** Every name of the interface is in use once it has been inherited from. *)
Lemma with_inherited_names s i k :
  k ∈ attribute_names i ++ relationship_names i → k ∈ valid_input_names (with_inherited s i).
Proof.
  intros Hk. rewrite elem_of_valid_input_names. unfold attribute_names, relationship_names.
  change (n_attributes (with_inherited s i)) with (n_attributes s ++ inherited_attributes s (n_attributes i)).
  change (n_relationships (with_inherited s i)) with
    (n_relationships s ++ inherited_relationships s (n_relationships i)).
  rewrite !fmap_app, !elem_of_app. unfold inherited_attributes, inherited_relationships.
  rewrite <-!list_fmap_compose.
  destruct (decide (k ∈ valid_input_names s)) as [Hv%elem_of_valid_input_names|Hv].
  { unfold attribute_names, relationship_names in Hv. tauto. }
  apply elem_of_app in Hk as [Hk|Hk]; apply list_elem_of_fmap in Hk as (x & -> & Hx).
  - left; right. apply list_elem_of_fmap. exists x. split; [done|]. by apply list_elem_of_filter.
  - right; left; right. apply list_elem_of_fmap. exists x. split; [done|]. by apply list_elem_of_filter.
Qed.

(** Schemas are equal when their fields are. *)
Lemma MainSchema_ext (x y : MainSchema) :
  n_id x = n_id y → n_name x = n_name y → n_namespace x = n_namespace y →
  n_description x = n_description y → n_label x = n_label y → n_branch x = n_branch y →
  n_default_filter x = n_default_filter y → n_human_friendly_id x = n_human_friendly_id y → n_display_labels x = n_display_labels y →
  n_include_in_menu x = n_include_in_menu y → n_menu_placement x = n_menu_placement y → n_icon x = n_icon y →
  n_order_by x = n_order_by y → n_uniqueness_constraints x = n_uniqueness_constraints y → n_documentation x = n_documentation y →
  n_state x = n_state y → n_filters x = n_filters y → n_attributes x = n_attributes y →
  n_relationships x = n_relationships y → n_class x = n_class y → x = y.
Proof. destruct x, y. cbn. intros. by subst. Qed.

Lemma with_inherited_idem s i : with_inherited (with_inherited s i) i = with_inherited s i.
Proof.
  destruct (inherited_nil (with_inherited s i) i) as [Ha Hr]; [apply with_inherited_names|].
  apply MainSchema_ext.
  8,9,13,14: exact (inherit_list_idem _ _).
  7,9,10: exact (inherit_str_idem _ _).
  1-10,13: reflexivity.
  - change (n_attributes (with_inherited (with_inherited s i) i)) with
      (n_attributes (with_inherited s i) ++ inherited_attributes (with_inherited s i) (n_attributes i)).
    by rewrite Ha, app_nil_r.
  - change (n_relationships (with_inherited (with_inherited s i) i)) with
      (n_relationships (with_inherited s i) ++
       inherited_relationships (with_inherited s i) (n_relationships i)).
    by rewrite Hr, app_nil_r.
Qed.

(** ** Properties *)

(** Inheriting from a generic whose field names are distinct never fails: the
    fields the node already has stay as they are and in place, the generic's
    fields whose names are free are appended in order and marked inherited, the
    class of the node is kept, and inheriting again changes nothing. *)
Theorem inherit_from_interface_spec (s interface : MainSchema)
    (Hnd : NoDup (attribute_names interface ++ relationship_names interface)) :
  ∃ s', inherit_from_interface s interface = Ok s' ∧
    n_attributes s' = n_attributes s ++
      ((λ a, a <| a_inherited := true |>) <$>
        filter (λ a, a_name a ∉ valid_input_names s) (n_attributes interface)) ∧
    n_relationships s' = n_relationships s ++
      ((λ r, r <| r_inherited := true |>) <$>
        filter (λ r, r_name r ∉ valid_input_names s) (n_relationships interface)) ∧
    n_class s' = n_class s ∧ kind s' = kind s ∧
    inherit_from_interface s' interface = Ok s'.
Proof.
  exists (with_inherited s interface). rewrite !inherit_from_interface_eq by done.
  rewrite with_inherited_idem. done.
Qed.

Lemma inherit_from_interface_spec_witness :
  let generic := (new_generic "Device" "Infra")
    <| n_attributes := [new_attribute "name" "Text"; new_attribute "role" "Text"] |> in
  let node := (new_node "Router" "Infra") <| n_attributes := [new_attribute "name" "Text"] |> in
  NoDup (attribute_names generic ++ relationship_names generic) ∧
  ∃ s', inherit_from_interface node generic = Ok s' ∧
    n_attributes s' = [new_attribute "name" "Text"; (new_attribute "role" "Text") <| a_inherited := true |>].
Proof.
  intros generic node.
  assert (NoDup (attribute_names generic ++ relationship_names generic)) as Hnd
    by (apply (bool_decide_unpack _); vm_compute; exact I).
  split; [exact Hnd|].
  destruct (inherit_from_interface_spec node generic Hnd) as (s' & Hs' & Ha & _).
  exists s'. split; [exact Hs'|]. rewrite Ha. reflexivity.
Defined.

Lemma validate_attribute_inheritance_ok s i a :
  NoDup (attribute_names i) →
  validate_attribute_inheritance s i a = Ok tt ↔
  ∀ b, b ∈ n_attributes i → a_name a = a_name b →
    a_kind a = a_kind b ∧ (a_allow_override b = AllowOverrideType.NONE → a_inherited a = true).
Proof.
  intros Hnd. unfold validate_attribute_inheritance.
  destruct (decide (a_name a ∈ attribute_names i)) as [Hin|Hn].
  - apply list_elem_of_fmap in Hin as (b & Hab & Hb).
    rewrite Hab, get_attribute_in by done. cbn [mbind result_bind].
    assert (∀ c, c ∈ n_attributes i → a_name a = a_name c → c = b) as Huniq.
    { intros c Hc Hac. enough (Ok c = Ok b) by congruence.
      rewrite <-(get_attribute_in i c), <-(get_attribute_in i b) by done. congruence. }
    rewrite raise_if_bind, raise_if_ok, negb_false_iff, bool_decide_eq_true. split.
    + intros [H1%andb_false_iff H2] c Hc Hac. rewrite <-Hab in Hac. rewrite (Huniq c Hc Hac). split; [done|]. intros Hno.
      destruct H1 as [H1|H1]; [by destruct (a_inherited a)|by apply bool_decide_eq_false in H1].
    + intros Hall. destruct (Hall b Hb eq_refl) as [Hk Ho]. split; [|done].
      apply andb_false_iff. destruct (a_inherited a) eqn:Hi; [by left|right].
      apply bool_decide_eq_false. intros Hno. by apply Ho in Hno.
  - split; [|done]. intros _ b Hb Hab. destruct Hn. rewrite Hab. apply list_elem_of_fmap. eauto.
Qed.

Lemma validate_relationship_inheritance_ok s i r :
  NoDup (relationship_names i) →
  validate_relationship_inheritance s i r = Ok tt ↔
  ∀ q, q ∈ n_relationships i → r_name r = r_name q →
    r_allow_override q = AllowOverrideType.NONE → r_inherited r = true.
Proof.
  intros Hnd. unfold validate_relationship_inheritance.
  destruct (decide _) as [[Hin Hinh]|Hn].
  - apply list_elem_of_fmap in Hin as (b & Hab & Hb).
    rewrite Hab, get_relationship_in by done. cbn [mbind result_bind]. rewrite raise_if_ok.
    rewrite bool_decide_eq_false. split.
    + intros Ho q Hq Hrq Hno. exfalso. apply Ho. enough (Ok q = Ok b) by congruence.
      rewrite <-(get_relationship_in i q), <-(get_relationship_in i b) by done. congruence.
    + intros Hall Hno. rewrite (Hall b Hb eq_refl Hno) in Hinh. done.
  - split; [|done]. intros _ q Hq Hrq Hno. destruct (r_inherited r); [done|]. destruct Hn.
    split; [|done]. rewrite Hrq. apply list_elem_of_fmap. eauto.
Qed.

(** a node may inherit from a generic exactly when every attribute it shares
    with the generic by name has the generic's kind, and no attribute or
    relationship that the generic protects from overriding is defined locally. *)
Theorem validate_inheritance_spec (s interface : MainSchema)
    (Ha : NoDup (attribute_names interface)) (Hr : NoDup (relationship_names interface)) :
  validate_inheritance s interface = Ok tt ↔
  (∀ a b, a ∈ n_attributes s → b ∈ n_attributes interface → a_name a = a_name b →
     a_kind a = a_kind b ∧ (a_allow_override b = AllowOverrideType.NONE → a_inherited a = true)) ∧
  (∀ r q, r ∈ n_relationships s → q ∈ n_relationships interface → r_name r = r_name q →
     r_allow_override q = AllowOverrideType.NONE → r_inherited r = true).
Proof.
  unfold validate_inheritance. rewrite then_ok, !for_all_ok.
  setoid_rewrite (validate_attribute_inheritance_ok s interface _ Ha).
  setoid_rewrite (validate_relationship_inheritance_ok s interface _ Hr). naive_solver.
Qed.

Lemma validate_inheritance_spec_witness :
  let generic := (new_generic "Device" "Infra")
    <| n_attributes := [(new_attribute "name" "Text") <| a_allow_override := AllowOverrideType.NONE |>] |> in
  let node := (new_node "Router" "Infra") <| n_attributes := [new_attribute "name" "Text"] |> in
  NoDup (attribute_names generic) ∧ NoDup (relationship_names generic) ∧
  ¬ (∀ a b, a ∈ n_attributes node → b ∈ n_attributes generic → a_name a = a_name b →
      a_kind a = a_kind b ∧ (a_allow_override b = AllowOverrideType.NONE → a_inherited a = true)).
Proof.
  intros generic node.
  assert (NoDup (attribute_names generic) ∧ NoDup (relationship_names generic)) as [Ha Hr]
    by (split; apply (bool_decide_unpack _); vm_compute; exact I).
  split_and!; [exact Ha|exact Hr|]. intros Hall.
  assert (validate_inheritance node generic = Ok tt) as Hok.
  { apply (validate_inheritance_spec node generic Ha Hr). split; [exact Hall|].
    intros r q Hq. by apply elem_of_nil in Hq. }
  vm_compute in Hok. discriminate Hok.
Defined.
