(* ===== verification/SchemaPaths.v ===== *)
(** * Paths of resources

    [backend/infrahub/core/path.py]: the location of a piece of data, of a schema
    element or of a repository, its printed form, and the grouping of data
    paths that the uniqueness and constraint checkers return. *)

From stdpp Require Import prelude strings.
From S2P Require Import Prelude PyString PyDict SdkUtils Constants HashModel SchemaDefs.
From S2P Require Import NodeSchemaOps.

(** ** Data *)

Record DataPath := mkDataPath {
  dp_branch : string;
  dp_path_type : PathType;
  dp_node_id : string;
  dp_kind : string;
  dp_field_name : option string;
  dp_property_name : option string;
  dp_peer_id : option string;
  dp_value : option json;
}.

Record SchemaPath := mkSchemaPath {
  sp_path_type : SchemaPathType;
  sp_schema_kind : string;
  sp_schema_id : option string;
  sp_field_name : option string;
  sp_property_name : option string;
}.
#[export] Instance SchemaPath_eq_dec : EqDecision SchemaPath.
Proof. solve_decision. Defined.

Record FilePath := mkFilePath { fp_repository_name : string }.

(** The three classes of paths, with the properties they share. *)
Class InfrahubPath (P : Type) := {
  resource_type : P → PathResourceType;
  get_path : P → string;
}.

(** [f"/{o}"] when [o] is set and not empty *)
Definition path_part (o : option string) : string :=
  match o with Some (String c s) => "/" +:+ String c s | _ => "" end.

Definition data_get_path (p : DataPath) (with_peer : bool) : string :=
  enum_value PathResourceType.DATA +:+ "/" +:+ dp_node_id p
  +:+ path_part (dp_field_name p)
  +:+ (if bool_decide (dp_path_type p = PathType.RELATIONSHIP_ONE) && negb (truthy_str (dp_property_name p))
       then "/peer" else "")
  +:+ (if with_peer then path_part (dp_peer_id p) else "")
  +:+ (if truthy_str (dp_property_name p)
       then if bool_decide (dp_property_name p = Some "HAS_VALUE") then "/value"
            else "/property" +:+ path_part (dp_property_name p)
       else "").

Definition schema_get_path (p : SchemaPath) : string :=
  enum_value PathResourceType.SCHEMA +:+ "/" +:+ sp_schema_kind p
  +:+ path_part (sp_field_name p)
  +:+ (if bool_decide (sp_path_type p = SchemaPathType.NODE) then "" else path_part (sp_property_name p)).

Definition file_get_path (p : FilePath) : string :=
  enum_value PathResourceType.FILE +:+ "/" +:+ fp_repository_name p.

#[export] Instance data_path : InfrahubPath DataPath :=
  {| resource_type _ := PathResourceType.DATA; get_path p := data_get_path p true |}.
#[export] Instance schema_path : InfrahubPath SchemaPath :=
  {| resource_type _ := PathResourceType.SCHEMA; get_path := schema_get_path |}.
#[export] Instance file_path : InfrahubPath FilePath :=
  {| resource_type _ := PathResourceType.FILE; get_path := file_get_path |}.

(** ** Paths of a schema *)

(** [SchemaPath.init].  [hasattr] is Python's: whether the field object has an
    attribute of that name, the methods of its class included. *)
Definition schema_path_init (hasattr : AttributeSchema + RelationshipSchema → string → bool)
    (schema : MainSchema) (schema_id field_name property_name : option string) : result SchemaPath :=
  match field_name with
  | Some (String c n) =>
      let name := String c n in
      match get_field schema name with
      | Err _ => Err (ValueError ("Field : " +:+ name +:+ " is not valid for " +:+ kind schema))
      | Ok field =>
          let path_type := match field with
            | inl _ => SchemaPathType.ATTRIBUTE
            | inr _ => SchemaPathType.RELATIONSHIP
            end in
          _ ← raise_if (truthy_str property_name && negb (hasattr field (default "" property_name)))
                (ValueError ("Property " +:+ default "" property_name +:+ " is not valid for "
                             +:+ kind schema +:+ ":" +:+ name));
          Ok (mkSchemaPath path_type (kind schema) schema_id field_name property_name)
      end
  | _ => Ok (mkSchemaPath SchemaPathType.NODE (kind schema) schema_id field_name property_name)
  end.

(** ** Grouped data paths *)

Definition GroupedDataPaths : Type := list (string * list DataPath).

Definition add_data_paths (g : GroupedDataPaths) (data_paths : list DataPath) (grouping_key : string) :
    GroupedDataPaths :=
  dict_set g grouping_key (default [] (dict_get g grouping_key) ++ data_paths).
Definition add_data_path (g : GroupedDataPaths) (data_path : DataPath) (grouping_key : string) :
    GroupedDataPaths := add_data_paths g [data_path] grouping_key.
Definition get_data_paths (g : GroupedDataPaths) (grouping_key : string) : list DataPath :=
  default [] (dict_get g grouping_key).
Definition get_all_data_paths (g : GroupedDataPaths) : list DataPath := concat (dict_values g).
Definition get_grouping_keys (g : GroupedDataPaths) : list string := dict_keys g.

(** A sequence of [add_data_path] calls from an empty object. *)
Definition group_paths (l : list (string * DataPath)) : GroupedDataPaths :=
  foldl (λ g kp, add_data_path g kp.2 kp.1) [] l.

(** *** Lemmas *)

Lemma group_paths_snoc l kp :
  group_paths (l ++ [kp]) = add_data_path (group_paths l) kp.2 kp.1.
Proof. unfold group_paths. by rewrite foldl_app. Qed.

Lemma concat_dict_set {K V} `{EqDecision K} (d : list (K * list V)) k v :
  NoDup (dict_keys d) →
  concat (dict_values (dict_set d k (default [] (dict_get d k) ++ v))) ≡ₚ concat (dict_values d) ++ v.
Proof.
  unfold dict_values, dict_keys. induction d as [|[k' v'] d IH]; [cbn; by rewrite app_nil_r|].
  rewrite fmap_cons, NoDup_cons. intros [Hk Hd]. cbn. destruct (decide (k = k')) as [->|Hne]; cbn.
  - rewrite <-!app_assoc. f_equiv. by rewrite (comm (++)).
  - by rewrite IH, app_assoc.
Qed.

Lemma NoDup_group_paths l : NoDup (dict_keys (group_paths l)).
Proof.
  induction l as [|kp l IH] using rev_ind; [constructor|].
  rewrite group_paths_snoc. by apply NoDup_dict_set.
Qed.

(** The grouped paths are a multimap: after any sequence of additions, a group
    holds the paths added under its key in the order of the additions, the keys
    are the keys used, and the list of all the paths is a rearrangement of
    everything that was added (no path is lost and none is repeated). *)
Theorem grouped_data_paths_spec (l : list (string * DataPath)) :
  (∀ key, get_data_paths (group_paths l) key = (filter (λ kp, kp.1 = key) l).*2) ∧
  (∀ key, key ∈ get_grouping_keys (group_paths l) ↔ key ∈ l.*1) ∧
  get_all_data_paths (group_paths l) ≡ₚ l.*2.
Proof.
  induction l as [|[k p] l IH] using rev_ind; [split_and!; set_solver|].
  rewrite group_paths_snoc. cbn. destruct IH as (Hg & Hk & Ha).
  unfold add_data_path, add_data_paths, get_grouping_keys, get_all_data_paths. split_and!.
  - intros key. unfold get_data_paths in *. rewrite dict_get_set, filter_app, fmap_app, filter_cons.
    destruct (decide (k = key)) as [->|Hne]; cbn [fst].
    + rewrite decide_True by done. cbn. by rewrite Hg.
    + rewrite decide_False by done. cbn. by rewrite app_nil_r, Hg.
  - intros key. rewrite dict_keys_set, fmap_app, elem_of_app, <-Hk. cbn.
    rewrite list_elem_of_singleton. unfold get_grouping_keys.
    destruct (decide (k ∈ dict_keys (group_paths l))); [|by rewrite elem_of_app, list_elem_of_singleton].
    split; [by left|]. by intros [?| ->].
  - rewrite concat_dict_set by apply NoDup_group_paths. rewrite fmap_app. by f_equiv.
Qed.
