(* ===== verification/SchemaStore.v ===== *)
(** * Branches of the schema registry

    The storage half of [SchemaBranch] in [backend/infrahub/core/schema_manager.py]: the
    schemas of a branch by kind, kept as digests into a cache that all branches share.
    Here a branch is the contents of its dictionaries; [SchemaObjects] has the object that
    refers to them.

    The cache holds Python objects, and some passes change a cached object in
    place, so the model has the objects of the process ([objects], a reference is
    an index) and the cache from digests to references.  [get] copies the object
    ([duplicate=True]); [get_ref] is the object itself ([duplicate=False]). *)

From stdpp Require Import prelude strings gmap.
From S2P Require Import Prelude PyString PyDict SdkUtils Md5 Constants HashModel SchemaDefs.
From S2P Require Import NodeSchemaOps.

(** ** State *)

Record Store := mkStore {
  objects : list MainSchema;
  cache : list (string * nat);
}.
#[export] Instance Store_rebuild : Rebuild Store := λ s, mkStore (objects s) (cache s).

Record SchemaBranch := mkSchemaBranch {
  sb_name : option string;
  nodes : list (string * string);
  generics : list (string * string);
  profiles : list (string * string);
}.
#[export] Instance SchemaBranch_rebuild : Rebuild SchemaBranch := λ b,
  mkSchemaBranch (sb_name b) (nodes b) (generics b) (profiles b).

(** What a method of a branch reads and writes. *)
Record BranchState := mkBranchState {
  store : Store;
  branch : SchemaBranch;
}.
#[export] Instance BranchState_rebuild : Rebuild BranchState := λ s,
  mkBranchState (store s) (branch s).

(** [SchemaBranch(cache=cache, name=name)] *)
Definition new_branch (name : option string) : SchemaBranch := mkSchemaBranch name [] [] [].

Definition INTERNAL_SCHEMA_NODE_KINDS : list string :=
  ["SchemaNode"; "SchemaAttribute"; "SchemaRelationship"; "SchemaGeneric"].

Abbreviation BranchM := (Exec BranchState).

(** ** Names *)

Definition node_names (b : SchemaBranch) : list string := dict_keys (nodes b).
Definition generic_names (b : SchemaBranch) : list string := dict_keys (generics b).
Definition profile_names (b : SchemaBranch) : list string := dict_keys (profiles b).
Definition all_names (b : SchemaBranch) : list string :=
  node_names b ++ generic_names b ++ profile_names b.

(** ** Reading *)

(** The digest a name stands for: nodes first, then generics, then profiles. *)
Definition find_key (b : SchemaBranch) (name : string) : option string :=
  match dict_get (nodes b) name with
  | Some key => Some key
  | None => match dict_get (generics b) name with
            | Some key => Some key
            | None => dict_get (profiles b) name
            end
  end.

Definition not_found (name : string) : exn := SchemaNotFoundError name.

Definition find_ref (s : BranchState) (name : string) : result nat :=
  let key := find_key (branch s) name in
  if truthy_str key then
    require (KeyError (default "" key)) (key ≫= dict_get (cache (store s)))
  else Err (not_found name).

Definition deref (st : Store) (ref : nat) : result MainSchema :=
  require (RuntimeError "no such object") (objects st !! ref).

(** The object itself, as a reference. *)
Definition get_ref (name : string) : BranchM nat := λ s, (find_ref s name, s).
(** The current value of an object. *)
Definition read (ref : nat) : BranchM MainSchema := λ s, (deref (store s) ref, s).

(** [find s name]: what [get] returns in the state [s]. *)
Definition find (s : BranchState) (name : string) : result MainSchema :=
  find_ref s name ≫= deref (store s).
Definition get (name : string) : BranchM MainSchema := λ s, (find s name, s).

Definition get_node (name : string) : BranchM MainSchema :=
  item ← get name;
  if is_node_schema item then mret item
  else raise (ValueError (name +:+ " is not of type NodeSchema")).
Definition get_generic (name : string) : BranchM MainSchema :=
  item ← get name;
  if is_generic_schema item then mret item
  else raise (ValueError (name +:+ " is not of type GenericSchema")).
Definition get_profile (name : string) : BranchM MainSchema :=
  item ← get name;
  if is_profile_schema item then mret item
  else raise (ValueError (name +:+ " is not of type ProfileSchema")).

(** [except SchemaNotFoundError] *)
Definition on_not_found {A} (m : BranchM A) (handler : BranchM A) : BranchM A :=
  catch m (λ e, match e with SchemaNotFoundError _ => Some handler | _ => None end).

Definition has (name : string) : BranchM bool :=
  on_not_found (_ ← get name; mret true) (mret false).

(** The first name of a list whose object passes a test. *)
Fixpoint first_matching (test : MainSchema → bool) (names : list string) : BranchM (option string) :=
  match names with
  | [] => mret None
  | name :: names' =>
      node ← get name;
      if test node then mret (Some name) else first_matching test names'
  end.

Definition get_by_id (id : string) : BranchM MainSchema :=
  b ← gets branch;
  found ← first_matching (λ node, bool_decide (n_id node = Some id)) (all_names b);
  match found with Some name => get name | None => raise (not_found id) end.

Definition has_id (id : string) (node : MainSchema) : bool :=
  bool_decide (n_id node = Some id) || is_ok (get_attribute_by_id node id)
  || is_ok (get_relationship_by_id node id).
Definition get_by_any_id (id : string) : BranchM MainSchema :=
  b ← gets branch;
  found ← first_matching (has_id id) (all_names b);
  match found with Some name => get name | None => raise (not_found id) end.

Definition mapM_branch {A B} (f : A → BranchM B) : list A → BranchM (list B) :=
  fix go l := match l with
    | [] => mret []
    | x :: l' => y ← f x; ys ← go l'; mret (y :: ys)
    end.

Definition get_all (include_internal : bool) : BranchM (list (string * MainSchema)) :=
  b ← gets branch;
  let names := filter (λ name, include_internal || negb (bool_decide (name ∈ INTERNAL_SCHEMA_NODE_KINDS)))
                 (all_names b) in
  items ← mapM_branch (λ name, item ← get name; mret (name, item)) names;
  mret (dict_of_list items).

Definition get_all_kind_id_map (exclude_profiles : bool) : BranchM (list (string * option string)) :=
  b ← gets branch;
  let names :=
    if exclude_profiles then node_names b ++ filter (.≠ InfrahubKind.PROFILE) (generic_names b)
    else all_names b in
  items ← mapM_branch (λ name, item ← get name; mret (name, n_id item))
            (filter (.≠ InfrahubKind.NODE) names);
  mret (dict_of_list items).

(** A namespace with whether users may edit it. *)
Definition get_namespaces (include_internal : bool) : BranchM (list (string * bool)) :=
  all_schemas ← get_all include_internal;
  mret (foldl (λ namespaces schema,
      if decide (n_namespace schema ∈ dict_keys namespaces) then namespaces
      else dict_set namespaces (n_namespace schema)
             (negb (bool_decide (n_namespace schema ∈ RESTRICTED_NAMESPACES))))
    [] (dict_values all_schemas)).

Definition get_schemas_for_namespaces (namespaces : option (list string)) (include_internal : bool) :
    BranchM (list MainSchema) :=
  all_schemas ← get_all include_internal;
  mret (if truthy_list namespaces
        then filter (λ schema, n_namespace schema ∈ default [] namespaces) (dict_values all_schemas)
        else dict_values all_schemas).

Definition get_schemas_by_rel_identifier (identifier : string) : BranchM (list MainSchema) :=
  b ← gets branch;
  items ← mapM_branch get (node_names b ++ generic_names b);
  mret (filter (λ node, is_Some (get_relationship_by_identifier node identifier)) items).

(** The fields needed to display a node, a profile, or any node of a generic. *)
Definition generate_fields_for_display_label (name : string) :
    BranchM (option (list (string * json))) :=
  node ← get name;
  match n_class node with
  | NodeSchema _ | ProfileSchema _ => mret (node_generate_fields_for_display_label node)
  | GenericSchema p =>
      children ← mapM_branch get (gp_used_by p);
      fields ← lift (foldM (λ fields child,
        match node_generate_fields_for_display_label child with
        | Some (kv :: rest) => deep_merge_dict (JDict (kv :: rest)) fields []
        | _ => Ok fields
        end) [] children);
      mret (match fields with [] => None | _ => Some fields end)
  end.

(** ** Writing *)

Section writing.
Context `{SetOrder}.

(** [self.nodes[name] = schema_hash] and its two variants *)
Definition set_name (name : string) (cls : schema_class) (schema_hash : string) (b : SchemaBranch) :
    SchemaBranch :=
  match cls with
  | NodeSchema _ => b <| nodes := dict_set (nodes b) name schema_hash |>
  | GenericSchema _ => b <| generics := dict_set (generics b) name schema_hash |>
  | ProfileSchema _ => b <| profiles := dict_set (profiles b) name schema_hash |>
  end.

(** [set] of an object that is not in the cache under another digest: a new
    object is added when the digest is new. *)
Definition set (name : string) (schema : MainSchema) : BranchM string :=
  schema_hash ← lift (schema_get_hash schema);
  _ ← modify (λ s,
    let st := store s in
    let st :=
      if dict_mem (cache st) schema_hash then st
      else mkStore (objects st ++ [schema]) (dict_set (cache st) schema_hash (length (objects st))) in
    mkBranchState st (set_name name (n_class schema) schema_hash (branch s)));
  mret schema_hash.

(** [set] of a cached object, after it was changed in place: its digest, when
    new, becomes a second entry for the same object. *)
Definition set_object (name : string) (ref : nat) : BranchM string :=
  schema ← read ref;
  schema_hash ← lift (schema_get_hash schema);
  _ ← modify (λ s,
    let st := store s in
    let st :=
      if dict_mem (cache st) schema_hash then st
      else st <| cache := dict_set (cache st) schema_hash ref |> in
    mkBranchState st (set_name name (n_class schema) schema_hash (branch s)));
  mret schema_hash.

(** An assignment to the fields of a cached object. *)
Definition mutate (ref : nat) (f : MainSchema → MainSchema) : BranchM unit :=
  schema ← read ref;
  modify (λ s, s <| store := (store s) <| objects := <[ref := f schema]> (objects (store s)) |> |>).

Definition delete (name : string) : BranchM unit :=
  b ← gets branch;
  if dict_mem (nodes b) name then
    modify (λ s, s <| branch := (branch s) <| nodes := dict_del (nodes (branch s)) name |> |>)
  else if dict_mem (generics b) name then
    modify (λ s, s <| branch := (branch s) <| generics := dict_del (generics (branch s)) name |> |>)
  else if dict_mem (profiles b) name then
    modify (λ s, s <| branch := (branch s) <| profiles := dict_del (profiles (branch s)) name |> |>)
  else raise (not_found name).

(** [SchemaBranch.get_hash] *)
Definition branch_get_hash (b : SchemaBranch) : string :=
  md5_hexdigest (py_join "" (concat
    ((λ kv, [kv.1; kv.2]) <$> py_sorted (nodes b ++ generics b)))).

(** The contents of a [duplicate]; the object, with its new dictionaries, is in
    [SchemaObjects]. *)
Definition branch_duplicate (name : option string) (b : SchemaBranch) : SchemaBranch :=
  mkSchemaBranch name (nodes b) (generics b) (profiles b).

(** ** Loading *)

Record NodeExtensionSchema := mkNodeExtensionSchema {
  e_id : option string;
  e_state : HashableModelState;
  e_kind : string;
  e_attributes : list AttributeSchema;
  e_relationships : list RelationshipSchema;
}.
Record SchemaRoot := mkSchemaRoot {
  root_generics : list MainSchema;
  root_nodes : list MainSchema;
  root_extensions : list NodeExtensionSchema;
}.

Definition validate_namespaces (root : SchemaRoot) : list string :=
  omap (λ model,
      if decide (n_namespace model ∈ RESTRICTED_NAMESPACES)
      then Some ("Restricted namespace '" +:+ n_namespace model +:+ "' used on '" +:+ n_name model +:+ "'")
      else None)
    (root_nodes root ++ root_generics root).

(** [new_item.update(node_extension)]: an extension has the fields of a
    hashable model, the kind, the attributes and the relationships; a kind that
    differs cannot be assigned. *)
Definition update_extension (self : MainSchema) (other : NodeExtensionSchema) : result MainSchema :=
  id ← update_field "id" (n_id self) (e_id other);
  state ← update_field "state" (n_state self) (e_state other);
  _ ← raise_if (negb (bool_decide (kind self = e_kind other))) (AttributeError "kind");
  attributes ← update_field "attributes" (n_attributes self) (e_attributes other);
  relationships ← update_field "relationships" (n_relationships self) (e_relationships other);
  Ok (self <| n_id := id |> <| n_state := state |> <| n_attributes := attributes |>
           <| n_relationships := relationships |>).

(** The schema an item updates: by id when the item has one, by kind otherwise;
    a schema found under another kind is removed under its old kind. *)
Definition load_existing (item : MainSchema) : BranchM MainSchema :=
  match n_id item with
  | Some (String c i) =>
      new_item ← get_by_id (String c i);
      _ ← (if decide (kind new_item = kind item) then mret tt else delete (kind new_item));
      mret new_item
  | _ => get (kind item)
  end.

Definition load_item (item : MainSchema) : BranchM unit :=
  on_not_found
    (new_item ← load_existing item;
     new_item ← lift (update new_item item);
     _ ← set (kind item) new_item;
     mret tt)
    (_ ← set (kind item) item; mret tt).

Definition load_extension (extension : NodeExtensionSchema) : BranchM unit :=
  new_item ← get (e_kind extension);
  new_item ← lift (update_extension new_item extension);
  _ ← set (e_kind extension) new_item;
  mret tt.

Definition load_schema (schema : SchemaRoot) : BranchM unit :=
  _ ← for_each load_item (root_nodes schema ++ root_generics schema);
  for_each load_extension (root_extensions schema).

(** [update(schema)]: the items of another branch into this one. *)
Definition get_from (other : SchemaBranch) (name : string) : BranchM MainSchema := λ s,
  (find (mkBranchState (store s) other) name, s).

Definition branch_update (other : SchemaBranch) : BranchM unit :=
  b ← gets branch;
  let '(in_both, _, other_only) :=
    compare_lists (node_names b ++ generic_names b) (node_names other ++ generic_names other) in
  _ ← for_each (λ item_kind,
      other_item ← get_from other item_kind;
      new_item ← get item_kind;
      new_item ← lift (update new_item other_item);
      _ ← set item_kind new_item;
      mret tt) in_both;
  for_each (λ item_kind,
      other_item ← get_from other item_kind;
      _ ← set item_kind other_item;
      mret tt) other_only.
End writing.

(** ** Invariant of a branch *)

(** The names of a branch with their digests. *)
Definition entries (b : SchemaBranch) : list (string * string) := nodes b ++ generics b ++ profiles b.

(** The cache refers to objects, and the digests of a branch are in the cache. *)
Record wf (s : BranchState) : Prop := {
  wf_refs : ∀ h r, dict_get (cache (store s)) h = Some r → r < length (objects (store s));
  wf_entries : ∀ name h, (name, h) ∈ entries (branch s) →
    truthy_str (Some h) = true ∧ h ∈ dict_keys (cache (store s));
}.

(** The digest of a cached object is the key it is cached under. *)
Definition coherent `{SetOrder} (st : Store) : Prop :=
  ∀ h r o, dict_get (cache st) h = Some r → objects st !! r = Some o → schema_get_hash o = Ok h.

(** [st'] has the objects and the cache entries of [st], and maybe more. *)
Record extends (st st' : Store) : Prop := {
  ext_objects : ∀ r o, objects st !! r = Some o → objects st' !! r = Some o;
  ext_cache : ∀ h r, dict_get (cache st) h = Some r → dict_get (cache st') h = Some r;
}.
#[export] Instance extends_preorder : PreOrder extends.
Proof.
  split; [by split|]. intros x y z [Ho1 Hc1] [Ho2 Hc2]. split; eauto.
Qed.

Lemma find_key_entry b name h : find_key b name = Some h → (name, h) ∈ entries b.
Proof.
  unfold find_key, entries. rewrite !elem_of_app.
  destruct (dict_get (nodes b) name) eqn:Hn; [intros [= ->]; left; by apply dict_get_Some_in|].
  destruct (dict_get (generics b) name) eqn:Hg; [intros [= ->]|intros Hp];
    right; [left|right]; by apply dict_get_Some_in.
Qed.

Lemma find_key_None b name : find_key b name = None ↔ name ∉ all_names b.
Proof.
  unfold find_key, all_names, node_names, generic_names, profile_names.
  rewrite !not_elem_of_app, <-!dict_get_None.
  destruct (dict_get (nodes b) name), (dict_get (generics b) name); naive_solver.
Qed.

(** In a well-formed branch a name is either unknown or resolves to an object. *)
Lemma find_spec s name :
  wf s →
  (find_key (branch s) name = None ∧ find s name = Err (not_found name)) ∨
  (∃ h r o, find_key (branch s) name = Some h ∧ dict_get (cache (store s)) h = Some r ∧
            objects (store s) !! r = Some o ∧ find_ref s name = Ok r ∧ find s name = Ok o).
Proof.
  intros [Hrefs Hent]. unfold find, find_ref. destruct (find_key (branch s) name) as [h|] eqn:Hk.
  - right. destruct (Hent _ _ (find_key_entry _ _ _ Hk)) as [Ht Hin]. rewrite Ht. cbn.
    apply dict_get_is_Some in Hin as [r Hr].
    destruct (lookup_lt_is_Some_2 (objects (store s)) r (Hrefs _ _ Hr)) as [o Ho].
    exists h, r, o. rewrite Hr. cbn. unfold deref. by rewrite Ho.
  - by left.
Qed.

Lemma find_ok_key s name o :
  wf s → find s name = Ok o → ∃ h r, find_key (branch s) name = Some h ∧
    dict_get (cache (store s)) h = Some r ∧ objects (store s) !! r = Some o.
Proof.
  intros Hwf Hf. destruct (find_spec s name Hwf) as [[_ Hn]|(h & r & o' & ? & ? & ? & _ & ?)];
    [congruence|]. exists h, r. split_and!; congruence.
Qed.

(** Lookups only depend on the digest of the name and the objects it reaches. *)
Lemma find_extends s s' name :
  wf s → extends (store s) (store s') →
  find_key (branch s') name = find_key (branch s) name → find s' name = find s name.
Proof.
  intros Hwf [Ho Hc] Hk.
  destruct (find_spec s name Hwf) as [[Hn ->]|(h & r & o & Hh & Hr & Hro & _ & ->)].
  - unfold find, find_ref. by rewrite Hk, Hn.
  - assert (truthy_str (Some h) = true) as Ht
      by (by apply (wf_entries _ Hwf name h), find_key_entry).
    unfold find, find_ref. rewrite Hk, Hh, Ht. cbn. rewrite (Hc _ _ Hr). cbn.
    unfold deref. by rewrite (Ho _ _ Hro).
Qed.

(** A loop of methods that only read is a loop over their results. *)
Lemma mapM_branch_reader {A B} (f : A → BranchM B) (g : A → result B) l s :
  (∀ x, f x s = (g x, s)) → mapM_branch f l s = (mapM g l, s).
Proof.
  intros Hf. induction l as [|x l IH]; [done|]. cbn. unfold mbind, exec_bind. rewrite Hf.
  destruct (g x); cbn; [|done]. rewrite IH. by destruct (mapM g l).
Qed.

(** *** The effect of [set] *)

Section set.
Context `{SetOrder}.

Definition add_object (st : Store) (h : string) (schema : MainSchema) : Store :=
  if dict_mem (cache st) h then st
  else mkStore (objects st ++ [schema]) (dict_set (cache st) h (length (objects st))).

Lemma set_eq name schema s :
  set name schema s =
  match schema_get_hash schema with
  | Ok h => (Ok h, mkBranchState (add_object (store s) h schema)
                     (set_name name (n_class schema) h (branch s)))
  | Err e => (Err e, s)
  end.
Proof. unfold set, lift, modify, mbind, exec_bind. by destruct (schema_get_hash schema). Qed.

Lemma schema_get_hash_truthy schema h : schema_get_hash schema = Ok h → truthy_str (Some h) = true.
Proof.
  unfold schema_get_hash. intros Hh. do 4 (apply bind_ok in Hh as (? & _ & Hh)).
  injection Hh as <-. match goal with |- context [md5_hexdigest ?t] =>
    by destruct (md5_hexdigest_nonempty t) as (c & u & ->) end.
Qed.

Lemma dict_mem_false {V} (d : list (string * V)) k : dict_mem d k = false ↔ dict_get d k = None.
Proof. unfold dict_mem. destruct (dict_get d k); cbn; naive_solver. Qed.

Lemma add_object_extends st h schema :
  (∀ h r, dict_get (cache st) h = Some r → r < length (objects st)) →
  extends st (add_object st h schema).
Proof.
  intros Hrefs. unfold add_object. destruct (dict_mem (cache st) h) eqn:Hm; [done|].
  apply dict_mem_false in Hm. split; cbn.
  - intros r o Ho. by apply lookup_app_l_Some.
  - intros h' r Hr. rewrite dict_get_set_ne; [done|]. intros ->. congruence.
Qed.

Lemma add_object_get st h schema : is_Some (dict_get (cache (add_object st h schema)) h).
Proof.
  unfold add_object. destruct (dict_mem (cache st) h) eqn:Hm.
  - unfold dict_mem in Hm. destruct (dict_get (cache st) h); [eauto|done].
  - cbn. rewrite dict_get_set_eq. eauto.
Qed.

Lemma entries_set_name name cls h b kv :
  kv ∈ entries (set_name name cls h b) → kv ∈ entries b ∨ kv = (name, h).
Proof.
  unfold entries. destruct cls; cbn; rewrite !elem_of_app;
    intros [Hk|[Hk|Hk]]; try (apply elem_of_dict_set in Hk as [Hk|Hk]); tauto.
Qed.

Lemma wf_grow s st' b' :
  wf s → extends (store s) st' →
  (∀ h r, dict_get (cache st') h = Some r → r < length (objects st')) →
  (∀ name h, (name, h) ∈ entries b' → (name, h) ∈ entries (branch s) ∨
     (truthy_str (Some h) = true ∧ is_Some (dict_get (cache st') h))) →
  wf (mkBranchState st' b').
Proof.
  intros [Hrefs Hent] [Ho Hc] Hr He. split; cbn; [done|].
  intros name h [Hin|[Ht Hin]]%He; [|by rewrite <-dict_get_is_Some].
  destruct (Hent _ _ Hin) as [Ht Hk]. split; [done|].
  apply dict_get_is_Some in Hk as [r Hk]. apply dict_get_is_Some. eauto.
Qed.

Lemma add_object_refs st h schema :
  (∀ h r, dict_get (cache st) h = Some r → r < length (objects st)) →
  ∀ h' r, dict_get (cache (add_object st h schema)) h' = Some r →
          r < length (objects (add_object st h schema)).
Proof.
  intros Hrefs h' r. unfold add_object. destruct (dict_mem (cache st) h); [apply Hrefs|]. cbn.
  rewrite dict_get_set, length_app. cbn. case_decide; [intros [= <-]; lia|].
  intros Hr%Hrefs. lia.
Qed.

Lemma set_wf name schema : keeps wf (set name schema).
Proof.
  intros s Hwf. rewrite set_eq. destruct (schema_get_hash schema) as [h|e] eqn:Hh; [|done]. cbn.
  apply (wf_grow s); [done|apply add_object_extends, Hwf|apply add_object_refs, Hwf|].
  intros n k [Hin|Hin]%entries_set_name; [by left|]. right. injection Hin as -> ->.
  split; [by eapply schema_get_hash_truthy|apply add_object_get].
Qed.

(** Where a name is looked up: a schema shadows the generics and profiles of
    the same name, and a generic the profiles. *)
Definition not_shadowed (b : SchemaBranch) (name : string) (cls : schema_class) : Prop :=
  match cls with
  | NodeSchema _ => True
  | GenericSchema _ => name ∉ node_names b
  | ProfileSchema _ => (name ∉ node_names b) ∧ (name ∉ generic_names b)
  end.
#[export] Instance not_shadowed_dec b name cls : Decision (not_shadowed b name cls).
Proof. destruct cls; apply _. Defined.

Lemma find_key_set_name name cls h b name' :
  find_key (set_name name cls h b) name' =
  if decide (name = name' ∧ not_shadowed b name cls) then Some h else find_key b name'.
Proof.
  unfold find_key, not_shadowed, node_names, generic_names.
  destruct cls; cbn; rewrite dict_get_set; destruct (decide (name = name')) as [<-|Hne].
  all: try (rewrite decide_False by tauto; done).
  - by rewrite decide_True.
  - destruct (decide (name = name ∧ _)) as [[_ D]|D].
    + apply dict_get_None in D. by rewrite D.
    + destruct (dict_get (nodes b) name) eqn:Hn; [done|]. destruct D. by rewrite <-dict_get_None.
  - destruct (decide (name = name ∧ _)) as [(_ & D1 & D2)|D].
    + apply dict_get_None in D1, D2. by rewrite D1, D2.
    + destruct (dict_get (nodes b) name) eqn:Hn; [done|].
      destruct (dict_get (generics b) name) eqn:Hg; [done|]. destruct D.
      by rewrite <-!dict_get_None.
Qed.

Lemma set_extends name schema s : wf s → extends (store s) (store (set name schema s).2).
Proof.
  intros Hwf. rewrite set_eq. destruct (schema_get_hash schema) as [h|]; [|done]. cbn.
  apply add_object_extends, Hwf.
Qed.

(** Lookups of the other names after a [set]. *)
Lemma set_find_other name schema s name' :
  wf s → name ≠ name' → find (set name schema s).2 name' = find s name'.
Proof.
  intros Hwf Hne. apply find_extends; [done|by apply set_extends|].
  rewrite set_eq. destruct (schema_get_hash schema); [|done]. cbn.
  rewrite find_key_set_name, decide_False; [done|naive_solver].
Qed.

Lemma set_coherent name schema s : wf s → coherent (store s) → coherent (store (set name schema s).2).
Proof.
  intros Hwf Hco. rewrite set_eq. destruct (schema_get_hash schema) as [h|] eqn:Hh; [|done]. cbn.
  unfold add_object. destruct (dict_mem (cache (store s)) h); [done|].
  intros h' r o. cbn. rewrite dict_get_set. destruct (decide (h = h')) as [<-|Hne].
  - intros [= <-]. rewrite lookup_app_r, Nat.sub_diag by lia. by intros [= <-].
  - intros Hr Ho. pose proof (wf_refs _ Hwf _ _ Hr). rewrite lookup_app_l in Ho by done. by eapply Hco.
Qed.

Lemma set_find_self name schema s h s' :
  wf s → set name schema s = (Ok h, s') → not_shadowed (branch s) name (n_class schema) →
  find_key (branch s') name = Some h ∧ schema_get_hash schema = Ok h ∧
  ∃ o, find s' name = Ok o ∧
       (if dict_mem (cache (store s)) h then True else o = schema).
Proof.
  intros Hwf Hset Hsh. pose proof (set_wf name schema s Hwf) as Hwf'.
  rewrite Hset in Hwf'. cbn in Hwf'. rewrite set_eq in Hset.
  destruct (schema_get_hash schema) as [h0|] eqn:Hh; [|done]. injection Hset as <- <-.
  assert (find_key (set_name name (n_class schema) h0 (branch s)) name = Some h0) as Hk.
  { rewrite find_key_set_name, decide_True; done. }
  split_and!; [done..|].
  destruct (find_spec _ name Hwf') as [[Hn _]|(k & r & o & Hk' & Hr & Ho & _ & Hf)]; cbn in *; [congruence|].
  exists o. split; [done|]. rewrite Hk in Hk'. injection Hk' as <-.
  unfold add_object in *. destruct (dict_mem (cache (store s)) h0); [done|].
  cbn in Hr, Ho. rewrite dict_get_set_eq in Hr. injection Hr as <-.
  rewrite lookup_app_r, Nat.sub_diag in Ho by lia. by injection Ho as <-.
Qed.
End set.

(** *** What the other operations keep *)

Lemma keeps_reader {S A} (I : S → Prop) (m : Exec S A) : (∀ s, (m s).2 = s) → keeps I m.
Proof. intros Hm s HI. by rewrite Hm. Qed.

Section keeps.
Context (I : BranchState → Prop).

Lemma keeps_get name : keeps I (get name).
Proof. by apply keeps_reader. Qed.
Lemma keeps_get_ref name : keeps I (get_ref name).
Proof. by apply keeps_reader. Qed.
Lemma keeps_read ref : keeps I (read ref).
Proof. by apply keeps_reader. Qed.
Lemma keeps_get_from b name : keeps I (get_from b name).
Proof. by apply keeps_reader. Qed.
#[local] Hint Resolve keeps_get keeps_get_ref keeps_read keeps_get_from : exec.

Lemma keeps_get_node name : keeps I (get_node name).
Proof. unfold get_node. keeps_auto. Qed.
Lemma keeps_get_generic name : keeps I (get_generic name).
Proof. unfold get_generic. keeps_auto. Qed.
Lemma keeps_on_not_found {A} (m h : BranchM A) : keeps I m → keeps I h → keeps I (on_not_found m h).
Proof. intros Hm Hh. apply keeps_catch; [done|]. intros [] m'; naive_solver. Qed.
Lemma keeps_has name : keeps I (has name).
Proof. unfold has. apply keeps_on_not_found; keeps_auto. Qed.
Lemma keeps_first_matching test names : keeps I (first_matching test names).
Proof. induction names as [|n names IH]; cbn; keeps_auto. Qed.
#[local] Hint Resolve keeps_first_matching : exec.
Lemma keeps_get_by_id id : keeps I (get_by_id id).
Proof. unfold get_by_id. keeps_auto. Qed.
Lemma keeps_mapM_branch {A B} (f : A → BranchM B) l :
  (∀ x, keeps I (f x)) → keeps I (mapM_branch f l).
Proof. intros Hf. induction l as [|x l IH]; cbn; keeps_auto. Qed.
End keeps.
#[export] Hint Resolve keeps_get keeps_get_ref keeps_read keeps_get_from keeps_get_node
  keeps_get_generic keeps_has keeps_get_by_id keeps_on_not_found keeps_mapM_branch : exec.

Section invariants.
Context `{SetOrder}.

(** The store of [s] has all that [st0] had. *)
Definition grown (st0 : Store) (s : BranchState) : Prop := wf s ∧ extends st0 (store s).

Lemma keeps_set_grown st0 name schema : keeps (grown st0) (set name schema).
Proof.
  intros s [Hwf Hext]. split; [by apply set_wf|]. etrans; [done|]. by apply set_extends.
Qed.

Lemma wf_delete_entries s b' :
  wf s → (∀ kv, kv ∈ entries b' → kv ∈ entries (branch s)) → wf (mkBranchState (store s) b').
Proof. intros [Hr He] Hsub. split; cbn; [done|]. intros n h Hin. by apply (He n), Hsub. Qed.

Lemma keeps_delete_grown st0 name : keeps (grown st0) (delete name).
Proof.
  unfold delete. keeps_step; [keeps_auto|]. repeat keeps_step.
  all: apply keeps_modify; intros s [Hwf Hext]; split; [|exact Hext].
  all: apply wf_delete_entries; [done|]; unfold entries; cbn; intros kv.
  all: rewrite !elem_of_app; intuition eauto using elem_of_dict_del.
Qed.

Lemma wf_same_entries s st' :
  wf s → length (objects (store s)) ≤ length (objects st') →
  cache st' = cache (store s) → wf (mkBranchState st' (branch s)).
Proof.
  intros [Hr He] Hlen Hc. split; cbn; rewrite Hc; [|done]. intros h r Hin%Hr. lia.
Qed.

Lemma keeps_mutate_wf ref f : keeps wf (mutate ref f).
Proof.
  unfold mutate. keeps_step; [keeps_auto|]. apply keeps_modify. intros s Hwf.
  apply (wf_same_entries s); cbn; [done|by rewrite length_insert|done].
Qed.

Lemma keeps_set_object_wf name ref : keeps wf (set_object name ref).
Proof.
  intros s Hwf. unfold set_object, read, lift, modify, mbind, exec_bind.
  unfold deref. destruct (objects (store s) !! ref) as [o|] eqn:Ho; [|done]. cbn.
  destruct (schema_get_hash o) as [h|] eqn:Hh; [|done]. cbn.
  assert (ref < length (objects (store s))) as Hlt by by eapply lookup_lt_Some.
  apply (wf_grow s); [done|..]; destruct (dict_mem (cache (store s)) h) eqn:Hm; cbn.
  - done.
  - split; cbn; [done|]. intros k r Hr. rewrite dict_get_set_ne; [done|]. intros ->.
    apply dict_mem_false in Hm. congruence.
  - apply Hwf.
  - intros k r. rewrite dict_get_set. case_decide; [intros [= <-]; done|apply Hwf].
  - intros n k [Hin|[= -> ->]]%entries_set_name; [by left|]. right.
    split; [by eapply schema_get_hash_truthy|].
    apply dict_mem_spec in Hm. by apply dict_get_is_Some.
  - intros n k [Hin|[= -> ->]]%entries_set_name; [by left|]. right.
    split; [by eapply schema_get_hash_truthy|]. rewrite dict_get_set_eq. eauto.
Qed.

Lemma keeps_grown_wf {A} (m : BranchM A) : (∀ st0, keeps (grown st0) m) → keeps wf m.
Proof. intros Hm s Hwf. by destruct (Hm (store s) s). Qed.
End invariants.
#[export] Hint Resolve keeps_set_grown keeps_delete_grown keeps_mutate_wf keeps_set_object_wf set_wf : exec.
Lemma keeps_delete_wf name : keeps wf (delete name).
Proof. apply keeps_grown_wf. intros st0. eauto with exec. Qed.
#[export] Hint Resolve keeps_delete_wf : exec.

Lemma keeps_load_schema `{SetOrder} st0 root : keeps (grown st0) (load_schema root).
Proof.
  unfold load_schema, load_item, load_existing, load_extension. keeps_auto.
  apply keeps_on_not_found; keeps_auto.
Qed.

Lemma keeps_branch_update `{SetOrder} st0 other : keeps (grown st0) (branch_update other).
Proof. unfold branch_update. keeps_auto. Qed.

Lemma grown_find st0 b s name :
  wf (mkBranchState st0 b) → grown st0 s →
  find (mkBranchState (store s) b) name = find (mkBranchState st0 b) name.
Proof. intros Hwf [_ Hext]. by apply find_extends. Qed.

(** ** Properties *)

(** After [set name schema] the name resolves to a schema with the digest of
    the one that was given (the given one itself when the digest was not cached),
    every other name resolves as before, and the branch stays well formed with
    every cached object under its own digest; provided no schema of a class that
    is looked up first has the same name. *)
Theorem set_then_get `{SetOrder} (name : string) (schema : MainSchema) (s s' : BranchState) (h : string)
    (Hwf : wf s) (Hco : coherent (store s)) (Hset : set name schema s = (Ok h, s'))
    (Hsh : not_shadowed (branch s) name (n_class schema)) :
  (∃ o, find s' name = Ok o ∧ schema_get_hash o = schema_get_hash schema ∧
        (dict_get (cache (store s)) h = None → o = schema)) ∧
  (∀ other, other ≠ name → find s' other = find s other) ∧
  wf s' ∧ coherent (store s').
Proof.
  destruct (set_find_self _ _ _ _ _ Hwf Hset Hsh) as (Hk & Hh & o & Ho & Hnew).
  assert (s' = (set name schema s).2) as -> by by rewrite Hset.
  pose proof (set_wf name schema s Hwf) as Hwf'. pose proof (set_coherent name schema s Hwf Hco) as Hco'.
  split_and!; [|by intros; apply set_find_other|done..].
  exists o. split_and!; [done| |].
  - destruct (find_ok_key _ _ _ Hwf' Ho) as (k & r & Hk' & Hr & Hro).
    rewrite Hh. rewrite Hk in Hk'. injection Hk' as <-. by eapply Hco'.
  - intros Hnone%dict_mem_false. by rewrite Hnone in Hnew.
Qed.

Definition empty_state : BranchState := mkBranchState (mkStore [] []) (new_branch (Some "main")).

Lemma empty_wf name : wf (mkBranchState (mkStore [] []) (new_branch name)).
Proof. split; [done|]. intros n k Hin. by apply elem_of_nil in Hin. Qed.
Lemma empty_coherent `{SetOrder} : coherent (mkStore [] []).
Proof. by intros h r o. Qed.

Lemma set_then_get_witness :
  let so := insertion_order in
  let node := new_node "Tag" "Builtin" in
  ∃ h, set "BuiltinTag" node empty_state = (Ok h, (set "BuiltinTag" node empty_state).2) ∧
       find (set "BuiltinTag" node empty_state).2 "BuiltinTag" = Ok node.
Proof.
  intros so node.
  assert (∃ h, schema_get_hash node = Ok h) as [h Hh] by (eexists; vm_compute; reflexivity).
  exists h.
  assert (set "BuiltinTag" node empty_state = (Ok h, (set "BuiltinTag" node empty_state).2)) as Hset
    by (rewrite set_eq, Hh; reflexivity).
  split; [exact Hset|].
  destruct (set_then_get "BuiltinTag" node empty_state _ h (empty_wf _) empty_coherent Hset I)
    as ((o & Ho & _ & Hnew) & _).
  rewrite Ho, (Hnew eq_refl). reflexivity.
Defined.

(** [set] does not replace a schema of another class with the same name: a
    generic or a profile stored under the name of a node is never returned by
    [get], which goes on returning the node. *)
Theorem set_shadowed `{SetOrder} (name : string) (schema : MainSchema) (s : BranchState)
    (Hwf : wf s) (Hsh : ¬ not_shadowed (branch s) name (n_class schema)) :
  ∀ other, find (set name schema s).2 other = find s other.
Proof.
  intros other. apply find_extends; [done|by apply set_extends|].
  rewrite set_eq. destruct (schema_get_hash schema); [|done]. cbn.
  rewrite find_key_set_name, decide_False; [done|tauto].
Qed.

Lemma set_shadowed_witness :
  let so := insertion_order in
  let s := (set "InfraDevice" (new_node "Device" "Infra") empty_state).2 in
  find (set "InfraDevice" (new_generic "Device" "Infra") s).2 "InfraDevice" =
  Ok (new_node "Device" "Infra").
Proof.
  intros so s.
  assert (wf s) as Hwf by (apply set_wf, empty_wf).
  assert (¬ not_shadowed (branch s) "InfraDevice" (n_class (new_generic "Device" "Infra"))) as Hsh.
  { apply (bool_decide_unpack _). vm_compute. exact I. }
  rewrite (set_shadowed "InfraDevice" (new_generic "Device" "Infra") s Hwf Hsh).
  vm_compute. reflexivity.
Defined.
