(* ===== verification/SchemaObjects.v ===== *)
(** * Schema branches as objects

    A [SchemaBranch] of [backend/infrahub/core/schema_manager.py] is a mutable object: its
    attributes [nodes], [generics] and [profiles] refer to dictionaries that [set], [delete]
    and the loading change in place, and two objects that refer to the same dictionary see
    each other's changes.  [SchemaStore] describes what a method does to the contents; here
    the dictionaries of the process are a heap, an object has the references of its three,
    and [duplicate] is what the code writes: [to_dict], [copy.deepcopy] (with its memo), and
    the constructor over the same cache. *)

From stdpp Require Import prelude strings gmap.
From S2P Require Import Prelude PyString PyDict SdkUtils Md5 Constants HashModel SchemaDefs.
From S2P Require Import NodeSchemaOps SchemaStore.

(** ** State *)

(** The names of a dictionary with their digests. *)
Abbreviation Names := (list (string * string)).

(** The process: the cache with its objects, and the dictionaries. *)
Record World := mkWorld {
  w_store : Store;
  w_dicts : list Names;
}.
#[export] Instance World_rebuild : Rebuild World := λ w, mkWorld (w_store w) (w_dicts w).

Record SchemaObject := mkSchemaObject {
  o_name : option string;
  o_nodes : nat;
  o_generics : nat;
  o_profiles : nat;
}.
Definition refs_of (o : SchemaObject) : list nat := [o_nodes o; o_generics o; o_profiles o].

(** The dictionary of a reference (a reference of an object is always allocated). *)
Definition dict_at (w : World) (ref : nat) : Names := default [] (w_dicts w !! ref).

(** The contents of an object. *)
Definition branch_of (w : World) (o : SchemaObject) : SchemaBranch :=
  mkSchemaBranch (o_name o) (dict_at w (o_nodes o)) (dict_at w (o_generics o)) (dict_at w (o_profiles o)).

(** What [get] finds for a name, by an object. *)
Definition resolve (w : World) (o : SchemaObject) (name : string) : result MainSchema :=
  find (mkBranchState (w_store w) (branch_of w o)) name.

(** ** Creation *)

(** A new dictionary, at the next reference. *)
Definition new_dict (d : Names) : Exec World nat := λ w,
  (Ok (length (w_dicts w)), w <| w_dicts := w_dicts w ++ [d] |>).

(** [data.get(key, {})] *)
Definition names_of (data : list (string * nat)) (key : string) : Exec World nat :=
  match dict_get data key with Some ref => mret ref | None => new_dict [] end.

(** [SchemaBranch.__init__] *)
Definition init (name : option string) (data : list (string * nat)) : Exec World SchemaObject :=
  nodes ← new_dict []; generics ← new_dict []; profiles ← new_dict [];
  if truthy_list (Some data) then
    nodes ← names_of data "nodes"; generics ← names_of data "generics"; profiles ← names_of data "profiles";
    mret (mkSchemaObject name nodes generics profiles)
  else mret (mkSchemaObject name nodes generics profiles).

Definition to_dict (o : SchemaObject) : list (string * nat) :=
  [("nodes", o_nodes o); ("generics", o_generics o); ("profiles", o_profiles o)].

(** [copy.deepcopy] of a dictionary of dictionaries of texts: a dictionary that was
    copied already is not copied again. *)
Fixpoint deepcopy (data : list (string * nat)) (memo : list (nat * nat)) : Exec World (list (string * nat)) :=
  match data with
  | [] => mret []
  | (key, ref) :: rest =>
      copied ← match dict_get memo ref with
               | Some copied => mret copied
               | None => λ w, new_dict (dict_at w ref) w
               end;
      copies ← deepcopy rest (dict_set memo ref copied);
      mret ((key, copied) :: copies)
  end.

Definition duplicate (name : option string) (o : SchemaObject) : Exec World SchemaObject :=
  data ← deepcopy (to_dict o) [];
  init name data.

(** ** Methods *)

(** A method called on an object: what it does to the contents happens in place, in the
    dictionaries of the object. *)
Definition on_object {A} (o : SchemaObject) (m : Exec BranchState A) : Exec World A := λ w,
  let '(r, s) := m (mkBranchState (w_store w) (branch_of w o)) in
  (r, mkWorld (store s)
        (<[o_profiles o := profiles (branch s)]> (<[o_generics o := generics (branch s)]>
           (<[o_nodes o := nodes (branch s)]> (w_dicts w))))).

(** The methods that change what an object contains. *)
Inductive Update :=
  | USet (name : string) (schema : MainSchema)
  | UDelete (name : string)
  | ULoadSchema (schema : SchemaRoot)
  | UUpdate (other : SchemaObject).

Section updates.
Context `{SetOrder}.

(** [update] reads the dictionaries of the other object. *)
Definition run_update (u : Update) (o : SchemaObject) : Exec World unit := λ w,
  match u with
  | USet name schema => on_object o (_ ← set name schema; mret tt) w
  | UDelete name => on_object o (delete name) w
  | ULoadSchema schema => on_object o (load_schema schema) w
  | UUpdate other => on_object o (branch_update (branch_of w other)) w
  end.

(** Calls one after the other; an error of one does not stop the next. *)
Definition run_updates (us : list Update) (o : SchemaObject) (w : World) : World :=
  foldl (λ w u, (run_update u o w).2) w us.
End updates.

(** ** Lemmas *)

(** The three dictionaries of an object are allocated and distinct. *)
Definition object_ok (w : World) (o : SchemaObject) : Prop :=
  NoDup (refs_of o) ∧ Forall (λ ref, ref < length (w_dicts w)) (refs_of o).
Definition state_of (w : World) (o : SchemaObject) : BranchState := mkBranchState (w_store w) (branch_of w o).

(** What an object contains depends on its dictionaries only. *)
Lemma branch_of_ext w w' o :
  (∀ ref, ref ∈ refs_of o → dict_at w' ref = dict_at w ref) → branch_of w' o = branch_of w o.
Proof.
  intros Hd. unfold branch_of. rewrite !Hd; [done|..]; unfold refs_of; set_solver.
Qed.

Lemma dict_at_insert_ne st l i d ref : ref ≠ i → dict_at (mkWorld st (<[i:=d]> l)) ref = dict_at (mkWorld st l) ref.
Proof. intros Hne. unfold dict_at. cbn. by rewrite list_lookup_insert_ne. Qed.
Lemma dict_at_insert_eq st l i d : i < length l → dict_at (mkWorld st (<[i:=d]> l)) i = d.
Proof. intros Hlt. unfold dict_at. cbn. by rewrite list_lookup_insert_eq. Qed.
Lemma dict_at_app w st d ref : ref < length (w_dicts w) → dict_at (mkWorld st (w_dicts w ++ d)) ref = dict_at w ref.
Proof. intros Hlt. unfold dict_at. cbn. by rewrite lookup_app_l. Qed.

(** Three assignments at distinct places. *)
Lemma dict_at_assigned st l i j k x y z :
  i ≠ j → i ≠ k → j ≠ k → i < length l → j < length l → k < length l →
  let w := mkWorld st (<[k:=z]> (<[j:=y]> (<[i:=x]> l))) in
  dict_at w i = x ∧ dict_at w j = y ∧ dict_at w k = z.
Proof.
  intros. unfold w. split_and!.
  - by rewrite !dict_at_insert_ne, dict_at_insert_eq by done.
  - by rewrite dict_at_insert_ne, dict_at_insert_eq by (try rewrite length_insert; done).
  - by rewrite dict_at_insert_eq by (rewrite !length_insert; done).
Qed.

(** A method changes the dictionaries of its object, and no other. *)
Lemma on_object_other {A} o o' (m : Exec BranchState A) w :
  (∀ ref, ref ∈ refs_of o → ref ∉ refs_of o') → branch_of (on_object o m w).2 o' = branch_of w o'.
Proof.
  intros Hdisj. apply branch_of_ext. intros ref Href. unfold on_object. destruct (m _) as [r s].
  assert (ref ≠ o_nodes o ∧ ref ≠ o_generics o ∧ ref ≠ o_profiles o) as (? & ? & ?).
  { split_and!; intros ->; eapply Hdisj; [|exact Href| |exact Href| |exact Href]; unfold refs_of; set_solver. }
  cbn. by rewrite !dict_at_insert_ne by done.
Qed.
Lemma on_object_self {A} o (m : Exec BranchState A) w :
  object_ok w o → branch_of (on_object o m w).2 o = (m (state_of w o)).2.(branch) <| sb_name := o_name o |>.
Proof.
  intros [Hnd Hlt]. unfold on_object. fold (state_of w o). destruct (m _) as [r s]. unfold refs_of in *.
  rewrite !NoDup_cons, !elem_of_cons in Hnd. rewrite !Forall_cons in Hlt. unfold branch_of. cbn.
  destruct (dict_at_assigned (store s) (w_dicts w) (o_nodes o) (o_generics o) (o_profiles o)
    (nodes (branch s)) (generics (branch s)) (profiles (branch s))) as (-> & -> & ->); [tauto..|].
  done.
Qed.
Lemma on_object_store {A} o (m : Exec BranchState A) w : w_store (on_object o m w).2 = store (m (state_of w o)).2.
Proof. unfold on_object. fold (state_of w o). by destruct (m _). Qed.
Lemma on_object_ok {A} o o' (m : Exec BranchState A) w : object_ok w o' → object_ok (on_object o m w).2 o'.
Proof.
  intros [Hnd Hlt]. split; [done|]. unfold on_object. destruct (m _) as [r s]. cbn. by rewrite !length_insert.
Qed.

Lemma wf_rename st b name : wf (mkBranchState st b) → wf (mkBranchState st (b <| sb_name := name |>)).
Proof. intros [Hr He]. by split. Qed.

Section isolation.
Context `{SetOrder}.

(** The invariant of a sequence of calls on [o], seen from [o']. *)
Definition apart (st0 : Store) (b' : SchemaBranch) (o o' : SchemaObject) (w : World) : Prop :=
  object_ok w o ∧ grown st0 (state_of w o) ∧ branch_of w o' = b'.

Lemma on_object_apart {A} st0 b' o o' (m : Exec BranchState A) w :
  (∀ ref, ref ∈ refs_of o → ref ∉ refs_of o') → keeps (grown st0) m → apart st0 b' o o' w → apart st0 b' o o' (on_object o m w).2.
Proof.
  intros Hdisj Hm (Hok & Hg & Hb). split_and!; [by apply on_object_ok| |by rewrite on_object_other].
  destruct (Hm _ Hg) as [Hwf Hext]. unfold state_of. rewrite on_object_store, on_object_self by done.
  split; [|done]. cbn. apply wf_rename. by destruct (m (state_of w o)).2.
Qed.

Lemma run_updates_apart st0 b' o o' us w :
  (∀ ref, ref ∈ refs_of o → ref ∉ refs_of o') → apart st0 b' o o' w → apart st0 b' o o' (run_updates us o w).
Proof.
  intros Hdisj. revert w. induction us as [|u us IH]; intros w Hw; [done|]. cbn. apply IH.
  destruct u; cbn; apply on_object_apart; try done.
  - keeps_auto.
  - apply keeps_delete_grown.
  - apply keeps_load_schema.
  - apply keeps_branch_update.
Qed.

(** Calls on [o] are not seen through [o']. *)
Lemma run_updates_other o o' us w :
  (∀ ref, ref ∈ refs_of o → ref ∉ refs_of o') → object_ok w o → wf (state_of w o) → wf (state_of w o') →
  branch_of (run_updates us o w) o' = branch_of w o' ∧
  ∀ name, resolve (run_updates us o w) o' name = resolve w o' name.
Proof.
  intros Hdisj Hok Hwf Hwf'.
  destruct (run_updates_apart (w_store w) (branch_of w o') o o' us w Hdisj) as (_ & [_ Hext] & Hb).
  { by split_and!. }
  split; [done|]. intros name. unfold resolve. apply find_extends; [done|done|]. cbn. by rewrite Hb.
Qed.

Lemma new_dict_run d st dicts : new_dict d (mkWorld st dicts) = (Ok (length dicts), mkWorld st (dicts ++ [d])).
Proof. done. Qed.

(** A dictionary that is not in the memo is copied at the next reference. *)
Lemma deepcopy_fresh key ref rest memo st dicts :
  dict_get memo ref = None →
  deepcopy ((key, ref) :: rest) memo (mkWorld st dicts) =
    (copies ← deepcopy rest (dict_set memo ref (length dicts)); mret ((key, length dicts) :: copies))
      (mkWorld st (dicts ++ [dict_at (mkWorld st dicts) ref])).
Proof. intros Hmemo. cbn [deepcopy]. by rewrite Hmemo. Qed.

Lemma deepcopy_run o st dicts :
  object_ok (mkWorld st dicts) o →
  let d := dict_at (mkWorld st dicts) in let n := length dicts in
  deepcopy (to_dict o) [] (mkWorld st dicts) =
    (Ok [("nodes", n); ("generics", S n); ("profiles", S (S n))],
     mkWorld st (dicts ++ [d (o_nodes o); d (o_generics o); d (o_profiles o)])).
Proof.
  intros [Hnd Hlt] d n. unfold refs_of in *. rewrite !NoDup_cons, !elem_of_cons in Hnd. rewrite !Forall_cons in Hlt.
  cbn [w_dicts] in Hlt. destruct Hlt as (? & ? & ? & _). unfold to_dict, mbind, exec_bind.
  rewrite deepcopy_fresh by done. unfold mbind, exec_bind.
  assert (o_nodes o ≠ o_generics o ∧ o_nodes o ≠ o_profiles o ∧ o_generics o ≠ o_profiles o) as (? & ? & ?) by tauto.
  rewrite deepcopy_fresh by (by rewrite dict_get_set_ne). unfold mbind, exec_bind.
  rewrite deepcopy_fresh by (by rewrite !dict_get_set_ne). unfold mbind, exec_bind.
  rewrite (dict_at_app (mkWorld st dicts)) by done.
  rewrite <-!app_assoc, (dict_at_app (mkWorld st dicts)) by done.
  cbn [deepcopy]. rewrite !length_app. cbn [length app]. fold n.
  by rewrite (Nat.add_comm n 1), (Nat.add_comm n (1 + 1)).
Qed.

(** The constructor takes the three dictionaries of [data] (and drops the new ones). *)
Lemma init_run name a b c st dicts :
  init name [("nodes", a); ("generics", b); ("profiles", c)] (mkWorld st dicts) =
    (Ok (mkSchemaObject name a b c), mkWorld st (dicts ++ [[]; []; []])).
Proof. unfold init, mbind, exec_bind. rewrite !new_dict_run, <-!app_assoc. done. Qed.

Lemma dict_at_middle st dicts new m x : new !! m = Some x → dict_at (mkWorld st (dicts ++ new)) (length dicts + m) = x.
Proof. intros Hx. unfold dict_at. cbn [w_dicts]. rewrite lookup_app_r by lia. replace (_ + m - _) with m by lia. by rewrite Hx. Qed.

(** [duplicate] makes new dictionaries, with the contents of those of the object. *)
Lemma duplicate_run name o w :
  object_ok w o →
  ∃ copy extra, let w1 := mkWorld (w_store w) (w_dicts w ++ extra) in
    duplicate name o w = (Ok copy, w1) ∧ object_ok w1 copy ∧ branch_of w1 copy = branch_duplicate name (branch_of w o) ∧
    Forall (λ ref, length (w_dicts w) ≤ ref) (refs_of copy).
Proof.
  intros Hok. destruct w as [st dicts]. set (d := dict_at (mkWorld st dicts)). set (n := length dicts).
  exists (mkSchemaObject name (n + 0) (n + 1) (n + 2)), [d (o_nodes o); d (o_generics o); d (o_profiles o); []; []; []].
  intros w1. split_and!.
  - unfold duplicate. rewrite (exec_step _ _ _ _ _ (deepcopy_run o st dicts Hok)), init_run, <-app_assoc.
    fold d n. cbn [app w_store w_dicts]. unfold w1. repeat f_equal; lia.
  - split; [unfold refs_of; cbn; repeat constructor; rewrite ?elem_of_cons, ?elem_of_nil; lia|].
    unfold refs_of, w1. cbn. rewrite length_app. cbn. fold n. repeat constructor; lia.
  - unfold branch_of. cbn [o_name o_nodes o_generics o_profiles]. unfold w1. cbn [w_store w_dicts].
    by erewrite !dict_at_middle by reflexivity.
  - unfold refs_of. cbn. repeat constructor; lia.
Qed.

(** C39: [duplicate] gives a branch object with the same contents over the same cache, and
    nothing else in common: whatever is then done to the copy (schemas set, deleted or
    loaded, updates from other branches, with or without an error) the original keeps its
    names, their digests, and what each name resolves to; and whatever is done to the
    original, the copy keeps what the original had. *)
Theorem duplicate_isolation (w : World) (o : SchemaObject) (name : option string)
    (Hok : object_ok w o) (Hwf : wf (state_of w o)) :
  ∃ copy w1, duplicate name o w = (Ok copy, w1) ∧ object_ok w1 copy ∧
    branch_of w1 copy = branch_duplicate name (branch_of w o) ∧
    (∀ us, let w2 := run_updates us copy w1 in
       branch_of w2 o = branch_of w o ∧ ∀ n, resolve w2 o n = resolve w o n) ∧
    (∀ us, let w2 := run_updates us o w1 in
       branch_of w2 copy = branch_of w1 copy ∧ ∀ n, resolve w2 copy n = resolve w o n).
Proof.
  destruct (duplicate_run name o w Hok) as (copy & extra & Hrun & Hok' & Hb & Hnew).
  set (w1 := mkWorld _ _) in *. exists copy, w1. split_and!; [done..| |].
  all: assert (branch_of w1 o = branch_of w o) as Ho by
    (apply branch_of_ext; intros ref Href; destruct w; apply (dict_at_app (mkWorld _ _)), (proj1 (Forall_forall _ _) (proj2 Hok) ref Href)).
  all: assert (∀ ref, ref ∈ refs_of copy → ref ∉ refs_of o) as Hdisj by
    (intros ref H1 H2; pose proof (proj1 (Forall_forall _ _) (proj2 Hok) ref H2);
     pose proof (proj1 (Forall_forall _ _) Hnew ref H1); cbn in *; lia).
  all: assert (wf (state_of w1 o)) as Hwf1 by (unfold state_of; rewrite Ho; apply Hwf).
  all: assert (wf (state_of w1 copy)) as Hwfc by (unfold state_of; rewrite Hb; split; apply Hwf).
  - intros us. destruct (run_updates_other copy o us w1) as [Hbr Hres]; [done..|]. split; [by rewrite Hbr|].
    intros n. rewrite Hres. unfold resolve. by rewrite Ho.
  - intros us. destruct (run_updates_other o copy us w1) as [Hbr Hres]; [by intros ? ? ?; eapply Hdisj|by destruct Hok; split; [|rewrite Forall_forall in *; cbn; setoid_rewrite length_app; intros; naive_solver lia]|done..|].
    split; [done|]. intros n. rewrite Hres. unfold resolve. by rewrite Hb.
Qed.
End isolation.

(** ** Example *)

(** The process starts with one branch, which has no schema. *)
Definition example_world : World := mkWorld (mkStore [] []) [[]; []; []].
Definition example_main : SchemaObject := mkSchemaObject (Some "main") 0 1 2.
#[local] Existing Instance insertion_order.
Definition example_load : list Update := [ULoadSchema (mkSchemaRoot [] [new_node "Tag" "Builtin"] [])].

(** A branch is duplicated, and a schema is loaded into the copy. *)
Lemma duplicate_isolation_witness :
  ∃ copy w1, duplicate (Some "b1") example_main example_world = (Ok copy, w1) ∧
    is_ok (resolve (run_updates example_load copy w1) copy "BuiltinTag") = true ∧
    resolve (run_updates example_load copy w1) example_main "BuiltinTag" = Err (not_found "BuiltinTag").
Proof.
  destruct (duplicate_isolation example_world example_main (Some "b1")) as (copy & w1 & Hrun & _ & _ & Hcopy & _).
  - split; [refine (bool_decide_eq_true_1 _ _); by vm_compute|]. repeat constructor; cbn; lia.
  - split; [done|]. intros ? ? []%elem_of_nil.
  - exists copy, w1. split; [done|]. destruct (Hcopy example_load) as [_ Hres]. rewrite (Hres "BuiltinTag").
    injection Hrun as <- <-. split; by vm_compute.
Defined.
