(* ===== verification/SchemaProcess.v ===== *)
(** * Processing the schemas of a branch

    The passes [SchemaBranch.process] runs before and after validation
    ([backend/infrahub/core/schema_manager.py]): identifiers, default values,
    cardinalities, inheritance, hierarchies, branch support, profiles, groups,
    filters, weights, labels, dropdowns, delete behaviour and human friendly ids.

    A pass that duplicates a schema, changes the copy and stores it is a function
    on schemas followed by [set].  The passes that assign to objects of the cache
    ([process_default_values], [add_profile_relationships], [process_dropdowns]
    and one branch of [process_human_friendly_id]) go through [mutate]. *)

From stdpp Require Import prelude strings gmap sorting.
From Stdlib Require Import Ascii.
From S2P Require Import Prelude PyString PyDict SdkUtils Constants HashModel SchemaDefs.
From S2P Require Import NodeSchemaOps SchemaStore.

(** ** Loops *)

(** [for name in self.nodes.keys(): ...]: the keys are those at the start, and an
    iteration that changed the number of keys makes the next step raise. *)
Fixpoint for_keys_loop (dict : SchemaBranch → list (string * string)) (size : nat)
    (f : string → BranchM unit) (keys : list string) : BranchM unit :=
  b ← gets branch;
  if (length (dict b) =? size)%nat then
    match keys with
    | [] => mret tt
    | name :: keys' => _ ← f name; for_keys_loop dict size f keys'
    end
  else raise (RuntimeError "dictionary changed size during iteration").
Definition for_keys (dict : SchemaBranch → list (string * string)) (f : string → BranchM unit) :
    BranchM unit :=
  b ← gets branch;
  for_keys_loop dict (length (dict b)) f (dict_keys (dict b)).

(** [for name in self.all_names: ...] *)
Definition for_all_names (f : string → BranchM unit) : BranchM unit :=
  b ← gets branch; for_each f (all_names b).

(** ** Node fields of a subclass *)

Definition node_part (s : MainSchema) : option NodePart :=
  match n_class s with NodeSchema p => Some p | _ => None end.
Definition set_node_part (s : MainSchema) (p : NodePart) : MainSchema :=
  s <| n_class := NodeSchema p |>.
(** [s.used_by], an attribute of generics only *)
Definition get_used_by (s : MainSchema) : result (list string) :=
  match n_class s with GenericSchema p => Ok (gp_used_by p) | _ => Err (AttributeError "used_by") end.
Definition set_used_by (s : MainSchema) (used_by : list string) : result MainSchema :=
  match n_class s with
  | GenericSchema p => Ok (s <| n_class := GenericSchema (p <| gp_used_by := used_by |>) |>)
  | _ => Err (ValueError "object has no field used_by")
  end.

(** Apply a change to the first element that passes a test. *)
Fixpoint update_first {A} (test : A → bool) (f : A → A) (l : list A) : list A :=
  match l with
  | [] => []
  | x :: l' => if test x then f x :: l' else x :: update_first test f l'
  end.

Section process.
Context `{SetOrder}.

(** A pass over all names that stores [f node] for the nodes that need it. *)
Definition map_schemas (needs : MainSchema → bool) (f : MainSchema → MainSchema) : BranchM unit :=
  for_all_names (λ name,
    node ← get name;
    if needs node then _ ← set name (f node); mret tt else mret tt).

(** ** [generate_identifiers] *)

Definition generated_identifier (node_kind peer : string) : string :=
  py_lower (py_join "__" (py_sorted [node_kind; peer])).
Definition identify_relationship (node_kind : string) (rel : RelationshipSchema) :
    RelationshipSchema :=
  if truthy_str (r_identifier rel) then rel
  else rel <| r_identifier := Some (generated_identifier node_kind (r_peer rel)) |>.
Definition misses_identifier (node : MainSchema) : bool :=
  existsb (λ rel, negb (opt_is_some (r_identifier rel))) (n_relationships node).
Definition identify_node (node : MainSchema) : MainSchema :=
  node <| n_relationships := identify_relationship (kind node) <$> n_relationships node |>.
Definition generate_identifiers : BranchM unit := map_schemas misses_identifier identify_node.

(** ** [process_default_values] *)

(** The attributes that are flagged belong to the cached object; the object that
    is stored is the copy taken before. *)
Definition flag_default (attr : AttributeSchema) : bool :=
  opt_is_some (a_default_value attr) && negb (a_optional attr).
Definition flag_defaults (node : MainSchema) : MainSchema :=
  node <| n_attributes :=
    (λ attr, if flag_default attr then attr <| a_optional := true |> else attr) <$> n_attributes node |>.
Definition process_default_values : BranchM unit :=
  for_all_names (λ name,
    ref ← get_ref name;
    node ← read ref;
    if existsb flag_default (n_attributes node) then
      _ ← mutate ref flag_defaults;
      _ ← set name node; mret tt
    else mret tt).

(** ** [process_cardinality_counts] *)

Definition cardinality_change (rel : RelationshipSchema) : bool :=
  bool_decide (r_cardinality rel = RelationshipCardinality.ONE) &&
  ((r_optional rel && negb (r_min_count rel =? 0)%Z) ||
   (r_optional rel && negb (r_max_count rel =? 1)%Z) ||
   (negb (r_optional rel) && (r_min_count rel =? 0)%Z) ||
   (negb (r_optional rel) && (r_max_count rel =? 0)%Z)).
Definition cardinality_counts (rel : RelationshipSchema) : RelationshipSchema :=
  match r_cardinality rel with
  | RelationshipCardinality.ONE =>
      let min_count := if r_optional rel then 0%Z
                       else if (r_min_count rel =? 0)%Z then 1%Z else r_min_count rel in
      let max_count := if r_optional rel then 1%Z
                       else if (r_max_count rel =? 0)%Z then 1%Z else r_max_count rel in
      rel <| r_min_count := min_count |> <| r_max_count := max_count |>
  | RelationshipCardinality.MANY => rel
  end.
Definition count_node (node : MainSchema) : MainSchema :=
  node <| n_relationships := cardinality_counts <$> n_relationships node |>.
Definition process_cardinality_counts : BranchM unit :=
  map_schemas (λ node, existsb cardinality_change (n_relationships node)) count_node.

(** ** [process_inheritance] *)

(** The inheritance of one node from its generics, in the order of
    [inherit_from]: the node, the generics that support hierarchies, and the
    uses of the generics so far. *)
Definition inherit_step (acc : MainSchema * list string * list (string * list string))
    (generic_kind : string) : BranchM (MainSchema * list string * list (string * list string)) :=
  let '(node, hierarchical, used_by) := acc in
  b ← gets branch;
  if decide (generic_kind ∈ generic_names b) then
    generic ← get_generic generic_kind;
    let hierarchical :=
      match n_class generic with
      | GenericSchema p => if gp_hierarchical p then hierarchical ++ [generic_kind] else hierarchical
      | _ => hierarchical
      end in
    _ ← lift (validate_inheritance node generic);
    let used_by := dict_append used_by generic_kind (kind node) in
    node ← lift (inherit_from_interface node generic);
    mret (node, hierarchical, used_by)
  else raise (ValueError (kind node +:+ " Unable to find the generic " +:+ generic_kind)).
Fixpoint inherit_steps (acc : MainSchema * list string * list (string * list string))
    (generic_kinds : list string) : BranchM (MainSchema * list string * list (string * list string)) :=
  match generic_kinds with
  | [] => mret acc
  | generic_kind :: rest => acc ← inherit_step acc generic_kind; inherit_steps acc rest
  end.

Definition inherit_node (name : string) (used_by : list (string * list string)) :
    BranchM (list (string * list string)) :=
  node ← get_node name;
  let from := inherit_from node in
  let used_by :=
    if truthy_list (Some from) || negb (bool_decide (n_namespace node ∈ RESTRICTED_NAMESPACES))
    then dict_append used_by InfrahubKind.NODE (kind node) else used_by in
  if truthy_list (Some from) then
    if bool_decide (InfrahubKind.IPPREFIX ∈ from) && bool_decide (InfrahubKind.IPADDRESS ∈ from) then
      raise (ValueError (kind node +:+ " cannot inherit from both " +:+ InfrahubKind.IPPREFIX
               +:+ " and " +:+ InfrahubKind.IPADDRESS))
    else
      '(node, hierarchical, used_by) ← inherit_steps (node, [], used_by) from;
      if (1 <? length hierarchical)%nat then
        raise (ValueError (kind node +:+ " Only one generic with hierarchical support is allowed per node"))
      else
        let node :=
          match node_part node, hierarchical with
          | Some p, [h] =>
              if opt_is_some (np_hierarchy p) then node
              else set_node_part node (p <| np_hierarchy := Some h |>)
          | _, _ => node
          end in
        _ ← set name node;
        mret used_by
  else mret used_by.

(** The loop over the nodes threads the uses of the generics. *)
Fixpoint inherit_loop (size : nat) (keys : list string) (used_by : list (string * list string)) :
    BranchM (list (string * list string)) :=
  b ← gets branch;
  if (length (nodes b) =? size)%nat then
    match keys with
    | [] => mret used_by
    | name :: keys' => used_by ← inherit_node name used_by; inherit_loop size keys' used_by
    end
  else raise (RuntimeError "dictionary changed size during iteration").

Definition process_inheritance : BranchM unit :=
  b ← gets branch;
  generics_used_by ← inherit_loop (length (nodes b)) (node_names b) [];
  for_keys generics (λ generic_name,
    generic ← get generic_name;
    generic ← lift (set_used_by generic (py_sorted (default [] (dict_get generics_used_by (kind generic)))));
    _ ← set generic_name generic; mret tt).

(** ** [process_hierarchy] *)

Definition known_kind (b : SchemaBranch) (name : string) : bool :=
  bool_decide (name ∈ node_names b ++ generic_names b).

(** The parent or children kind of a node in a hierarchy: the hierarchy itself
    when it is not given, a known kind otherwise. *)
Definition hierarchy_kind (b : SchemaBranch) (node_kind field hierarchy : string)
    (given : option string) : result (option string) :=
  match given with
  | None => Ok (Some hierarchy)
  | Some k =>
      if truthy_str given && negb (known_kind b k)
      then Err (ValueError (node_kind +:+ " Unable to find the node " +:+ k +:+ " provided in '" +:+ field +:+ "'."))
      else Ok given
  end.

Definition hierarchy_node (name : string) : BranchM unit :=
  node ← get_node name;
  b ← gets branch;
  match node_part node with
  | None => raise (AttributeError "hierarchy")
  | Some p =>
      if negb (truthy_str (np_hierarchy p)) && negb (truthy_str (np_parent p))
         && negb (truthy_str (np_children p)) then mret tt
      else if negb (truthy_str (np_hierarchy p))
              && (opt_is_some (np_parent p) || opt_is_some (np_children p)) then
        raise (ValueError (kind node +:+ " Hierarchy must be provided if either parent or children is defined."))
      else
        let hierarchy := default "" (np_hierarchy p) in
        if negb (bool_decide (hierarchy ∈ generic_names b)) then
          raise (ValueError (kind node +:+ " Unable to find the generic " +:+ hierarchy +:+ " provided in 'hierarchy'."))
        else
          let from := if decide (hierarchy ∈ np_inherit_from p) then np_inherit_from p
                      else np_inherit_from p ++ [hierarchy] in
          parent ← lift (hierarchy_kind b (kind node) "parent" hierarchy (np_parent p));
          children ← lift (hierarchy_kind b (kind node) "children" hierarchy (np_children p));
          let changed :=
            negb (bool_decide (hierarchy ∈ np_inherit_from p)) || negb (opt_is_some (np_parent p))
            || negb (opt_is_some (np_children p)) in
          if changed then
            _ ← set name (set_node_part node (p <| np_inherit_from := from |> <| np_parent := parent |>
                                                <| np_children := children |>));
            mret tt
          else mret tt
  end.
Definition process_hierarchy : BranchM unit := for_keys nodes hierarchy_node.

(** ** [process_branch_support] *)

Definition relationship_branch (node_branch peer_branch : BranchSupportType) : BranchSupportType :=
  if decide (node_branch = peer_branch) then node_branch
  else if bool_decide (BranchSupportType.LOCAL = node_branch)
          || bool_decide (BranchSupportType.LOCAL = peer_branch) then BranchSupportType.LOCAL
  else BranchSupportType.AWARE.
Definition branch_attribute (node_branch : BranchSupportType) (attr : AttributeSchema) :
    AttributeSchema :=
  if opt_is_some (a_branch attr) then attr else attr <| a_branch := Some node_branch |>.
Definition branch_relationship (node_branch : BranchSupportType) (rel : RelationshipSchema) :
    BranchM RelationshipSchema :=
  if opt_is_some (r_branch rel) then mret rel
  else
    peer_node ← get (r_peer rel);
    mret (rel <| r_branch := Some (relationship_branch node_branch (n_branch peer_node)) |>).
Definition misses_branch (node : MainSchema) : bool :=
  existsb (λ attr, negb (opt_is_some (a_branch attr))) (n_attributes node)
  || existsb (λ rel, negb (opt_is_some (r_branch rel))) (n_relationships node).
Definition process_branch_support : BranchM unit :=
  for_all_names (λ name,
    node ← get name;
    if misses_branch node then
      relationships ← mapM_branch (branch_relationship (n_branch node)) (n_relationships node);
      _ ← set name (node <| n_attributes := branch_attribute (n_branch node) <$> n_attributes node |>
                         <| n_relationships := relationships |>);
      mret tt
    else mret tt).
End process.

(** ** Profiles *)

Definition core_profile_schema_definition : MainSchema :=
  (new_generic "Profile" "Core")
    <| n_include_in_menu := Some false |> <| n_icon := Some "mdi:shape-plus-outline" |>
    <| n_description := Some "Base Profile in Infrahub." |> <| n_label := Some "Profile" |>
    <| n_display_labels := Some ["profile_name__value"] |>
    <| n_default_filter := Some "profile_name__value" |>
    <| n_attributes :=
         [(new_attribute "profile_name" "Text")
            <| a_min_length := Some 3%Z |> <| a_max_length := Some 32%Z |> <| a_unique := true |>;
          (new_attribute "profile_priority" "Number")
            <| a_default_value := Some (JInt 1000) |> <| a_optional := true |>] |>.

Definition _get_profile_kind (node_kind : string) : string := "Profile" +:+ node_kind.

(** The constraints on the name of a schema: a pattern, a length and no keyword. *)
Fixpoint str_forallb (p : ascii → bool) (s : string) : bool :=
  match s with EmptyString => true | String c s' => p c && str_forallb p s' end.
Definition valid_schema_name (name : string) : bool :=
  match name with
  | String c rest =>
      is_upper c && str_forallb (λ d, is_alpha d || is_digit d) rest
      && (2 <=? String.length name)%nat && (String.length name <=? 32)%nat
      && negb (bool_decide (name ∈ ["None"; "True"; "False"]))
  | EmptyString => false
  end.

(** [RelationshipSchema(name=..., identifier=..., peer=..., kind=..., branch=aware)] *)
Definition aware_relationship (name identifier peer : string) (rkind : RelationshipKind) :
    RelationshipSchema :=
  (new_relationship name peer)
    <| r_identifier := Some identifier |> <| r_kind := rkind |>
    <| r_branch := Some BranchSupportType.AWARE |>.

(** An attribute of the core profile, on the branch support of the node. *)
Definition profile_core_attribute (node : MainSchema) (attr : AttributeSchema) : AttributeSchema :=
  attr <| a_id := None |> <| a_inherited := false |> <| a_branch := Some (n_branch node) |>.
(** An attribute of the node as an optional attribute of its profile. *)
Definition profile_attribute (attr : AttributeSchema) : AttributeSchema :=
  attr <| a_id := None |> <| a_unique := false |> <| a_optional := true |>
       <| a_read_only := false |> <| a_default_value := None |> <| a_inherited := false |>.

Section profiles.
Context `{SetOrder}.

Definition generate_profile_from_node (node : MainSchema) : BranchM MainSchema :=
  core_profile_schema ← get InfrahubKind.PROFILE;
  core_name_attr ← lift (get_attribute core_profile_schema "profile_name");
  core_priority_attr ← lift (get_attribute core_profile_schema "profile_priority");
  if valid_schema_name (kind node) then
    mret ((new_schema (kind node) "Profile"
             (ProfileSchema {| pp_inherit_from :=
                [InfrahubKind.LINEAGESOURCE; InfrahubKind.PROFILE; InfrahubKind.NODE] |}))
      <| n_description := Some ("Profile for " +:+ kind node) |>
      <| n_branch := n_branch node |>
      <| n_include_in_menu := Some false |>
      <| n_display_labels := Some ["profile_name__value"] |>
      <| n_default_filter := Some "profile_name__value" |>
      <| n_relationships :=
           [aware_relationship "related_nodes" "node__profile" (kind node) RelationshipKind.PROFILE] |>
      <| n_attributes :=
           profile_core_attribute node core_name_attr ::
           profile_core_attribute node core_priority_attr ::
           (profile_attribute <$>
             filter (λ attr, negb (a_read_only attr) && a_optional attr) (n_attributes node)) |>)
  else raise (ValueError "validation error for ProfileSchema").

(** Whether a node has a profile schema. *)
Definition generates_profile (node : MainSchema) : bool :=
  negb (bool_decide (n_namespace node ∈ RESTRICTED_NAMESPACES))
  && match node_part node with Some p => np_generate_profile p | None => false end.

Definition profile_of_node (node_name : string) (profile_schema_kinds : list string) :
    BranchM (list string) :=
  node ← get_node node_name;
  if generates_profile node then
    profile ← generate_profile_from_node node;
    _ ← set (kind profile) profile;
    mret (if decide (kind profile ∈ profile_schema_kinds) then profile_schema_kinds
          else profile_schema_kinds ++ [kind profile])
  else
    _ ← on_not_found (delete (_get_profile_kind (kind node))) (mret tt);
    mret profile_schema_kinds.

Fixpoint profile_loop (size : nat) (keys : list string) (profile_schema_kinds : list string) :
    BranchM (list string) :=
  b ← gets branch;
  if (length (nodes b) =? size)%nat then
    match keys with
    | [] => mret profile_schema_kinds
    | name :: keys' =>
        kinds ← profile_of_node name profile_schema_kinds; profile_loop size keys' kinds
    end
  else raise (RuntimeError "dictionary changed size during iteration").

(** Record the profile kinds that a core generic does not list yet in its
    [used_by]; [merge] computes the new list. *)
Definition update_used_by (name : string) (merge : list string → list string)
    (profile_schema_kinds : list string) : BranchM unit :=
  core_schema ← get name;
  current_used_by ← lift (get_used_by core_schema);
  if truthy_list (Some (set_diff profile_schema_kinds current_used_by)) then
    updated ← lift (set_used_by core_schema (py_sorted (merge current_used_by)));
    _ ← set name updated; mret tt
  else mret tt.

Definition ensure_core_profile : BranchM unit :=
  known ← has InfrahubKind.PROFILE;
  if (known : bool) then mret tt
  else _ ← set (kind core_profile_schema_definition) core_profile_schema_definition; mret tt.

Definition manage_profile_schemas : BranchM unit :=
  _ ← ensure_core_profile;
  b ← gets branch;
  kinds ← profile_loop (length (nodes b)) (node_names b) [];
  if truthy_list (Some kinds) then
    _ ← update_used_by InfrahubKind.PROFILE (λ _, kinds) kinds;
    known ← has InfrahubKind.NODE;
    if (known : bool) then update_used_by InfrahubKind.NODE (λ current, py_set (kinds ++ current)) kinds
    else mret tt
  else mret tt.

(** [add_profile_relationships] changes the cached nodes themselves. *)
Definition profile_relationship (node : MainSchema) : MainSchema :=
  let has_relationship := existsb (λ rel, bool_decide (r_name rel = "profiles")) (n_relationships node) in
  let peer := _get_profile_kind (kind node) in
  if generates_profile node then
    if has_relationship then
      node <| n_relationships :=
        update_first (λ rel, bool_decide (r_name rel = "profiles")) (λ rel, rel <| r_peer := peer |>)
          (n_relationships node) |>
    else
      node <| n_relationships := n_relationships node ++
        [aware_relationship "profiles" "node__profile" peer RelationshipKind.PROFILE] |>
  else
    if has_relationship then
      node <| n_relationships := filter (λ rel, r_name rel ≠ "profiles") (n_relationships node) |>
    else node.
Definition add_profile_relationships : BranchM unit :=
  for_keys nodes (λ node_name,
    _ ← get_node node_name;
    ref ← get_ref node_name;
    mutate ref profile_relationship).
End profiles.

(** ** Groups and hierarchies *)

Definition add_missing_relationship (rel : RelationshipSchema) (schema : MainSchema) : MainSchema :=
  if decide (r_name rel ∈ relationship_names schema) then schema
  else schema <| n_relationships := n_relationships schema ++ [rel] |>.

Definition group_relationship (name identifier : string) : RelationshipSchema :=
  aware_relationship name identifier InfrahubKind.GENERICGROUP RelationshipKind.GROUP.
Definition add_group_relationships (schema : MainSchema) : MainSchema :=
  add_missing_relationship (group_relationship "subscriber_of_groups" "group_subscriber")
    (add_missing_relationship (group_relationship "member_of_groups" "group_member") schema).

(** The schemas without group relationships: groups, internal schemas, lineage. *)
Definition outside_groups (schema : MainSchema) : bool :=
  (is_node_schema schema && bool_decide (InfrahubKind.GENERICGROUP ∈ inherit_from schema))
  || bool_decide (kind schema ∈ INTERNAL_SCHEMA_NODE_KINDS)
  || bool_decide (kind schema = InfrahubKind.GENERICGROUP)
  || bool_decide (kind schema ∈ [InfrahubKind.LINEAGEOWNER; InfrahubKind.LINEAGESOURCE]).

Definition misses_groups (schema : MainSchema) : bool :=
  negb (bool_decide ("member_of_groups" ∈ relationship_names schema))
  || negb (bool_decide ("subscriber_of_groups" ∈ relationship_names schema)).

(** The two ends of a hierarchy. *)
Definition parent_relationship (peer : string) (hierarchical : option string) (read_only : bool) :
    RelationshipSchema :=
  (aware_relationship "parent" "parent__child" peer RelationshipKind.HIERARCHY)
    <| r_cardinality := RelationshipCardinality.ONE |> <| r_max_count := 1%Z |>
    <| r_direction := RelationshipDirection.OUTBOUND |> <| r_hierarchical := hierarchical |>
    <| r_read_only := read_only |>.
Definition children_relationship (peer : string) (hierarchical : option string) (read_only : bool) :
    RelationshipSchema :=
  (aware_relationship "children" "parent__child" peer RelationshipKind.HIERARCHY)
    <| r_direction := RelationshipDirection.INBOUND |> <| r_hierarchical := hierarchical |>
    <| r_read_only := read_only |>.

Definition hierarchical_generic (schema : MainSchema) : bool :=
  match n_class schema with GenericSchema p => gp_hierarchical p | _ => false end.
Definition add_generic_hierarchy (generic_name : string) (generic : MainSchema) : MainSchema :=
  let read_only := bool_decide (kind generic = InfrahubKind.IPPREFIX) in
  add_missing_relationship (children_relationship generic_name (Some generic_name) read_only)
    (add_missing_relationship (parent_relationship generic_name (Some generic_name) read_only) generic).
Definition add_node_hierarchy (p : NodePart) (node : MainSchema) : MainSchema :=
  let read_only := is_ip_prefix p in
  let node :=
    match np_parent p with
    | Some parent =>
        if truthy_str (np_parent p)
        then add_missing_relationship (parent_relationship parent (np_hierarchy p) read_only) node else node
    | None => node
    end in
  match np_children p with
  | Some children =>
      if truthy_str (np_children p)
      then add_missing_relationship (children_relationship children (np_hierarchy p) read_only) node else node
  | None => node
  end.

Section groups.
Context `{SetOrder}.

Definition add_groups : BranchM unit :=
  known ← has InfrahubKind.GENERICGROUP;
  if (known : bool) then
    map_schemas (λ schema, negb (outside_groups schema) && misses_groups schema) add_group_relationships
  else mret tt.

Definition add_hierarchy : BranchM unit :=
  _ ← for_keys generics (λ generic_name,
    generic ← get_generic generic_name;
    if hierarchical_generic generic then
      _ ← set generic_name (add_generic_hierarchy generic_name generic); mret tt
    else mret tt);
  for_keys nodes (λ node_name,
    node ← get_node node_name;
    match node_part node with
    | Some p =>
        if opt_is_some (np_parent p) || opt_is_some (np_children p) then
          _ ← set node_name (add_node_hierarchy p node); mret tt
        else mret tt
    | None => mret tt
    end).
End groups.

(** ** Filters *)

Definition KIND_FILTER_MAP : list (string * FilterSchemaKind) :=
  [("Text", FilterSchemaKind.TEXT); ("String", FilterSchemaKind.TEXT);
   ("Number", FilterSchemaKind.NUMBER); ("Integer", FilterSchemaKind.NUMBER);
   ("Boolean", FilterSchemaKind.BOOLEAN); ("Checkbox", FilterSchemaKind.BOOLEAN);
   ("Dropdown", FilterSchemaKind.TEXT)].
(** [FilterSchemaKind.LIST] has the value of [TEXT], which makes it an alias. *)
Definition FilterSchemaKind_LIST : FilterSchemaKind := FilterSchemaKind.TEXT.
Definition flag_properties : list string := ["is_visible"; "is_protected"].
Definition node_properties : list string := ["source"; "owner"].

Definition property_filters (prefix : string) : list FilterSchema :=
  ((λ flag_prop, new_filter (prefix +:+ "__" +:+ flag_prop) FilterSchemaKind.BOOLEAN) <$> flag_properties) ++
  ((λ node_prop, new_filter (prefix +:+ "__" +:+ node_prop +:+ "__id") FilterSchemaKind.TEXT) <$> node_properties).

(** The filters of one attribute, under the prefix of its owner. *)
Definition attribute_filters (prefix : string) (attr : AttributeSchema) : list FilterSchema :=
  match dict_get KIND_FILTER_MAP (a_kind attr) with
  | None => []
  | Some filter_kind =>
      let value := new_filter (prefix +:+ a_name attr +:+ "__value") filter_kind in
      let value := if truthy_list (a_enum attr) then value <| f_enum := a_enum attr |> else value in
      value :: new_filter (prefix +:+ a_name attr +:+ "__values") FilterSchemaKind_LIST
            :: property_filters (prefix +:+ a_name attr)
  end.

Definition generate_filters (schema : MainSchema) (include_relationships : bool) :
    BranchM (list FilterSchema) :=
  let own := new_filter "ids" FilterSchemaKind_LIST ::
             concat (attribute_filters "" <$> n_attributes schema) in
  if include_relationships then
    let any := new_filter "any__value" FilterSchemaKind.TEXT :: property_filters "any" in
    related ← mapM_branch (λ rel,
        peer_schema ← get (r_peer rel);
        mret ((new_filter (r_name rel +:+ "__ids") FilterSchemaKind_LIST) <| f_object_kind := Some (r_peer rel) |>
              :: concat (attribute_filters (r_name rel +:+ "__") <$> n_attributes peer_schema)))
      (filter (λ rel, r_kind rel ∈ [RelationshipKind.ATTRIBUTE; RelationshipKind.PARENT])
         (n_relationships schema));
    mret (own ++ any ++ concat related)
  else mret own.

Section filters.
Context `{SetOrder}.

Definition relationship_with_filters (rel : RelationshipSchema) : BranchM RelationshipSchema :=
  on_not_found
    (peer_schema ← get (r_peer rel);
     filters ← generate_filters peer_schema false;
     mret (rel <| r_filters := filters |>))
    (mret rel).
Definition process_filters : BranchM unit :=
  for_all_names (λ name,
    node ← get name;
    filters ← generate_filters node true;
    relationships ← mapM_branch relationship_with_filters (n_relationships node);
    _ ← set name (node <| n_filters := filters |> <| n_relationships := relationships |>);
    mret tt).
End filters.

(** ** Weights, labels, delete behaviour *)

(** [not item.order_weight]: missing or zero *)
Definition no_weight (w : option Z) : bool :=
  match w with Some z => (z =? 0)%Z | None => true end.
(** The weights of the items of a list that starts after [n] items. *)
Definition weigh {A} (weight : A → option Z) (assign_weight : Z → A → A) (n : nat) (l : list A) : list A :=
  (λ p, if no_weight (weight p.2) then assign_weight (1000 * Z.of_nat (S p.1))%Z p.2 else p.2)
    <$> zip (seq n (length l)) l.
Definition weigh_node (node : MainSchema) : MainSchema :=
  node <| n_attributes := weigh a_order_weight (λ w a, a <| a_order_weight := Some w |>) 0 (n_attributes node) |>
       <| n_relationships := weigh r_order_weight (λ w r, r <| r_order_weight := Some w |>)
                               (length (n_attributes node)) (n_relationships node) |>.
Definition misses_weight (node : MainSchema) : bool :=
  existsb (λ a, no_weight (a_order_weight a)) (n_attributes node)
  || existsb (λ r, no_weight (r_order_weight r)) (n_relationships node).

Definition label_or (label : option string) (name : string) : option string :=
  if truthy_str label then label else Some (format_label name).
Definition check_if_need_to_update_label (node : MainSchema) : bool :=
  negb (truthy_str (n_label node))
  || existsb (λ r, negb (truthy_str (r_label r))) (n_relationships node)
  || existsb (λ a, negb (truthy_str (a_label a))) (n_attributes node).
Definition label_node (node : MainSchema) : MainSchema :=
  node <| n_label := label_or (n_label node) (n_name node) |>
       <| n_attributes := (λ a, a <| a_label := label_or (a_label a) (a_name a) |>) <$> n_attributes node |>
       <| n_relationships := (λ r, r <| r_label := label_or (r_label r) (r_name r) |>) <$> n_relationships node |>.

Definition delete_behavior (rel : RelationshipSchema) : RelationshipDeleteBehavior :=
  if decide (r_kind rel = RelationshipKind.COMPONENT) then RelationshipDeleteBehavior.CASCADE
  else RelationshipDeleteBehavior.NO_ACTION.
(** [schema_to_update.get_relationship(name).on_delete = ...] for each relationship
    without a behaviour *)
Definition set_delete_behaviors (node : MainSchema) : MainSchema :=
  foldl (λ schema_to_update relationship,
      if opt_is_some (r_on_delete relationship) then schema_to_update
      else schema_to_update <| n_relationships :=
             update_first (λ r, bool_decide (r_name r = r_name relationship))
               (λ r, r <| r_on_delete := Some (delete_behavior relationship) |>)
               (n_relationships schema_to_update) |>)
    node (n_relationships node).

Section weights.
Context `{SetOrder}.
Definition generate_weight : BranchM unit := map_schemas misses_weight weigh_node.
Definition process_labels : BranchM unit := map_schemas check_if_need_to_update_label label_node.
Definition process_relationships : BranchM unit :=
  for_all_names (λ name,
    node ← get name;
    if existsb (λ rel, negb (opt_is_some (r_on_delete rel))) (n_relationships node) then
      _ ← set (kind node) (set_delete_behaviors node); mret tt
    else mret tt).
End weights.

(** ** Dropdowns *)

(** [sorted(choices, key=lambda x: x.name, reverse=True)]: descending and stable *)
Definition name_ge (x y : DropdownChoice) : Prop := py_le (c_name y) (c_name x).
#[export] Instance name_ge_dec : RelDecision name_ge.
Proof. intros x y. unfold name_ge. apply _. Defined.

(** The choices in order, with the colours in use threaded through. *)
Fixpoint complete_choices (defined_colors : list string) (choices : list DropdownChoice) :
    list DropdownChoice :=
  match choices with
  | [] => []
  | choice :: rest =>
      let '(choice', colors) :=
        if truthy_str (c_color choice) then (choice, defined_colors)
        else let '(color, colors) := select_color defined_colors in
             (choice <| c_color := Some color |>, colors) in
      let choice' := if truthy_str (c_label choice') then choice'
                     else choice' <| c_label := Some (format_label (c_name choice')) |> in
      let choice' := if truthy_str (c_description choice') then choice'
                     else choice' <| c_description := Some "" |> in
      choice' :: complete_choices colors rest
  end.

Definition dropdown_attribute (attr : AttributeSchema) : AttributeSchema :=
  if bool_decide (a_kind attr = "Dropdown") && truthy_list (a_choices attr) then
    let sorted_choices := merge_sort name_ge (default [] (a_choices attr)) in
    let defined_colors :=
      omap (λ c, if truthy_str (c_color c) then c_color c else None) sorted_choices in
    attr <| a_choices := Some (complete_choices defined_colors sorted_choices) |>
  else attr.

(** [attr.choices != sorted_choices] once the choices are completed: the order
    changed.  The completed choice of a name is the same object on both sides. *)
Definition choices_reordered (attr : AttributeSchema) : bool :=
  bool_decide (a_kind attr = "Dropdown") && truthy_list (a_choices attr)
  && negb (bool_decide (c_name <$> default [] (a_choices attr) =
                        c_name <$> merge_sort name_ge (default [] (a_choices attr)))).

Section dropdowns.
Context `{SetOrder}.

(** The completed choices belong to the cached object, and the schema that is
    stored is the copy taken before. *)
Definition process_dropdowns : BranchM unit :=
  for_all_names (λ name,
    ref ← get_ref name;
    node ← read ref;
    if existsb (λ attr, bool_decide (a_kind attr = "Dropdown")) (n_attributes node) then
      _ ← mutate ref (λ node, node <| n_attributes := dropdown_attribute <$> n_attributes node |>);
      if existsb choices_reordered (n_attributes node) then
        _ ← set name node; mret tt
      else mret tt
    else mret tt).
End dropdowns.

(** ** Human friendly ids *)

(** The constraint a human friendly id stands for. *)
Definition constraint_item (lookup : string → result MainSchema) (node : MainSchema) (item : string) :
    result (list string) :=
  path ← parse_schema_path node item (Some lookup);
  if is_type_attribute path then Ok [item]
  else if is_type_relationship path then
    Ok (match relationship_schema path with Some rel => [r_name rel] | None => [] end)
  else Ok [].

Section human_friendly_id.
Context `{SetOrder}.

Definition hfid_node (name : string) : BranchM unit :=
  ref ← get_ref name;
  node ← read ref;
  match unique_attributes node with
  | attr :: _ =>
      if truthy_list (n_human_friendly_id node) then mret tt
      else
        _ ← set (kind node) (node <| n_human_friendly_id := Some [a_name attr +:+ "__value"] |>);
        mret tt
  | [] =>
      if truthy_list (n_human_friendly_id node) && negb (truthy_list (n_uniqueness_constraints node)) then
        s ← get_state;
        items ← lift (mapM (constraint_item (find s) node) (default [] (n_human_friendly_id node)));
        _ ← mutate ref (λ node, node <| n_uniqueness_constraints := Some [concat items] |>);
        _ ← set_object (kind node) ref;
        mret tt
      else mret tt
  end.
Definition process_human_friendly_id : BranchM unit :=
  b ← gets branch; for_each hfid_node (generic_names b ++ node_names b).
End human_friendly_id.

(** ** What a pass over all names does *)

(** Every schema is stored in the dictionary of its class, so that [set] under its
    name replaces it. *)
Definition classes_ok (s : BranchState) : Prop :=
  ∀ name node, find s name = Ok node → not_shadowed (branch s) name (n_class node).

Definition same_class (x y : schema_class) : Prop :=
  match x, y with
  | NodeSchema _, NodeSchema _ | GenericSchema _, GenericSchema _ | ProfileSchema _, ProfileSchema _ => True
  | _, _ => False
  end.
Lemma same_class_refl x : same_class x x.
Proof. by destruct x. Qed.
Lemma not_shadowed_same_class b name x y : same_class x y → not_shadowed b name x → not_shadowed b name y.
Proof. by destruct x, y. Qed.

Lemma dict_keys_set_ne {V} (d : list (string * V)) k k' v :
  k ≠ k' → k' ∈ dict_keys (dict_set d k v) ↔ k' ∈ dict_keys d.
Proof. intros Hne. rewrite dict_keys_set. case_decide; set_solver. Qed.

Lemma not_shadowed_set_name name name' cls cls' h b :
  name ≠ name' → not_shadowed (set_name name cls h b) name' cls' ↔ not_shadowed b name' cls'.
Proof.
  intros Hne. unfold not_shadowed, node_names, generic_names.
  destruct cls, cls'; cbn; rewrite ?(dict_keys_set_ne _ name name') by done; done.
Qed.

Section map_schemas.
Context `{SetOrder} (needs : MainSchema → bool) (f : MainSchema → MainSchema).
Context (Hf : ∀ node, same_class (n_class node) (n_class (f node))).

(** The outcome of the pass for one name: the digest of the changed schema, or
    the schema as it was. *)
Definition mapped (s s' : BranchState) (name : string) : Prop :=
  ∃ node, find s name = Ok node ∧
    if needs node
    then ∃ h, schema_get_hash (f node) = Ok h ∧ find_key (branch s') name = Some h
    else find s' name = Ok node ∧ find_key (branch s') name = find_key (branch s) name.

Definition map_progress (s : BranchState) (seen : list string) (s1 : BranchState) : Prop :=
  wf s1 ∧ (∀ name, name ∈ seen → mapped s s1 name) ∧
  (∀ name, name ∉ seen → find s1 name = find s name ∧
     find_key (branch s1) name = find_key (branch s) name ∧
     ∀ cls, not_shadowed (branch s1) name cls ↔ not_shadowed (branch s) name cls).

(** A step on a new name. *)
Lemma map_step s seen name s1 :
  classes_ok s → name ∉ seen → map_progress s seen s1 →
  wp (node ← get name; if needs node then _ ← set name (f node); mret tt else mret tt)
    (λ r s', match r with Ok _ => map_progress s (seen ++ [name]) s' | Err _ => wf s' end) s1.
Proof.
  intros Hcls Hnew (Hwf & Hseen & Hrest). destruct (Hrest name Hnew) as (Hfind & Hkey & Hshadow).
  apply wp_bind. unfold wp, get; cbn. destruct (find s1 name) as [node|e] eqn:Hn; [|done].
  symmetry in Hfind. assert (not_shadowed (branch s1) name (n_class (f node))) as Hns.
  { apply (not_shadowed_same_class _ _ _ _ (Hf node)), Hshadow, Hcls. congruence. }
  destruct (needs node) eqn:Hneeds.
  - unfold mbind, exec_bind. destruct (set name (f node) s1) as [[h|e] s2] eqn:Hset; cbn;
      pose proof (set_wf name (f node) s1 Hwf) as Hwf2; rewrite Hset in Hwf2; [|exact Hwf2].
    destruct (set_find_self _ _ _ _ _ Hwf Hset Hns) as (Hk2 & Hh & _).
    assert (s2 = (set name (f node) s1).2) as Hs2 by by rewrite Hset.
    assert (∀ x, x ≠ name → find s2 x = find s1 x ∧ find_key (branch s2) x = find_key (branch s1) x ∧
      ∀ cls, not_shadowed (branch s2) x cls ↔ not_shadowed (branch s1) x cls) as Hother.
    { intros x Hx. split; [rewrite Hs2; by apply set_find_other|].
      rewrite set_eq, Hh in Hset. injection Hset as <-. cbn. split.
      - rewrite find_key_set_name, decide_False; [done|]. intros [? _]. congruence.
      - intros cls. by apply not_shadowed_set_name. }
    split_and!; [done|..].
    + intros x. rewrite elem_of_app, list_elem_of_singleton. intros [Hx| ->].
      * destruct (Hother x) as (H1 & H2 & _); [set_solver|].
        destruct (Hseen x Hx) as (nx & Hnx & Hout). exists nx. split; [done|].
        destruct (needs nx); rewrite ?H1, ?H2; done.
      * exists node. rewrite Hneeds. eauto.
    + intros x. rewrite elem_of_app, list_elem_of_singleton. intros Hx.
      destruct (Hother x) as (-> & -> & H3); [naive_solver|].
      destruct (Hrest x) as (? & ? & H6); [naive_solver|]. split_and!; [done..|].
      intros cls. by rewrite H3, H6.
  - split_and!; [done|..].
    + intros x. rewrite elem_of_app, list_elem_of_singleton. intros [Hx| ->]; [by apply Hseen|].
      exists node. rewrite Hneeds. done.
    + intros x. rewrite elem_of_app, list_elem_of_singleton. intros Hx. apply Hrest. naive_solver.
Qed.

Lemma map_schemas_spec s s' :
  wf s → classes_ok s → NoDup (all_names (branch s)) →
  map_schemas needs f s = (Ok tt, s') →
  wf s' ∧ ∀ name, name ∈ all_names (branch s) → mapped s s' name.
Proof.
  intros Hwf Hcls Hnd Hmap.
  assert (wp (map_schemas needs f)
    (λ r s', match r with Ok _ => map_progress s (all_names (branch s)) s' | Err _ => wf s' end) s) as Hwp.
  { unfold map_schemas, for_all_names. apply wp_bind, wp_gets.
    apply (wp_for_each (map_progress s) (λ _, wf)).
    - intros seen x todo s1 Hl. apply map_step; [done|].
      rewrite Hl in Hnd. apply NoDup_app in Hnd as (_ & Hdis & _). intros Hx. apply (Hdis _ Hx). left.
    - split_and!; [done|set_solver|done]. }
  unfold wp in Hwp. rewrite Hmap in Hwp. destruct Hwp as (Hwf' & Hall & _). done.
Qed.
End map_schemas.

(** A branch as the passes find it: well formed, each schema in the dictionary of
    its class, and no name twice. *)
Record ready (s : BranchState) : Prop := {
  ready_wf : wf s;
  ready_classes : classes_ok s;
  ready_names : NoDup (all_names (branch s));
}.

(** The name resolves to the given schema, or to one with the same digest. *)
Definition stored `{SetOrder} (s : BranchState) (name : string) (schema : MainSchema) : Prop :=
  find s name = Ok schema ∨
  ∃ h, schema_get_hash schema = Ok h ∧ find_key (branch s) name = Some h.

Lemma map_schemas_stored `{SetOrder} needs f s s' name :
  (∀ node, same_class (n_class node) (n_class (f node))) →
  ready s → map_schemas needs f s = (Ok tt, s') → name ∈ all_names (branch s) →
  ∃ node, find s name = Ok node ∧ stored s' name (if needs node then f node else node).
Proof.
  intros Hf [Hwf Hcls Hnd] Hmap Hname.
  destruct (map_schemas_spec needs f Hf s s' Hwf Hcls Hnd Hmap) as [_ Hall].
  destruct (Hall name Hname) as (node & Hnode & Hout). exists node. split; [done|].
  unfold stored. destruct (needs node); [right|left]; naive_solver.
Qed.

Lemma empty_ready name : ready (mkBranchState (mkStore [] []) (new_branch name)).
Proof. split; [apply empty_wf|by intros n x|apply NoDup_nil_2]. Qed.

Lemma all_names_set_name name cls h b :
  name ∉ all_names b →
  all_names (set_name name cls h b) ≡ₚ name :: all_names b.
Proof.
  unfold all_names, node_names, generic_names, profile_names. rewrite !not_elem_of_app.
  intros (H1 & H2 & H3). destruct cls; cbn; rewrite dict_keys_set, decide_False by done; solve_Permutation.
Qed.

(** Storing a new schema under a new name. *)
Lemma ready_set `{SetOrder} name schema s h s' :
  ready s → name ∉ all_names (branch s) → dict_get (cache (store s)) h = None →
  set name schema s = (Ok h, s') → ready s' ∧ find s' name = Ok schema.
Proof.
  intros [Hwf Hcls Hnd] Hname Hnew Hset.
  assert (not_shadowed (branch s) name (n_class schema)) as Hns.
  { unfold all_names in Hname. rewrite !not_elem_of_app in Hname. destruct (n_class schema); cbn; tauto. }
  destruct (set_find_self _ _ _ _ _ Hwf Hset Hns) as (Hk & Hh & o & Ho & Hif).
  rewrite (proj2 (dict_mem_false _ _) Hnew) in Hif. subst o.
  assert (s' = (set name schema s).2) as Hs' by by rewrite Hset.
  assert (branch s' = set_name name (n_class schema) h (branch s)) as Hb.
  { rewrite Hs', set_eq, Hh. done. }
  split; [|done]. split.
  - rewrite Hs'. by apply set_wf.
  - intros x node Hx. rewrite Hb. destruct (decide (name = x)) as [<-|Hne].
    + rewrite Ho in Hx. injection Hx as <-. rewrite Hb in Hk.
      destruct (n_class schema); cbn in *; try tauto; unfold node_names, generic_names in *; tauto.
    + rewrite not_shadowed_set_name by done. apply Hcls. rewrite <-Hx, Hs'. symmetry. by apply set_find_other.
  - rewrite Hb, all_names_set_name by done. by constructor.
Qed.

(** ** Lemmas on the schemas the passes store *)

Lemma cardinality_counts_id rel : cardinality_change rel = false → cardinality_counts rel = rel.
Proof.
  unfold cardinality_change, cardinality_counts. destruct rel. cbn.
  destruct r_cardinality; [|done]. rewrite bool_decide_eq_true_2 by done. cbn [andb].
  destruct r_optional; cbn.
  - rewrite !orb_false_r, orb_false_iff, !negb_false_iff, !Z.eqb_eq. by intros [-> ->].
  - rewrite orb_false_iff. by intros [-> ->].
Qed.

Lemma existsb_false_elem {A} (p : A → bool) (l : list A) x : existsb p l = false → x ∈ l → p x = false.
Proof.
  rewrite <-!not_true_iff_false, existsb_exists. intros Hl Hx Hp. apply Hl. exists x.
  by rewrite <-list_elem_of_In.
Qed.

Lemma fmap_id_on {A} (g : A → A) (l : list A) : (∀ x, x ∈ l → g x = x) → g <$> l = l.
Proof.
  induction l as [|x l IH]; intros Hg; [done|]. rewrite fmap_cons, (Hg x), IH; [done| |left].
  intros y Hy. apply Hg. by right.
Qed.

(** The counts of a relationship of cardinality one. *)
Definition counts_ok (rel : RelationshipSchema) : Prop :=
  r_cardinality rel = RelationshipCardinality.ONE →
  if r_optional rel then r_min_count rel = 0%Z ∧ r_max_count rel = 1%Z
  else r_min_count rel ≠ 0%Z ∧ r_max_count rel ≠ 0%Z.

Lemma cardinality_counts_ok rel : counts_ok (cardinality_counts rel).
Proof.
  unfold counts_ok, cardinality_counts. destruct rel. cbn.
  destruct r_cardinality, r_optional; cbn; try done. intros _.
  destruct (Z.eqb_spec r_min_count 0), (Z.eqb_spec r_max_count 0); lia.
Qed.

(** ** Properties *)

(** Once [process_cardinality_counts] has returned, every name resolves (up to
    its digest) to its schema with the same relationships, in which a relationship
    of cardinality one has the counts 0 and 1 when it is optional and non-zero
    counts when it is mandatory, and a relationship of cardinality many is as it
    was. *)
Theorem process_cardinality_counts_spec `{SetOrder} (s s' : BranchState) (name : string)
    (Hready : ready s) (Hrun : process_cardinality_counts s = (Ok tt, s'))
    (Hname : name ∈ all_names (branch s)) :
  ∃ node node', find s name = Ok node ∧ stored s' name node' ∧
    n_relationships node' = cardinality_counts <$> n_relationships node ∧
    (∀ rel, rel ∈ n_relationships node' → counts_ok rel) ∧
    (∀ rel, rel ∈ n_relationships node → r_cardinality rel = RelationshipCardinality.MANY →
       cardinality_counts rel = rel).
Proof.
  destruct (map_schemas_stored (λ node, existsb cardinality_change (n_relationships node)) count_node
    s s' name (λ node, same_class_refl (n_class node)) Hready Hrun Hname) as (node & Hnode & Hst).
  assert (n_relationships (if existsb cardinality_change (n_relationships node) then count_node node else node)
          = cardinality_counts <$> n_relationships node) as Hrels.
  { destruct (existsb _ _) eqn:Hex; [done|]. symmetry. apply fmap_id_on. intros rel Hrel.
    apply cardinality_counts_id. by eapply existsb_false_elem. }
  eexists node, _. split_and!; [done|exact Hst|done|..].
  - rewrite Hrels. intros rel (r & -> & _)%list_elem_of_fmap. apply cardinality_counts_ok.
  - intros rel _ Hmany. unfold cardinality_counts. by rewrite Hmany.
Qed.

(** A branch with one node, for the examples below. *)
Definition router : MainSchema :=
  (new_node "Router" "Infra")
    <| n_attributes := [new_attribute "name" "Text"] |>
    <| n_relationships :=
         [(new_relationship "site" "InfraSite") <| r_cardinality := RelationshipCardinality.ONE |>] |>.
Definition router_state `{SetOrder} : BranchState := (set "InfraRouter" router empty_state).2.

Lemma router_ready : let so := insertion_order in
  ready router_state ∧ find router_state "InfraRouter" = Ok router ∧
  "InfraRouter" ∈ all_names (branch router_state).
Proof.
  intros so. assert (∃ h, schema_get_hash router = Ok h) as [h Hh] by (eexists; vm_compute; reflexivity).
  assert (set "InfraRouter" router empty_state = (Ok h, router_state)) as Hset.
  { unfold router_state. rewrite set_eq, Hh. reflexivity. }
  destruct (ready_set _ _ _ _ _ (empty_ready _) ltac:(apply not_elem_of_nil) ltac:(reflexivity) Hset)
    as [Hr Hf].
  split_and!; [done..|]. apply elem_of_app. left. unfold router_state. rewrite set_eq, Hh. left.
Qed.

Lemma process_cardinality_counts_spec_witness :
  let so := insertion_order in
  ∃ s', process_cardinality_counts router_state = (Ok tt, s') ∧
  ∃ node', stored s' "InfraRouter" node' ∧ ∀ rel, rel ∈ n_relationships node' → counts_ok rel.
Proof.
  intros so. destruct router_ready as (Hready & Hfind & Hin).
  assert ((process_cardinality_counts router_state).1 = Ok tt) as Hok by (vm_compute; reflexivity).
  exists (process_cardinality_counts router_state).2.
  assert (process_cardinality_counts router_state = (Ok tt, (process_cardinality_counts router_state).2))
    as Hrun by (rewrite <-Hok; apply surjective_pairing).
  split; [exact Hrun|].
  destruct (process_cardinality_counts_spec _ _ "InfraRouter" Hready Hrun Hin)
    as (node & node' & _ & Hst & _ & Hc & _).
  exists node'. split; [exact Hst|exact Hc].
Defined.

(** the identifier generated for a relationship does not depend on the side it
    is defined on, and once [generate_identifiers] has returned every name resolves
    (up to its digest) to its schema, in which the relationships that had no
    identifier have the generated one and the others are as they were. *)
Theorem generate_identifiers_spec `{SetOrder} (s s' : BranchState) (name : string)
    (Hready : ready s) (Hrun : generate_identifiers s = (Ok tt, s'))
    (Hname : name ∈ all_names (branch s)) :
  (∀ k1 k2, generated_identifier k1 k2 = generated_identifier k2 k1) ∧
  ∃ node node', find s name = Ok node ∧ stored s' name node' ∧
    Forall2 (λ rel rel', rel' = rel ∧ r_identifier rel ≠ None ∨
               rel' = rel <| r_identifier := Some (generated_identifier (kind node) (r_peer rel)) |> ∧
               truthy_str (r_identifier rel) = false)
      (n_relationships node) (n_relationships node').
Proof.
  split.
  { intros k1 k2. unfold generated_identifier. do 2 f_equal. apply py_sorted_proper. constructor. }
  destruct (map_schemas_stored misses_identifier identify_node
    s s' name (λ node, same_class_refl (n_class node)) Hready Hrun Hname) as (node & Hnode & Hst).
  eexists node, _. split_and!; [done|exact Hst|]. destruct (misses_identifier node) eqn:Hm.
  - apply Forall2_fmap_r, Forall_Forall2_diag, Forall_forall. intros rel _.
    unfold compose, identify_relationship.
    destruct (truthy_str (r_identifier rel)) eqn:Ht; [left|by right].
    split; [done|]. intros He. by rewrite He in Ht.
  - apply Forall_Forall2_diag, Forall_forall. intros rel Hrel. left. split; [done|].
    intros He. apply (existsb_false_elem _ _ _ Hm) in Hrel. by rewrite He in Hrel.
Qed.

Lemma generate_identifiers_spec_witness :
  let so := insertion_order in
  ∃ s', generate_identifiers router_state = (Ok tt, s') ∧
  ∃ node', stored s' "InfraRouter" node' ∧
    r_identifier <$> n_relationships node' = [Some "infrarouter__infrasite"].
Proof.
  intros so. destruct router_ready as (Hready & Hfind & Hin).
  assert ((generate_identifiers router_state).1 = Ok tt) as Hok by (vm_compute; reflexivity).
  exists (generate_identifiers router_state).2.
  assert (generate_identifiers router_state = (Ok tt, (generate_identifiers router_state).2))
    as Hrun by (rewrite <-Hok; apply surjective_pairing).
  split; [exact Hrun|].
  destruct (generate_identifiers_spec _ _ "InfraRouter" Hready Hrun Hin) as (_ & node & node' & Hn & Hst & Hrel).
  exists node'. split; [exact Hst|]. rewrite Hfind in Hn. injection Hn as <-.
  cbn in Hrel. apply Forall2_cons_inv_l in Hrel as (rel' & l & Hr & Hl & Heq).
  apply Forall2_nil_inv_l in Hl as ->. rewrite Heq.
  destruct Hr as [[_ Hr]|[-> _]]; [destruct (Hr eq_refl)|vm_compute; reflexivity].
Defined.

Lemma weigh_lookup {A} (weight : A → option Z) (assign_weight : Z → A → A) n l i :
  (∀ w x, weight (assign_weight w x) = Some w) →
  (weight <$> weigh weight assign_weight n l) !! i =
  (λ w, if no_weight w then Some (1000 * Z.of_nat (S (n + i)))%Z else w) <$> (weight <$> l) !! i.
Proof.
  intros Hw. unfold weigh. rewrite !list_lookup_fmap, lookup_zip_with.
  destruct (l !! i) as [x|] eqn:Hx; cbn.
  - rewrite lookup_seq_lt by by eapply lookup_lt_Some. cbn.
    destruct (no_weight (weight x)) eqn:Hn; by rewrite ?Hw, ?Hn.
  - by destruct (seq n (length l) !! i).
Qed.

(** The weights of the attributes, then of the relationships. *)
Definition weights (node : MainSchema) : list (option Z) :=
  (a_order_weight <$> n_attributes node) ++ (r_order_weight <$> n_relationships node).

Lemma length_weigh {A} weight (assign_weight : Z → A → A) n l :
  length (weigh weight assign_weight n l) = length l.
Proof. unfold weigh. rewrite length_fmap, length_zip_with, length_seq. lia. Qed.

Lemma weigh_node_weights node i :
  weights (weigh_node node) !! i =
  (λ w, if no_weight w then Some (1000 * Z.of_nat (S i))%Z else w) <$> weights node !! i.
Proof.
  unfold weights, weigh_node. cbn. destruct (decide (i < length (n_attributes node))) as [Hi|Hi].
  - rewrite !lookup_app_l by (rewrite length_fmap, ?length_weigh; done).
    by rewrite weigh_lookup by by intros.
  - rewrite !lookup_app_r by (rewrite length_fmap, ?length_weigh; lia).
    rewrite !length_fmap, length_weigh, weigh_lookup by by intros.
    by replace (length (n_attributes node) + (i - length (n_attributes node))) with i by lia.
Qed.

(** once [generate_weight] has returned, every name resolves (up to its
    digest) to its schema with the weights of the attributes and relationships
    completed: a weight that was set stays, and the item at position [i], from 0,
    that had none has [1000 * (i + 1)]. *)
Theorem generate_weight_spec `{SetOrder} (s s' : BranchState) (name : string)
    (Hready : ready s) (Hrun : generate_weight s = (Ok tt, s'))
    (Hname : name ∈ all_names (branch s)) :
  ∃ node node', find s name = Ok node ∧ stored s' name node' ∧
    ∀ i, weights node' !! i =
         (λ w, if no_weight w then Some (1000 * Z.of_nat (S i))%Z else w) <$> weights node !! i.
Proof.
  destruct (map_schemas_stored misses_weight weigh_node
    s s' name (λ node, same_class_refl (n_class node)) Hready Hrun Hname) as (node & Hnode & Hst).
  eexists node, _. split_and!; [done|exact Hst|]. intros i.
  destruct (misses_weight node) eqn:Hm; [apply weigh_node_weights|].
  apply orb_false_iff in Hm as [Ha Hr].
  destruct (weights node !! i) as [w|] eqn:Hw; [|done]. cbn.
  assert (no_weight w = false) as ->; [|done].
  apply list_elem_of_lookup_2, elem_of_app in Hw as [Hw|Hw];
    apply list_elem_of_fmap in Hw as (x & -> & Hx).
  - by apply (existsb_false_elem _ _ _ Ha).
  - by apply (existsb_false_elem _ _ _ Hr).
Qed.

Lemma generate_weight_spec_witness :
  let so := insertion_order in
  ∃ s', generate_weight router_state = (Ok tt, s') ∧
  ∃ node', stored s' "InfraRouter" node' ∧ weights node' !! 1 = Some (Some 2000%Z).
Proof.
  intros so. destruct router_ready as (Hready & Hfind & Hin).
  assert ((generate_weight router_state).1 = Ok tt) as Hok by (vm_compute; reflexivity).
  exists (generate_weight router_state).2.
  assert (generate_weight router_state = (Ok tt, (generate_weight router_state).2))
    as Hrun by (rewrite <-Hok; apply surjective_pairing).
  split; [exact Hrun|].
  destruct (generate_weight_spec _ _ "InfraRouter" Hready Hrun Hin) as (node & node' & Hn & Hst & Hw).
  exists node'. split; [exact Hst|]. rewrite Hw. rewrite Hfind in Hn. injection Hn as <-. reflexivity.
Defined.

(** The first entry of a coherent cache. *)
Lemma coherent_first `{SetOrder} st :
  coherent st →
  match cache st with
  | (h, r) :: _ => match objects st !! r with Some o => bool_decide (schema_get_hash o = Ok h) | None => true end
  | [] => true
  end = true.
Proof.
  intros Hco. destruct (cache st) as [|[h r] c] eqn:Hc; [done|].
  destruct (objects st !! r) as [o|] eqn:Ho; [|done]. apply bool_decide_eq_true, (Hco h r o); [|done].
  rewrite Hc. cbn. by rewrite decide_True.
Qed.

(** [process_default_values] on a copy of a branch changes the schemas of the
    original: the attribute it flags as optional belongs to the object both
    branches share, and the cached object no longer has the digest it is cached
    under. *)
Theorem process_default_values_leak :
  let so := insertion_order in
  ∃ (s : BranchState) (name : string),
    let copy := mkBranchState (store s) (branch_duplicate (Some "copy") (branch s)) in
    let after := mkBranchState (store (process_default_values copy).2) (branch s) in
    (process_default_values copy).1 = Ok tt ∧
    (λ node, a_optional <$> n_attributes node) <$> find s name = Ok [false] ∧
    (λ node, a_optional <$> n_attributes node) <$> find after name = Ok [true] ∧
    find_key (branch after) name = find_key (branch s) name ∧
    ¬ coherent (store after).
Proof.
  intros so.
  exists (set "InfraRouter"
            (router <| n_attributes := [(new_attribute "mtu" "Number") <| a_default_value := Some (JInt 1500) |>] |>)
            empty_state).2, "InfraRouter".
  split_and!; [vm_compute; reflexivity..|]. intros Hco.
  apply coherent_first in Hco. vm_compute in Hco. discriminate Hco.
Qed.
