(* ===== verification/SchemaValidate.v ===== *)
(** * Validating the schemas of a branch

    The checks [SchemaBranch.process_validate] runs on all schemas
    ([backend/infrahub/core/schema_manager.py]), and [SchemaBranch.process], the
    composition of the passes.  A check raises [ValueError]; only
    [validate_display_labels] also writes, into the cached object. *)

From stdpp Require Import prelude strings gmap.
From S2P Require Import Prelude PyString PyDict SdkUtils TopologicalSort Constants HashModel.
From S2P Require Import SchemaDefs NodeSchemaOps SchemaStore SchemaProcess.

(** ** Names, kinds and counts *)

Definition reserved_name (node : MainSchema) (name : string) : bool :=
  bool_decide (name ∈ RESERVED_ATTR_REL_NAMES)
  || (is_generic_schema node && bool_decide (name ∈ RESERVED_ATTR_GEN_NAMES)).

Definition check_names (node : MainSchema) : result unit :=
  _ ← raise_if (truthy_list (Some (duplicates (Some <$> (attribute_names node ++ relationship_names node)))))
        (ValueError (kind node +:+ ": Names of attributes and relationships must be unique"));
  if decide (kind node ∈ INTERNAL_SCHEMA_NODE_KINDS) then Ok tt
  else
    _ ← for_all (λ attr, raise_if (reserved_name node (a_name attr))
          (ValueError (kind node +:+ ": " +:+ a_name attr +:+ " isn't allowed as an attribute name.")))
          (n_attributes node);
    for_all (λ rel, raise_if (reserved_name node (r_name rel))
          (ValueError (kind node +:+ ": " +:+ r_name rel +:+ " isn't allowed as a relationship name.")))
          (n_relationships node).

Definition check_counts (node : MainSchema) : result unit :=
  for_all (λ rel,
      match r_cardinality rel with
      | RelationshipCardinality.ONE =>
          raise_if (negb (r_optional rel)
                    && (negb (r_min_count rel =? 1)%Z || negb (r_max_count rel =? 1)%Z))
            (ValueError (kind node +:+ ": Relationship " +:+ r_name rel
               +:+ " is defined as cardinality.ONE but min_count or max_count are not 1"))
      | RelationshipCardinality.MANY =>
          _ ← raise_if (negb (r_max_count rel =? 0)%Z && (r_max_count rel <? r_min_count rel)%Z)
                (ValueError (kind node +:+ ": Relationship " +:+ r_name rel
                   +:+ " min_count must be lower than max_count"));
          raise_if (r_max_count rel =? 1)%Z
            (ValueError (kind node +:+ ": Relationship " +:+ r_name rel
               +:+ " max_count must be 0 or greater than 1 when cardinality is MANY"))
      end) (n_relationships node).

(** A check run on the schemas of all names. *)
Definition check_all (check : MainSchema → result unit) : BranchM unit :=
  for_all_names (λ name, node ← get name; lift (check node)).

Definition validate_names : BranchM unit := check_all check_names.
Definition validate_count_against_cardinality : BranchM unit := check_all check_counts.

Definition check_generic_kind (node : MainSchema) (generic_kind : string) : BranchM unit :=
  known ← has generic_kind;
  if (known : bool) then
    generic ← get generic_kind;
    lift (raise_if (negb (is_generic_schema generic))
      (ValueError (kind node +:+ ": Only generic model can be used as part of inherit_from, "
         +:+ generic_kind +:+ " is not a valid entry.")))
  else raise (ValueError (kind node +:+ ": " +:+ generic_kind +:+ " is not a invalid Generic to inherit from")).
Definition check_peer (node : MainSchema) (rel : RelationshipSchema) : BranchM unit :=
  if decide (r_peer rel = InfrahubKind.GENERICGROUP) then mret tt
  else
    known ← has (r_peer rel);
    if (known : bool) then mret tt
    else raise (ValueError (kind node +:+ ": Relationship " +:+ r_name rel
           +:+ " is referencing an invalid peer " +:+ r_peer rel)).
Definition validate_kinds : BranchM unit :=
  b ← gets branch;
  for_each (λ name,
      node ← get_node name;
      _ ← for_each (check_generic_kind node) (inherit_from node);
      for_each (check_peer node) (n_relationships node))
    (node_names b).

(** ** Menu placements *)

(** The placements seen so far are threaded through the loop. *)
Definition place_node (name : string) (menu_placements : list (string * string)) :
    BranchM (list (string * string)) :=
  node ← get name;
  if truthy_str (n_menu_placement node) then
    let placement := default "" (n_menu_placement node) in
    placement_node ← on_not_found (get placement)
      (raise (ValueError (kind node +:+ ": " +:+ placement +:+ " is not a valid menu placement")));
    if py_eqb node placement_node then
      raise (ValueError (kind node +:+ ": cannot be placed under itself in the menu"))
    else if decide (dict_get menu_placements (kind placement_node) = Some (kind node)) then
      raise (ValueError (kind node +:+ ": cyclic menu placement with " +:+ kind placement_node))
    else mret (dict_set menu_placements (kind node) (kind placement_node))
  else mret menu_placements.
Fixpoint place_nodes (names : list string) (menu_placements : list (string * string)) : BranchM unit :=
  match names with
  | [] => mret tt
  | name :: rest => placements ← place_node name menu_placements; place_nodes rest placements
  end.
Definition validate_menu_placements : BranchM unit :=
  b ← gets branch; place_nodes (node_names b ++ generic_names b) [].

(** ** Relationship identifiers *)

(** The relationships by identifier, then by kind, in the order they are met. *)
Definition identifier_map : Type := list (option string * list (string * list RelationshipSchema)).
Definition add_identifier (name : string) (m : identifier_map) (rel : RelationshipSchema) : identifier_map :=
  dict_set m (r_identifier rel) (dict_append (default [] (dict_get m (r_identifier rel))) name rel).

Definition direction_value (rel : RelationshipSchema) : string := enum_value (r_direction rel).
Definition bidir (rel : RelationshipSchema) : bool :=
  bool_decide (r_direction rel = RelationshipDirection.BIDIR).

(** [sorted([d1, d2]) in valid_options] *)
Definition valid_direction_pair (d1 d2 : RelationshipDirection) : bool :=
  bool_decide (py_sorted [enum_value d1; enum_value d2] ∈
               [["bidirectional"; "bidirectional"]; ["inbound"; "outbound"]]).

Definition check_kind_identifier (rels_per_kind : list (string * list RelationshipSchema))
    (entry : string * list RelationshipSchema) : result unit :=
  let '(node_kind, rels) := entry in
  let directions := py_sorted (direction_value <$> rels) in
  _ ← raise_if (negb ((length rels =? 1)%nat
                      || ((length rels =? 2)%nat && bool_decide (directions = ["inbound"; "outbound"]))))
        (ValueError (node_kind +:+ ": Identifier of relationships must be unique for a given direction"));
  if (length rels_per_kind =? 1)%nat then Ok tt
  else
    match rels with
    | [rel] =>
        match dict_get rels_per_kind (r_peer rel) with
        | Some [peer_rel] =>
            raise_if (negb (valid_direction_pair (r_direction peer_rel) (r_direction rel)))
              (ValueError ("Incompatible direction detected on Reverse Relationship for " +:+ r_name rel))
        | _ => Ok tt
        end
    | [_; _] =>
        for_all (λ rel,
            match dict_get rels_per_kind (r_peer rel) with
            | Some [peer_rel] => raise_if (bidir peer_rel)
                (ValueError ("Incompatible direction detected on Reverse Relationship for " +:+ r_name rel))
            | _ => Ok tt
            end) rels
    | _ => Ok tt
    end.

Definition validate_identifiers : BranchM unit :=
  b ← gets branch;
  schemas ← mapM_branch (λ name, node ← get name; mret (name, node)) (all_names b);
  let rels_per_identifier :=
    foldl (λ m item, foldl (add_identifier item.1) m (n_relationships item.2)) [] schemas in
  lift (for_all (λ entry, for_all (check_kind_identifier entry.2) entry.2) rels_per_identifier).

(** ** Schema paths *)

Definition validate_schema_path (s : BranchState) (node_schema : MainSchema) (path : string)
    (allowed_path_types : Z) (element_name : string) : result SchemaAttributePath :=
  let error_header := kind node_schema +:+ "." +:+ element_name in
  let allows := SchemaElementPathType.meets allowed_path_types in
  p ← (match parse_schema_path node_schema path (Some (find s)) with
       | Err (AttributePathParsingError msg) => Err (ValueError (error_header +:+ ": " +:+ msg))
       | r => r
       end);
  _ ← raise_if (negb (allows SchemaElementPathType.ATTR) && is_type_attribute p)
        (ValueError (error_header +:+ ": this property only supports relationships not attributes"));
  _ ← raise_if (negb (allows SchemaElementPathType.ALL_RELS) && is_type_relationship p)
        (ValueError (error_header +:+ ": this property only supports attributes, not relationships"));
  match relationship_schema p with
  | Some rel =>
      if is_type_relationship p then
        _ ← raise_if (bool_decide (r_cardinality rel = RelationshipCardinality.ONE)
                      && negb (allows SchemaElementPathType.REL_ONE))
              (ValueError (error_header +:+ ": cannot use " +:+ r_name rel
                 +:+ " relationship, relationship must be of cardinality many"));
        _ ← raise_if (bool_decide (r_cardinality rel = RelationshipCardinality.MANY)
                      && negb (allows SchemaElementPathType.REL_MANY))
              (ValueError (error_header +:+ ": cannot use " +:+ r_name rel
                 +:+ " relationship, relationship must be of cardinality one"));
        _ ← raise_if (has_property p && negb (allows SchemaElementPathType.RELS_ATTR))
              (ValueError (error_header +:+ ": cannot use attributes of related node, only the relationship"));
        _ ← raise_if (negb (has_property p) && negb (allows SchemaElementPathType.RELS_NO_ATTR))
              (ValueError (error_header +:+ ": Must use attributes of related node"));
        Ok p
      else Ok p
  | None => Ok p
  end.

(** An optional relationship is only accepted when it is the IP namespace of a
    node: the test of the node's kind refers to the method [is_ip_prefix] without
    calling it, which is true of every node. *)
Definition optional_relationship_refused (node_schema : MainSchema) (p : SchemaAttributePath) : bool :=
  match relationship_schema p with
  | Some rel =>
      is_type_relationship p && r_optional rel
      && negb (bool_decide (r_name rel = "ip_namespace") && is_node_schema node_schema)
  | None => false
  end.

Definition check_uniqueness (s : BranchState) (node_schema : MainSchema) : result unit :=
  for_all (for_all (λ constraint_path,
      p ← validate_schema_path s node_schema constraint_path
            (Z.lor SchemaElementPathType.ATTR SchemaElementPathType.REL_ONE_NO_ATTR) "uniqueness_constraints";
      raise_if (optional_relationship_refused node_schema p)
        (ValueError ("Only mandatory relation of cardinality one can be used in uniqueness_constraints ("
           +:+ constraint_path +:+ ")"))))
    (default [] (n_uniqueness_constraints node_schema)).

(** A check that looks at other schemas of the branch. *)
Definition check_all_in (check : BranchState → MainSchema → result unit) : BranchM unit :=
  for_all_names (λ name, node ← get name; s ← get_state; lift (check s node)).

Definition validate_uniqueness_constraints : BranchM unit := check_all_in check_uniqueness.

Definition check_order_by (s : BranchState) (node_schema : MainSchema) : result unit :=
  for_all (λ path,
      _ ← validate_schema_path s node_schema path
            (Z.lor SchemaElementPathType.ATTR SchemaElementPathType.REL_ONE) "order_by"; Ok tt)
    (default [] (n_order_by node_schema)).
Definition validate_order_by : BranchM unit := check_all_in check_order_by.

Definition check_default_filter (s : BranchState) (node_schema : MainSchema) : result unit :=
  if truthy_str (n_default_filter node_schema) then
    _ ← validate_schema_path s node_schema (default "" (n_default_filter node_schema))
          SchemaElementPathType.ATTR "default_filter"; Ok tt
  else Ok tt.
Definition validate_default_filters : BranchM unit := check_all_in check_default_filter.

(** [validate_display_labels]: a node without labels takes those of its only
    generic that has some, in the cached object. *)
Definition display_labels_node (name : string) : BranchM unit :=
  ref ← get_ref name;
  node_schema ← read ref;
  s ← get_state;
  if truthy_list (n_display_labels node_schema) then
    lift (for_all (λ path,
        _ ← validate_schema_path s node_schema path SchemaElementPathType.ATTR "display_labels"; Ok tt)
      (default [] (n_display_labels node_schema)))
  else if is_node_schema node_schema then
    generics ← mapM_branch get (inherit_from node_schema);
    match filter (λ labels, truthy_list labels) (n_display_labels <$> generics) with
    | [labels] => mutate ref (λ node, node <| n_display_labels := labels |>)
    | _ => mret tt
    end
  else mret tt.
Definition validate_display_labels : BranchM unit := for_all_names display_labels_node.

Definition check_human_friendly_id (s : BranchState) (node_schema : MainSchema) : result unit :=
  if truthy_list (n_human_friendly_id node_schema) then
    uniques ← mapM (λ item,
        p ← validate_schema_path s node_schema item
              (Z.lor SchemaElementPathType.ATTR SchemaElementPathType.REL_ONE_ATTR) "human_friendly_id";
        attribute ← require (AttributeError "unique") (attribute_schema p);
        _ ← raise_if (optional_relationship_refused node_schema p)
              (ValueError ("Only mandatory relationship of cardinality one can be used in human_friendly_id ("
                 +:+ item +:+ ")"));
        Ok (a_unique attribute))
      (default [] (n_human_friendly_id node_schema));
    raise_if (negb (existsb id uniques))
      (ValueError ("At least one attribute must be unique in the human_friendly_id for " +:+ kind node_schema))
  else Ok tt.
Definition validate_human_friendly_id : BranchM unit :=
  b ← gets branch;
  for_each (λ name, node ← get name; s ← get_state; lift (check_human_friendly_id s node))
    (generic_names b ++ node_names b).

(** ** Parents and components *)

(** [dependency_map[parent].add(component)] *)
Definition add_dependency (m : list (string * list string)) (dep : string * string) :
    list (string * list string) :=
  let current := default [] (dict_get m dep.1) in
  dict_set m dep.1 (if decide (dep.2 ∈ current) then current else current ++ [dep.2]).

Definition _validate_parents_one_schema (node_schema : MainSchema)
    (parent_relationships : list RelationshipSchema) : result unit :=
  match parent_relationships with
  | [] => Ok tt
  | [parent] =>
      _ ← raise_if (negb (bool_decide (r_cardinality parent = RelationshipCardinality.ONE)))
            (ValueError (kind node_schema +:+ "." +:+ r_name parent
               +:+ ": Relationship of type parent must be cardinality=one"));
      raise_if (r_optional parent)
        (ValueError (kind node_schema +:+ "." +:+ r_name parent
           +:+ ": Relationship of type parent must not be optional"))
  | _ => Err (ValueError (kind node_schema +:+ ": Only one relationship of type parent is allowed"))
  end.

(** The own parent and component relationships of a schema. *)
Definition own_parent (rel : RelationshipSchema) : bool :=
  bool_decide (r_kind rel = RelationshipKind.PARENT) && negb (r_inherited rel).
Definition own_dependency (node_kind : string) (rel : RelationshipSchema) : option (string * string) :=
  if own_parent rel then Some (r_peer rel, node_kind)
  else if decide (r_kind rel = RelationshipKind.COMPONENT) then Some (node_kind, r_peer rel)
  else None.

(** The dependencies and the parents a schema has, its generics included. *)
Definition schema_dependencies (node_schema : MainSchema) (generic_schemas : list MainSchema) :
    list (string * string) * list RelationshipSchema :=
  let node_kind := kind node_schema in
  let of_generic g :=
    ((λ rel, (r_peer rel, node_kind)) <$> get_relationships_of_kind g [RelationshipKind.PARENT]) ++
    ((λ rel, (node_kind, r_peer rel)) <$> get_relationships_of_kind g [RelationshipKind.COMPONENT]) in
  (omap (own_dependency node_kind) (n_relationships node_schema) ++ concat (of_generic <$> generic_schemas),
   filter (λ rel, own_parent rel) (n_relationships node_schema) ++
   concat ((λ g, get_relationships_of_kind g [RelationshipKind.PARENT]) <$> generic_schemas)).

Definition parent_component_node (name : string) (dependency_map : list (string * list string)) :
    BranchM (list (string * list string)) :=
  node_schema ← get name;
  generic_schemas ←
    (if is_node_schema node_schema then mapM_branch get_generic (inherit_from node_schema) else mret []);
  let '(deps, parents) := schema_dependencies node_schema generic_schemas in
  _ ← lift (_validate_parents_one_schema node_schema parents);
  mret (foldl add_dependency dependency_map deps).
Fixpoint parent_component_loop (names : list string) (dependency_map : list (string * list string)) :
    BranchM (list (string * list string)) :=
  match names with
  | [] => mret dependency_map
  | name :: rest => m ← parent_component_node name dependency_map; parent_component_loop rest m
  end.

Definition validate_parent_component `{SetOrder} : BranchM unit :=
  b ← gets branch;
  dependency_map ← parent_component_loop (generic_names b ++ node_names b) [];
  lift (match topological_sort dependency_map with
        | Ok _ => Ok tt
        | Err (DependencyCycleExistsError _) =>
            Err (ValueError "Cycles exist among parents and components in schema")
        | Err e => Err e
        end).

(** ** The whole process *)

Section process.
Context `{SetOrder}.

Definition process_pre_validation : BranchM unit :=
  _ ← generate_identifiers; _ ← process_default_values; _ ← process_cardinality_counts;
  _ ← process_inheritance; _ ← process_hierarchy; _ ← process_branch_support;
  _ ← manage_profile_schemas; add_profile_relationships.

Definition process_validate : BranchM unit :=
  _ ← validate_names; _ ← validate_menu_placements; _ ← validate_kinds;
  _ ← validate_count_against_cardinality; _ ← validate_identifiers;
  _ ← validate_uniqueness_constraints; _ ← validate_display_labels; _ ← validate_order_by;
  _ ← validate_default_filters; _ ← validate_parent_component; validate_human_friendly_id.

Definition process_post_validation : BranchM unit :=
  _ ← add_groups; _ ← add_hierarchy; _ ← process_filters; _ ← generate_weight;
  _ ← process_labels; _ ← process_dropdowns; _ ← process_relationships;
  process_human_friendly_id.

Definition process : BranchM unit :=
  _ ← process_pre_validation; _ ← process_validate; process_post_validation.
End process.

(** ** The invariant of a branch *)

Section invariant.
Context `{SetOrder}.

Lemma keeps_for_keys_loop I d size f keys :
  (∀ x, keeps I (f x)) → keeps I (for_keys_loop d size f keys).
Proof. intros Hf. induction keys as [|k keys IH]; cbn [for_keys_loop]; keeps_auto. Qed.
Lemma keeps_for_keys I d f : (∀ x, keeps I (f x)) → keeps I (for_keys d f).
Proof. intros Hf. unfold for_keys. keeps_step; [keeps_auto|]. by apply keeps_for_keys_loop. Qed.
Lemma keeps_for_all_names I f : (∀ x, keeps I (f x)) → keeps I (for_all_names f).
Proof. intros Hf. unfold for_all_names. keeps_auto. Qed.
Lemma keeps_get_state {S} (I : S → Prop) : keeps I get_state.
Proof. by intros s. Qed.
#[local] Hint Resolve keeps_get_state : exec.
#[local] Hint Resolve keeps_for_keys keeps_for_all_names : exec.

Lemma keeps_map_schemas needs f : keeps wf (map_schemas needs f).
Proof. unfold map_schemas. apply keeps_for_all_names. keeps_auto. Qed.
#[local] Hint Resolve keeps_map_schemas : exec.
Lemma keeps_check_all check : keeps wf (check_all check).
Proof. unfold check_all. apply keeps_for_all_names. keeps_auto. Qed.
Lemma keeps_check_all_in check : keeps wf (check_all_in check).
Proof. unfold check_all_in. apply keeps_for_all_names. keeps_auto. Qed.
#[local] Hint Resolve keeps_check_all keeps_check_all_in : exec.

(** Structural steps through a pass. *)
Ltac keeps_pass :=
  repeat first [ keeps_step | apply keeps_for_all_names | apply keeps_for_keys
               | apply keeps_mapM_branch | apply keeps_on_not_found
               | solve [eauto with exec] ].

Lemma keeps_process_inheritance : keeps wf process_inheritance.
Proof.
  assert (∀ kinds acc, keeps wf (inherit_steps acc kinds)) as Hsteps.
  { induction kinds as [|k kinds IH]; intros acc; cbn [inherit_steps]; [keeps_pass|].
    keeps_step; [|apply IH]. unfold inherit_step. keeps_pass. }
  assert (∀ size keys used, keeps wf (inherit_loop size keys used)) as Hloop.
  { intros size keys. induction keys as [|k keys IH]; intros used; cbn [inherit_loop]; [keeps_pass|].
    keeps_step; [keeps_pass|]. keeps_step; [|keeps_pass]. keeps_step; [|apply IH].
    unfold inherit_node. keeps_pass. }
  unfold process_inheritance. keeps_pass.
Qed.

Lemma keeps_manage_profile_schemas : keeps wf manage_profile_schemas.
Proof.
  assert (∀ size keys kinds, keeps wf (profile_loop size keys kinds)) as Hloop.
  { intros size keys. induction keys as [|k keys IH]; intros kinds; cbn [profile_loop]; [keeps_pass|].
    keeps_step; [keeps_pass|]. keeps_step; [|keeps_pass]. keeps_step; [|apply IH].
    unfold profile_of_node, generate_profile_from_node. keeps_pass. }
  unfold manage_profile_schemas, ensure_core_profile, update_used_by. keeps_pass.
Qed.

Lemma keeps_generate_filters I schema incl : keeps I (generate_filters schema incl).
Proof. unfold generate_filters. keeps_pass. Qed.
#[local] Hint Resolve keeps_generate_filters keeps_process_inheritance keeps_manage_profile_schemas : exec.

Lemma keeps_process_pre_validation : keeps wf process_pre_validation.
Proof.
  unfold process_pre_validation, generate_identifiers, process_default_values,
    process_cardinality_counts, process_hierarchy, hierarchy_node, process_branch_support,
    branch_relationship, add_profile_relationships. keeps_pass.
Qed.

Lemma keeps_validate_menu_placements : keeps wf validate_menu_placements.
Proof.
  unfold validate_menu_placements. keeps_step; [keeps_pass|].
  match goal with |- keeps _ (place_nodes _ ?l) => generalize l end.
  induction (node_names a ++ generic_names a) as [|n names IH]; intros l; cbn [place_nodes]; [keeps_pass|].
  keeps_step; [|apply IH]. unfold place_node. keeps_pass.
Qed.

Lemma keeps_validate_parent_component : keeps wf validate_parent_component.
Proof.
  assert (∀ names m, keeps wf (parent_component_loop names m)) as Hloop.
  { induction names as [|n names IH]; intros m; cbn [parent_component_loop]; [keeps_pass|].
    keeps_step; [|apply IH]. unfold parent_component_node. keeps_pass. }
  unfold validate_parent_component. keeps_pass.
Qed.
#[local] Hint Resolve keeps_validate_menu_placements keeps_validate_parent_component : exec.

Lemma keeps_process_validate : keeps wf process_validate.
Proof.
  unfold process_validate, validate_names, validate_kinds, check_generic_kind, check_peer,
    validate_count_against_cardinality, validate_identifiers, validate_uniqueness_constraints,
    validate_display_labels, display_labels_node, validate_order_by, validate_default_filters,
    validate_human_friendly_id. keeps_pass.
Qed.

Lemma keeps_process_post_validation : keeps wf process_post_validation.
Proof.
  unfold process_post_validation, add_groups, add_hierarchy, process_filters,
    relationship_with_filters, generate_weight, process_labels, process_dropdowns,
    process_relationships, process_human_friendly_id, hfid_node. keeps_pass.
Qed.
End invariant.

(** ** Checks that only read *)

Lemma for_each_reader {S B} (f : B → Exec S unit) (P : B → Prop) l (s s' : S) :
  (∀ x, (f x s).2 = s ∧ ((f x s).1 = Ok tt ↔ P x)) →
  for_each f l s = (Ok tt, s') ↔ s' = s ∧ ∀ x, x ∈ l → P x.
Proof.
  intros Hf. induction l as [|x l IH]; cbn.
  { split; [intros [= ->]; split; [done|set_solver]|by intros [-> _]]. }
  unfold mbind, exec_bind. destruct (Hf x) as [Hs Hx]. destruct (f x s) as [[[]|e] s1]; cbn in *; subst s1.
  - rewrite IH. setoid_rewrite elem_of_cons. naive_solver.
  - setoid_rewrite elem_of_cons. split; [done|]. intros [_ Hall].
    assert (P x) as HP by (apply Hall; by left). by apply Hx in HP.
Qed.

Lemma for_all_names_reader f (P : string → Prop) s s' :
  (∀ x, (f x s).2 = s ∧ ((f x s).1 = Ok tt ↔ P x)) →
  for_all_names f s = (Ok tt, s') ↔ s' = s ∧ ∀ x, x ∈ all_names (branch s) → P x.
Proof. intros Hf. unfold for_all_names, gets, mbind, exec_bind. by apply for_each_reader. Qed.

Lemma check_all_ok check s s' :
  check_all check s = (Ok tt, s') ↔
  s' = s ∧ ∀ name, name ∈ all_names (branch s) → ∃ node, find s name = Ok node ∧ check node = Ok tt.
Proof.
  unfold check_all. apply for_all_names_reader. intros name.
  unfold get, lift, mbind, exec_bind. destruct (find s name) as [node|e]; cbn; naive_solver.
Qed.

Lemma truthy_list_false {A} (l : list A) : truthy_list (Some l) = false ↔ l = [].
Proof. destruct l; cbn; naive_solver. Qed.

(** The names of the fields of a schema: distinct, and not reserved except in the
    schemas of the schema itself. *)
Definition names_ok (node : MainSchema) : Prop :=
  NoDup (attribute_names node ++ relationship_names node) ∧
  (kind node ∉ INTERNAL_SCHEMA_NODE_KINDS → ∀ name,
     name ∈ attribute_names node ++ relationship_names node →
     (name ∉ RESERVED_ATTR_REL_NAMES) ∧
     (is_generic_schema node = true → name ∉ RESERVED_ATTR_GEN_NAMES)).

Lemma reserved_name_false node name :
  reserved_name node name = false ↔
  name ∉ RESERVED_ATTR_REL_NAMES ∧ (is_generic_schema node = true → name ∉ RESERVED_ATTR_GEN_NAMES).
Proof.
  unfold reserved_name. rewrite orb_false_iff, andb_false_iff, !bool_decide_eq_false.
  destruct (is_generic_schema node); naive_solver.
Qed.

Lemma check_names_ok node : check_names node = Ok tt ↔ names_ok node.
Proof.
  unfold check_names, names_ok. rewrite raise_if_bind, truthy_list_false, duplicates_nil, omap_id_Some.
  destruct (decide (kind node ∈ INTERNAL_SCHEMA_NODE_KINDS)); [naive_solver|].
  rewrite then_ok, !for_all_ok. setoid_rewrite raise_if_ok. setoid_rewrite reserved_name_false.
  setoid_rewrite elem_of_app. unfold attribute_names, relationship_names.
  setoid_rewrite list_elem_of_fmap. naive_solver.
Qed.

(** ** Parents and components: lemmas *)

Section dependencies.
Lemma depends_add_dependency m dep k x :
  depends (add_dependency m dep) k x ↔ depends m k x ∨ dep = (k, x).
Proof.
  destruct dep as [a b]. unfold depends, add_dependency. cbn. setoid_rewrite dict_get_set.
  destruct (decide (a = k)) as [->|Hne].
  - split.
    + intros (v & [= <-] & Hx). destruct (dict_get m k) as [w|]; cbn in Hx; case_decide; try set_solver.
    + intros [(v & Hv & Hx)|[= ->]].
      * rewrite Hv. cbn. eexists. split; [done|]. case_decide; set_solver.
      * eexists. split; [done|]. case_decide; set_solver.
  - naive_solver.
Qed.

Lemma depends_foldl deps m k x :
  depends (foldl add_dependency m deps) k x ↔ depends m k x ∨ (k, x) ∈ deps.
Proof.
  revert m. induction deps as [|dep deps IH]; intros m; cbn [foldl]; [set_solver|].
  rewrite IH, depends_add_dependency, elem_of_cons. naive_solver.
Qed.

Lemma NoDup_foldl_dependency deps m :
  NoDup (dict_keys m) → NoDup (dict_keys (foldl add_dependency m deps)).
Proof.
  revert m. induction deps as [|dep deps IH]; intros m Hm; cbn [foldl]; [done|].
  apply IH. unfold add_dependency. by apply NoDup_dict_set.
Qed.

(** The schema of a name with the generics a node inherits from. *)
Definition find_generic (s : BranchState) (name : string) : result MainSchema :=
  item ← find s name;
  if is_generic_schema item then Ok item
  else Err (ValueError (name +:+ " is not of type GenericSchema")).
Definition with_generics (s : BranchState) (name : string) : result (MainSchema * list MainSchema) :=
  node ← find s name;
  generics ← (if is_node_schema node then mapM (find_generic s) (inherit_from node) else Ok []);
  Ok (node, generics).

Lemma get_generic_eq s name : get_generic name s = (find_generic s name, s).
Proof.
  unfold get_generic, find_generic, get, mbind, exec_bind. destruct (find s name) as [item|]; [|done].
  cbn. by destruct (is_generic_schema item).
Qed.

Lemma parent_component_node_eq name m s :
  parent_component_node name m s =
  ('(node, generics) ← with_generics s name;
   _ ← _validate_parents_one_schema node (schema_dependencies node generics).2;
   Ok (foldl add_dependency m (schema_dependencies node generics).1), s).
Proof.
  unfold parent_component_node, with_generics, get, mbind, exec_bind.
  destruct (find s name) as [node|e]; cbn; [|done].
  assert ((if is_node_schema node then mapM_branch get_generic (inherit_from node) else mret []) s =
          (if is_node_schema node then mapM (find_generic s) (inherit_from node) else Ok [], s)) as ->.
  { destruct (is_node_schema node); [|done]. apply mapM_branch_reader. intros. apply get_generic_eq. }
  destruct (if is_node_schema node then _ else _) as [gs|e]; cbn; [|done]. unfold lift.
  destruct (_validate_parents_one_schema _ _) as [[]|]; done.
Qed.

(** The parent relationships of a schema: its own that are not inherited, and those of the
    generics it inherits from. *)
Definition parents_of (node : MainSchema) (generics : list MainSchema) : list RelationshipSchema :=
  filter (λ rel, r_kind rel = RelationshipKind.PARENT ∧ r_inherited rel = false) (n_relationships node) ++
  concat ((λ g, filter (λ rel, r_kind rel = RelationshipKind.PARENT) (n_relationships g)) <$> generics).

(** A schema resolves with its generics, and has at most one parent relationship, mandatory
    and of cardinality one. *)
Definition parents_ok (s : BranchState) (name : string) : Prop :=
  ∃ node generics, with_generics s name = Ok (node, generics) ∧ (length (parents_of node generics) ≤ 1)%nat ∧
    ∀ rel, rel ∈ parents_of node generics → r_cardinality rel = RelationshipCardinality.ONE ∧ r_optional rel = false.

(** [component_of s names p c]: one of the schemas declares that [c] is a component of [p].
    A parent relationship leads from the component to its parent, a component relationship
    from the parent to the component, and a node has those of its generics. *)
Inductive component_of (s : BranchState) (names : list string) : string → string → Prop :=
  | own_parent_of name node generics rel :
      name ∈ names → with_generics s name = Ok (node, generics) → rel ∈ n_relationships node →
      r_kind rel = RelationshipKind.PARENT → r_inherited rel = false →
      component_of s names (r_peer rel) (kind node)
  | own_component_of name node generics rel :
      name ∈ names → with_generics s name = Ok (node, generics) → rel ∈ n_relationships node →
      r_kind rel = RelationshipKind.COMPONENT → component_of s names (kind node) (r_peer rel)
  | generic_parent_of name node generics g rel :
      name ∈ names → with_generics s name = Ok (node, generics) → g ∈ generics → rel ∈ n_relationships g →
      r_kind rel = RelationshipKind.PARENT → component_of s names (r_peer rel) (kind node)
  | generic_component_of name node generics g rel :
      name ∈ names → with_generics s name = Ok (node, generics) → g ∈ generics → rel ∈ n_relationships g →
      r_kind rel = RelationshipKind.COMPONENT → component_of s names (kind node) (r_peer rel).
#[local] Hint Constructors component_of : core.

Definition parents_accepted (s : BranchState) (name : string) : Prop :=
  ∃ node generics, with_generics s name = Ok (node, generics) ∧
    _validate_parents_one_schema node (schema_dependencies node generics).2 = Ok tt.
(** What the loop adds to the dependencies. *)
Definition dependency_of (s : BranchState) (names : list string) (p c : string) : Prop :=
  ∃ name node generics, name ∈ names ∧ with_generics s name = Ok (node, generics) ∧
    (p, c) ∈ (schema_dependencies node generics).1.

Lemma parent_component_loop_ok names m s r s' :
  parent_component_loop names m s = (r, s') →
  s' = s ∧
  ((∀ name, name ∈ names → parents_accepted s name) ↔ is_ok r = true) ∧
  ∀ m', r = Ok m' → (NoDup (dict_keys m) → NoDup (dict_keys m')) ∧
    ∀ k x, depends m' k x ↔ depends m k x ∨ dependency_of s names k x.
Proof.
  revert m. induction names as [|name names IH]; intros m; cbn [parent_component_loop].
  { intros [= <- <-]. split_and!; [done|split; [done|set_solver]|].
    intros m' [= <-]. split; [done|]. intros k x. unfold dependency_of. set_solver. }
  unfold mbind, exec_bind. rewrite parent_component_node_eq.
  destruct (with_generics s name) as [[node gs]|e] eqn:Hw; cbn.
  2:{ intros [= <- <-]. split_and!; [done| |done]. split; [|done]. intros Hall.
      destruct (Hall name) as (? & ? & ? & _); [left|]. congruence. }
  destruct (_validate_parents_one_schema node _) as [[]|e] eqn:Hv; cbn.
  2:{ intros [= <- <-]. split_and!; [done| |done]. split; [|done]. intros Hall.
      destruct (Hall name) as (n' & g' & Hw' & Hv'); [left|].
      rewrite Hw in Hw'. injection Hw' as <- <-. cbn in Hv'. congruence. }
  intros (-> & Hiff & Hm)%IH. split_and!; [done| |].
  - rewrite <-Hiff. setoid_rewrite elem_of_cons. split; [auto|]. intros Hall n [->|Hn]; [|auto].
    by exists node, gs.
  - intros m' Hr. destruct (Hm m' Hr) as [Hnd Hdep]. split.
    + intros. by apply Hnd, NoDup_foldl_dependency.
    + intros k x. rewrite Hdep, depends_foldl. unfold dependency_of. setoid_rewrite elem_of_cons. split.
      * intros [[?|Hin]|(n & nd & g & Hn & Hg & Hin)]; [by left|right..].
        -- exists name, node, gs. split_and!; [by left|done..].
        -- exists n, nd, g. split_and!; [by right|done..].
      * intros [?|(n & nd & g & [->|Hn] & Hg & Hin)]; [by left; left| |].
        -- left; right. rewrite Hw in Hg. by injection Hg as <- <-.
        -- right. by exists n, nd, g.
Qed.

Lemma topological_sort_ok `{SetOrder} m :
  NoDup (dict_keys m) →
  ((∃ ls, topological_sort m = Ok ls) ∧ acyclic m) ∨
  ((∃ cycles, topological_sort m = Err (DependencyCycleExistsError cycles)) ∧ ¬ acyclic m).
Proof.
  intros Hnd. destruct (topological_sort_cases m Hnd) as [(ls & Hls & Hlay)|(rest & Herr & Hst)].
  - left. split; [by eauto|]. intros k Hk. apply (layered_acyclic _ _ Hlay k). by apply tc_complete.
  - right. split; [by eauto|]. intros Hac. apply stuck_cycles in Hst as [Hne Hcyc].
    destruct (get_cycles rest) as [|c cs]; [done|]. apply Forall_cons in Hcyc as [Hc _].
    apply is_cycle_tc in Hc as [k Hk]. apply (tc_complete _ _ _ Hnd) in Hk. by apply (Hac k).
Qed.

Lemma own_dependency_spec node_kind rel d :
  own_dependency node_kind rel = Some d ↔
  (r_kind rel = RelationshipKind.PARENT ∧ r_inherited rel = false ∧ d = (r_peer rel, node_kind)) ∨
  (r_kind rel = RelationshipKind.COMPONENT ∧ d = (node_kind, r_peer rel)).
Proof.
  unfold own_dependency, own_parent. destruct (r_kind rel) eqn:Hk, (r_inherited rel); cbn; naive_solver.
Qed.

Lemma elem_of_schema_dependencies node generics p c :
  (p, c) ∈ (schema_dependencies node generics).1 ↔
  (∃ rel, rel ∈ n_relationships node ∧ own_dependency (kind node) rel = Some (p, c)) ∨
  ∃ g rel, g ∈ generics ∧ rel ∈ n_relationships g ∧
    ((r_kind rel = RelationshipKind.PARENT ∧ p = r_peer rel ∧ c = kind node) ∨
     (r_kind rel = RelationshipKind.COMPONENT ∧ p = kind node ∧ c = r_peer rel)).
Proof.
  unfold schema_dependencies, get_relationships_of_kind. cbn [fst].
  rewrite elem_of_app, list_elem_of_omap, elem_of_concat. apply or_iff_compat_l. split.
  - intros (l & (g & -> & Hg)%list_elem_of_fmap & [Hin|Hin]%elem_of_app);
      apply list_elem_of_fmap in Hin as (rel & [= -> ->] & [Hk Hin]%list_elem_of_filter);
      apply list_elem_of_singleton in Hk; exists g, rel; eauto 7.
  - intros (g & rel & Hg & Hrel & Hkind). eexists. split; [apply list_elem_of_fmap; eauto|].
    apply elem_of_app. destruct Hkind as [(Hk & -> & ->)|(Hk & -> & ->)]; [left|right];
      apply list_elem_of_fmap; exists rel; (split; [done|]); apply list_elem_of_filter;
      (split; [by rewrite Hk; left|done]).
Qed.

Lemma dependency_of_spec s names p c : dependency_of s names p c ↔ component_of s names p c.
Proof.
  unfold dependency_of. setoid_rewrite elem_of_schema_dependencies. setoid_rewrite own_dependency_spec. split.
  - intros (name & node & generics & ? & ? & [(rel & ? & [(? & ? & [= -> ->])|(? & [= -> ->])])|(g & rel & ? & ? & [(? & -> & ->)|(? & -> & ->)])]); eauto.
  - destruct 1; exists name, node, generics; (split; [done|]; split; [done|]); naive_solver.
Qed.

Lemma parents_accepted_spec s name : parents_accepted s name ↔ parents_ok s name.
Proof.
  unfold parents_accepted, parents_ok.
  assert (∀ node generics, (schema_dependencies node generics).2 = parents_of node generics) as Hp.
  { intros node generics. unfold schema_dependencies, parents_of, get_relationships_of_kind. cbn [snd]. f_equal.
    - apply list_filter_iff. intros rel. unfold own_parent.
      destruct (r_kind rel), (r_inherited rel); cbn; naive_solver.
    - f_equal. apply list_fmap_ext. intros _ g _. apply list_filter_iff. intros rel. apply list_elem_of_singleton. }
  setoid_rewrite Hp. apply exist_proper; intros node; apply exist_proper; intros generics.
  apply and_iff_compat_l. destruct (parents_of node generics) as [|rel [|rel' rels]]; cbn [_validate_parents_one_schema length].
  - set_solver by lia.
  - rewrite then_ok, !raise_if_ok, negb_false_iff, bool_decide_eq_true.
    setoid_rewrite list_elem_of_singleton. naive_solver lia.
  - split; [done|lia].
Qed.

End dependencies.

(** ** Properties *)

(** C1: loading a schema and processing it keeps every branch well formed (each
    digest of the branch is cached and each cache entry refers to an object), on
    every path: whether the passes return or one of them raises midway. *)
Theorem process_wf `{SetOrder} (root : SchemaRoot) (s : BranchState) (Hwf : wf s) :
  wf (load_schema root s).2 ∧ wf (process s).2 ∧
  wf ((_ ← load_schema root; process) s).2.
Proof.
  assert (keeps wf (load_schema root)) as Hload
    by (apply keeps_grown_wf; intros st0; apply keeps_load_schema).
  assert (keeps wf process) as Hproc.
  { unfold process. repeat (keeps_step; [|intros]); auto using keeps_process_pre_validation,
      keeps_process_validate, keeps_process_post_validation. }
  split_and!; [by apply Hload|by apply Hproc|]. by apply keeps_bind.
Qed.

Lemma process_wf_witness :
  let so := insertion_order in
  wf ((_ ← load_schema (mkSchemaRoot [] [new_node "Tag" "Builtin"] []); process) empty_state).2.
Proof.
  intros so. exact (proj2 (proj2 (process_wf (mkSchemaRoot [] [new_node "Tag" "Builtin"] [])
                                    empty_state (empty_wf (Some "main"))))).
Defined.

(** [validate_names] accepts a branch exactly when the attributes and
    relationships of every schema have distinct names and, except in the schemas
    that describe schemas, none of them is reserved; it changes nothing. *)
Theorem validate_names_spec (s s' : BranchState) :
  validate_names s = (Ok tt, s') ↔
  s' = s ∧ ∀ name, name ∈ all_names (branch s) → ∃ node, find s name = Ok node ∧ names_ok node.
Proof. unfold validate_names. rewrite check_all_ok. by setoid_rewrite check_names_ok. Qed.

(** C40: [validate_parent_component] accepts a branch exactly when every generic and node
    resolves with its generics, has at most one parent relationship (its own that are not
    inherited and those of its generics together), mandatory and of cardinality one, and no
    kind is, through any chain of parent relationships (from the component to its parent)
    and component relationships (from the parent to its component), a component of itself;
    it changes nothing. *)
Theorem validate_parent_component_spec `{SetOrder} (s s' : BranchState) :
  let names := generic_names (branch s) ++ node_names (branch s) in
  validate_parent_component s = (Ok tt, s') ↔
  s' = s ∧ (∀ name, name ∈ names → parents_ok s name) ∧ ∀ k, ¬ tc (component_of s names) k k.
Proof.
  intros names. unfold validate_parent_component, gets, mbind, exec_bind. cbv beta.
  fold names. destruct (parent_component_loop names [] s) as [r s1] eqn:Hloop.
  destruct (parent_component_loop_ok _ _ _ _ _ Hloop) as (-> & Hiff & Hm). 
  assert ((∀ name, name ∈ names → parents_ok s name) ↔ is_ok r = true) as ->
    by (rewrite <-Hiff; by setoid_rewrite parents_accepted_spec).
  destruct r as [m|e]; cbn; [|naive_solver].
  destruct (Hm m eq_refl) as [Hnd Hdep]. specialize (Hnd NoDup_nil_2).
  assert (∀ k x, depends m k x ↔ component_of s names k x) as Hd.
  { intros k x. rewrite Hdep, dependency_of_spec. split; [|by right]. by intros [(v & Hv & _)|?]. }
  assert (acyclic m ↔ ∀ k, ¬ tc (component_of s names) k k) as <-.
  { unfold acyclic. by setoid_rewrite (λ k x, tc_iff _ _ k x Hd). }
  unfold lift. destruct (topological_sort_ok m Hnd) as [[[ls ->] Hac]|[[cycles ->] Hac]]; naive_solver.
Qed.
