(* ===== verification/SchemaUpdate.v ===== *)
(** * Differences between two branches and the validation of an update

    [SchemaBranchHash.compare], [SchemaDiff] and [SchemaUpdateValidationResult] of
    [backend/infrahub/core/models.py], with [SchemaBranch.diff] and
    [SchemaBranch.validate_update] of [backend/infrahub/core/schema_manager.py] and
    the two tables of what is available ([core/migrations/__init__.py],
    [core/validators/__init__.py]).

    A change of the schema is turned into errors, migrations to run and
    constraints to check, by what each changed property of the schema classes
    declares in its metadata ([attribute_update_support] and its siblings). *)

From stdpp Require Import prelude strings.
From S2P Require Import Prelude PyString PyDict SdkUtils Md5 Constants HashModel SchemaDefs.
From S2P Require Import NodeSchemaOps SchemaPaths SchemaStore.

(** ** Digests of a branch *)

Record SchemaBranchDiff := mkSchemaBranchDiff {
  sbd_nodes : list string;
  sbd_generics : list string;
}.
Definition sbd_to_list (d : SchemaBranchDiff) : list string := sbd_nodes d ++ sbd_generics d.
Definition sbd_to_string (d : SchemaBranchDiff) : string := py_join ", " (sbd_to_list d).
Definition sbd_has_diff (d : SchemaBranchDiff) : bool :=
  negb (bool_decide (sbd_nodes d = [])) || negb (bool_decide (sbd_generics d = [])).

Record SchemaBranchHash := mkSchemaBranchHash {
  sbh_main : string;
  sbh_nodes : list (string * string);
  sbh_generics : list (string * string);
}.

Definition get_hash_full (b : SchemaBranch) : SchemaBranchHash :=
  mkSchemaBranchHash (branch_get_hash b) (nodes b) (generics b).

(** [[key for key, value in other.items() if key not in self or self[key] != value]] *)
Definition changed_keys (self other : list (string * string)) : list string :=
  (filter (λ kv, negb (dict_mem self kv.1) || negb (bool_decide (dict_get self kv.1 = Some kv.2))) other).*1.

Definition hash_compare (self other : SchemaBranchHash) : option SchemaBranchDiff :=
  if decide (sbh_main other = sbh_main self) then None
  else Some (mkSchemaBranchDiff (changed_keys (sbh_nodes self) (sbh_nodes other))
               (changed_keys (sbh_generics self) (sbh_generics other))).

(** ** Difference of two branches *)

(** A removed kind that is still present with the state "absent" has no
    difference of its own ([None]). *)
Record SchemaDiff := mkSchemaDiff {
  sd_added : list (string * HashableModelDiff);
  sd_changed : list (string * HashableModelDiff);
  sd_removed : list (string * option HashableModelDiff);
}.
#[export] Instance SchemaDiff_rebuild : Rebuild SchemaDiff := λ d,
  mkSchemaDiff (sd_added d) (sd_changed d) (sd_removed d).

Definition sd_all (d : SchemaDiff) : list string :=
  dict_keys (sd_changed d) ++ dict_keys (sd_added d) ++ dict_keys (sd_removed d).

Section diff.
Context `{SetOrder} (pytest_running : bool).

(** The ids both sides know, and the kinds of a side that are not paired by id. *)
Definition shared_kind_ids (local other : list (string * option string)) : list string :=
  intersection (omap id (dict_values local)) (omap id (dict_values other)).
Definition unpaired (shared_ids : list string) (m : list (string * option string)) : list string :=
  (filter (λ kv, kv.2 ∉ Some <$> shared_ids) m).*1.

(** A kind present on both sides under the same name. *)
Definition diff_by_kind (self other : BranchState) (d : SchemaDiff) (key : string) :
    result SchemaDiff :=
  local_node ← find self key;
  other_node ← find other key;
  diff_node ← schema_diff pytest_running other_node local_node;
  Ok (if has_diff diff_node then d <| sd_changed := dict_set (sd_changed d) key diff_node |> else d).

(** A schema present on both sides under the same id. *)
Definition diff_by_id (self other : BranchState)
    (local_kind_id_map other_kind_id_map : list (string * option string))
    (d : SchemaDiff) (shared_id : string) : result SchemaDiff :=
  local_kind ← require (KeyError shared_id)
                 (dict_get (reversed_map local_kind_id_map) (Some shared_id));
  other_kind ← require (KeyError shared_id)
                 (dict_get (reversed_map other_kind_id_map) (Some shared_id));
  local_node ← find self local_kind;
  other_node ← find other other_kind;
  diff_node ← schema_diff pytest_running other_node local_node;
  Ok (if decide (n_state other_node = HashableModelState.ABSENT)
      then d <| sd_removed := dict_set (sd_removed d) other_kind None |>
      else if has_diff diff_node
      then d <| sd_changed := dict_set (sd_changed d) other_kind diff_node |> else d).

(** [SchemaBranch.diff], of the two branches read in the states [self] and
    [other]; in the registry both have the same store. *)
Definition branch_diff (self other : BranchState) : result SchemaDiff :=
  local_kind_id_map ← (get_all_kind_id_map true self).1;
  other_kind_id_map ← (get_all_kind_id_map true other).1;
  let shared_ids := shared_kind_ids local_kind_id_map other_kind_id_map in
  let local_keys := unpaired shared_ids local_kind_id_map in
  let other_keys := unpaired shared_ids other_kind_id_map in
  let '(present_both, present_local_only, present_other_only) :=
    compare_lists local_keys other_keys in
  let schema_diff := mkSchemaDiff
    (dict_of_list ((λ element, (element, empty_diff)) <$> present_other_only)) []
    (dict_of_list ((λ element, (element, Some empty_diff)) <$> present_local_only)) in
  schema_diff ← foldM (diff_by_kind self other) schema_diff present_both;
  foldM (diff_by_id self other local_kind_id_map other_kind_id_map) schema_diff shared_ids.
End diff.

(** ** What an update requires *)

Record SchemaUpdateValidationError := mkUpdateError {
  err_path : SchemaPath;
  err_error : UpdateValidationErrorType;
  err_message : option string;
}.
Definition error_to_string (e : SchemaUpdateValidationError) : string :=
  repr_str (enum_value (err_error e)) +:+ ": " +:+ sp_schema_kind (err_path e) +:+ " "
  +:+ default "None" (sp_field_name (err_path e)) +:+ " " +:+ default "None" (err_message e).

Record SchemaUpdateMigrationInfo := mkMigrationInfo {
  mig_path : SchemaPath;
  migration_name : string;
}.
Record SchemaUpdateConstraintInfo := mkConstraintInfo {
  con_path : SchemaPath;
  constraint_name : string;
}.
#[export] Instance ConstraintInfo_eq_dec : EqDecision SchemaUpdateConstraintInfo.
Proof. solve_decision. Defined.

Definition migration_routing_key : string := "schema.migration.path".
Definition constraint_routing_key : string := "schema.validator.path".

Record SchemaUpdateValidationResult := mkValidationResult {
  errors : list SchemaUpdateValidationError;
  constraints : list SchemaUpdateConstraintInfo;
  migrations : list SchemaUpdateMigrationInfo;
  result_diff : SchemaDiff;
}.
#[export] Instance ValidationResult_rebuild : Rebuild SchemaUpdateValidationResult := λ r,
  mkValidationResult (errors r) (constraints r) (migrations r) (result_diff r).

Abbreviation UpdateM := (Exec SchemaUpdateValidationResult).

Definition add_error (e : SchemaUpdateValidationError) : UpdateM unit :=
  modify (λ r, r <| errors := errors r ++ [e] |>).
Definition add_constraint (c : SchemaUpdateConstraintInfo) : UpdateM unit :=
  modify (λ r, r <| constraints := constraints r ++ [c] |>).
Definition add_migration (m : SchemaUpdateMigrationInfo) : UpdateM unit :=
  modify (λ r, r <| migrations := migrations r ++ [m] |>).

(** [field_info.json_schema_extra.get("update")] of the fields of a schema class;
    the fields a profile declares have no such metadata. *)
Definition class_update_support (c : schema_class) : list (string * UpdateSupport) :=
  match c with
  | NodeSchema _ => node_update_support
  | GenericSchema _ => generic_update_support
  | ProfileSchema _ => []
  end.
Definition schema_update_support (s : MainSchema) : list (string * UpdateSupport) :=
  base_node_update_support ++ class_update_support (n_class s).

Definition schema_field_update (s : MainSchema) (name : string) : result UpdateSupport :=
  match dict_get (schema_update_support s) name with
  | Some u => Ok u
  | None => if is_profile_schema s && bool_decide (name = "inherit_from")
            then Err (AttributeError "get") else Err (KeyError name)
  end.
Definition field_update_support (f : AttributeSchema + RelationshipSchema) :
    list (string * UpdateSupport) :=
  match f with inl _ => attribute_update_support | inr _ => relationship_update_support end.

(** [f"{path_type.value}.{property_name}.update"] *)
Definition update_name (p : SchemaPath) : string :=
  enum_value (sp_path_type p) +:+ "." +:+ default "None" (sp_property_name p) +:+ ".update".

Definition _process_field (schema_path : SchemaPath) (field_update : UpdateSupport) : UpdateM unit :=
  match field_update with
  | UpdateSupport.NOT_SUPPORTED =>
      add_error (mkUpdateError schema_path UpdateValidationErrorType.NOT_SUPPORTED None)
  | UpdateSupport.MIGRATION_REQUIRED =>
      add_migration (mkMigrationInfo schema_path (update_name schema_path))
  | UpdateSupport.VALIDATE_CONSTRAINT =>
      add_constraint (mkConstraintInfo schema_path (update_name schema_path))
  | _ => mret tt
  end.

(** The paths an update names: a kind, a property of it, an attribute or
    relationship of it, and a property of one of these. *)
Definition node_path (k : string) : SchemaPath := mkSchemaPath SchemaPathType.NODE k None None None.
Definition node_property_path (k name : string) : SchemaPath :=
  mkSchemaPath SchemaPathType.NODE k None (Some name) (Some name).
Definition field_path (t : SchemaPathType) (k name : string) : SchemaPath :=
  mkSchemaPath t k None (Some name) None.
Definition field_property_path (t : SchemaPathType) (k name prop : string) : SchemaPath :=
  mkSchemaPath t k None (Some name) (Some prop).

Definition _process_node_attributes (schema : MainSchema) (node_field_name : string) : UpdateM unit :=
  field_update ← lift (schema_field_update schema node_field_name);
  _process_field (node_property_path (kind schema) node_field_name) field_update.

(** The properties of one attribute or relationship that changed. *)
Definition process_changed_field (schema : MainSchema) (path_type : SchemaPathType)
    (field : string * option HashableModelDiff) : UpdateM unit :=
  f ← lift (get_field schema field.1);
  match field.2 with
  | None => raise (ValueError "sub_field_diff must be defined, unexpected situation")
  | Some sub_field_diff =>
      for_each (λ prop_name,
        field_update ← lift (require (KeyError prop_name) (dict_get (field_update_support f) prop_name));
        _process_field (field_property_path path_type (kind schema) field.1 prop_name) field_update)
      (dict_keys (changed sub_field_diff))
  end.

Definition _process_attrs_rels (schema : MainSchema) (node_field_name : string)
    (node_field_diff : HashableModelDiff) : UpdateM unit :=
  let path_type := if decide (node_field_name = "attributes")
                   then SchemaPathType.ATTRIBUTE else SchemaPathType.RELATIONSHIP in
  _ ← for_each (λ field_name,
        if decide (path_type = SchemaPathType.ATTRIBUTE)
        then add_migration (mkMigrationInfo (field_path path_type (kind schema) field_name) "node.attribute.add")
        else mret tt)
      (dict_keys (added node_field_diff));
  _ ← for_each (λ field_name,
        add_migration (mkMigrationInfo (field_path path_type (kind schema) field_name)
                         ("node." +:+ enum_value path_type +:+ ".remove")))
      (dict_keys (removed node_field_diff));
  for_each (process_changed_field schema path_type) (changed node_field_diff).

(** One changed property of a kind. *)
Definition process_node_field (schema : MainSchema) (node_field : string * option HashableModelDiff) :
    UpdateM unit :=
  match node_field.2 with
  | Some node_field_diff =>
      if decide (node_field.1 ∈ ["attributes"; "relationships"])
      then _process_attrs_rels schema node_field.1 node_field_diff
      else _process_node_attributes schema node_field.1
  | None => _process_node_attributes schema node_field.1
  end.

Definition process_kinds (schema : BranchState) (d : SchemaDiff) : UpdateM unit :=
  _ ← for_each (λ schema_name, add_migration (mkMigrationInfo (node_path schema_name) "node.remove"))
      (dict_keys (sd_removed d));
  for_each (λ schema_diff,
      schema_node ← lift (find schema schema_diff.1);
      for_each (process_node_field schema_node) (changed schema_diff.2))
    (sd_changed d).
Definition process_diff (schema : BranchState) : UpdateM unit :=
  d ← gets result_diff;
  process_kinds schema d.

(** [SchemaUpdateValidationResult.init] *)
Definition validation_init (d : SchemaDiff) (schema : BranchState) :
    result unit * SchemaUpdateValidationResult :=
  process_diff schema (mkValidationResult [] [] [] d).

(** ** What is available *)

(** The name of the class of each migration, [None] when it is not written yet. *)
Definition MIGRATION_MAP : list (string * option string) :=
  [("node.remove", Some "NodeRemoveMigration"); ("node.branch.update", None);
   ("node.attribute.add", Some "NodeAttributeAddMigration");
   ("node.attribute.remove", Some "NodeAttributeRemoveMigration");
   ("node.name.update", Some "NodeKindUpdateMigration");
   ("node.namespace.update", Some "NodeKindUpdateMigration");
   ("node.relationship.remove", Some "PlaceholderDummyMigration");
   ("attribute.name.update", Some "AttributeNameUpdateMigration");
   ("attribute.branch.update", None); ("relationship.branch.update", None);
   ("relationship.direction.update", None);
   ("relationship.identifier.update", Some "PlaceholderDummyMigration");
   ("relationship.hierarchical.update", None)].

Definition CONSTRAINT_VALIDATOR_MAP : list (string * option string) :=
  [("attribute.regex.update", Some "AttributeRegexChecker");
   ("attribute.enum.update", Some "AttributeEnumChecker");
   ("attribute.kind.update", Some "AttributeKindChecker");
   ("attribute.min_length.update", Some "AttributeLengthChecker");
   ("attribute.max_length.update", Some "AttributeLengthChecker");
   ("attribute.unique.update", Some "AttributeUniquenessChecker");
   ("attribute.optional.update", Some "AttributeOptionalChecker");
   ("attribute.choices.update", Some "AttributeChoicesChecker");
   ("relationship.peer.update", Some "RelationshipPeerChecker");
   ("relationship.cardinality.update", Some "RelationshipCountChecker");
   ("relationship.optional.update", Some "RelationshipOptionalChecker");
   ("relationship.min_count.update", Some "RelationshipCountChecker");
   ("relationship.max_count.update", Some "RelationshipCountChecker");
   ("node.uniqueness_constraints.update", Some "UniquenessChecker");
   ("node.parent.update", Some "NodeHierarchyChecker");
   ("node.children.update", Some "NodeHierarchyChecker");
   ("node.generate_profile.update", Some "NodeGenerateProfileChecker")].

(** [map.get(name, None) is not None] *)
Definition available (map : list (string * option string)) (name : string) : bool :=
  opt_is_some (mjoin (dict_get map name)).

Definition validate_migrations (migration_map : list (string * option string)) : UpdateM unit :=
  ms ← gets migrations;
  for_each (λ m,
      if available migration_map (migration_name m) then mret tt
      else add_error (mkUpdateError (mig_path m) UpdateValidationErrorType.MIGRATION_NOT_AVAILABLE
             (Some ("Migration " +:+ repr_str (migration_name m) +:+ " is not available yet")))) ms.

Definition validate_constraints (validator_map : list (string * option string)) : UpdateM unit :=
  cs ← gets constraints;
  for_each (λ c,
      if available validator_map (constraint_name c) then mret tt
      else add_error (mkUpdateError (con_path c) UpdateValidationErrorType.VALIDATOR_NOT_AVAILABLE
             (Some ("Validator " +:+ repr_str (constraint_name c) +:+ " is not available yet")))) cs.

Definition validate_all (migration_map validator_map : list (string * option string)) : UpdateM unit :=
  _ ← validate_migrations migration_map;
  validate_constraints validator_map.

(** [SchemaBranch.validate_update] *)
Definition validate_update `{SetOrder} (pytest_running : bool) (self other : BranchState) :
    result SchemaUpdateValidationResult :=
  d ← branch_diff pytest_running self other;
  let '(outcome, r) :=
    (_ ← process_diff other; validate_all MIGRATION_MAP CONSTRAINT_VALIDATOR_MAP)
      (mkValidationResult [] [] [] d) in
  _ ← outcome;
  Ok r.

(** ** Comparing the digests of two branches *)

Lemma changed_keys_spec self other k :
  NoDup (dict_keys other) →
  k ∈ changed_keys self other ↔ ∃ h, dict_get other k = Some h ∧ dict_get self k ≠ Some h.
Proof.
  intros Hnd. unfold changed_keys. rewrite list_elem_of_fmap. split.
  - intros ([k' h] & -> & [Hc Hin]%list_elem_of_filter). exists h. cbn in *.
    split; [by apply dict_get_in|]. intros Hs. unfold dict_mem in Hc. rewrite Hs in Hc. cbn in Hc.
    by rewrite bool_decide_true in Hc.
  - intros (h & Ho%dict_get_Some_in & Hs). exists (k, h). split; [done|].
    apply list_elem_of_filter. split; [|done]. cbn. rewrite (bool_decide_false _ Hs). by rewrite orb_true_r.
Qed.

(** Comparing the digests of two branches: branches with the same entries have
    the same main digest whatever the order of their dictionaries, so nothing is
    reported; when the main digests differ, the reported kinds are exactly those
    that are new or have another digest in the other branch (a kind that only the
    first branch has is never reported). *)
Theorem hash_compare_spec (b b' : SchemaBranch) :
  NoDup (node_names b') → NoDup (generic_names b') →
  (nodes b ≡ₚ nodes b' → generics b ≡ₚ generics b' →
     hash_compare (get_hash_full b) (get_hash_full b') = None) ∧
  (branch_get_hash b' ≠ branch_get_hash b →
     ∃ d, hash_compare (get_hash_full b) (get_hash_full b') = Some d ∧
       (∀ k, k ∈ sbd_nodes d ↔ ∃ h, dict_get (nodes b') k = Some h ∧ dict_get (nodes b) k ≠ Some h) ∧
       (∀ k, k ∈ sbd_generics d ↔
          ∃ h, dict_get (generics b') k = Some h ∧ dict_get (generics b) k ≠ Some h)).
Proof.
  intros Hn Hg. unfold hash_compare. cbn [sbh_main sbh_nodes sbh_generics get_hash_full]. split.
  - intros Hpn Hpg. rewrite decide_True; [done|]. unfold branch_get_hash.
    by rewrite (py_sorted_proper _ _ (Permutation_app Hpn Hpg)).
  - intros Hne. rewrite decide_False by done. eexists. split; [done|].
    split; intros k; by apply changed_keys_spec.
Qed.

(** ** What the result of a validation contains *)

Inductive requirement :=
  | ReqError (e : SchemaUpdateValidationError)
  | ReqConstraint (c : SchemaUpdateConstraintInfo)
  | ReqMigration (m : SchemaUpdateMigrationInfo).

Definition recorded (r : SchemaUpdateValidationResult) (q : requirement) : Prop :=
  match q with
  | ReqError e => e ∈ errors r
  | ReqConstraint c => c ∈ constraints r
  | ReqMigration m => m ∈ migrations r
  end.

(** What a property at path [p] whose metadata says [u] requires when it changes. *)
Definition property_requirement (p : SchemaPath) (u : UpdateSupport) : option requirement :=
  match u with
  | UpdateSupport.NOT_SUPPORTED =>
      Some (ReqError (mkUpdateError p UpdateValidationErrorType.NOT_SUPPORTED None))
  | UpdateSupport.MIGRATION_REQUIRED => Some (ReqMigration (mkMigrationInfo p (update_name p)))
  | UpdateSupport.VALIDATE_CONSTRAINT => Some (ReqConstraint (mkConstraintInfo p (update_name p)))
  | _ => None
  end.

(** [m] adds exactly the requirements [X] when it returns. *)
Definition emits (m : UpdateM unit) (X : requirement → Prop) : Prop :=
  ∀ r r', m r = (Ok tt, r') →
    result_diff r' = result_diff r ∧ ∀ q, recorded r' q ↔ recorded r q ∨ X q.

Lemma emits_ret X : (∀ q, ~ X q) → emits (mret tt) X.
Proof. intros HX r r' [= <-]. naive_solver. Qed.
Lemma emits_raise e X : emits (raise e) X.
Proof. intros r r' Hr. discriminate Hr. Qed.
Lemma emits_iff m X Y : (∀ q, X q ↔ Y q) → emits m X → emits m Y.
Proof. intros HXY Hm r r' [? Hq]%Hm. split; [done|]. intros q. by rewrite Hq, HXY. Qed.

Lemma emits_add_error e : emits (add_error e) (λ q, q = ReqError e).
Proof.
  intros r r' [= <-]. split; [done|]. intros [e'|c|m]; cbn; rewrite ?elem_of_app; set_solver.
Qed.
Lemma emits_add_constraint c : emits (add_constraint c) (λ q, q = ReqConstraint c).
Proof.
  intros r r' [= <-]. split; [done|]. intros [e'|c'|m]; cbn; rewrite ?elem_of_app; set_solver.
Qed.
Lemma emits_add_migration m : emits (add_migration m) (λ q, q = ReqMigration m).
Proof.
  intros r r' [= <-]. split; [done|]. intros [e'|c'|m']; cbn; rewrite ?elem_of_app; set_solver.
Qed.

Lemma emits_seq m1 m2 X1 X2 :
  emits m1 X1 → emits m2 X2 → emits (m1 ≫= λ _, m2) (λ q, X1 q ∨ X2 q).
Proof.
  intros H1 H2 r r'. unfold mbind, exec_bind. destruct (m1 r) as [[[]|e] r1] eqn:Hm; [|discriminate].
  intros Hm2. destruct (H1 _ _ Hm) as [E1 Q1], (H2 _ _ Hm2) as [E2 Q2]. split; [congruence|].
  intros q. rewrite Q2, Q1. tauto.
Qed.

Lemma emits_lift {A} (v : result A) (f : A → UpdateM unit) X :
  (∀ a, v = Ok a → emits (f a) (X a)) →
  emits (lift v ≫= f) (λ q, ∃ a, v = Ok a ∧ X a q).
Proof.
  intros Hf r r'. unfold mbind, exec_bind, lift. destruct v as [a|e]; [|discriminate].
  intros Hr. destruct (Hf a eq_refl _ _ Hr) as [E Q]. split; [done|]. intros q. rewrite Q.
  naive_solver.
Qed.

Lemma emits_for_each {B} (f : B → UpdateM unit) X l :
  (∀ x, x ∈ l → emits (f x) (X x)) → emits (for_each f l) (λ q, ∃ x, x ∈ l ∧ X x q).
Proof.
  induction l as [|x l IH]; intros Hf; cbn.
  { apply emits_ret. set_solver. }
  eapply emits_iff; [|apply emits_seq; [apply Hf; left|apply IH; intros; apply Hf; by right]].
  intros q. cbn. setoid_rewrite elem_of_cons. naive_solver.
Qed.

Lemma emits_process_field p u : emits (_process_field p u) (λ q, property_requirement p u = Some q).
Proof.
  destruct u; cbn.
  all: first [ apply emits_ret; naive_solver
             | eapply emits_iff;
               [|first [apply emits_add_error|apply emits_add_constraint|apply emits_add_migration]];
               naive_solver ].
Qed.

(** A changed property of a kind, other than its lists of fields, with its
    metadata. *)
Inductive node_property_change (schema : MainSchema) (nd : HashableModelDiff) :
    SchemaPath → UpdateSupport → Prop :=
  | node_property_changed name fd u :
      (name, fd) ∈ changed nd →
      fd = None ∨ name ∉ ["attributes"; "relationships"] →
      schema_field_update schema name = Ok u →
      node_property_change schema nd (node_property_path (kind schema) name) u.

(** The difference of the attributes or of the relationships of a kind. *)
Definition fields_changed (nd : HashableModelDiff) (t : SchemaPathType) (gd : HashableModelDiff) : Prop :=
  match t with
  | SchemaPathType.NODE => False
  | SchemaPathType.ATTRIBUTE => ("attributes", Some gd) ∈ changed nd
  | SchemaPathType.RELATIONSHIP => ("relationships", Some gd) ∈ changed nd
  end.

(** A changed property of an attribute or of a relationship. *)
Inductive field_property_change (schema : MainSchema) (nd : HashableModelDiff) :
    SchemaPath → UpdateSupport → Prop :=
  | field_property_changed t gd name sub f prop u :
      fields_changed nd t gd →
      (name, Some sub) ∈ changed gd →
      get_field schema name = Ok f →
      prop ∈ dict_keys (changed sub) →
      dict_get (field_update_support f) prop = Some u →
      field_property_change schema nd (field_property_path t (kind schema) name prop) u.

(** The fields that come and go. *)
Inductive field_migration (schema : MainSchema) (nd : HashableModelDiff) :
    SchemaUpdateMigrationInfo → Prop :=
  | attribute_added gd name :
      fields_changed nd SchemaPathType.ATTRIBUTE gd → name ∈ dict_keys (added gd) →
      field_migration schema nd
        (mkMigrationInfo (field_path SchemaPathType.ATTRIBUTE (kind schema) name) "node.attribute.add")
  | field_removed t gd name :
      fields_changed nd t gd → name ∈ dict_keys (removed gd) →
      field_migration schema nd
        (mkMigrationInfo (field_path t (kind schema) name) ("node." +:+ enum_value t +:+ ".remove")).

(** What the difference [d] of a branch towards [other] requires. *)
Inductive requires (other : BranchState) (d : SchemaDiff) : requirement → Prop :=
  | requires_node_removed k :
      k ∈ dict_keys (sd_removed d) →
      requires other d (ReqMigration (mkMigrationInfo (node_path k) "node.remove"))
  | requires_property k nd schema p u q :
      (k, nd) ∈ sd_changed d → find other k = Ok schema →
      node_property_change schema nd p u ∨ field_property_change schema nd p u →
      property_requirement p u = Some q →
      requires other d q
  | requires_migration k nd schema m :
      (k, nd) ∈ sd_changed d → find other k = Ok schema →
      field_migration schema nd m →
      requires other d (ReqMigration m).

(** The part of [requires] that comes from one kind. *)
Definition kind_requires (schema : MainSchema) (nd : HashableModelDiff) (q : requirement) : Prop :=
  (∃ p u, (node_property_change schema nd p u ∨ field_property_change schema nd p u) ∧
          property_requirement p u = Some q) ∨
  (∃ m, q = ReqMigration m ∧ field_migration schema nd m).

Lemma emits_node_attributes schema name :
  emits (_process_node_attributes schema name)
    (λ q, ∃ u, schema_field_update schema name = Ok u ∧
               property_requirement (node_property_path (kind schema) name) u = Some q).
Proof. apply emits_lift. intros u _. apply emits_process_field. Qed.

Lemma require_ok {A} e (o : option A) a : require e o = Ok a ↔ o = Some a.
Proof. destruct o; cbn; naive_solver. Qed.

Lemma emits_changed_field schema t field :
  emits (process_changed_field schema t field)
    (λ q, ∃ f sub prop u, field.2 = Some sub ∧ get_field schema field.1 = Ok f ∧
       prop ∈ dict_keys (changed sub) ∧ dict_get (field_update_support f) prop = Some u ∧
       property_requirement (field_property_path t (kind schema) field.1 prop) u = Some q).
Proof.
  destruct field as [name fd].
  eapply emits_iff; [|unfold process_changed_field; apply (emits_lift _ _ (λ f q, ∃ sub prop u,
    fd = Some sub ∧ prop ∈ dict_keys (changed sub) ∧ dict_get (field_update_support f) prop = Some u ∧
    property_requirement (field_property_path t (kind schema) name prop) u = Some q))].
  { cbn [fst snd]. naive_solver. }
  cbn. intros f _. destruct fd as [sub|]; [|apply emits_raise].
  eapply emits_iff; [|apply emits_for_each; intros prop _; apply emits_lift; intros u _; apply emits_process_field].
  cbn. setoid_rewrite require_ok. naive_solver.
Qed.

Lemma emits_attrs_rels schema name gd t :
  t = (if decide (name = "attributes") then SchemaPathType.ATTRIBUTE else SchemaPathType.RELATIONSHIP) →
  emits (_process_attrs_rels schema name gd)
    (λ q, (∃ n, n ∈ dict_keys (added gd) ∧ t = SchemaPathType.ATTRIBUTE ∧
             q = ReqMigration (mkMigrationInfo (field_path t (kind schema) n) "node.attribute.add")) ∨
          (∃ n, n ∈ dict_keys (removed gd) ∧
             q = ReqMigration (mkMigrationInfo (field_path t (kind schema) n)
                                 ("node." +:+ enum_value t +:+ ".remove"))) ∨
          (∃ n sub f prop u, (n, Some sub) ∈ changed gd ∧ get_field schema n = Ok f ∧
             prop ∈ dict_keys (changed sub) ∧ dict_get (field_update_support f) prop = Some u ∧
             property_requirement (field_property_path t (kind schema) n prop) u = Some q)).
Proof.
  intros Ht. unfold _process_attrs_rels. rewrite <-Ht. apply emits_seq; [|apply emits_seq].
  - apply (emits_for_each _ (λ n q, t = SchemaPathType.ATTRIBUTE ∧ q = ReqMigration
      (mkMigrationInfo (field_path t (kind schema) n) "node.attribute.add"))).
    intros n _. destruct (decide (t = SchemaPathType.ATTRIBUTE)); [|apply emits_ret; naive_solver].
    eapply emits_iff; [|apply emits_add_migration]. naive_solver.
  - apply emits_for_each. intros n _. apply emits_add_migration.
  - eapply emits_iff; [|apply emits_for_each; intros field _; apply emits_changed_field].
    intros q. cbn. split.
    + intros ([n fd] & Hin & f & sub & prop & u & Hfd & H). cbn in *. subst. naive_solver.
    + intros (n & sub & f & prop & u & Hin & H). exists (n, Some sub). naive_solver.
Qed.

Definition only (field : string * option HashableModelDiff) : HashableModelDiff :=
  mkHashableModelDiff [] [field] [].

Lemma elem_of_only field x : x ∈ changed (only field) ↔ x = field.
Proof. apply list_elem_of_singleton. Qed.

Lemma fields_changed_only nd t gd :
  fields_changed nd t gd ↔ ∃ field, field ∈ changed nd ∧ fields_changed (only field) t gd.
Proof.
  destruct t; cbn [fields_changed]; try setoid_rewrite elem_of_only; naive_solver.
Qed.

(** A kind requires what each of its changed properties requires. *)
Lemma kind_requires_only schema nd q :
  kind_requires schema nd q ↔ ∃ field, field ∈ changed nd ∧ kind_requires schema (only field) q.
Proof.
  unfold kind_requires. split.
  - intros [(p & u & [Hp|Hp] & Hq)|(m & -> & Hm)].
    + destruct Hp as [name fd u Hin Hn Hu]. exists (name, fd). split; [done|]. left. do 2 eexists.
      split; [left; econstructor; [by apply elem_of_only|done..]|done].
    + destruct Hp as [t gd name sub f prop u [field [Hin Hg]]%fields_changed_only].
      exists field. split; [done|]. left. do 2 eexists. split; [right; by econstructor|done].
    + destruct Hm as [gd name [field [Hin Hg]]%fields_changed_only Hn|t gd name [field [Hin Hg]]%fields_changed_only Hn];
        exists field; (split; [done|]); right; eexists; (split; [done|]); by econstructor.
  - intros (field & Hin & [(p & u & [Hp|Hp] & Hq)|(m & -> & Hm)]).
    + destruct Hp as [name fd u <-%elem_of_only Hn Hu]. left. do 2 eexists.
      split; [left; by econstructor|done].
    + destruct Hp as [t gd name sub f prop u Hg]. left. do 2 eexists.
      split; [right; econstructor; [apply fields_changed_only; by exists field|done..]|done].
    + right. eexists. split; [done|].
      destruct Hm; econstructor; try done; apply fields_changed_only; by exists field.
Qed.

Lemma fields_changed_list name gd t gd' :
  name ∈ ["attributes"; "relationships"] →
  fields_changed (only (name, Some gd)) t gd' ↔
  t = (if decide (name = "attributes") then SchemaPathType.ATTRIBUTE else SchemaPathType.RELATIONSHIP)
  ∧ gd' = gd.
Proof.
  intros [->|[->|[]%elem_of_nil]%elem_of_cons]%elem_of_cons; destruct t; cbn [fields_changed];
    rewrite ?elem_of_only; naive_solver.
Qed.

Lemma emits_field schema field :
  emits (process_node_field schema field) (kind_requires schema (only field)).
Proof.
  destruct field as [name fd].
  assert (Hplain : fd = None ∨ name ∉ ["attributes"; "relationships"] →
    emits (_process_node_attributes schema name) (kind_requires schema (only (name, fd)))).
  { intros Hc. eapply emits_iff; [|apply emits_node_attributes]. intros q. split.
    - intros (u & Hu & Hq). left. do 2 eexists. split; [left|exact Hq].
      econstructor; [by apply elem_of_only|done..].
    - intros [(p & u & [Hp|Hp] & Hq)|(m & -> & Hm)].
      + destruct Hp as [n' fd' u [= -> ->]%elem_of_only _ Hu]. by exists u.
      + destruct Hp as [[] gd n' sub f prop u Hg]; [done|..];
          apply elem_of_only in Hg as [= <- <-]; set_solver.
      + destruct Hm as [gd n' Hg|[] gd n' Hg]; cbn in Hg; [|done|..];
          apply elem_of_only in Hg as [= <- <-]; set_solver. }
  unfold process_node_field. cbn [fst snd]. destruct fd as [gd|]; [|by apply Hplain; left].
  destruct (decide (name ∈ _)) as [Hin|]; [|by apply Hplain; right].
  clear Hplain. eapply emits_iff; [|by apply emits_attrs_rels]. intros q. cbn beta. split.
  - intros [(n & Hn & Ht & ->)|[(n & Hn & ->)|(n & sub & f & prop & u & Hc & Hf & Hp & Hu & Hq)]].
    + right. eexists. split; [done|]. rewrite Ht. apply (attribute_added _ _ gd); [|done].
      by apply fields_changed_list.
    + right. eexists. split; [done|]. apply (field_removed _ _ _ gd); [|done].
      by apply fields_changed_list.
    + left. do 2 eexists. split; [right|exact Hq]. econstructor; [|done..]. by apply fields_changed_list.
  - intros [(p & u & [Hp|Hp] & Hq)|(m & -> & Hm)].
    + destruct Hp as [n' fd' u [= -> ->]%elem_of_only Hno Hu]. naive_solver.
    + destruct Hp as [t gd' n' sub f prop u [-> ->]%fields_changed_list]; [|done]. right; right. naive_solver.
    + destruct Hm as [gd' n' Hg Hn|t gd' n' Hg Hn]; apply fields_changed_list in Hg as [Ht ->]; try done.
      * left. exists n'. by rewrite <-Ht.
      * right; left. subst. by exists n'.
Qed.

Lemma emits_kind schema nd :
  emits (for_each (process_node_field schema) (changed nd)) (kind_requires schema nd).
Proof.
  eapply emits_iff; [intros q; symmetry; apply kind_requires_only|].
  apply emits_for_each. intros field _. apply emits_field.
Qed.

Lemma process_diff_emits other d r :
  validation_init d other = (Ok tt, r) →
  result_diff r = d ∧ ∀ q, recorded r q ↔ requires other d q.
Proof.
  change (process_kinds other d (mkValidationResult [] [] [] d) = (Ok tt, r) →
    result_diff r = d ∧ ∀ q, recorded r q ↔ requires other d q).
  intros Hr.
  eassert (emits _ _) as He; [|destruct (He _ _ Hr) as [Hd Hq]; split; [exact Hd|]].
  { unfold process_kinds. apply emits_seq; apply emits_for_each; [intros k _; apply emits_add_migration|].
    intros kd _. apply emits_lift. intros schema _. apply emits_kind. }
  intros q. rewrite Hq. cbn. split.
  - intros [Hn|[(k & Hk & ->)|([k nd] & Hin & schema & Hs & Hkr)]].
    + destruct q; cbn in Hn; by apply elem_of_nil in Hn.
    + by constructor.
    + destruct Hkr as [(p & u & Hp & Hpq)|(m & -> & Hm)];
        [by eapply requires_property|by eapply requires_migration].
  - intros Hreq. right. destruct Hreq as [k Hk|k nd schema p u q Hin Hs Hp Hpq|k nd schema m Hin Hs Hm].
    + left. by exists k.
    + right. exists (k, nd). split; [done|]. exists schema. split; [done|]. left. by exists p, u.
    + right. exists (k, nd). split; [done|]. exists schema. split; [done|]. right. by exists m.
Qed.

(** C38: The validation of a difference records exactly what the difference
    requires, nothing more and nothing less: a migration for every removed kind,
    every added attribute and every removed attribute or relationship, and for
    every changed property of a kind, attribute or relationship the error, the
    migration or the constraint its metadata asks for. *)
Theorem process_diff_spec (other : BranchState) (d : SchemaDiff) (r : SchemaUpdateValidationResult) :
  validation_init d other = (Ok tt, r) →
  result_diff r = d ∧
  (∀ e, e ∈ errors r ↔ requires other d (ReqError e)) ∧
  (∀ c, c ∈ constraints r ↔ requires other d (ReqConstraint c)) ∧
  (∀ m, m ∈ migrations r ↔ requires other d (ReqMigration m)).
Proof.
  intros [Hd Hq]%process_diff_emits. split_and!; [done|..]; intros x;
    [apply (Hq (ReqError x))|apply (Hq (ReqConstraint x))|apply (Hq (ReqMigration x))].
Qed.

(** ** Acceptance of an update *)

Lemma validate_available {A} (test : A → bool) (mk : A → SchemaUpdateValidationError) l r :
  for_each (λ x, if test x then mret tt else add_error (mk x)) l r =
  (Ok tt, r <| errors := errors r ++ (mk <$> filter (λ x, negb (test x)) l) |>).
Proof.
  revert r. induction l as [|x l IH]; intros r; cbn.
  { by destruct r; cbn; rewrite app_nil_r. }
  unfold mbind, exec_bind. destruct (test x); cbn.
  - by rewrite IH.
  - rewrite IH. destruct r; cbn. by rewrite <-app_assoc.
Qed.

(** What the two tables can serve. *)
Definition served (migration_map validator_map : list (string * option string)) (q : requirement) : Prop :=
  match q with
  | ReqError _ => False
  | ReqConstraint c => available validator_map (constraint_name c) = true
  | ReqMigration m => available migration_map (migration_name m) = true
  end.

Lemma filter_nil_iff {A} (test : A → bool) l :
  filter (λ x, negb (test x)) l = [] ↔ ∀ x, x ∈ l → test x = true.
Proof.
  induction l as [|x l IH]; [set_solver|]. rewrite filter_cons. setoid_rewrite elem_of_cons.
  destruct (test x) eqn:Hx; cbn; [rewrite IH; naive_solver|]. split; [done|].
  intros Hall. specialize (Hall x (or_introl eq_refl)). congruence.
Qed.

Lemma fmap_nil_iff {A B} (f : A → B) l : f <$> l = [] ↔ l = [].
Proof. by destruct l. Qed.

Lemma validate_all_spec migration_map validator_map r :
  ∃ r', validate_all migration_map validator_map r = (Ok tt, r') ∧
    (errors r' = [] ↔ ∀ q, recorded r q → served migration_map validator_map q).
Proof.
  unfold validate_all, validate_migrations, validate_constraints, gets, mbind, exec_bind.
  rewrite validate_available. cbn. rewrite validate_available. eexists. split; [done|]. cbn.
  rewrite !app_nil, !fmap_nil_iff, !filter_nil_iff. split.
  - intros [[He Hm] Hc] [e|c|m]; cbn; [rewrite He; set_solver|auto..].
  - intros Hs. split_and!.
    + apply elem_of_nil_inv. intros e He. by apply (Hs (ReqError e)).
    + intros m Hm. by apply (Hs (ReqMigration m)).
    + intros c Hc. by apply (Hs (ReqConstraint c)).
Qed.

(** The properties whose change is always refused, by their metadata or for want
    of a validator. *)
Definition frozen_properties (t : SchemaPathType) : list string :=
  match t with
  | SchemaPathType.NODE => ["branch"; "inherit_from"; "hierarchy"; "hierarchical"]
  | SchemaPathType.ATTRIBUTE => ["branch"]
  | SchemaPathType.RELATIONSHIP => ["branch"; "direction"; "hierarchical"]
  end.

(** The property at path [p] changes between the two branches. *)
Definition changes_property (other : BranchState) (d : SchemaDiff) (p : SchemaPath) : Prop :=
  ∃ k nd schema u, (k, nd) ∈ sd_changed d ∧ find other k = Ok schema ∧
    (node_property_change schema nd p u ∨ field_property_change schema nd p u).

(** A changed attribute is found as an attribute, and a changed relationship as a
    relationship: no attribute has the name of a relationship. *)
Definition fields_apart (other : BranchState) (d : SchemaDiff) : Prop :=
  ∀ k nd schema t gd name f,
    (k, nd) ∈ sd_changed d → find other k = Ok schema → fields_changed nd t gd →
    name ∈ dict_keys (changed gd) → get_field schema name = Ok f →
    t = match f with inl _ => SchemaPathType.ATTRIBUTE | inr _ => SchemaPathType.RELATIONSHIP end.

(** Whether what a changed property requires is available, for all the properties
    of a table. *)
Definition served_property (k : string) (t : SchemaPathType) (field : option string) (prop : string)
    (u : UpdateSupport) : bool :=
  let p := mkSchemaPath t k None field (Some prop) in
  match property_requirement p u with
  | None => true
  | Some (ReqError _) => false
  | Some (ReqConstraint c) => available CONSTRAINT_VALIDATOR_MAP (constraint_name c)
  | Some (ReqMigration m) => available MIGRATION_MAP (migration_name m)
  end.

Definition table_frozen (t : SchemaPathType) (table : list (string * UpdateSupport)) : bool :=
  forallb (λ kv, Bool.eqb (served_property "" t None kv.1 kv.2)
                          (negb (bool_decide (kv.1 ∈ frozen_properties t)))) table.

Lemma served_property_path k t field prop u :
  served_property k t field prop u = served_property "" t None prop u.
Proof. by destruct u. Qed.

Lemma table_frozen_spec t table k field prop u :
  table_frozen t table = true → (prop, u) ∈ table →
  served_property k t field prop u = negb (bool_decide (prop ∈ frozen_properties t)).
Proof.
  unfold table_frozen. rewrite forallb_forall. intros Ht Hin. rewrite served_property_path.
  apply list_elem_of_In, Ht in Hin. by apply Bool.eqb_prop in Hin.
Qed.

Lemma tables_frozen :
  table_frozen SchemaPathType.NODE (base_node_update_support ++ node_update_support ++ generic_update_support)
  && table_frozen SchemaPathType.ATTRIBUTE attribute_update_support
  && table_frozen SchemaPathType.RELATIONSHIP relationship_update_support = true.
Proof. vm_compute. reflexivity. Qed.

Lemma node_property_served schema name u k :
  schema_field_update schema name = Ok u →
  served_property k SchemaPathType.NODE (Some name) name u =
  negb (bool_decide (name ∈ frozen_properties SchemaPathType.NODE)).
Proof.
  pose proof tables_frozen as [[Hn _]%andb_prop _]%andb_prop. intros Hu.
  eapply table_frozen_spec; [exact Hn|]. unfold schema_field_update, schema_update_support in Hu.
  destruct (dict_get _ name) as [u'|] eqn:Hd; [injection Hu as ->|by destruct (_ && _)].
  apply dict_get_Some_in in Hd. rewrite elem_of_app in Hd. rewrite !elem_of_app.
  destruct (n_class schema); unfold class_update_support in Hd; rewrite ?elem_of_nil in Hd; tauto.
Qed.

Lemma field_property_served f prop u k name :
  dict_get (field_update_support f) prop = Some u →
  let t := match f with inl _ => SchemaPathType.ATTRIBUTE | inr _ => SchemaPathType.RELATIONSHIP end in
  served_property k t (Some name) prop u = negb (bool_decide (prop ∈ frozen_properties t)).
Proof.
  pose proof tables_frozen as [[_ Ha]%andb_prop Hr]%andb_prop. intros Hu%dict_get_Some_in.
  destruct f; (eapply table_frozen_spec; [eassumption|done]).
Qed.

Definition prop_of (p : SchemaPath) : string := default "" (sp_property_name p).

(** A changed property can be served exactly when it is not frozen. *)
Lemma change_served other d p k nd schema u :
  fields_apart other d → (k, nd) ∈ sd_changed d → find other k = Ok schema →
  node_property_change schema nd p u ∨ field_property_change schema nd p u →
  (∀ q, property_requirement p u = Some q → served MIGRATION_MAP CONSTRAINT_VALIDATOR_MAP q) ↔
  prop_of p ∉ frozen_properties (sp_path_type p).
Proof.
  intros Hap Hin Hf Hp.
  assert (served_property (sp_schema_kind p) (sp_path_type p) (sp_field_name p) (prop_of p) u =
          negb (bool_decide (prop_of p ∈ frozen_properties (sp_path_type p))) ∧
          p = mkSchemaPath (sp_path_type p) (sp_schema_kind p) None (sp_field_name p) (Some (prop_of p)))
    as [Hs Heq].
  { destruct Hp as [[name fd u' Hn Hc Hu]|[t gd name sub f prop u' Hg Hn Hfd Hpr Hu]]; (split; [|done]); cbn.
    - by eapply node_property_served.
    - rewrite (Hap k nd schema t gd name f); [by apply field_property_served|done..| |done].
      apply list_elem_of_fmap. by exists (name, Some sub). }
  rewrite <-bool_decide_eq_false, <-negb_true_iff, <-Hs. unfold served_property. rewrite <-Heq.
  destruct (property_requirement p u) as [[e|c|m]|]; cbn; naive_solver.
Qed.

(** C30: An update of the schema is accepted exactly when it changes no frozen
    property: the branch support of a kind, attribute or relationship, the list
    of generics, the hierarchy or the hierarchical flag of a kind, the direction
    or the hierarchical flag of a relationship.  Everything else an update can
    need has a migration or a validator. *)
Theorem validate_update_accepts_iff `{SetOrder} (pytest_running : bool) (self other : BranchState)
    (d : SchemaDiff) (r : SchemaUpdateValidationResult) :
  branch_diff pytest_running self other = Ok d →
  fields_apart other d →
  validate_update pytest_running self other = Ok r →
  (errors r = [] ↔
   ∀ p, changes_property other d p → prop_of p ∉ frozen_properties (sp_path_type p)).
Proof.
  intros Hd Hap. unfold validate_update. rewrite Hd. cbn [mbind result_bind].
  destruct (validation_init d other) as [out r1] eqn:Hinit.
  unfold validation_init in Hinit. unfold mbind at 1, exec_bind. rewrite Hinit.
  destruct out as [[]|e]; [|done].
  destruct (validate_all_spec MIGRATION_MAP CONSTRAINT_VALIDATOR_MAP r1) as (r2 & -> & Hacc).
  cbn. intros [= <-]. rewrite Hacc. destruct (process_diff_emits other d r1 Hinit) as [_ Hrec].
  setoid_rewrite Hrec. split.
  - intros Hall p (k & nd & schema & u & Hin & Hf & Hp).
    apply (change_served other d p k nd schema u Hap Hin Hf Hp). intros q Hq. apply Hall.
    by eapply requires_property.
  - intros Hfr q Hq. destruct Hq as [k Hk|k nd schema p u q' Hin Hf Hp Hq|k nd schema m Hin Hf Hm].
    + by vm_compute.
    + eapply (change_served other d p k nd schema u); try done. apply Hfr. by exists k, nd, schema, u.
    + destruct Hm as [|[]]; by vm_compute.
Qed.

(** ** Examples *)

Section examples.
Let order : SetOrder := insertion_order.
#[local] Existing Instance order.

Definition name_attribute : AttributeSchema := new_attribute "name" "Text".
Definition router (label : option string) (regex : option string) : MainSchema :=
  (new_node "Router" "Infra") <| n_label := label |>
    <| n_attributes := [name_attribute <| a_id := Some "1" |> <| a_regex := regex |>] |>.
Definition router_branch (label regex : option string) : BranchState :=
  (set "InfraRouter" (router label regex) empty_state).2.

(** The label and the regular expression of an attribute change. *)
Definition old_routers : BranchState := router_branch None None.
Definition new_routers : BranchState := router_branch (Some "Router") (Some "[a-z]+").
Definition router_diff : SchemaDiff :=
  mkSchemaDiff [] [("InfraRouter", mkHashableModelDiff []
    [("label", None);
     ("attributes", Some (mkHashableModelDiff []
        [("name", Some (mkHashableModelDiff [] [("regex", None)] []))] []))] [])] [].
Definition router_result : SchemaUpdateValidationResult :=
  let p := field_property_path SchemaPathType.ATTRIBUTE "InfraRouter" "name" "regex" in
  mkValidationResult [] [mkConstraintInfo p "attribute.regex.update"] [] router_diff.
End examples.

Lemma router_diff_computed :
  branch_diff (H:=insertion_order) false old_routers new_routers = Ok router_diff.
Proof. vm_compute. reflexivity. Qed.

Lemma process_diff_spec_witness :
  validation_init router_diff new_routers = (Ok tt, router_result) ∧
  (∀ c, c ∈ constraints router_result ↔ requires new_routers router_diff (ReqConstraint c)).
Proof.
  assert (validation_init router_diff new_routers = (Ok tt, router_result)) as Hinit
    by (vm_compute; reflexivity).
  split; [exact Hinit|].
  exact (proj1 (proj2 (proj2 (process_diff_spec new_routers router_diff router_result Hinit)))).
Defined.

Lemma hash_compare_spec_witness :
  let b := branch old_routers in let b' := branch new_routers in
  ∃ d, hash_compare (get_hash_full b) (get_hash_full b') = Some d ∧ "InfraRouter" ∈ sbd_nodes d.
Proof.
  destruct (hash_compare_spec (branch old_routers) (branch new_routers)) as [_ H].
  - vm_compute. apply NoDup_singleton.
  - vm_compute. constructor.
  - destruct H as (d & Hd & Hk & _); [vm_compute; discriminate|].
    exists d. split; [exact Hd|]. apply Hk. eexists. split; [vm_compute; reflexivity|].
    vm_compute. discriminate.
Defined.

Lemma router_fields_apart : fields_apart new_routers router_diff.
Proof.
  intros k nd schema t gd name f Hin Hf Hg Hn Hfield.
  apply list_elem_of_singleton in Hin as [= -> ->].
  assert (find new_routers "InfraRouter" = Ok (router (Some "Router") (Some "[a-z]+"))) as Hr
    by (vm_compute; reflexivity).
  rewrite Hr in Hf. injection Hf as <-.
  destruct t; [destruct Hg|..]; apply elem_of_cons in Hg as [[=]|Hg];
    apply list_elem_of_singleton in Hg as [= ->].
  apply list_elem_of_singleton in Hn as ->. vm_compute in Hfield. by injection Hfield as <-.
Qed.

Lemma validate_update_accepts_iff_witness :
  validate_update (H:=insertion_order) false old_routers new_routers = Ok router_result ∧
  ∀ p, changes_property new_routers router_diff p → prop_of p ∉ frozen_properties (sp_path_type p).
Proof.
  assert (validate_update (H:=insertion_order) false old_routers new_routers = Ok router_result) as Hv
    by (vm_compute; reflexivity).
  split; [exact Hv|].
  apply (validate_update_accepts_iff (H:=insertion_order) false old_routers new_routers router_diff
           router_result router_diff_computed router_fields_apart Hv).
  reflexivity.
Defined.
