(* ===== verification/ConstraintDeterminer.v ===== *)
(** * Which constraints a data change must be checked against

    [ConstraintValidatorDeterminer] of
    [backend/infrahub/core/validators/determiner.py]: from the differences of the
    nodes of a branch, the constraints of the schema that the changed attributes
    and relationships may break. *)

From stdpp Require Import prelude strings.
From S2P Require Import Prelude PyString PyDict SdkUtils Constants HashModel SchemaDefs.
From S2P Require Import NodeSchemaOps SchemaPaths SchemaStore SchemaUpdate.

(** ** Data *)

(** The parts of the SDK's [NodeDiffElement] and [NodeDiff] that are read. *)
Record NodeDiffElement := mkNodeDiffElement {
  el_name : string;
  el_element_type : string;
}.
Record NodeDiff := mkNodeDiff {
  nd_kind : string;
  nd_elements : list NodeDiffElement;
}.

Module DiffElementType.
Inductive DiffElementType := ATTRIBUTE | RELATIONSHIP_ONE | RELATIONSHIP_MANY.
#[export] Instance DiffElementType_value : StringEnum DiffElementType := λ x,
match x with
| ATTRIBUTE => "Attribute" | RELATIONSHIP_ONE => "RelationshipOne"
| RELATIONSHIP_MANY => "RelationshipMany"
end.
End DiffElementType.
Export (hints) DiffElementType.
Abbreviation DiffElementType := DiffElementType.DiffElementType.

(** Elements by kind, then by name. *)
Definition ElementMap : Type := list (string * list (string * list NodeDiffElement)).

Record Determiner := mkDeterminer {
  node_diffs_by_kind : list (string * list NodeDiff);
  attribute_element_map : ElementMap;
  relationship_element_map : ElementMap;
}.
#[export] Instance Determiner_rebuild : Rebuild Determiner := λ d,
  mkDeterminer (node_diffs_by_kind d) (attribute_element_map d) (relationship_element_map d).

(** [ConstraintValidatorDeterminer(schema_branch)] *)
Definition new_determiner : Determiner := mkDeterminer [] [] [].

(** ** Index of the changes *)

Definition is_relationship_type (element_type : string) : bool :=
  bool_decide (py_lower element_type ∈
    [py_lower (enum_value DiffElementType.RELATIONSHIP_MANY);
     py_lower (enum_value DiffElementType.RELATIONSHIP_ONE)]).
Definition is_attribute_type (element_type : string) : bool :=
  bool_decide (py_lower element_type ∈ [py_lower (enum_value DiffElementType.ATTRIBUTE)]).

(** [m[node_kind][element_name].append(element)], with the missing levels created *)
Definition add_element (m : ElementMap) (node_kind : string) (element : NodeDiffElement) : ElementMap :=
  dict_set m node_kind (dict_append (default [] (dict_get m node_kind)) (el_name element) element).

Definition index_element (node_kind : string) (d : Determiner) (element : NodeDiffElement) : Determiner :=
  if is_relationship_type (el_element_type element)
  then d <| relationship_element_map := add_element (relationship_element_map d) node_kind element |>
  else if is_attribute_type (el_element_type element)
  then d <| attribute_element_map := add_element (attribute_element_map d) node_kind element |>
  else d.

Definition index_node_diff (d : Determiner) (node_diff : NodeDiff) : Determiner :=
  let node_kind := nd_kind node_diff in
  let d := d <| node_diffs_by_kind := dict_append (node_diffs_by_kind d) node_kind node_diff |> in
  let d := if dict_mem (attribute_element_map d) node_kind then d
           else d <| attribute_element_map := dict_set (attribute_element_map d) node_kind [] |> in
  foldl (index_element node_kind) d (nd_elements node_diff).

Definition _index_node_diffs (d : Determiner) (node_diffs : list NodeDiff) : Determiner :=
  foldl index_node_diff d node_diffs.

Definition lookup_elements (m : ElementMap) (k name : string) : list NodeDiffElement :=
  default [] (dict_get (default [] (dict_get m k)) name).
Definition _get_attribute_diffs (d : Determiner) (k name : string) : list NodeDiffElement :=
  lookup_elements (attribute_element_map d) k name.
Definition _get_relationship_diffs (d : Determiner) (k name : string) : list NodeDiffElement :=
  lookup_elements (relationship_element_map d) k name.

(** ** Constraints *)

Section constraints.
Context `{SetOrder}.

(** [getattr(obj, prop_name) is None] *)
Definition is_none (fields : list (string * fval)) (prop_name : string) : result bool :=
  match dict_get fields prop_name with
  | Some (FVal JNull) => Ok true
  | Some _ => Ok false
  | None => Err (AttributeError prop_name)
  end.

(** The constraint of one property: [None] when the loop continues. *)
Definition property_constraint (fields : list (string * fval)) (skip : bool)
    (constraint : string → SchemaUpdateConstraintInfo)
    (prop : string * UpdateSupport) : result (option SchemaUpdateConstraintInfo) :=
  if bool_decide (prop.2 = UpdateSupport.VALIDATE_CONSTRAINT) then
    none ← is_none fields prop.1;
    Ok (if none || skip then None else Some (constraint prop.1))
  else Ok None.

Definition _get_property_constraints_for_one_schema (schema : MainSchema) :
    result (list SchemaUpdateConstraintInfo) :=
  let constraint prop_name :=
    mkConstraintInfo (node_property_path (kind schema) prop_name)
      ("node." +:+ prop_name +:+ ".update") in
  cs ← mapM (property_constraint (schema_fields schema) false constraint)
         (filter (λ prop, prop.1 ∉ ["attributes"; "relationships"]) (schema_update_support schema));
  Ok (omap id cs).

Definition field_fields (f : AttributeSchema + RelationshipSchema) : list (string * fval) :=
  match f with inl a => attribute_fields a | inr r => relationship_fields r end.
Definition field_path_type (f : AttributeSchema + RelationshipSchema) : SchemaPathType :=
  match f with inl _ => SchemaPathType.ATTRIBUTE | inr _ => SchemaPathType.RELATIONSHIP end.
Definition field_name (f : AttributeSchema + RelationshipSchema) : string :=
  match f with inl a => a_name a | inr r => r_name r end.
(** A relationship of the kind Group is never checked. *)
Definition is_group (f : AttributeSchema + RelationshipSchema) : bool :=
  match f with inl _ => false | inr r => bool_decide (r_kind r = RelationshipKind.GROUP) end.

Definition _get_constraints_for_one_field (schema : MainSchema) (f : AttributeSchema + RelationshipSchema) :
    result (list SchemaUpdateConstraintInfo) :=
  let constraint prop_name :=
    mkConstraintInfo (field_property_path (field_path_type f) (kind schema) (field_name f) prop_name)
      (enum_value (field_path_type f) +:+ "." +:+ prop_name +:+ ".update") in
  cs ← mapM (property_constraint (field_fields f) (is_group f) constraint) (field_update_support f);
  Ok (omap id cs).

(** The loop over the attribute names or over the relationship names: the
    fields that have a change. *)
Definition fields_constraints (schema : MainSchema) (names : list string)
    (diffs : string → list NodeDiffElement)
    (get : string → result (AttributeSchema + RelationshipSchema)) :
    result (list SchemaUpdateConstraintInfo) :=
  cs ← mapM (λ name,
      match diffs name with
      | [] => Ok []
      | _ :: _ => f ← get name; _get_constraints_for_one_field schema f
      end) names;
  Ok (concat cs).

Definition _get_attribute_constraints_for_one_schema (d : Determiner) (schema : MainSchema) :
    result (list SchemaUpdateConstraintInfo) :=
  fields_constraints schema (attribute_names schema) (_get_attribute_diffs d (kind schema))
    (λ name, inl <$> get_attribute schema name).
Definition _get_relationship_constraints_for_one_schema (d : Determiner) (schema : MainSchema) :
    result (list SchemaUpdateConstraintInfo) :=
  fields_constraints schema (relationship_names schema) (_get_relationship_diffs d (kind schema))
    (λ name, inr <$> get_relationship schema name).

Definition _get_constraints_for_one_schema (d : Determiner) (schema : MainSchema) :
    result (list SchemaUpdateConstraintInfo) :=
  attrs ← _get_attribute_constraints_for_one_schema d schema;
  rels ← _get_relationship_constraints_for_one_schema d schema;
  Ok (attrs ++ rels).

Definition _get_all_property_constraints (schema_branch : BranchState) :
    result (list SchemaUpdateConstraintInfo) :=
  all ← (get_all false schema_branch).1;
  cs ← mapM _get_property_constraints_for_one_schema (dict_values all);
  Ok (concat cs).

(** [get_constraints]: the new index, and the constraints or the exception. *)
Definition get_constraints (schema_branch : BranchState) (d : Determiner) (node_diffs : list NodeDiff)
    (filter_invalid : bool) : result (list SchemaUpdateConstraintInfo) * Determiner :=
  let d := _index_node_diffs d node_diffs in
  match node_diffs with
  | [] => (Ok [], d)
  | _ :: _ =>
      ((properties ← _get_all_property_constraints schema_branch;
        fields ← mapM (λ k, schema ← find schema_branch k; _get_constraints_for_one_schema d schema)
                   (dict_keys (node_diffs_by_kind d));
        let constraints := properties ++ concat fields in
        Ok (if filter_invalid
            then filter (λ c, available CONSTRAINT_VALIDATOR_MAP (constraint_name c)) constraints
            else constraints)), d)
  end.
End constraints.

(** ** What the constraints are *)

(** The property has a value other than [None]. *)
Definition set_property (fields : list (string * fval)) (prop : string) : Prop :=
  ∃ v, dict_get fields prop = Some v ∧ v ≠ FVal JNull.

(** The attribute or relationship [f] belongs to the schema. *)
Definition owns (schema : MainSchema) (f : AttributeSchema + RelationshipSchema) : Prop :=
  match f with
  | inl a => get_attribute schema (a_name a) = Ok a
  | inr r => get_relationship schema (r_name r) = Ok r
  end.

(** Some difference of a node of the kind [k] has an element for [f]. *)
Definition field_has_diff (node_diffs : list NodeDiff) (k : string)
    (f : AttributeSchema + RelationshipSchema) : Prop :=
  ∃ nd el, nd ∈ node_diffs ∧ nd_kind nd = k ∧ el ∈ nd_elements nd ∧ el_name el = field_name f ∧
    match f with
    | inl _ => is_attribute_type (el_element_type el) = true
    | inr _ => is_relationship_type (el_element_type el) = true
    end.

Section spec.
Context `{SetOrder}.

(** A constraint on a property of some schema of the branch. *)
Inductive kind_constraint (s : BranchState) : SchemaUpdateConstraintInfo → Prop :=
  | kind_constraint_intro name schema prop :
      name ∈ all_names (branch s) → name ∉ INTERNAL_SCHEMA_NODE_KINDS → find s name = Ok schema →
      (prop, UpdateSupport.VALIDATE_CONSTRAINT) ∈ schema_update_support schema →
      set_property (schema_fields schema) prop →
      kind_constraint s (mkConstraintInfo (node_property_path (kind schema) prop)
                           ("node." +:+ prop +:+ ".update")).

(** A constraint on a property of a changed attribute or relationship. *)
Inductive field_constraint (s : BranchState) (node_diffs : list NodeDiff) :
    SchemaUpdateConstraintInfo → Prop :=
  | field_constraint_intro nd schema f prop :
      nd ∈ node_diffs → find s (nd_kind nd) = Ok schema →
      owns schema f → field_has_diff node_diffs (kind schema) f → is_group f = false →
      (prop, UpdateSupport.VALIDATE_CONSTRAINT) ∈ field_update_support f →
      set_property (field_fields f) prop →
      field_constraint s node_diffs
        (mkConstraintInfo (field_property_path (field_path_type f) (kind schema) (field_name f) prop)
           (enum_value (field_path_type f) +:+ "." +:+ prop +:+ ".update")).

(** *** The index *)

Lemma lookup_add_element m k k' name el x :
  x ∈ lookup_elements (add_element m k el) k' name ↔
  x ∈ lookup_elements m k' name ∨ (k = k' ∧ el_name el = name ∧ x = el).
Proof.
  unfold lookup_elements, add_element, dict_append. rewrite dict_get_set.
  destruct (decide (k = k')) as [->|Hne]; cbn; [|naive_solver].
  rewrite dict_get_set. destruct (decide (el_name el = name)) as [Hn|Hn]; cbn.
  - rewrite elem_of_app, list_elem_of_singleton, Hn. naive_solver.
  - naive_solver.
Qed.

(** The two maps of an index, by the type of the element. *)
Definition indexed (relationship : bool) (d : Determiner) : string → string → list NodeDiffElement :=
  if relationship then _get_relationship_diffs d else _get_attribute_diffs d.
Definition of_type (relationship : bool) (el : NodeDiffElement) : bool :=
  if relationship then is_relationship_type (el_element_type el)
  else is_attribute_type (el_element_type el).

Lemma types_disjoint t : is_relationship_type t = true → is_attribute_type t = false.
Proof.
  unfold is_relationship_type, is_attribute_type. rewrite bool_decide_eq_true, bool_decide_eq_false.
  intros Hin Ha. apply list_elem_of_singleton in Ha. rewrite Ha in Hin. revert Hin.
  rewrite !elem_of_cons, elem_of_nil. by intros [|[|]].
Qed.

Lemma indexed_element b k d el k' name x :
  x ∈ indexed b (index_element k d el) k' name ↔
  x ∈ indexed b d k' name ∨ (k = k' ∧ of_type b el = true ∧ el_name el = name ∧ x = el).
Proof.
  unfold index_element, of_type, indexed, _get_relationship_diffs, _get_attribute_diffs.
  destruct (is_relationship_type (el_element_type el)) eqn:Hr.
  - rewrite (types_disjoint _ Hr). destruct b; [|naive_solver].
    etransitivity; [exact (lookup_add_element (relationship_element_map d) k k' name el x)|naive_solver].
  - destruct (is_attribute_type (el_element_type el)) eqn:Ha; [|destruct b; naive_solver].
    destruct b; [naive_solver|].
    etransitivity; [exact (lookup_add_element (attribute_element_map d) k k' name el x)|naive_solver].
Qed.

Lemma indexed_elements b k els d k' name x :
  x ∈ indexed b (foldl (index_element k) d els) k' name ↔
  x ∈ indexed b d k' name ∨ (k = k' ∧ x ∈ els ∧ of_type b x = true ∧ el_name x = name).
Proof.
  revert d. induction els as [|el els IH]; intros d; cbn; [set_solver|].
  rewrite IH, indexed_element, elem_of_cons. naive_solver.
Qed.

Lemma indexed_spec b l d k name x :
  x ∈ indexed b (_index_node_diffs d l) k name ↔
  x ∈ indexed b d k name ∨
  ∃ nd, nd ∈ l ∧ nd_kind nd = k ∧ x ∈ nd_elements nd ∧ of_type b x = true ∧ el_name x = name.
Proof.
  unfold _index_node_diffs. revert d. induction l as [|nd l IH]; intros d; cbn [foldl].
  { set_solver. }
  rewrite IH. unfold index_node_diff at 1. rewrite indexed_elements. setoid_rewrite elem_of_cons.
  match goal with |- context [indexed b ?d' k name] =>
    assert (indexed b d' k name = indexed b d k name) as -> end.
  { destruct d as [m_nodes m_attrs m_rels]. unfold assign. cbn.
    destruct (dict_mem m_attrs (nd_kind nd)) eqn:Hm; [by destruct b|].
    destruct b; [done|]. cbn. unfold _get_attribute_diffs, lookup_elements. cbn.
    rewrite dict_get_set. case_decide as Hk; [|done]. subst k.
    apply not_true_iff_false in Hm. rewrite dict_mem_spec, <-dict_get_None in Hm. by rewrite Hm. }
  naive_solver.
Qed.

Lemma index_kinds l d k :
  k ∈ dict_keys (node_diffs_by_kind (_index_node_diffs d l)) ↔
  k ∈ dict_keys (node_diffs_by_kind d) ∨ k ∈ nd_kind <$> l.
Proof.
  unfold _index_node_diffs. revert d. induction l as [|nd l IH]; intros d; cbn [foldl]; [set_solver|].
  rewrite IH. clear IH. rewrite fmap_cons, elem_of_cons. unfold index_node_diff.
  assert (∀ els d', node_diffs_by_kind (foldl (index_element (nd_kind nd)) d' els) = node_diffs_by_kind d')
    as ->.
  { induction els as [|el els IHe]; intros d'; [done|]. cbn. rewrite IHe. unfold index_element.
    repeat case_match; done. }
  destruct d as [m_nodes m_attrs m_rels]. unfold assign. cbn.
  destruct (dict_mem m_attrs _); cbn; rewrite dict_keys_set; case_decide; set_solver.
Qed.

(** *** The constraints *)

Lemma property_constraints_spec fields skip constraint table :
  (∀ prop, (prop, UpdateSupport.VALIDATE_CONSTRAINT) ∈ table → prop ∈ dict_keys fields) →
  ∃ cs : list (option SchemaUpdateConstraintInfo),
    mapM (property_constraint fields skip constraint) table = Ok cs ∧
    ∀ c, c ∈ omap id cs ↔ skip = false ∧ ∃ prop,
      (prop, UpdateSupport.VALIDATE_CONSTRAINT) ∈ table ∧ set_property fields prop ∧
      c = constraint prop.
Proof.
  intros Hfields.
  assert (∀ prop, (prop, UpdateSupport.VALIDATE_CONSTRAINT) ∈ table →
    (property_constraint fields skip constraint (prop, UpdateSupport.VALIDATE_CONSTRAINT) = Ok None ∧
     (skip = true ∨ ¬ set_property fields prop)) ∨
    (property_constraint fields skip constraint (prop, UpdateSupport.VALIDATE_CONSTRAINT)
       = Ok (Some (constraint prop)) ∧ skip = false ∧ set_property fields prop)) as Hprop.
  { intros prop Hp. apply Hfields, dict_get_is_Some in Hp as [v Hv].
    unfold property_constraint, is_none, set_property. cbn. rewrite Hv.
    assert (v = FVal JNull ∨ v ≠ FVal JNull) as [->|Hne]
      by (destruct v as [[]| |]; auto; by right).
    { left. split; [done|]. right. naive_solver. }
    rewrite bool_decide_true by done.
    assert (match v with FVal JNull => Ok true | _ => Ok false end = Ok false) as ->
      by (by destruct v as [[]| |]).
    destruct skip; [left|right]; eauto. }
  assert (∀ prop u, u ≠ UpdateSupport.VALIDATE_CONSTRAINT →
    property_constraint fields skip constraint (prop, u) = Ok None) as Hother.
  { intros prop u Hu. unfold property_constraint. cbn. by rewrite bool_decide_false. }
  destruct (mapM_total (property_constraint fields skip constraint) table) as (cs & Hcs & Hin).
  { intros [prop u] Hp. destruct (decide (u = UpdateSupport.VALIDATE_CONSTRAINT)) as [->|Hu]; [|eauto].
    destruct (Hprop prop Hp) as [[Ho _]|[Ho _]]; eauto. }
  exists cs. split; [done|]. intros c. rewrite list_elem_of_omap. setoid_rewrite Hin. split.
  - unfold id. intros (o & ([prop u] & Hp & Ho) & ->).
    destruct (decide (u = UpdateSupport.VALIDATE_CONSTRAINT)) as [->|Hu];
      [|rewrite Hother in Ho by done; congruence].
    destruct (Hprop prop Hp) as [[Hc _]|(Hc & -> & Hs)]; [congruence|].
    split; [done|]. exists prop. split_and!; [done..|]. congruence.
  - intros (-> & prop & Hp & Hs & ->).
    destruct (Hprop prop Hp) as [[_ [?|?]]|(Hc & _ & _)]; [done..|].
    exists (Some (constraint prop)). split; [|done]. by exists (prop, UpdateSupport.VALIDATE_CONSTRAINT).
Qed.

(** The tables of metadata have the fields of the classes, in the same order. *)
Lemma update_support_fields schema prop u :
  (prop, u) ∈ schema_update_support schema → prop ∈ dict_keys (schema_fields schema).
Proof.
  intros Hp%(list_elem_of_fmap_2 fst). revert Hp. unfold schema_update_support, schema_fields, dict_keys.
  rewrite !fmap_app, !elem_of_app.
  assert (base_node_update_support.*1 = (base_node_fields schema).*1) as -> by done.
  destruct (n_class schema); cbn -[elem_of]; set_solver.
Qed.
Lemma field_support_fields f prop u :
  (prop, u) ∈ field_update_support f → prop ∈ dict_keys (field_fields f).
Proof. intros Hp%(list_elem_of_fmap_2 fst). by destruct f. Qed.

Lemma lists_not_validated schema prop :
  (prop, UpdateSupport.VALIDATE_CONSTRAINT) ∈ schema_update_support schema →
  prop ∉ ["attributes"; "relationships"].
Proof.
  assert (Forall (λ kv, kv.2 = UpdateSupport.VALIDATE_CONSTRAINT → kv.1 ∉ ["attributes"; "relationships"])
    (base_node_update_support ++ node_update_support ++ generic_update_support)) as Hall
    by (apply (bool_decide_unpack _); vm_compute; exact I).
  rewrite Forall_forall in Hall. intros Hp. apply (Hall (prop, UpdateSupport.VALIDATE_CONSTRAINT)); [|done].
  unfold schema_update_support in Hp. rewrite !elem_of_app in *.
  destruct (n_class schema); cbn [class_update_support] in Hp; rewrite ?elem_of_nil in Hp; tauto.
Qed.

Lemma kind_constraints_spec schema :
  ∃ cs, _get_property_constraints_for_one_schema schema = Ok cs ∧
    ∀ c, c ∈ cs ↔ ∃ prop, (prop, UpdateSupport.VALIDATE_CONSTRAINT) ∈ schema_update_support schema ∧
      set_property (schema_fields schema) prop ∧
      c = mkConstraintInfo (node_property_path (kind schema) prop) ("node." +:+ prop +:+ ".update").
Proof.
  unfold _get_property_constraints_for_one_schema.
  edestruct (property_constraints_spec (schema_fields schema) false) as (cs & Hcs & Hin);
    [|rewrite Hcs; exists (omap id cs); split; [done|]].
  - intros prop [_ Hp]%list_elem_of_filter. by eapply update_support_fields.
  - intros c. rewrite Hin. setoid_rewrite list_elem_of_filter. split.
    + intros (_ & prop & [_ Hp] & Hs & ->). eauto.
    + intros (prop & Hp & Hs & ->). split; [done|]. exists prop. split_and!; [|done..].
      by apply (lists_not_validated schema).
Qed.

Lemma field_constraints_spec schema f :
  ∃ cs, _get_constraints_for_one_field schema f = Ok cs ∧
    ∀ c, c ∈ cs ↔ is_group f = false ∧
      ∃ prop, (prop, UpdateSupport.VALIDATE_CONSTRAINT) ∈ field_update_support f ∧
        set_property (field_fields f) prop ∧
        c = mkConstraintInfo (field_property_path (field_path_type f) (kind schema) (field_name f) prop)
              (enum_value (field_path_type f) +:+ "." +:+ prop +:+ ".update").
Proof.
  unfold _get_constraints_for_one_field.
  edestruct (property_constraints_spec (field_fields f) (is_group f)) as (cs & Hcs & Hin);
    [|rewrite Hcs; exists (omap id cs); split; [done|]].
  - intros prop. apply field_support_fields.
  - intros c. apply Hin.
Qed.

(** The fields of one list of a schema: those with a change. *)
Lemma fields_constraints_spec schema names diffs get :
  (∀ name, name ∈ names → ∃ f, get name = Ok f ∧ field_name f = name) →
  ∃ cs, fields_constraints schema names diffs get = Ok cs ∧
    ∀ c, c ∈ cs ↔ ∃ name f prop, name ∈ names ∧ diffs name ≠ [] ∧ get name = Ok f ∧
      is_group f = false ∧ (prop, UpdateSupport.VALIDATE_CONSTRAINT) ∈ field_update_support f ∧
      set_property (field_fields f) prop ∧
      c = mkConstraintInfo (field_property_path (field_path_type f) (kind schema) (field_name f) prop)
            (enum_value (field_path_type f) +:+ "." +:+ prop +:+ ".update").
Proof.
  intros Hget. unfold fields_constraints.
  match goal with |- context [mapM ?g names] => set (step := g) end.
  assert (∀ name f, get name = Ok f → diffs name ≠ [] →
    step name = _get_constraints_for_one_field schema f) as Hstep.
  { intros name f Hf Hd. unfold step. destruct (diffs name); [done|]. by rewrite Hf. }
  destruct (mapM_total step names) as (css & Hcss & Hin).
  { intros name (f & Hf & _)%Hget. destruct (diffs name) eqn:Hd.
    - unfold step. rewrite Hd. by eexists.
    - rewrite (Hstep name f) by (done || by rewrite Hd).
      destruct (field_constraints_spec schema f) as (cs & -> & _). by eexists. }
  rewrite Hcss. exists (concat css). split; [done|]. intros c.
  rewrite elem_of_concat. setoid_rewrite Hin. split.
  - intros (cs & (name & Hn & Hs) & Hc). destruct (Hget name Hn) as (f & Hf & _).
    destruct (diffs name) eqn:Hd.
    { unfold step in Hs. rewrite Hd in Hs. injection Hs as <-. by apply elem_of_nil in Hc. }
    rewrite (Hstep name f) in Hs by (done || by rewrite Hd).
    destruct (field_constraints_spec schema f) as (cs' & Hcs' & Hspec).
    rewrite Hcs' in Hs. injection Hs as ->. apply Hspec in Hc as (Hg & prop & Hp & Hset & ->).
    exists name, f, prop. split_and!; try done. by rewrite Hd.
  - intros (name & f & prop & Hn & Hd & Hf & Hg & Hp & Hset & ->).
    destruct (field_constraints_spec schema f) as (cs & Hcs & Hspec).
    exists cs. split; [exists name; split; [done|]; by rewrite (Hstep name f)|].
    apply Hspec. split; [done|]. by exists prop.
Qed.

Lemma nonempty_elem {A} (l : list A) : l ≠ [] ↔ ∃ x, x ∈ l.
Proof. destruct l; [split; [done|set_solver]|]. split; [intros _; eexists; left|done]. Qed.

Lemma schema_constraints_spec node_diffs schema :
  ∃ cs, _get_constraints_for_one_schema (_index_node_diffs new_determiner node_diffs) schema = Ok cs ∧
    ∀ c, c ∈ cs ↔ ∃ f prop, owns schema f ∧ field_has_diff node_diffs (kind schema) f ∧
      is_group f = false ∧ (prop, UpdateSupport.VALIDATE_CONSTRAINT) ∈ field_update_support f ∧
      set_property (field_fields f) prop ∧
      c = mkConstraintInfo (field_property_path (field_path_type f) (kind schema) (field_name f) prop)
            (enum_value (field_path_type f) +:+ "." +:+ prop +:+ ".update").
Proof.
  unfold _get_constraints_for_one_schema, _get_attribute_constraints_for_one_schema,
    _get_relationship_constraints_for_one_schema.
  set (d := _index_node_diffs new_determiner node_diffs).
  assert (∀ b k name x, x ∈ indexed b d k name ↔
    ∃ nd, nd ∈ node_diffs ∧ nd_kind nd = k ∧ x ∈ nd_elements nd ∧ of_type b x = true ∧ el_name x = name)
    as Hidx.
  { intros b k name x. unfold d. rewrite indexed_spec.
    assert (indexed b new_determiner k name = []) as -> by (by destruct b). set_solver. }
  destruct (fields_constraints_spec schema (attribute_names schema) (_get_attribute_diffs d (kind schema))
    (λ name, inl <$> get_attribute schema name)) as (acs & -> & Ha).
  { intros name (a & Hn & Heq)%get_attribute_known. exists (inl a). by rewrite Hn. }
  destruct (fields_constraints_spec schema (relationship_names schema) (_get_relationship_diffs d (kind schema))
    (λ name, inr <$> get_relationship schema name)) as (rcs & -> & Hr).
  { intros name (r & Hn & Heq)%get_relationship_known. exists (inr r). by rewrite Hn. }
  exists (acs ++ rcs). split; [done|]. intros c. rewrite elem_of_app, Ha, Hr.
  setoid_rewrite nonempty_elem. clear Ha Hr. split.
  - intros [(name & f & prop & Hn & [x Hx] & Hf & Hg & Hp)|(name & f & prop & Hn & [x Hx] & Hf & Hg & Hp)];
      exists f, prop.
    + destruct (get_attribute schema name) as [a|] eqn:Hget; [|done]. injection Hf as <-.
      destruct (get_attribute_ok _ _ _ Hget) as [_ <-]. split_and!; try done; [|apply Hp..].
      apply (Hidx false) in Hx as (nd & ? & ? & ? & ? & ?). by exists nd, x.
    + destruct (get_relationship schema name) as [r|] eqn:Hget; [|done]. injection Hf as <-.
      destruct (get_relationship_ok _ _ _ Hget) as [_ <-]. split_and!; try done; [|apply Hp..].
      apply (Hidx true) in Hx as (nd & ? & ? & ? & ? & ?). by exists nd, x.
  - intros (f & prop & Hown & (nd & el & Hnd & Hk & Hel & Hname & Ht) & Hrest).
    destruct f as [a|r]; [left; exists (a_name a), (inl a), prop|right; exists (r_name r), (inr r), prop].
    + cbn in Hown. destruct (get_attribute_ok _ _ _ Hown) as [Hin _]. rewrite Hown.
      split; [apply list_elem_of_fmap; by exists a|]. split; [|split; [done|exact Hrest]].
      exists el. apply (Hidx false). by exists nd.
    + cbn in Hown. destruct (get_relationship_ok _ _ _ Hown) as [Hin _]. rewrite Hown.
      split; [apply list_elem_of_fmap; by exists r|]. split; [|split; [done|exact Hrest]].
      exists el. apply (Hidx true). by exists nd.
Qed.

(** A dictionary built from pairs that agree has exactly these values. *)
Lemma dict_of_list_values {V} (l : list (string * V)) v :
  (∀ k v1 v2, (k, v1) ∈ l → (k, v2) ∈ l → v1 = v2) →
  v ∈ dict_values (dict_of_list l) ↔ ∃ k, (k, v) ∈ l.
Proof.
  intros Hfun.
  assert (∀ k v', dict_get (dict_of_list l) k = Some v' → (k, v') ∈ l) as Hget.
  { intros k v'. change (dict_of_list l) with (dict_update [] l). rewrite dict_get_update.
    destruct (dict_get (reverse l) k) as [w|] eqn:Hw; [|done]. intros [= <-].
    apply dict_get_Some_in in Hw. by rewrite reverse_Permutation in Hw. }
  unfold dict_values. rewrite list_elem_of_fmap. split.
  - intros ([k w] & -> & Hin). exists k. apply Hget, dict_get_in; [apply NoDup_dict_of_list|done].
  - intros (k & Hk). assert (is_Some (dict_get (dict_of_list l) k)) as [w Hw].
    { apply dict_get_is_Some, dict_of_list_keys, list_elem_of_fmap. by exists (k, v). }
    exists (k, w). rewrite (Hfun k v w Hk) by by apply Hget. split; [done|]. by apply dict_get_Some_in.
Qed.

Lemma all_schemas_spec s :
  wf s →
  ∃ all, (get_all false s).1 = Ok all ∧ ∀ schema, schema ∈ dict_values all ↔
    ∃ name, name ∈ all_names (branch s) ∧ name ∉ INTERNAL_SCHEMA_NODE_KINDS ∧ find s name = Ok schema.
Proof.
  intros Hwf.
  set (names := filter (λ name, false || negb (bool_decide (name ∈ INTERNAL_SCHEMA_NODE_KINDS)))
                  (all_names (branch s))).
  set (item := λ name, item ← find s name; Ok (name, item)).
  destruct (mapM_total item names) as (items & Hitems & Hin).
  { intros name [_ Hn]%list_elem_of_filter. unfold item.
    destruct (find_spec s name Hwf) as [[Hno _]|(h & r & o & _ & _ & _ & _ & ->)]; [|by eexists].
    by apply find_key_None in Hno. }
  exists (dict_of_list items). split.
  { unfold get_all, gets, mbind, exec_bind. cbn [fst snd].
    rewrite (mapM_branch_reader _ item); [fold names; by rewrite Hitems|].
    intros name. unfold item, get. by destruct (find s name). }
  assert (∀ k v, (k, v) ∈ items ↔ k ∈ names ∧ find s k = Ok v) as Hpair.
  { intros k v. rewrite Hin. unfold item. split.
    - intros (name & Hn & Hi). destruct (find s name) as [o|] eqn:Ho; [|done].
      by injection Hi as <- <-.
    - intros [Hk Hv]. exists k. split; [done|]. by rewrite Hv. }
  intros schema. rewrite dict_of_list_values.
  - setoid_rewrite Hpair. unfold names. setoid_rewrite list_elem_of_filter. cbn [orb].
    setoid_rewrite Is_true_true. setoid_rewrite negb_true_iff. setoid_rewrite bool_decide_eq_false.
    split; intros (k & H1); exists k; tauto.
  - intros k v1 v2 [_ H1]%Hpair [_ H2]%Hpair. congruence.
Qed.

Lemma all_kind_constraints s :
  wf s →
  ∃ cs, _get_all_property_constraints s = Ok cs ∧ ∀ c, c ∈ cs ↔ kind_constraint s c.
Proof.
  intros Hwf. unfold _get_all_property_constraints. destruct (all_schemas_spec s Hwf) as (all & -> & Hall).
  cbn [mbind result_bind].
  destruct (mapM_total _get_property_constraints_for_one_schema (dict_values all)) as (pcs & -> & Hp).
  { intros schema _. destruct (kind_constraints_spec schema) as (cs & -> & _). by eexists. }
  exists (concat pcs). split; [done|]. intros c. rewrite elem_of_concat.
  setoid_rewrite Hp. setoid_rewrite Hall. split.
  - intros (l & (schema & (name & Hn & Hi & Hfind) & Hl) & Hc).
    destruct (kind_constraints_spec schema) as (cs & Hcs & Hspec). rewrite Hcs in Hl. injection Hl as ->.
    apply Hspec in Hc as (prop & Hprop & Hset & ->). by econstructor.
  - intros [name schema prop Hn Hi Hfind Hprop Hset].
    destruct (kind_constraints_spec schema) as (cs & Hcs & Hspec).
    exists cs. split; [exists schema; split; [by exists name|done]|]. apply Hspec. by exists prop.
Qed.

Lemma all_field_constraints s node_diffs :
  wf s → (∀ nd, nd ∈ node_diffs → nd_kind nd ∈ all_names (branch s)) →
  let d := _index_node_diffs new_determiner node_diffs in
  ∃ css, mapM (λ k, schema ← find s k; _get_constraints_for_one_schema d schema)
           (dict_keys (node_diffs_by_kind d)) = Ok css ∧
    ∀ c, c ∈ concat css ↔ field_constraint s node_diffs c.
Proof.
  intros Hwf Hkinds d.
  edestruct (mapM_total (λ k, schema ← find s k; _get_constraints_for_one_schema d schema)
    (dict_keys (node_diffs_by_kind d))) as (fcs & -> & Hf).
  { intros k [Hk|(nd & -> & Hk)%list_elem_of_fmap]%index_kinds; [by apply elem_of_nil in Hk|].
    destruct (find_spec s (nd_kind nd) Hwf) as [[Hno _]|(h & r & o & _ & _ & _ & _ & ->)].
    { apply find_key_None in Hno. by destruct Hno; apply Hkinds. }
    destruct (schema_constraints_spec node_diffs o) as (cs & Hcs & _). exists cs. exact Hcs. }
  exists fcs. split; [done|]. intros c. rewrite elem_of_concat. setoid_rewrite Hf. split.
  - intros (l & (k & Hk & Hl) & Hc).
    apply index_kinds in Hk as [Hk|(nd & -> & Hk)%list_elem_of_fmap]; [by apply elem_of_nil in Hk|].
    destruct (find s (nd_kind nd)) as [schema|] eqn:Hfind; [|done]. cbn in Hl.
    destruct (schema_constraints_spec node_diffs schema) as (cs & Hcs & Hspec).
    fold d in Hcs. rewrite Hcs in Hl. injection Hl as ->.
    apply Hspec in Hc as (f & prop & Ho & Hd & Hg & Hpr & Hset & ->). by econstructor.
  - intros [nd schema f prop Hnd Hfind Ho Hd Hg Hpr Hset].
    destruct (schema_constraints_spec node_diffs schema) as (cs & Hcs & Hspec). exists cs. split.
    + exists (nd_kind nd). split; [apply index_kinds; right; apply list_elem_of_fmap; by exists nd|].
      rewrite Hfind. exact Hcs.
    + apply Hspec. by exists f, prop.
Qed.
End spec.

(** The determiner always answers when the branch knows the kinds of the
    changed nodes, and its answer is exactly: the constraints with a validator
    that are declared by the set properties of any schema of the branch, and
    those declared by the set properties of the attributes and relationships
    (other than the relationships to groups) that some difference of a node of
    that kind touches.  Without node differences there is none. *)
Theorem get_constraints_spec `{SetOrder} (s : BranchState) (node_diffs : list NodeDiff) :
  wf s →
  (∀ nd, nd ∈ node_diffs → nd_kind nd ∈ all_names (branch s)) →
  ∃ cs, (get_constraints s new_determiner node_diffs true).1 = Ok cs ∧
    ∀ c, c ∈ cs ↔ node_diffs ≠ [] ∧ available CONSTRAINT_VALIDATOR_MAP (constraint_name c) = true ∧
      (kind_constraint s c ∨ field_constraint s node_diffs c).
Proof.
  intros Hwf Hkinds. unfold get_constraints.
  destruct (all_kind_constraints s Hwf) as (pcs & Hpcs & Hp).
  destruct (all_field_constraints s node_diffs Hwf Hkinds) as (fcs & Hfcs & Hf). rewrite Hpcs.
  destruct node_diffs as [|nd0 node_diffs']; [exists []; split; [done|]; set_solver|].
  cbn [fst mbind result_bind] in *. rewrite Hfcs. eexists. split; [done|].
  intros c. rewrite list_elem_of_filter, Is_true_true, elem_of_app, Hp, Hf. naive_solver.
Qed.

(** *** Example *)

Lemma get_constraints_spec_witness :
  let s := router_branch None (Some "[a-z]+") in
  let diffs := [mkNodeDiff "InfraRouter" [mkNodeDiffElement "name" "Attribute"]] in
  let p := field_property_path SchemaPathType.ATTRIBUTE "InfraRouter" "name" "regex" in
  ∃ cs, (get_constraints (H:=insertion_order) s new_determiner diffs true).1 = Ok cs ∧
    mkConstraintInfo p "attribute.regex.update" ∈ cs.
Proof.
  cbv zeta. set (s := router_branch None (Some "[a-z]+")).
  destruct (get_constraints_spec (H:=insertion_order) s
    [mkNodeDiff "InfraRouter" [mkNodeDiffElement "name" "Attribute"]]) as (cs & Hcs & Hin).
  - apply set_wf, empty_wf.
  - intros nd ->%list_elem_of_singleton. vm_compute. left.
  - exists cs. split; [exact Hcs|]. apply Hin. split; [discriminate|]. split; [reflexivity|]. right.
    set (name := name_attribute <| a_id := Some "1" |> <| a_regex := Some "[a-z]+" |>).
    match goal with |- field_constraint _ _ ?c =>
      replace c with (mkConstraintInfo (field_property_path (field_path_type (inl name))
        (kind (router None (Some "[a-z]+"))) (field_name (inl name)) "regex")
        (enum_value (field_path_type (inl name)) +:+ "." +:+ "regex" +:+ ".update")) by reflexivity end.
    eapply (field_constraint_intro (H:=insertion_order) s _ _ _ (inl name) "regex");
      [left|vm_compute; reflexivity|vm_compute; reflexivity| |reflexivity| |].
    + exists (mkNodeDiff "InfraRouter" [mkNodeDiffElement "name" "Attribute"]), (mkNodeDiffElement "name" "Attribute").
      split; [left|]. split; [vm_compute; reflexivity|]. split; [left|]. split; vm_compute; reflexivity.
    + apply list_elem_of_In. vm_compute. intuition.
    + eexists. split; [vm_compute; reflexivity|discriminate].
Defined.
