(* ===== verification/SchemaMerge.v ===== *)
(** * The schemas of a merge

    The part of [BranchMerger] ([backend/infrahub/core/merge.py]) that works on the
    schemas: the candidate schema, the three-way difference (the sum of two
    [SchemaDiff], through their dictionaries) and the migrations and constraints
    it requires. *)

From stdpp Require Import prelude strings.
From S2P Require Import Prelude PyString PyDict SdkUtils Constants HashModel SchemaDefs.
From S2P Require Import NodeSchemaOps SchemaPaths SchemaStore SchemaUpdate.

(** ** [model_dump] *)

Fixpoint hmd_dump (d : HashableModelDiff) : json :=
  let dump_dict (l : list (string * option HashableModelDiff)) : json :=
    JDict (map (λ kv, (kv.1, match kv.2 with Some x => hmd_dump x | None => JNull end)) l) in
  JDict [("added", dump_dict (added d)); ("changed", dump_dict (changed d));
         ("removed", dump_dict (removed d))].

Definition sd_dump (d : SchemaDiff) : list (string * json) :=
  [("added", JDict ((λ kv, (kv.1, hmd_dump kv.2)) <$> sd_added d));
   ("changed", JDict ((λ kv, (kv.1, hmd_dump kv.2)) <$> sd_changed d));
   ("removed", JDict ((λ kv, (kv.1, match kv.2 with Some x => hmd_dump x | None => JNull end)) <$> sd_removed d))].

(** ** Validation of the constructor *)

Definition pydantic_error : exn := ValidationError "pydantic".

(** The field [name] of a difference (no other field is accepted). *)
Definition set_diff_field {T} (name : string) (fields : T * T * T) (v : T) : result (T * T * T) :=
  let '(a, c, r) := fields in
  if decide (name = "added") then Ok (v, c, r)
  else if decide (name = "changed") then Ok (a, v, r)
  else if decide (name = "removed") then Ok (a, c, v)
  else Err pydantic_error.

Fixpoint hmd_parse (j : json) : result HashableModelDiff :=
  match j with
  | JDict fields =>
      '(a, c, r) ← (fix parse_fields (acc : _) (fields : list (string * json)) {struct fields} :=
         match fields with
         | [] => Ok acc
         | (name, v) :: rest =>
             items ← match v with
                     | JDict items =>
                         (fix parse_items (items : list (string * json)) {struct items} :=
                            match items with
                            | [] => Ok []
                            | (k, x) :: rest =>
                                h ← match x with JNull => Ok None | _ => Some <$> hmd_parse x end;
                                l ← parse_items rest;
                                Ok ((k, h) :: l)
                            end) items
                     | _ => Err pydantic_error
                     end;
             acc ← set_diff_field name acc items;
             parse_fields acc rest
         end) ([], [], []) fields;
      Ok (mkHashableModelDiff a c r)
  | _ => Err pydantic_error
  end.

(** The values of the dictionaries of a [SchemaDiff] are differences, not [None]. *)
Definition sd_parse_dict (v : json) : result (list (string * HashableModelDiff)) :=
  match v with
  | JDict items => mapM (λ kv, h ← hmd_parse kv.2; Ok (kv.1, h)) items
  | _ => Err pydantic_error
  end.
Definition sd_parse (fields : list (string * json)) : result SchemaDiff :=
  '(a, c, r) ← foldM (λ acc kv, items ← sd_parse_dict kv.2; set_diff_field kv.1 acc items)
    ([], [], []) fields;
  Ok (mkSchemaDiff a c ((λ kv, (kv.1, Some kv.2)) <$> r)).

(** [SchemaDiff.__add__] *)
Definition sd_add (self other : SchemaDiff) : result SchemaDiff :=
  merged_dict ← deep_merge_dict (JDict (sd_dump other)) (sd_dump self) [];
  sd_parse merged_dict.

(** ** [BranchMerger] *)

Section merger.
Context `{SetOrder} (pytest_running : bool).

(** [get_candidate_schema]: a copy of the destination updated from the source;
    the two branches share the cache of the registry. *)
Definition get_candidate_schema (st : Store) (source_schema destination_schema : SchemaBranch) :
    result unit * BranchState :=
  branch_update (branch_duplicate None source_schema)
    (mkBranchState st (branch_duplicate None destination_schema)).

Definition get_3ways_diff_schema (initial_source_schema source_schema destination_schema : BranchState) :
    result SchemaDiff :=
  diff_source ← branch_diff pytest_running initial_source_schema source_schema;
  diff_destination ← branch_diff pytest_running initial_source_schema destination_schema;
  sd_add diff_source diff_destination.

Definition three_way_validation (initial_source_schema source_schema destination_schema
    target_schema : BranchState) : result SchemaUpdateValidationResult :=
  diff_3way ← get_3ways_diff_schema initial_source_schema source_schema destination_schema;
  let '(outcome, validation) := validation_init diff_3way target_schema in
  _ ← outcome;
  Ok validation.
Definition calculate_migrations (initial source destination target : BranchState) :
    result (list SchemaUpdateMigrationInfo) :=
  migrations <$> three_way_validation initial source destination target.
Definition calculate_validations (initial source destination target : BranchState) :
    result (list SchemaUpdateConstraintInfo) :=
  constraints <$> three_way_validation initial source destination target.
End merger.

(** ** Round trip *)

Section hmd_ind.
Variable P : HashableModelDiff → Prop.
Definition item_holds (kv : string * option HashableModelDiff) : Prop :=
  match kv.2 with Some x => P x | None => True end.
Hypothesis step : ∀ a c r, Forall item_holds a → Forall item_holds c → Forall item_holds r →
  P (mkHashableModelDiff a c r).

Fixpoint hmd_ind' (d : HashableModelDiff) : P d :=
  let go := fix go (l : list (string * option HashableModelDiff)) : Forall item_holds l :=
    match l with
    | [] => Forall_nil_2 item_holds
    | (k, Some x) :: l' => Forall_cons_2 item_holds (k, Some x) l' (hmd_ind' x) (go l')
    | (k, None) :: l' => Forall_cons_2 item_holds (k, None) l' I (go l')
    end in
  match d with mkHashableModelDiff a c r => step a c r (go a) (go c) (go r) end.
End hmd_ind.

Definition dump_item (x : option HashableModelDiff) : json :=
  match x with Some x => hmd_dump x | None => JNull end.
Definition dump_items (l : list (string * option HashableModelDiff)) : list (string * json) :=
  (λ kv, (kv.1, dump_item kv.2)) <$> l.
Definition parse_items (items : list (string * json)) : result (list (string * option HashableModelDiff)) :=
  mapM (λ kv, h ← match kv.2 with JNull => Ok None | _ => Some <$> hmd_parse kv.2 end; Ok (kv.1, h)) items.

Lemma hmd_parse_eq fields :
  hmd_parse (JDict fields) =
  ('(a, c, r) ← foldM (λ acc kv,
       items ← match kv.2 with JDict items => parse_items items | _ => Err pydantic_error end;
       set_diff_field kv.1 acc items) ([], [], []) fields;
   Ok (mkHashableModelDiff a c r)).
Proof.
  cbn [hmd_parse]. generalize ([] : list (string * option HashableModelDiff),
    [] : list (string * option HashableModelDiff), [] : list (string * option HashableModelDiff)).
  intros acc. f_equal. revert acc. induction fields as [|[name v] rest IH]; intros acc; [done|].
  cbn [foldM fst snd].
  assert ((match v with JDict items => parse_items items | _ => Err pydantic_error end) =
          match v with
          | JDict items =>
              (fix parse_items (items : list (string * json)) {struct items} :=
                 match items with
                 | [] => Ok []
                 | (k, x) :: rest =>
                     h ← match x with JNull => Ok None | _ => Some <$> hmd_parse x end;
                     l ← parse_items rest;
                     Ok ((k, h) :: l)
                 end) items
          | _ => Err pydantic_error
          end) as <-.
  { destruct v as [| | | | |items]; try done. unfold parse_items.
    induction items as [|[k x] items IHi]; [done|]. cbn [mapM fst snd].
    destruct (match x with JNull => _ | _ => _ end); cbn; [|done]. rewrite <-IHi.
    by destruct (mapM _ items). }
  destruct (match v with JDict items => _ | _ => _ end); cbn; [|done].
  destruct (set_diff_field _ _ _); cbn; [apply IH|done].
Qed.

Lemma hmd_dump_eq d :
  hmd_dump d = JDict [("added", JDict (dump_items (added d))); ("changed", JDict (dump_items (changed d)));
                      ("removed", JDict (dump_items (removed d)))].
Proof. by destruct d. Qed.

Lemma parse_items_dump l :
  Forall (item_holds (λ x, hmd_parse (hmd_dump x) = Ok x)) l → parse_items (dump_items l) = Ok l.
Proof.
  unfold parse_items, dump_items. induction 1 as [|[k [x|]] l Hx Hl IH]; [done| |]; cbn [fmap list_fmap mapM fst snd].
  - cbn in Hx. cbn [dump_item]. rewrite Hx, (hmd_dump_eq x). cbn. by rewrite IH.
  - cbn. by rewrite IH.
Qed.

Lemma hmd_roundtrip d : hmd_parse (hmd_dump d) = Ok d.
Proof.
  induction d as [a c r Ha Hc Hr] using hmd_ind'. rewrite hmd_dump_eq, hmd_parse_eq.
  cbn [foldM fst snd added changed removed]. by rewrite !parse_items_dump.
Qed.

Lemma sd_parse_dict_dump l :
  sd_parse_dict (JDict ((λ kv, (kv.1, hmd_dump kv.2)) <$> l)) = Ok l.
Proof.
  unfold sd_parse_dict. induction l as [|[k x] l IH]; [done|]. cbn [fmap list_fmap mapM fst snd].
  rewrite hmd_roundtrip. cbn. cbn in IH. by rewrite IH.
Qed.

(** A [None] among the values is refused. *)
Lemma sd_parse_dict_none items k :
  (k, JNull) ∈ items → ∃ e, sd_parse_dict (JDict items) = Err e.
Proof.
  unfold sd_parse_dict. induction items as [|[k' x] items IH]; [by intros ?%elem_of_nil|].
  intros [[= <- <-]|Hin]%elem_of_cons; cbn [mapM fst snd]; [by eexists|].
  destruct (hmd_parse x) as [h|e]; cbn; [|by eexists].
  destruct (IH Hin) as [e He]. cbn in He. rewrite He. by eexists.
Qed.

Lemma dump_removed (l : list (string * option HashableModelDiff)) :
  (∀ k, (k, None) ∉ l) →
  (λ kv : string * option HashableModelDiff, (kv.1, match kv.2 with Some x => hmd_dump x | None => JNull end)) <$> l =
  (λ kv, (kv.1, hmd_dump kv.2)) <$> omap (λ kv, (λ x, (kv.1, x)) <$> kv.2) l ∧
  (λ kv, (kv.1, Some kv.2)) <$> omap (λ kv, (λ x, (kv.1, x)) <$> kv.2) l = l.
Proof.
  induction l as [|[k [x|]] l IH]; intros Hn; [done| |].
  - destruct IH as [IH1 IH2]; [intros k' Hk'; apply (Hn k'); by right|].
    rewrite fmap_cons. cbn. cbn in IH1, IH2. by rewrite IH1, IH2.
  - destruct (Hn k). left.
Qed.

(** The dictionary of a [SchemaDiff] ([model_dump]) is read back as the same
    difference exactly when no removed kind has the value [None]. *)
Theorem schema_diff_roundtrip (d : SchemaDiff) :
  sd_parse (sd_dump d) = Ok d ↔ ∀ k, (k, None) ∉ sd_removed d.
Proof.
  unfold sd_parse, sd_dump. cbn [foldM fst snd]. rewrite !sd_parse_dict_dump. cbn [mbind result_bind].
  cbn [set_diff_field]. split.
  - intros Hd k Hk.
    destruct (sd_parse_dict_none ((λ kv, (kv.1, match kv.2 with Some x => hmd_dump x | None => JNull end))
      <$> sd_removed d) k) as [e He]; [apply list_elem_of_fmap; by exists (k, None)|].
    rewrite He in Hd. discriminate Hd.
  - intros Hn. destruct (dump_removed _ Hn) as [-> Hl]. rewrite sd_parse_dict_dump. revert Hl.
    generalize (omap (λ kv, (λ x, (kv.1, x)) <$> kv.2) (sd_removed d)). intros l0 Hl.
    change (Ok (mkSchemaDiff (sd_added d) (sd_changed d) ((λ kv, (kv.1, Some kv.2)) <$> l0)) = Ok d).
    rewrite Hl. by destruct d.
Qed.

(** ** A kind in the state "absent" *)

Lemma dict_get_fmap {A B} (f : A → B) (l : list (string * A)) k :
  dict_get ((λ kv, (kv.1, f kv.2)) <$> l) k = f <$> dict_get l k.
Proof. induction l as [|[k' x] l IH]; [done|]. cbn. by destruct (decide (k = k')). Qed.

Lemma dict_keys_fmap {A B} (f : A → B) (l : list (string * A)) :
  dict_keys ((λ kv, (kv.1, f kv.2)) <$> l) = dict_keys l.
Proof. unfold dict_keys. rewrite <-list_fmap_compose. by apply list_fmap_ext. Qed.

Lemma py_eq_null v : py_eq v JNull = true → v = JNull.
Proof. by destruct v. Qed.

Lemma merge_value_null path va vb v :
  va = JNull ∨ vb = JNull → merge_value path va vb = Ok v → v = JNull.
Proof.
  intros [->| ->].
  - unfold merge_value. destruct (py_eq JNull vb); [by intros [= <-]|done].
  - unfold merge_value. destruct va; cbn; try done; by intros [= <-].
Qed.

Lemma fmap_deep_merge path da db v :
  merge_value path (JDict da) (JDict db) = Ok v →
  ∃ sub, v = JDict sub ∧ deep_merge_dict (JDict db) da path = Ok sub.
Proof.
  change (merge_value path (JDict da) (JDict db)) with (JDict <$> deep_merge_dict (JDict db) da path).
  destruct (deep_merge_dict (JDict db) da path) as [sub|]; [|done]. intros [= <-]. by exists sub.
Qed.

(** Merging two dictionaries of which one has the value [None] at [k]. *)
Lemma merge_null_get path ra rb c k :
  NoDup (dict_keys rb) → dict_get ra k = Some JNull ∨ dict_get rb k = Some JNull →
  foldM (merge_item path) ra rb = Ok c → dict_get c k = Some JNull.
Proof.
  intros Hnd Hk Hm. pose proof (merge_items_get path rb ra c Hnd Hm k) as Hget.
  destruct (dict_get rb k) as [vb|], (dict_get ra k) as [va|].
  - destruct Hget as (v & Hv & ->). f_equal. eapply merge_value_null, Hv. naive_solver.
  - naive_solver.
  - naive_solver.
  - naive_solver.
Qed.

(** The sum of two differences of which one has a removed kind without value. *)
Lemma sd_add_absent d d' k :
  NoDup (dict_keys (sd_removed d)) → NoDup (dict_keys (sd_removed d')) →
  (k, None) ∈ sd_removed d ∨ (k, None) ∈ sd_removed d' → ∃ e, sd_add d d' = Err e.
Proof.
  intros Hnd Hnd' Hk. unfold sd_add.
  destruct (deep_merge_dict (JDict (sd_dump d')) (sd_dump d) []) as [c|e] eqn:Hm; [|by exists e].
  cbn [mbind result_bind]. rewrite deep_merge_dict_fold in Hm.
  set (dump := λ x : option HashableModelDiff, match x with Some x => hmd_dump x | None => JNull end).
  pose proof (merge_items_get [] (sd_dump d') (sd_dump d) c) as Hget.
  destruct (Hget ltac:(apply (bool_decide_unpack _); vm_compute; exact I) Hm "removed") as (v & Hv & Hc).
  change (merge_value ["removed"] (JDict ((λ kv, (kv.1, dump kv.2)) <$> sd_removed d))
    (JDict ((λ kv, (kv.1, dump kv.2)) <$> sd_removed d')) = Ok v) in Hv.
  apply fmap_deep_merge in Hv as (sub & -> & Hsub). rewrite deep_merge_dict_fold in Hsub.
  assert (dict_get sub k = Some JNull) as Hnull.
  { eapply merge_null_get, Hsub; [by rewrite dict_keys_fmap|]. rewrite !dict_get_fmap.
    destruct Hk as [Hk|Hk]; apply dict_get_in in Hk; try done; rewrite Hk; [by left|by right]. }
  apply dict_get_Some_in in Hnull, Hc. destruct (sd_parse_dict_none _ _ Hnull) as [e He].
  unfold sd_parse. match goal with |- context [foldM ?f ?a c] =>
    destruct (foldM_stuck f c a ("removed", JDict sub) Hc) as [e' He'] end.
  { intros acc. cbn [fst snd]. rewrite He. by eexists. }
  rewrite He'. by eexists.
Qed.

(** The kinds of a difference of two branches are distinct. *)
Lemma branch_diff_removed `{SetOrder} pytest_running self other d :
  branch_diff pytest_running self other = Ok d → NoDup (dict_keys (sd_removed d)).
Proof.
  unfold branch_diff. intros (lm & _ & Hd)%bind_ok. apply bind_ok in Hd as (om & _ & Hd).
  cbn zeta in Hd. destruct (compare_lists _ _) as [[both local_only] other_only].
  apply bind_ok in Hd as (d1 & Hd1 & Hd2).
  eapply (foldM_inv (λ d, NoDup (dict_keys (sd_removed d)))) in Hd2; [done| |].
  - intros x id x' _ Hx Hstep. unfold diff_by_id in Hstep. py_inv Hstep.
    repeat case_decide; repeat case_match; simplify_eq/=; try done; by apply NoDup_dict_set.
  - eapply (foldM_inv (λ d, NoDup (dict_keys (sd_removed d)))) in Hd1; [done| |apply NoDup_dict_of_list].
    intros x id x' _ Hx Hstep. unfold diff_by_kind in Hstep. py_inv Hstep. by case_match.
Qed.

(** When a kind of the source branch is in the state "absent", the three-way
    difference of a merge never succeeds: the difference has the value [None] for
    it, which the sum of the differences refuses; neither the migrations nor the
    constraints of the merge can then be calculated. *)
Theorem absent_kind_blocks_merge `{SetOrder} (pytest_running : bool)
    (initial source destination target : BranchState) (d : SchemaDiff) (k : string) :
  branch_diff pytest_running initial source = Ok d → (k, None) ∈ sd_removed d →
  (∃ e, get_3ways_diff_schema pytest_running initial source destination = Err e) ∧
  (∃ e, calculate_migrations pytest_running initial source destination target = Err e) ∧
  (∃ e, calculate_validations pytest_running initial source destination target = Err e).
Proof.
  intros Hd Hk.
  assert (∃ e, get_3ways_diff_schema pytest_running initial source destination = Err e) as [e He].
  { unfold get_3ways_diff_schema. rewrite Hd. cbn [mbind result_bind].
    destruct (branch_diff _ initial destination) as [d'|e] eqn:Hd'; cbn; [|by exists e].
    eapply sd_add_absent; [by eapply branch_diff_removed..|by left]. }
  unfold calculate_migrations, calculate_validations, three_way_validation. rewrite He.
  split_and!; by exists e.
Qed.

(** The kind "InfraRouter" with its id, present or absent. *)
Definition router_with_state (st : HashableModelState) : BranchState :=
  (set (H:=insertion_order) "InfraRouter"
     ((router None None) <| n_id := Some "17" |> <| n_state := st |>) empty_state).2.

Lemma absent_kind_blocks_merge_witness :
  ∃ e, get_3ways_diff_schema (H:=insertion_order) false (router_with_state HashableModelState.PRESENT)
    (router_with_state HashableModelState.ABSENT) (router_with_state HashableModelState.PRESENT) = Err e.
Proof.
  apply (absent_kind_blocks_merge (H:=insertion_order) false (router_with_state HashableModelState.PRESENT)
    (router_with_state HashableModelState.ABSENT) (router_with_state HashableModelState.PRESENT)
    (router_with_state HashableModelState.PRESENT)
    (mkSchemaDiff [] [] [("InfraRouter", None)]) "InfraRouter").
  - vm_compute. reflexivity.
  - left.
Defined.
