(* ===== verification/Uniqueness.v ===== *)
(** * Uniqueness constraints

    The index of the rows of [NodeUniqueAttributeConstraintQuery]
    ([backend/infrahub/core/validators/uniqueness/index.py]); the check of a node before it
    is saved ([core/node/constraints/grouped_uniqueness.py]); the check of the data
    after a change of the schema ([core/validators/uniqueness/checker.py], [model.py] and
    [query.py]).  The rows that Cypher returns are a parameter. *)

From stdpp Require Import prelude strings.
From S2P Require Import Prelude PyString PyDict SdkUtils Constants HashModel SchemaDefs NodeSchemaOps.
From S2P Require Import SchemaPaths.

(** ** Values *)

(** The value of an attribute of a node: an enumeration's is a member of a Python [Enum]. *)
Inductive AttrValue :=
  | Plain (v : json)
  | EnumMember (class member : string) (v : json).
#[export] Instance AttrValue_eq_dec : EqDecision AttrValue.
Proof. solve_decision. Defined.

Definition value_is_none (v : AttrValue) : bool := match v with Plain JNull => true | _ => false end.
Definition value_str (v : AttrValue) : string :=
  match v with Plain v => py_str v | EnumMember class member _ => class +:+ "." +:+ member end.
Definition value_truthy (v : AttrValue) : bool := match v with Plain v => truthy_json v | EnumMember _ _ _ => true end.

Record SchemaAttributePathValue := mkPathValue {
  sapv_path : SchemaAttributePath;
  sapv_value : AttrValue;
}.

(** A row of the query. *)
Record UniquenessRow := mkUniquenessRow {
  row_node_id : string;
  row_deepest_branch_name : string;
  row_attr_name : string;
  row_attr_value : json;
  row_relationship_identifier : option string;
}.


(** [QueryResult.get_as_str]: a false value gives [None]. *)
Definition get_as_str (item : json) : option string := if truthy_json item then Some (py_str item) else None.
Definition str_or_none (s : string) : option string := get_as_str (JStr s).

(** ** [UniquenessQueryResultsIndex] *)

Record UniquenessQueryResultsIndex := mkIndex {
  _relationship_index : list (string * list (string * list string));
  _attribute_index : list (string * list (string * list string));
  _node_index : list (string * list (string * string));
  _all_node_ids : list string;
}.
#[export] Instance UniquenessIndex_rebuild : Rebuild UniquenessQueryResultsIndex := λ i,
  mkIndex (_relationship_index i) (_attribute_index i) (_node_index i) (_all_node_ids i).

(** [index[key][value].add(node_id)] *)
Definition index_add (index : list (string * list (string * list string))) (key value node_id : string) :
    list (string * list (string * list string)) :=
  let by_value := default [] (dict_get index key) in
  dict_set index key (dict_set by_value value (set_add node_id (default [] (dict_get by_value value)))).

Definition indexed_value (row : UniquenessRow) : option string :=
  v ← get_as_str (row_attr_value row); if decide (v = NULL_VALUE) then None else Some v.

Definition set_node_value (index : list (string * list (string * string))) (node_id key value : string) :=
  dict_set index node_id (dict_set (default [] (dict_get index node_id)) key value).

Definition index_row (exclude_node_ids : list string) (index : UniquenessQueryResultsIndex) (row : UniquenessRow) :
    UniquenessQueryResultsIndex :=
  match str_or_none (row_node_id row) with
  | None => index
  | Some node_id =>
      if decide (node_id ∈ exclude_node_ids) then index
      else
        let index := index <| _node_index := dict_setdefault (_node_index index) node_id [] |>
                           <| _all_node_ids := set_add node_id (_all_node_ids index) |> in
        match row_relationship_identifier row ≫= str_or_none, str_or_none (row_attr_name row) with
        | Some relationship_identifier, _ =>
            let index := index <| _relationship_index :=
                                    dict_setdefault (_relationship_index index) relationship_identifier [] |> in
            match indexed_value row with
            | Some attr_value =>
                index <| _relationship_index := index_add (_relationship_index index) relationship_identifier attr_value node_id |>
                      <| _node_index := set_node_value (_node_index index) node_id relationship_identifier attr_value |>
            | None => index
            end
        | None, Some attr_name =>
            let index := index <| _attribute_index := dict_setdefault (_attribute_index index) attr_name [] |> in
            match indexed_value row with
            | Some attr_value =>
                index <| _attribute_index := index_add (_attribute_index index) attr_name attr_value node_id |>
                      <| _node_index := set_node_value (_node_index index) node_id attr_name attr_value |>
            | None => index
            end
        | None, None => index
        end
  end.

Definition empty_index : UniquenessQueryResultsIndex := mkIndex [] [] [] [].
Definition index_results (query_results : list UniquenessRow) (exclude_node_ids : list string) :
    UniquenessQueryResultsIndex :=
  foldl (index_row exclude_node_ids) empty_index query_results.

Definition lookup_ids (index : list (string * list (string * list string))) (key value : string) : list string :=
  default [] (dict_get (default [] (dict_get index key)) value).

(** The loop of [get_node_ids_for_value_group]. *)
Fixpoint match_values (index : UniquenessQueryResultsIndex) (matching_node_ids : list string)
    (path_value_group : list SchemaAttributePathValue) : result (list string) :=
  match path_value_group with
  | [] => Ok matching_node_ids
  | v :: rest =>
      if value_is_none (sapv_value v) then Ok []
      else
        let value := value_str (sapv_value v) in
        matching ← (match relationship_schema (sapv_path v), attribute_schema (sapv_path v) with
          | Some rel, _ =>
              relationship_identifier ← get_identifier rel;
              Ok (set_inter matching_node_ids (lookup_ids (_relationship_index index) relationship_identifier value))
          | None, Some attr =>
              Ok (set_inter matching_node_ids (lookup_ids (_attribute_index index) (a_name attr) value))
          | None, None => Ok matching_node_ids
          end);
        match matching with [] => Ok [] | _ => match_values index matching rest end
  end.
Definition get_node_ids_for_value_group (index : UniquenessQueryResultsIndex)
    (path_value_group : list SchemaAttributePathValue) : result (list string) :=
  match_values index (_all_node_ids index) path_value_group.

(** The key of a path in the index of the nodes. *)
Definition path_key (p : SchemaAttributePath) : result (option string) :=
  match relationship_schema p, attribute_schema p with
  | Some rel, _ => Some <$> get_identifier rel
  | None, Some attr => Ok (Some (a_name attr))
  | None, None => Ok None
  end.

(** [GroupedIndexKey]; [None]: one of the values is missing. *)
Definition grouped_key (key_group : list string) (attribute_details : list (string * string)) :
    option (list (string * string)) :=
  mapM (λ k, v ← dict_get attribute_details k; Some (k, v)) key_group.

Definition group_node (key_group : list string) (groups : list (list (string * string) * list string))
    (node : string * list (string * string)) : list (list (string * string) * list string) :=
  match grouped_key key_group node.2 with
  | Some key => dict_set groups key (set_add node.1 (default [] (dict_get groups key)))
  | None => groups
  end.

Definition get_node_ids_for_path_group (index : UniquenessQueryResultsIndex) (path_group : list SchemaAttributePath) :
    result (list string) :=
  keys ← mapM path_key path_group;
  let groups := foldl (group_node (omap id keys)) [] (_node_index index) in
  Ok (foldl (λ violation node_ids, if decide (1 < length node_ids)%nat then py_set (violation ++ node_ids) else violation)
        [] (dict_values groups)).

(** ** Requests *)

Record QueryAttributePath := mkQueryAttributePath {
  qa_attribute_name : string;
  qa_property_name : option string;
  qa_value : AttrValue;
}.
#[export] Instance QueryAttributePath_eq_dec : EqDecision QueryAttributePath.
Proof. solve_decision. Defined.
Record QueryRelationshipAttributePath := mkQueryRelationshipPath {
  qr_identifier : string;
  qr_attribute_name : option string;
  qr_value : AttrValue;
}.
#[export] Instance QueryRelationshipAttributePath_eq_dec : EqDecision QueryRelationshipAttributePath.
Proof. solve_decision. Defined.

Record NodeUniquenessQueryRequest := mkRequest {
  q_kind : string;
  unique_attribute_paths : list QueryAttributePath;
  relationship_attribute_paths : list QueryRelationshipAttributePath;
}.
#[export] Instance NodeUniquenessQueryRequest_rebuild : Rebuild NodeUniquenessQueryRequest := λ r,
  mkRequest (q_kind r) (unique_attribute_paths r) (relationship_attribute_paths r).

(** [__bool__] *)
Definition request_bool (r : NodeUniquenessQueryRequest) : bool :=
  match unique_attribute_paths r, relationship_attribute_paths r with [], [] => false | _, _ => true end.

(** The parameters of the query; the paths are only used as sets. *)
Record UniquenessQueryParams := mkQueryParams {
  node_kind : string;
  attr_paths : list (string * string);
  attr_paths_with_value : list (string * string * AttrValue);
  relationship_attr_paths : list (string * string);
  relationship_attr_paths_with_value : list (string * string * AttrValue);
  relationship_only_attr_paths : list string;
  min_count_required : Z;
}.
#[export] Instance UniquenessQueryParams_rebuild : Rebuild UniquenessQueryParams := λ p,
  mkQueryParams (node_kind p) (attr_paths p) (attr_paths_with_value p) (relationship_attr_paths p)
    (relationship_attr_paths_with_value p) (relationship_only_attr_paths p) (min_count_required p).

Definition attribute_property_map : list (string * string) := [("value", "HAS_VALUE")].

Definition or_value (property_name : option string) : string :=
  if truthy_str property_name then default "" property_name else "value".

Definition add_attr_path (params : UniquenessQueryParams) (attr_path : QueryAttributePath) : result UniquenessQueryParams :=
  property_rel_name ← require (ValueError "is not a valid property for a uniqueness constraint")
    (dict_get attribute_property_map (or_value (qa_property_name attr_path)));
  Ok (if value_truthy (qa_value attr_path)
      then params <| attr_paths_with_value :=
                       attr_paths_with_value params ++ [(qa_attribute_name attr_path, property_rel_name, qa_value attr_path)] |>
      else params <| attr_paths := attr_paths params ++ [(qa_attribute_name attr_path, property_rel_name)] |>).

Definition add_rel_path (params : UniquenessQueryParams) (rel_path : QueryRelationshipAttributePath) : UniquenessQueryParams :=
  match qr_attribute_name rel_path with
  | Some (String c a) =>
      if value_truthy (qr_value rel_path)
      then params <| relationship_attr_paths_with_value :=
                       relationship_attr_paths_with_value params ++ [(qr_identifier rel_path, String c a, qr_value rel_path)] |>
      else params <| relationship_attr_paths := relationship_attr_paths params ++ [(qr_identifier rel_path, String c a)] |>
  | _ => params <| relationship_only_attr_paths := relationship_only_attr_paths params ++ [qr_identifier rel_path] |>
  end.

(** [NodeUniqueAttributeConstraintQuery.query_init] *)
Definition query_init (request : NodeUniquenessQueryRequest) (min_count_required : Z) : result UniquenessQueryParams :=
  params ← foldM add_attr_path (mkQueryParams (q_kind request) [] [] [] [] [] min_count_required)
             (unique_attribute_paths request);
  let params := foldl add_rel_path params (relationship_attribute_paths request) in
  match attr_paths params, attr_paths_with_value params, relationship_attr_paths params,
        relationship_attr_paths_with_value params, relationship_only_attr_paths params with
  | [], [], [], [], [] => Err (ValueError "doesn't have enough information to continue")
  | _, _, _, _, _ => Ok params
  end.

(** ** [NodeGroupedUniquenessConstraint] *)

(** The node to save: the properties of its attributes, and the id of the peer of its
    relationships of cardinality one. *)
Record UpdatedNode := mkUpdatedNode {
  node_id : string;
  node_attributes : list (string * list (string * AttrValue));
  node_peers : list (string * option string);
}.

Definition getattr (node : UpdatedNode) (attribute_name property_name : string) : result AttrValue :=
  properties ← require (AttributeError attribute_name) (dict_get (node_attributes node) attribute_name);
  require (AttributeError property_name) (dict_get properties property_name).

(** [filters and name in filters] *)
Definition in_filters (filters : option (list string)) (name : string) : bool :=
  truthy_list filters && bool_decide (name ∈ default [] filters).

Record PathGroupRequest := mkGroupRequest {
  include_in_query : bool;
  query_relationship_paths : list QueryRelationshipAttributePath;
  query_attribute_paths : list QueryAttributePath;
}.

Definition request_path (updated_node : UpdatedNode) (filters : option (list string)) (g : PathGroupRequest)
    (p : SchemaAttributePath) : result PathGroupRequest :=
  match related_schema p, relationship_schema p, attribute_schema p with
  | Some _, Some rel, _ =>
      identifier ← get_identifier rel;
      Ok (mkGroupRequest (include_in_query g || in_filters filters (r_name rel))
            (set_add (mkQueryRelationshipPath identifier None (Plain JNull)) (query_relationship_paths g))
            (query_attribute_paths g))
  | _, _, Some attr =>
      attribute_value ← getattr updated_node (a_name attr) "value";
      Ok (mkGroupRequest (include_in_query g || in_filters filters (a_name attr)) (query_relationship_paths g)
            (set_add (mkQueryAttributePath (a_name attr) (Some (or_value (attribute_property_name p))) attribute_value)
               (query_attribute_paths g)))
  | _, _, None => Ok g
  end.

Definition _build_query_request (updated_node : UpdatedNode) (node_schema : MainSchema)
    (path_groups : list (list SchemaAttributePath)) (filters : option (list string)) : result NodeUniquenessQueryRequest :=
  foldM (λ request path_group,
      g ← foldM (request_path updated_node filters) (mkGroupRequest (negb (truthy_list filters)) [] []) path_group;
      Ok (if include_in_query g
          then request <| relationship_attribute_paths :=
                            py_set (relationship_attribute_paths request ++ query_relationship_paths g) |>
                       <| unique_attribute_paths := py_set (unique_attribute_paths request ++ query_attribute_paths g) |>
          else request))
    (mkRequest (kind node_schema) [] []) path_groups.

Definition path_value (updated_node : UpdatedNode) (p : SchemaAttributePath) : result (list SchemaAttributePathValue) :=
  match relationship_schema p, attribute_schema p with
  | Some rel, _ =>
      related_node_id ← require (AttributeError (r_name rel)) (dict_get (node_peers updated_node) (r_name rel));
      Ok [mkPathValue p (Plain match related_node_id with Some id => JStr id | None => JNull end)]
  | None, Some attr =>
      attribute_value ← getattr updated_node (a_name attr) (or_value (attribute_property_name p));
      Ok [mkPathValue p attribute_value]
  | None, None => Ok []
  end.
Definition _get_node_attribute_path_values (updated_node : UpdatedNode) (path_group : list SchemaAttributePath) :
    result (list SchemaAttributePathValue) :=
  values ← mapM (path_value updated_node) path_group;
  Ok (concat values).

Definition constraint_field (v : SchemaAttributePathValue) : option string :=
  match relationship_schema (sapv_path v), attribute_schema (sapv_path v) with
  | Some rel, _ => Some (r_name rel)
  | None, Some attr => Some (a_name attr)
  | None, None => None
  end.

Definition uniqueness_error (values : list SchemaAttributePathValue) : exn :=
  ValidationError ("Violates uniqueness constraint '" +:+ py_join "-" (omap constraint_field values) +:+ "'").

Definition _check_one_constraint_group (schema_attribute_path_values : list SchemaAttributePathValue)
    (results_index : UniquenessQueryResultsIndex) : result unit :=
  if existsb (λ v, value_is_none (sapv_value v)) schema_attribute_path_values then Ok tt
  else
    matching_node_ids ← get_node_ids_for_value_group results_index schema_attribute_path_values;
    match matching_node_ids with
    | [] => Ok tt
    | _ => Err (uniqueness_error schema_attribute_path_values)
    end.

Definition _check_results (updated_node : UpdatedNode) (path_groups : list (list SchemaAttributePath))
    (query_results : list UniquenessRow) : result unit :=
  let results_index := index_results query_results [node_id updated_node] in
  for_all (λ path_group,
      values ← _get_node_attribute_path_values updated_node path_group;
      _check_one_constraint_group values results_index) path_groups.

Section constraint.
(** The rows of the query, and the schemas of the branch. *)
Context (run_query : UniquenessQueryParams → list UniquenessRow) (schema_branch : string → result MainSchema).

Definition _check_one_schema (node : UpdatedNode) (node_schema : MainSchema) (filters : option (list string)) : result unit :=
  path_groups ← get_unique_constraint_schema_attribute_paths node_schema schema_branch false;
  query_request ← _build_query_request node node_schema path_groups filters;
  if request_bool query_request then
    params ← query_init query_request 0;
    _check_results node path_groups (run_query params)
  else Ok tt.


(** [check]: the schema of the node and those of its generics that have constraints. *)
Definition constraint_check (node : UpdatedNode) (node_schema : MainSchema) (filters : option (list string)) : result unit :=
  parents ← mapM schema_branch (inherit_from node_schema);
  let schemas_to_check := node_schema :: filter (λ s, truthy_list (n_uniqueness_constraints s) = true) parents in
  for_all (λ s, _check_one_schema node s filters) schemas_to_check.
End constraint.

(** ** [NodeAttributeUniquenessConstraint] *)

Section attribute_constraint.
(** The ids of the nodes of a kind that have a value, and the schemas of the branch. *)
Context (query_nodes : MainSchema → string → AttrValue → list string) (schema_branch : string → result MainSchema).

(** The first generic in which the attribute is unique. *)
Fixpoint unique_parent (unique_attr : string) (generics : list string) : result (option MainSchema) :=
  match generics with
  | [] => Ok None
  | generic :: generics =>
      generic_parent_schema ← schema_branch generic;
      match get_attribute_or_none generic_parent_schema unique_attr with
      | Some parent_attr => if a_unique parent_attr then Ok (Some generic_parent_schema) else unique_parent unique_attr generics
      | None => unique_parent unique_attr generics
      end
  end.

Definition check_unique_attribute (node : UpdatedNode) (node_schema : MainSchema) (unique_attr : AttributeSchema) : result unit :=
  value ← getattr node (a_name unique_attr) "value";
  parent ← (if a_inherited unique_attr then unique_parent (a_name unique_attr) (inherit_from node_schema) else Ok None);
  let nodes := query_nodes (default node_schema parent) (a_name unique_attr) value in
  raise_if (existsb (λ n, negb (bool_decide (n = node_id node))) nodes) (ValidationError "An object already exist with this value").

Definition attribute_constraint_check (node : UpdatedNode) (node_schema : MainSchema) (filters : option (list string)) : result unit :=
  for_all (check_unique_attribute node node_schema)
    (filter (λ a, negb (truthy_list filters) || in_filters filters (a_name a) = true) (unique_attributes node_schema)).
End attribute_constraint.

(** ** [UniquenessChecker] *)

#[export] Instance FilterSchema_eq_dec : EqDecision FilterSchema.
Proof. solve_decision. Defined.
#[export] Instance DropdownChoice_eq_dec : EqDecision DropdownChoice.
Proof. solve_decision. Defined.
#[export] Instance AttributeSchema_eq_dec : EqDecision AttributeSchema.
Proof. solve_decision. Defined.
#[export] Instance RelationshipSchema_eq_dec : EqDecision RelationshipSchema.
Proof. solve_decision. Defined.

Record NonUniqueRelatedAttribute := mkRelatedAttribute {
  nura_relationship : RelationshipSchema;
  nura_attribute_name : string;
  nura_attribute_value : string;
  nura_deepest_branch_name : string;
}.
#[export] Instance NonUniqueRelatedAttribute_eq_dec : EqDecision NonUniqueRelatedAttribute.
Proof. solve_decision. Defined.
Record NonUniqueAttribute := mkNonUniqueAttribute {
  nua_attribute : AttributeSchema;
  nua_attribute_name : string;
  nua_attribute_value : string;
  nua_deepest_branch_name : string;
}.
#[export] Instance NonUniqueAttribute_eq_dec : EqDecision NonUniqueAttribute.
Proof. solve_decision. Defined.

Definition Violation : Type := NonUniqueAttribute + NonUniqueRelatedAttribute.

(** The properties of the two classes. *)
Definition grouping_key (v : Violation) : string :=
  match v with
  | inl a => nua_attribute_name a +:+ "/" +:+ nua_attribute_value a
  | inr r => r_name (nura_relationship r) +:+ "/" +:+ nura_attribute_name r +:+ "/" +:+ nura_attribute_value r
  end.
Definition violation_path_type (v : Violation) : PathType :=
  match v with inl _ => PathType.ATTRIBUTE | inr _ => PathType.RELATIONSHIP_ONE end.
Definition violation_field_name (v : Violation) : string :=
  match v with inl a => nua_attribute_name a | inr r => r_name (nura_relationship r) end.
Definition violation_property_name (v : Violation) : string :=
  match v with inl _ => "value" | inr r => nura_attribute_name r end.
Definition violation_value (v : Violation) : string :=
  match v with inl a => nua_attribute_value a | inr r => nura_attribute_value r end.
Definition violation_branch (v : Violation) : string :=
  match v with inl a => nua_deepest_branch_name a | inr r => nura_deepest_branch_name r end.

Record NonUniqueNode := mkNonUniqueNode {
  node_schema : MainSchema;
  nun_node_id : string;
  non_unique_attributes : list NonUniqueAttribute;
  non_unique_related_attributes : list NonUniqueRelatedAttribute;
}.
#[export] Instance NonUniqueNode_rebuild : Rebuild NonUniqueNode := λ n,
  mkNonUniqueNode (node_schema n) (nun_node_id n) (non_unique_attributes n) (non_unique_related_attributes n).

Definition get_relationship_violation (n : NonUniqueNode) (relationship_name : string) (attribute_name : option string) :
    option NonUniqueRelatedAttribute :=
  let attribute_names := match attribute_name with Some a => [a] | None => ["id"] end in
  find_first (λ nura, bool_decide (r_name (nura_relationship nura) = relationship_name) &&
                      bool_decide (nura_attribute_name nura ∈ attribute_names)) (non_unique_related_attributes n).
Definition get_attribute_violation (n : NonUniqueNode) (attribute_name : string) : option NonUniqueAttribute :=
  find_first (λ nua, bool_decide (nua_attribute_name nua = attribute_name)) (non_unique_attributes n).

Definition SubSchema : Type := AttributeSchema + RelationshipSchema.

Definition get_constraint_violation (n : NonUniqueNode) (constraint_specifications : list (SubSchema * option string)) :
    option (list Violation) :=
  mapM (λ spec, match spec with
                | (inl attr, _) => inl <$> get_attribute_violation n (a_name attr)
                | (inr rel, property_name) => inr <$> get_relationship_violation n (r_name rel) property_name
                end) constraint_specifications.

Definition get_attribute_path_from_string (path : string) (schema : MainSchema) : result (SubSchema * option string) :=
  '(name, property_name) ← (match py_split "__" path with
    | [name] => Ok (name, None)
    | [name; property_name] => Ok (name, Some property_name)
    | _ => Err (ValueError "too many values to unpack (expected 2)")
    end);
  match get_attribute_or_none schema name, get_relationship_or_none schema name with
  | Some attr, _ => Ok (inl attr, property_name)
  | None, Some rel => Ok (inr rel, property_name)
  | None, None => Err (ValueError (path +:+ " is not valid on " +:+ kind schema))
  end.

Definition add_constraint_path (schema : MainSchema) (request : NodeUniquenessQueryRequest) (path : string) :
    result NodeUniquenessQueryRequest :=
  '(sub_schema, property_name) ← get_attribute_path_from_string path schema;
  match sub_schema with
  | inl attr => Ok (request <| unique_attribute_paths :=
                      set_add (mkQueryAttributePath (a_name attr) property_name (Plain JNull)) (unique_attribute_paths request) |>)
  | inr rel =>
      identifier ← get_identifier rel;
      Ok (request <| relationship_attribute_paths :=
            set_add (mkQueryRelationshipPath identifier property_name (Plain JNull)) (relationship_attribute_paths request) |>)
  end.
Definition build_query_request (schema : MainSchema) : result NodeUniquenessQueryRequest :=
  let unique_attr_paths := py_set ((λ a, mkQueryAttributePath (a_name a) (Some "value") (Plain JNull)) <$> unique_attributes schema) in
  foldM (foldM (add_constraint_path schema)) (mkRequest (kind schema) unique_attr_paths [])
    (default [] (n_uniqueness_constraints schema)).

(** One row for one group of paths. *)
Definition parse_result (schema : MainSchema) (node_ids_in_violation group_identifiers group_attribute_names : list string)
    (nodes : list (string * NonUniqueNode)) (row : UniquenessRow) : result (list (string * NonUniqueNode)) :=
  let node_id := row_node_id row in
  if decide (node_id ∈ node_ids_in_violation) then
    let nodes := dict_setdefault nodes node_id (mkNonUniqueNode schema node_id [] []) in
    node ← require (KeyError node_id) (dict_get nodes node_id);
    let attribute_value := py_str (row_attr_value row) in
    match row_relationship_identifier row with
    | Some (String c i) =>
        if decide (String c i ∈ group_identifiers) then
          relationship_schema ← require (KeyError (String c i))
            (dict_get (dict_of_list ((λ rel, (r_identifier rel, rel)) <$> n_relationships schema)) (Some (String c i)));
          Ok (dict_set nodes node_id
                (node <| non_unique_related_attributes := non_unique_related_attributes node ++
                           [mkRelatedAttribute relationship_schema (row_attr_name row) attribute_value
                              (row_deepest_branch_name row)] |>))
        else Ok nodes
    | _ =>
        if decide (row_attr_name row ≠ "" ∧ row_attr_name row ∈ group_attribute_names) then
          attribute ← get_attribute schema (row_attr_name row);
          Ok (dict_set nodes node_id
                (node <| non_unique_attributes := non_unique_attributes node ++
                           [mkNonUniqueAttribute attribute (row_attr_name row) attribute_value
                              (row_deepest_branch_name row)] |>))
        else Ok nodes
    end
  else Ok nodes.

Definition parse_group (schema : MainSchema) (query_results : list UniquenessRow) (constraint_group : list SchemaAttributePath) :
    result (list NonUniqueNode) :=
  identifiers ← mapM get_identifier (omap relationship_schema constraint_group);
  let names := a_name <$> omap attribute_schema constraint_group in
  node_ids_in_violation ← get_node_ids_for_path_group (index_results query_results []) constraint_group;
  nodes ← foldM (parse_result schema node_ids_in_violation identifiers names) [] query_results;
  Ok (dict_values nodes).

Section checker.
Context `{SetOrder} (run_query : UniquenessQueryParams → list UniquenessRow) (schema_branch : string → result MainSchema).

Definition _parse_results (schema : MainSchema) (query_results : list UniquenessRow) : result (list NonUniqueNode) :=
  path_groups ← get_unique_constraint_schema_attribute_paths schema schema_branch true;
  nodes ← mapM (parse_group schema query_results) path_groups;
  Ok (concat nodes).

Definition check_one_schema (schema : MainSchema) : result (list NonUniqueNode) :=
  query_request ← build_query_request schema;
  if request_bool query_request then
    params ← query_init query_request 1;
    _parse_results schema (run_query params)
  else Ok [].

Definition get_uniqueness_violations (non_unique_node : NonUniqueNode) : result (list Violation) :=
  let schema := node_schema non_unique_node in
  let of_attributes := omap (λ a, inl <$> get_attribute_violation non_unique_node (a_name a)) (unique_attributes schema) in
  of_constraints ← mapM (λ uniqueness_constraint,
      constraint_spec ← mapM (λ element, get_attribute_path_from_string element schema) uniqueness_constraint;
      Ok (default [] (get_constraint_violation non_unique_node constraint_spec)))
    (default [] (n_uniqueness_constraints schema));
  Ok (py_set (of_attributes ++ concat of_constraints)).

Definition violation_data_path (non_unique_node : NonUniqueNode) (violation : Violation) : DataPath :=
  mkDataPath (violation_branch violation) (violation_path_type violation) (nun_node_id non_unique_node)
    (kind (node_schema non_unique_node)) (Some (violation_field_name violation))
    (Some (violation_property_name violation)) None (Some (JStr (violation_value violation))).

Definition generate_data_paths (grouped_data_paths : GroupedDataPaths) (non_unique_node : NonUniqueNode) :
    result GroupedDataPaths :=
  constraint_violations ← get_uniqueness_violations non_unique_node;
  Ok (foldl (λ g violation, add_data_path g (violation_data_path non_unique_node violation)
               (kind (node_schema non_unique_node) +:+ "/" +:+ grouping_key violation))
        grouped_data_paths (set_list constraint_violations)).

Definition check (node_schema : MainSchema) : result GroupedDataPaths :=
  non_unique_nodes ← check_one_schema node_schema;
  foldM generate_data_paths [] non_unique_nodes.
End checker.

(** ** The index *)

Definition rel_key (row : UniquenessRow) : option string := row_relationship_identifier row ≫= str_or_none.
Definition attr_key (row : UniquenessRow) : option string :=
  match rel_key row with Some _ => None | None => str_or_none (row_attr_name row) end.
Definition node_key (row : UniquenessRow) : option string :=
  match rel_key row with Some k => Some k | None => attr_key row end.

(** The rows that are indexed. *)
Definition kept (exclude_node_ids : list string) (rows : list UniquenessRow) : list UniquenessRow :=
  filter (λ row, row_node_id row ≠ "" ∧ row_node_id row ∉ exclude_node_ids) rows.

(** The value a node has for a key: the one of the last row. *)
Definition row_value (n k : string) (row : UniquenessRow) : option string :=
  if decide (row_node_id row = n ∧ node_key row = Some k) then indexed_value row else None.
Definition value_of (rows : list UniquenessRow) (n k : string) : option string := last (omap (row_value n k) rows).

Lemma str_or_none_spec s : str_or_none s = if decide (s = "") then None else Some s.
Proof. unfold str_or_none, get_as_str. cbn. by case_decide; case_bool_decide. Qed.

Lemma lookup_ids_setdefault d key k v : lookup_ids (dict_setdefault d key []) k v = lookup_ids d k v.
Proof. unfold lookup_ids. rewrite dict_get_setdefault. case_decide; [subst; by destruct (dict_get d key)|done]. Qed.

Lemma elem_of_index_add d key value node k v n :
  n ∈ lookup_ids (index_add d key value node) k v ↔ (n = node ∧ k = key ∧ v = value) ∨ n ∈ lookup_ids d k v.
Proof.
  unfold lookup_ids, index_add. rewrite dict_get_set. case_decide as Hk; [subst key; cbn|naive_solver].
  rewrite dict_get_set. case_decide as Hv; [subst value; cbn; rewrite elem_of_set_add|]; naive_solver.
Qed.

Record index_facts (i : UniquenessQueryResultsIndex) (rows : list UniquenessRow) : Prop := {
  facts_all n : n ∈ _all_node_ids i ↔ n ∈ row_node_id <$> rows;
  facts_rel n k v : n ∈ lookup_ids (_relationship_index i) k v ↔
    ∃ row, row ∈ rows ∧ row_node_id row = n ∧ rel_key row = Some k ∧ indexed_value row = Some v;
  facts_attr n k v : n ∈ lookup_ids (_attribute_index i) k v ↔
    ∃ row, row ∈ rows ∧ row_node_id row = n ∧ attr_key row = Some k ∧ indexed_value row = Some v;
  facts_nodes n : n ∈ dict_keys (_node_index i) ↔ n ∈ row_node_id <$> rows;
  facts_NoDup : NoDup (dict_keys (_node_index i));
  facts_value n k : dict_get (default [] (dict_get (_node_index i) n)) k = value_of rows n k;
}.

Lemma ex_elem_snoc {A} (P : A → Prop) l x : (∃ y, y ∈ l ++ [x] ∧ P y) ↔ P x ∨ ∃ y, y ∈ l ∧ P y.
Proof. setoid_rewrite elem_of_app. setoid_rewrite list_elem_of_singleton. naive_solver. Qed.

Lemma value_of_snoc rows row n k : value_of (rows ++ [row]) n k =
  match row_value n k row with Some v => Some v | None => value_of rows n k end.
Proof.
  unfold value_of. rewrite omap_app. cbn. destruct (row_value n k row); [by rewrite last_snoc|by rewrite app_nil_r].
Qed.

Lemma get_node_value index node key value n k :
  dict_get (default [] (dict_get (set_node_value index node key value) n)) k =
  if decide (n = node ∧ k = key) then Some value else dict_get (default [] (dict_get index n)) k.
Proof.
  unfold set_node_value. rewrite dict_get_set. destruct (decide (node = n)) as [->|Hn]; cbn.
  - rewrite dict_get_set. repeat case_decide; naive_solver.
  - rewrite decide_False by naive_solver. done.
Qed.

(** One row, in an index by key and in the index of the nodes. *)
Definition index_step (key value : option string) (node : string) (d : list (string * list (string * list string))) :=
  match key with
  | Some k =>
      match value with
      | Some v => index_add (dict_setdefault d k []) k v node
      | None => dict_setdefault d k []
      end
  | None => d
  end.
Definition node_step (key value : option string) (node : string) (d : list (string * list (string * string))) :=
  match key, value with Some k, Some v => set_node_value d node k v | _, _ => d end.

Lemma index_row_eq i row exclude : row_node_id row ≠ "" → row_node_id row ∉ exclude →
  index_row exclude i row =
    mkIndex (index_step (rel_key row) (indexed_value row) (row_node_id row) (_relationship_index i))
      (index_step (attr_key row) (indexed_value row) (row_node_id row) (_attribute_index i))
      (node_step (node_key row) (indexed_value row) (row_node_id row) (dict_setdefault (_node_index i) (row_node_id row) []))
      (set_add (row_node_id row) (_all_node_ids i)).
Proof.
  intros Hne Hex. unfold index_row. rewrite (str_or_none_spec (row_node_id row)), decide_False by done.
  rewrite decide_False by done. unfold node_key, attr_key. fold (rel_key row).
  destruct (rel_key row) as [k|]; [|destruct (str_or_none (row_attr_name row))]; by destruct (indexed_value row).
Qed.

Lemma elem_of_index_step key value node d n k v :
  n ∈ lookup_ids (index_step key value node d) k v ↔ (node = n ∧ key = Some k ∧ value = Some v) ∨ n ∈ lookup_ids d k v.
Proof.
  unfold index_step. destruct key, value; rewrite ?elem_of_index_add, ?lookup_ids_setdefault; naive_solver.
Qed.

Lemma index_row_facts i rows row exclude : index_facts i rows → row_node_id row ≠ "" → row_node_id row ∉ exclude →
  index_facts (index_row exclude i row) (rows ++ [row]).
Proof.
  intros [Hall Hrel Hattr Hnodes Hnodup Hvalue] Hne Hex. rewrite index_row_eq by done.
  set (nodes := dict_setdefault (_node_index i) (row_node_id row) []).
  assert (∀ n, n ∈ dict_keys nodes ↔ n ∈ row_node_id <$> rows ++ [row]) as Hnodes'.
  { intros n. unfold nodes. rewrite <-dict_get_is_Some, dict_get_setdefault, fmap_app, elem_of_app. cbn.
    rewrite list_elem_of_singleton, <-Hnodes, <-dict_get_is_Some. case_decide; naive_solver. }
  assert (NoDup (dict_keys nodes)) as Hnodup' by by apply NoDup_dict_setdefault.
  split; cbn [_all_node_ids _relationship_index _attribute_index _node_index].
  - intros n. rewrite elem_of_set_add, Hall, fmap_app, elem_of_app. cbn. rewrite list_elem_of_singleton. tauto.
  - intros n k v. by rewrite elem_of_index_step, Hrel, ex_elem_snoc.
  - intros n k v. by rewrite elem_of_index_step, Hattr, ex_elem_snoc.
  - intros n. rewrite <-Hnodes'. unfold node_step. destruct (node_key row), (indexed_value row); try done.
    unfold set_node_value. rewrite elem_of_dict_keys_set, Hnodes', fmap_app, elem_of_app. cbn.
    rewrite list_elem_of_singleton. naive_solver.
  - unfold node_step. destruct (node_key row), (indexed_value row); try done. by apply NoDup_dict_set.
  - intros n k. rewrite value_of_snoc. unfold row_value.
    assert (dict_get (default [] (dict_get nodes n)) k = value_of rows n k) as Hold.
    { unfold nodes. rewrite dict_get_setdefault, <-Hvalue. case_decide; [subst|done]. by destruct (dict_get _ _). }
    unfold node_step. destruct (node_key row) as [k0|], (indexed_value row) as [v0|];
      rewrite ?get_node_value; repeat case_decide; naive_solver.
Qed.

Lemma index_results_facts rows exclude : index_facts (index_results rows exclude) (kept exclude rows).
Proof.
  unfold index_results, kept. induction rows as [|row rows IH] using rev_ind.
  { split; cbn; try done; try constructor; try (by intros ?%elem_of_nil); by intros (? & ?%elem_of_nil & _). }
  rewrite foldl_app, filter_app. cbn [foldl]. rewrite filter_cons, filter_nil. case_decide as Hk.
  - by apply index_row_facts; [done|apply Hk..].
  - rewrite app_nil_r. unfold index_row at 1. rewrite str_or_none_spec. case_decide; [done|]. rewrite decide_True; [done|].
    destruct (decide (row_node_id row ∈ exclude)); tauto.
Qed.

(** ** The search by values *)

(** The relationships of the path have an identifier. *)
Definition identified (p : SchemaAttributePath) : Prop :=
  ∀ rel, relationship_schema p = Some rel → ∃ c i, r_identifier rel = Some (String c i).

(** The node [n] has the value, in one of the rows of the field. *)
Definition has_value (rows : list UniquenessRow) (n : string) (v : SchemaAttributePathValue) : Prop :=
  match relationship_schema (sapv_path v), attribute_schema (sapv_path v) with
  | Some rel, _ => ∃ row, row ∈ rows ∧ row_node_id row = n ∧ rel_key row = r_identifier rel ∧
                     indexed_value row = Some (value_str (sapv_value v))
  | None, Some attr => ∃ row, row ∈ rows ∧ row_node_id row = n ∧ attr_key row = Some (a_name attr) ∧
                         indexed_value row = Some (value_str (sapv_value v))
  | None, None => True
  end.

Lemma match_values_spec i rows matching l : index_facts i rows → (∀ v, v ∈ l → identified (sapv_path v)) →
  (∀ v, v ∈ l → value_is_none (sapv_value v) = false) →
  ∃ ids, match_values i matching l = Ok ids ∧ ∀ n, n ∈ ids ↔ n ∈ matching ∧ ∀ v, v ∈ l → has_value rows n v.
Proof.
  intros Hi. revert matching. induction l as [|v l IH]; intros matching Hid Hnone.
  { exists matching. split; [done|]. intros n. split; [|by intros []]. intros Hn. split; [done|]. by intros v ?%elem_of_nil. }
  cbn [match_values]. rewrite (Hnone v) by by left. set (next := match relationship_schema _ with Some _ => _ | None => _ end).
  assert (∃ ids, next = Ok ids ∧ ∀ n, n ∈ ids ↔ n ∈ matching ∧ has_value rows n v) as (ids & -> & Hids).
  { unfold next, has_value. specialize (Hid v ltac:(by left)). unfold identified in Hid.
    destruct (relationship_schema _) as [rel|] eqn:Hrel; [|destruct (attribute_schema _) as [attr|]].
    - destruct (Hid rel eq_refl) as (c & s & Hident). unfold get_identifier. rewrite Hident. cbn.
      eexists. split; [done|]. intros n. rewrite elem_of_set_inter. by setoid_rewrite (facts_rel i rows Hi).
    - eexists. split; [done|]. intros n. rewrite elem_of_set_inter. by setoid_rewrite (facts_attr i rows Hi).
    - eexists. split; [done|]. naive_solver. }
  cbn [mbind result_bind]. destruct (IH ids) as (ids' & Hok & Hids'); [intros w Hw; apply Hid; by right|intros w Hw; apply Hnone; by right|].
  assert (∀ n, n ∈ ids' ↔ n ∈ matching ∧ ∀ w, w ∈ v :: l → has_value rows n w) as Hall.
  { intros n. rewrite Hids', Hids. setoid_rewrite elem_of_cons. naive_solver. }
  destruct ids as [|x ids]; [|by exists ids'].
  exists []. split; [done|]. intros n. rewrite <-Hall, Hids'. split; [by intros ?%elem_of_nil|by intros [?%elem_of_nil _]].
Qed.

(** Another node has all the values. *)
Definition taken (rows : list UniquenessRow) (me : string) (values : list SchemaAttributePathValue) : Prop :=
  (∀ v, v ∈ values → value_is_none (sapv_value v) = false) ∧
  ∃ n, n ≠ me ∧ n ≠ "" ∧ n ∈ row_node_id <$> rows ∧ ∀ v, v ∈ values → has_value rows n v.

Lemma kept_has_value rows me n v : n ≠ me → n ≠ "" → has_value (kept [me] rows) n v ↔ has_value rows n v.
Proof.
  intros Hne Hempty. unfold has_value, kept. destruct (relationship_schema (sapv_path v)), (attribute_schema (sapv_path v)); try done;
    setoid_rewrite list_elem_of_filter; setoid_rewrite list_elem_of_singleton;
    (split; intros (row & ? & ? & ? & ?); exists row; naive_solver).
Qed.

Lemma check_group_spec rows me values : (∀ v, v ∈ values → identified (sapv_path v)) →
  match _check_one_constraint_group values (index_results rows [me]) with
  | Ok _ => ¬ taken rows me values
  | Err e => taken rows me values ∧ e = uniqueness_error values
  end.
Proof.
  intros Hid. unfold _check_one_constraint_group. destruct (existsb _ values) eqn:Hnone.
  - apply existsb_exists in Hnone as (v & Hv%list_elem_of_In & Hn). intros [Hall _]. by rewrite Hall in Hn.
  - assert (∀ v, v ∈ values → value_is_none (sapv_value v) = false) as Hall.
    { intros v Hv. destruct (value_is_none _) eqn:Hvn; [|done]. rewrite <-Hnone. symmetry. apply existsb_exists.
      exists v. by rewrite <-list_elem_of_In. }
    destruct (match_values_spec _ _ (_all_node_ids (index_results rows [me])) values
      (index_results_facts rows [me]) Hid Hall) as (ids & Hok & Hids).
    unfold get_node_ids_for_value_group. rewrite Hok. cbn.
    assert (∀ n, n ∈ ids ↔ n ≠ me ∧ n ≠ "" ∧ n ∈ row_node_id <$> rows ∧ ∀ v, v ∈ values → has_value rows n v) as Hspec.
    { intros n. rewrite Hids, (facts_all _ _ (index_results_facts rows [me])). unfold kept at 1.
      rewrite list_elem_of_fmap. setoid_rewrite list_elem_of_filter. setoid_rewrite list_elem_of_singleton.
      rewrite list_elem_of_fmap. split.
      - intros [(row & -> & (? & ?) & ?) Hv]. split_and!; try done; [by exists row|]. intros v Hin.
        apply (kept_has_value rows me); auto.
      - intros (Hne & Hempty & (row & -> & ?) & Hv). split; [by exists row|]. intros v Hin. apply kept_has_value; auto. }
    destruct ids as [|n ids].
    + intros [_ (n & Hn)]. apply Hspec in Hn. by apply elem_of_nil in Hn.
    + split; [|done]. split; [done|]. exists n. apply Hspec. by left.
Qed.

Lemma sapv_paths node group values : _get_node_attribute_path_values node group = Ok values →
  ∀ v, v ∈ values → sapv_path v ∈ group.
Proof.
  unfold _get_node_attribute_path_values. intros (l & Hl & [= <-])%bind_ok v (vs & Hin & Hv)%elem_of_concat.
  revert l Hl Hin. induction group as [|p group IH]; intros l Hl Hin; cbn in Hl.
  { injection Hl as <-. by apply elem_of_nil in Hin. }
  apply bind_ok in Hl as (x & Hx & (l' & Hl' & [= <-])%bind_ok).
  apply elem_of_cons in Hin as [->|Hin]; [|right; by eapply IH].
  assert (sapv_path v = p) as ->; [|by left]. unfold path_value in Hx. destruct (relationship_schema p); [|destruct (attribute_schema p)].
  - apply bind_ok in Hx as (o & _ & [= <-]). by apply list_elem_of_singleton in Hv as ->.
  - apply bind_ok in Hx as (o & _ & [= <-]). by apply list_elem_of_singleton in Hv as ->.
  - injection Hx as <-. by apply elem_of_nil in Hv.
Qed.

(** C34: Before a node is saved, with the rows of the query: it is accepted exactly when, for
    every uniqueness constraint, one of its values is None or no other node has the same
    value in each field; otherwise the error is the one of the first violated
    constraint.  The values are compared as strings, and a row whose value is false
    (zero, False, the empty string) or the text NULL gives no value to its node. *)
Theorem check_results_spec node path_groups values rows :
  (∀ group p, group ∈ path_groups → p ∈ group → identified p) →
  mapM (_get_node_attribute_path_values node) path_groups = Ok values →
  match _check_results node path_groups rows with
  | Ok _ => ∀ vs, vs ∈ values → ¬ taken rows (node_id node) vs
  | Err e => ∃ i vs, values !! i = Some vs ∧ taken rows (node_id node) vs ∧ e = uniqueness_error vs ∧
      ∀ j vs', (j < i)%nat → values !! j = Some vs' → ¬ taken rows (node_id node) vs'
  end.
Proof.
  unfold _check_results. revert values. induction path_groups as [|group groups IH]; intros values Hid Hvalues.
  { injection Hvalues as <-. by intros vs ?%elem_of_nil. }
  cbn [mapM] in Hvalues. apply bind_ok in Hvalues as (vs & Hvs & (rest & Hrest & [= <-])%bind_ok).
  cbn [for_all foldM]. unfold for_all in *. cbn [foldM]. rewrite Hvs. cbn [mbind result_bind].
  pose proof (check_group_spec rows (node_id node) vs) as Hgroup.
  destruct (_check_one_constraint_group vs _) as [[]|e].
  - cbn [mbind result_bind]. specialize (IH rest ltac:(intros g p Hg; apply Hid; by right) Hrest).
    assert (¬ taken rows (node_id node) vs) as Hfree.
    { apply Hgroup. intros v Hv. eapply Hid; [by left|]. by eapply sapv_paths. }
    destruct (foldM _ _ groups) as [u|e].
    + intros vs' [->|Hin]%elem_of_cons; [done|by apply IH].
    + destruct IH as (i & vs' & Hi & Ht & -> & Hbefore). exists (S i), vs'. split_and!; [done..|].
      intros [|j] vs'' Hj; cbn; [by intros [= <-]|apply Hbefore; lia].
  - exists 0%nat, vs. destruct Hgroup as [Ht ->]; [intros v Hv; eapply Hid; [by left|]; by eapply sapv_paths|].
    split_and!; [done..|]. intros j vs' Hj. lia.
Qed.

(** ** The search by paths *)

(** The values of a node for the keys of a group of paths; [None] if it misses one. *)
Definition key_of (rows : list UniquenessRow) (keys : list string) (n : string) : option (list (string * string)) :=
  mapM (λ k, v ← value_of rows n k; Some (k, v)) keys.

Lemma grouping keys l : NoDup (dict_keys l) →
  let groups := foldl (group_node keys) [] l in
  NoDup (dict_keys groups) ∧ (∀ key, NoDup (default [] (dict_get groups key))) ∧
  ∀ key n, n ∈ default [] (dict_get groups key) ↔ ∃ details, (n, details) ∈ l ∧ grouped_key keys details = Some key.
Proof.
  induction l as [|[m details] l IH] using rev_ind.
  { intros _. cbn. split_and!; [constructor|intros; constructor|]. intros key n. split; [by intros ?%elem_of_nil|].
    by intros (? & ?%elem_of_nil & _). }
  unfold dict_keys. rewrite fmap_app, NoDup_app. intros (Hl & _ & _). destruct (IH Hl) as (Hd & Hn & Hin). clear IH.
  rewrite foldl_app. cbn [foldl]. set (groups := foldl (group_node keys) [] l) in *. cbn. unfold group_node. cbn.
  destruct (grouped_key keys details) as [key0|] eqn:Hkey.
  - split_and!; [by apply NoDup_dict_set| |].
    + intros key. rewrite dict_get_set. case_decide; [cbn; by apply NoDup_set_add|done].
    + intros key n. setoid_rewrite elem_of_app. setoid_rewrite list_elem_of_singleton. rewrite dict_get_set.
      case_decide as Hk; [subst key0; cbn; rewrite elem_of_set_add|]; rewrite Hin; naive_solver.
  - split_and!; [done..|]. intros key n. setoid_rewrite elem_of_app. setoid_rewrite list_elem_of_singleton.
    rewrite Hin. naive_solver.
Qed.

Lemma union_large (l : list (list string)) : ∀ acc n,
  n ∈ foldl (λ violation node_ids, if decide (1 < length node_ids)%nat then py_set (violation ++ node_ids) else violation) acc l ↔
  n ∈ acc ∨ ∃ ids, ids ∈ l ∧ (1 < length ids)%nat ∧ n ∈ ids.
Proof.
  induction l as [|ids l IH]; intros acc n; cbn.
  { split; [by left|]. by intros [?|(? & ?%elem_of_nil & _)]. }
  rewrite IH. setoid_rewrite elem_of_cons. case_decide; rewrite ?elem_of_py_set, ?elem_of_app; naive_solver.
Qed.

Lemma two_members (l : list string) n : NoDup l → n ∈ l → (1 < length l)%nat ↔ ∃ m, m ∈ l ∧ m ≠ n.
Proof.
  intros Hl Hn. split.
  - destruct l as [|a [|b l]]; cbn; [lia|lia|]. intros _. apply NoDup_cons in Hl as [Hab _].
    destruct (decide (a = n)) as [->|Ha]; [|exists a; split; [by left|done]].
    exists b. split; [right; by left|]. intros ->. apply Hab. by left.
  - intros (m & Hm & Hne). destruct l as [|a [|b l]]; cbn; [by apply elem_of_nil in Hn| |lia].
    apply list_elem_of_singleton in Hn, Hm. congruence.
Qed.

Lemma path_group_spec rows group keys : mapM path_key group = Ok keys →
  ∃ ids, get_node_ids_for_path_group (index_results rows []) group = Ok ids ∧
    ∀ n, n ∈ ids ↔ n ≠ "" ∧ n ∈ row_node_id <$> rows ∧ ∃ key, key_of (kept [] rows) (omap id keys) n = Some key ∧
      ∃ m, m ≠ n ∧ m ≠ "" ∧ m ∈ row_node_id <$> rows ∧ key_of (kept [] rows) (omap id keys) m = Some key.
Proof.
  intros Hkeys. unfold get_node_ids_for_path_group. rewrite Hkeys. cbn. eexists. split; [done|]. intros n.
  pose proof (index_results_facts rows []) as Hf. set (index := index_results rows []) in *. set (ks := omap id keys).
  destruct (grouping ks (_node_index index) (facts_NoDup _ _ Hf)) as (Hd & Hnd & Hin).
  set (groups := foldl (group_node ks) [] (_node_index index)) in *.
  assert (∀ m, m ∈ row_node_id <$> kept [] rows ↔ m ≠ "" ∧ m ∈ row_node_id <$> rows) as Hkept.
  { intros m. rewrite !list_elem_of_fmap. unfold kept. setoid_rewrite list_elem_of_filter. setoid_rewrite elem_of_nil. naive_solver. }
  assert (∀ key m, m ∈ default [] (dict_get groups key) ↔
    (m ≠ "" ∧ m ∈ row_node_id <$> rows) ∧ key_of (kept [] rows) ks m = Some key) as Hmem.
  { intros key m. rewrite Hin, <-Hkept, <-(facts_nodes _ _ Hf m).
    assert (∀ details, dict_get (_node_index index) m = Some details → grouped_key ks details = key_of (kept [] rows) ks m) as Heq.
    { intros details Hget. unfold grouped_key, key_of. apply mapM_ext. intros k. rewrite <-(facts_value _ _ Hf), Hget. done. }
    split.
    - intros (details & Hm & Hk). apply (dict_get_in _ _ _ (facts_NoDup _ _ Hf)) in Hm. split.
      + apply dict_get_is_Some. by eexists.
      + by rewrite <-(Heq details).
    - intros [[details Hm]%dict_get_is_Some Hk]. exists details. split; [by apply dict_get_Some_in|]. by rewrite (Heq details). }
  rewrite union_large. split.
  - intros [?%elem_of_nil|(ids & Hids & Hlen & Hn)]; [done|]. unfold dict_values in Hids.
    apply list_elem_of_fmap in Hids as ([key ids'] & -> & Hg). cbn in *. apply (dict_get_in _ _ _ Hd) in Hg.
    specialize (Hmem key). specialize (Hnd key). rewrite Hg in Hmem, Hnd. cbn in *.
    apply (two_members _ n) in Hlen as (m & Hm & Hne); [|done..]. apply Hmem in Hn as [[? ?] ?], Hm as [[? ?] ?]. eauto 10.
  - intros (Hne & Hrow & key & Hkey & m & Hmn & Hme & Hmrow & Hmkey). right.
    assert (n ∈ default [] (dict_get groups key)) as Hn by by apply Hmem.
    assert (m ∈ default [] (dict_get groups key)) as Hm by by apply Hmem.
    specialize (Hnd key). destruct (dict_get groups key) as [ids|] eqn:Hg; cbn in *; [|by apply elem_of_nil in Hn].
    exists ids. split; [|split; [|done]].
    + apply list_elem_of_fmap. exists (key, ids). split; [done|]. by apply dict_get_Some_in.
    + apply (two_members _ n); eauto.
Qed.

(** ** The checker *)

(** Another node has the same value in every field of the group. *)
Definition duplicate (rows : list UniquenessRow) (group : list SchemaAttributePath) (n : string) : Prop :=
  ∃ keys key m, mapM path_key group = Ok keys ∧ n ≠ "" ∧ n ∈ row_node_id <$> rows ∧
    key_of (kept [] rows) (omap id keys) n = Some key ∧
    m ≠ n ∧ m ≠ "" ∧ m ∈ row_node_id <$> rows ∧ key_of (kept [] rows) (omap id keys) m = Some key.

(** A row as the query returns it: an attribute of the schema, or the peer of a relationship. *)
Definition row_ok (schema : MainSchema) (row : UniquenessRow) : Prop :=
  match rel_key row with
  | Some i => (∃ rel, rel ∈ n_relationships schema ∧ r_identifier rel = Some i) ∧ row_attr_name row = "id"
  | None => row_attr_name row ∈ attribute_names schema
  end.

(** The element of a constraint is an attribute, with its value, or a relationship. *)
Definition element_ok (schema : MainSchema) (schema_branch : string → result MainSchema) (element : string) : Prop :=
  (∃ a p q, a ∈ n_attributes schema ∧ (p = None ∨ p = Some "value") ∧
     get_attribute_path_from_string element schema = Ok (inl a, p) ∧
     parse_schema_path schema element (Some schema_branch) = Ok (mkSchemaAttributePath None None (Some a) q)) ∨
  (∃ r related, r ∈ n_relationships schema ∧
     get_attribute_path_from_string element schema = Ok (inr r, None) ∧
     parse_schema_path schema element (Some schema_branch) = Ok (mkSchemaAttributePath (Some r) (Some related) None None)).

Record schema_ready (schema : MainSchema) (schema_branch : string → result MainSchema) : Prop := {
  ready_names : NoDup (attribute_names schema);
  ready_nonempty a : a ∈ n_attributes schema → a_name a ≠ "";
  ready_identified r : r ∈ n_relationships schema → ∃ c i, r_identifier r = Some (String c i);
  ready_identifiers : NoDup (r_identifier <$> n_relationships schema);
  ready_disjoint r a : r ∈ n_relationships schema → a ∈ n_attributes schema → r_identifier r ≠ Some (a_name a);
  ready_elements constraint element : constraint ∈ default [] (n_uniqueness_constraints schema) →
    element ∈ constraint → element_ok schema schema_branch element;
  ready_constraints constraint : constraint ∈ default [] (n_uniqueness_constraints schema) → constraint ≠ [];
}.

(** *** The specification of the checker *)

(** The value of a row counts: it is true for Python and its text is not the one of null. *)
Definition counts (v : json) : Prop :=
  v ∉ [JNull; JBool false; JInt 0; JStr ""; JList []; JDict []] ∧ py_str v ≠ "NULL".
#[export] Instance counts_dec v : Decision (counts v).
Proof. unfold counts. apply _. Defined.
(** The row gives the value of the attribute, or the peer of the relationship. *)
Definition is_field (p : SchemaAttributePath) (row : UniquenessRow) : Prop :=
  match relationship_schema p, attribute_schema p with
  | Some r, _ => row_relationship_identifier row = r_identifier r
  | None, Some a => row_relationship_identifier row ∈ [None; Some ""] ∧ row_attr_name row = a_name a
  | None, None => False
  end.
#[export] Instance is_field_dec p row : Decision (is_field p row).
Proof. unfold is_field. repeat case_match; apply _. Defined.
Definition field_value (rows : list UniquenessRow) (n : string) (p : SchemaAttributePath) : option string :=
  (λ row, py_str (row_attr_value row)) <$> last (filter (λ row, row_node_id row = n ∧ is_field p row ∧ counts (row_attr_value row)) rows).
(** Another node has the same values for all the paths. *)
Definition violates (rows : list UniquenessRow) (group : list SchemaAttributePath) (n : string) : Prop :=
  n ≠ "" ∧ ∃ m, m ≠ n ∧ m ≠ "" ∧ ∀ p, p ∈ group → ∃ v, field_value rows n p = Some v ∧ field_value rows m p = Some v.

Section checker_spec.
Context `{SetOrder} (schema : MainSchema) (schema_branch : string → result MainSchema) (rows : list UniquenessRow).
Context (Hready : schema_ready schema schema_branch) (Hrows : ∀ row, row ∈ rows → row_ok schema row).

(** The groups of paths: a unique attribute, or a constraint. *)
Definition attribute_group (a : AttributeSchema) : list SchemaAttributePath :=
  [mkSchemaAttributePath None None (Some a) (Some "value")].
Definition parse_element (element : string) : result SchemaAttributePath :=
  parse_schema_path schema element (Some schema_branch).

Lemma element_parsed element : element_ok schema schema_branch element → ∃ p, parse_element element = Ok p.
Proof. intros [(a & p & q & _ & _ & _ & Hp)|(r & related & _ & _ & Hp)]; by eexists. Qed.

Lemma path_groups_spec : ∃ groups, get_unique_constraint_schema_attribute_paths schema schema_branch true = Ok groups ∧
  ∀ group, group ∈ groups ↔ (∃ a, a ∈ unique_attributes schema ∧ group = attribute_group a) ∨
    ∃ constraint, constraint ∈ default [] (n_uniqueness_constraints schema) ∧ mapM parse_element constraint = Ok group.
Proof.
  unfold get_unique_constraint_schema_attribute_paths. destruct (truthy_list _) eqn:Htruthy.
  - destruct (mapM_total (mapM parse_element) (default [] (n_uniqueness_constraints schema))) as (gs & Hgs & Hin).
    { intros c Hc. destruct (mapM_total parse_element c) as (g & Hg & _); [|by eexists].
      intros e He. apply element_parsed. by eapply ready_elements. }
    fold parse_element. rewrite Hgs. cbn. eexists. split; [done|]. intros group.
    rewrite elem_of_app, list_elem_of_fmap, Hin. naive_solver.
  - eexists. split; [done|]. intros group. rewrite list_elem_of_fmap.
    assert (default [] (n_uniqueness_constraints schema) = []) as ->.
    { destruct (n_uniqueness_constraints schema) as [[|c l]|]; done. }
    split; [naive_solver|]. intros [?|(c & ?%elem_of_nil & _)]; naive_solver.
Qed.

(** *** The request *)

Definition value_property (q : QueryAttributePath) : Prop :=
  qa_property_name q = None ∨ qa_property_name q = Some "value".
Definition request_ok (request : NodeUniquenessQueryRequest) : Prop :=
  ∀ q, q ∈ unique_attribute_paths request → value_property q.

Lemma set_add_not_nil {A} `{EqDecision A} (x : A) l : set_add x l ≠ [].
Proof. intros Hnil. assert (x ∈ set_add x l) as Hx by (apply elem_of_set_add; by left). rewrite Hnil in Hx. by apply elem_of_nil in Hx. Qed.

Lemma add_constraint_path_ok request element : element_ok schema schema_branch element → request_ok request →
  ∃ request', add_constraint_path schema request element = Ok request' ∧ request_ok request' ∧ request_bool request' = true.
Proof.
  intros He Hr. unfold add_constraint_path.
  destruct He as [(a & p & q & _ & Hp & -> & _)|(r & related & Hin & -> & _)]; cbn.
  - eexists. split; [done|]. split.
    + intros x [->|Hx]%elem_of_set_add; [done|by apply Hr].
    + unfold request_bool. cbn. destruct (set_add _ _) eqn:Hs; [by apply set_add_not_nil in Hs|done].
  - destruct (ready_identified _ _ Hready r Hin) as (c & i & Hi). unfold get_identifier. rewrite Hi. cbn.
    eexists. split; [done|]. split; [done|]. unfold request_bool. cbn. destruct (unique_attribute_paths request); [|done].
    destruct (set_add _ _) eqn:Hs; [by apply set_add_not_nil in Hs|done].
Qed.

Lemma request_spec : ∃ request, build_query_request schema = Ok request ∧ request_ok request ∧
  (request_bool request = true ∨ unique_attributes schema = [] ∧ default [] (n_uniqueness_constraints schema) = []).
Proof.
  unfold build_query_request. set (init := mkRequest _ _ _).
  destruct (foldM_total (λ processed request, request_ok request ∧
    ((processed ≠ [] ∨ unique_attributes schema ≠ []) → request_bool request = true))
    (foldM (add_constraint_path schema)) (default [] (n_uniqueness_constraints schema))) with init as (request & Hok & Hr & Hbool).
  - intros processed acc c Hc [Hacc _].
    destruct (foldM_total (λ processed request, request_ok request ∧ (processed ≠ [] → request_bool request = true))
      (add_constraint_path schema) c) with acc as (acc' & Hok & Hr & Hb).
    + intros d acc' e He [Hr _]. destruct (add_constraint_path_ok acc' e) as (acc'' & -> & ? & ?); eauto using ready_elements.
    + done.
    + exists acc'. split; [done|]. split; [done|]. intros _. apply Hb. by eapply ready_constraints.
  - split.
    + intros q [a [-> _]]%elem_of_py_set%list_elem_of_fmap. by right.
    + intros [?|Hu]; [done|]. unfold request_bool, init. cbn. destruct (unique_attributes schema) as [|a l] eqn:Hl; [done|].
      destruct (py_set _) eqn:Hs; [|done]. exfalso.
      assert (mkQueryAttributePath (a_name a) (Some "value") (Plain JNull) ∈ py_set
        ((λ a, mkQueryAttributePath (a_name a) (Some "value") (Plain JNull)) <$> a :: l)) as Hin by (apply elem_of_py_set; by left).
      rewrite Hs in Hin. by apply elem_of_nil in Hin.
  - exists request. split; [done|]. split; [done|].
    destruct (unique_attributes schema); [|left; apply Hbool; by right].
    destruct (default [] _); [by right|left; apply Hbool; by left].
Qed.

Lemma query_init_ok request count : request_ok request → request_bool request = true →
  ∃ params, query_init request count = Ok params.
Proof.
  intros Hr Hb. unfold query_init.
  set (size := λ p, (length (attr_paths p) + length (attr_paths_with_value p) + length (relationship_attr_paths p)
    + length (relationship_attr_paths_with_value p) + length (relationship_only_attr_paths p))%nat).
  destruct (foldM_total (λ processed p, size p = length processed) add_attr_path (unique_attribute_paths request))
    with (mkQueryParams (q_kind request) [] [] [] [] [] count) as (params & -> & Hsize).
  - intros processed p q Hq Hp. unfold add_attr_path.
    assert (or_value (qa_property_name q) = "value") as -> by (destruct (Hr q Hq) as [->| ->]; done). cbn.
    eexists. split; [done|]. unfold size in *. destruct (value_truthy _); cbn; rewrite !length_app; cbn; lia.
  - done.
  - cbn. set (params' := foldl add_rel_path params _).
    assert (size params' = length (unique_attribute_paths request) + length (relationship_attribute_paths request))%nat as Hsize'.
    { unfold params'. rewrite <-Hsize. clear. revert params. induction (relationship_attribute_paths request) as [|q l IH]; intros params; cbn; [lia|].
      rewrite IH. unfold add_rel_path, size. destruct (qr_attribute_name q) as [[]|], (value_truthy (qr_value q)); cbn; rewrite ?length_app; cbn; lia. }
    assert (0 < size params')%nat as Hpos.
    { rewrite Hsize'. unfold request_bool in Hb. destruct (unique_attribute_paths request), (relationship_attribute_paths request); cbn; done || lia. }
    unfold size in Hpos. destruct params' as [k l1 l2 l3 l4 l5 c]. cbn in *.
    destruct l1, l2, l3, l4, l5; cbn in *; try (by eexists); lia.
Qed.

(** *** The nodes of a group *)

(** A path of a group: an attribute or a relationship of the schema. *)
Definition path_ok (p : SchemaAttributePath) : Prop :=
  (∃ a, a ∈ n_attributes schema ∧ relationship_schema p = None ∧ attribute_schema p = Some a) ∨
  (∃ r, r ∈ n_relationships schema ∧ relationship_schema p = Some r ∧ attribute_schema p = None).

Lemma group_paths_ok groups group p : get_unique_constraint_schema_attribute_paths schema schema_branch true = Ok groups →
  group ∈ groups → p ∈ group → path_ok p.
Proof.
  intros Hgroups Hgroup Hp. destruct path_groups_spec as (groups' & Hgroups' & Hin).
  replace groups with groups' in Hgroup by congruence. apply Hin in Hgroup as [(a & Ha & ->)|(c & Hc & Hg)].
  - apply list_elem_of_singleton in Hp as ->. left. exists a. unfold unique_attributes in Ha.
    by apply list_elem_of_filter in Ha as [_ Ha].
  - destruct (mapM_total parse_element c) as (g & Hg' & Hpin).
    { intros e He. apply element_parsed. by eapply ready_elements. }
    replace g with group in Hpin by congruence. apply Hpin in Hp as (e & He & Hpe).
    destruct (ready_elements _ _ Hready c e Hc He) as [(a & x & q & Ha & _ & _ & Hparse)|(r & related & Hr & _ & Hparse)];
      unfold parse_element in Hpe; rewrite Hparse in Hpe; injection Hpe as <-; [left; by exists a|right; by exists r].
Qed.

Record node_facts (identifiers names : list string) (P : list UniquenessRow) (n : string) (N : NonUniqueNode) : Prop := {
  facts_schema : node_schema N = schema;
  facts_id : nun_node_id N = n;
  facts_attribute row : row ∈ P → row_node_id row = n → rel_key row = None → row_attr_name row ∈ names →
    ∃ x, x ∈ non_unique_attributes N ∧ nua_attribute_name x = row_attr_name row;
  facts_related row i r : row ∈ P → row_node_id row = n → rel_key row = Some i → i ∈ identifiers →
    r ∈ n_relationships schema → r_identifier r = Some i →
    ∃ x, x ∈ non_unique_related_attributes N ∧ nura_relationship x = r ∧ nura_attribute_name x = "id";
}.

Definition nodes_facts (ids identifiers names : list string) (P : list UniquenessRow) (nodes : list (string * NonUniqueNode)) : Prop :=
  NoDup (dict_keys nodes) ∧ (∀ n, n ∈ dict_keys nodes ↔ n ∈ ids ∧ n ∈ row_node_id <$> P) ∧
  ∀ n N, dict_get nodes n = Some N → node_facts identifiers names P n N.

Lemma relationship_by_identifier r i : r ∈ n_relationships schema → r_identifier r = Some i →
  dict_get (dict_of_list ((λ rel, (r_identifier rel, rel)) <$> n_relationships schema)) (Some i) = Some r.
Proof.
  intros Hr Hi. rewrite dict_of_list_NoDup.
  - apply dict_get_in.
    + unfold dict_keys. rewrite <-list_fmap_compose. apply (ready_identifiers _ _ Hready).
    + apply list_elem_of_fmap. exists r. by rewrite Hi.
  - rewrite <-list_fmap_compose. apply (ready_identifiers _ _ Hready).
Qed.

Lemma rel_key_cases row : (∃ c i, row_relationship_identifier row = Some (String c i) ∧ rel_key row = Some (String c i)) ∨
  ((row_relationship_identifier row = None ∨ row_relationship_identifier row = Some "") ∧ rel_key row = None).
Proof. unfold rel_key. destruct (row_relationship_identifier row) as [[|c i]|]; cbn; eauto 10. Qed.

Lemma get_attribute_named a : a ∈ n_attributes schema → get_attribute schema (a_name a) = Ok a.
Proof.
  intros Ha. unfold get_attribute, get_attribute_or_none.
  rewrite (find_first_name a_name _ a); [done|apply (ready_names _ _ Hready)|done].
Qed.

(** A row that adds nothing to the node, or what it must add. *)
Lemma node_facts_snoc identifiers names P n N N' row :
  node_facts identifiers names P n N → node_schema N' = schema → nun_node_id N' = n →
  (∀ x, x ∈ non_unique_attributes N → x ∈ non_unique_attributes N') →
  (∀ x, x ∈ non_unique_related_attributes N → x ∈ non_unique_related_attributes N') →
  (row_node_id row = n → rel_key row = None → row_attr_name row ∈ names →
    ∃ x, x ∈ non_unique_attributes N' ∧ nua_attribute_name x = row_attr_name row) →
  (∀ i r, row_node_id row = n → rel_key row = Some i → i ∈ identifiers → r ∈ n_relationships schema →
    r_identifier r = Some i → ∃ x, x ∈ non_unique_related_attributes N' ∧ nura_relationship x = r ∧ nura_attribute_name x = "id") →
  node_facts identifiers names (P ++ [row]) n N'.
Proof.
  intros [_ _ Hattr Hrel] Hs Hid Ha Hr Hnewa Hnewr. split; [done|done| |].
  - intros row' [Hin|Heq%list_elem_of_singleton]%elem_of_app Hn Hk Hname; [|subst row'; by apply Hnewa].
    destruct (Hattr row') as (x & ? & ?); eauto.
  - intros row' i r [Hin|Heq%list_elem_of_singleton]%elem_of_app Hn Hk Hi Hin' Hri; [|subst row'; by eapply Hnewr].
    destruct (Hrel row' i r) as (x & ? & ? & ?); eauto.
Qed.

Lemma nodes_facts_set ids identifiers names P nodes nodes' row N :
  nodes_facts ids identifiers names P nodes → row_node_id row ∈ ids →
  (NoDup (dict_keys nodes) → NoDup (dict_keys nodes')) →
  (∀ n, dict_get nodes' n = if decide (n = row_node_id row) then Some N else dict_get nodes n) →
  node_facts identifiers names (P ++ [row]) (row_node_id row) N →
  nodes_facts ids identifiers names (P ++ [row]) nodes'.
Proof.
  intros (Hnodup & Hkeys & Hfacts) Hids Hnodup' Hget HN. split; [auto|]. split.
  - intros n. rewrite <-dict_get_is_Some, Hget, fmap_app, elem_of_app. cbn. rewrite list_elem_of_singleton.
    case_decide as Hn; [subst; split; [by auto|by eexists]|]. rewrite dict_get_is_Some, Hkeys. naive_solver.
  - intros n M. rewrite Hget. case_decide as Hn; [intros [= <-]; by subst|]. intros HM.
    pose proof (Hfacts n M HM) as HF. pose proof HF as [? ? _ _].
    apply node_facts_snoc with M; [done..| |]; intros; congruence.
Qed.

Lemma parse_result_step ids identifiers names P nodes row :
  (∀ k, k ∈ names → ∃ a, a ∈ n_attributes schema ∧ a_name a = k) → row_ok schema row →
  nodes_facts ids identifiers names P nodes →
  ∃ nodes', parse_result schema ids identifiers names nodes row = Ok nodes' ∧ nodes_facts ids identifiers names (P ++ [row]) nodes'.
Proof.
  intros Hnames Hrow Hnodes. pose proof Hnodes as (Hnodup & Hkeys & Hfacts). unfold parse_result.
  case_decide as Hids.
  2:{ exists nodes. split; [done|]. split; [done|]. split.
      - intros n. rewrite Hkeys, fmap_app, elem_of_app. cbn. rewrite list_elem_of_singleton. naive_solver.
      - intros n M HM. pose proof (Hfacts n M HM) as HF. pose proof HF as [? ? _ _].
        assert (n ∈ ids) by (apply Hkeys, dict_get_is_Some; by eexists).
        apply node_facts_snoc with M; [done..| |]; intros; congruence. }
  set (new := mkNonUniqueNode schema (row_node_id row) [] []). set (nodes1 := dict_setdefault nodes (row_node_id row) new).
  set (N0 := default new (dict_get nodes (row_node_id row))).
  assert (∀ n, dict_get nodes1 n = if decide (n = row_node_id row) then Some N0 else dict_get nodes n) as Hget1
    by (intros n; apply dict_get_setdefault).
  assert (node_facts identifiers names P (row_node_id row) N0) as HN0.
  { unfold N0. destruct (dict_get nodes (row_node_id row)) as [N|] eqn:HN; [by apply Hfacts|]. cbn.
    assert (∀ row', row' ∈ P → row_node_id row' ≠ row_node_id row) as Hno.
    { intros row' Hin Heq. apply dict_get_None in HN. apply HN, Hkeys. split; [done|]. apply list_elem_of_fmap. by exists row'. }
    split; [done|done| |]; intros row'; intros; exfalso; by eapply Hno. }
  pose proof HN0 as [Hsch Hid _ _]. rewrite Hget1, decide_True by done. cbn [require mbind result_bind].
  assert (NoDup (dict_keys nodes) → NoDup (dict_keys nodes1)) as Hnd1 by by apply NoDup_dict_setdefault.
  assert (∀ N, (∀ n, dict_get (dict_set nodes1 (row_node_id row) N) n = if decide (n = row_node_id row) then Some N else dict_get nodes n)) as Hget2.
  { intros N n. rewrite dict_get_set, Hget1. repeat case_decide; congruence. }
  assert (∀ N, NoDup (dict_keys nodes) → NoDup (dict_keys (dict_set nodes1 (row_node_id row) N))) as Hnd2 by (intros; apply NoDup_dict_set; auto).
  unfold row_ok in Hrow. destruct (rel_key_cases row) as [(c & i & -> & Hkey)|[Hnone Hkey]]; rewrite Hkey in Hrow.
  - destruct Hrow as [(r & Hr & Hri) Hattr]. case_decide as Hin.
    + rewrite (relationship_by_identifier r) by done. cbn. eexists. split; [done|].
      eapply nodes_facts_set; [done|done|by apply Hnd2|apply Hget2|].
      apply node_facts_snoc with N0; try done; cbn; [intros x Hx; apply elem_of_app; by left|congruence|].
      intros i' r' _ Hi' _ Hr' Hri'. eexists. split; [apply elem_of_app; right; by left|]. cbn. split; [|done].
      assert (i' = String c i) as -> by congruence. pose proof (relationship_by_identifier r _ Hr Hri).
      pose proof (relationship_by_identifier r' _ Hr' Hri'). congruence.
    + eexists. split; [done|]. eapply nodes_facts_set; [done|done|done|done|].
      apply node_facts_snoc with N0; try done; [congruence|]. intros i' r' _ Hi' Hin'. exfalso. apply Hin. congruence.
  - destruct (decide (row_attr_name row ≠ "" ∧ row_attr_name row ∈ names)) as [[Hne Hin]|Hout].
    + destruct (Hnames _ Hin) as (a & Ha & Haname).
      assert (get_attribute schema (row_attr_name row) = Ok a) as Hget by (rewrite <-Haname; by apply get_attribute_named).
      set (N' := N0 <| non_unique_attributes := non_unique_attributes N0 ++
        [mkNonUniqueAttribute a (row_attr_name row) (py_str (row_attr_value row)) (row_deepest_branch_name row)] |>).
      exists (dict_set nodes1 (row_node_id row) N'). split.
      { destruct Hnone as [-> | ->]; cbv iota; by rewrite Hget. }
      eapply nodes_facts_set; [done|done|by apply Hnd2|apply Hget2|].
      apply node_facts_snoc with N0; try done; cbn; [intros x Hx; apply elem_of_app; by left| |congruence].
      intros _ _ _. eexists. split; [apply elem_of_app; right; by left|done].
    + exists nodes1. split. { by destruct Hnone as [-> | ->]. }
      eapply nodes_facts_set; [done|done|done|done|].
      apply node_facts_snoc with N0; try done; [|congruence]. intros _ _ Hin. exfalso. apply Hout. split; [|done].
      destruct (Hnames _ Hin) as (a & Ha & <-). by apply (ready_nonempty _ _ Hready).
Qed.

Lemma parse_group_spec groups group : get_unique_constraint_schema_attribute_paths schema schema_branch true = Ok groups →
  group ∈ groups → ∃ nodes identifiers, parse_group schema rows group = Ok (dict_values nodes) ∧
    mapM get_identifier (omap relationship_schema group) = Ok identifiers ∧ NoDup (dict_keys nodes) ∧
    (∀ n, n ∈ dict_keys nodes ↔ duplicate rows group n) ∧
    ∀ n N, dict_get nodes n = Some N → node_facts identifiers (a_name <$> omap attribute_schema group) rows n N.
Proof.
  intros Hgroups Hgroup. pose proof (group_paths_ok groups group) as Hpaths.
  destruct (mapM_total get_identifier (omap relationship_schema group)) as (identifiers & Hident & _).
  { intros r (p & Hp & Hr)%list_elem_of_omap. destruct (Hpaths p Hgroups Hgroup Hp) as [(a & _ & Hn & _)|(r' & Hr' & Hs & _)]; [congruence|].
    replace r with r' by congruence. destruct (ready_identified _ _ Hready r' Hr') as (c & i & Hi). unfold get_identifier. rewrite Hi. by eexists. }
  destruct (mapM_total path_key group) as (keys & Hkeys & _).
  { intros p Hp. unfold path_key. destruct (Hpaths p Hgroups Hgroup Hp) as [(a & _ & -> & ->)|(r & Hr & -> & _)]; [by eexists|].
    destruct (ready_identified _ _ Hready r Hr) as (c & i & Hi). unfold get_identifier. rewrite Hi. by eexists. }
  destruct (path_group_spec rows group keys Hkeys) as (ids & Hids & Hspec).
  unfold parse_group. rewrite Hident, Hids. cbn [mbind result_bind].
  destruct (foldM_total (nodes_facts ids identifiers (a_name <$> omap attribute_schema group))
    (parse_result schema ids identifiers (a_name <$> omap attribute_schema group)) rows) with (@nil (string * NonUniqueNode))
    as (nodes & Hok & Hnodup & Hnodes & Hfacts).
  - intros P nodes row Hrow Hnodes. apply parse_result_step; [|by apply Hrows|done].
    intros k (a & -> & (p & Hp & Ha)%list_elem_of_omap)%list_elem_of_fmap.
    destruct (Hpaths p Hgroups Hgroup Hp) as [(a' & Ha' & _ & Hs)|(r' & _ & _ & Hn)]; [|congruence].
    exists a. by replace a with a' by congruence.
  - split; [constructor|]. split; [|done]. intros n. cbn. split; [by intros ?%elem_of_nil|by intros [_ ?%elem_of_nil]].
  - exists nodes, identifiers. rewrite Hok. split; [done|]. split; [done|]. split; [done|]. split; [|done].
    intros n. rewrite Hnodes, Hspec. unfold duplicate. split.
    + intros [(Hne & Hrow & key & Hkey & m & Hm & Hme & Hmr & Hmk) _]. exists keys, key, m. done.
    + intros (keys' & key & m & Hkeys' & Hne & Hrow & Hkey & Hm & Hme & Hmr & Hmk). replace keys' with keys in * by congruence.
      split; [|done]. split; [done|]. split; [done|]. exists key. split; [done|]. exists m. done.
Qed.

(** *** The violations of a node *)

Lemma path_ok_key p : path_ok p → ∃ k, path_key p = Ok (Some k) ∧
  ((∃ a, a ∈ n_attributes schema ∧ attribute_schema p = Some a ∧ relationship_schema p = None ∧ k = a_name a) ∨
   ∃ r, r ∈ n_relationships schema ∧ relationship_schema p = Some r ∧ r_identifier r = Some k).
Proof.
  intros [(a & Ha & Hn & Hs)|(r & Hr & Hs & _)]; unfold path_key.
  - rewrite Hn, Hs. exists (a_name a). split; [done|]. left. by exists a.
  - rewrite Hs. destruct (ready_identified _ _ Hready r Hr) as (c & i & Hi). unfold get_identifier. rewrite Hi.
    exists (String c i). split; [done|]. right. by exists r.
Qed.

Lemma value_of_row P n k v : value_of P n k = Some v → ∃ row, row ∈ P ∧ row_node_id row = n ∧ node_key row = Some k.
Proof.
  unfold value_of. intros Hlast. apply last_Some_elem_of in Hlast. apply list_elem_of_omap in Hlast as (row & Hrow & Hv).
  unfold row_value in Hv. case_decide as Hk; [|done]. exists row. tauto.
Qed.

(** A node that duplicates the values of a group has a row for each field of the group. *)
Lemma duplicate_row group n p : duplicate rows group n → (∀ q, q ∈ group → path_ok q) → p ∈ group →
  (∃ a row, a ∈ n_attributes schema ∧ attribute_schema p = Some a ∧ relationship_schema p = None ∧
     row ∈ rows ∧ row_node_id row = n ∧ rel_key row = None ∧ row_attr_name row = a_name a) ∨
  (∃ r i row, r ∈ n_relationships schema ∧ relationship_schema p = Some r ∧ r_identifier r = Some i ∧
     row ∈ rows ∧ row_node_id row = n ∧ rel_key row = Some i).
Proof.
  intros (keys & key & m & Hkeys & _ & _ & Hkey & _) Hpaths Hp.
  destruct (mapM_total path_key group) as (keys' & Hkeys' & Hin).
  { intros q Hq. destruct (path_ok_key q (Hpaths q Hq)) as (k & Hk & _). by eexists. }
  replace keys' with keys in Hin by congruence. clear Hkeys'.
  destruct (path_ok_key p (Hpaths p Hp)) as (k & Hk & Hcase).
  assert (k ∈ omap id keys) as Hkin by (apply list_elem_of_omap; exists (Some k); split; [apply Hin; by exists p|done]).
  unfold key_of in Hkey. apply mk_is_Some, mapM_is_Some_1 in Hkey. rewrite Forall_forall in Hkey.
  destruct (Hkey k Hkin) as [kv Hkv]. destruct (value_of (kept [] rows) n k) as [v|] eqn:Hv; [|done].
  apply value_of_row in Hv as (row & Hrow & Hn & Hnk). unfold kept in Hrow. apply list_elem_of_filter in Hrow as [_ Hrow].
  pose proof (Hrows row Hrow) as Hrok. unfold row_ok, node_key, attr_key in *.
  destruct (rel_key row) as [i|] eqn:Hrel.
  - injection Hnk as ->. destruct Hrok as [(r & Hr & Hri) _]. destruct Hcase as [(a & Ha & _ & _ & ->)|(r' & Hr' & Hs & Hi)].
    + exfalso. by eapply (ready_disjoint _ _ Hready).
    + right. exists r', k, row. done.
  - rewrite str_or_none_spec in Hnk. case_decide; [done|]. injection Hnk as Hnk.
    apply list_elem_of_fmap in Hrok as (a & Hname & Ha). destruct Hcase as [(a' & Ha' & Hs & Hn' & ->)|(r' & Hr' & Hs & Hi)].
    + left. exists a', row. done.
    + exfalso. apply (ready_disjoint _ _ Hready r' a); [done..|]. congruence.
Qed.

Lemma attribute_violation_found identifiers names n N row a :
  node_facts identifiers names rows n N → row ∈ rows → row_node_id row = n → rel_key row = None →
  row_attr_name row = a_name a → a_name a ∈ names → ∃ v, get_attribute_violation N (a_name a) = Some v.
Proof.
  intros Hf Hrow Hn Hk Ha Hin. destruct (facts_attribute _ _ _ _ _ Hf row) as (x & Hx & Hxa); [done..|congruence|].
  unfold get_attribute_violation. destruct (find_first _ _) as [v|] eqn:Hfind; [by eexists|].
  rewrite find_first_None in Hfind. specialize (Hfind x Hx). by rewrite bool_decide_eq_false, Hxa in Hfind.
Qed.

Lemma relationship_violation_found identifiers names n N row r i :
  node_facts identifiers names rows n N → row ∈ rows → row_node_id row = n → rel_key row = Some i →
  r ∈ n_relationships schema → r_identifier r = Some i → i ∈ identifiers →
  ∃ v, get_relationship_violation N (r_name r) None = Some v.
Proof.
  intros Hf Hrow Hn Hk Hr Hi Hin. destruct (facts_related _ _ _ _ _ Hf row i r) as (x & Hx & Hxr & Hxa); [done..|].
  unfold get_relationship_violation. destruct (find_first _ _) as [v|] eqn:Hfind; [by eexists|].
  rewrite find_first_None in Hfind. specialize (Hfind x Hx). rewrite Hxr, Hxa in Hfind.
  by rewrite !bool_decide_eq_true_2 in Hfind by (done || by left).
Qed.

Lemma violations_total N : node_schema N = schema → ∃ vs, get_uniqueness_violations N = Ok vs ∧
  (∀ a v, a ∈ unique_attributes schema → get_attribute_violation N (a_name a) = Some v → vs ≠ []) ∧
  (∀ c specs v l, c ∈ default [] (n_uniqueness_constraints schema) →
     mapM (λ e, get_attribute_path_from_string e schema) c = Ok specs → get_constraint_violation N specs = Some (v :: l) → vs ≠ []).
Proof.
  intros Hs. unfold get_uniqueness_violations. rewrite Hs.
  set (step := λ c : list string, constraint_spec ← mapM (λ e, get_attribute_path_from_string e schema) c;
    Ok (default [] (get_constraint_violation N constraint_spec))).
  destruct (mapM_total step (default [] (n_uniqueness_constraints schema))) as (ofc & Hofc & Hin).
  { intros c Hc. unfold step. destruct (mapM_total (λ e, get_attribute_path_from_string e schema) c) as (specs & -> & _); [|by eexists].
    intros e He. destruct (ready_elements _ _ Hready c e Hc He) as [(a & x & q & _ & _ & Hg & _)|(r & related & _ & Hg & _)]; by eexists. }
  rewrite Hofc. cbn [mbind result_bind]. eexists. split; [done|].
  assert (∀ (x : Violation) l, x ∈ l → py_set l ≠ []) as Hne.
  { intros x l Hx Hnil. apply elem_of_py_set in Hx. rewrite Hnil in Hx. by apply elem_of_nil in Hx. }
  split.
  - intros a v Ha Hv. eapply Hne. apply elem_of_app. left. apply list_elem_of_omap. exists a. split; [done|]. by rewrite Hv.
  - intros c specs v l Hc Hspecs Hv. eapply Hne. apply elem_of_app. right. apply elem_of_concat. exists (v :: l).
    split; [|by left]. apply Hin. exists c. split; [done|]. unfold step. rewrite Hspecs. cbn [mbind result_bind]. by rewrite Hv.
Qed.

(** A node of a group has a violation. *)
Lemma group_violation groups group identifiers n N vs :
  get_unique_constraint_schema_attribute_paths schema schema_branch true = Ok groups → group ∈ groups →
  mapM get_identifier (omap relationship_schema group) = Ok identifiers →
  node_facts identifiers (a_name <$> omap attribute_schema group) rows n N → duplicate rows group n →
  get_uniqueness_violations N = Ok vs → vs ≠ [].
Proof.
  intros Hgroups Hgroup Hident Hf Hdup Hvs. pose proof (λ p, group_paths_ok groups group p Hgroups Hgroup) as Hpaths.
  destruct (violations_total N (facts_schema _ _ _ _ _ Hf)) as (vs' & Hvs' & Hua & Hc).
  replace vs' with vs in * by congruence. clear Hvs'.
  assert (∀ a p, p ∈ group → attribute_schema p = Some a → ∃ v, get_attribute_violation N (a_name a) = Some v) as Hattr.
  { intros a p Hp Ha. destruct (duplicate_row group n p Hdup Hpaths Hp) as [(a' & row & _ & Ha' & _ & ? & ? & ? & Hname)|(r & i & row & ? & Hr & _)].
    - replace a' with a in Hname by congruence. eapply attribute_violation_found; try done.
      apply list_elem_of_fmap. exists a. split; [done|]. apply list_elem_of_omap. by exists p.
    - destruct (Hpaths p Hp) as [(? & _ & ? & _)|(? & _ & _ & ?)]; congruence. }
  assert (∀ r p, p ∈ group → relationship_schema p = Some r → ∃ v, get_relationship_violation N (r_name r) None = Some v) as Hrel.
  { intros r p Hp Hr. destruct (duplicate_row group n p Hdup Hpaths Hp) as [(a' & row & _ & _ & ? & _)|(r' & i & row & Hr' & Hs & Hi & ? & ? & ?)]; [congruence|].
    replace r' with r in * by congruence. eapply relationship_violation_found; try done.
    destruct (mapM_total get_identifier (omap relationship_schema group)) as (ids & Hids & Hin).
    { intros x (q & Hq & Hx)%list_elem_of_omap. destruct (Hpaths q Hq) as [(? & _ & ? & _)|(x' & Hx' & ? & _)]; [congruence|].
      replace x with x' by congruence. destruct (ready_identified _ _ Hready x' Hx') as (c & j & Hj). unfold get_identifier. rewrite Hj. by eexists. }
    replace identifiers with ids by congruence. apply Hin. exists r. split; [apply list_elem_of_omap; by exists p|].
    destruct (ready_identified _ _ Hready r Hr') as (c & j & Hj). unfold get_identifier. rewrite Hj. f_equal. congruence. }
  destruct path_groups_spec as (groups' & Hgroups' & Hin). replace groups' with groups in Hin by congruence.
  apply Hin in Hgroup as [(a & Ha & ->)|(c & Hcin & Hparse)].
  - destruct (Hattr a (mkSchemaAttributePath None None (Some a) (Some "value"))) as [v Hv]; [by left|done|]. by eapply Hua.
  - destruct (mapM_total parse_element c) as (group' & Hparse' & Hpin); [intros e He; by eapply element_parsed, ready_elements|].
    replace group' with group in Hpin by congruence. clear Hparse'.
    destruct (mapM_total (λ e, get_attribute_path_from_string e schema) c) as (specs & Hspecs & Hsin).
    { intros e He. destruct (ready_elements _ _ Hready c e Hcin He) as [(a & x & q & _ & _ & Hg & _)|(r & related & _ & Hg & _)]; by eexists. }
    destruct (get_constraint_violation N specs) as [l|] eqn:Hl.
    + destruct l as [|v l]; [|by eapply Hc].
      exfalso. unfold get_constraint_violation in Hl. apply length_mapM in Hl. destruct specs as [|x specs]; [|done].
      destruct c as [|e c]; [by eapply ready_constraints|]. cbn in Hspecs.
      apply bind_ok in Hspecs as (? & _ & (? & _ & ?)%bind_ok). done.
    + exfalso. assert (is_Some (get_constraint_violation N specs)) as [? ?]; [|congruence].
      apply mapM_is_Some_2, Forall_forall. intros spec (e & He & Hspec)%Hsin.
      destruct (ready_elements _ _ Hready c e Hcin He) as [(a & x & q & _ & _ & Hg & Hpe)|(r & related & _ & Hg & Hpe)];
        rewrite Hspec in Hg; injection Hg as ->; cbn.
      * destruct (Hattr a (mkSchemaAttributePath None None (Some a) q)) as [v Hv]; [apply Hpin; by exists e|done|]. rewrite Hv. by eexists.
      * destruct (Hrel r (mkSchemaAttributePath (Some r) (Some related) None None)) as [v Hv]; [apply Hpin; by exists e|done|]. rewrite Hv. by eexists.
Qed.

Lemma all_paths_add g p key dp : NoDup (dict_keys g) →
  dp ∈ get_all_data_paths (add_data_path g p key) ↔ dp = p ∨ dp ∈ get_all_data_paths g.
Proof.
  intros Hg. unfold get_all_data_paths, add_data_path, add_data_paths. rewrite concat_dict_set by done.
  rewrite elem_of_app, list_elem_of_singleton. tauto.
Qed.

Lemma generate_step g N vs : get_uniqueness_violations N = Ok vs → NoDup (dict_keys g) →
  ∃ g', generate_data_paths g N = Ok g' ∧ NoDup (dict_keys g') ∧
    ∀ dp, dp ∈ get_all_data_paths g' ↔ dp ∈ get_all_data_paths g ∨ ∃ v, v ∈ vs ∧ dp = violation_data_path N v.
Proof.
  intros Hvs Hg. unfold generate_data_paths. rewrite Hvs. cbn [mbind result_bind]. eexists. split; [done|].
  assert (∀ v, v ∈ vs ↔ v ∈ set_list vs) as Hperm by (intros v; by rewrite (set_list_perm vs)). setoid_rewrite Hperm.
  clear Hvs Hperm. revert g Hg. induction (set_list vs) as [|v l IH]; intros g Hg; cbn.
  { split; [done|]. intros dp. split; [by left|]. by intros [?|(? & ?%elem_of_nil & _)]. }
  destruct (IH (add_data_path g (violation_data_path N v) (kind (node_schema N) +:+ "/" +:+ grouping_key v))) as [Hnd Hin].
  { by apply NoDup_dict_set. }
  split; [done|]. intros dp. rewrite Hin, all_paths_add by done. setoid_rewrite elem_of_cons. naive_solver.
Qed.

Lemma parse_results_spec groups : get_unique_constraint_schema_attribute_paths schema schema_branch true = Ok groups →
  ∃ nodes, _parse_results schema_branch schema rows = Ok nodes ∧
    (∀ N, N ∈ nodes → node_schema N = schema) ∧
    (∀ N vs, N ∈ nodes → get_uniqueness_violations N = Ok vs → vs ≠ []) ∧
    ∀ n, n ∈ nun_node_id <$> nodes ↔ ∃ group, group ∈ groups ∧ duplicate rows group n.
Proof.
  intros Hgroups. unfold _parse_results. rewrite Hgroups. cbn [mbind result_bind].
  destruct (mapM_total (parse_group schema rows) groups) as (nodes & Hnodes & Hin).
  { intros group Hgroup. destruct (parse_group_spec groups group Hgroups Hgroup) as (d & ? & Hok & _). by eexists. }
  rewrite Hnodes. cbn [mbind result_bind]. eexists. split; [done|].
  assert (∀ N, N ∈ concat nodes ↔ ∃ group d identifiers n, group ∈ groups ∧ duplicate rows group n ∧ dict_get d n = Some N ∧
    mapM get_identifier (omap relationship_schema group) = Ok identifiers ∧
    parse_group schema rows group = Ok (dict_values d) ∧ NoDup (dict_keys d) ∧
    node_facts identifiers (a_name <$> omap attribute_schema group) rows n N) as Hmem.
  { intros N. rewrite elem_of_concat. setoid_rewrite Hin. split.
    - intros (l & (group & Hgroup & Hok) & HN). destruct (parse_group_spec groups group Hgroups Hgroup) as (d & ids & Hok' & Hid & Hd & Hk & Hf).
      rewrite Hok in Hok'. injection Hok' as ->. unfold dict_values in HN. apply list_elem_of_fmap in HN as ([n N'] & -> & Hd').
      apply dict_get_in in Hd' as Hget; [|done]. exists group, d, ids, n. split_and!; try done; [|by apply Hf].
      apply Hk, dict_get_is_Some. by eexists.
    - intros (group & d & ids & n & Hgroup & _ & Hget & _ & Hok & _). exists (dict_values d). split; [by exists group|].
      apply list_elem_of_fmap. exists (n, N). split; [done|]. by apply dict_get_Some_in. }
  split; [|split].
  - intros N (group & d & ids & n & _ & _ & _ & _ & _ & _ & Hf)%Hmem. by apply Hf.
  - intros N vs (group & d & ids & n & Hgroup & Hdup & _ & Hid & _ & _ & Hf)%Hmem Hvs. by eapply group_violation.
  - intros n. rewrite list_elem_of_fmap. setoid_rewrite Hmem. split.
    + intros (N & -> & group & d & ids & n' & Hgroup & Hdup & _ & _ & _ & _ & Hf). exists group. split; [done|]. by rewrite (facts_id _ _ _ _ _ Hf).
    + intros (group & Hgroup & Hdup). destruct (parse_group_spec groups group Hgroups Hgroup) as (d & ids & Hok & Hid & Hd & Hk & Hf).
      apply Hk in Hdup as Hn. apply dict_get_is_Some in Hn as [N HN]. exists N. split; [symmetry; eapply facts_id; eauto|].
      exists group, d, ids, n. split_and!; eauto.
Qed.

Lemma generate_all nodes : (∀ N, N ∈ nodes → node_schema N = schema) →
  (∀ N vs, N ∈ nodes → get_uniqueness_violations N = Ok vs → vs ≠ []) →
  ∃ g, foldM generate_data_paths [] nodes = Ok g ∧ ∀ n, n ∈ dp_node_id <$> get_all_data_paths g ↔ n ∈ nun_node_id <$> nodes.
Proof.
  intros Hs Hne.
  destruct (foldM_total (λ processed g, NoDup (dict_keys g) ∧
    ∀ n, n ∈ dp_node_id <$> get_all_data_paths g ↔ n ∈ nun_node_id <$> processed) generate_data_paths nodes)
    with (@nil (string * list DataPath)) as (g & Hok & _ & Hin); [|split; [constructor|done]|by exists g].
  intros processed g N HN [Hnd Hin]. destruct (violations_total N (Hs N HN)) as (vs & Hvs & _).
  destruct (generate_step g N vs Hvs Hnd) as (g' & -> & Hnd' & Hg'). exists g'. split; [done|]. split; [done|].
  intros n. rewrite fmap_app, elem_of_app, <-Hin, !list_elem_of_fmap. setoid_rewrite Hg'. split.
  - intros (dp & -> & [Hdp|(v & _ & ->)]); [left; eauto|]. right. exists N. split; [done|by left].
  - intros [(dp & -> & Hdp)|(N' & -> & ->%list_elem_of_singleton)]; [eauto|].
    destruct vs as [|v vs]; [by eapply Hne in Hvs|].
    exists (violation_data_path N v). split; [done|]. right. exists v. split; [by left|done].
Qed.

(** *** The nodes that share their values *)

Lemma counts_indexed row : indexed_value row = if decide (counts (row_attr_value row)) then Some (py_str (row_attr_value row)) else None.
Proof.
  unfold indexed_value, get_as_str. destruct (truthy_json (row_attr_value row)) eqn:Ht; cbn.
  - case_decide as Hnull; case_decide as Hc; try done; [by destruct Hc|]. destruct Hc. split; [|done]. rewrite !elem_of_cons, elem_of_nil.
    intros H'. by destruct_or! H'; rewrite H' in Ht.
  - rewrite decide_False; [done|]. intros [Hc _]. apply Hc. rewrite !elem_of_cons.
    destruct (row_attr_value row) as [|[]|z|s|[]|[]]; cbn in Ht; auto 10; try done.
    + apply negb_false_iff, Z.eqb_eq in Ht as ->. auto.
    + apply negb_false_iff, bool_decide_eq_true in Ht as ->. auto 10.
Qed.
Lemma omap_cons_app {A B} (f : A → option B) x l : omap f (x :: l) = omap f [x] ++ omap f l.
Proof. cbn. by destruct (f x). Qed.
Lemma value_of_field p k n : path_ok p → path_key p = Ok (Some k) → n ≠ "" → value_of (kept [] rows) n k = field_value rows n p.
Proof.
  intros Hp Hk Hn. unfold value_of, field_value. rewrite <-fmap_last. f_equal.
  assert (∀ row, row ∈ rows → node_key row = Some k ↔ is_field p row) as Hfield.
  { intros row Hrow. pose proof (Hrows row Hrow) as Hok. unfold row_ok in Hok. unfold is_field, node_key, attr_key.
    destruct (path_ok_key p Hp) as (k' & Hk' & Hcase). rewrite Hk in Hk'. injection Hk' as <-.
    destruct (rel_key_cases row) as [(c & i & Hi & Hkey)|[Hnone Hkey]]; rewrite Hkey in *.
    - destruct Hok as [(r' & Hr' & Hri') _]. destruct Hcase as [(a & Ha & Hs & Hs' & ->)|(r & Hr & Hs & Hri)]; rewrite Hs; [rewrite Hs'|].
      + split; [|rewrite Hi; intros [Hx _]; set_solver]. intros [= Heq]. exfalso. apply (ready_disjoint _ _ Hready r' a Hr' Ha). congruence.
      + rewrite Hi, Hri. done.
    - rewrite str_or_none_spec. destruct Hcase as [(a & Ha & Hs & Hs' & ->)|(r & Hr & Hs & Hri)]; rewrite Hs; [rewrite Hs'|].
      + pose proof (ready_nonempty _ _ Hready a Ha). case_decide as He; [split; [done|]; intros [_ Hx]; congruence|].
        assert (row_relationship_identifier row ∈ [None; Some ""]) by (destruct Hnone as [-> | ->]; set_solver). split; [by intros [= ->]|by intros [_ ->]].
      + destruct (ready_identified _ _ Hready r Hr) as (c & i & Hi). split.
        * case_decide; [done|]. intros [= Heq]. exfalso. unfold attribute_names in Hok. apply list_elem_of_fmap in Hok as (a & Haname & Ha).
          apply (ready_disjoint _ _ Hready r a Hr Ha). congruence.
        * rewrite Hi. by destruct Hnone as [-> | ->]. }
  revert Hfield. clear Hrows. induction rows as [|row l IH]; intros Hfield; [done|]. unfold kept in *. rewrite !filter_cons.
  assert (∀ row', row' ∈ l → node_key row' = Some k ↔ is_field p row') as Hl by (intros; apply Hfield; by right).
  specialize (IH Hl). specialize (Hfield row ltac:(left)).
  assert (omap (row_value n k) [row] = (λ row, py_str (row_attr_value row)) <$>
    (if decide (row_node_id row = n ∧ is_field p row ∧ counts (row_attr_value row)) then [row] else [])) as Hrow.
  { cbn. unfold row_value. rewrite counts_indexed. destruct (decide (row_node_id row = n ∧ node_key row = Some k)) as [[H1 H2]|H1].
    - case_decide as Hc; [rewrite decide_True by tauto; done|rewrite decide_False by tauto; done].
    - rewrite decide_False by tauto. done. }
  destruct (decide (row_node_id row ≠ "" ∧ row_node_id row ∉ [])) as [_|Hkept].
  - rewrite omap_cons_app, Hrow, IH. by case_decide.
  - rewrite IH, decide_False; [done|]. intros [H1 _]. apply Hkept. split; [congruence|]. apply not_elem_of_nil.
Qed.
Lemma same_keys P ks n m : (∃ key, key_of P ks n = Some key ∧ key_of P ks m = Some key) ↔
  ∀ k, k ∈ ks → ∃ v, value_of P n k = Some v ∧ value_of P m k = Some v.
Proof.
  unfold key_of. induction ks as [|k ks IH]; cbn.
  - split; [by intros _ k ?%elem_of_nil|]. by exists [].
  - split.
    + intros (key & Hn & Hm) k' Hk'. destruct (value_of P n k) as [v|] eqn:Hv; [|done]. destruct (value_of P m k) as [w|] eqn:Hw; [|done]. cbn in *.
      destruct (mapM (λ k, v ← value_of P n k; Some (k, v)) ks) as [l|] eqn:Hl; [|done].
      destruct (mapM (λ k, v ← value_of P m k; Some (k, v)) ks) as [l'|] eqn:Hl'; [|done]. injection Hn as <-. injection Hm as -> ->.
      apply elem_of_cons in Hk' as [->|Hk']; [by exists v|]. apply IH; [|done]. by exists l.
    + intros Hall. destruct (Hall k ltac:(left)) as (v & -> & ->). destruct (proj2 IH) as (key & -> & ->); [|by exists ((k, v) :: key)].
      intros k' Hk'. apply Hall. by right.
Qed.
Lemma duplicate_violates group n : group ≠ [] → (∀ p, p ∈ group → path_ok p) → duplicate rows group n ↔ violates rows group n.
Proof.
  intros Hne Hpaths.
  destruct (mapM_total path_key group) as (keys & Hkeys & Hkin).
  { intros q Hq. destruct (path_ok_key q (Hpaths q Hq)) as (k & Hk & _). by eexists. }
  assert (∀ k, k ∈ omap id keys ↔ ∃ p, p ∈ group ∧ path_key p = Ok (Some k)) as Hks.
  { intros k. rewrite list_elem_of_omap. setoid_rewrite Hkin. split; [intros (o & (q & Hq & Hqk) & [= ->]); by exists q|].
    intros (q & Hq & Hqk). exists (Some k). split; [by exists q|done]. }
  assert (∀ m, n ≠ "" → m ≠ "" → (∀ k, k ∈ omap id keys → ∃ v, value_of (kept [] rows) n k = Some v ∧ value_of (kept [] rows) m k = Some v) ↔
    ∀ p, p ∈ group → ∃ v, field_value rows n p = Some v ∧ field_value rows m p = Some v) as Hsame.
  { intros m Hn Hm. split.
    - intros Hall p Hp. destruct (path_ok_key p (Hpaths p Hp)) as (k & Hk & _). rewrite <-!(value_of_field p k) by auto. apply Hall, Hks. eauto.
    - intros Hall k (p & Hp & Hk)%Hks. rewrite !(value_of_field p k) by auto. by apply Hall. }
  assert (∀ m p v, field_value rows m p = Some v → m ∈ row_node_id <$> rows) as Hrow.
  { intros m p v Hv. unfold field_value in Hv. apply fmap_Some in Hv as (row & Hrow & _). apply last_Some_elem_of, list_elem_of_filter in Hrow as [[<- _] Hin].
    by apply list_elem_of_fmap_2. }
  unfold duplicate, violates. split.
  - intros (keys' & key & m & Hkeys' & Hn & Hrn & Hkn & Hmn & Hm & Hrm & Hkm). split; [done|]. exists m. split; [done|]. split; [done|].
    replace keys' with keys in * by congruence. apply Hsame; [done..|]. apply same_keys. by exists key.
  - intros (Hn & m & Hmn & Hm & Hall). pose proof (proj2 (Hsame m Hn Hm) Hall) as Hval. apply same_keys in Hval as (key & Hkn & Hkm).
    exists keys, key, m. destruct group as [|p group]; [done|]. destruct (Hall p ltac:(left)) as (v & Hvn & Hvm). eauto 10.
Qed.
End checker_spec.

(** C33: After a change of the schema, the check of its uniqueness constraints on the rows of the
    data never raises, and reports exactly the nodes that share with another node the value
    of a unique attribute, or the values of all the elements of a constraint, in whatever
    order Python lists a set.  The value of a node is the one of its last row for the field
    that counts: None, False, 0, an empty value and the text NULL do not, so that two nodes
    with the number 0 are not reported ([zero_never_unique]).  For a schema whose relationships
    do not share an identifier, with one another or with an attribute, and whose constraints
    are made of attributes (with their values) and of relationships, not of the attributes of
    the peers. *)
Theorem uniqueness_check_spec `{SetOrder} schema schema_branch rows :
  schema_ready schema schema_branch → (∀ row, row ∈ rows → row_ok schema row) →
  ∃ g, check (λ _, rows) schema_branch schema = Ok g ∧
    ∀ n, n ∈ dp_node_id <$> get_all_data_paths g ↔
      (∃ a, a ∈ n_attributes schema ∧ a_unique a = true ∧ violates rows (attribute_group a) n) ∨
      ∃ constraint group, constraint ∈ default [] (n_uniqueness_constraints schema) ∧
        mapM (parse_element schema schema_branch) constraint = Ok group ∧ violates rows group n.
Proof.
  intros Hready Hrows. destruct (path_groups_spec schema schema_branch Hready) as (groups & Hgroups & Hin).
  destruct (request_spec schema schema_branch Hready) as (request & Hrequest & Hr & Hbool).
  assert (∀ n, (∃ group, group ∈ groups ∧ duplicate rows group n) ↔
    (∃ a, a ∈ n_attributes schema ∧ a_unique a = true ∧ violates rows (attribute_group a) n) ∨
    ∃ constraint group, constraint ∈ default [] (n_uniqueness_constraints schema) ∧
      mapM (parse_element schema schema_branch) constraint = Ok group ∧ violates rows group n) as Hviolates.
  { intros n. pose proof (group_paths_ok schema schema_branch Hready groups) as Hok.
    assert (∀ group, group ∈ groups → duplicate rows group n ↔ violates rows group n) as Hdup.
    { intros group Hgroup. apply (duplicate_violates schema schema_branch rows Hready Hrows); [|by intros p; apply Hok].
      apply Hin in Hgroup as [(a & _ & ->)|(c & Hc & Hm)]; [done|]. intros ->. apply (ready_constraints _ _ Hready c Hc).
      destruct c as [|e c]; [done|]. cbn in Hm. destruct (parse_element _ _ e); [|done]. cbn in Hm. by destruct (mapM _ c). }
    unfold unique_attributes in Hin. setoid_rewrite list_elem_of_filter in Hin. setoid_rewrite Is_true_true in Hin.
    clear Hok Hbool Hgroups Hrequest. split.
    - intros (group & Hg & Hd). pose proof (Hg) as Hg'. apply Hin in Hg'. apply Hdup in Hd; [|done].
      destruct Hg' as [(a & [Hu Ha] & ->)|(c & Hc & Hm)]; [left; by exists a|right; by exists c, group].
    - intros [(a & Ha & Hu & Hv)|(c & group & Hc & Hm & Hv)]; [exists (attribute_group a)|exists group].
      + assert (attribute_group a ∈ groups) by (apply Hin; left; by exists a). split; [done|]. by apply Hdup.
      + assert (group ∈ groups) by (apply Hin; right; by exists c). split; [done|]. by apply Hdup. }
  unfold check, check_one_schema. rewrite Hrequest. cbn [mbind result_bind].
  destruct (request_bool request) eqn:Hrb.
  - destruct (query_init_ok request 1 Hr Hrb) as [params ->]. cbn [mbind result_bind].
    destruct (parse_results_spec schema schema_branch rows Hready Hrows groups Hgroups) as (nodes & -> & Hs & Hne & Hdup).
    destruct (generate_all schema schema_branch Hready nodes Hs Hne) as (g & Hok & Hg). exists g. split; [done|].
    intros n. by rewrite Hg, Hdup.
  - exists []. split; [done|]. intros n. rewrite <-Hviolates. split; [by intros ?%elem_of_nil|]. intros (group & Hgroup & _).
    destruct Hbool as [?|[Hu Hc]]; [done|]. rewrite Hu, Hc in Hin.
    apply Hin in Hgroup as [(a & ?%elem_of_nil & _)|(c & ?%elem_of_nil & _)]; done.
Qed.

(** An accepted node is the only one with its values, among the nodes of the generic that makes
    the attribute unique, or else of its kind. *)
Theorem attribute_constraint_spec query_nodes schema_branch node node_schema filters :
  attribute_constraint_check query_nodes schema_branch node node_schema filters = Ok tt →
  ∀ a value parent, a ∈ unique_attributes node_schema → (truthy_list filters = false ∨ in_filters filters (a_name a) = true) →
    getattr node (a_name a) "value" = Ok value →
    (if a_inherited a then unique_parent schema_branch (a_name a) (inherit_from node_schema) else Ok None) = Ok parent →
    ∀ n, n ∈ query_nodes (default node_schema parent) (a_name a) value → n = node_id node.
Proof.
  unfold attribute_constraint_check. rewrite for_all_ok. intros Hall a value parent Ha Hf Hvalue Hparent n Hn.
  specialize (Hall a). unfold check_unique_attribute in Hall. rewrite Hvalue, Hparent in Hall. cbn [mbind result_bind] in Hall.
  rewrite raise_if_ok in Hall. destruct (decide (n = node_id node)) as [|Hne]; [done|].
  assert (existsb (λ n, negb (bool_decide (n = node_id node))) (query_nodes (default node_schema parent) (a_name a) value) = true) as Hex.
  { apply existsb_exists. exists n. split; [by apply list_elem_of_In|]. by rewrite bool_decide_eq_false_2. }
  rewrite Hex in Hall. discriminate Hall. apply list_elem_of_filter. split; [|done]. destruct Hf as [-> | ->]; [done|apply orb_true_r].
Qed.

(** ** Examples *)

Definition router_relationship (name identifier : string) : RelationshipSchema :=
  (new_relationship name "InfraSite") <| r_identifier := Some identifier |>.
Definition router_schema (relationships : list RelationshipSchema) (constraint : list string) : MainSchema :=
  (new_node "Router" "Infra") <| n_attributes := [(new_attribute "name" "Text") <| a_unique := true |>; new_attribute "slot" "Number"] |>
    <| n_relationships := relationships |> <| n_uniqueness_constraints := Some [constraint] |>.
Definition site_schema : MainSchema := new_node "Site" "Infra".
Definition sites : string → result MainSchema := λ _, Ok site_schema.

Definition slot_row (node : string) (slot : Z) : UniquenessRow := mkUniquenessRow node "main" "slot" (JInt slot) None.
Definition site_row (node identifier site : string) : UniquenessRow :=
  mkUniquenessRow node "main" "id" (JStr site) (Some identifier).
Definition site_slot : MainSchema := router_schema [router_relationship "site" "router__site"] ["site"; "slot__value"].
Definition site_slot_rows (slot : Z) : list UniquenessRow :=
  [slot_row "r1" slot; slot_row "r2" slot; slot_row "r3" slot;
   site_row "r1" "router__site" "s1"; site_row "r2" "router__site" "s1"; site_row "r3" "router__site" "s2"].

Lemma site_slot_ready : schema_ready site_slot sites.
Proof.
  split.
  - vm_compute. repeat constructor; set_solver.
  - intros a. unfold site_slot, router_schema. cbn. set_solver.
  - intros r Hr. vm_compute in Hr. apply list_elem_of_singleton in Hr as ->. by do 2 eexists.
  - vm_compute. repeat constructor; set_solver.
  - intros r a. cbn. rewrite list_elem_of_singleton. intros ->. set_solver.
  - cbn. intros c e ->%list_elem_of_singleton [-> |[-> |?%elem_of_nil]%elem_of_cons]%elem_of_cons; [right|left|done].
    + exists (router_relationship "site" "router__site"), site_schema. split; [by left|]. by vm_compute.
    + exists (new_attribute "slot" "Number"), (Some "value"), (Some "value"). split; [right; by left|]. split; [by right|]. by vm_compute.
  - cbn. by intros c ->%list_elem_of_singleton.
Qed.

Lemma site_slot_rows_ok slot row : row ∈ site_slot_rows slot → row_ok site_slot row.
Proof.
  assert (∀ n, row_ok site_slot (slot_row n slot)) as Hslot by (intros n; right; by left).
  assert (∀ n s, row_ok site_slot (site_row n "router__site" s)) as Hsite.
  { intros n s. split; [|done]. exists (router_relationship "site" "router__site"). split; [by left|done]. }
  unfold site_slot_rows. rewrite !elem_of_cons, elem_of_nil. intros H. destruct_or! H; subst; done.
Qed.

Lemma uniqueness_check_spec_witness : let _ := insertion_order in ∃ g, check (λ _, site_slot_rows 3) sites site_slot = Ok g ∧
  "r1" ∈ dp_node_id <$> get_all_data_paths g ∧ "r3" ∉ dp_node_id <$> get_all_data_paths g.
Proof.
  intros order.
  destruct (uniqueness_check_spec site_slot sites (site_slot_rows 3) site_slot_ready (site_slot_rows_ok 3)) as (g & Hg & _).
  exists g. split; [exact Hg|]. vm_compute in Hg. injection Hg as <-. vm_compute. split; set_solver.
Defined.

(** The node to save, and the paths of the constraint. *)
Definition new_router (slot : Z) (site : string) : UpdatedNode :=
  mkUpdatedNode "r4" [("slot", [("value", Plain (JInt slot))])] [("site", Some site)].
Definition site_slot_group : list SchemaAttributePath :=
  [mkSchemaAttributePath (Some (router_relationship "site" "router__site")) (Some site_schema) None None;
   mkSchemaAttributePath None None (Some (new_attribute "slot" "Number")) (Some "value")].

Lemma check_results_spec_witness : ∃ values,
  mapM (_get_node_attribute_path_values (new_router 3 "s2")) [site_slot_group] = Ok [values] ∧
  taken (site_slot_rows 3) "r4" values ∧
  _check_results (new_router 3 "s2") [site_slot_group] (site_slot_rows 3) =
    Err (ValidationError "Violates uniqueness constraint 'site-slot'").
Proof.
  eexists. split; [by vm_compute|]. split; [|by vm_compute].
  assert (∀ group p, group ∈ [site_slot_group] → p ∈ group → identified p) as Hid.
  { intros group p ->%list_elem_of_singleton [-> |[-> |?%elem_of_nil]%elem_of_cons]%elem_of_cons rel; cbn; try done.
    intros [= <-]. by do 2 eexists. }
  pose proof (check_results_spec (new_router 3 "s2") [site_slot_group] _ (site_slot_rows 3) Hid ltac:(by vm_compute)) as Hspec.
  assert (_check_results (new_router 3 "s2") [site_slot_group] (site_slot_rows 3) =
    Err (ValidationError "Violates uniqueness constraint 'site-slot'")) as Heq by by vm_compute.
  rewrite Heq in Hspec. destruct Hspec as ([|i] & vs & Hi & Ht & _); [|discriminate Hi].
  injection Hi as <-. exact Ht.
Defined.

(** A value that is false is in no index: two nodes with the number zero in a unique
    attribute are accepted, before they are saved and by the checker. *)
Theorem zero_never_unique :
  (_check_results (new_router 3 "s2") [site_slot_group] (site_slot_rows 3) ≠ Ok tt ∧
   _check_results (new_router 0 "s2") [site_slot_group] (site_slot_rows 0) = Ok tt) ∧
  let _ := insertion_order in
  (∃ p g, check (λ _, site_slot_rows 3) sites site_slot = Ok (p :: g)) ∧ check (λ _, site_slot_rows 0) sites site_slot = Ok [].
Proof. split; [by vm_compute|]. split; [do 2 eexists; by vm_compute|by vm_compute]. Qed.

(** The value of an enumeration is a member of a Python [Enum]: its text is not the one of
    the database, and the constraint never applies to it. *)
Theorem enumeration_never_unique :
  let status := new_attribute "status" "Text" in
  let group := [mkSchemaAttributePath None None (Some status) (Some "value")] in
  let rows := [mkUniquenessRow "r1" "main" "status" (JStr "active") None] in
  let node v := mkUpdatedNode "r4" [("status", [("value", v)])] [] in
  _check_results (node (Plain (JStr "active"))) [group] rows ≠ Ok tt ∧
  _check_results (node (EnumMember "StatusEnum" "ACTIVE" (JStr "active"))) [group] rows = Ok tt.
Proof. split; by vm_compute. Qed.

(** Two relationships share an identifier, as the parent and the children of a hierarchy
    do: the violations are recorded under the name of the last one, and the
    checker does not report two nodes with the same parent and name. *)
Theorem shared_identifier_missed :
  let schema := router_schema [router_relationship "parent" "parent__child"; router_relationship "children" "parent__child"]
                  ["parent"; "slot__value"] in
  let rows := [slot_row "r1" 3; slot_row "r2" 3; site_row "r1" "parent__child" "s1"; site_row "r2" "parent__child" "s1"] in
  let _ := insertion_order in
  (∃ group, get_unique_constraint_schema_attribute_paths schema sites true = Ok group ∧
     ∃ g, g ∈ group ∧ get_node_ids_for_path_group (index_results rows []) g = Ok ["r1"; "r2"]) ∧
  check (λ _, rows) sites schema = Ok [].
Proof.
  split; [|by vm_compute]. eexists. split; [by vm_compute|]. eexists. split; [right; by left|]. by vm_compute.
Qed.
