(* ===== verification/PyValue.v ===== *)
(** * Python values

    The values that nodes, attributes and relationships are made from: JSON values,
    members of enumerations, and nodes, with their truth value, their equality and their
    text.  A class made by [generate_python_enum] is known by a number, since two calls
    make two classes, whose members are never equal. *)

From stdpp Require Import prelude strings pretty.
From S2P Require Import Prelude PyString SdkUtils HashModel.

(** A member of a class made by [generate_python_enum]. *)
Record EnumMember := mkEnumMember {
  em_class_id : nat;
  em_class_name : string;
  em_name : string;
  em_value : json;
}.
#[export] Instance EnumMember_eq_dec : EqDecision EnumMember.
Proof. solve_decision. Defined.

(** A node: what is read of it here is its id and what its text shows. *)
Record PeerNode := mkPeerNode {
  pn_id : option string;
  pn_kind : string;
  pn_existing : bool;
}.
#[export] Instance PeerNode_eq_dec : EqDecision PeerNode.
Proof. solve_decision. Defined.
Definition get_id (n : PeerNode) : result string :=
  match pn_id n with
  | Some (String c s) => Ok (String c s)
  | _ => Err (InitializationError "The node has not been saved yet and doesn't have an id")
  end.
Definition node_repr (n : PeerNode) : string :=
  pn_kind n +:+ "(ID: " +:+ default "None" (pn_id n) +:+ ")" +:+ (if pn_existing n then "" else "[NEW]").

Inductive PyValue := PVal (v : json) | PEnum (m : EnumMember) | PNode (n : PeerNode).
#[export] Instance PyValue_eq_dec : EqDecision PyValue.
Proof. solve_decision. Defined.

Definition of_opt (o : option string) : PyValue := PVal (match o with Some s => JStr s | None => JNull end).
Definition is_none (v : PyValue) : bool := match v with PVal JNull => true | _ => false end.
Definition truthy_value (v : PyValue) : bool := match v with PVal v => truthy_json v | PEnum _ | PNode _ => true end.
(** [==]: members and nodes are compared by identity. *)
Definition value_eq (a b : PyValue) : bool :=
  match a, b with
  | PVal a, PVal b => py_eq a b
  | PEnum m, PEnum n => bool_decide (m = n)
  | PNode a, PNode b => bool_decide (a = b)
  | _, _ => false
  end.
Definition value_str (v : PyValue) : string :=
  match v with PVal v => py_str v | PEnum m => em_class_name m +:+ "." +:+ em_name m | PNode n => node_repr n end.
(** [v.value if isinstance(v, Enum) else v] *)
Definition enum_to_value (v : PyValue) : PyValue := match v with PEnum m => PVal (em_value m) | _ => v end.

Lemma is_none_spec v : is_none v = true ↔ v = PVal JNull.
Proof. destruct v as [[]| |]; naive_solver. Qed.
Lemma is_none_false v : is_none v = false ↔ v ≠ PVal JNull.
Proof. destruct v as [[]| |]; naive_solver. Qed.
