(* ===== verification/Enums.v ===== *)
(** * Enumerations of attributes

    [backend/infrahub/core/enums.py] ([generate_python_enum]), what it uses of Python's
    [enum.Enum], and the methods of [AttributeSchema] that convert values
    ([core/schema/attribute_schema.py]). *)

From stdpp Require Import prelude strings.
From Stdlib Require Import Ascii.
From S2P Require Import Prelude PyString PyDict SdkUtils HashModel SchemaDefs PyValue.

(** ** Names *)

Definition is_name_char (c : ascii) : bool := is_alpha c || is_digit c || bool_decide (c = "_"%char).
(** [re.findall("[_a-zA-Z0-9]+", s)]: the maximal words; [word] is the one being read. *)
Fixpoint find_words (word s : string) : list string :=
  match s with
  | EmptyString => if bool_decide (word = "") then [] else [word]
  | String c s' =>
      if is_name_char c then find_words (word +:+ String c "") s'
      else if bool_decide (word = "") then find_words "" s' else word :: find_words "" s'
  end.

Definition enum_name (option : json) : result string :=
  match option with
  | JInt _ | JBool _ => Ok (py_str option)
  | JStr s => Ok (py_upper (py_join "_" (find_words "" s)))
  | _ => Err (TypeError "expected string or bytes-like object")
  end.

(** ** Python's [Enum(name, attrs)] *)

Definition char_at (s : string) (i : nat) : option ascii := String.get i s.
Definition starts_and_ends (n : nat) (s : string) : bool :=
  let u := String.concat "" (replicate n "_") in
  startswith s u && bool_decide (String.substring (String.length s - n) n s = u).
(** [_x_] and [__x__], with no other underscore next to these. *)
Definition is_sunder (s : string) : bool :=
  bool_decide (2 < String.length s)%nat && starts_and_ends 1 s &&
  bool_decide (char_at s 1 ≠ Some "_"%char) && bool_decide (char_at s (String.length s - 2) ≠ Some "_"%char).
Definition is_dunder (s : string) : bool :=
  bool_decide (4 < String.length s)%nat && starts_and_ends 2 s &&
  bool_decide (char_at s 2 ≠ Some "_"%char) && bool_decide (char_at s (String.length s - 3) ≠ Some "_"%char).

(** The members, by name; a dunder name is an attribute of the class and not a member. *)
Record EnumClass := mkEnumClass {
  ec_id : nat;
  ec_name : string;
  ec_members : list (string * json);
}.
Definition make_enum (id : nat) (name : string) (attrs : list (string * json)) : result EnumClass :=
  _ ← raise_if (existsb is_sunder (dict_keys attrs)) (ValueError "names are reserved for future Enum use");
  _ ← raise_if (bool_decide ("" ∈ dict_keys attrs)) (ValueError "invalid enum member name(s)");
  Ok (mkEnumClass id name (filter (λ m, is_dunder m.1 = false) attrs)).

(** [enum_class(value)]: the first member with an equal value, as members with equal
    values are aliases of the first of them. *)
Definition enum_lookup (c : EnumClass) (value : json) : result EnumMember :=
  m ← require (ValueError "is not a valid") (head (filter (λ m, py_eq value m.2 = true) (ec_members c)));
  Ok (mkEnumMember (ec_id c) (ec_name c) m.1 m.2).

(** [generate_python_enum]; the new class gets the number [id]. *)
Definition generate_python_enum (id : nat) (name : string) (options : list json) : result EnumClass :=
  main_attrs ← foldM (λ attrs option, n ← enum_name option; Ok (dict_set attrs n option)) [] options;
  make_enum id name main_attrs.

(** ** [AttributeSchema] *)

Definition is_enum (schema : AttributeSchema) : bool := truthy_list (a_enum schema).
Definition get_enum_class (id : nat) (schema : AttributeSchema) : result EnumClass :=
  match a_enum schema with
  | Some (o :: options) => generate_python_enum id (py_title (a_name schema) +:+ "Enum") (o :: options)
  | _ => Err (ValueError "is not an Enum")
  end.
(** An unhashable value is compared with every member, with the same result. *)
Definition convert_value_to_enum (id : nat) (schema : AttributeSchema) (value : PyValue) : result PyValue :=
  match value with
  | PEnum _ | PVal JNull => Ok value
  | PVal v => c ← get_enum_class id schema; m ← enum_lookup c v; Ok (PEnum m)
  | PNode _ => c ← get_enum_class id schema; Err (ValueError "is not a valid")
  end.

(** ** Which options can be used *)

(** The last option of its name. *)
Definition last_named (options : list json) (n : string) (o : json) : Prop :=
  ∃ l1 l2, options = l1 ++ o :: l2 ∧ enum_name o = Ok n ∧ ∀ o', o' ∈ l2 → enum_name o' ≠ Ok n.
Definition usable_name (n : string) : bool := negb (is_sunder n) && negb (bool_decide (n = "")).

Definition add_option (attrs : list (string * json)) (option : json) : result (list (string * json)) :=
  n ← enum_name option; Ok (dict_set attrs n option).

Lemma last_named_snoc options o n :
  enum_name o = Ok n →
  ∀ n' o', last_named (options ++ [o]) n' o' ↔ (n' = n ∧ o' = o) ∨ (n' ≠ n ∧ last_named options n' o').
Proof.
  intros Ho n' o'. split.
  - intros (l1 & l2 & Heq & Hn & Hl). destruct (decide (l2 = [])) as [-> |Hne].
    + apply app_inj_tail in Heq as [-> ->]. left. split; [congruence|done].
    + destruct (exists_last Hne) as (l2' & x & ->). rewrite app_comm_cons, app_assoc in Heq.
      apply app_inj_tail in Heq as [-> <-]. right. split.
      * intros ->. apply (Hl o); [set_solver|done].
      * exists l1, l2'. split_and!; [done|done|]. intros y Hy. apply Hl. set_solver.
  - intros [[-> ->]|[Hne (l1 & l2 & -> & Hn & Hl)]].
    + exists options, []. split_and!; [done|done|]. intros y Hy. by apply elem_of_nil in Hy.
    + exists l1, (l2 ++ [o]). rewrite <-app_assoc. split_and!; [done|done|].
      intros y [Hy|Hy]%elem_of_app; [by apply Hl|]. apply list_elem_of_singleton in Hy as ->. congruence.
Qed.

(** The dictionary that [generate_python_enum] builds holds the last option of each name,
    unless an option is neither a number nor a text. *)
Lemma main_attrs_spec options :
  Forall (λ o, ∃ n, enum_name o = Ok n) options →
  ∃ attrs, foldM add_option [] options = Ok attrs ∧ NoDup (dict_keys attrs) ∧
           ∀ n o, dict_get attrs n = Some o ↔ last_named options n o.
Proof.
  induction options as [|o options IH] using rev_ind; intros Hok.
  { exists []. split_and!; [done|constructor|]. intros n o. split; [done|]. intros (l1 & l2 & Heq & _). by destruct l1. }
  apply Forall_app in Hok as [Hok [[n Hn] _]%Forall_cons]. destruct (IH Hok) as (attrs & Hrun & Hnd & Hget).
  exists (dict_set attrs n o). rewrite foldM_app, Hrun. cbn. unfold add_option at 1. rewrite Hn. cbn. split_and!.
  - done.
  - by apply NoDup_dict_set.
  - intros n' o'. rewrite (last_named_snoc _ _ _ Hn), <-Hget. destruct (decide (n' = n)) as [-> |Hne].
    + rewrite dict_get_set_eq. naive_solver.
    + rewrite dict_get_set_ne by done. naive_solver.
Qed.

Lemma make_enum_ok id name attrs :
  (∀ n, n ∈ dict_keys attrs → usable_name n = true) →
  make_enum id name attrs = Ok (mkEnumClass id name (filter (λ m, is_dunder m.1 = false) attrs)).
Proof.
  intros Huse. unfold make_enum.
  assert (existsb is_sunder (dict_keys attrs) = false) as ->.
  { apply not_true_iff_false. rewrite existsb_exists. intros (n & Hn & Hs).
    apply list_elem_of_In, Huse in Hn. unfold usable_name in Hn. by rewrite Hs in Hn. }
  rewrite bool_decide_eq_false_2; [done|]. intros Hn. by apply Huse in Hn.
Qed.

(** A value is accepted as a member of an enumeration exactly when it equals an option
    that no later option hides: an option is lost when a later one has the same name once
    written in capitals with underscores, or when its name is a dunder.  The member has the
    value of such an option; the other values raise [ValueError]. *)
Theorem convert_value_spec id schema options v :
  a_enum schema = Some options → options ≠ [] → v ≠ JNull →
  Forall (λ o, ∃ n, enum_name o = Ok n ∧ usable_name n = true) options →
  match convert_value_to_enum id schema (PVal v) with
  | Ok w => ∃ m n o, w = PEnum m ∧ m = mkEnumMember id (py_title (a_name schema) +:+ "Enum") n o ∧
              last_named options n o ∧ is_dunder n = false ∧ py_eq v o = true
  | Err e => e = ValueError "is not a valid" ∧
              ∀ n o, last_named options n o → is_dunder n = false → py_eq v o = false
  end.
Proof.
  intros Henum Hne Hv Hok. destruct (main_attrs_spec options) as (attrs & Hrun & Hnd & Hget).
  { eapply Forall_impl; [exact Hok|]. intros o (n & Hn & _). by exists n. }
  assert (∀ n, n ∈ dict_keys attrs → usable_name n = true) as Huse.
  { intros n [o Ho]%dict_get_is_Some. apply Hget in Ho as (l1 & l2 & -> & Hn & _).
    apply Forall_app in Hok as [_ [(n' & Hn' & ?) _]%Forall_cons]. congruence. }
  assert (get_enum_class id schema = Ok (mkEnumClass id (py_title (a_name schema) +:+ "Enum") (filter (λ m, is_dunder m.1 = false) attrs))) as Hclass.
  { unfold get_enum_class. rewrite Henum. destruct options as [|o options]; [done|]. unfold generate_python_enum.
    change (foldM _ [] (o :: options)) with (foldM add_option [] (o :: options)). rewrite Hrun. cbn.
    by apply make_enum_ok. }
  assert (convert_value_to_enum id schema (PVal v) = (m ← enum_lookup (mkEnumClass id (py_title (a_name schema) +:+ "Enum")
    (filter (λ m, is_dunder m.1 = false) attrs)) v; Ok (PEnum m))) as ->.
  { unfold convert_value_to_enum. rewrite Hclass. by destruct v. }
  unfold enum_lookup. cbn [ec_members ec_id ec_name]. rewrite list_filter_filter.
  destruct (filter (λ m : string * json, py_eq v m.2 = true ∧ is_dunder m.1 = false) attrs)
    as [|[n o] found] eqn:Hf; cbn.
  - split; [done|]. intros n o Hlast Hd. apply not_true_iff_false. intros Heq.
    assert ((n, o) ∈ filter (λ m : string * json, py_eq v m.2 = true ∧ is_dunder m.1 = false) attrs) as Hin.
    { apply list_elem_of_filter. split; [done|]. by apply dict_get_Some_in, Hget. }
    rewrite Hf in Hin. by apply elem_of_nil in Hin.
  - assert ((n, o) ∈ filter (λ m : string * json, py_eq v m.2 = true ∧ is_dunder m.1 = false) attrs) as Hin by (rewrite Hf; left).
    apply list_elem_of_filter in Hin as [[Heq Hd] Hin]. eexists _, n, o. split_and!; try done. by apply Hget, dict_get_in.
Qed.

Definition status_schema (options : list json) : AttributeSchema :=
  (new_attribute "status" "Text") <| a_enum := Some options |>.

Lemma convert_value_spec_witness :
  convert_value_to_enum 3 (status_schema [JStr "active"; JStr "in-repair"]) (PVal (JStr "in-repair")) =
    Ok (PEnum (mkEnumMember 3 "StatusEnum" "IN_REPAIR" (JStr "in-repair"))) ∧
  ∀ n o, last_named [JStr "active"; JStr "in-repair"] n o → is_dunder n = false → py_eq (JStr "retired") o = false.
Proof.
  split; [by vm_compute|].
  assert (convert_value_to_enum 3 (status_schema [JStr "active"; JStr "in-repair"]) (PVal (JStr "retired")) =
    Err (ValueError "is not a valid")) as Herr by by vm_compute.
  pose proof (convert_value_spec 3 (status_schema [JStr "active"; JStr "in-repair"]) [JStr "active"; JStr "in-repair"]
    (JStr "retired") eq_refl) as H.
  rewrite Herr in H. apply H; [done..|]. repeat (constructor; [by eexists|]). constructor.
Defined.

(** Two options that differ by their case, or by a character that is not a letter, are one
    member: a value that the schema lists is refused. *)
Theorem same_name_option_lost id :
  convert_value_to_enum id (status_schema [JStr "active"; JStr "Active"]) (PVal (JStr "active")) = Err (ValueError "is not a valid") ∧
  convert_value_to_enum id (status_schema [JStr "in-repair"; JStr "in repair"]) (PVal (JStr "in-repair")) =
    Err (ValueError "is not a valid").
Proof. done. Qed.
