(* ===== verification/PropertyMixin.v ===== *)
(** * The properties of attributes and relationships

    [backend/infrahub/core/property.py]: the flags ([FlagPropertyMixin]) and the nodes
    ([NodePropertyMixin]) that every attribute and every relationship carries.  The
    operations are on the record of these fields; an object that has them says how to
    reach them, as an instance of [HasProperties]. *)

From stdpp Require Import prelude strings.
From S2P Require Import Prelude PyString PyDict SdkUtils PyValue.

Definition _flag_properties : list string := ["is_visible"; "is_protected"].
Definition _node_properties : list string := ["source"; "owner"].

Record Properties := mkProperties {
  p_is_visible : PyValue;
  p_is_protected : PyValue;
  p_source : option PeerNode;
  p_source_id : json;
  p_owner : option PeerNode;
  p_owner_id : json;
}.
#[export] Instance Properties_rebuild : Rebuild Properties := λ p,
  mkProperties (p_is_visible p) (p_is_protected p) (p_source p) (p_source_id p) (p_owner p) (p_owner_id p).

(** The values of a new object: the attributes of the classes, and [None] for the nodes. *)
Definition default_properties : Properties :=
  mkProperties (PVal (JBool true)) (PVal (JBool false)) None JNull None JNull.

Definition get_flag (name : string) (p : Properties) : PyValue :=
  if bool_decide (name = "is_visible") then p_is_visible p else p_is_protected p.
Definition set_flag (name : string) (value : PyValue) (p : Properties) : Properties :=
  if bool_decide (name = "is_visible") then p <| p_is_visible := value |> else p <| p_is_protected := value |>.
Definition get_node (name : string) (p : Properties) : option PeerNode :=
  if bool_decide (name = "source") then p_source p else p_owner p.
Definition get_node_id (name : string) (p : Properties) : json :=
  if bool_decide (name = "source") then p_source_id p else p_owner_id p.
Definition set_node (name : string) (node : option PeerNode) (node_id : json) (p : Properties) : Properties :=
  if bool_decide (name = "source") then p <| p_source := node |> <| p_source_id := node_id |>
  else p <| p_owner := node |> <| p_owner_id := node_id |>.

Definition _set_node_property (name : string) (value : PyValue) : Exec Properties unit :=
  match value with
  | PVal (JStr s) => modify (set_node name None (JStr s))
  | PVal (JDict d) =>
      match dict_get d "id" with
      | Some node_id => modify (set_node name None node_id)
      | None => raise (ValueError "Unable to process the node property")
      end
  | PNode n => modify (set_node name (Some n) (match pn_id n with Some s => JStr s | None => JNull end))
  | PVal JNull => modify (set_node name None JNull)
  | PVal _ | PEnum _ => raise (ValueError "Unable to process the node property")
  end.

(** [setattr(self, name, value)], for the name of a property *)
Definition set_property (name : string) (value : PyValue) : Exec Properties unit :=
  if bool_decide (name ∈ _flag_properties) then modify (set_flag name value)
  else if bool_decide (name ∈ _node_properties) then _set_node_property name value
  else mret tt.

Definition _init_flag_property_mixin (kwargs : list (string * PyValue)) : Exec Properties unit :=
  for_each (λ flag, match dict_get kwargs flag with
                    | Some value => modify (set_flag flag value)
                    | None => mret tt end) _flag_properties.

(** The id given in [kwargs] is kept as it is. *)
Definition set_node_id (name : string) (value : json) (p : Properties) : Properties := set_node name (get_node name p) value p.
Definition _init_node_property_mixin (kwargs : list (string * PyValue)) (ids : list (string * json)) : Exec Properties unit :=
  _ ← for_each (λ node, modify (set_node node None JNull)) _node_properties;
  for_each (λ node,
    _ ← (match dict_get kwargs node with Some value => _set_node_property node value | None => mret tt end);
    match dict_get ids (node +:+ "_id") with Some value => modify (set_node_id node value) | None => mret tt end)
    _node_properties.

Definition _get_node_property_from_cache (name : string) (p : Properties) : result PeerNode :=
  require (LookupError "The property is not present locally") (get_node name p).

(** [_get_node_property]; [get_one] reads the node of an id in the database. *)
Definition _get_node_property (get_one : json → result (option PeerNode)) (name : string) : Exec Properties (option PeerNode) :=
  p ← get_state;
  _ ← (match get_node name p with
       | Some _ => mret tt
       | None =>
           node ← lift (get_one (get_node_id name p));
           match node with
           | Some n => modify (set_node name (Some n) (match pn_id n with Some s => JStr s | None => JNull end))
           | None => mret tt
           end
       end);
  gets (get_node name).

(** [getattr(self, name)] of a flag, [getattr(self, name + "_id")] of a node *)
Definition get_property (name : string) (p : Properties) : PyValue :=
  if bool_decide (name ∈ _flag_properties) then get_flag name p else PVal (get_node_id name p).

(** ** Objects that have properties *)

Class HasProperties (R : Type) := {
  properties : R → Properties;
  with_properties : Properties → R → R;
  properties_with p r : properties (with_properties p r) = p;
  with_same_properties r : with_properties (properties r) r = r;
  with_with_properties p q r : with_properties p (with_properties q r) = with_properties p r;
}.

Definition on_properties {R} `{HasProperties R} {A} (m : Exec Properties A) : Exec R A := λ r,
  let '(a, p) := m (properties r) in (a, with_properties p r).

Section laws.
Context {R : Type} `{HasProperties R}.

(** Methods of the properties compose as those of the object. *)
Lemma on_properties_ret {A} (a : A) r : on_properties (mret a) r = (Ok a, r).
Proof. unfold on_properties. cbn. by rewrite with_same_properties. Qed.
Lemma on_properties_modify f r : on_properties (modify f) r = (Ok tt, with_properties (f (properties r)) r).
Proof. done. Qed.
Lemma on_properties_bind {A B} (m : Exec Properties A) (f : A → Exec Properties B) r :
  on_properties (m ≫= f) r = (on_properties m ≫= λ a, on_properties (f a)) r.
Proof.
  unfold on_properties, mbind, exec_bind. destruct (m (properties r)) as [[a|e] p]; [|done].
  rewrite properties_with. destruct (f a p) as [b q]. by rewrite with_with_properties.
Qed.
End laws.

(** A flag or a node that is set is read back, and the others stay. *)
Lemma get_set_flag name value p name' :
  name ∈ _flag_properties → name' ∈ _flag_properties →
  get_flag name' (set_flag name value p) = (if decide (name' = name) then value else get_flag name' p).
Proof. unfold _flag_properties, get_flag, set_flag. intros Hn Hn'. repeat (case_bool_decide || case_decide); set_solver. Qed.
Lemma get_set_node name node node_id p name' :
  name ∈ _node_properties → name' ∈ _node_properties →
  get_node_id name' (set_node name node node_id p) = (if decide (name' = name) then node_id else get_node_id name' p) ∧
  get_node name' (set_node name node node_id p) = (if decide (name' = name) then node else get_node name' p).
Proof.
  unfold _node_properties, get_node_id, get_node, set_node. intros Hn Hn'.
  repeat (case_bool_decide || case_decide); set_solver.
Qed.
Lemma get_flag_set_node name node node_id p name' : get_flag name' (set_node name node node_id p) = get_flag name' p.
Proof. unfold get_flag, set_node. by repeat case_bool_decide. Qed.
Lemma get_node_set_flag name value p name' : get_node_id name' (set_flag name value p) = get_node_id name' p.
Proof. unfold get_node_id, set_flag. by repeat case_bool_decide. Qed.
