(* ===== verification/RelationshipList.v ===== *)
(** * The list of the relationships of a manager

    Class [RelationshipValidatorList] of [backend/infrahub/core/relationship/model.py]: a
    list without repetition whose length is bounded.  The elements are references to
    [Relationship] objects, compared by identity; an argument that is not a relationship
    is [None].  No method changes the list before it raises. *)

From stdpp Require Import prelude strings.
From S2P Require Import Prelude PyDict.

#[local] Open Scope Z_scope.
#[local] Coercion Z.of_nat : nat >-> Z.

Record RelationshipValidatorList (R : Type) := mkValidatorList {
  vl_name : string;
  vl_min_count : Z;
  vl_max_count : Z;
  vl_relationships : list R;
  vl_relationships_count : Z;
}.
Arguments mkValidatorList {_} _ _ _ _ _.
Arguments vl_name {_} _.
Arguments vl_min_count {_} _.
Arguments vl_max_count {_} _.
Arguments vl_relationships {_} _.
Arguments vl_relationships_count {_} _.
#[export] Instance RelationshipValidatorList_rebuild {R} : Rebuild (RelationshipValidatorList R) := λ l,
  mkValidatorList (vl_name l) (vl_min_count l) (vl_max_count l) (vl_relationships l) (vl_relationships_count l).

(** The index of an element, from the end when it is negative. *)
Definition py_index {A} (l : list A) (index : Z) : result nat :=
  let i := if index <? 0 then index + length l else index in
  if (0 <=? i) && (i <? length l) then Ok (Z.to_nat i) else Err IndexError.
(** The index of a slice. *)
Definition slice_index {A} (l : list A) (index : Z) : nat :=
  Z.to_nat (Z.min (length l) (if index <? 0 then index + length l else index)).

Section validator_list.
Context {R : Type} `{EqDecision R}.
#[local] Abbreviation VList := (RelationshipValidatorList R).

Definition _raise_too_few (l : VList) {A} : result A := Err (ValidationError (vl_name l +:+ ": Too few relationships")).
Definition _raise_too_many (l : VList) {A} : result A := Err (ValidationError (vl_name l +:+ ": Too many relationships")).

(** [self.max_count and n > self.max_count] and [self.min_count and n < self.min_count] *)
Definition over_max (l : VList) (n : Z) : bool := negb (vl_max_count l =? 0) && (vl_max_count l <? n).
Definition under_min (l : VList) (n : Z) : bool := negb (vl_min_count l =? 0) && (n <? vl_min_count l).

Definition vl_init (relationships : list (option R)) (name : string) (min_count max_count : Z) : result VList :=
  if max_count <? min_count then Err (ValidationError "max_count must be greater than min_count")
  else
    let rels := omap id relationships in
    let l := mkValidatorList name min_count max_count rels (length rels) in
    match rels with
    | [] => Ok l
    | _ =>
        if over_max l (vl_relationships_count l) then _raise_too_many l
        else if under_min l (vl_relationships_count l) then _raise_too_few l
        else Ok l
    end.

Definition vl_contains (l : VList) (item : option R) : bool :=
  match item with Some r => bool_decide (r ∈ vl_relationships l) | None => false end.

Definition vl_getitem (l : VList) (index : Z) : result R :=
  i ← py_index (vl_relationships l) index; require IndexError (vl_relationships l !! i).

Definition not_a_relationship {A} : result A := Err (ValidationError "only accepts Relationship objects").

Definition vl_setitem (l : VList) (index : Z) (value : option R) : result VList :=
  if vl_contains l value then Err (ValidationError "Relationship already exists in the list")
  else match value with
       | None => not_a_relationship
       | Some r =>
           i ← py_index (vl_relationships l) index;
           Ok (l <| vl_relationships := <[i := r]> (vl_relationships l) |>)
       end.

(** The count is not updated. *)
Definition vl_delitem (l : VList) (index : Z) : result VList :=
  if vl_relationships_count l - 1 <? vl_min_count l then _raise_too_few l
  else
    i ← py_index (vl_relationships l) index;
    Ok (l <| vl_relationships := delete i (vl_relationships l) |>).

Definition vl_len (l : VList) : Z * VList :=
  (Z.of_nat (length (vl_relationships l)), l <| vl_relationships_count := Z.of_nat (length (vl_relationships l)) |>).

Definition vl_append (l : VList) (rel : option R) : result VList :=
  if vl_contains l rel then Ok l
  else match rel with
       | None => not_a_relationship
       | Some r =>
           if over_max l (vl_relationships_count l + 1) then _raise_too_many l
           else Ok (l <| vl_relationships := vl_relationships l ++ [r] |>
                      <| vl_relationships_count := vl_relationships_count l + 1 |>)
       end.

Definition vl_clear (l : VList) : VList := l <| vl_relationships := [] |> <| vl_relationships_count := 0 |>.

Definition vl_extend (l : VList) (iterable : list (option R)) : result VList :=
  let relationships := filter (.∉ vl_relationships l) (omap id iterable) in
  if over_max l (vl_relationships_count l + length relationships) then _raise_too_many l
  else Ok (l <| vl_relationships := vl_relationships l ++ relationships |>
             <| vl_relationships_count := vl_relationships_count l + length relationships |>).

Definition vl_get (l : VList) (index : Z) : result R := vl_getitem l index.

(** [list.index(value, start, stop)] *)
Definition vl_index (l : VList) (value : R) (start stop : Z) : result nat :=
  let rels := vl_relationships l in
  let first := slice_index rels start in
  '(i, _) ← require (ValueError "is not in list") (list_find (.= value) (drop first (take (slice_index rels stop) rels)));
  Ok (first + i)%nat.

Definition vl_insert (l : VList) (index : Z) (value : option R) : result VList :=
  if vl_contains l value then Ok l
  else match value with
       | None => not_a_relationship
       | Some r =>
           if over_max l (vl_relationships_count l + 1) then _raise_too_many l
           else
             let i := slice_index (vl_relationships l) index in
             Ok (l <| vl_relationships := take i (vl_relationships l) ++ r :: drop i (vl_relationships l) |>
                   <| vl_relationships_count := vl_relationships_count l + 1 |>)
       end.

Definition vl_pop (l : VList) (idx : Z) : result (R * VList) :=
  if under_min l (vl_relationships_count l - 1) then _raise_too_few l
  else
    i ← py_index (vl_relationships l) idx;
    r ← require IndexError (vl_relationships l !! i);
    Ok (r, l <| vl_relationships := delete i (vl_relationships l) |>
             <| vl_relationships_count := vl_relationships_count l - 1 |>).

Definition vl_remove (l : VList) (value : R) : result VList :=
  if under_min l (vl_relationships_count l - 1) then _raise_too_few l
  else
    '(i, _) ← require (ValueError "list.remove(x): x not in list") (list_find (.= value) (vl_relationships l));
    Ok (l <| vl_relationships := delete i (vl_relationships l) |>
          <| vl_relationships_count := vl_relationships_count l - 1 |>).

Definition validate_min (l : VList) : result unit :=
  if under_min l (vl_relationships_count l) then _raise_too_few l else Ok tt.
Definition validate_max (l : VList) : result unit :=
  if over_max l (vl_relationships_count l) then _raise_too_many l else Ok tt.
Definition vl_validate (l : VList) : result unit := validate_min l;; validate_max l.
End validator_list.

(** ** The invariant of the list *)

Section invariant.
Context {R : Type} `{EqDecision R}.
Implicit Types l : RelationshipValidatorList R.

Record vl_ok (min_count max_count : Z) l : Prop := {
  vl_ok_min : vl_min_count l = min_count;
  vl_ok_max : vl_max_count l = max_count;
  vl_ok_count : vl_relationships_count l = length (vl_relationships l);
  vl_ok_NoDup : NoDup (vl_relationships l);
  vl_ok_bound : max_count ≠ 0 → length (vl_relationships l) ≤ max_count;
}.

(** The methods that change the list, [__delitem__] apart. *)
Inductive ListOp :=
  | OpSetItem (index : Z) (value : option R) | OpAppend (rel : option R) | OpClear
  | OpExtend (iterable : list (option R)) | OpInsert (index : Z) (value : option R)
  | OpPop (idx : Z) | OpRemove (value : R) | OpLen.

Definition op_result l (op : ListOp) : result (RelationshipValidatorList R) :=
  match op with
  | OpSetItem index value => vl_setitem l index value
  | OpAppend rel => vl_append l rel
  | OpClear => Ok (vl_clear l)
  | OpExtend iterable => vl_extend l iterable
  | OpInsert index value => vl_insert l index value
  | OpPop idx => snd <$> vl_pop l idx
  | OpRemove value => vl_remove l value
  | OpLen => Ok (vl_len l).2
  end.
(** A method that raises leaves the list as it is. *)
Definition run_op l (op : ListOp) : RelationshipValidatorList R :=
  match op_result l op with Ok l' => l' | Err _ => l end.

(** The argument of [extend] has no repetition. *)
Definition op_distinct (op : ListOp) : Prop :=
  match op with OpExtend iterable => NoDup (omap id iterable) | _ => True end.

Lemma over_max_false l n : over_max l n = false ↔ (vl_max_count l ≠ 0 → n ≤ vl_max_count l).
Proof. unfold over_max. destruct (Z.eqb_spec (vl_max_count l) 0), (Z.ltb_spec (vl_max_count l) n); cbn; intuition (try lia; try done). Qed.
Lemma under_min_false l n : under_min l n = false ↔ (vl_min_count l ≠ 0 → vl_min_count l ≤ n).
Proof. unfold under_min. destruct (Z.eqb_spec (vl_min_count l) 0), (Z.ltb_spec n (vl_min_count l)); cbn; intuition (try lia; try done). Qed.

Lemma vl_contains_spec l r : vl_contains l (Some r) = bool_decide (r ∈ vl_relationships l).
Proof. done. Qed.

Lemma py_index_lt {A} (xs : list A) index i : py_index xs index = Ok i → (i < length xs)%nat.
Proof.
  unfold py_index. destruct (andb _ _) eqn:Hb; [|done]. intros [= <-].
  apply andb_prop in Hb as [?%Z.leb_le ?%Z.ltb_lt]. lia.
Qed.

Lemma length_delete_lt {A} (xs : list A) i : (i < length xs)%nat → Z.of_nat (length (delete i xs)) = length xs - 1.
Proof. intros Hi. destruct (lookup_lt_is_Some_2 xs i Hi) as [x Hx]. rewrite (length_delete _ _ (ltac:(eauto))). lia. Qed.

Lemma NoDup_delete {A} (xs : list A) i : NoDup xs → NoDup (delete i xs).
Proof. intros Hxs. by eapply sublist_NoDup, sublist_delete. Qed.

Lemma NoDup_list_insert {A} (xs : list A) i x : x ∉ xs → NoDup xs → NoDup (<[i := x]> xs).
Proof.
  intros Hx Hxs. destruct (decide (i < length xs)%nat) as [Hi|Hi]; [|by rewrite list_insert_ge by lia].
  apply NoDup_alt. intros j k y. rewrite !list_lookup_insert. rewrite NoDup_alt in Hxs.
  repeat case_decide; intros; simplify_eq; try naive_solver.
  - exfalso. apply Hx. by eapply list_elem_of_lookup_2.
  - exfalso. apply Hx. by eapply list_elem_of_lookup_2.
Qed.

Lemma vl_ok_grow mn mx l (pre post : list R) (rels : list R) :
  vl_ok mn mx l → vl_relationships l = pre ++ post → NoDup rels → (∀ r, r ∈ rels → r ∉ vl_relationships l) →
  over_max l (vl_relationships_count l + length rels) = false →
  vl_ok mn mx (l <| vl_relationships := pre ++ rels ++ post |> <| vl_relationships_count := vl_relationships_count l + length rels |>).
Proof.
  intros [Hmin Hmax Hcount Hnd Hbound] Hl Hrels Hnew Hover. rewrite over_max_false in Hover.
  rewrite Hl in *. split; cbn; [done|done| | |].
  - rewrite Hcount, !length_app. lia.
  - rewrite app_assoc, (Permutation_app_comm pre rels), <-app_assoc. apply NoDup_app. naive_solver.
  - rewrite Hcount, Hmax in Hover. rewrite !length_app in *. intros ?. specialize (Hover ltac:(done)). lia.
Qed.

Lemma vl_ok_shrink mn mx l i :
  vl_ok mn mx l → (i < length (vl_relationships l))%nat →
  vl_ok mn mx (l <| vl_relationships := delete i (vl_relationships l) |> <| vl_relationships_count := vl_relationships_count l - 1 |>).
Proof.
  intros [Hmin Hmax Hcount Hnd Hbound] Hi. split; cbn; [done|done| |by apply NoDup_delete|].
  - by rewrite length_delete_lt, Hcount.
  - rewrite length_delete_lt by done. lia.
Qed.

Lemma op_result_ok mn mx l op l' :
  vl_ok mn mx l → op_distinct op → op_result l op = Ok l' → vl_ok mn mx l'.
Proof.
  intros Hok Hop. destruct op as [index value|rel| |iterable|index value|idx|value|]; cbn [op_result].
  - unfold vl_setitem. destruct (vl_contains l value) eqn:Hin; [done|]. destruct value as [r|]; [|done].
    intros H. py_inv H. apply py_index_lt in Ha. apply bool_decide_eq_false in Hin.
    destruct Hok as [? ? Hc ? Hb]. split; cbn; [done|done| | |]; rewrite ?length_insert; try done. by apply NoDup_list_insert.
  - unfold vl_append. destruct (vl_contains l rel) eqn:Hin; [by intros [= <-]|]. destruct rel as [r|]; [|done].
    destruct (over_max _ _) eqn:Hover; [done|]. intros [= <-]. apply bool_decide_eq_false in Hin.
    pose proof (vl_ok_grow mn mx l (vl_relationships l) [] [r] Hok) as H. rewrite !app_nil_r in H.
    apply H; [done|apply NoDup_singleton|set_solver|done].
  - intros [= <-]. destruct Hok. split; cbn; try done; [constructor|lia].
  - unfold vl_extend. destruct (over_max _ _) eqn:Hover; [done|]. intros [= <-].
    pose proof (vl_ok_grow mn mx l (vl_relationships l) [] (filter (.∉ vl_relationships l) (omap id iterable)) Hok) as H.
    rewrite !app_nil_r in H. apply H; [done|by apply NoDup_filter| |done]. intros r Hr. by apply list_elem_of_filter in Hr as [? _].
  - unfold vl_insert. destruct (vl_contains l value) eqn:Hin; [by intros [= <-]|]. destruct value as [r|]; [|done].
    destruct (over_max _ _) eqn:Hover; [done|]. intros [= <-]. apply bool_decide_eq_false in Hin.
    apply (vl_ok_grow mn mx l _ _ [r] Hok); [by rewrite take_drop|apply NoDup_singleton|set_solver|done].
  - unfold vl_pop. destruct (under_min _ _); [done|]. intros H.
    destruct (py_index _ _) as [i|] eqn:Hi; cbn in H; [|done]. pose proof (py_index_lt _ _ _ Hi) as Hlt.
    destruct (lookup_lt_is_Some_2 _ _ Hlt) as [r Hr]. rewrite Hr in H. cbn in H. simplify_eq. by apply vl_ok_shrink.
  - unfold vl_remove. destruct (under_min _ _); [done|]. intros H.
    destruct (list_find _ _) as [[i r]|] eqn:Hi; cbn in H; [|done]. apply list_find_Some in Hi as (Hi & _).
    simplify_eq. apply vl_ok_shrink; [done|]. by eapply lookup_lt_Some.
  - intros [= <-]. destruct Hok. by split.
Qed.

(** Only [clear] goes under the minimum. *)
Lemma op_result_min mn mx l op l' :
  vl_ok mn mx l → op ≠ OpClear → op_result l op = Ok l' →
  mn ≤ length (vl_relationships l) → mn ≤ length (vl_relationships l').
Proof.
  intros Hok Hop. assert (∀ i, (i < length (vl_relationships l))%nat → under_min l (vl_relationships_count l - 1) = false →
    mn ≤ length (vl_relationships l) → mn ≤ length (delete i (vl_relationships l))) as Hdel.
  { intros i Hi Hu Hl. rewrite under_min_false in Hu. destruct Hok as [Hmin _ Hcount _ _].
    rewrite length_delete_lt, <-Hcount by done. rewrite Hmin in Hu. destruct (decide (mn = 0)); [lia|naive_solver]. }
  destruct op as [index value|rel| |iterable|index value|idx|value|]; cbn [op_result].
  - unfold vl_setitem. repeat case_match; try done. intros Hl. py_inv Hl. cbn. by rewrite length_insert.
  - unfold vl_append. repeat case_match; try done; intros [= <-]; cbn; rewrite ?length_app; lia.
  - done.
  - unfold vl_extend. repeat case_match; try done; intros [= <-]; cbn; rewrite ?length_app; lia.
  - unfold vl_insert. repeat case_match; try done; intros [= <-]; cbn; [done|].
    intros ?. rewrite length_app. cbn. rewrite length_take, length_drop. lia.
  - unfold vl_pop. destruct (under_min _ _) eqn:Hu; [done|]. intros H.
    destruct (py_index _ _) as [i|] eqn:Hi; cbn in H; [|done]. pose proof (py_index_lt _ _ _ Hi) as Hlt.
    destruct (lookup_lt_is_Some_2 _ _ Hlt) as [r Hr]. rewrite Hr in H. cbn in H. simplify_eq. cbn. by apply Hdel.
  - unfold vl_remove. destruct (under_min _ _) eqn:Hu; [done|]. intros H.
    destruct (list_find _ _) as [[i r]|] eqn:Hi; cbn in H; [|done]. apply list_find_Some in Hi as (Hi & _).
    simplify_eq. cbn. apply Hdel; [|done]. by eapply lookup_lt_Some.
  - by intros [= <-].
Qed.

Lemma vl_init_ok rels name mn mx l :
  0 ≤ mn → NoDup (omap id rels) → vl_init rels name mn mx = Ok l → vl_ok mn mx l ∧ vl_relationships l = omap id rels.
Proof.
  intros Hmn Hnd. unfold vl_init. destruct (Z.ltb_spec mx mn); [done|].
  destruct (omap id rels) as [|r rs] eqn:Hrels; [intros [= <-]; split; [split; cbn; try done; lia|done]|].
  destruct (over_max _ _) eqn:Hover; [done|]. destruct (under_min _ _); [done|]. intros [= <-].
  split; [|done]. split; try done. rewrite over_max_false in Hover. cbn in *. lia.
Qed.

Lemma run_op_ok mn mx l op : vl_ok mn mx l → op_distinct op → vl_ok mn mx (run_op l op).
Proof. unfold run_op. destruct (op_result l op) eqn:Hl; [|done]. intros. by eapply op_result_ok. Qed.

(** However the list of the relationships of a manager was changed, by any sequence of
    its methods but [__delitem__], some of which raised: the count it keeps is its length,
    it holds no relationship twice (when [extend] is given none twice), and it has at most
    [max_count] relationships unless [max_count] is 0; without [clear], it never goes from
    at least [min_count] relationships to fewer. *)
Theorem validator_list_invariant rels name mn mx l ops :
  0 ≤ mn → NoDup (omap id rels) → vl_init rels name mn mx = Ok l → Forall op_distinct ops →
  let l' := foldl run_op l ops in
  vl_relationships_count l' = length (vl_relationships l') ∧ NoDup (vl_relationships l') ∧
  (mx ≠ 0 → length (vl_relationships l') ≤ mx) ∧
  (OpClear ∉ ops → mn ≤ length (vl_relationships l) → mn ≤ length (vl_relationships l')).
Proof.
  intros Hmn Hnd Hl Hops. apply vl_init_ok in Hl as [Hok _]; [|done..].
  assert (vl_ok mn mx (foldl run_op l ops) ∧
          (OpClear ∉ ops → mn ≤ length (vl_relationships l) → mn ≤ length (vl_relationships (foldl run_op l ops)))) as [[] ?]; [|by repeat split].
  revert l Hok. induction Hops as [|op ops Hop _ IH]; intros l Hok; [done|].
  destruct (IH (run_op l op)) as [IH1 IH2]; [by apply run_op_ok|]. split; [done|]. cbn.
  rewrite not_elem_of_cons. intros [Hne Hc] Hl. apply IH2; [done|]. unfold run_op.
  destruct (op_result l op) as [l'|] eqn:Hl'; [|done].
  exact (op_result_min mn mx l op l' Hok (not_eq_sym Hne) Hl' Hl).
Qed.
End invariant.

Lemma validator_list_invariant_witness :
  let l' := foldl run_op (mkValidatorList (R := nat) "tags" 1 2 [] 0)
              [OpAppend (Some 0%nat); OpAppend (Some 1%nat); OpAppend (Some 2%nat); OpPop 0; OpPop 0] in
  vl_relationships l' = [1%nat] ∧ vl_relationships_count l' = 1.
Proof.
  assert (H := validator_list_invariant (R := nat) [] "tags" 1 2 (mkValidatorList "tags" 1 2 [] 0)
    [OpAppend (Some 0%nat); OpAppend (Some 1%nat); OpAppend (Some 2%nat); OpPop 0; OpPop 0]
    ltac:(lia) (NoDup_nil_2) eq_refl ltac:(repeat constructor)).
  split; [reflexivity|exact (proj1 H)].
Defined.

(** [__delitem__] does not update the count: the list is then refused a relationship for
    which it has room, until [len] is called. *)
Theorem delitem_keeps_count :
  let l := mkValidatorList (R := nat) "tags" 0 2 [0%nat; 1%nat] 2 in
  ∃ l', vl_delitem l 0 = Ok l' ∧ vl_relationships l' = [1%nat] ∧
    vl_append l' (Some 2%nat) = _raise_too_many l' ∧
    vl_relationships <$> vl_append (vl_len l').2 (Some 2%nat) = Ok [1%nat; 2%nat].
Proof. eexists. split; [reflexivity|]. by repeat split. Qed.

(** The number 0 stands for no maximum; with a minimum, the list refuses it, while the
    validation of the schema ([validate_count_against_cardinality]) accepts it. *)
Theorem mandatory_many_refused (name : string) (min_count : Z) :
  0 < min_count → vl_init (R := nat) [] name min_count 0 = Err (ValidationError "max_count must be greater than min_count").
Proof. intros Hm. unfold vl_init. by rewrite (proj2 (Z.ltb_lt 0 min_count) Hm). Qed.
