(* ===== verification/DeleteValidator.v ===== *)
(** * Deletion of nodes

    [backend/infrahub/core/node/delete_validator.py]: which nodes are deleted together
    with some nodes (cascading relationships), and which ones forbid the deletion
    (mandatory relationships).

    The rows of [RelationshipGetByIdentifierQuery] are a parameter.  The order in
    which [set.pop] takes the elements of a set is the instance of [SetOrder]. *)

From stdpp Require Import prelude strings relations.
From S2P Require Import Prelude PyString PyDict Constants SchemaDefs NodeSchemaOps.

(** ** The index of the relationships *)

Module DeleteRelationshipType.
Inductive DeleteRelationshipType := CASCADE_DELETE | DEPENDENT_NODE.
#[export] Instance DeleteRelationshipType_eq_dec : EqDecision DeleteRelationshipType.
Proof. solve_decision. Defined.
End DeleteRelationshipType.
Export (hints) DeleteRelationshipType.
Abbreviation DeleteRelationshipType := DeleteRelationshipType.DeleteRelationshipType.

(** Kind, type of relationship, identifier: the kind of the peer. *)
Abbreviation DependencyGraph := (list (string * list (DeleteRelationshipType * list (string * string)))).
Abbreviation Schemas := (list (string * MainSchema)).

Record FullRelationshipIdentifier := mkFullIdentifier {
  fi_identifier : string;
  fi_source_kind : string;
  fi_destination_kind : string;
}.

Record RelationshipPeersData := mkPeersData {
  pd_id : string;
  pd_identifier : string;
  pd_source_id : string;
  pd_source_kind : string;
  pd_destination_id : string;
  pd_destination_kind : string;
}.

(** [RelationshipPeersData.reversed] *)
Definition reversed (p : RelationshipPeersData) : RelationshipPeersData :=
  mkPeersData (pd_id p) (pd_identifier p) (pd_destination_id p) (pd_destination_kind p)
    (pd_source_id p) (pd_source_kind p).

Section delete_validator.
Context `{SetOrder}.
Context (_all_schemas_map : Schemas).

Definition _add_to_dependency_graph (kind : string) (relationship_type : DeleteRelationshipType)
    (relationship_identifier peer_kind : string) (g : DependencyGraph) : DependencyGraph :=
  let types := default [] (dict_get g kind) in
  let rels := default [] (dict_get types relationship_type) in
  dict_set g kind
    (dict_set types relationship_type (dict_set rels relationship_identifier peer_kind)).

Definition cascading (rel : RelationshipSchema) : bool :=
  bool_decide (r_on_delete rel = Some RelationshipDeleteBehavior.CASCADE).

Definition index_cascading_relationship (kind_to_check : string) (acc : list string * DependencyGraph)
    (rel : RelationshipSchema) : result (list string * DependencyGraph) :=
  let '(kinds_to_check, g) := acc in
  if cascading rel then
    relationship_identifier ← get_identifier rel;
    let g := _add_to_dependency_graph kind_to_check DeleteRelationshipType.CASCADE_DELETE
               relationship_identifier (r_peer rel) g in
    Ok (if dict_mem g (r_peer rel) then kinds_to_check else set_add (r_peer rel) kinds_to_check, g)
  else Ok acc.

(** The [while] loop; every iteration takes a kind out of the set, and a kind with
    cascading relationships is put back in it only before its first iteration. *)
Fixpoint cascading_loop (fuel : nat) (kinds_to_check : list string) (g : DependencyGraph) :
    result DependencyGraph :=
  match fuel, set_list kinds_to_check with
  | S fuel, kind_to_check :: kinds_to_check =>
      node_schema ← require (KeyError kind_to_check) (dict_get _all_schemas_map kind_to_check);
      '(kinds_to_check, g) ← foldM (index_cascading_relationship kind_to_check) (kinds_to_check, g)
                               (n_relationships node_schema);
      cascading_loop fuel kinds_to_check g
  | _, _ => Ok g
  end.

Definition relationships_count : nat :=
  sum_list_with (λ ks, length (n_relationships ks.2)) _all_schemas_map.

Definition _index_cascading_deletes (start_schemas : list MainSchema) (g : DependencyGraph) :
    result DependencyGraph :=
  let kinds_to_check := py_set (kind <$> start_schemas) in
  cascading_loop (length kinds_to_check * S relationships_count + relationships_count) kinds_to_check g.

Definition dependent (start_schema_kinds : list string) (rel : RelationshipSchema) : bool :=
  negb (r_optional rel) && bool_decide (r_peer rel ∈ start_schema_kinds).

Definition index_dependent_relationship (start_schema_kinds : list string) (node_kind : string)
    (g : DependencyGraph) (rel : RelationshipSchema) : result DependencyGraph :=
  if dependent start_schema_kinds rel then
    relationship_identifier ← get_identifier rel;
    Ok (_add_to_dependency_graph (r_peer rel) DeleteRelationshipType.DEPENDENT_NODE
          relationship_identifier node_kind g)
  else Ok g.

Definition _index_dependent_schema (start_schemas : list MainSchema) (g : DependencyGraph) :
    result DependencyGraph :=
  let start_schema_kinds := kind <$> start_schemas in
  foldM (λ g node_schema,
      foldM (index_dependent_relationship start_schema_kinds (kind node_schema)) g (n_relationships node_schema))
    g (dict_values _all_schemas_map).

(** [NodeDeleteIndex.index] *)
Definition index (start_schemas : list MainSchema) (g : DependencyGraph) : result DependencyGraph :=
  g ← _index_cascading_deletes start_schemas g;
  _index_dependent_schema start_schemas g.

Definition get_relationship_identifiers (g : DependencyGraph) : list FullRelationshipIdentifier :=
  '(node_kind, relationship_type_details) ← g;
  relationship_map ← dict_values relationship_type_details;
  '(relationship_identifier, peer_kind) ← relationship_map;
  [mkFullIdentifier relationship_identifier node_kind peer_kind].

Definition get_relationship_types (g : DependencyGraph) (src_kind relationship_identifier : string) :
    list DeleteRelationshipType :=
  let types := default [] (dict_get g src_kind) in
  filter (λ t, dict_mem (default [] (dict_get types t)) relationship_identifier = true) (dict_keys types).

(** ** The analysis of the dependencies *)

(** [_build_peer_data_map] *)
Definition add_peer_data (g : DependencyGraph) (m : list (string * list RelationshipPeersData))
    (peer_data : RelationshipPeersData) : list (string * list RelationshipPeersData) :=
  let m := dict_append m (pd_source_id peer_data) peer_data in
  match get_relationship_types g (pd_destination_kind peer_data) (pd_identifier peer_data) with
  | [] => m
  | _ :: _ => dict_append m (pd_destination_id peer_data) (reversed peer_data)
  end.
Definition _build_peer_data_map (g : DependencyGraph) (peers_datas : list RelationshipPeersData) :
    list (string * list RelationshipPeersData) :=
  foldl (add_peer_data g) [] peers_datas.

(** The state of the loop: the ids to check, to delete, and the dependent nodes. *)
Record Analysis := mkAnalysis {
  node_ids_to_check : list string;
  node_ids_to_delete : list string;
  dependent_node_details_map : list (string * list RelationshipPeersData);
}.

Definition has_type (t : DeleteRelationshipType) (g : DependencyGraph) (p : RelationshipPeersData) : bool :=
  bool_decide (t ∈ get_relationship_types g (pd_source_kind p) (pd_identifier p)).

Definition analyze_peer (g : DependencyGraph) (a : Analysis) (peer_data : RelationshipPeersData) : Analysis :=
  let peer_id := pd_destination_id peer_data in
  mkAnalysis
    (if has_type DeleteRelationshipType.CASCADE_DELETE g peer_data
        && negb (bool_decide (peer_id ∈ node_ids_to_delete a))
     then set_add peer_id (node_ids_to_check a) else node_ids_to_check a)
    (node_ids_to_delete a)
    (if has_type DeleteRelationshipType.DEPENDENT_NODE g peer_data
     then dict_append (dependent_node_details_map a) peer_id peer_data
     else dependent_node_details_map a).

(** The [while] loop; every iteration moves an id to [node_ids_to_delete]. *)
Fixpoint analysis_loop (fuel : nat) (g : DependencyGraph)
    (peer_data_by_source_id : list (string * list RelationshipPeersData)) (a : Analysis) : Analysis :=
  match fuel, set_list (node_ids_to_check a) with
  | S fuel, node_id :: rest =>
      let a := mkAnalysis rest (set_add node_id (node_ids_to_delete a)) (dependent_node_details_map a) in
      analysis_loop fuel g peer_data_by_source_id
        (foldl (analyze_peer g) a (default [] (dict_get peer_data_by_source_id node_id)))
  | _, _ => a
  end.

(** The path and the message of the error of one dependent node. *)
Definition peer_error (peers_data : RelationshipPeersData) : result (string * string) :=
  let peer_kind := pd_destination_kind peers_data in
  peer_schema ← require (KeyError peer_kind) (dict_get _all_schemas_map peer_kind);
  rel ← require (ValueError ("Unable to find the relationship " +:+ pd_identifier peers_data))
          (get_relationship_by_identifier peer_schema (pd_identifier peers_data));
  Ok (peer_kind +:+ "." +:+ r_name rel,
      "Cannot delete " +:+ pd_source_kind peers_data +:+ " '" +:+ pd_source_id peers_data +:+ "'."
      +:+ " It is linked to mandatory relationship " +:+ r_name rel +:+ " on node " +:+ peer_kind
      +:+ " '" +:+ pd_destination_id peers_data +:+ "'").

(** [_build_validation_error]: the last message of each path. *)
Definition _build_validation_error (missing_delete_peers_data : list RelationshipPeersData) : result exn :=
  errors ← mapM peer_error missing_delete_peers_data;
  Ok (ValidationError (py_join ", " ((λ lm, lm.2 +:+ " at " +:+ lm.1) <$> dict_of_list errors))).

Section query.
(** The rows of the query for the identifiers. *)
Context (get_peers : list FullRelationshipIdentifier → list RelationshipPeersData).

Definition analyze (g : DependencyGraph) (start_ids : list string) : Analysis :=
  let peer_data_by_source_id := _build_peer_data_map g (get_peers (get_relationship_identifiers g)) in
  let ids := py_set start_ids in
  analysis_loop (length ids + 2 * length (get_peers (get_relationship_identifiers g))) g peer_data_by_source_id
    (mkAnalysis ids [] []).

Definition _analyze_delete_dependencies (g : DependencyGraph) (start_ids : list string) : result (list string) :=
  match get_relationship_identifiers g with
  | [] => Ok (py_set start_ids)
  | _ :: _ =>
      let a := analyze g start_ids in
      match set_diff (dict_keys (dependent_node_details_map a)) (node_ids_to_delete a) with
      | [] => Ok (node_ids_to_delete a)
      | _ :: _ =>
          e ← _build_validation_error (concat (dict_values (dependent_node_details_map a)));
          Err e
      end
  end.

(** [get_ids_to_delete]: the nodes are given by their id and their schema; the index
    of the validator is returned as well. *)
Definition get_ids_to_delete (nodes : list (string * MainSchema)) (g : DependencyGraph) :
    result (list string * DependencyGraph) :=
  g ← index nodes.*2 g;
  ids ← _analyze_delete_dependencies g nodes.*1;
  Ok (ids, g).
End query.

(** ** Lemmas: the index *)

Lemma types_spec g k i t :
  t ∈ get_relationship_types g k i ↔
  ∃ types rels, dict_get g k = Some types ∧ dict_get types t = Some rels ∧ i ∈ dict_keys rels.
Proof.
  unfold get_relationship_types. rewrite list_elem_of_filter, dict_mem_spec. split.
  - intros [Hi Ht]. destruct (dict_get g k) as [types|]; [|by apply elem_of_nil in Ht]. cbn in *.
    destruct (dict_get types t) as [rels|] eqn:Hr; [|by apply elem_of_nil in Hi]. by exists types, rels.
  - intros (types & rels & -> & Hr & Hi). cbn. rewrite Hr. split; [done|].
    apply dict_get_is_Some. by rewrite Hr.
Qed.

Lemma types_add k0 t0 i0 p g k i t :
  t ∈ get_relationship_types (_add_to_dependency_graph k0 t0 i0 p g) k i ↔
  t ∈ get_relationship_types g k i ∨ (k = k0 ∧ t = t0 ∧ i = i0).
Proof.
  rewrite !types_spec. unfold _add_to_dependency_graph. split.
  - intros (types & rels & Hg & Ht & Hi). rewrite dict_get_set in Hg. case_decide as Hk; [|left; by exists types, rels].
    injection Hg as <-. rewrite dict_get_set in Ht. subst k. case_decide as Htt.
    + injection Ht as <-. apply elem_of_dict_keys_set in Hi as [->|Hi]; [by right|left].
      destruct (dict_get g k0) as [types|]; cbn in *; [|by apply elem_of_nil in Hi]. subst t0.
      destruct (dict_get types t) as [rels|] eqn:Hr; [|by apply elem_of_nil in Hi]. by exists types, rels.
    + left. destruct (dict_get g k0) as [types|]; [|done]. by exists types, rels.
  - intros [(types & rels & Hg & Ht & Hi)|(-> & -> & ->)].
    + rewrite dict_get_set. case_decide as Hk; [|by exists types, rels]. subst k0. rewrite Hg. cbn.
      destruct (decide (t0 = t)) as [->|Htt]; eexists _, _; (split; [done|]).
      * rewrite dict_get_set_eq, Ht. split; [done|]. apply elem_of_dict_keys_set. by right.
      * by rewrite dict_get_set_ne.
    + eexists _, _. rewrite dict_get_set_eq. split; [done|]. rewrite dict_get_set_eq. split; [done|].
      apply elem_of_dict_keys_set. by left.
Qed.

Lemma keys_add k0 t0 i0 p g k :
  k ∈ dict_keys (_add_to_dependency_graph k0 t0 i0 p g) ↔ k = k0 ∨ k ∈ dict_keys g.
Proof. apply elem_of_dict_keys_set. Qed.

Lemma length_set_add (y : string) l : length (set_add y l) ≤ S (length l).
Proof. unfold set_add. case_decide; rewrite ?length_app; cbn; lia. Qed.

(** The relationships of a kind that cascade, with their identifier. *)
Definition has_cascade (k i peer : string) : Prop :=
  ∃ s rel, dict_get _all_schemas_map k = Some s ∧ rel ∈ n_relationships s ∧ cascading rel = true ∧
    get_identifier rel = Ok i ∧ r_peer rel = peer.

Lemma index_cascading_relationship_eq k kinds g rel i :
  get_identifier rel = Ok i →
  index_cascading_relationship k (kinds, g) rel =
  Ok (if cascading rel then
        let g := _add_to_dependency_graph k DeleteRelationshipType.CASCADE_DELETE i (r_peer rel) g in
        (if dict_mem g (r_peer rel) then kinds else set_add (r_peer rel) kinds, g)
      else (kinds, g)).
Proof. intros Hi. unfold index_cascading_relationship. rewrite Hi. by destruct (cascading rel). Qed.

(** One kind: what the loop over its relationships does. *)
Lemma cascading_relationships_spec k rels kinds g :
  (∀ rel, rel ∈ rels → ∃ i, get_identifier rel = Ok i) → NoDup kinds →
  ∃ kinds' g', foldM (index_cascading_relationship k) (kinds, g) rels = Ok (kinds', g') ∧ NoDup kinds' ∧
    length kinds' ≤ length kinds + length (filter (λ rel, cascading rel = true) rels) ∧
    (∀ x, x ∈ kinds' ↔ x ∈ kinds ∨ (x ≠ k ∧ x ∉ dict_keys g ∧
       ∃ rel, rel ∈ rels ∧ cascading rel = true ∧ r_peer rel = x)) ∧
    (∀ x, x ∈ dict_keys g' ↔ x ∈ dict_keys g ∨ (x = k ∧ ∃ rel, rel ∈ rels ∧ cascading rel = true)) ∧
    (∀ k' i t, t ∈ get_relationship_types g' k' i ↔ t ∈ get_relationship_types g k' i ∨
       (k' = k ∧ t = DeleteRelationshipType.CASCADE_DELETE ∧
        ∃ rel, rel ∈ rels ∧ cascading rel = true ∧ get_identifier rel = Ok i)).
Proof.
  revert kinds g. induction rels as [|rel rels IH]; intros kinds g Hid Hnd.
  { exists kinds, g. split; [done|]. split; [done|]. split; [cbn; lia|]. setoid_rewrite elem_of_nil.
    split_and!; naive_solver. }
  destruct (Hid rel) as [i Hi]; [left|]. cbn [foldM]. rewrite (index_cascading_relationship_eq _ _ _ _ _ Hi).
  destruct (cascading rel) eqn:Hc; cbn zeta; cbn [mbind result_bind].
  - set (g1 := _add_to_dependency_graph k _ i (r_peer rel) g).
    set (kinds1 := if dict_mem g1 (r_peer rel) then kinds else set_add (r_peer rel) kinds).
    assert (∀ x, x ∈ kinds1 ↔ x ∈ kinds ∨ (x = r_peer rel ∧ x ≠ k ∧ x ∉ dict_keys g)) as Hk1.
    { intros x. unfold kinds1. destruct (dict_mem g1 (r_peer rel)) eqn:Hm.
      - apply dict_mem_spec, keys_add in Hm. naive_solver.
      - assert (r_peer rel ∉ dict_keys g1) as Hn by (rewrite <-dict_mem_spec; by rewrite Hm).
        unfold g1 in Hn. rewrite keys_add in Hn. rewrite elem_of_set_add. naive_solver. }
    destruct (IH kinds1 g1) as (kinds' & g' & Hf & Hnd' & Hlen & HK & HG & HT).
    { intros r Hr. apply Hid. by right. }
    { unfold kinds1. destruct (dict_mem _ _); [done|by apply NoDup_set_add]. }
    exists kinds', g'. split; [exact Hf|]. split; [done|]. rewrite filter_cons, decide_True by done. cbn [length].
    split. { unfold kinds1 in Hlen. pose proof (length_set_add (r_peer rel) kinds).
             destruct (dict_mem _ _); lia. }
    split_and!.
    + intros x. rewrite HK, Hk1. unfold g1. rewrite keys_add.
      rewrite (ex_elem_cons (λ r, cascading r = true ∧ r_peer r = x)), Hc. clear. intuition congruence.
    + intros x. rewrite HG. unfold g1. rewrite keys_add.
      rewrite (ex_elem_cons (λ r, cascading r = true)), Hc. clear. intuition congruence.
    + intros k' i' t. rewrite HT. unfold g1. rewrite types_add.
      rewrite (ex_elem_cons (λ r, cascading r = true ∧ get_identifier r = Ok i')), Hc, Hi.
      clear. intuition congruence.
  - destruct (IH kinds g) as (kinds' & g' & Hf & Hnd' & Hlen & HK & HG & HT).
    { intros r Hr. apply Hid. by right. } { done. }
    exists kinds', g'. split; [exact Hf|]. split; [done|]. rewrite filter_cons, decide_False by congruence.
    split; [lia|]. split_and!.
    + intros x. rewrite HK, (ex_elem_cons (λ r, cascading r = true ∧ r_peer r = x)), Hc.
      clear. intuition congruence.
    + intros x. rewrite HG, (ex_elem_cons (λ r, cascading r = true)), Hc. clear. intuition congruence.
    + intros k' i' t. rewrite HT, (ex_elem_cons (λ r, cascading r = true ∧ get_identifier r = Ok i')), Hc.
      clear. intuition congruence.
Qed.

(** A kind cascades to another through one of its relationships. *)
Definition cascades (a b : string) : Prop := ∃ i, has_cascade a i b.

(** The relationships of the kinds that are not in the graph yet. *)
Definition pending (g : DependencyGraph) : nat :=
  sum_list_with (λ ks, if decide (ks.1 ∈ dict_keys g) then 0 else length (n_relationships ks.2)) _all_schemas_map.

Lemma sum_list_with_le {A} (f f' : A → nat) l :
  (∀ x, x ∈ l → f' x ≤ f x) → sum_list_with f' l ≤ sum_list_with f l.
Proof.
  induction l as [|x l IH]; intros Hle; cbn; [done|].
  pose proof (Hle x ltac:(left)). assert (sum_list_with f' l ≤ sum_list_with f l); [|lia].
  apply IH. intros y Hy. apply Hle. by right.
Qed.
Lemma sum_list_with_drop {A} (f f' : A → nat) l x n :
  x ∈ l → (∀ y, y ∈ l → f' y ≤ f y) → f' x + n ≤ f x → sum_list_with f' l + n ≤ sum_list_with f l.
Proof.
  intros Hx Hle Hn. induction l as [|y l IH]; [by apply elem_of_nil in Hx|]. cbn.
  apply elem_of_cons in Hx as [->|Hx].
  - assert (sum_list_with f' l ≤ sum_list_with f l); [|lia].
    apply sum_list_with_le. intros z Hz. apply Hle. by right.
  - pose proof (Hle y ltac:(left)). assert (sum_list_with f' l + n ≤ sum_list_with f l); [|lia].
    apply IH; [done|]. intros z Hz. apply Hle. by right.
Qed.

Lemma pending_drop g g' k s n :
  dict_get _all_schemas_map k = Some s → k ∉ dict_keys g → n ≤ length (n_relationships s) →
  (∀ x, x ∈ dict_keys g' ↔ x ∈ dict_keys g ∨ (x = k ∧ 0 < n)) → pending g' + n ≤ pending g.
Proof.
  intros Hk Hn Hlen Hg. unfold pending. destruct n as [|n].
  { rewrite Nat.add_0_r. apply sum_list_with_le. intros y _. repeat case_decide; try lia.
    naive_solver. }
  apply (sum_list_with_drop _ _ _ (k, s)); [by apply dict_get_Some_in| |].
  - intros y _. repeat case_decide; try lia. naive_solver.
  - cbn. rewrite decide_True by (apply Hg; right; split; [done|lia]). by rewrite decide_False.
Qed.

Section index_spec.
Context (Hid : ∀ k s rel, dict_get _all_schemas_map k = Some s → rel ∈ n_relationships s →
  ∃ i, get_identifier rel = Ok i).
Context (Hpeer : ∀ a b, cascades a b → is_Some (dict_get _all_schemas_map b)).

(** The graph holds the cascading relationships of its kinds. *)
Definition cascade_graph (g : DependencyGraph) : Prop :=
  ∀ k i t, t ∈ get_relationship_types g k i ↔
    t = DeleteRelationshipType.CASCADE_DELETE ∧ k ∈ dict_keys g ∧ ∃ p, has_cascade k i p.

(** A kind with cascading relationships is in the graph. *)
Definition indexed_kind (g : DependencyGraph) (k : string) : Prop :=
  ∀ p, cascades k p → k ∈ dict_keys g.

Lemma cascades_relationship k s p :
  dict_get _all_schemas_map k = Some s →
  cascades k p ↔ ∃ rel, rel ∈ n_relationships s ∧ cascading rel = true ∧ r_peer rel = p.
Proof.
  intros Hs. split.
  - intros (i & s' & rel & Hs' & Hr & Hc & _ & Hp). rewrite Hs in Hs'. injection Hs' as <-. by exists rel.
  - intros (rel & Hr & Hc & Hp). destruct (Hid k s rel Hs Hr) as [i Hi]. by exists i, s, rel.
Qed.

(** An iteration of the loop. *)
Lemma index_one_kind k s rest g :
  dict_get _all_schemas_map k = Some s → NoDup rest → k ∉ dict_keys g → cascade_graph g →
  ∃ kinds g', foldM (index_cascading_relationship k) (rest, g) (n_relationships s) = Ok (kinds, g') ∧
    NoDup kinds ∧ cascade_graph g' ∧ length kinds + pending g' ≤ length rest + pending g ∧
    (∀ x, x ∈ kinds ↔ x ∈ rest ∨ (x ≠ k ∧ x ∉ dict_keys g ∧ cascades k x)) ∧
    (∀ x, x ∈ dict_keys g' ↔ x ∈ dict_keys g ∨ (x = k ∧ ∃ p, cascades k p)).
Proof.
  intros Hs Hnd Hkg Hg.
  destruct (cascading_relationships_spec k (n_relationships s) rest g) as (kinds & g' & Hf & Hnd' & Hlen & HK & HG & HT);
    [intros rel; by apply (Hid k)|done|]. exists kinds, g'.
  set (n := length (filter (λ rel, cascading rel = true) (n_relationships s))) in *.
  assert (∀ x, x ∈ dict_keys g' ↔ x ∈ dict_keys g ∨ (x = k ∧ ∃ p, cascades k p)) as HG'.
  { intros x. rewrite HG. setoid_rewrite (cascades_relationship k s _ Hs). naive_solver. }
  split_and!; [done|done| | |intros x; by rewrite HK, (cascades_relationship k s _ Hs)|done].
  - intros k' i t. rewrite HT, (Hg k' i t), HG'. split.
    + intros [(-> & Hk' & Hp)|(-> & -> & rel & Hr & Hc & Hi)]; [by split_and!; [|left|]|].
      assert (has_cascade k i (r_peer rel)) as Hp by by exists s, rel.
      split; [done|]. split; [right; split; [done|by exists (r_peer rel), i]|by exists (r_peer rel)].
    + intros (-> & [Hk'|[-> _]] & p & s' & rel & Hs' & Hr & Hc & Hi & Hp).
      * left. split_and!; [done|done|]. by exists p, s', rel.
      * right. rewrite Hs in Hs'. injection Hs' as <-. split_and!; [done|done|]. by exists rel.
  - assert (pending g' + n ≤ pending g); [|lia]. apply (pending_drop g g' k s n); [done|done|apply length_filter|].
    intros x. rewrite HG. unfold n. by rewrite length_filter_pos.
Qed.

Lemma cascading_loop_spec fuel kinds g :
  NoDup kinds → (∀ k, k ∈ kinds → k ∉ dict_keys g ∧ is_Some (dict_get _all_schemas_map k)) →
  cascade_graph g → length kinds + pending g ≤ fuel →
  ∃ g', cascading_loop fuel kinds g = Ok g' ∧ cascade_graph g' ∧
    (∀ k, k ∈ dict_keys g → k ∈ dict_keys g') ∧
    (∀ k, k ∈ kinds → indexed_kind g' k) ∧
    (∀ k, k ∈ dict_keys g' → k ∈ dict_keys g ∨ ∃ k0, k0 ∈ kinds ∧ rtc cascades k0 k) ∧
    (∀ k p, k ∈ dict_keys g' → k ∉ dict_keys g → cascades k p → indexed_kind g' p).
Proof.
  revert kinds g. induction fuel as [|fuel IH]; intros kinds g Hnd Hk Hg Hfuel; cbn [cascading_loop].
  { destruct kinds; [|cbn in Hfuel; lia]. exists g. split_and!; try done; [by intros ? ?%elem_of_nil|by left]. }
  pose proof (set_list_perm kinds) as Hperm. destruct (set_list kinds) as [|k rest].
  { apply Permutation_nil in Hperm as ->. exists g. split_and!; try done; [by intros ? ?%elem_of_nil|by left]. }
  assert (∀ x, x ∈ kinds ↔ x = k ∨ x ∈ rest) as Hin by (intros x; by rewrite <-Hperm, elem_of_cons).
  pose proof (Permutation_length Hperm) as Hlp. cbn in Hlp.
  rewrite <-Hperm in Hnd. apply NoDup_cons in Hnd as [Hkr Hnd].
  destruct (Hk k) as [Hkg [s Hs]]; [apply Hin; by left|]. rewrite Hs. cbn [require mbind result_bind].
  destruct (index_one_kind k s rest g Hs Hnd Hkg Hg) as (kinds1 & g1 & -> & Hnd1 & Hg1 & Hlen & HK & HG).
  cbn [mbind result_bind]. destruct (IH kinds1 g1) as (g' & Hl & Hg' & Hsub & Hdone & Hfrom & Hclosed); [done| |done|lia|].
  { intros x [Hx|(Hne & Hx & Hc)]%HK.
    - destruct (Hk x) as [Hxg Hxs]; [apply Hin; by right|]. split; [|done].
      rewrite HG. by intros [?|[-> _]].
    - split; [rewrite HG; by intros [?|[? _]]|by apply (Hpeer k)]. }
  assert (indexed_kind g' k) as Hk1 by (intros p Hp; apply Hsub, HG; right; eauto).
  exists g'. split_and!; [done|done| | | |].
  - intros x Hx. apply Hsub, HG. by left.
  - intros x [->|Hx]%Hin; [done|]. apply Hdone, HK. by left.
  - intros x [Hx|(k0 & [Hk0|(_ & _ & Hc)]%HK & Hrtc)]%Hfrom.
    + apply HG in Hx as [Hx|[-> _]]; [by left|right]. exists k. split; [apply Hin; by left|done].
    + right. exists k0. split; [apply Hin; by right|done].
    + right. exists k. split; [apply Hin; by left|]. by eapply rtc_l.
  - intros x p Hx Hxg Hc. destruct (decide (x ∈ dict_keys g1)) as [Hx1|Hx1]; [|by apply (Hclosed x)].
    apply HG in Hx1 as [?|[-> _]]; [done|].
    destruct (decide (p = k)) as [->|Hpk]; [done|].
    destruct (decide (p ∈ dict_keys g)) as [Hpg|Hpg]; [intros q _; apply Hsub, HG; by left|].
    apply Hdone, HK. by right.
Qed.

(** The kinds reached from the start kinds by cascading. *)
Definition reached (start_schemas : list MainSchema) (k : string) : Prop :=
  ∃ s, s ∈ kind <$> start_schemas ∧ rtc cascades s k.

Lemma index_cascading_spec start_schemas :
  (∀ s, s ∈ start_schemas → is_Some (dict_get _all_schemas_map (kind s))) →
  ∃ g, _index_cascading_deletes start_schemas [] = Ok g ∧
    ∀ k i t, t ∈ get_relationship_types g k i ↔
      t = DeleteRelationshipType.CASCADE_DELETE ∧ reached start_schemas k ∧ ∃ p, has_cascade k i p.
Proof.
  intros Hstart. unfold _index_cascading_deletes. set (kinds := py_set (kind <$> start_schemas)).
  destruct (cascading_loop_spec (length kinds * S relationships_count + relationships_count) kinds [])
    as (g & Hl & Hg & _ & Hdone & Hfrom & Hclosed).
  - apply NoDup_py_set.
  - intros k. unfold kinds. rewrite elem_of_py_set. intros (s & -> & Hs)%list_elem_of_fmap.
    split; [apply not_elem_of_nil|by apply Hstart].
  - intros k i t. split; [intros (? & ? & ? & _)%types_spec; done|]. by intros (_ & ?%elem_of_nil & _).
  - assert (pending [] ≤ relationships_count); [|lia]. apply sum_list_with_le. intros x _.
    case_decide; lia.
  - exists g. split; [done|]. intros k i t. rewrite (Hg k i t).
    assert (∀ s k, rtc cascades s k → indexed_kind g s → indexed_kind g k) as Hind.
    { induction 1 as [|x y z Hxy _ IH]; [done|]. intros Hx. apply IH, (Hclosed x); [by apply (Hx y)| |done].
      apply not_elem_of_nil. }
    split; intros (-> & Hk & p & Hp); (split; [done|]); (split; [|by exists p]).
    + apply Hfrom in Hk as [?%elem_of_nil|(k0 & Hk0 & Hr)]; [done|]. exists k0. split; [|done].
      by apply elem_of_py_set.
    + destruct Hk as (s & Hs & Hr). apply (Hind s k Hr) with p; [|by exists i].
      apply Hdone. by apply elem_of_py_set.
Qed.

(** The mandatory relationships to one of some kinds. *)
Definition has_mandatory (start_schema_kinds : list string) (schemas : list MainSchema) (k i : string) : Prop :=
  ∃ s, s ∈ schemas ∧ ∃ rel, rel ∈ n_relationships s ∧ dependent start_schema_kinds rel = true ∧
    r_peer rel = k ∧ get_identifier rel = Ok i.

Lemma index_dependent_relationships_spec kinds node_kind rels g :
  (∀ rel, rel ∈ rels → ∃ i, get_identifier rel = Ok i) →
  ∃ g', foldM (index_dependent_relationship kinds node_kind) g rels = Ok g' ∧
    ∀ k i t, t ∈ get_relationship_types g' k i ↔ t ∈ get_relationship_types g k i ∨
      (t = DeleteRelationshipType.DEPENDENT_NODE ∧
       ∃ rel, rel ∈ rels ∧ dependent kinds rel = true ∧ r_peer rel = k ∧ get_identifier rel = Ok i).
Proof.
  revert g. induction rels as [|rel rels IH]; intros g Hi.
  { exists g. split; [done|]. setoid_rewrite elem_of_nil. naive_solver. }
  destruct (Hi rel) as [i0 Hi0]; [left|]. cbn [foldM].
  assert (index_dependent_relationship kinds node_kind g rel =
    Ok (if dependent kinds rel
        then _add_to_dependency_graph (r_peer rel) DeleteRelationshipType.DEPENDENT_NODE i0 node_kind g else g)) as ->.
  { unfold index_dependent_relationship. rewrite Hi0. by destruct (dependent kinds rel). }
  cbn [mbind result_bind]. edestruct IH as (g' & Hf & HT); [intros r Hr; apply Hi; by right|].
  exists g'. split; [exact Hf|]. intros k i t. rewrite HT.
  rewrite (ex_elem_cons (λ r, dependent kinds r = true ∧ r_peer r = k ∧ get_identifier r = Ok i)), Hi0.
  destruct (dependent kinds rel); [rewrite types_add|]; clear; intuition congruence.
Qed.

Lemma index_dependent_spec kinds schemas g :
  (∀ s rel, s ∈ schemas → rel ∈ n_relationships s → ∃ i, get_identifier rel = Ok i) →
  ∃ g', foldM (λ g node_schema,
          foldM (index_dependent_relationship kinds (kind node_schema)) g (n_relationships node_schema))
          g schemas = Ok g' ∧
    ∀ k i t, t ∈ get_relationship_types g' k i ↔ t ∈ get_relationship_types g k i ∨
      (t = DeleteRelationshipType.DEPENDENT_NODE ∧ has_mandatory kinds schemas k i).
Proof.
  unfold has_mandatory. revert g. induction schemas as [|s schemas IH]; intros g Hi.
  { exists g. split; [done|]. setoid_rewrite elem_of_nil. naive_solver. }
  cbn [foldM]. destruct (index_dependent_relationships_spec kinds (kind s) (n_relationships s) g) as (g1 & -> & H1).
  { intros rel Hr. apply (Hi s); [left|done]. }
  cbn [mbind result_bind]. destruct (IH g1) as (g' & Hf & HT); [intros s' rel Hs'; apply Hi; by right|].
  exists g'. split; [exact Hf|]. intros k i t. rewrite HT, H1.
  rewrite (ex_elem_cons (λ s, ∃ rel, rel ∈ n_relationships s ∧ dependent kinds rel = true ∧
    r_peer rel = k ∧ get_identifier rel = Ok i)). clear. intuition congruence.
Qed.
End index_spec.

(** ** Lemmas: the analysis *)

Section analysis_spec.
Context (g : DependencyGraph) (peer_map : list (string * list RelationshipPeersData)).

Definition peers_of (id : string) : list RelationshipPeersData := default [] (dict_get peer_map id).

(** A row of the node [x] with a peer to delete, or a peer that forbids the
    deletion. *)
Definition cascade_to (x y : string) : Prop := ∃ p, p ∈ peers_of x ∧
  has_type DeleteRelationshipType.CASCADE_DELETE g p = true ∧ pd_destination_id p = y.
Definition dependent_of (x y : string) : Prop := ∃ p, p ∈ peers_of x ∧
  has_type DeleteRelationshipType.DEPENDENT_NODE g p = true ∧ pd_destination_id p = y.

Lemma analyze_peers_spec ps a :
  let a' := foldl (analyze_peer g) a ps in
  node_ids_to_delete a' = node_ids_to_delete a ∧
  (NoDup (node_ids_to_check a) → NoDup (node_ids_to_check a')) ∧
  (∀ y, y ∈ node_ids_to_check a' ↔ y ∈ node_ids_to_check a ∨ (y ∉ node_ids_to_delete a ∧
     ∃ p, p ∈ ps ∧ has_type DeleteRelationshipType.CASCADE_DELETE g p = true ∧ pd_destination_id p = y)) ∧
  (∀ y, y ∈ dict_keys (dependent_node_details_map a') ↔ y ∈ dict_keys (dependent_node_details_map a) ∨
     ∃ p, p ∈ ps ∧ has_type DeleteRelationshipType.DEPENDENT_NODE g p = true ∧ pd_destination_id p = y).
Proof.
  cbn zeta. revert a. induction ps as [|p ps IH]; intros a; cbn [foldl].
  { setoid_rewrite elem_of_nil. split_and!; naive_solver. }
  destruct (IH (analyze_peer g a p)) as (H1 & H2 & H3 & H4). split_and!.
  - by rewrite H1.
  - intros Hnd. apply H2. unfold analyze_peer; cbn. destruct (_ && _); [by apply NoDup_set_add|done].
  - intros y. rewrite H3.
    rewrite (ex_elem_cons (λ p, has_type DeleteRelationshipType.CASCADE_DELETE g p = true ∧ pd_destination_id p = y)).
    unfold analyze_peer; cbn. destruct (has_type DeleteRelationshipType.CASCADE_DELETE g p); cbn.
    + case_bool_decide as Hd; cbn; [|rewrite elem_of_set_add]; clear -Hd; intuition congruence.
    + clear. intuition congruence.
  - intros y. rewrite H4.
    rewrite (ex_elem_cons (λ p, has_type DeleteRelationshipType.DEPENDENT_NODE g p = true ∧ pd_destination_id p = y)).
    unfold analyze_peer; cbn. destruct (has_type DeleteRelationshipType.DEPENDENT_NODE g p); cbn.
    + unfold dict_append. rewrite elem_of_dict_keys_set. clear. intuition congruence.
    + clear. intuition congruence.
Qed.

(** The state of the loop that started from the ids [starts]: the ids to check and
    to delete are among [ids]. *)
Record analysis_ok (starts ids : list string) (a : Analysis) : Prop := {
  an_nodup : NoDup (node_ids_to_check a ++ node_ids_to_delete a);
  an_within : ∀ x, x ∈ node_ids_to_check a ++ node_ids_to_delete a → x ∈ ids;
  an_starts : ∀ x, x ∈ starts → x ∈ node_ids_to_check a ++ node_ids_to_delete a;
  an_reached : ∀ x, x ∈ node_ids_to_check a ++ node_ids_to_delete a → ∃ s, s ∈ starts ∧ rtc cascade_to s x;
  an_closed : ∀ x y, x ∈ node_ids_to_delete a → cascade_to x y → y ∈ node_ids_to_check a ++ node_ids_to_delete a;
  an_dependent : ∀ y, y ∈ dict_keys (dependent_node_details_map a) ↔
    ∃ x, x ∈ node_ids_to_delete a ∧ dependent_of x y;
}.

Lemma analysis_loop_spec starts ids fuel a :
  (∀ x y, x ∈ ids → cascade_to x y → y ∈ ids) →
  analysis_ok starts ids a → length ids ≤ fuel + length (node_ids_to_delete a) →
  let a' := analysis_loop fuel g peer_map a in
  analysis_ok starts ids a' ∧ node_ids_to_check a' = [].
Proof.
  intros Hids. cbn zeta. revert a. induction fuel as [|fuel IH]; intros a Ha Hfuel; cbn [analysis_loop].
  { split; [done|]. destruct Ha as [Hnd Hw _ _ _ _].
    assert (length (node_ids_to_check a ++ node_ids_to_delete a) ≤ length ids) as Hle.
    { apply submseteq_length, NoDup_submseteq; [done|]. intros x. apply Hw. }
    rewrite length_app in Hle. destruct (node_ids_to_check a); [done|cbn in *; lia]. }
  pose proof (set_list_perm (node_ids_to_check a)) as Hperm.
  destruct (set_list (node_ids_to_check a)) as [|x rest]; [by apply Permutation_nil in Hperm|].
  destruct Ha as [Hnd Hw Hs Hr Hc Hd]. set (dels := node_ids_to_delete a) in *.
  rewrite <-Hperm in Hnd. setoid_rewrite <-Hperm in Hw. setoid_rewrite <-Hperm in Hs.
  setoid_rewrite <-Hperm in Hr. setoid_rewrite <-Hperm in Hc. clear Hperm.
  cbn [app] in Hnd. apply NoDup_cons in Hnd as [Hx Hnd]. rewrite elem_of_app in Hx.
  assert (set_add x dels = dels ++ [x]) as Hadd by (unfold set_add; rewrite decide_False; tauto).
  rewrite Hadd. fold (peers_of x).
  destruct (analyze_peers_spec (peers_of x) (mkAnalysis rest (dels ++ [x]) (dependent_node_details_map a)))
    as (H1 & H2 & H3 & H4). cbn [node_ids_to_check node_ids_to_delete dependent_node_details_map] in *.
  set (a1 := foldl _ _ _) in *.
  assert (∀ y, y ∈ node_ids_to_check a1 ++ node_ids_to_delete a1 ↔ y ∈ (x :: rest) ++ dels ∨ cascade_to x y) as Hall.
  { intros y. rewrite H1, !elem_of_app, H3, !elem_of_app, !elem_of_cons, !elem_of_nil.
    change (∃ p, p ∈ peers_of x ∧ _) with (cascade_to x y).
    destruct (decide (y ∈ dels)), (decide (y = x)); tauto. }
  apply IH; [|rewrite H1, length_app; cbn; lia]. split.
  - rewrite H1. apply NoDup_app in Hnd as (Hn1 & Hn2 & Hn3). apply NoDup_app. split; [by apply H2|]. split.
    + intros y [Hy|[Hy _]]%H3; [|done]. rewrite elem_of_app, list_elem_of_singleton. specialize (Hn2 y Hy).
      intros [?| ->]; tauto.
    + apply NoDup_app. split; [done|]. split; [|apply NoDup_singleton]. intros y Hy ->%list_elem_of_singleton. tauto.
  - intros y [Hy|Hy]%Hall; [by apply Hw|]. apply (Hids x); [|done]. apply Hw. by left.
  - intros y Hy. apply Hall. left. by apply Hs.
  - intros y [Hy|Hy]%Hall; [by apply Hr|]. destruct (Hr x) as (s & Hs' & Hrtc); [by left|].
    exists s. split; [done|]. by eapply rtc_r.
  - intros y z Hy Hz. apply Hall. rewrite H1 in Hy.
    apply elem_of_app in Hy as [Hy| ->%list_elem_of_singleton]; [left; by apply (Hc y)|by right].
  - intros y. rewrite H4, Hd, H1. change (∃ p, p ∈ peers_of x ∧ _) with (dependent_of x y). split.
    + intros [(z & Hz & ?)|?]; [exists z|exists x]; rewrite elem_of_app, list_elem_of_singleton; auto.
    + intros (z & [Hz|Hz%list_elem_of_singleton]%elem_of_app & ?); [left; by exists z|right; by subst].
Qed.
End analysis_spec.

(** A row of the query, read in either direction. *)
Definition row_of (rows : list RelationshipPeersData) (p : RelationshipPeersData) : Prop :=
  p ∈ rows ∨ ∃ q, q ∈ rows ∧ p = reversed q.
(** A row of the node [x] whose relationship has a type, with its peer [y]. *)
Definition linked (t : DeleteRelationshipType) (g : DependencyGraph) (rows : list RelationshipPeersData)
    (x y : string) : Prop :=
  ∃ p, row_of rows p ∧ pd_source_id p = x ∧ has_type t g p = true ∧ pd_destination_id p = y.

Lemma dict_get_append {V} (d : list (string * list V)) k v k' x :
  x ∈ default [] (dict_get (dict_append d k v) k') ↔ x ∈ default [] (dict_get d k') ∨ (k = k' ∧ x = v).
Proof.
  unfold dict_append. rewrite dict_get_set. case_decide as Hk; cbn.
  - subst. rewrite elem_of_app, list_elem_of_singleton. tauto.
  - tauto.
Qed.

Lemma peer_map_spec g rows m x p :
  p ∈ default [] (dict_get (foldl (add_peer_data g) m rows) x) ↔ p ∈ default [] (dict_get m x) ∨
  ∃ q, q ∈ rows ∧ (p = q ∧ pd_source_id q = x ∨
    p = reversed q ∧ pd_destination_id q = x ∧
    get_relationship_types g (pd_destination_kind q) (pd_identifier q) ≠ []).
Proof.
  revert m. induction rows as [|q rows IH]; intros m; cbn [foldl].
  { setoid_rewrite elem_of_nil. naive_solver. }
  rewrite IH, (ex_elem_cons (λ q, p = q ∧ pd_source_id q = x ∨ p = reversed q ∧ pd_destination_id q = x ∧
    get_relationship_types g (pd_destination_kind q) (pd_identifier q) ≠ [])).
  unfold add_peer_data. destruct (get_relationship_types g (pd_destination_kind q) (pd_identifier q)).
  - rewrite dict_get_append. clear. intuition congruence.
  - rewrite !dict_get_append. clear. intuition congruence.
Qed.

Lemma linked_spec t g rows x y :
  linked t g rows x y ↔ ∃ p, p ∈ peers_of (_build_peer_data_map g rows) x ∧ has_type t g p = true ∧
    pd_destination_id p = y.
Proof.
  unfold linked, peers_of, _build_peer_data_map. setoid_rewrite peer_map_spec.
  setoid_rewrite elem_of_nil. split.
  - intros (p & [Hp|(q & Hq & ->)] & Hx & Ht & Hy).
    + exists p. split; [right; exists p; auto|done].
    + exists (reversed q). split; [|done]. right. exists q. split; [done|]. right. split_and!; [done|done|].
      unfold has_type in Ht. apply bool_decide_eq_true in Ht. cbn in Ht. intros Hn. rewrite Hn in Ht.
      by apply elem_of_nil in Ht.
  - intros (p & [[]|(q & Hq & [(-> & Hx)|(-> & Hx & _)])] & Ht & Hy).
    + exists q. split_and!; [by left|done..].
    + exists (reversed q). split_and!; [right; by exists q|done..].
Qed.

Lemma no_identifiers g k i : get_relationship_identifiers g = [] → get_relationship_types g k i = [].
Proof.
  intros Hg. destruct (get_relationship_types g k i) as [|t ts] eqn:Ht; [done|].
  assert (t ∈ get_relationship_types g k i) as Hin by (rewrite Ht; left).
  apply types_spec in Hin as (types & rels & Hk & Hr & Hi).
  assert (∃ p, (i, p) ∈ rels) as [p Hp].
  { apply dict_get_is_Some in Hi as [p Hp]. exists p. by apply dict_get_Some_in. }
  assert (mkFullIdentifier i k p ∈ get_relationship_identifiers g) as Hin; [|rewrite Hg in Hin; by apply elem_of_nil in Hin].
  unfold get_relationship_identifiers. apply list_elem_of_bind. exists (k, types). split; [|by apply dict_get_Some_in].
  apply list_elem_of_bind. exists rels. split; [|apply list_elem_of_fmap; exists (t, rels); split; [done|by apply dict_get_Some_in]].
  apply list_elem_of_bind. exists (i, p). split; [by left|done].
Qed.

Lemma analyze_spec get_peers g start_ids :
  let rows := get_peers (get_relationship_identifiers g) in
  let a := analyze get_peers g start_ids in
  NoDup (node_ids_to_delete a) ∧
  (∀ x, x ∈ node_ids_to_delete a ↔
     ∃ s, s ∈ start_ids ∧ rtc (linked DeleteRelationshipType.CASCADE_DELETE g rows) s x) ∧
  (∀ y, y ∈ dict_keys (dependent_node_details_map a) ↔
     ∃ x, x ∈ node_ids_to_delete a ∧ linked DeleteRelationshipType.DEPENDENT_NODE g rows x y).
Proof.
  cbn zeta. unfold analyze. set (rows := get_peers _). set (m := _build_peer_data_map g rows).
  set (ids := py_set start_ids ++ (pd_source_id <$> rows) ++ (pd_destination_id <$> rows)).
  assert (∀ x y, cascade_to g m x y ↔ linked DeleteRelationshipType.CASCADE_DELETE g rows x y) as Hcas
    by (intros x y; by rewrite linked_spec).
  assert (∀ x y, dependent_of g m x y ↔ linked DeleteRelationshipType.DEPENDENT_NODE g rows x y) as Hdep
    by (intros x y; by rewrite linked_spec).
  destruct (analysis_loop_spec g m start_ids ids (length (py_set start_ids) + 2 * length rows)
    (mkAnalysis (py_set start_ids) [] [])) as [Ha Hnil].
  - intros x y _ (p & Hp & _ & _ & <-)%Hcas. unfold ids. rewrite !elem_of_app. right.
    destruct Hp as [Hp|(q & Hq & ->)].
    + right. by apply list_elem_of_fmap_2.
    + left. apply list_elem_of_fmap. by exists q.
  - split; cbn; rewrite ?app_nil_r.
    + apply NoDup_py_set.
    + intros x Hx. apply elem_of_app. by left.
    + intros x Hx. by apply elem_of_py_set.
    + intros x Hx. exists x. split; [by apply elem_of_py_set|done].
    + by intros x y ?%elem_of_nil.
    + intros y. split; [by intros ?%elem_of_nil|]. by intros (x & ?%elem_of_nil & _).
  - unfold ids. rewrite !length_app, !length_fmap. cbn. lia.
  - set (a' := analysis_loop _ _ _ _) in *. destruct Ha as [Hnd _ Hs Hr Hc Hd]. rewrite Hnil in Hnd, Hs, Hr, Hc.
    cbn [app] in *. split; [done|]. split.
    + intros x. split.
      * intros (s & Hs' & Hrtc)%Hr. exists s. split; [done|]. eapply rtc_subrel; [|done]. intros ? ?. apply Hcas.
      * intros (s & Hs' & Hrtc). apply Hs in Hs'. clear -Hrtc Hs' Hc Hcas.
        induction Hrtc as [|y z w Hyz _ IH]; [done|]. apply IH. by apply (Hc y), Hcas.
    + intros y. rewrite Hd. by setoid_rewrite Hdep.
Qed.
End delete_validator.

(** ** Theorems *)

(** The index of a deletion, when every relationship has an identifier and the
    kinds that a deletion can reach are known: it is always built, a relationship
    counts as cascading exactly for the kinds reached from those of the nodes through
    cascading relationships, and as the dependence of a node exactly when it is a
    mandatory relationship to a kind of the nodes. *)
Theorem delete_index_spec `{SetOrder} (schemas : Schemas) (start_schemas : list MainSchema) :
  (∀ k s rel, dict_get schemas k = Some s → rel ∈ n_relationships s → ∃ i, get_identifier rel = Ok i) →
  NoDup (dict_keys schemas) →
  (∀ a b, cascades schemas a b → is_Some (dict_get schemas b)) →
  (∀ s, s ∈ start_schemas → is_Some (dict_get schemas (kind s))) →
  ∃ g, index schemas start_schemas [] = Ok g ∧ ∀ k i t, t ∈ get_relationship_types g k i ↔
    match t with
    | DeleteRelationshipType.CASCADE_DELETE =>
        reached schemas start_schemas k ∧ ∃ peer, has_cascade schemas k i peer
    | DeleteRelationshipType.DEPENDENT_NODE =>
        has_mandatory (kind <$> start_schemas) (dict_values schemas) k i
    end.
Proof.
  intros Hid Hnd Hpeer Hstart. destruct (index_cascading_spec schemas Hid Hpeer start_schemas Hstart) as (g1 & H1 & HT1).
  destruct (index_dependent_spec (kind <$> start_schemas) (dict_values schemas) g1) as (g & H2 & HT2).
  { intros s rel Hs Hr. apply list_elem_of_fmap in Hs as ([k s'] & -> & Hks). apply (Hid k s' rel); [|done].
    by apply dict_get_in. }
  exists g. unfold index, _index_dependent_schema. rewrite H1. cbn [mbind result_bind]. split; [exact H2|].
  intros k i t. rewrite HT2, HT1. destruct t; clear; intuition congruence.
Qed.

(** The analysis for an index: the ids deleted are those reached by the rows that cascade,
    and it is refused when a row of a dependence leads to another node. *)
Lemma delete_analysis_spec `{SetOrder} (schemas : Schemas)
    (get_peers : list FullRelationshipIdentifier → list RelationshipPeersData)
    (g : DependencyGraph) (start_ids : list string) :
  let rows := get_peers (get_relationship_identifiers g) in
  let deleted x := ∃ s, s ∈ start_ids ∧ rtc (linked DeleteRelationshipType.CASCADE_DELETE g rows) s x in
  match _analyze_delete_dependencies schemas get_peers g start_ids with
  | Ok ids => NoDup ids ∧ (∀ x, x ∈ ids ↔ deleted x) ∧
      ∀ x y, deleted x → linked DeleteRelationshipType.DEPENDENT_NODE g rows x y → deleted y
  | Err _ => ∃ x y, deleted x ∧ linked DeleteRelationshipType.DEPENDENT_NODE g rows x y ∧ ¬ deleted y
  end.
Proof.
  cbn zeta. pose proof (analyze_spec get_peers g start_ids) as (Hnd & Hdel & Hdep). cbn zeta in *.
  unfold _analyze_delete_dependencies. set (rows := get_peers _) in *.
  destruct (get_relationship_identifiers g) as [|fi fis] eqn:Hids.
  { assert (∀ t x y, ¬ linked t g rows x y) as Hno.
    { intros t x y (p & _ & _ & Ht & _). unfold has_type in Ht. rewrite no_identifiers in Ht by done. done. }
    split; [apply NoDup_py_set|]. split; [|by intros x y _ ?%Hno]. intros x. rewrite elem_of_py_set. split.
    - intros Hx. by exists x.
    - intros (s & Hs & Hr). destruct Hr as [|? ? ? ?%Hno]; done. }
  set (a := analyze get_peers g start_ids) in *.
  destruct (set_diff (dict_keys (dependent_node_details_map a)) (node_ids_to_delete a)) as [|y ys] eqn:Hmiss.
  - split; [done|]. split; [done|]. setoid_rewrite <-Hdel. intros x y Hx Hl. destruct (decide (y ∈ node_ids_to_delete a)) as [|Hn]; [done|].
    assert (y ∈ set_diff (dict_keys (dependent_node_details_map a)) (node_ids_to_delete a)) as Hy.
    { apply elem_of_set_diff. split; [|done]. apply Hdep. by exists x. }
    rewrite Hmiss in Hy. by apply elem_of_nil in Hy.
  - assert (∃ x y, x ∈ node_ids_to_delete a ∧ linked DeleteRelationshipType.DEPENDENT_NODE g rows x y ∧
      y ∉ node_ids_to_delete a) as Hex.
    { assert (y ∈ set_diff (dict_keys (dependent_node_details_map a)) (node_ids_to_delete a)) as Hy by (rewrite Hmiss; left).
      apply elem_of_set_diff in Hy as [(x & Hx & Hl)%Hdep Hn]. by exists x, y. }
    setoid_rewrite Hdel in Hex. destruct (_build_validation_error _ _); exact Hex.
Qed.

(** A row read in either direction leads from [x] to [y] through a relationship of which
    [R] holds for the kind of [x] and the identifier. *)
Definition row_link (rows : list RelationshipPeersData) (R : string → string → Prop) (x y : string) : Prop :=
  ∃ p, row_of rows p ∧ pd_source_id p = x ∧ pd_destination_id p = y ∧ R (pd_source_kind p) (pd_identifier p).

(** In the schemas: the kind [k] has a relationship of identifier [i] that cascades, and can
    be reached from the kinds [starts] by such relationships. *)
Definition cascade_rel (schemas : Schemas) (k i : string) (peer : string) : Prop :=
  ∃ s rel, dict_get schemas k = Some s ∧ rel ∈ n_relationships s ∧ get_identifier rel = Ok i ∧ r_peer rel = peer ∧
    r_on_delete rel = Some RelationshipDeleteBehavior.CASCADE.
Definition cascades_from (schemas : Schemas) (starts : list string) (k i : string) : Prop :=
  (∃ s, s ∈ starts ∧ rtc (λ a b, ∃ i, cascade_rel schemas a i b) s k) ∧ ∃ peer, cascade_rel schemas k i peer.
(** Some kind has a mandatory relationship of identifier [i] to the kind [k], which is one of
    [starts]. *)
Definition mandatory_to (schemas : Schemas) (starts : list string) (k i : string) : Prop :=
  k ∈ starts ∧ ∃ name s rel, dict_get schemas name = Some s ∧ rel ∈ n_relationships s ∧ get_identifier rel = Ok i ∧
    r_peer rel = k ∧ r_optional rel = false.

Lemma has_cascade_iff schemas k i peer : has_cascade schemas k i peer ↔ cascade_rel schemas k i peer.
Proof.
  unfold has_cascade, cascade_rel, cascading. setoid_rewrite bool_decide_eq_true.
  split; intros (s & rel & ?); exists s, rel; intuition.
Qed.
Lemma cascades_from_iff schemas (start_schemas : list MainSchema) k i :
  (reached schemas start_schemas k ∧ ∃ peer, has_cascade schemas k i peer) ↔ cascades_from schemas (kind <$> start_schemas) k i.
Proof.
  unfold reached, cascades_from. setoid_rewrite has_cascade_iff.
  assert (∀ a b, rtc (cascades schemas) a b ↔ rtc (λ a b, ∃ i, cascade_rel schemas a i b) a b) as Hr.
  { intros a b. split; intros H; (eapply rtc_subrel; [|exact H]); intros ?? (j & Hj); exists j; by apply has_cascade_iff. }
  by setoid_rewrite Hr.
Qed.
Lemma mandatory_to_iff schemas starts k i : NoDup (dict_keys schemas) →
  has_mandatory starts (dict_values schemas) k i ↔ mandatory_to schemas starts k i.
Proof.
  intros Hnd. unfold has_mandatory, mandatory_to, dependent. split.
  - intros (s & Hs & rel & Hr & Hd & Hp & Hi). apply andb_true_iff in Hd as [Ho%negb_true_iff Hk%bool_decide_eq_true].
    apply list_elem_of_fmap in Hs as ([name s'] & -> & Hin). split; [by subst|]. exists name, s', rel.
    split_and!; [by apply dict_get_in|done..].
  - intros (Hk & name & s & rel & Hs & Hr & Hi & Hp & Ho). exists s. split.
    { apply list_elem_of_fmap. exists (name, s). split; [done|]. by apply dict_get_Some_in. }
    exists rel. split_and!; [done| |done..]. rewrite Ho, bool_decide_eq_true_2 by by subst. done.
Qed.

(** C7: The deletion of some nodes, when every relationship of the schemas has an identifier
    and the kinds of the nodes and of the peers that cascade are known: among the rows that
    the query returns for the identifiers of the index, read in either direction, those of
    cascading relationships, of kinds that are reached from the kinds of the nodes by such
    relationships, lead from the nodes to exactly the nodes that are deleted with them, each
    once.  It is refused exactly when such a row, of a mandatory relationship to one of the
    kinds of the given nodes, links a deleted node with one that is not deleted. *)
Theorem delete_closure_spec `{SetOrder} (schemas : Schemas)
    (get_peers : list FullRelationshipIdentifier → list RelationshipPeersData) (nodes : list (string * MainSchema)) :
  (∀ k s rel, dict_get schemas k = Some s → rel ∈ n_relationships s → ∃ i, get_identifier rel = Ok i) →
  NoDup (dict_keys schemas) →
  (∀ k i peer, cascade_rel schemas k i peer → is_Some (dict_get schemas peer)) →
  (∀ s, s ∈ nodes.*2 → is_Some (dict_get schemas (kind s))) →
  ∃ g, index schemas nodes.*2 [] = Ok g ∧
    let rows := get_peers (get_relationship_identifiers g) in
    let kinds := kind <$> nodes.*2 in
    let deleted x := ∃ s, s ∈ nodes.*1 ∧ rtc (row_link rows (cascades_from schemas kinds)) s x in
    match get_ids_to_delete schemas get_peers nodes [] with
    | Ok (ids, _) => NoDup ids ∧ (∀ x, x ∈ ids ↔ deleted x) ∧
        ∀ x y, deleted x → row_link rows (mandatory_to schemas kinds) x y → deleted y
    | Err _ => ∃ x y, deleted x ∧ row_link rows (mandatory_to schemas kinds) x y ∧ ¬ deleted y
    end.
Proof.
  intros Hid Hnd Hpeer Hstart.
  assert (∀ a b, cascades schemas a b → is_Some (dict_get schemas b)) as Hpeer'.
  { intros a b (i & Hc). by apply (Hpeer a i), has_cascade_iff. }
  destruct (delete_index_spec schemas nodes.*2 Hid Hnd Hpeer' Hstart) as (g & Hg & HT). exists g. split; [done|]. cbn zeta.
  pose proof (delete_analysis_spec schemas get_peers g nodes.*1) as Hspec. cbn zeta in Hspec.
  set (rows := get_peers _) in *.
  assert (∀ x y, linked DeleteRelationshipType.CASCADE_DELETE g rows x y ↔ row_link rows (cascades_from schemas (kind <$> nodes.*2)) x y) as Hc.
  { intros x y. unfold linked, row_link, has_type. setoid_rewrite bool_decide_eq_true. setoid_rewrite HT.
    setoid_rewrite cascades_from_iff. split; intros (p & ?); exists p; tauto. }
  assert (∀ x y, linked DeleteRelationshipType.DEPENDENT_NODE g rows x y ↔ row_link rows (mandatory_to schemas (kind <$> nodes.*2)) x y) as Hm.
  { intros x y. unfold linked, row_link, has_type. setoid_rewrite bool_decide_eq_true. setoid_rewrite HT.
    setoid_rewrite (mandatory_to_iff schemas _ _ _ Hnd). split; intros (p & ?); exists p; tauto. }
  assert (∀ a b, rtc (linked DeleteRelationshipType.CASCADE_DELETE g rows) a b ↔ rtc (row_link rows (cascades_from schemas (kind <$> nodes.*2))) a b) as Hr.
  { intros a b. split; intros H0; (eapply rtc_subrel; [|exact H0]); intros ??; by apply Hc. }
  unfold get_ids_to_delete. rewrite Hg. cbn [mbind result_bind].
  destruct (_analyze_delete_dependencies _ _ _ _); cbn [mbind result_bind]; cbv beta in Hspec; setoid_rewrite Hr in Hspec; setoid_rewrite Hm in Hspec; exact Hspec.
Qed.

(** ** Examples *)

(** The rows that match the identifiers, in [RelationshipGetByIdentifierQuery]. *)
Definition matching_rows (rows : list RelationshipPeersData) (ids : list FullRelationshipIdentifier) :
    list RelationshipPeersData :=
  filter (λ p, existsb (λ fi, bool_decide (fi_source_kind fi = pd_source_kind p)
                  && bool_decide (fi_identifier fi = pd_identifier p)
                  && bool_decide (fi_destination_kind fi = pd_destination_kind p)) ids = true) rows.

Definition example_relationship (name peer identifier : string) (optional : bool)
    (on_delete : RelationshipDeleteBehavior) : RelationshipSchema :=
  (new_relationship name peer) <| r_identifier := Some identifier |> <| r_optional := optional |>
    <| r_on_delete := Some on_delete |>.
Definition example_node (name : string) (relationships : list RelationshipSchema) : MainSchema :=
  (new_node name "Test") <| n_relationships := relationships |>.

Definition device_node : MainSchema :=
  example_node "Device" [example_relationship "interfaces" "TestInterface" "device__interface" true
                           RelationshipDeleteBehavior.CASCADE].
Definition interface_node : MainSchema := example_node "Interface" [].
Definition circuit_node : MainSchema :=
  example_node "Circuit" [example_relationship "endpoint" "TestInterface" "circuit__interface" false
                            RelationshipDeleteBehavior.NO_ACTION].
Definition site_node : MainSchema := example_node "Site" [].
Definition located_node (name : string) : MainSchema :=
  example_node name [example_relationship "site" "TestSite" "located__site" false
                       RelationshipDeleteBehavior.NO_ACTION].
Definition example_schemas : Schemas :=
  (λ s, (kind s, s)) <$> [device_node; interface_node; circuit_node; site_node; located_node "Router"; located_node "Switch"].

Definition example_rows : list RelationshipPeersData :=
  [mkPeersData "1" "device__interface" "device1" "TestDevice" "interface1" "TestInterface";
   mkPeersData "2" "circuit__interface" "circuit1" "TestCircuit" "interface1" "TestInterface";
   mkPeersData "2" "circuit__interface" "interface1" "TestInterface" "circuit1" "TestCircuit";
   mkPeersData "3" "located__site" "router1" "TestRouter" "site1" "TestSite";
   mkPeersData "3" "located__site" "site1" "TestSite" "router1" "TestRouter"].

Lemma delete_index_spec_witness :
  ∃ g, @index insertion_order example_schemas [device_node] [] = Ok g ∧
    (DeleteRelationshipType.CASCADE_DELETE ∈ get_relationship_types g "TestDevice" "device__interface" ↔
     reached example_schemas [device_node] "TestDevice" ∧
     ∃ peer, has_cascade example_schemas "TestDevice" "device__interface" peer).
Proof.
  destruct (@delete_index_spec insertion_order example_schemas [device_node]) as (g & Hg & HT).
  - intros k s rel Hs Hr. apply dict_get_Some_in in Hs.
    assert (Forall (λ ks, Forall (λ rel, is_ok (get_identifier rel) = true) (n_relationships ks.2)) example_schemas) as Hall.
    { repeat (constructor; [vm_compute; repeat constructor|]); constructor. }
    rewrite Forall_forall in Hall. specialize (Hall _ Hs). rewrite Forall_forall in Hall. specialize (Hall _ Hr).
    destruct (get_identifier rel) as [i|e]; [exists i; reflexivity|discriminate Hall].
  - apply (bool_decide_unpack _). vm_compute. exact I.
  - intros a b (i & s & rel & Hs & Hr & Hc & _ & <-). apply dict_get_Some_in in Hs.
    assert (Forall (λ ks, Forall (λ rel, r_peer rel ∈ dict_keys example_schemas) (n_relationships ks.2)) example_schemas) as Hall.
    { apply (bool_decide_unpack _). vm_compute. exact I. }
    rewrite Forall_forall in Hall. specialize (Hall _ Hs). rewrite Forall_forall in Hall. specialize (Hall _ Hr).
    apply dict_get_is_Some. exact Hall.
  - intros s Hs. apply list_elem_of_singleton in Hs as ->. vm_compute. eexists. reflexivity.
  - exists g. split; [exact Hg|]. exact (HT "TestDevice" "device__interface" DeleteRelationshipType.CASCADE_DELETE).
Defined.

Lemma delete_closure_spec_witness :
  let deletion := @get_ids_to_delete insertion_order example_schemas (matching_rows example_rows) in
  (∃ g, deletion [("device1", device_node)] [] = Ok (["device1"; "interface1"], g)) ∧
  is_ok (deletion [("interface1", interface_node)] []) = false ∧
  ∃ g, @index insertion_order example_schemas [interface_node] [] = Ok g ∧
    ∃ x y, row_link (matching_rows example_rows (get_relationship_identifiers g)) (mandatory_to example_schemas ["TestInterface"]) x y.
Proof.
  intros deletion. split; [eexists; vm_compute; reflexivity|]. split; [vm_compute; reflexivity|].
  destruct (@delete_closure_spec insertion_order example_schemas (matching_rows example_rows) [("interface1", interface_node)])
    as (g & Hg & H).
  - intros k s rel Hs Hr. apply dict_get_Some_in in Hs.
    assert (Forall (λ ks, Forall (λ rel, is_ok (get_identifier rel) = true) (n_relationships ks.2)) example_schemas) as Hall.
    { repeat (constructor; [vm_compute; repeat constructor|]); constructor. }
    rewrite Forall_forall in Hall. specialize (Hall _ Hs). rewrite Forall_forall in Hall. specialize (Hall _ Hr).
    destruct (get_identifier rel) as [i|e]; [exists i; reflexivity|discriminate Hall].
  - apply (bool_decide_unpack _). vm_compute. exact I.
  - intros k i peer (s & rel & Hs & Hr & _ & <- & _). apply dict_get_Some_in in Hs.
    assert (Forall (λ ks, Forall (λ rel, r_peer rel ∈ dict_keys example_schemas) (n_relationships ks.2)) example_schemas) as Hall.
    { apply (bool_decide_unpack _). vm_compute. exact I. }
    rewrite Forall_forall in Hall. specialize (Hall _ Hs). rewrite Forall_forall in Hall. specialize (Hall _ Hr).
    apply dict_get_is_Some. exact Hall.
  - intros s Hs. apply list_elem_of_singleton in Hs as ->. vm_compute. eexists. reflexivity.
  - exists g. split; [exact Hg|]. unfold deletion in *.
    destruct (get_ids_to_delete _ _ _ _) as [[ids g']|e] eqn:Hres; [vm_compute in Hres; discriminate Hres|].
    destruct H as (x & y & _ & Hl & _). exists x, y. exact Hl.
Defined.

(** Two deletions that are allowed although a node keeps a mandatory relationship
    to a deleted one.  A device cascades to its interface, to which a circuit has a
    mandatory relationship: only the kinds of the given nodes are searched for
    mandatory relationships.  And a router has a mandatory relationship to a site,
    with the identifier that a switch has too: the index keeps the last kind of an
    identifier, so the row of the router is not queried. *)
Theorem mandatory_dependents_missed :
  let deletion nodes := fst <$> @get_ids_to_delete insertion_order example_schemas (matching_rows example_rows) nodes [] in
  deletion [("device1", device_node)] = Ok ["device1"; "interface1"] ∧
  (∃ p, p ∈ example_rows ∧ pd_source_id p = "circuit1" ∧ pd_destination_id p = "interface1") ∧
  (∃ rel, rel ∈ n_relationships circuit_node ∧ r_optional rel = false ∧ r_peer rel = kind interface_node) ∧
  deletion [("site1", site_node)] = Ok ["site1"] ∧
  (∃ p, p ∈ example_rows ∧ pd_source_id p = "router1" ∧ pd_destination_id p = "site1") ∧
  (∃ rel, rel ∈ n_relationships (located_node "Router") ∧ r_optional rel = false ∧ r_peer rel = kind site_node).
Proof.
  cbn zeta. split; [vm_compute; reflexivity|]. split; [eexists; split; [right; left|done]|].
  split; [eexists; split; [left|done]|]. split; [vm_compute; reflexivity|].
  split; [eexists; split; [do 3 right; left|done]|]. eexists. split; [left|done].
Qed.
