(* ===== verification/Lock.v ===== *)
(** * Locks

    The locks of [backend/infrahub/lock.py]: the registry of each worker, local
    locks ([asyncio.Lock]) and distributed locks kept as keys of the cache
    ([NATSLock]), and the reservation of several locks together
    ([InfrahubMultiLock]), as an interleaving of tasks of several workers.

    The blocks [async with] of a task are nested: a block acquires its locks one after the
    other, runs its body, where it can wait for a lock to be available or enter other
    blocks, and releases its locks in the opposite order.  A single lock is a block of one
    lock.  A wait ([await] of a lock that is reserved) is the absence of a step. *)

From stdpp Require Import prelude strings relations.
From S2P Require Import Prelude PyString PyDict.

(** ** Lock objects and their registry *)

Definition LOCAL_SCHEMA_LOCK : string := "local.schema".
Definition GLOBAL_INIT_LOCK : string := "global.init".
Definition GLOBAL_SCHEMA_LOCK : string := "global.schema".
Definition GLOBAL_GRAPH_LOCK : string := "global.graph".

Record InfrahubLock := mkInfrahubLock {
  lock_name : string;
  use_local : bool;
  in_multi : bool;
}.

(** [InfrahubLock.__init__] *)
Definition new_lock (name : string) (connection : bool) (local : option bool) (in_multi : bool) : InfrahubLock :=
  mkInfrahubLock name
    (if negb connection || (bool_decide (local = None) && startswith name "local.") then true
     else default false local)
    in_multi.

(** The connection is present when the cache is enabled and the registry is not
    [local_only]. *)
Record LockRegistry := mkLockRegistry {
  connection : bool;
  locks : list (string * InfrahubLock);
}.

Definition _generate_name (name : string) (namespace : option string) (local : option bool) : string :=
  match namespace, local with
  | None, None => name
  | _, _ =>
      (match local with Some true => "local." | Some false => "global." | None => "" end)
      +:+ (match namespace with Some ns => ns +:+ "." | None => "" end) +:+ name
  end.

(** [InfrahubLockRegistry.get] *)
Definition get_lock (name : string) (namespace : option string) (local : option bool) (in_multi : bool)
    (r : LockRegistry) : InfrahubLock * LockRegistry :=
  let lock_name := _generate_name name namespace local in
  match dict_get (locks r) lock_name with
  | Some lock => (lock, r)
  | None =>
      let lock := new_lock lock_name (connection r) None in_multi in
      (lock, mkLockRegistry (connection r) (dict_set (locks r) lock_name lock))
  end.

Definition local_schema_lock : list string := [LOCAL_SCHEMA_LOCK].
Definition initialization : list string := [GLOBAL_INIT_LOCK].
Definition global_schema_lock : list string := [LOCAL_SCHEMA_LOCK; GLOBAL_SCHEMA_LOCK].
Definition global_graph_lock : list string := [LOCAL_SCHEMA_LOCK; GLOBAL_GRAPH_LOCK; GLOBAL_SCHEMA_LOCK].

(** ** State *)

(** The registry of each worker, the local locks that are reserved (with their
    worker), and the keys of the cache. *)
Record LockState := mkLockState {
  registries : list (string * LockRegistry);
  local_locked : list (string * string);
  cache : list (string * string);
}.
#[export] Instance LockState_rebuild : Rebuild LockState := λ s,
  mkLockState (registries s) (local_locked s) (cache s).

(** [NATSLock.do_acquire]: set the key when it does not exist. *)
Definition do_acquire (name token : string) (cache : list (string * string)) :
    bool * list (string * string) :=
  if dict_mem cache name then (false, cache) else (true, dict_set cache name token).

(** What the body of a task does with locks: it waits until one is available
    ([local_schema_wait]), or it enters a block. *)
Inductive activity :=
  | WaitUntilAvailable (name : string)
  | Block (names : list string) (body : list activity).

(** [registry.get_branch]: a branch that the registry of the worker does not have is read
    under the lock of the schemas of the worker. *)
Definition get_branch (in_registry : bool) : list activity :=
  if in_registry then [] else [Block local_schema_lock []].
Definition local_schema_wait : activity := WaitUntilAvailable LOCAL_SCHEMA_LOCK.

Inductive phase :=
  | Acquiring (n : nat)
  | Inside
  | Releasing (n : nat).

#[export] Instance phase_eq_dec : EqDecision phase.
Proof. solve_decision. Defined.

(** A block that was entered.  [Acquiring n]: the first [n] locks are acquired;
    [Releasing n]: the first [n] are still to be released; [frame_rest] is what is left of
    its body. *)
Record Frame := mkFrame {
  frame_locks : list string;
  frame_phase : phase;
  frame_rest : list activity;
}.
(** The blocks of a task, the innermost first (the task itself is one without lock), and
    the locks that it acquired and that no block will release. *)
Record Task := mkTask {
  worker : string;
  token : string;
  task_frames : list Frame;
  task_leaked : list string;
}.

Record LockSystem := mkLockSystem {
  lock_state : LockState;
  tasks : list Task;
}.

Section locks.
(** Whether the registry that a worker initialises has a connection. *)
Context (connected : string → bool).

(** [initialize_lock] creates the registry of a worker empty. *)
Definition registry_of (s : LockState) (w : string) : LockRegistry :=
  default (mkLockRegistry (connected w) []) (dict_get (registries s) w).

(** ** Operations *)

(** [InfrahubLock.acquire], when it does not have to wait (a lock object created by
    a call that waits is the one the next call creates, so it is left out). *)
Definition acquire (w name token : string) (s : LockState) : option LockState :=
  let '(lock, reg) := get_lock name None None false (registry_of s w) in
  let s := s <| registries := dict_set (registries s) w reg |> in
  if use_local lock then
    if decide ((w, lock_name lock) ∈ local_locked s) then None
    else Some (s <| local_locked := (w, lock_name lock) :: local_locked s |>)
  else
    let '(acquired, keys) := do_acquire (lock_name lock) token (cache s) in
    if acquired then Some (s <| cache := keys |>) else None.

(** [InfrahubLock.release]: a local lock must be reserved; the key of the cache is
    deleted whatever its token. *)
Definition release (w name : string) (s : LockState) : result LockState :=
  let '(lock, reg) := get_lock name None None false (registry_of s w) in
  let s := s <| registries := dict_set (registries s) w reg |> in
  if use_local lock then
    if decide ((w, lock_name lock) ∈ local_locked s)
    then Ok (s <| local_locked := filter (.≠ (w, lock_name lock)) (local_locked s) |>)
    else Err (RuntimeError "Lock is not acquired.")
  else Ok (s <| cache := dict_del (cache s) (lock_name lock) |>).

(** [InfrahubLockRegistry.wait_until_available], when it does not have to wait. *)
Definition wait_until_available (w name : string) (s : LockState) : option LockState :=
  let '(lock, reg) := get_lock name None None false (registry_of s w) in
  let locked := if use_local lock then bool_decide ((w, lock_name lock) ∈ local_locked s) else dict_mem (cache s) (lock_name lock) in
  if locked then None else Some (s <| registries := dict_set (registries s) w reg |>).

Definition in_phase (f : Frame) (p : phase) : Frame := mkFrame (frame_locks f) p (frame_rest f).
Definition with_rest (f : Frame) (rest : list activity) : Frame := mkFrame (frame_locks f) (frame_phase f) rest.
Definition with_frames (t : Task) (fs : list Frame) : Task := mkTask (worker t) (token t) fs (task_leaked t).
(** An exception that no block catches: [names] are not released, and nothing is left of
    the bodies of the blocks. *)
Definition unwind (t : Task) (names : list string) (fs : list Frame) : Task :=
  mkTask (worker t) (token t) ((λ f, with_rest f []) <$> fs) (names ++ task_leaked t).

(** The next step of a task, when it does not wait and is not finished. *)
Definition task_step (s : LockState) (t : Task) : option (LockState * Task) :=
  match task_frames t with
  | [] => None
  | f :: fs =>
      match frame_phase f with
      | Acquiring n =>
          match frame_locks f !! n with
          | Some name => (λ s', (s', with_frames t (in_phase f (Acquiring (S n)) :: fs))) <$> acquire (worker t) name (token t) s
          | None => Some (s, with_frames t (in_phase f Inside :: fs))
          end
      | Inside =>
          match frame_rest f with
          | [] => Some (s, with_frames t (in_phase f (Releasing (length (frame_locks f))) :: fs))
          | WaitUntilAvailable name :: rest =>
              (λ s', (s', with_frames t (with_rest f rest :: fs))) <$> wait_until_available (worker t) name s
          | Block names body :: rest => Some (s, with_frames t (mkFrame names (Acquiring 0) body :: with_rest f rest :: fs))
          end
      | Releasing 0 => Some (s, with_frames t fs)
      | Releasing (S n) =>
          name ← frame_locks f !! n;
          match release (worker t) name s with
          | Ok s' => Some (s', with_frames t (in_phase f (Releasing n) :: fs))
          | Err _ => Some (s, unwind t (take (S n) (frame_locks f)) fs)
          end
      end
  end.

(** The acquisition of a lock raises: [__aenter__] does not return, so [__aexit__] is not
    called and the locks acquired before stay; or the body raises, and [__aexit__] of its
    block is called. *)
Definition task_raises (t : Task) : option Task :=
  match task_frames t with
  | f :: fs =>
      match frame_phase f with
      | Acquiring n => (λ _, unwind t (take n (frame_locks f)) fs) <$> frame_locks f !! n
      | Inside => Some (unwind t [] (f :: fs))
      | Releasing _ => None
      end
  | [] => None
  end.

Inductive lock_step : LockSystem → LockSystem → Prop :=
  | lock_step_task s ts i t s' t' :
      ts !! i = Some t → task_step s t = Some (s', t') →
      lock_step (mkLockSystem s ts) (mkLockSystem s' (<[i := t']> ts)).

(** With acquisitions and bodies that raise. *)
Inductive failing_step : LockSystem → LockSystem → Prop :=
  | failing_step_task s s' : lock_step s s' → failing_step s s'
  | failing_step_raise s ts i t t' :
      ts !! i = Some t → task_raises t = Some t' →
      failing_step (mkLockSystem s ts) (mkLockSystem s (<[i := t']> ts)).

(** ** Specification *)

(** What a name stands for: a lock of one worker, or a lock of all. *)
Inductive lock_id :=
  | LocalLock (worker name : string)
  | RemoteLock (name : string).
#[export] Instance lock_id_eq_dec : EqDecision lock_id.
Proof. solve_decision. Defined.

Definition id_of (w name : string) : lock_id :=
  if use_local (new_lock name (connected w) None false) then LocalLock w name else RemoteLock name.
Definition id_name (id : lock_id) : string :=
  match id with LocalLock _ n => n | RemoteLock n => n end.

(** The locks a task holds, and those that are reserved. *)
Definition held_count (f : Frame) : nat :=
  match frame_phase f with
  | Acquiring n | Releasing n => n
  | Inside => length (frame_locks f)
  end.
Definition frame_names (f : Frame) : list string := take (held_count f) (frame_locks f).
Definition held_names (t : Task) : list string := concat (frame_names <$> task_frames t) ++ task_leaked t.
Definition held (t : Task) : list lock_id := id_of (worker t) <$> held_names t.
Definition reserved (s : LockState) : list lock_id :=
  ((λ wn, LocalLock wn.1 wn.2) <$> local_locked s) ++ (RemoteLock <$> dict_keys (cache s)).

(** Every task is about to run its body and nothing is reserved. *)
Definition start (w tok : string) (body : list activity) : Task := mkTask w tok [mkFrame [] Inside body] [].
Record initial (s : LockSystem) : Prop := {
  initial_state : lock_state s = mkLockState [] [] [];
  initial_tasks : ∀ t, t ∈ tasks s → ∃ w tok body, t = start w tok body;
}.

(** *** Lemmas: locks *)

(** The registries hold the objects that [get] would create. *)
Definition registry_ok (s : LockState) : Prop := ∀ w r, dict_get (registries s) w = Some r →
  connection r = connected w ∧
  ∀ name lock, dict_get (locks r) name = Some lock → lock = new_lock name (connected w) None false.

Lemma get_lock_ok s w name :
  registry_ok s →
  ∃ r, get_lock name None None false (registry_of s w) = (new_lock name (connected w) None false, r) ∧
    registry_ok (s <| registries := dict_set (registries s) w r |>).
Proof.
  intros Hs. assert (connection (registry_of s w) = connected w ∧
    ∀ n lock, dict_get (locks (registry_of s w)) n = Some lock → lock = new_lock n (connected w) None false)
    as [Hc Hl].
  { unfold registry_of. destruct (dict_get (registries s) w) as [r|] eqn:Hr; [by apply (Hs w)|done]. }
  unfold get_lock. cbn [_generate_name].
  destruct (dict_get (locks (registry_of s w)) name) as [lock|] eqn:Hlock.
  - exists (registry_of s w). split; [by rewrite (Hl _ _ Hlock)|]. intros w' r'. cbn.
    rewrite dict_get_set. case_decide; [|apply Hs]. intros [= <-]. by subst.
  - eexists. split; [by rewrite Hc|]. intros w' r'. cbn.
    rewrite dict_get_set. case_decide as Hw; [|apply Hs]. intros [= <-]. subst w'. cbn. split; [done|].
    intros n lock'. rewrite dict_get_set. case_decide; [|apply Hl]. by intros [= <-]; subst.
Qed.

Lemma elem_of_reserved s w name :
  id_of w name ∈ reserved s ↔
  if use_local (new_lock name (connected w) None false) then (w, name) ∈ local_locked s
  else name ∈ dict_keys (cache s).
Proof.
  unfold reserved, id_of. rewrite elem_of_app, !list_elem_of_fmap.
  destruct (use_local _); split.
  - intros [([w' n'] & [= -> ->] & H)|(? & ? & _)]; done.
  - intros H. left. by exists (w, name).
  - intros [([w' n'] & ? & H)|(? & [= ->] & H)]; done.
  - intros H. right. by exists name.
Qed.

(** Acquiring waits for a reserved lock, and otherwise reserves this lock only. *)
Lemma acquire_spec s w name tok :
  registry_ok s →
  match acquire w name tok s with
  | None => id_of w name ∈ reserved s
  | Some s' => registry_ok s' ∧ (id_of w name ∉ reserved s) ∧
               reserved s' ≡ₚ id_of w name :: reserved s
  end.
Proof.
  intros Hs. destruct (get_lock_ok s w name Hs) as (r & Hg & Hr). unfold acquire. rewrite Hg.
  pose proof (elem_of_reserved s w name) as He. unfold id_of in *.
  destruct (use_local _) eqn:Hl; cbn [lock_name new_lock].
  - unfold assign; cbn [local_locked]. case_decide as Hin; [by apply He|]. split; [exact Hr|].
    rewrite He. by split.
  - unfold do_acquire, assign; cbn [cache].
    destruct (dict_mem (cache s) name) eqn:Hm; [by apply He, dict_mem_spec|].
    assert (name ∉ dict_keys (cache s)) as Hin by (rewrite <-dict_mem_spec; by rewrite Hm).
    split; [exact Hr|]. split; [by rewrite He|]. unfold reserved; cbn. rewrite dict_keys_set, decide_False by done.
    rewrite fmap_app. cbn. rewrite (Permutation_app_comm (_ <$> dict_keys _)). cbn.
    by rewrite <-Permutation_middle.
Qed.

Lemma filter_ne_perm {A} `{EqDecision A} (x : A) l :
  NoDup l → x ∈ l → l ≡ₚ x :: filter (.≠ x) l.
Proof.
  intros Hl Hx. apply NoDup_Permutation; [done| |].
  - apply NoDup_cons. split; [|by apply NoDup_filter]. by rewrite list_elem_of_filter; intros [? _].
  - intros z. rewrite elem_of_cons, list_elem_of_filter. destruct (decide (z = x)); naive_solver.
Qed.

Lemma release_spec s w name :
  registry_ok s → NoDup (reserved s) → id_of w name ∈ reserved s →
  ∃ s', release w name s = Ok s' ∧ registry_ok s' ∧ reserved s ≡ₚ id_of w name :: reserved s'.
Proof.
  intros Hs Hnd Hin. destruct (get_lock_ok s w name Hs) as (r & Hg & Hr). unfold release. rewrite Hg.
  rewrite elem_of_reserved in Hin. unfold id_of. unfold reserved in Hnd. apply NoDup_app in Hnd as (H1 & _ & H2).
  destruct (use_local _) eqn:Hl; cbn [lock_name new_lock].
  - unfold assign; cbn [local_locked]. rewrite decide_True by done. eexists. split; [done|]. split; [exact Hr|].
    unfold reserved; cbn. apply NoDup_fmap_1 in H1.
    rewrite (filter_ne_perm (w, name) (local_locked s)) at 1 by done. done.
  - eexists. split; [done|]. split; [exact Hr|]. unfold reserved, assign; cbn. rewrite dict_keys_del.
    apply NoDup_fmap_1 in H2. rewrite (filter_ne_perm name (dict_keys (cache s))) at 1 by done.
    cbn. by rewrite <-Permutation_middle.
Qed.

(** *** Lemmas: the system *)

Definition frames_ok (t : Task) : Prop := Forall (λ f, held_count f ≤ length (frame_locks f)) (task_frames t).
(** Each reserved lock is held by exactly one task, once. *)
Record exclusive (s : LockSystem) : Prop := {
  ex_registry : registry_ok (lock_state s);
  ex_reserved : NoDup (reserved (lock_state s));
  ex_phase : ∀ i t, tasks s !! i = Some t → frames_ok t;
  ex_held : ∀ i t id, tasks s !! i = Some t → id ∈ held t → id ∈ reserved (lock_state s);
  ex_holder : ∀ id, id ∈ reserved (lock_state s) → ∃ i t, tasks s !! i = Some t ∧ id ∈ held t;
  ex_once : ∀ i t, tasks s !! i = Some t → NoDup (held t);
  ex_unique : ∀ i j ti tj id, tasks s !! i = Some ti → tasks s !! j = Some tj →
    id ∈ held ti → id ∈ held tj → i = j;
}.

(** What a step of a task does to the locks it holds and to those reserved. *)
Definition moves (H R H' R' : list lock_id) : Prop :=
  (H' ≡ₚ H ∧ R' = R) ∨
  (∃ id, (id ∉ R) ∧ H' ≡ₚ id :: H ∧ R' ≡ₚ id :: R) ∨
  (∃ id, H ≡ₚ id :: H' ∧ R ≡ₚ id :: R').

Lemma exclusive_move s i t s' t' :
  exclusive s → tasks s !! i = Some t → registry_ok s' → frames_ok t' →
  moves (held t) (reserved (lock_state s)) (held t') (reserved s') →
  exclusive (mkLockSystem s' (<[i := t']> (tasks s))).
Proof.
  intros [E1 E2 E3 E4 E5 E6 E7] Hi Hreg Hph Hm.
  assert (∀ j u, <[i := t']> (tasks s) !! j = Some u ↔ (j = i ∧ u = t') ∨ (j ≠ i ∧ tasks s !! j = Some u)) as Hl.
  { intros j u. rewrite list_lookup_insert_Some. apply lookup_lt_Some in Hi as ?. naive_solver. }
  assert (∀ id, id ∈ reserved s' ↔ id ∈ held t' ∨ (id ∈ reserved (lock_state s) ∧ id ∉ held t)) as Hres.
  { intros id. pose proof (E4 _ _ id Hi) as Hhr. pose proof (E6 _ _ Hi) as Hnd.
    destruct Hm as [[Hh ->]|[(id' & Hn & Hh & Hp)|(id' & Hh & Hp)]].
    - rewrite Hh. destruct (decide (id ∈ held t)); naive_solver.
    - rewrite Hp, Hh, !elem_of_cons. destruct (decide (id ∈ held t)); naive_solver.
    - rewrite Hp in E2, Hhr |- *. rewrite Hh in Hhr, Hnd |- *. apply NoDup_cons in E2 as [Hn _]. apply NoDup_cons in Hnd as [Hn' _].
      rewrite !elem_of_cons in *. destruct (decide (id ∈ held t')); naive_solver. }
  assert (∀ id, id ∈ held t' → id ∈ held t ∨ id ∉ reserved (lock_state s)) as Hnew.
  { intros id. destruct Hm as [[Hh Hr]|[(id' & Hn & Hh & Hp)|(id' & Hh & Hp)]]; rewrite Hh; [by left| |].
    - rewrite elem_of_cons. naive_solver.
    - rewrite elem_of_cons. tauto. }
  split; cbn [lock_state tasks]; [done| | | | | |].
  - destruct Hm as [[Hh Hr]|[(id' & Hn & Hh & Hp)|(id' & Hh & Hp)]]; [congruence| |].
    + rewrite Hp. by apply NoDup_cons.
    + rewrite Hp in E2. by apply NoDup_cons in E2 as [_ E2].
  - intros j u [[-> ->]|[_ Hu]]%Hl; [done|by apply (E3 j)].
  - intros j u id [[-> ->]|[Hj Hu]]%Hl Hid; apply Hres; [by left|right].
    split; [by apply (E4 j u)|]. intros Ht. by apply Hj, (E7 j i u t id).
  - intros id [Hid|[Hid Hn]]%Hres.
    + exists i, t'. rewrite Hl. auto.
    + destruct (E5 id Hid) as (j & u & Hu & Hin). exists j, u. rewrite Hl. split; [|done].
      right. split; [|done]. intros ->. congruence.
  - intros j u [[-> ->]|[_ Hu]]%Hl; [|by apply (E6 j)]. pose proof (E6 _ _ Hi) as Hnd.
    destruct Hm as [[Hh Hr]|[(id' & Hn & Hh & Hp)|(id' & Hh & Hp)]]; rewrite Hh in *; [done| |].
    + apply NoDup_cons. split; [|done]. intros Hx. by apply Hn, (E4 _ _ _ Hi).
    + by apply NoDup_cons in Hnd as [_ ?].
  - intros j k u v id [[-> ->]|[Hj Hu]]%Hl [[-> ->]|[Hk Hv]]%Hl Hi1 Hi2; [done| | |by apply (E7 j k u v id)].
    + destruct (Hnew id Hi1) as [?|Hr]; [by apply (E7 i k t v id)|]. destruct Hr. by apply (E4 k v).
    + destruct (Hnew id Hi2) as [?|Hr]; [by apply (E7 j i u t id)|]. destruct Hr. by apply (E4 j u).
Qed.

(** The steps a task still has to make. *)
Fixpoint activity_cost (a : activity) : nat :=
  match a with
  | WaitUntilAvailable _ => 1
  | Block names body => length names + sum_list_with activity_cost body + length names + 4
  end.
Definition frame_cost (f : Frame) : nat :=
  let len := length (frame_locks f) in
  match frame_phase f with
  | Acquiring n => (len - n) + sum_list_with activity_cost (frame_rest f) + len + 3
  | Inside => sum_list_with activity_cost (frame_rest f) + len + 2
  | Releasing n => n + 1
  end.
Definition task_cost (t : Task) : nat := sum_list_with frame_cost (task_frames t).

Lemma held_with_frames t fs : held (with_frames t fs) = id_of (worker t) <$> (concat (frame_names <$> fs) ++ task_leaked t).
Proof. done. Qed.
Lemma frame_names_S f n name p : frame_locks f !! n = Some name → frame_phase f = p → held_count f = n →
  ∀ f', frame_locks f' = frame_locks f → held_count f' = S n → frame_names f' ≡ₚ name :: frame_names f.
Proof.
  intros Hn _ Hc f' Hl Hc'. unfold frame_names. rewrite Hc, Hc', Hl, (take_S_r _ _ name) by done. by rewrite Permutation_app_comm.
Qed.
(** The innermost block acquires one lock more. *)
Lemma held_more t f f' fs name : task_frames t = f :: fs → frame_names f' ≡ₚ name :: frame_names f →
  held (with_frames t (f' :: fs)) ≡ₚ id_of (worker t) name :: held t.
Proof.
  intros Hf Hn. unfold held, held_names. rewrite Hf. cbn [task_frames with_frames worker task_leaked fmap list_fmap concat].
  rewrite Hn. cbn. done.
Qed.
Lemma held_same t f f' fs : task_frames t = f :: fs → frame_names f' = frame_names f → held (with_frames t (f' :: fs)) = held t.
Proof. intros Hf Hn. unfold held, held_names. rewrite Hf. cbn. by rewrite Hn. Qed.

Lemma wait_until_available_spec s w name : registry_ok s →
  match wait_until_available w name s with
  | None => id_of w name ∈ reserved s
  | Some s' => registry_ok s' ∧ (id_of w name ∉ reserved s) ∧ reserved s' = reserved s
  end.
Proof.
  intros Hs. destruct (get_lock_ok s w name Hs) as (r & Hg & Hr). unfold wait_until_available. rewrite Hg.
  pose proof (elem_of_reserved s w name) as He. unfold id_of in *.
  destruct (use_local _) eqn:Hl; cbn [lock_name new_lock].
  - case_bool_decide as Hin; [by apply He|]. split; [exact Hr|]. by rewrite He.
  - destruct (dict_mem (cache s) name) eqn:Hm; [by apply He, dict_mem_spec|].
    split; [exact Hr|]. rewrite He. split; [|done]. rewrite <-dict_mem_spec. by rewrite Hm.
Qed.

Lemma step_effect s i t s' t' :
  exclusive s → tasks s !! i = Some t → task_step (lock_state s) t = Some (s', t') →
  registry_ok s' ∧ frames_ok t' ∧ task_leaked t' = task_leaked t ∧
  task_cost t = S (task_cost t') ∧ moves (held t) (reserved (lock_state s)) (held t') (reserved s').
Proof.
  intros E Hi Hs. pose proof (ex_registry _ E) as Hreg. pose proof (ex_phase _ E _ _ Hi) as Hc.
  unfold task_step in Hs. unfold frames_ok, task_cost in *.
  destruct (task_frames t) as [|f fs] eqn:Hfs; [done|]. apply Forall_cons in Hc as [Hcf Hc]. cbn [sum_list_with].
  destruct (frame_phase f) as [n| |[|n]] eqn:Hp.
  - destruct (frame_locks f !! n) as [name|] eqn:Hn; cbn in Hs.
    + apply fmap_Some in Hs as (s1 & Ha & [= -> ->]). pose proof (acquire_spec (lock_state s) (worker t) name (token t) Hreg) as Hspec.
      rewrite Ha in Hspec. destruct Hspec as (Hr & Hnot & Hperm). apply lookup_lt_Some in Hn as Hlt.
      split_and!; [done|constructor; [cbn; lia|done]|done|cbn; unfold frame_cost; rewrite Hp; cbn; lia|].
      right; left. exists (id_of (worker t) name). split_and!; [done| |done]. apply (held_more t f); [done|].
      eapply frame_names_S; [done|done|unfold held_count; by rewrite Hp|done|done].
    + injection Hs as <- <-. apply lookup_ge_None in Hn.
      split_and!; [done|constructor; [done|done]|done|cbn; unfold frame_cost; rewrite Hp; cbn; lia|].
      left. split; [|done]. erewrite (held_same t f); [done|done|]. unfold frame_names, held_count. rewrite Hp. cbn. by rewrite !take_ge.
  - destruct (frame_rest f) as [|[name|names body] rest] eqn:Hrest.
    + injection Hs as <- <-.
      split_and!; [done|constructor; [done|done]|done|cbn; unfold frame_cost; rewrite Hp, Hrest; cbn; lia|].
      left. split; [|done]. erewrite (held_same t f); [done|done|]. unfold frame_names, held_count. by rewrite Hp.
    + cbn in Hs. apply fmap_Some in Hs as (s1 & Ha & [= -> ->]). pose proof (wait_until_available_spec (lock_state s) (worker t) name Hreg) as Hspec.
      rewrite Ha in Hspec. destruct Hspec as (Hr & _ & Hres).
      split_and!; [done|constructor; [done|done]|done|cbn; unfold frame_cost; cbn; rewrite Hp, Hrest; cbn; lia|].
      left. split; [|done]. by erewrite (held_same t f).
    + injection Hs as <- <-.
      split_and!; [done|repeat (constructor; [cbn; lia || done|]); done|done|
        cbn; unfold frame_cost; cbn; rewrite Hp, Hrest; cbn; lia|].
      left. split; [|done]. unfold held, held_names. rewrite Hfs. done.
  - injection Hs as <- <-. split_and!; [done|done|done|cbn; unfold frame_cost; rewrite Hp; lia|].
    left. split; [|done]. unfold held, held_names. rewrite Hfs. cbn. unfold frame_names at 2, held_count. by rewrite Hp.
  - unfold held_count in Hcf. rewrite Hp in Hcf.
    destruct (lookup_lt_is_Some_2 (frame_locks f) n) as [name Hn]; [lia|]. rewrite Hn in Hs. cbn in Hs.
    assert (frame_names f ≡ₚ name :: frame_names (in_phase f (Releasing n))) as Hnames.
    { eapply (frame_names_S (in_phase f (Releasing n))); [done|done|done|done|]. unfold held_count. by rewrite Hp. }
    assert (held t ≡ₚ id_of (worker t) name :: held (with_frames t (in_phase f (Releasing n) :: fs))) as Hheld.
    { unfold held, held_names. rewrite Hfs. cbn [task_frames with_frames worker task_leaked fmap list_fmap concat]. by rewrite Hnames. }
    destruct (release_spec (lock_state s) (worker t) name Hreg (ex_reserved _ E)) as (s1 & Hrel & Hr & Hperm).
    { apply (ex_held _ E _ _ _ Hi). rewrite Hheld. left. }
    rewrite Hrel in Hs. injection Hs as <- <-.
    split_and!; [done|constructor; [cbn; lia|done]|done|cbn; unfold frame_cost; rewrite Hp; cbn; lia|].
    right; right. by exists (id_of (worker t) name).
Qed.

Lemma initial_exclusive s : initial s → exclusive s.
Proof.
  intros [Hs Ht]. assert (∀ i t, tasks s !! i = Some t → held t = [] ∧ frames_ok t) as Hheld.
  { intros i t Hi. apply list_elem_of_lookup_2 in Hi. destruct (Ht t Hi) as (w & tok & body & ->). split; [done|].
    repeat constructor. }
  split; rewrite ?Hs.
  - by intros w r.
  - apply NoDup_nil_2.
  - intros i t Hi. apply (Hheld i t Hi).
  - intros i t id Hi. rewrite (proj1 (Hheld i t Hi)). by intros ?%elem_of_nil.
  - by intros id ?%elem_of_nil.
  - intros i t Hi. rewrite (proj1 (Hheld i t Hi)). apply NoDup_nil_2.
  - intros i j ti tj id Hi _. rewrite (proj1 (Hheld i ti Hi)). by intros ?%elem_of_nil.
Qed.

Lemma step_exclusive s s' : lock_step s s' → exclusive s → exclusive s'.
Proof.
  intros [st ts i t st' t' Hi Hs] E.
  destruct (step_effect _ _ _ _ _ E Hi Hs) as (Hr & Hc & _ & _ & Hm).
  by apply (exclusive_move (mkLockSystem st ts) i t).
Qed.

Lemma unwind_ok t names fs : Forall (λ f, held_count f ≤ length (frame_locks f)) fs → frames_ok (unwind t names fs).
Proof. intros Hfs. unfold frames_ok. cbn. by apply Forall_fmap. Qed.
Lemma unwind_held t names fs :
  held_names (unwind t names fs) = concat (frame_names <$> fs) ++ names ++ task_leaked t.
Proof.
  unfold held_names. cbn. f_equal. rewrite <-list_fmap_compose. done.
Qed.
Lemma failing_exclusive s s' : failing_step s s' → exclusive s → exclusive s'.
Proof.
  intros [s1 s2 Hs|st ts i t t' Hi Hf] E; [by apply (step_exclusive s1)|].
  pose proof (ex_phase _ E _ _ Hi) as Hc. unfold task_raises in Hf. unfold frames_ok in Hc.
  destruct (task_frames t) as [|f fs] eqn:Hfs; [done|]. apply Forall_cons in Hc as [Hcf Hc].
  apply (exclusive_move (mkLockSystem st ts) i t); [done|done|apply (ex_registry _ E)| |]; (destruct (frame_phase f) as [n| |n] eqn:Hp; [|injection Hf as <-|done]).
  - apply fmap_Some in Hf as (name & Hn & ->). by apply unwind_ok.
  - by apply unwind_ok, Forall_cons.
  - apply fmap_Some in Hf as (name & Hn & ->). left. split; [|done]. unfold held. rewrite unwind_held. unfold held_names. rewrite Hfs.
    cbn [unwind worker]. apply fmap_Permutation. cbn. unfold frame_names at 2, held_count. rewrite Hp.
    rewrite (app_assoc (concat _)), (Permutation_app_comm (concat _)). done.
  - left. split; [|done]. unfold held. rewrite unwind_held. unfold held_names. by rewrite Hfs.
Qed.

Lemma failing_run_exclusive s s' : rtc failing_step s s' → exclusive s → exclusive s'.
Proof. induction 1; eauto using failing_exclusive. Qed.
Lemma run_failing s s' : rtc lock_step s s' → rtc failing_step s s'.
Proof. apply rtc_subrel. apply failing_step_task. Qed.
Lemma run_exclusive s s' : rtc lock_step s s' → exclusive s → exclusive s'.
Proof. intros Hr. by apply failing_run_exclusive, run_failing. Qed.

(** *** Lemmas: progress *)

(** The order in which the code acquires its locks: those of the schemas and of the graph
    last. *)
Definition rank (name : string) : nat :=
  if decide (name = LOCAL_SCHEMA_LOCK) then 1 else if decide (name = GLOBAL_GRAPH_LOCK) then 2
  else if decide (name = GLOBAL_SCHEMA_LOCK) then 3 else 0.
Lemma rank_bound name : rank name ≤ 3.
Proof. unfold rank. repeat case_decide; lia. Qed.

(** [names] are acquired in increasing order, from [b] on; the bound of what comes next *)
Fixpoint ascending (b : nat) (names : list string) : option nat :=
  match names with
  | [] => Some b
  | name :: names => if b <=? rank name then ascending (S (rank name)) names else None
  end.
Fixpoint ordered (b : nat) (a : activity) : bool :=
  match a with
  | WaitUntilAvailable name => b <=? rank name
  | Block names body => match ascending b names with Some b' => forallb (ordered b') body | None => false end
  end.

(** The blocks of a task that were entered in this order: the locks they hold are below
    the bound. *)
Inductive stack_ok : nat → list Frame → Prop :=
  | stack_nil : stack_ok 0 []
  | stack_cons b fs f b' :
      stack_ok b fs → Forall (λ g, frame_phase g = Inside) fs →
      ascending b (frame_locks f) = Some b' → Forall (λ a, ordered b' a = true) (frame_rest f) → stack_ok b' (f :: fs).
Definition task_ok (t : Task) : Prop := task_leaked t = [] ∧ ∃ b, stack_ok b (task_frames t).

Lemma ascending_bound b names b' : ascending b names = Some b' →
  b ≤ b' ∧ (∀ name, name ∈ names → rank name < b') ∧
  ∀ n name, names !! n = Some name → b ≤ rank name ∧ ∀ name', name' ∈ take n names → rank name' < rank name.
Proof.
  revert b. induction names as [|x names IH]; intros b Ha; cbn in Ha.
  - injection Ha as <-. split; [done|]. split; [by intros ? ?%elem_of_nil|done].
  - destruct (Nat.leb_spec b (rank x)) as [Hb|]; [|done]. destruct (IH _ Ha) as (Hle & Hall & Hn). split; [lia|]. split.
    + intros name [->|Hin]%elem_of_cons; [lia|by apply Hall].
    + intros [|n] name Hname; cbn in Hname; [injection Hname as <-; split; [done|by intros ? ?%elem_of_nil]|].
      destruct (Hn n name Hname) as [Hx Htake]. split; [lia|]. intros name' [->|Hin]%elem_of_cons; [lia|by apply Htake].
Qed.
Lemma stack_held b fs : stack_ok b fs → ∀ name, name ∈ concat (frame_names <$> fs) → rank name < b.
Proof.
  induction 1 as [|b fs f b' Hfs IH Hin Ha Hrest]; intros name Hname; [by apply elem_of_nil in Hname|].
  destruct (ascending_bound _ _ _ Ha) as (Hle & Hall & _). cbn in Hname. apply elem_of_app in Hname as [Hname|Hname].
  - apply Hall. unfold frame_names in Hname. by apply elem_of_take in Hname as (i & Hi%list_elem_of_lookup_2 & _).
  - specialize (IH _ Hname). lia.
Qed.

(** The lock that the task is about to acquire, or to wait for *)
Definition wanted (t : Task) : option string :=
  match task_frames t with
  | f :: _ =>
      match frame_phase f, frame_rest f with
      | Acquiring n, _ => frame_locks f !! n
      | Inside, WaitUntilAvailable name :: _ => Some name
      | _, _ => None
      end
  | [] => None
  end.
(** It is after those that the task holds. *)
Lemma wanted_above t name : task_ok t → wanted t = Some name → ∀ name', name' ∈ held_names t → rank name' < rank name.
Proof.
  intros [Hl [b' Hs]] Hw name' Hheld. unfold held_names in Hheld. rewrite Hl, app_nil_r in Hheld. unfold wanted in Hw.
  destruct Hs as [|b fs f b' Hs Hin Ha Hrest]; [done|]. destruct (ascending_bound _ _ _ Ha) as (Hle & Hall & Hn).
  cbn in Hheld. apply elem_of_app in Hheld. pose proof (stack_held _ _ Hs name') as Hlow. unfold frame_names, held_count in Hheld.
  destruct (frame_phase f) as [n| |n] eqn:Hp; [|destruct (frame_rest f) as [|[x|]] eqn:Hr; try done|done].
  - destruct (Hn n name Hw) as [Hb Htake]. destruct Hheld as [Hheld|Hheld]; [by apply Htake|]. specialize (Hlow Hheld). lia.
  - injection Hw as ->. apply Forall_cons in Hrest as [Hx%Nat.leb_le _]. rewrite firstn_all in Hheld.
    destruct Hheld as [Hheld|Hheld]; [by apply Hall in Hheld; lia|]. specialize (Hlow Hheld). lia.
Qed.

Definition finished (t : Task) : Prop := task_frames t = [].
#[export] Instance finished_dec t : Decision (finished t).
Proof. unfold finished. apply _. Defined.

(** A task that does not step waits for a lock that is reserved. *)
Lemma blocked_wants s i t : exclusive s → tasks s !! i = Some t → ¬ finished t → task_step (lock_state s) t = None →
  ∃ name, wanted t = Some name ∧ id_of (worker t) name ∈ reserved (lock_state s).
Proof.
  intros E Hi Hnf Hstep. unfold task_step in Hstep. unfold wanted. pose proof (ex_phase _ E _ _ Hi) as Hc. unfold frames_ok, finished in *.
  destruct (task_frames t) as [|f fs]; [done|]. apply Forall_cons in Hc as [Hc _]. unfold held_count in Hc.
  destruct (frame_phase f) as [n| |[|n]] eqn:Hp; [| |done|].
  - destruct (frame_locks f !! n) as [name|] eqn:Hn; [|done]. apply fmap_None in Hstep. exists name. split; [done|].
    pose proof (acquire_spec (lock_state s) (worker t) name (token t) (ex_registry _ E)) as Hspec. by rewrite Hstep in Hspec.
  - destruct (frame_rest f) as [|[name|names body] rest]; try done. apply fmap_None in Hstep. exists name. split; [done|].
    pose proof (wait_until_available_spec (lock_state s) (worker t) name (ex_registry _ E)) as Hspec. by rewrite Hstep in Hspec.
  - destruct (lookup_lt_is_Some_2 (frame_locks f) n) as [name Hn]; [lia|]. rewrite Hn in Hstep. cbn in Hstep. by destruct (release _ _ _).
Qed.
Lemma id_of_inj w w' name name' : id_of w name = id_of w' name' → name = name'.
Proof. unfold id_of. destruct (use_local (new_lock name _ _ _)), (use_local (new_lock name' _ _ _)); congruence. Qed.
(** A task that waits can be followed to a task that steps. *)
Lemma some_task_steps s :
  exclusive s → (∀ t, t ∈ tasks s → task_ok t) →
  ∀ k i t, tasks s !! i = Some t → ¬ finished t → (∀ name, wanted t = Some name → 3 - rank name < k) →
    ∃ j u, tasks s !! j = Some u ∧ is_Some (task_step (lock_state s) u).
Proof.
  intros E Hok. induction k as [|k IH]; intros i t Hi Hnf Hk;
    (destruct (task_step (lock_state s) t) as [[s' t']|] eqn:Hstep; [exists i, t; rewrite Hstep; eauto|]);
    destruct (blocked_wants s i t E Hi Hnf Hstep) as (name & Hw & Hres); specialize (Hk name Hw); [lia|].
  destruct (ex_holder _ E _ Hres) as (j & u & Hu & (name' & Hid & Hheld)%list_elem_of_fmap).
  apply id_of_inj in Hid as <-. apply list_elem_of_lookup_2 in Hu as Hin. apply (IH j u Hu).
  - intros Hf. destruct (Hok u Hin) as [Hl _]. unfold held_names in Hheld. rewrite Hl, Hf in Hheld. by apply elem_of_nil in Hheld.
  - intros name2 Hw2. pose proof (wanted_above u name2 (Hok u Hin) Hw2 name Hheld). pose proof (rank_bound name2). lia.
Qed.

Definition total_cost (s : LockSystem) : nat := sum_list_with task_cost (tasks s).
Lemma total_cost_insert ts i t t' :
  ts !! i = Some t → task_cost t = S (task_cost t') →
  sum_list_with task_cost ts = S (sum_list_with task_cost (<[i := t']> ts)).
Proof.
  intros Hi Hc. revert i Hi. induction ts as [|u ts IH]; intros [|i] Hi; try done; cbn in *.
  - injection Hi as ->. lia.
  - rewrite (IH i Hi). apply Nat.add_succ_r.
Qed.

Lemma step_task_ok s t s' t' : task_step s t = Some (s', t') → task_leaked t' = task_leaked t → task_ok t → task_ok t'.
Proof.
  intros Hs Hleak [Hl [b' Hok]]. split; [congruence|]. unfold task_step in Hs.
  destruct Hok as [|b fs f b' Hok Hin Ha Hrest]; [done|].
  destruct (frame_phase f) as [n| |[|n]] eqn:Hp.
  - destruct (frame_locks f !! n) as [name|]; [apply fmap_Some in Hs as (s1 & _ & [= _ ->])|injection Hs as _ <-]; exists b'; by apply (stack_cons b).
  - destruct (frame_rest f) as [|[name|names body] rest] eqn:Hr.
    + injection Hs as _ <-. exists b'. apply (stack_cons b); [done|done|done|]. cbn. by rewrite Hr.
    + apply fmap_Some in Hs as (s1 & _ & [= _ ->]). exists b'. apply Forall_cons in Hrest as [_ Hrest]. by apply (stack_cons b).
    + injection Hs as _ <-. apply Forall_cons in Hrest as [Hblock Hrest]. cbn in Hblock.
      destruct (ascending b' names) as [b2|] eqn:Ha2; [|done]. exists b2. rewrite forallb_forall in Hblock. apply (stack_cons b'); [| |done|].
      * by apply (stack_cons b).
      * by constructor.
      * apply Forall_forall. intros a Hx. by apply Hblock, list_elem_of_In.
  - injection Hs as _ <-. by exists b.
  - destruct (frame_locks f !! n) as [name|] eqn:Hn; [|done]. cbn in Hs. destruct (release _ _ _); injection Hs as _ <-; [exists b'; by apply (stack_cons b)|].
    cbn in Hleak. rewrite Hl, (take_S_r _ _ name) in Hleak by done. by destruct (take n (frame_locks f)).
Qed.
Lemma step_keeps_run s s' : lock_step s s' → exclusive s →
  total_cost s = S (total_cost s') ∧ ((∀ t, t ∈ tasks s → task_ok t) → ∀ t, t ∈ tasks s' → task_ok t).
Proof.
  intros [st ts i t st' t' Hi Hs] E. destruct (step_effect _ _ _ _ _ E Hi Hs) as (_ & _ & Hf & Hcost & _).
  split; [by apply (total_cost_insert ts i t)|]. intros Hok u Hu. cbn in Hu.
  apply list_elem_of_lookup in Hu as (j & Hj). apply list_lookup_insert_Some in Hj as [(-> & <- & _)|[_ Hj]].
  - eapply step_task_ok; [exact Hs|done|]. apply Hok. by apply list_elem_of_lookup_2 in Hi.
  - apply Hok. by apply list_elem_of_lookup_2 in Hj.
Qed.
Lemma run_bounded n s s' : nsteps lock_step n s s' → exclusive s → n + total_cost s' = total_cost s.
Proof.
  induction 1 as [|n s1 s2 s3 Hs _ IH]; intros E; [done|].
  destruct (step_keeps_run _ _ Hs E) as [Hc _]. specialize (IH (step_exclusive _ _ Hs E)). lia.
Qed.
Lemma run_task_ok s s' : rtc lock_step s s' → exclusive s → (∀ t, t ∈ tasks s → task_ok t) → ∀ t, t ∈ tasks s' → task_ok t.
Proof.
  induction 1 as [|s1 s2 s3 Hs _ IH]; intros E Hok; [done|].
  apply IH; [by apply (step_exclusive s1)|by apply (step_keeps_run s1)].
Qed.

(** A task that wants a lock that is reserved does not step. *)
Lemma wanted_blocked s t name : registry_ok s → wanted t = Some name → id_of (worker t) name ∈ reserved s → task_step s t = None.
Proof.
  intros Hreg Hw Hres. unfold wanted in Hw. unfold task_step. destruct (task_frames t) as [|f fs]; [done|].
  destruct (frame_phase f) as [n| |n]; [| |done].
  - rewrite Hw. pose proof (acquire_spec s (worker t) name (token t) Hreg) as Hspec. destruct (acquire _ _ _ _); [|done].
    by destruct Hspec as (_ & ? & _).
  - destruct (frame_rest f) as [|[x|] rest]; try done. injection Hw as ->.
    pose proof (wait_until_available_spec s (worker t) name Hreg) as Hspec. destruct (wait_until_available _ _ _); [|done].
    by destruct Hspec as (_ & ? & _).
Qed.

(** The locks that were leaked stay so. *)
Lemma leaked_stays s s' i t name : rtc failing_step s s' → tasks s !! i = Some t → name ∈ task_leaked t → exclusive s →
  ∃ t', tasks s' !! i = Some t' ∧ worker t' = worker t ∧ name ∈ task_leaked t'.
Proof.
  intros Hr. revert t. induction Hr as [|s1 s2 s3 Hs _ IH]; intros t Hi Hn E; [by exists t|].
  pose proof (failing_exclusive _ _ Hs E) as E2.
  assert (∃ t2, tasks s2 !! i = Some t2 ∧ worker t2 = worker t ∧ name ∈ task_leaked t2) as (t2 & Hi2 & Hw2 & Hn2).
  { destruct Hs as [s1 s2 [st ts j u st' u' Hj Hu]|st ts j u u' Hj Hu]; cbn in *;
      (destruct (decide (i = j)) as [<-|Hne]; [|rewrite list_lookup_insert_ne by done; by exists t]).
    - rewrite Hj in Hi. injection Hi as ->. destruct (step_effect _ _ _ _ _ E Hj Hu) as (_ & _ & Hl & _).
      exists u'. rewrite list_lookup_insert_eq by by eapply lookup_lt_Some. rewrite Hl. split_and!; [done| |done].
      unfold task_step in Hu. repeat case_match; simplify_option_eq; repeat case_match; by simplify_option_eq.
    - rewrite Hj in Hi. injection Hi as ->. exists u'. rewrite list_lookup_insert_eq by by eapply lookup_lt_Some.
      unfold task_raises in Hu. repeat case_match; simplify_option_eq; (split_and!; [done|done|]); cbn; set_solver. }
  destruct (IH t2 Hi2 Hn2 E2) as (t' & Hi' & Hw' & Hn'). exists t'. by rewrite Hw', Hw2.
Qed.

(** The locks of a block that was entered are held. *)
Lemma inside_held t f name :
  f ∈ task_frames t → frame_phase f = Inside → name ∈ frame_locks f → id_of (worker t) name ∈ held t.
Proof.
  intros Hf Hp Hn. apply list_elem_of_fmap_2. unfold held_names. apply elem_of_app. left. apply list_elem_of_In, in_concat.
  exists (frame_names f). split; apply list_elem_of_In; [by apply list_elem_of_fmap_2|]. unfold frame_names, held_count. by rewrite Hp, firstn_all.
Qed.

(** *** Running a schedule *)

Fixpoint run (schedule : list nat) (s : LockSystem) : option LockSystem :=
  match schedule with
  | [] => Some s
  | i :: schedule =>
      t ← tasks s !! i;
      '(s', t') ← task_step (lock_state s) t;
      run schedule (mkLockSystem s' (<[i := t']> (tasks s)))
  end.

Lemma run_nsteps schedule s s' : run schedule s = Some s' → nsteps lock_step (length schedule) s s'.
Proof.
  revert s. induction schedule as [|i schedule IH]; intros s Hr; cbn in Hr; [injection Hr as ->; constructor|].
  destruct (tasks s !! i) as [t|] eqn:Hi; cbn in Hr; [|done].
  destruct (task_step (lock_state s) t) as [[st t']|] eqn:Hs; cbn in Hr; [|done].
  eapply nsteps_l; [|by apply IH]. destruct s as [st0 ts]. by apply (lock_step_task st0 ts i t).
Qed.
Lemma run_sound schedule s s' : run schedule s = Some s' → rtc failing_step s s'.
Proof. intros Hr%run_nsteps. apply run_failing. by apply rtc_nsteps_2 in Hr. Qed.
End locks.

(** The blocks of the code.  Those of the schemas and of the graph have bodies without lock,
    as long as the branches that they read are in the registry of the worker; the body of a
    block of one other lock can take these ones, or wait for them. *)
Definition schema_block (a : activity) : Prop :=
  a = local_schema_wait ∨ a = Block local_schema_lock [] ∨ a = Block global_schema_lock [] ∨ a = Block global_graph_lock [].
Definition code_block (a : activity) : Prop :=
  schema_block a ∨
  ∃ name body, a = Block [name] body ∧ (name ∉ [LOCAL_SCHEMA_LOCK; GLOBAL_GRAPH_LOCK; GLOBAL_SCHEMA_LOCK]) ∧ Forall schema_block body.

Lemma schema_block_ordered b a : b ≤ 1 → schema_block a → ordered b a = true.
Proof. intros Hb. assert (b = 0 ∨ b = 1) as [-> | ->] by lia; by intros [->|[->|[->| ->]]]. Qed.
Lemma code_block_ordered a : code_block a → ordered 0 a = true.
Proof.
  intros [Ha|(name & body & -> & Hname & Hbody)]; [by apply schema_block_ordered; [lia|]|]. cbn.
  rewrite !not_elem_of_cons in Hname. destruct Hname as (H1 & H2 & H3 & _).
  assert (rank name = 0) as -> by (unfold rank; by rewrite !decide_False). apply forallb_forall. intros a Ha%list_elem_of_In.
  apply schema_block_ordered; [done|]. by apply (proj1 (Forall_forall _ _) Hbody).
Qed.

(** ** Theorems *)

(** C25: Mutual exclusion: through any interleaving of the tasks of any workers, and
    even when acquisitions and bodies raise, two tasks are never inside blocks with a lock
    in common (the same distributed lock, or the same local lock of one worker). *)
Theorem mutual_exclusion (connected : string → bool) (s0 s : LockSystem) (i j : nat) (ti tj : Task) (fi fj : Frame) (ni nj : string) :
  initial s0 → rtc (failing_step connected) s0 s →
  tasks s !! i = Some ti → tasks s !! j = Some tj →
  fi ∈ task_frames ti → fj ∈ task_frames tj →
  frame_phase fi = Inside → frame_phase fj = Inside →
  ni ∈ frame_locks fi → nj ∈ frame_locks fj →
  id_of connected (worker ti) ni = id_of connected (worker tj) nj →
  i = j.
Proof.
  intros H0 Hr Hi Hj Hfi Hfj Hpi Hpj Hni Hnj Hid.
  pose proof (failing_run_exclusive connected s0 s Hr (initial_exclusive connected _ H0)) as E.
  apply (ex_unique _ _ E i j ti tj (id_of connected (worker ti) ni)); [done..| |].
  - by apply (inside_held _ _ fi).
  - rewrite Hid. by apply (inside_held _ _ fj).
Qed.

(** C31: The blocks of the code cannot deadlock: whatever the interleaving of tasks that
    enter, one after the other, blocks of the schema locks, of the graph locks, or of any
    other lock (a repository, an artifact) in which the former are nested, or that wait for
    the schema of the worker, in every state that is reached some task can go on unless all
    are finished, and then no lock is reserved; and a run has at most [total_cost] steps, so
    every run that goes on as long as it can finishes all the tasks.  The bodies of the
    schema and graph locks take no lock themselves, which is so as long as the branches that
    they read are in the registry of the worker ([get_branch_in_graph_lock_deadlocks]). *)
Theorem locks_live (connected : string → bool) (s0 s : LockSystem) (n : nat) :
  initial s0 → (∀ w tok body, start w tok body ∈ tasks s0 → Forall code_block body) →
  nsteps (lock_step connected) n s0 s →
  n ≤ total_cost s0 ∧
  ((∃ s', lock_step connected s s') ∨
   (∀ t, t ∈ tasks s → finished t) ∧ reserved (lock_state s) = []).
Proof.
  intros H0 Hcode Hn. pose proof (initial_exclusive connected _ H0) as E0.
  pose proof (run_bounded connected _ _ _ Hn E0) as Hb. split; [lia|].
  apply rtc_nsteps_2 in Hn. pose proof (run_exclusive connected _ _ Hn E0) as E.
  assert (∀ t, t ∈ tasks s → task_ok t) as Hok.
  { apply (run_task_ok connected s0); [done|done|]. intros t Ht. destruct (initial_tasks _ H0 t Ht) as (w & tok & body & ->).
    split; [done|]. exists 0. apply (stack_cons 0); [constructor|done|done|]. apply (Forall_impl _ _ _ (Hcode _ _ _ Ht)), code_block_ordered. }
  destruct (decide (Forall finished (tasks s))) as [Hf|Hf].
  - right. rewrite Forall_forall in Hf. split; [done|].
    destruct (reserved (lock_state s)) as [|id ids] eqn:Hr; [done|].
    destruct (ex_holder _ _ E id) as (i & t & Hi & Hid); [rewrite Hr; left|].
    apply list_elem_of_lookup_2 in Hi. destruct (Hok t Hi) as [Hl _]. unfold held, held_names in Hid. rewrite (Hf t Hi), Hl in Hid.
    by apply elem_of_nil in Hid.
  - left. apply not_Forall_Exists in Hf; [|intros t; apply _]. apply Exists_exists in Hf as (t & Ht & Hnf).
    apply list_elem_of_lookup in Ht as (i & Hi).
    destruct (some_task_steps connected s E Hok 4 i t Hi Hnf) as (k & u & Hk & [[st u'] Hs]); [intros; lia|].
    destruct s as [s1 ts]. eexists. by apply (lock_step_task connected s1 ts k u st u').
Qed.

(** The locks are not reentrant: a task that acquires, or waits for, a lock that it holds
    never goes on. *)
Theorem reentrant_acquire_stuck (connected : string → bool) (s0 s s' : LockSystem) (i : nat) (t : Task) (name : string) :
  initial s0 → rtc (failing_step connected) s0 s → tasks s !! i = Some t →
  wanted t = Some name → id_of connected (worker t) name ∈ held connected t →
  rtc (lock_step connected) s s' → tasks s' !! i = Some t.
Proof.
  intros H0 Hr Hi Hw Hheld Hrun. pose proof (failing_run_exclusive connected s0 s Hr (initial_exclusive connected _ H0)) as E. clear H0 Hr.
  induction Hrun as [|s1 s2 s3 Hs _ IH]; [done|]. apply IH; [|by apply (step_exclusive connected s1)].
  pose proof (wanted_blocked connected _ t name (ex_registry _ _ E) Hw (ex_held _ _ E _ _ _ Hi Hheld)) as Hnone.
  destruct Hs as [st ts j u st' u' Hj Hu]; cbn in *. destruct (decide (i = j)) as [<-|Hne]; [|by rewrite list_lookup_insert_ne]. congruence.
Qed.

(** When the acquisition of one of several locks raises, the locks that were acquired
    before are never released: they stay reserved, and no block that needs one of them is
    ever entered. *)
Theorem interrupted_acquire_leaks (connected : string → bool) (s0 s s' : LockSystem) (i n : nat) (t t' : Task) (f : Frame) (fs : list Frame)
    (name : string) :
  initial s0 → rtc (failing_step connected) s0 s →
  tasks s !! i = Some t → task_frames t = f :: fs → frame_phase f = Acquiring n → task_raises t = Some t' → name ∈ take n (frame_locks f) →
  rtc (failing_step connected) (mkLockSystem (lock_state s) (<[i := t']> (tasks s))) s' →
  id_of connected (worker t) name ∈ reserved (lock_state s') ∧
  ∀ j u g, tasks s' !! j = Some u → j ≠ i → g ∈ task_frames u → frame_phase g = Inside →
    ∀ name', name' ∈ frame_locks g → id_of connected (worker u) name' ≠ id_of connected (worker t) name.
Proof.
  intros H0 Hr Hi Hf Hp Hraise Hn Hr'.
  assert (failing_step connected s (mkLockSystem (lock_state s) (<[i := t']> (tasks s)))) as Hs.
  { destruct s as [st ts]. by apply (failing_step_raise connected st ts i t t'). }
  pose proof (failing_run_exclusive connected s0 s Hr (initial_exclusive connected _ H0)) as E.
  pose proof (failing_exclusive connected _ _ Hs E) as E1.
  unfold task_raises in Hraise. rewrite Hf, Hp in Hraise. apply fmap_Some in Hraise as (x & Hx & ->).
  destruct (leaked_stays connected _ s' i (unwind t (take n (frame_locks f)) fs) name Hr') as (t2 & Hi2 & Hw2 & Hn2); [| |done|].
  { cbn. rewrite list_lookup_insert_eq; [done|]. by eapply lookup_lt_Some. }
  { cbn. by apply elem_of_app; left. }
  pose proof (failing_run_exclusive connected _ s' Hr' E1) as E2. cbn in Hw2.
  assert (id_of connected (worker t) name ∈ held connected t2) as Hheld.
  { unfold held. rewrite Hw2. apply list_elem_of_fmap_2. unfold held_names. by apply elem_of_app; right. }
  split; [by apply (ex_held _ _ E2 i t2)|]. intros j u g Hj Hne Hg Hin name' Hname' Heq. apply Hne.
  apply (ex_unique _ _ E2 j i u t2 (id_of connected (worker t) name)); [done|done| |done]. rewrite <-Heq. by apply (inside_held _ _ g).
Qed.

(** ** A concrete system *)

Definition example_connected : string → bool := λ _, true.
Definition example_task (w : string) (body : list activity) : Task := start w (w +:+ "-token") body.
Definition example_locks : LockSystem :=
  mkLockSystem (mkLockState [] [] [])
    [example_task "worker1" [Block global_schema_lock []]; example_task "worker2" [Block global_graph_lock []; local_schema_wait];
     example_task "worker1" [Block ["global.repository.infra"] (get_branch false)]].

Lemma example_initial : initial example_locks.
Proof.
  split; [reflexivity|]. intros t. unfold example_locks. cbn [tasks]. rewrite !elem_of_cons, elem_of_nil.
  intros [->|[->|[->|[]]]]; by do 3 eexists.
Qed.

Definition example_state (schedule : list nat) : LockSystem :=
  default example_locks (run example_connected schedule example_locks).
Definition nth_task (s : LockSystem) (i : nat) : Task := default (example_task "" []) (tasks s !! i).
Definition top_frame (t : Task) : Frame := default (mkFrame [] Inside []) (head (task_frames t)).

(** The first task is inside its block, and the second waits for the third lock of its own. *)
Definition contended : LockSystem := example_state [0; 0; 0; 0; 1; 1; 1; 2].
Lemma mutual_exclusion_witness :
  frame_phase (top_frame (nth_task contended 0)) = Inside ∧ frame_phase (top_frame (nth_task contended 1)) = Acquiring 2 ∧
  task_step example_connected (lock_state contended) (nth_task contended 1) = None ∧ 0 = 0.
Proof.
  split; [vm_compute; reflexivity|]. split; [vm_compute; reflexivity|]. split; [vm_compute; reflexivity|].
  apply (mutual_exclusion example_connected example_locks contended 0 0 (nth_task contended 0) (nth_task contended 0)
    (top_frame (nth_task contended 0)) (top_frame (nth_task contended 0)) GLOBAL_SCHEMA_LOCK GLOBAL_SCHEMA_LOCK).
  - exact example_initial.
  - apply (run_sound example_connected [0; 0; 0; 0; 1; 1; 1; 2]). vm_compute. reflexivity.
  - vm_compute. reflexivity.
  - vm_compute. reflexivity.
  - vm_compute. left.
  - vm_compute. left.
  - vm_compute. reflexivity.
  - vm_compute. reflexivity.
  - apply (bool_decide_unpack _). vm_compute. exact I.
  - apply (bool_decide_unpack _). vm_compute. exact I.
  - reflexivity.
Defined.

(** A schedule in which the tasks wait for each other. *)
Definition example_schedule : list nat := [0; 0; 0; 0; 1; 1; 1; 2; 2; 2; 2; 0; 0; 0; 0; 2; 0; 0].
Lemma locks_live_witness :
  let s := example_state example_schedule in
  length example_schedule ≤ total_cost example_locks ∧
  ((∃ s', lock_step example_connected s s') ∨
   (∀ t, t ∈ tasks s → finished t) ∧ reserved (lock_state s) = []).
Proof.
  apply (locks_live example_connected example_locks).
  - exact example_initial.
  - intros w tok body. unfold example_locks. cbn [tasks]. rewrite !elem_of_cons, elem_of_nil.
    intros [[= _ _ ->]|[[= _ _ ->]|[[= _ _ ->]|[]]]].
    + apply Forall_singleton. left. unfold schema_block. auto.
    + apply Forall_cons. split; [left; unfold schema_block; auto|]. apply Forall_singleton. left. unfold schema_block. auto.
    + apply Forall_singleton. right. exists "global.repository.infra", (get_branch false). split; [reflexivity|]. split.
      * apply (bool_decide_unpack _). vm_compute. exact I.
      * apply Forall_singleton. unfold schema_block. auto.
  - apply run_nsteps. vm_compute. reflexivity.
Defined.

(** The first task raises at the distributed lock. *)
Definition before_raise : LockSystem := example_state [0; 0].
Definition raised : Task := default (example_task "" []) (task_raises (nth_task before_raise 0)).
Lemma interrupted_acquire_leaks_witness :
  LocalLock "worker1" LOCAL_SCHEMA_LOCK ∈ reserved (mkLockState (registries (lock_state before_raise)) (local_locked (lock_state before_raise)) []).
Proof.
  destruct (interrupted_acquire_leaks example_connected example_locks before_raise
    (mkLockSystem (lock_state before_raise) (<[0 := raised]> (tasks before_raise)))
    0 1 (nth_task before_raise 0) raised (top_frame (nth_task before_raise 0)) (tail (task_frames (nth_task before_raise 0)))
    LOCAL_SCHEMA_LOCK) as [Hr _].
  - exact example_initial.
  - apply (run_sound example_connected [0; 0]). vm_compute. reflexivity.
  - vm_compute. reflexivity.
  - vm_compute. reflexivity.
  - vm_compute. reflexivity.
  - vm_compute. reflexivity.
  - vm_compute. left.
  - apply rtc_refl.
  - exact Hr.
Defined.

(** A branch that another worker created, and that is read under the graph lock: the task
    waits for the lock of the schemas, which it holds, and never goes on, nor does any other
    task of the worker that needs the schemas. *)
Definition reentrant_start : LockSystem :=
  mkLockSystem (mkLockState [] [] []) [example_task "worker1" [Block global_graph_lock (get_branch false)]].
Definition reentrant_state : LockSystem := default reentrant_start (run example_connected [0; 0; 0; 0; 0; 0] reentrant_start).
Theorem get_branch_in_graph_lock_deadlocks :
  rtc (lock_step example_connected) reentrant_start reentrant_state ∧ wanted (nth_task reentrant_state 0) = Some LOCAL_SCHEMA_LOCK ∧
  ∀ s', rtc (lock_step example_connected) reentrant_state s' → tasks s' !! 0 = Some (nth_task reentrant_state 0).
Proof.
  assert (run example_connected [0; 0; 0; 0; 0; 0] reentrant_start = Some reentrant_state) as Hrun by (vm_compute; reflexivity).
  split; [apply (rtc_nsteps_2 6), (run_nsteps _ [0; 0; 0; 0; 0; 0]), Hrun|]. split; [vm_compute; reflexivity|]. intros s'.
  apply (reentrant_acquire_stuck example_connected reentrant_start reentrant_state s' 0 _ LOCAL_SCHEMA_LOCK).
  - split; [reflexivity|]. intros t ->%list_elem_of_singleton. by do 3 eexists.
  - apply (run_sound _ _ _ _ Hrun).
  - vm_compute. reflexivity.
  - vm_compute. reflexivity.
  - apply (bool_decide_unpack _). vm_compute. exact I.
Qed.
