(* ===== verification/Query.v ===== *)
(** * Queries

    [backend/infrahub/core/query/__init__.py]: the elements of a Cypher query, its text, its
    execution by pages, and its results with the scores that choose between the rows of
    several branches.  The database is a parameter: it answers to a text, knowing the
    queries it executed before. *)

From stdpp Require Import prelude strings pretty sorting.
From Stdlib Require Import Ascii.
From S2P Require Import Prelude PyString PyDict SdkUtils HashModel.

#[local] Open Scope Z_scope.

(** ** Elements of a query *)

Inductive QueryRelDirection := BIDIR | INBOUND | OUTBOUND.

(** [QueryElement]; [QueryRel] adds a direction and lengths. *)
Record QueryElement := mkQueryElement {
  qe_name : option string;
  qe_labels : list string;
  qe_params : list (string * json);
}.
Record QueryRel := mkQueryRel {
  qr_element : QueryElement;
  qr_direction : QueryRelDirection;
  qr_length_min : Z;
  qr_length_max : option Z;
}.

Definition quote : string := String "034"%char "".
Definition quoted (s : string) : string := quote +:+ s +:+ quote.

Definition labels_as_str (e : QueryElement) : string :=
  match qe_labels e with [] => "" | labels => ":" +:+ py_join ":" labels end.
Definition param_str (kv : string * json) : string :=
  kv.1 +:+ ": " +:+ match kv.2 with JStr s => if startswith s "$" then s else quoted s | v => py_str v end.
Definition params_as_str (e : QueryElement) : string :=
  match qe_params e with [] => "" | params => " { " +:+ py_join "," (param_str <$> params) +:+ " }" end.
Definition element_str (e : QueryElement) : string := default "" (qe_name e) +:+ labels_as_str e +:+ params_as_str e.
Definition node_str (e : QueryElement) : string := "(" +:+ element_str e +:+ ")".
Definition rel_str (r : QueryRel) : string :=
  let e := qr_element r in
  let length_str := match qr_length_max r with
                    | Some n => if n =? 0 then "" else "*" +:+ pretty (qr_length_min r) +:+ ".." +:+ pretty n
                    | None => "" end in
  let main_str := "[" +:+ default "" (qe_name e) +:+ labels_as_str e +:+ length_str +:+ params_as_str e +:+ "]" in
  match qr_direction r with
  | INBOUND => "<-" +:+ main_str +:+ "-"
  | OUTBOUND => "-" +:+ main_str +:+ "->"
  | BIDIR => "-" +:+ main_str +:+ "-"
  end.

(** ** Results *)

Definition is_space (c : ascii) : bool := let n := N_of_ascii c in ((9 <=? n) && (n <=? 13) || (28 <=? n) && (n <=? 32))%N.
Definition py_strip : string → string := str_strip is_space.

Definition cleanup_return_labels (labels : list string) : list string :=
  (λ label, match split_once " as " (py_lower label) with
            | Some (String c before, _) =>
                let clean_idx := (String.length (String c before) + 4)%nat in
                py_strip (String.substring clean_idx (String.length label - clean_idx) label)
            | _ => label
            end) <$> labels.

(** A node or a relationship of the driver: its Python attributes and its properties. *)
Record Neo4jEntity := mkEntity {
  en_attrs : list (string * json);
  en_props : list (string * json);
}.
Inductive Item :=
  | INode (n : Neo4jEntity)
  | IRel (r : Neo4jEntity)
  | IList (l : list Neo4jEntity)
  | IValue (v : json).

Record QueryResult := mkQueryResult {
  qr_data : list Item;
  qr_labels : list string;
  branch_score : Z;
  time_score : Z;
  has_deleted_rels : bool;
}.

Definition get_rels (data : list Item) : list Neo4jEntity := omap (λ i, match i with IRel r => Some r | _ => None end) data.
Definition result_nodes (data : list Item) : list Neo4jEntity := omap (λ i, match i with INode n => Some n | _ => None end) data.
(** [rel.get(name, None)] *)
Definition prop (r : Neo4jEntity) (name : string) : json := default JNull (dict_get (en_props r) name).

Definition calculate_branch_score (data : list Item) : result Z :=
  foldM (λ score rel, let branch_level := prop rel "branch_level" in
                      if truthy_json branch_level then
                        match branch_level with JInt n => Ok (score + n) | JBool b => Ok (score + 1) | _ => Err (TypeError "+=") end
                      else Ok score) 0 (get_rels data).
Definition time_weight (rel : Neo4jEntity) : Z :=
  if truthy_json (prop rel "branch") then (if truthy_json (prop rel "to") then 1 else 2) else 0.
Definition calculate_time_score (data : list Item) : Z := foldl (λ score rel, score + time_weight rel) 0 (get_rels data).
Definition check_rels_status (data : list Item) : bool :=
  existsb (λ rel, py_eq (prop rel "status") (JStr "deleted")) (get_rels data).

Definition new_result (labels : list string) (data : list Item) : result QueryResult :=
  score ← calculate_branch_score data;
  Ok (mkQueryResult data (cleanup_return_labels labels) score (calculate_time_score data) (check_rels_status data)).

(** [_get] *)
Definition get_item (r : QueryResult) (label : string) : result Item :=
  match list_find (label =.) (qr_labels r) with
  | Some (i, _) => require IndexError (qr_data r !! i)
  | None => Err (ValueError "is not a valid value for this query")
  end.
(** An entity of the driver is a mapping of its properties. *)
Definition truthy_item (i : Item) : bool :=
  match i with
  | INode e | IRel e => match en_props e with [] => false | _ => true end
  | IList l => match l with [] => false | _ => true end
  | IValue v => truthy_json v
  end.
(** [get_as_str]; [item_str] is the text that the driver gives to an entity. *)
Definition result_as_str (item_str : Item → string) (r : QueryResult) (label : string) : result (option string) :=
  item ← get_item r label; Ok (if truthy_item item then Some (item_str item) else None).
Definition get_node_collection (r : QueryResult) (label : string) : result (list Neo4jEntity) :=
  item ← get_item r label; match item with IList l => Ok l | _ => Err (ValueError "is not a collection") end.
Definition result_node (r : QueryResult) (label : string) : result Neo4jEntity :=
  item ← get_item r label; match item with INode n => Ok n | _ => Err (ValueError "is not a Node") end.
Definition result_rel (r : QueryResult) (label : string) : result Neo4jEntity :=
  item ← get_item r label; match item with IRel r => Ok r | _ => Err (ValueError "is not a Relationship") end.

(** ** Statistics *)

(** The counters of the database, by name. *)
Definition QueryStat : Type := list (string * json).
Definition default_stat : QueryStat :=
  ("contains_updates", JBool false) ::
  ((λ name, (name, JNull)) <$> ["labels_added"; "labels_removed"; "nodes_created"; "nodes_deleted"; "properties_set";
                                "relationships_created"; "relationships_deleted"]).
Definition from_metadata (data : list (string * json)) : result QueryStat :=
  let data := dict_of_list ((λ kv, (py_replace "-" "_" kv.1, kv.2)) <$> data) in
  _ ← raise_if (existsb (λ k, negb (dict_mem default_stat k)) (dict_keys data)) (TypeError "got an unexpected keyword argument");
  Ok (dict_update default_stat data).

Definition QueryStats : Type := list QueryStat.
Definition add_stats (stats : QueryStats) (data : option (list (string * json))) : result QueryStats :=
  match data with
  | Some ((_ :: _) as data) => stat ← from_metadata data; Ok (stats ++ [stat])
  | _ => Ok stats
  end.
Definition get_counter (stats : QueryStats) (name : string) : result Z :=
  foldM (λ cnt stat,
    v ← require (ValueError "Counter is not available") (dict_get stat name);
    match v with
    | JInt n => Ok (cnt + n)
    | JBool b => Ok (cnt + if b then 1 else 0)
    | _ => Err (TypeError "unsupported operand type(s) for +=")
    end) 0 stats.

(** ** The query *)

Inductive QueryType := READ | WRITE.

Record Query := mkQuery {
  q_name : string;
  q_type : QueryType;
  q_raise_error_if_empty : bool;
  q_insert_return : bool;
  q_limit : option Z;
  q_offset : option Z;
  q_order_by : list string;
  q_params : list (string * json);
  q_query_lines : list string;
  q_return_labels : list string;
  q_results : list QueryResult;
  q_has_been_executed : bool;
  q_stats : QueryStats;
}.
#[export] Instance Query_rebuild : Rebuild Query := λ q,
  mkQuery (q_name q) (q_type q) (q_raise_error_if_empty q) (q_insert_return q) (q_limit q) (q_offset q) (q_order_by q) (q_params q)
    (q_query_lines q) (q_return_labels q) (q_results q) (q_has_been_executed q) (q_stats q).

Definition update_return_labels (values : list string) (q : Query) : Query :=
  q <| q_return_labels := foldl (λ labels v, if bool_decide (v ∈ labels) then labels else labels ++ [v]) (q_return_labels q) values |>.

Definition newline : string := String "010"%char "".
Definition add_to_query (query : string) (q : Query) : Query :=
  q <| q_query_lines := q_query_lines q ++ filter (λ l, l ≠ "") (py_strip <$> py_split newline query) |>.
Definition add_subquery (subquery : string) (with_clause : option string) (q : Query) : Query :=
  let q := add_to_query "}" (add_to_query subquery (add_to_query "CALL {" q)) in
  match with_clause with Some (String c w) => add_to_query ("WITH " +:+ String c w) q | _ => q end.

(** [a or b], for optional numbers *)
Definition or_number (a b : option Z) : option Z := match a with Some n => if n =? 0 then b else a | None => b end.
Definition truthy_number (a : option Z) : option Z := or_number a None.

Definition prep_value (v : json) : string :=
  match v with JInt _ | JBool _ | JList _ => py_str v | _ => quoted (py_str v) end.
Definition variable_str (v : json) : string :=
  match v with
  | JDict d => "{ " +:+ py_join ", " ((λ kv, kv.1 +:+ ": " +:+ prep_value kv.2) <$> d) +:+ " }"
  | v => prep_value v
  end.
Definition insert_variables_in_query (query : string) (variables : list (string * json)) : string :=
  foldl (λ query kv, py_replace ("$" +:+ kv.1) (variable_str kv.2) query) query variables.

Definition _get_params_for_neo4j_shell (params : list (string * json)) : string :=
  ":params { " +:+ py_join ", " ((λ kv, kv.1 +:+ ": " +:+ prep_value kv.2) <$> params) +:+ " }".

Definition get_query_text (limit offset : option Z) (q : Query) : string :=
  py_join newline
    (q_query_lines q ++
     (if q_insert_return q then ["RETURN " +:+ py_join "," (q_return_labels q)] else []) ++
     (match q_order_by q with [] => [] | o => ["ORDER BY " +:+ py_join "," o] end) ++
     (match truthy_number (or_number offset (q_offset q)) with Some n => ["SKIP " +:+ pretty n] | None => [] end) ++
     (match truthy_number (or_number limit (q_limit q)) with Some n => ["LIMIT " +:+ pretty n] | None => [] end)).

Section query.
Context (memgraph : bool) (ujson_dumps : json → string).

Definition get_params_for_shell (q : Query) : string :=
  if memgraph then ujson_dumps (JDict (q_params q)) else _get_params_for_neo4j_shell (q_params q).
Definition get_query (var inline : bool) (limit offset : option Z) (q : Query) : string :=
  let query_str := get_query_text limit offset q in
  match var, inline with
  | true, false => newline +:+ get_params_for_shell q +:+ newline +:+ newline +:+ query_str
  | true, true => insert_variables_in_query query_str (q_params q)
  | false, _ => query_str
  end.
Definition get_count_query (var : bool) (q : Query) : string :=
  let query_str := py_join newline (q_query_lines q ++ ["RETURN count(*) as count"]) in
  if var then insert_variables_in_query query_str (q_params q) else query_str.
End query.

(** ** Execution *)

(** The answer of the database to a text with its parameters: rows, and the statistics of
    the metadata when it has some.  The first argument is what it executed before. *)
Definition Database : Type :=
  list string → string → list (string * json) → result (list (list Item) * option (option (list (string * json)))).
Record QueryState := mkQueryState {
  the_query : Query;
  executed : list string;
}.
#[export] Instance QueryState_rebuild : Rebuild QueryState := λ s, mkQueryState (the_query s) (executed s).

Section execute.
Context (db : Database) (query_size_limit : Z).

Definition execute_query_with_metadata (query : string) : Exec QueryState (list (list Item) * option (option (list (string * json)))) :=
  s ← get_state;
  _ ← modify (λ s, s <| executed := executed s ++ [query] |>);
  lift (db (executed s) query (q_params (the_query s))).
(** [if "stats" in metadata: self.stats.add(metadata.get("stats"))] *)
Definition record_stats (metadata : option (option (list (string * json)))) : Exec QueryState unit :=
  match metadata with
  | Some stats =>
      s ← get_state;
      stats ← lift (add_stats (q_stats (the_query s)) stats);
      modify (λ s, s <| the_query := (the_query s) <| q_stats := stats |> |>)
  | None => mret tt
  end.

Fixpoint size_limit_loop (fuel : nat) (offset : Z) (results : list (list Item)) : Exec QueryState (list (list Item)) :=
  match fuel with
  | O => raise (RuntimeError "fuel")
  | S fuel =>
      s ← get_state;
      '(offset_results, metadata) ← execute_query_with_metadata (get_query_text (Some query_size_limit) (Some offset) (the_query s));
      _ ← record_stats metadata;
      let results := results ++ offset_results in
      if Z.of_nat (length offset_results) <? query_size_limit then mret results
      else size_limit_loop fuel (offset + query_size_limit) results
  end.
Definition query_with_size_limit (fuel : nat) : Exec QueryState (list (list Item)) := size_limit_loop fuel 0 [].

(** [profile] and [runtime] are prefixes; the runtime is given when it is not the default
    one and the database is Neo4j. *)
Definition query_prefix (profile : bool) (runtime : option string) (query : string) : string :=
  let query := if profile then "PROFILE" +:+ newline +:+ query else query in
  match runtime with Some r => "CYPHER runtime=" +:+ r +:+ newline +:+ query | None => query end.
Definition execute (fuel : nat) (profile : bool) (runtime : option string) : Exec QueryState unit :=
  s ← get_state;
  let q := the_query s in
  let query_str := query_prefix profile runtime (get_query_text None None q) in
  results ←
    (match q_type q with
     | READ => if opt_is_some (truthy_number (q_limit q)) || opt_is_some (truthy_number (q_offset q))
               then '(results, _) ← execute_query_with_metadata query_str; mret results
               else query_with_size_limit fuel
     | WRITE => '(results, metadata) ← execute_query_with_metadata query_str; _ ← record_stats metadata; mret results
     end);
  _ ← (match results with
       | [] => if q_raise_error_if_empty q then raise (QueryError query_str) else mret tt
       | _ => mret tt
       end);
  results ← lift (mapM (new_result (q_return_labels q)) results);
  modify (λ s, s <| the_query := (the_query s) <| q_results := results |> <| q_has_been_executed := true |> |>).

(** [results[0][0]], for a query that is read *)
Definition count : Exec QueryState Item :=
  s ← get_state;
  let q := the_query s in
  match q_type q with
  | WRITE => raise (TypeError "Unable to count the number of response on a Write query.")
  | READ =>
      '(results, _) ← execute_query_with_metadata (get_count_query false q);
      _ ← (match results with [] => if q_raise_error_if_empty q then raise (QueryError (get_count_query false q)) else mret tt | _ => mret tt end);
      lift (require IndexError (row ← head results; head row))
  end.
End execute.

(** ** Reading the results *)

(** [sorted(l, key=key, reverse=True)]: stable too. *)
Definition py_sorted_rev {A K} `{PyOrd K} (key : A → K) (l : list A) : list A := reverse (py_sorted_by key (reverse l)).

Definition get_results (q : Query) : list QueryResult := py_sorted_rev branch_score (q_results q).
Definition num_of_results (q : Query) : result nat :=
  if q_has_been_executed q then Ok (length (filter (λ r, has_deleted_rels r = false) (q_results q)))
  else Err (ValueError "The query hasn't been executed yet").
Definition get_result (q : Query) : result (option QueryResult) :=
  if q_has_been_executed q then
    n ← num_of_results q;
    if bool_decide (n = 1%nat) then Ok (head (q_results q)) else Ok (head (get_results q))
  else Ok None.

(** The hash of Python: a boolean is an integer; a list or a dict has none. *)
Definition hash_key (v : json) : result json :=
  match v with JBool b => Ok (JInt (if b then 1 else 0)) | JList _ | JDict _ => Err (TypeError "unhashable type") | v => Ok v end.
(** [getattr(node, attribute)], or [node.get(attribute, None)], where the attribute is not the
    name of a method of a dictionary. *)
Definition item_attribute (i : Item) (attribute : string) : result json :=
  match i with
  | IValue (JDict d) => Ok (default JNull (dict_get d attribute))
  | INode e | IRel e => Ok (match dict_get (en_attrs e) attribute with Some v => v | None => prop e attribute end)
  | IList _ | IValue _ => Err (AttributeError "get")
  end.
Definition identifier (args : list (string * string)) (r : QueryResult) : result (list json) :=
  values ← mapM (λ '(label, attribute), node ← get_item r label; item_attribute node attribute) args;
  mapM hash_key values.
Definition result_rank (r : QueryResult) : Z * Z * Z := (branch_score r, time_score r, if has_deleted_rels r then 1 else 0).
(** The row that stands for its group, unless it is deleted. *)
Definition best_result (values : list QueryResult) : option QueryResult :=
  best ← head (py_sorted_rev result_rank values); if has_deleted_rels best then None else Some best.
Definition get_results_group_by (args : list (string * string)) (q : Query) : result (list QueryResult) :=
  attrs_info ← foldM (λ d r, key ← identifier args r; Ok (dict_append d key r)) [] (q_results q);
  Ok (omap best_result (dict_values attrs_info)).
