(* ===== verification/QueryFacts.v ===== *)
(** * Facts on queries

    The theorems on [Query]: an execution by pages returns the rows of its pages, the rows of several
    branches are reduced to the most specific one of each group, and behaviours of the
    results that differ from what their names announce. *)

From stdpp Require Import prelude strings sorting.
From S2P Require Import Prelude PyString PyDict SdkUtils HashModel Query.

#[local] Open Scope Z_scope.

(** ** Execution by pages *)

Section pages.
Context (db : Database) (lim : nat) (q : Query) (replies : nat → result (list (list Item))).

(** The text of the page [n]: it skips [n * lim] rows and reads at most [lim] ones. *)
Definition page_text (n : nat) : string := get_query_text (Some (Z.of_nat lim)) (Some (Z.of_nat (n * lim))) q.
Definition page_texts (n : nat) : list string := page_text <$> seq 0 n.
(** [replies n] is what the database answers to the page [n] once it has executed the ones
    before it: a failure or rows (the metadata of a query that reads has no statistics). *)
Definition replies_to (calls : list string) (n : nat) : Prop :=
  db (calls ++ page_texts n) (page_text n) (q_params q) = (rows ← replies n; Ok (rows, None)).
(** The page [n] is not the last one. *)
Definition full_page (n : nat) : Prop := ∃ rows, replies n = Ok rows ∧ (lim ≤ length rows)%nat.
(** The first page that fails or is not full *)
Definition last_page (n : nat) : Prop := (∀ m, (m < n)%nat → full_page m) ∧ ¬ full_page n.
Definition pages (n : nat) : result (list (list Item)) := (λ pages, concat pages) <$> mapM replies (seq 0 (S n)).

#[local] Arguments page_texts : simpl never.
Lemma page_texts_S n : page_texts (S n) = page_texts n ++ [page_text n].
Proof. unfold page_texts. by rewrite seq_S, fmap_app. Qed.
Lemma page_run n calls : replies_to calls n →
  execute_query_with_metadata db (page_text n) (mkQueryState q (calls ++ page_texts n)) =
  ((rows ← replies n; Ok (rows, None)), mkQueryState q (calls ++ page_texts (S n))).
Proof.
  intros Hdb. rewrite page_texts_S, app_assoc. unfold execute_query_with_metadata. do 2 erewrite exec_step by reflexivity.
  unfold lift. cbn. rewrite Hdb. by destruct (replies n).
Qed.

(** The loop, from the page [n] on *)
Lemma loop_spec N n fuel calls rows :
  (∀ m, (m ≤ N)%nat → replies_to calls m) → last_page N → (n ≤ N)%nat → (N < n + fuel)%nat →
  size_limit_loop db (Z.of_nat lim) fuel (Z.of_nat (n * lim)) rows (mkQueryState q (calls ++ page_texts n)) =
  ((rest ← mapM replies (seq n (S N - n)); Ok (rows ++ concat rest)), mkQueryState q (calls ++ page_texts (S N))).
Proof.
  intros Hdb [Hfull Hlast]. revert n rows. induction fuel as [|fuel IH]; intros n rows Hn Hfuel; [lia|].
  cbn [size_limit_loop]. erewrite exec_step by reflexivity. cbn [the_query].
  replace (S N - n)%nat with (S (N - n)) by lia. cbn [seq mapM].
  pose proof (page_run n calls (Hdb n Hn)) as Hrun. destruct (decide (n = N)) as [-> |Hne].
  - replace (N - N)%nat with 0%nat by lia. destruct (replies N) as [page|e] eqn:Hpage; cbn in Hrun |- *.
    + erewrite exec_step by exact Hrun. cbn [record_stats]. erewrite exec_step by reflexivity.
      destruct (Z.ltb_spec (Z.of_nat (length page)) (Z.of_nat lim)); [by rewrite app_nil_r|].
      destruct Hlast. exists page. split; [done|lia].
    + fold (page_text N). unfold mbind, exec_bind. by rewrite Hrun.
  - destruct (Hfull n ltac:(lia)) as (page & Hpage & Hlen). rewrite Hpage in Hrun |- *. cbn in Hrun |- *.
    erewrite exec_step by exact Hrun. cbn [record_stats]. erewrite exec_step by reflexivity.
    destruct (Z.ltb_spec (Z.of_nat (length page)) (Z.of_nat lim)); [lia|].
    replace (Z.of_nat (n * lim) + Z.of_nat lim) with (Z.of_nat (S n * lim)) by lia. rewrite IH by lia.
    replace (S N - S n)%nat with (N - n)%nat by lia. destruct (mapM replies (seq (S n) (N - n))); cbn; [|done]. by rewrite app_assoc.
Qed.

(** Pages that are slices of one list of rows *)
Lemma slices_concat N rows : (1 ≤ lim)%nat → last_page N →
  (∀ n, (n ≤ N)%nat → replies n = Ok (take lim (drop (n * lim) rows))) → pages N = Ok rows ∧ N = (length rows / lim)%nat.
Proof.
  intros Hlim [Hfull Hlast] Hrows.
  assert (length rows < S N * lim)%nat as Hend.
  { destruct (decide (length rows < S N * lim)%nat) as [|Hge]; [done|]. destruct Hlast. eexists. split; [by apply Hrows|].
    rewrite length_take, length_drop. lia. }
  assert (N * lim ≤ length rows)%nat as Hstart.
  { destruct N as [|N]; [lia|]. destruct (Hfull N ltac:(lia)) as (page & Hpage & Hlen). rewrite Hrows in Hpage by lia. injection Hpage as <-.
    rewrite length_take, length_drop in Hlen. lia. }
  split; [|apply (Nat.div_unique _ _ _ (length rows - N * lim)); lia].
  assert (∀ n, (n ≤ S N)%nat → mapM replies (seq 0 n) = Ok ((λ n, take lim (drop (n * lim) rows)) <$> seq 0 n)) as Hm.
  { intros n Hn. assert (∀ l, (∀ m, m ∈ l → (m ≤ N)%nat) → mapM replies l = Ok ((λ n, take lim (drop (n * lim) rows)) <$> l)) as Hl.
    { induction l as [|m l IH]; intros Hin; [done|]. cbn. rewrite Hrows by (apply Hin; left). cbn. rewrite IH; [done|]. intros; apply Hin. by right. }
    apply Hl. intros m ?%elem_of_seq. lia. }
  unfold pages. rewrite Hm by lia. cbn [fmap result_fmap]. f_equal.
  assert (∀ n, concat ((λ n, take lim (drop (n * lim) rows)) <$> seq 0 n) = take (n * lim) rows) as Hc.
  { induction n as [|n IH]; [done|]. rewrite seq_S, fmap_app, concat_app, IH. cbn [fmap list_fmap concat]. rewrite app_nil_r, take_take_drop. f_equal. lia. }
  rewrite Hc. by apply take_ge; lia.
Qed.
End pages.


(** ** Groups of rows *)

(** The order of the rows of a group: the score of their branches, then the one of their
    periods, and a deleted row after one that is not. *)
Definition rank_le (r b : QueryResult) : Prop :=
  branch_score r < branch_score b ∨
  (branch_score r = branch_score b ∧
   (time_score r < time_score b ∨ (time_score r = time_score b ∧ (has_deleted_rels r = true → has_deleted_rels b = true)))).
Lemma lex_le (a b c a' b' c' : Z) : pair_le (a, b, c) (a', b', c') ↔ a < a' ∨ (a = a' ∧ (b < b' ∨ (b = b' ∧ c ≤ c'))).
Proof. unfold pair_le, py_le, pair_ord, pair_le, py_le, Z_ord. cbn. rewrite pair_equal_spec. lia. Qed.
Lemma rank_le_spec r b : key_le result_rank r b ↔ rank_le r b.
Proof.
  unfold key_le, result_rank, rank_le. etransitivity; [apply lex_le|]. destruct (has_deleted_rels r), (has_deleted_rels b); naive_solver lia.
Qed.

(** The first of a list sorted in reverse is the greatest. *)
Lemma sorted_rev_perm {A K} `{PyOrd K} (key : A → K) l : py_sorted_rev key l ≡ₚ l.
Proof. unfold py_sorted_rev. by rewrite !reverse_Permutation, py_sorted_by_perm, reverse_Permutation. Qed.
Lemma sorted_rev_head {A K} `{PyOrd K} (key : A → K) l b :
  head (py_sorted_rev key l) = Some b → b ∈ l ∧ ∀ r, r ∈ l → key_le key r b.
Proof.
  intros Hb. destruct (py_sorted_rev key l) as [|b' rest] eqn:Hs; [done|]. injection Hb as ->. split.
  - rewrite <-(sorted_rev_perm key l), Hs. left.
  - intros r Hr. rewrite <-(sorted_rev_perm key l), Hs in Hr. apply elem_of_cons in Hr as [-> |Hr]; [destruct (total py_le (key b) (key b)); done|].
    unfold py_sorted_rev in Hs. apply (f_equal reverse) in Hs. rewrite reverse_involutive, reverse_cons in Hs.
    pose proof (py_sorted_by_sorted key (reverse l)) as Hsorted. rewrite Hs in Hsorted.
    eapply StronglySorted_app_1_elem_of; [exact Hsorted|by rewrite elem_of_reverse|by apply list_elem_of_singleton].
Qed.

(** A group without row has no best one; the best row of a group is not deleted. *)
Lemma best_result_spec values : values ≠ [] →
  ∃ b, b ∈ values ∧ (∀ r, r ∈ values → rank_le r b) ∧ best_result values = (if has_deleted_rels b then None else Some b).
Proof.
  intros Hne. unfold best_result. destruct (head (py_sorted_rev result_rank values)) as [b|] eqn:Hh.
  - destruct (sorted_rev_head _ _ _ Hh) as [Hin Hmax]. exists b. split_and!; [done| |done]. intros r Hr. by apply rank_le_spec, Hmax.
  - destruct (py_sorted_rev result_rank values) eqn:Hs; [|done]. pose proof (sorted_rev_perm result_rank values) as Hp.
    rewrite Hs in Hp. apply Permutation_nil_l in Hp. done.
Qed.

Section group.
Context (args : list (string * string)).
#[local] Abbreviation ident := (identifier args).

Definition add_to_group (d : list (list json * list QueryResult)) (r : QueryResult) : result (list (list json * list QueryResult)) :=
  key ← ident r; Ok (dict_append d key r).
Definition group_of (results : list QueryResult) (key : list json) : list QueryResult := filter (λ r, ident r = Ok key) results.

(** The dictionary holds every group that has a row. *)
Lemma groups_spec results :
  match foldM add_to_group [] results with
  | Ok d => NoDup (dict_keys d) ∧ (∀ r, r ∈ results → is_ok (ident r) = true) ∧
            ∀ key, dict_get d key = (match group_of results key with [] => None | g => Some g end)
  | Err e => ∃ r, r ∈ results ∧ ident r = Err e
  end.
Proof.
  induction results as [|r results IH] using rev_ind.
  { cbn. split_and!; [constructor|by intros r ?%elem_of_nil|done]. }
  rewrite foldM_app. destruct (foldM add_to_group [] results) as [d|e]; cbn [mbind result_bind].
  2: { destruct IH as (x & Hx & He). exists x. split; [apply elem_of_app; by left|done]. }
  destruct IH as (Hnd & Hok & Hget). cbn [foldM]. unfold add_to_group. destruct (ident r) as [key|e] eqn:Hr; cbn.
  2: { exists r. split; [apply elem_of_app; right; left|done]. }
  split_and!.
  - by apply NoDup_dict_set.
  - intros x [Hx|Hx]%elem_of_app; [by apply Hok|]. apply list_elem_of_singleton in Hx as ->. by rewrite Hr.
  - intros key'. unfold dict_append. rewrite dict_get_set. unfold group_of. rewrite filter_app, filter_cons, filter_nil.
    rewrite Hget. unfold group_of. destruct (decide (key' = key)) as [-> |Hne].
    + rewrite !decide_True by done. by destruct (filter _ results).
    + rewrite !decide_False by congruence. by rewrite app_nil_r, Hget.
Qed.

Lemma elem_of_group results key r : r ∈ group_of results key ↔ r ∈ results ∧ ident r = Ok key.
Proof. unfold group_of. rewrite list_elem_of_filter. naive_solver. Qed.
Lemma best_in values b : best_result values = Some b → b ∈ values.
Proof.
  intros Hb. assert (values ≠ []) as Hne by by intros ->. destruct (best_result_spec values Hne) as (b' & Hin & _ & Heq).
  rewrite Heq in Hb. destruct (has_deleted_rels b'); congruence.
Qed.
(** One row at most for each group. *)
Lemma best_NoDup (d : list (list json * list QueryResult)) :
  NoDup (dict_keys d) → (∀ k g r, (k, g) ∈ d → r ∈ g → ident r = Ok k) → NoDup (ident <$> omap best_result (dict_values d)).
Proof.
  unfold dict_keys, dict_values. induction d as [|[k g] d IH]; cbn; [constructor|]. intros [Hk Hnd]%NoDup_cons Hd.
  assert (NoDup (ident <$> omap best_result d.*2)) as Hrest by (apply IH; [done|]; intros k' g' r Hin; apply Hd; by right).
  destruct (best_result g) as [b|] eqn:Hb; [|done]. cbn. apply NoDup_cons. split; [|done].
  intros (x & Heq & (g' & Hg' & Hx)%list_elem_of_omap)%list_elem_of_fmap. apply list_elem_of_fmap in Hg' as ([k' g''] & -> & Hin).
  apply Hk, list_elem_of_fmap. exists (k', g''). split; [|done]. cbn.
  assert (ident b = Ok k) as H1 by (apply (Hd k g); [left|by apply best_in]).
  assert (ident x = Ok k') as H2 by (apply (Hd k' g''); [by right|by apply best_in]). congruence.
Qed.

(** C17: The rows of a query reduced by group: one row at most for each value of the
    identifier, the one with the most specific branches, then with the most recent periods;
    a group is left out exactly when that row is deleted.  It raises exactly when the
    identifier of a row does. *)
Theorem group_by_spec q :
  match get_results_group_by args q with
  | Err e => ∃ r, r ∈ q_results q ∧ ident r = Err e
  | Ok out =>
      NoDup (ident <$> out) ∧
      (∀ r, r ∈ q_results q → ∃ b, b ∈ q_results q ∧ ident b = ident r ∧
         (∀ r', r' ∈ q_results q → ident r' = ident r → rank_le r' b) ∧
         (if has_deleted_rels b then ∀ x, x ∈ out → ident x ≠ ident r else b ∈ out)) ∧
      (∀ b, b ∈ out → b ∈ q_results q ∧ has_deleted_rels b = false ∧ ∀ r, r ∈ q_results q → ident r = ident b → rank_le r b)
  end.
Proof.
  unfold get_results_group_by. change (foldM _ [] (q_results q)) with (foldM add_to_group [] (q_results q)).
  pose proof (groups_spec (q_results q)) as Hg. destruct (foldM add_to_group [] (q_results q)) as [d|e]; cbn [mbind result_bind]; [|done].
  destruct Hg as (Hnd & Hok & Hget).
  assert (∀ k g, (k, g) ∈ d ↔ g = group_of (q_results q) k ∧ g ≠ []) as Hin.
  { intros k g. split.
    - intros Hk%(dict_get_in _ _ _ Hnd). rewrite Hget in Hk. by destruct (group_of (q_results q) k); simplify_eq.
    - intros [-> Hne]. apply dict_get_Some_in. rewrite Hget. by destruct (group_of (q_results q) k). }
  assert (∀ b, b ∈ omap best_result (dict_values d) ↔ ∃ k, best_result (group_of (q_results q) k) = Some b) as Hout.
  { intros b. rewrite list_elem_of_omap. unfold dict_values. setoid_rewrite list_elem_of_fmap. split.
    - intros (g & ([k g'] & -> & [-> _]%Hin) & Hb). by exists k.
    - intros (k & Hb). exists (group_of (q_results q) k). split; [|done]. exists (k, group_of (q_results q) k). split; [done|].
      apply Hin. split; [done|]. intros Hnil. by rewrite Hnil in Hb. }
  assert (∀ b k, best_result (group_of (q_results q) k) = Some b → b ∈ q_results q ∧ ident b = Ok k) as Hbest.
  { intros b k Hb%best_in. by apply elem_of_group in Hb. }
  split_and!.
  - apply best_NoDup; [done|]. intros k g r [-> _]%Hin [_ Hr]%elem_of_group. exact Hr.
  - intros r Hr. specialize (Hok r Hr). destruct (ident r) as [k|] eqn:Hk; [|done].
    assert (group_of (q_results q) k ≠ []) as Hne by (intros Hnil; eapply not_elem_of_nil; rewrite <-Hnil; by apply elem_of_group).
    destruct (best_result_spec _ Hne) as (b & [Hb Hbk]%elem_of_group & Hmax & Heq). exists b. split_and!; [done|done| |].
    + intros r' Hr' Hk'. apply Hmax. by apply elem_of_group.
    + destruct (has_deleted_rels b) eqn:Hd; [|by apply Hout; exists k]. intros x [k' Hx]%Hout Hxk.
      destruct (Hbest _ _ Hx). congruence.
  - intros b [k Hb]%Hout. destruct (Hbest _ _ Hb) as [Hbin Hbk]. split; [done|].
    assert (group_of (q_results q) k ≠ []) as Hne by (intros Hnil; by rewrite Hnil in Hb).
    destruct (best_result_spec _ Hne) as (b' & _ & Hmax & Heq). rewrite Hb in Heq. destruct (has_deleted_rels b') eqn:Hd; [done|].
    injection Heq as ->. split; [done|]. intros r Hr Hrk. apply Hmax, elem_of_group. split; [done|congruence].
Qed.
End group.

(** ** Witness and examples *)

Definition demo_query : Query :=
  mkQuery "demo" READ false true None None [] [("branch", JStr "main")] ["MATCH (n)"] ["n"] [] false [].
Definition row_of (name branch status : string) (level : Z) : list Item :=
  [INode (mkEntity [] [("uuid", JStr name)]);
   IRel (mkEntity [] [("branch", JStr branch); ("branch_level", JInt level); ("status", JStr status); ("to", JNull)])].
Definition demo_rows : list (list Item) :=
  [row_of "n1" "main" "active" 1; row_of "n2" "main" "active" 1; row_of "n1" "branch1" "deleted" 2].
(** A database of three rows, that only knows the pages of two rows. *)
Definition demo_replies (n : nat) : result (list (list Item)) := Ok (take 2 (drop (n * 2) demo_rows)).
Definition demo_db : Database := λ _ text _,
  match list_find (λ n, text = page_text 2 demo_query n) (seq 0 2) with
  | Some (_, n) => rows ← demo_replies n; Ok (rows, None)
  | None => Ok ([], None)
  end.


(** The pages of a query without order are not slices of one list: the database may answer
    each page from another order of the rows, and a row is then read twice and another never. *)
Definition row_a : list Item := row_of "a" "main" "active" 1.
Definition row_b : list Item := row_of "b" "main" "active" 1.
Definition unordered_db : Database := λ _ text _,
  Ok (if decide (text = page_text 1 demo_query 0) then [row_a]
      else if decide (text = page_text 1 demo_query 1) then take 1 (drop 1 [row_b; row_a]) else [], None).
Theorem unordered_pages_lose_rows :
  q_order_by demo_query = [] ∧
  ∃ s, execute unordered_db 1 3 false None (mkQueryState demo_query []) = (Ok tt, s) ∧
    mapM (new_result ["n"]) [row_a; row_a] = Ok (q_results (the_query s)).
Proof. split; [done|]. eexists. split; by vm_compute. Qed.

(** The only row that is not deleted is not the one that [get_result] returns. *)
Theorem get_result_deleted :
  ∃ results deleted active, mapM (new_result ["n"]) [row_of "n1" "branch1" "deleted" 2; row_of "n2" "main" "active" 1] = Ok results ∧
    results = [deleted; active] ∧ has_deleted_rels deleted = true ∧ has_deleted_rels active = false ∧
    get_result (demo_query <| q_results := results |> <| q_has_been_executed := true |>) = Ok (Some deleted).
Proof. eexists _, _, _. split; [reflexivity|]. by split_and!. Qed.

(** A counter that the database leaves out, since it is zero, cannot be read. *)
Theorem absent_counter_raises :
  ∃ stats, add_stats [] (Some [("contains-updates", JBool true); ("properties-set", JInt 3)]) = Ok stats ∧
    get_counter stats "nodes_created" = Err (TypeError "unsupported operand type(s) for +=").
Proof. eexists. by split. Qed.

(** A variable whose name starts with another one is replaced by the value of the latter. *)
Theorem variable_prefix_replaced :
  insert_variables_in_query "r.branch_level <= $branch_level" [("branch", JStr "main"); ("branch_level", JInt 1)] =
  "r.branch_level <= " +:+ quoted "main" +:+ "_level".
Proof. by vm_compute. Qed.
