(* ===== verification/Graph.v ===== *)
(** * The graph database

    The relationships ("edges") of the graph with the branch and the period each
    is valid for, and the queries of [backend/infrahub/core/utils.py],
    [core/query/branch.py] and [core/query/node.py] that the branch operations
    execute.  The second part is the fragment of Cypher in which the branches
    write their query filters, with its three-valued evaluation.

    A timestamp is the instant it denotes, an integer; the ids of the database are
    natural numbers. *)

From stdpp Require Import prelude strings.
From S2P Require Import Prelude PyString PyDict Constants.

(** ** Nodes and edges *)

Record Edge := mkEdge {
  edge_id : nat;
  edge_type : string;
  edge_src : nat;
  edge_dst : nat;
  edge_branch : string;
  edge_branch_level : Z;
  edge_status : RelationshipStatus;
  edge_from : Z;
  edge_to : option Z;
  edge_conflict : option string;
}.
#[export] Instance Edge_rebuild : Rebuild Edge := λ e,
  mkEdge (edge_id e) (edge_type e) (edge_src e) (edge_dst e) (edge_branch e) (edge_branch_level e)
    (edge_status e) (edge_from e) (edge_to e) (edge_conflict e).
#[export] Instance Edge_eq_dec : EqDecision Edge.
Proof. solve_decision. Defined.

(** A vertex: its database id, its label and its uuid when it has one. *)
Record Vertex := mkVertex {
  vertex_id : nat;
  vertex_is_root : bool;
  vertex_uuid : option string;
}.

Record Graph := mkGraph {
  vertices : list Vertex;
  edges : list Edge;
  next_id : nat;
}.
#[export] Instance Graph_rebuild : Rebuild Graph := λ g, mkGraph (vertices g) (edges g) (next_id g).

(** The edge is valid at the instant [t]. *)
Definition valid_at (e : Edge) (t : Z) : bool :=
  bool_decide (edge_from e ≤ t)%Z &&
  match edge_to e with None => true | Some u => bool_decide (t ≤ u)%Z end.

(** ** Queries *)

Definition has_vertex (g : Graph) (v : nat) : bool :=
  bool_decide (v ∈ vertex_id <$> vertices g).

(** [CREATE (s)-[r:TYPE {...}]->(d)], when both ends match. *)
Definition create_edge (g : Graph) (rel_type : string) (src dst : nat) (branch : string)
    (level : Z) (status : RelationshipStatus) (at_ : Z) : Graph :=
  if has_vertex g src && has_vertex g dst
  then mkGraph (vertices g)
         (edges g ++ [mkEdge (next_id g) rel_type src dst branch level status at_ None None])
         (S (next_id g))
  else g.

(** [add_relationship] of [core/utils.py] *)
Definition add_relationship (default_branch : string) (src_node_id dst_node_id : nat) (rel_type : string)
    (branch_name : option string) (branch_level : option Z) (at_ : Z) (status : RelationshipStatus)
    (g : Graph) : Graph :=
  create_edge g (py_upper rel_type) src_node_id dst_node_id
    (match branch_name with Some (String c b) => String c b | _ => default_branch end)
    (match branch_level with Some l => if decide (l = 0)%Z then 1%Z else l | None => 1%Z end)
    status at_.

(** [update_relationships_to] *)
Definition update_relationships_to (ids : list nat) (to : Z) (g : Graph) : Graph :=
  g <| edges := (λ e, if decide (edge_id e ∈ ids) then e <| edge_to := Some to |> else e) <$> edges g |>.

(** [AddNodeToBranch]: an edge to the root, for every root *)
Definition add_node_to_branch (node_id : nat) (branch : string) (level : Z) (at_ : Z) (g : Graph) : Graph :=
  foldl (λ g root, create_edge g "IS_PART_OF" node_id (vertex_id root) branch level
                     RelationshipStatus.ACTIVE at_)
    g (filter (λ v, vertex_is_root v) (vertices g)).

(** [NodeDeleteQuery]: a deleted edge to the root for the nodes of this uuid *)
Definition node_delete (uuid : string) (branch : string) (level : Z) (at_ : Z) (g : Graph) : Graph :=
  foldl (λ g v,
      foldl (λ g root, create_edge g "IS_PART_OF" (vertex_id v) (vertex_id root) branch level
                         RelationshipStatus.DELETED at_)
        g (filter (λ v, vertex_is_root v) (vertices g)))
    g (filter (λ v, vertex_uuid v = Some uuid) (vertices g)).

(** [DELETE r], and with Neo4j the vertices of the deleted edges that are left
    without any edge. *)
Definition touches (v : nat) (e : Edge) : bool :=
  bool_decide (edge_src e = v) || bool_decide (edge_dst e = v).
Definition delete_edges (memgraph : bool) (test : Edge → bool) (g : Graph) : Graph :=
  let deleted := filter (λ e, test e) (edges g) in
  let kept := filter (λ e, negb (test e)) (edges g) in
  let orphan v := existsb (touches (vertex_id v)) deleted && negb (existsb (touches (vertex_id v)) kept) in
  mkGraph (if memgraph then vertices g else filter (λ v, negb (orphan v)) (vertices g)) kept (next_id g).

(** [DeleteBranchRelationshipsQuery] *)
Definition delete_branch_relationships (memgraph : bool) (branch_name : string) (g : Graph) : Graph :=
  delete_edges memgraph (λ e, bool_decide (edge_branch e = branch_name)) g.
(** [GetAllBranchInternalRelationshipQuery] *)
Definition get_internal_relationships (branch_name : string) (g : Graph) : list Edge :=
  filter (λ e, edge_branch e = branch_name) (edges g).
(** [RebaseBranchUpdateRelationshipQuery] *)
Definition rebase_branch_update (ids : list nat) (at_ : Z) (g : Graph) : Graph :=
  g <| edges := (λ e, if decide (edge_id e ∈ ids)
                      then e <| edge_from := at_ |> <| edge_conflict := None |> else e) <$> edges g |>.
(** [RebaseBranchDeleteRelationshipQuery] *)
Definition rebase_branch_delete (memgraph : bool) (ids : list nat) (g : Graph) : Graph :=
  delete_edges memgraph (λ e, bool_decide (edge_id e ∈ ids)) g.

(** The ids of the edges are distinct and below the next id. *)
Record graph_wf (g : Graph) : Prop := {
  ids_unique : NoDup (edge_id <$> edges g);
  ids_bound : ∀ e, e ∈ edges g → edge_id e < next_id g;
}.

(** ** Filters *)

Inductive value :=
  | VNull
  | VTime (t : Z)
  | VName (s : string)
  | VNames (l : list string).

(** A property of a named relationship, or a parameter. *)
Inductive term :=
  | TProp (rel prop : string)
  | TParam (name : string).

(** The separator of a conjunction or disjunction is part of its text. *)
Inductive cypher :=
  | CIn (a b : term)
  | CEq (a b : term)
  | CLe (a b : term)
  | CGe (a b : term)
  | CIsNull (a : term)
  | CAnd (sep : string) (l : list cypher)
  | COr (sep : string) (l : list cypher)
  | CParen (e : cypher).

Definition render_term (t : term) : string :=
  match t with TProp rel prop => rel +:+ "." +:+ prop | TParam name => "$" +:+ name end.

Fixpoint render (e : cypher) : string :=
  match e with
  | CIn a b => render_term a +:+ " IN " +:+ render_term b
  | CEq a b => render_term a +:+ " = " +:+ render_term b
  | CLe a b => render_term a +:+ " <= " +:+ render_term b
  | CGe a b => render_term a +:+ " >= " +:+ render_term b
  | CIsNull a => render_term a +:+ " IS NULL"
  | CAnd sep l | COr sep l => py_join sep (render <$> l)
  | CParen e => "(" +:+ render e +:+ ")"
  end.

Definition Params : Type := list (string * value).

(** The value of a term for the relationships bound by [rels]; a missing
    parameter or an unknown property is null. *)
Definition edge_property (e : Edge) (prop : string) : value :=
  if decide (prop = "branch") then VName (edge_branch e)
  else if decide (prop = "from") then VTime (edge_from e)
  else if decide (prop = "to") then match edge_to e with Some t => VTime t | None => VNull end
  else VNull.
Definition eval_term (rels : string → Edge) (params : Params) (t : term) : value :=
  match t with
  | TProp rel prop => edge_property (rels rel) prop
  | TParam name => default VNull (dict_get params name)
  end.

(** Three-valued logic: [None] is the unknown. *)
Definition and3 (a b : option bool) : option bool :=
  match a, b with
  | Some false, _ | _, Some false => Some false
  | Some true, Some true => Some true
  | _, _ => None
  end.
Definition or3 (a b : option bool) : option bool :=
  match a, b with
  | Some true, _ | _, Some true => Some true
  | Some false, Some false => Some false
  | _, _ => None
  end.

Definition le3 (a b : value) : option bool :=
  match a, b with VTime x, VTime y => Some (bool_decide (x ≤ y)%Z) | _, _ => None end.
Definition eq3 (a b : value) : option bool :=
  match a, b with VName x, VName y => Some (bool_decide (x = y)) | _, _ => None end.
Definition in3 (a b : value) : option bool :=
  match a, b with VName x, VNames l => Some (bool_decide (x ∈ l)) | _, _ => None end.
Definition is_null (a : value) : bool := match a with VNull => true | _ => false end.

Fixpoint eval (rels : string → Edge) (params : Params) (e : cypher) : option bool :=
  match e with
  | CIn a b => in3 (eval_term rels params a) (eval_term rels params b)
  | CEq a b => eq3 (eval_term rels params a) (eval_term rels params b)
  | CLe a b => le3 (eval_term rels params a) (eval_term rels params b)
  | CGe a b => le3 (eval_term rels params b) (eval_term rels params a)
  | CIsNull a => Some (is_null (eval_term rels params a))
  | CAnd _ l => foldr (λ e acc, and3 (eval rels params e) acc) (Some true) l
  | COr _ l => foldr (λ e acc, or3 (eval rels params e) acc) (Some false) l
  | CParen e => eval rels params e
  end.

(** A row passes a [WHERE] when the filter is true, not when it is unknown. *)
Definition passes (rels : string → Edge) (params : Params) (e : cypher) : Prop :=
  eval rels params e = Some true.

(** *** Lemmas *)

Lemma and3_true a b : and3 a b = Some true ↔ a = Some true ∧ b = Some true.
Proof. destruct a as [[]|], b as [[]|]; cbn; naive_solver. Qed.
Lemma or3_true a b : or3 a b = Some true ↔ a = Some true ∨ b = Some true.
Proof. destruct a as [[]|], b as [[]|]; cbn; naive_solver. Qed.

Lemma passes_and rels params sep l :
  passes rels params (CAnd sep l) ↔ Forall (passes rels params) l.
Proof.
  unfold passes. induction l as [|e l IH]; [by split|]. cbn in *. rewrite and3_true, IH, Forall_cons. done.
Qed.
Lemma passes_or rels params sep l :
  passes rels params (COr sep l) ↔ Exists (passes rels params) l.
Proof.
  unfold passes. induction l as [|e l IH]; cbn in *; [rewrite Exists_nil; naive_solver|].
  rewrite or3_true, IH, Exists_cons. done.
Qed.
Lemma passes_paren rels params e : passes rels params (CParen e) ↔ passes rels params e.
Proof. done. Qed.
