(* ===== verification/Branch.v ===== *)
(** * Branches of the graph

    [backend/infrahub/core/branch.py]: a branch sees its own edges and those of
    its origin, the latter as they were when it was created if it is isolated.
    The file has the periods a query uses, the Cypher filters built from them,
    and the operations [delete] and [rebase]. *)

From Stdlib Require Import Ascii.
From stdpp Require Import prelude strings gmap pretty.
From S2P Require Import Prelude PyString PyDict Constants Md5 SchemaStore SchemaUpdate Graph.

(** ** State *)

(** The timestamps are set by the validators of the class ([set_branched_from],
    [set_created_at]): they always have a value. *)
Record Branch := mkBranch {
  b_name : string;
  b_status : string;
  b_description : string;
  b_origin_branch : string;
  b_branched_from : Z;
  b_hierarchy_level : Z;
  b_created_at : Z;
  b_is_default : bool;
  b_is_global : bool;
  b_is_protected : bool;
  b_sync_with_git : bool;
  b_is_isolated : bool;
  b_schema_changed_at : option Z;
  b_schema_hash : option SchemaBranchHash;
}.
#[export] Instance Branch_rebuild : Rebuild Branch := λ b,
  mkBranch (b_name b) (b_status b) (b_description b) (b_origin_branch b) (b_branched_from b)
    (b_hierarchy_level b) (b_created_at b) (b_is_default b) (b_is_global b) (b_is_protected b)
    (b_sync_with_git b) (b_is_isolated b) (b_schema_changed_at b) (b_schema_hash b).

(** [Timestamp(at)]: the current time when there is none. *)
Definition Timestamp (now : Z) (at_ : option Z) : Z := default now at_.

(** [Branch(name=name)] with the defaults of the other fields, at the time [now]. *)
Definition new_branch (now : Z) (name : string) : Branch :=
  mkBranch name "OPEN" "" "main" now 2 now false false false true true None None.

(** ** Names *)

(** [re.search(p + "$", s)]: a final line feed is ignored. *)
Fixpoint endswith (s p : string) : bool :=
  bool_decide (s = p) || match s with EmptyString => false | String _ s' => endswith s' p end.
Definition line_feed : string := String "010"%char "".
Definition ends_pattern (s p : string) : bool := endswith s p || endswith s (p +:+ line_feed).

Definition any_char (test : ascii → bool) : string → bool :=
  fix go s := match s with EmptyString => false | String c s' => test c || go s' end.
(** [[\000-\037\177 ~^:?*[]] *)
Definition disallowed_char (c : ascii) : bool :=
  let n := nat_of_ascii c in
  (n <=? 31)%nat || (n =? 127)%nat ||
  bool_decide (c ∈ [" "; "~"; "^"; ":"; "?"; "*"; "["]%char).

Definition branch_name_checks (value : string) : list (bool * string) :=
  [(str_contains "/." value, "/.");
   (str_contains ".." value, "..");
   (startswith value "/", "starts with /");
   (str_contains "//" value, "//");
   (str_contains "@{" value, "@{");
   (str_contains "\" value, "backslash (\)");
   (any_char disallowed_char value, "disallowed ASCII characters/patterns");
   (ends_pattern value ".lock", "ends with .lock");
   (ends_pattern value "/", "ends with /");
   (ends_pattern value ".", "ends with .")].

Definition validate_branch_name (value : string) : result string :=
  let offending_patterns := (filter (λ c, c.1 = true) (branch_name_checks value)).*2 in
  if decide (value = GLOBAL_BRANCH_NAME) then Ok value
  else match offending_patterns with
       | [] => Ok value
       | _ :: _ => Err (ValidationError ("Branch name contains invalid patterns or characters: "
                                         +:+ py_join ", " offending_patterns))
       end.

(** ** Registry *)

Definition Registry : Type := list (string * Branch).

Definition get_branch_from_registry (registry : Registry) (default_branch : string) (branch : string) :
    result Branch :=
  let name := if decide (branch = "") then default_branch else branch in
  require (BranchNotFoundError name) (dict_get registry name).

Definition get_origin_branch (registry : Registry) (default_branch : string) (b : Branch) :
    result (option Branch) :=
  if decide (b_origin_branch b = "" ∨ b_origin_branch b = b_name b) then Ok None
  else Some <$> get_branch_from_registry registry default_branch (b_origin_branch b).

Definition active_schema_hash (b : Branch) : result SchemaBranchHash :=
  require (InitializationError "The schema_hash has not been loaded for this branch") (b_schema_hash b).

Definition has_schema_changes (registry : Registry) (default_branch : string) (b : Branch) : result bool :=
  match b_schema_hash b with
  | None => Ok false
  | Some schema_hash =>
      origin_branch ← get_origin_branch registry default_branch b;
      Ok (match origin_branch ≫= b_schema_hash with
          | None => false
          | Some origin_hash => negb (bool_decide (sbh_main schema_hash = sbh_main origin_hash))
          end)
  end.

(** [update_schema_hash]: the branch, and whether its digest changed.
    [latest_schema] is the branch of the schema registry with the same name. *)
Definition update_schema_hash (now : Z) (latest_schema : SchemaBranch) (at_ : option Z) (b : Branch) :
    Branch * bool :=
  let b := b <| b_schema_changed_at := Some (Timestamp now at_) |> in
  let new_hash := get_hash_full latest_schema in
  if bool_decide (sbh_main <$> b_schema_hash b = Some (sbh_main new_hash)) then (b, false)
  else (b <| b_schema_hash := Some new_hash |>, true).

(** ** Periods *)

Definition get_branches_in_scope (default_branch : string) (b : Branch) : list string :=
  if decide (b_name b = default_branch) then [b_name b] else [default_branch; b_name b].

(** Sets of branch names with the time they are read at. *)
Abbreviation BranchTimes := (list (gset string * Z)).

(** The time of the origin branch. *)
Definition time_default_branch (b : Branch) (is_isolated : bool) (at_ : Z) : Z :=
  if b_is_isolated b && is_isolated && bool_decide (b_branched_from b < at_)%Z
  then b_branched_from b else at_.

Definition get_branches_and_times_to_query (now : Z) (b : Branch) (at_ : option Z) : BranchTimes :=
  let t := Timestamp now at_ in
  if b_is_default b then [({[b_name b]}, t)]
  else dict_of_list [({[b_origin_branch b]}, time_default_branch b true t); ({[b_name b]}, t)].

Definition get_branches_and_times_to_query_global (now : Z) (b : Branch) (at_ : option Z)
    (is_isolated : bool) : BranchTimes :=
  let t := Timestamp now at_ in
  if b_is_default b then [({[GLOBAL_BRANCH_NAME; b_name b]}, t)]
  else dict_of_list [({[GLOBAL_BRANCH_NAME; b_origin_branch b]}, time_default_branch b is_isolated t);
                     ({[GLOBAL_BRANCH_NAME; b_name b]}, t)].

(** The start and end times of the branches over a period. *)
Definition get_branches_and_times_for_range (b : Branch) (start_time end_time : Z) :
    list (string * Z) * list (string * Z) :=
  let time_branched_from := b_branched_from b in
  let time_created_at := b_created_at b in
  let time_query_start := if bool_decide (start_time < time_created_at)%Z then time_created_at else start_time in
  let start := [(b_name b, time_query_start)] in
  let start :=
    if negb (b_is_default b) && bool_decide (time_query_start ≤ time_branched_from)%Z
    then dict_set start (b_origin_branch b) time_branched_from
    else if negb (b_is_default b) && bool_decide (time_branched_from < time_query_start)%Z
    then dict_set start (b_origin_branch b) time_query_start else start in
  let end_ := [(b_name b, end_time)] in
  let end_ := if b_is_default b then end_ else dict_set end_ (b_origin_branch b) end_time in
  (start, end_).

(** ** Query filters *)

(** [f"{name}{idx}"] *)
Definition indexed_name (name : string) (idx : nat) : string := name +:+ pretty idx.

Definition branch_time_params (branches_times : BranchTimes) : Params :=
  foldl (λ params kv, dict_set params kv.1 kv.2) []
    (concat (imap (λ idx bt, [(indexed_name "branch" idx, VNames (elements bt.1));
                              (indexed_name "time" idx, VTime bt.2)]) branches_times)).

(** The two cases of a relationship that is valid at the time of a branch. *)
Definition open_at (rel : string) (idx : nat) : cypher :=
  CParen (CAnd " AND " [CIn (TProp rel "branch") (TParam (indexed_name "branch" idx));
                        CLe (TProp rel "from") (TParam (indexed_name "time" idx));
                        CIsNull (TProp rel "to")]).
Definition closed_after (rel : string) (idx : nat) : cypher :=
  CParen (CAnd " AND " [CIn (TProp rel "branch") (TParam (indexed_name "branch" idx));
                        CLe (TProp rel "from") (TParam (indexed_name "time" idx));
                        CGe (TProp rel "to") (TParam (indexed_name "time" idx))]).
Definition or_sep : string := line_feed +:+ " OR ".
Definition valid_filters (rel : string) (branches_times : BranchTimes) : list cypher :=
  concat (imap (λ idx _, [open_at rel idx; closed_after rel idx]) branches_times).

Definition get_query_filter_relationships (now : Z) (b : Branch) (rel_labels : list string)
    (at_ : option Z) (include_outside_parentheses : bool) : list cypher * Params :=
  let at_ := Timestamp now at_ in
  let branches_times := get_branches_and_times_to_query_global now b (Some at_) true in
  (concat ((λ rel,
      let filters_per_rel := valid_filters rel branches_times in
      (if include_outside_parentheses then [] else [COr or_sep filters_per_rel])
      ++ [CParen (COr or_sep filters_per_rel)]) <$> rel_labels),
   branch_time_params branches_times).

Definition get_query_filter_path (now : Z) (b : Branch) (at_ : option Z) (is_isolated branch_agnostic : bool) :
    cypher * Params :=
  let at_ := Timestamp now at_ in
  if branch_agnostic then
    (CAnd " AND " [CLe (TProp "r" "from") (TParam "time1");
                   CParen (COr " or " [CIsNull (TProp "r" "to"); CGe (TProp "r" "to") (TParam "time1")])],
     [("time1", VTime at_)])
  else
    let branches_times := get_branches_and_times_to_query_global now b (Some at_) is_isolated in
    (CParen (COr or_sep (valid_filters "r" branches_times)), branch_time_params branches_times).

(** [Timestamp.get_query_filter_path] of [core/timestamp.py]: all the branches. *)
Definition timestamp_query_filter_path (at_ : Z) (rel_name : string) : cypher * Params :=
  (CParen (COr or_sep
     [CParen (CAnd " AND " [CLe (TProp rel_name "from") (TParam "at"); CIsNull (TProp rel_name "to")]);
      CParen (CAnd " AND " [CLe (TProp rel_name "from") (TParam "at"); CGe (TProp rel_name "to") (TParam "at")])]),
   [("at", VTime at_)]).

Definition get_query_filter_relationships_range (now : Z) (b : Branch) (rel_labels : list string)
    (start_time end_time : Z) (include_outside_parentheses include_global : bool) : list cypher * Params :=
  let branches_times :=
    if include_global then get_branches_and_times_to_query_global now b (Some start_time) true
    else get_branches_and_times_to_query now b (Some start_time) in
  (concat ((λ rel,
      let in_scope := CIn (TProp rel "branch") (TParam "branches") in
      let filters_per_rel :=
        [CParen (CAnd " AND " [in_scope; CLe (TProp rel "from") (TParam "end_time"); CIsNull (TProp rel "to")]);
         CParen (CAnd " AND " [in_scope;
           CParen (COr " OR " [CLe (TProp rel "from") (TParam "end_time");
             CParen (CAnd " AND " [CGe (TProp rel "to") (TParam "start_time");
                                   CLe (TProp rel "to") (TParam "end_time")])])])] in
      (if include_outside_parentheses then [] else [COr or_sep filters_per_rel])
      ++ [CParen (COr or_sep filters_per_rel)]) <$> rel_labels),
   [("branches", VNames (elements (⋃ branches_times.*1)));
    ("start_time", VTime start_time); ("end_time", VTime end_time)]).

(** The text of the next two filters spans several lines; it is rendered with
    single spaces and upper-case keywords. *)
Definition get_query_filter_relationships_diff (b : Branch) (rel_labels : list string)
    (diff_from diff_to : Z) : list cypher * Params :=
  let '(start_times, end_times) := get_branches_and_times_for_range b diff_from diff_to in
  let branch_names := dict_keys start_times in
  let p name idx := TParam (indexed_name name idx) in
  ((λ rel, CParen (COr or_sep (concat (imap (λ idx _,
       [CParen (CAnd " AND " [CEq (TProp rel "branch") (p "branch" idx);
          CGe (TProp rel "from") (p "start_time" idx); CLe (TProp rel "from") (p "end_time" idx);
          CParen (COr " or " [CIsNull (TProp "r2" "to"); CGe (TProp "r2" "to") (p "end_time" idx)])]);
        CParen (CAnd " AND " [CEq (TProp rel "branch") (p "branch" idx);
          CGe (TProp rel "from") (p "start_time" idx); CLe (TProp rel "to") (p "start_time" idx)])])
       branch_names)))) <$> rel_labels,
   concat (imap (λ idx name, [(indexed_name "branch" idx, VName name);
     (indexed_name "start_time" idx, VTime (default 0%Z (dict_get start_times name)));
     (indexed_name "end_time" idx, VTime (default 0%Z (dict_get end_times name)))]) branch_names)).

Definition get_query_filter_range (default_branch : string) (b : Branch) (rel_label : string)
    (start_time end_time : Z) : list cypher * Params :=
  let in_scope := CIn (TProp rel_label "branch") (TParam "branches") in
  let filters_per_rel :=
    [CParen (CAnd " AND " [in_scope; CGe (TProp rel_label "from") (TParam "start_time");
                           CLe (TProp rel_label "from") (TParam "end_time"); CIsNull (TProp rel_label "to")]);
     CParen (CAnd " AND " [in_scope;
       CParen (COr " OR "
         [CParen (CAnd " AND " [CGe (TProp rel_label "from") (TParam "start_time");
                                CLe (TProp rel_label "from") (TParam "end_time")]);
          CParen (CAnd " AND " [CGe (TProp rel_label "to") (TParam "start_time");
                                CLe (TProp rel_label "to") (TParam "end_time")])])])] in
  ([CParen (COr or_sep filters_per_rel)],
   [("branches", VNames (get_branches_in_scope default_branch b));
    ("start_time", VTime start_time); ("end_time", VTime end_time)]).

(** ** Operations *)

(** The database and the registry of branches.  [db_branches] are the vertices
    of the class [Branch], by name. *)
Record World := mkWorld {
  graph : Graph;
  db_branches : Registry;
  registry : Registry;
}.
#[export] Instance World_rebuild : Rebuild World := λ w, mkWorld (graph w) (db_branches w) (registry w).

Abbreviation WorldM := (Exec World).

Definition get_by_name (name : string) : WorldM Branch := λ w,
  (require (BranchNotFoundError name) (dict_get (db_branches w) name), w).
Definition save (b : Branch) : WorldM unit :=
  modify (λ w, w <| db_branches := dict_set (db_branches w) (b_name b) b |>).

(** [delete]: [super().delete] removes the vertex of the branch. *)
Definition delete (memgraph : bool) (b : Branch) : WorldM unit :=
  if b_is_default b
  then raise (ValidationError ("Unable to delete " +:+ b_name b +:+ " it is the default branch."))
  else if b_is_global b
  then raise (ValidationError ("Unable to delete " +:+ b_name b +:+ " this is an internal branch."))
  else
    _ ← modify (λ w, w <| db_branches := dict_del (db_branches w) (b_name b) |>);
    modify (λ w, w <| graph := delete_branch_relationships memgraph (b_name b) (graph w) |>).

(** What [rebase_graph] does with an edge of the branch. *)
Inductive rebase_action := RebaseUpdate | RebaseDelete.
#[export] Instance rebase_action_eq_dec : EqDecision rebase_action.
Proof. solve_decision. Defined.

Definition rebase_edge (at_ : Z) (r : Edge) : rebase_action :=
  if bool_decide (edge_conflict r = Some "drop") then RebaseDelete
  else match edge_to r with
       | None => if bool_decide (edge_from r ≤ at_)%Z then RebaseUpdate else RebaseDelete
       | Some time_to => if bool_decide (time_to < at_)%Z then RebaseDelete else RebaseUpdate
       end.

Definition rebase_graph (now : Z) (memgraph : bool) (at_ : option Z) (b : Branch) : WorldM unit :=
  let at_ := Timestamp now at_ in
  g ← gets graph;
  let results := get_internal_relationships (b_name b) g in
  let rels_to_update := edge_id <$> filter (λ r, rebase_edge at_ r = RebaseUpdate) results in
  let rels_to_delete := edge_id <$> filter (λ r, rebase_edge at_ r = RebaseDelete) results in
  _ ← modify (λ w, w <| graph := rebase_branch_update rels_to_update at_ (graph w) |>);
  modify (λ w, w <| graph := rebase_branch_delete memgraph rels_to_delete (graph w) |>).

Definition rebase (now : Z) (memgraph : bool) (at_ : option Z) (b : Branch) : WorldM Branch :=
  let at_ := Timestamp now at_ in
  _ ← rebase_graph now memgraph (Some at_) b;
  let b := b <| b_branched_from := at_ |> in
  _ ← save b;
  _ ← modify (λ w, w <| registry := dict_set (registry w) (b_name b) b |>);
  mret b.

(** ** What a branch sees *)

(** The text of the filter of a branch. *)
Example filter_path_text :
  render (get_query_filter_path 0 ((new_branch 0 "dev") <| b_is_default := true |>) None true false).1 =
  "((r.branch IN $branch0 AND r.from <= $time0 AND r.to IS NULL)" +:+ line_feed +:+
  " OR (r.branch IN $branch0 AND r.from <= $time0 AND r.to >= $time0))".
Proof. vm_compute. reflexivity. Qed.

Lemma valid_at_spec e t :
  valid_at e t = true ↔
  (edge_from e ≤ t)%Z ∧ match edge_to e with None => True | Some u => (t ≤ u)%Z end.
Proof.
  unfold valid_at. rewrite andb_true_iff, bool_decide_eq_true.
  destruct (edge_to e); [by rewrite bool_decide_eq_true|naive_solver].
Qed.

(** The two cases of a branch together: the edge is on one of its branches and
    valid at its time. *)
Lemma passes_open_closed params e idx scope t :
  dict_get params (indexed_name "branch" idx) = Some (VNames (elements (scope : gset string))) →
  dict_get params (indexed_name "time" idx) = Some (VTime t) →
  passes (λ _, e) params (open_at "r" idx) ∨ passes (λ _, e) params (closed_after "r" idx) ↔
  edge_branch e ∈ scope ∧ valid_at e t = true.
Proof.
  intros Hb Ht. unfold open_at, closed_after. rewrite !passes_paren, !passes_and, !Forall_cons.
  unfold passes. cbn [eval eval_term]. rewrite Hb, Ht, valid_at_spec, !Forall_nil. cbn [default].
  change (edge_property e "branch") with (VName (edge_branch e)).
  change (edge_property e "from") with (VTime (edge_from e)).
  change (edge_property e "to") with (match edge_to e with Some u => VTime u | None => VNull end).
  unfold id. cbn [in3 le3]. rewrite !(inj_iff Some), !bool_decide_eq_true, elem_of_elements.
  destruct (edge_to e) as [u|]; cbn [is_null]; rewrite ?(inj_iff Some), ?bool_decide_eq_true; naive_solver.
Qed.

Lemma passes_valid_filters e (bts : BranchTimes) :
  (∃ bt, bts = [bt]) ∨ (∃ bt1 bt2, bts = [bt1; bt2]) →
  passes (λ _, e) (branch_time_params bts) (CParen (COr or_sep (valid_filters "r" bts))) ↔
  ∃ bt, bt ∈ bts ∧ edge_branch e ∈ bt.1 ∧ valid_at e bt.2 = true.
Proof.
  rewrite passes_paren, passes_or.
  intros [[[s t] ->]|([s1 t1] & [s2 t2] & ->)].
  - change (valid_filters "r" [(s, t)]) with [open_at "r" 0; closed_after "r" 0].
    rewrite !Exists_cons, Exists_nil.
    pose proof (passes_open_closed (branch_time_params [(s, t)]) e 0 s t eq_refl eq_refl) as H0.
    setoid_rewrite list_elem_of_singleton. naive_solver.
  - change (valid_filters "r" [(s1, t1); (s2, t2)])
      with [open_at "r" 0; closed_after "r" 0; open_at "r" 1; closed_after "r" 1].
    rewrite !Exists_cons, Exists_nil.
    pose proof (passes_open_closed (branch_time_params [(s1, t1); (s2, t2)]) e 0 s1 t1 eq_refl eq_refl) as H0.
    pose proof (passes_open_closed (branch_time_params [(s1, t1); (s2, t2)]) e 1 s2 t2 eq_refl eq_refl) as H1.
    rewrite (right_id False (∨)), (assoc (∨)), H0, H1. clear H0 H1. split.
    + intros [?|?]; [exists (s1, t1)|exists (s2, t2)]; (split; [|done]); [left|right; left].
    + intros (bt & [->|Hbt]%elem_of_cons & Hin); [by left|].
      apply list_elem_of_singleton in Hbt as ->. by right.
Qed.

Lemma elem_of_scope (x a b : string) : x ∈ ({[a; b]} : gset string) ↔ x ∈ [a; b].
Proof. by rewrite elem_of_union, !elem_of_singleton, elem_of_cons, list_elem_of_singleton. Qed.

Lemma global_scopes_ne (origin name : string) :
  origin ≠ name → ({[GLOBAL_BRANCH_NAME; origin]} : gset string) ≠ {[GLOBAL_BRANCH_NAME; name]}.
Proof.
  intros Hne Heq.
  assert (origin ∈ ({[GLOBAL_BRANCH_NAME; name]} : gset string)) as Ho by (rewrite <-Heq; set_solver).
  assert (name ∈ ({[GLOBAL_BRANCH_NAME; origin]} : gset string)) as Hn by (rewrite Heq; set_solver).
  apply elem_of_union in Ho as [Ho%elem_of_singleton|Ho%elem_of_singleton],
    Hn as [Hn%elem_of_singleton|Hn%elem_of_singleton]; congruence.
Qed.

(** C29: An edge passes the Cypher filter of a branch exactly when it is valid for
    the branch: on the branch itself (or the global branch) at the time of the
    query, or on the origin branch (or the global one) at that time, frozen at the
    time of the last branching when both the branch and the query are isolated.
    In particular an edge added to the origin branch after the branching is never
    seen by an isolated branch. *)
Theorem query_filter_path_spec (now : Z) (b : Branch) (at_ : option Z) (is_isolated : bool) (e : Edge) :
  b_is_default b = true ∨ b_origin_branch b ≠ b_name b →
  let t := Timestamp now at_ in
  let t_origin := time_default_branch b is_isolated t in
  let '(filter, params) := get_query_filter_path now b at_ is_isolated false in
  (passes (λ _, e) params filter ↔
   (edge_branch e ∈ [GLOBAL_BRANCH_NAME; b_name b] ∧ valid_at e t = true) ∨
   (b_is_default b = false ∧ edge_branch e ∈ [GLOBAL_BRANCH_NAME; b_origin_branch b] ∧
    valid_at e t_origin = true)) ∧
  (passes (λ _, e) params filter → b_is_default b = false → b_is_isolated b = true → is_isolated = true →
   (b_branched_from b < t)%Z → edge_branch e = b_origin_branch b → b_origin_branch b ≠ GLOBAL_BRANCH_NAME →
   (edge_from e ≤ b_branched_from b)%Z).
Proof.
  intros Hb t t_origin. unfold get_query_filter_path, get_branches_and_times_to_query_global.
  change (Timestamp now (Some (Timestamp now at_))) with t. change (Timestamp now at_) with t.
  fold t_origin.
  destruct (b_is_default b) eqn:Hdef.
  - rewrite passes_valid_filters by eauto. setoid_rewrite list_elem_of_singleton. split; [|done]. split.
    + intros (bt & -> & Hin%elem_of_scope & Hv). by left.
    + intros [[Hin Hv]|[? _]]; [|done]. eexists. split; [done|].
      split; [by apply elem_of_scope|done].
  - destruct Hb as [|Hne]; [done|].
    assert (dict_of_list [({[GLOBAL_BRANCH_NAME; b_origin_branch b]} : gset string, t_origin);
                          ({[GLOBAL_BRANCH_NAME; b_name b]}, t)] =
            [({[GLOBAL_BRANCH_NAME; b_origin_branch b]}, t_origin);
             ({[GLOBAL_BRANCH_NAME; b_name b]}, t)]) as ->.
    { apply dict_of_list_NoDup. cbn. apply NoDup_cons. split; [|apply NoDup_singleton].
      intros Heq%list_elem_of_singleton. by apply global_scopes_ne in Heq. }
    rewrite passes_valid_filters by eauto. split.
    + split.
      * intros (bt & Hbt & Hin & Hv).
        apply elem_of_cons in Hbt as [->|Hbt]; [|apply list_elem_of_singleton in Hbt as ->];
          apply elem_of_scope in Hin; [by right|by left].
      * intros [[Hin Hv]|(_ & Hin & Hv)]; [exists ({[GLOBAL_BRANCH_NAME; b_name b]}, t)|
          exists ({[GLOBAL_BRANCH_NAME; b_origin_branch b]}, t_origin)];
          (split; [|split; [by apply elem_of_scope|done]]); [right; left|left].
    + intros (bt & Hbt & Hscope & Hv) _ Hiso -> Ht Horigin Hglobal.
      apply elem_of_cons in Hbt as [->|Hbt].
      2: { apply list_elem_of_singleton in Hbt as ->. cbn [fst] in Hscope.
           rewrite elem_of_scope, elem_of_cons, list_elem_of_singleton in Hscope.
           destruct Hscope; congruence. }
      cbn in Hv. unfold t_origin, time_default_branch in Hv. rewrite Hiso, bool_decide_true in Hv by done.
      by apply valid_at_spec in Hv as [? _].
Qed.

Definition dev_branch : Branch := (new_branch 100 "dev") <| b_is_isolated := true |>.
Definition main_edge : Edge := mkEdge 0 "IS_PART_OF" 1 0 "main" 1 RelationshipStatus.ACTIVE 50 None None.

(** An edge of the branch "main" older than the branch "dev" is seen from "dev". *)
Lemma query_filter_path_spec_witness :
  let '(filter, params) := get_query_filter_path 200 dev_branch None true false in
  passes (λ _, main_edge) params filter.
Proof.
  pose proof (query_filter_path_spec 200 dev_branch None true main_edge) as H.
  cbv zeta in H. destruct (get_query_filter_path 200 dev_branch None true false) as [f params].
  destruct H as [H _]; [right; discriminate|].
  apply H. right. split; [reflexivity|]. split; [right; left|vm_compute; reflexivity].
Defined.

(** ** Rebase *)

(** The edges of a branch after a rebase: those kept, from the time of the rebase. *)
Definition rebased (at_ : Z) (e : Edge) : Edge := e <| edge_from := at_ |> <| edge_conflict := None |>.
Definition rebase_result (name : string) (at_ : Z) (e : Edge) : option Edge :=
  if decide (edge_branch e = name) then
    match rebase_edge at_ e with RebaseUpdate => Some (rebased at_ e) | RebaseDelete => None end
  else Some e.

Lemma NoDup_edge_inj g e e' :
  graph_wf g → e ∈ edges g → e' ∈ edges g → edge_id e = edge_id e' → e = e'.
Proof.
  intros [Hnd _] He He' Heq. apply list_elem_of_lookup in He as [i Hi], He' as [j Hj].
  assert (i = j) as ->; [|congruence].
  eapply NoDup_lookup; [exact Hnd| |]; rewrite list_lookup_fmap; [by rewrite Hi|by rewrite Hj, Heq].
Qed.

Lemma fmap_filter_omap {A B} (f : A → B) (test : B → bool) (l : list A) :
  filter (λ b, negb (test b)) (f <$> l) = omap (λ a, if test (f a) then None else Some (f a)) l.
Proof.
  induction l as [|a l IH]; [done|]. rewrite fmap_cons, filter_cons, IH. cbn. by destruct (test (f a)).
Qed.

Lemma omap_ext_in {A B} (f g : A → option B) (l : list A) : (∀ x, x ∈ l → f x = g x) → omap f l = omap g l.
Proof.
  induction l as [|x l IH]; intros Hfg; [done|]. cbn. rewrite (Hfg x) by left.
  rewrite IH; [done|]. intros y Hy. apply Hfg. by right.
Qed.

Lemma elem_of_rebase_ids g name at_ a e :
  graph_wf g → e ∈ edges g →
  edge_id e ∈ edge_id <$> filter (λ r, rebase_edge at_ r = a) (get_internal_relationships name g) ↔
  edge_branch e = name ∧ rebase_edge at_ e = a.
Proof.
  intros Hwf He. unfold get_internal_relationships. rewrite list_elem_of_fmap. split.
  - intros (r & Hid & [Ha [Hb Hr]%list_elem_of_filter]%list_elem_of_filter).
    by rewrite (NoDup_edge_inj g e r).
  - intros [Hb Ha]. exists e. split; [done|]. by rewrite !list_elem_of_filter.
Qed.

(** The two queries of [rebase_graph], edge by edge. *)
Lemma rebase_edges g memgraph name at_ :
  graph_wf g →
  let ids a := edge_id <$> filter (λ r, rebase_edge at_ r = a) (get_internal_relationships name g) in
  edges (rebase_branch_delete memgraph (ids RebaseDelete) (rebase_branch_update (ids RebaseUpdate) at_ g)) =
  omap (rebase_result name at_) (edges g).
Proof.
  intros Hwf ids. unfold rebase_branch_delete, delete_edges, rebase_branch_update. cbn [edges assign].
  unfold assign. cbn [edges]. rewrite fmap_filter_omap. apply omap_ext_in. intros e He.
  pose proof (elem_of_rebase_ids g name at_ RebaseUpdate e Hwf He) as Hu.
  pose proof (elem_of_rebase_ids g name at_ RebaseDelete e Hwf He) as Hd. fold (ids RebaseUpdate) in Hu.
  fold (ids RebaseDelete) in Hd. unfold rebase_result.
  destruct (decide (edge_id e ∈ ids RebaseUpdate)) as [Hin|Hin]; cbn [edge_id].
  - apply Hu in Hin as [Hb Ha]. rewrite decide_True, Ha by done. rewrite bool_decide_false; [done|].
    rewrite Hd, Ha. naive_solver.
  - destruct (decide (edge_branch e = name)) as [Hb|Hb].
    + destruct (rebase_edge at_ e) eqn:Ha; [by destruct Hin; apply Hu|].
      rewrite bool_decide_true; [done|]. by apply Hd.
    + rewrite bool_decide_false; [done|]. rewrite Hd. naive_solver.
Qed.

Lemma rebase_eq now memgraph at_ b w :
  let t := Timestamp now at_ in
  let ids a := edge_id <$> filter (λ r, rebase_edge t r = a) (get_internal_relationships (b_name b) (graph w)) in
  let b' := b <| b_branched_from := t |> in
  rebase now memgraph at_ b w =
  (Ok b', mkWorld (rebase_branch_delete memgraph (ids RebaseDelete)
                     (rebase_branch_update (ids RebaseUpdate) t (graph w)))
            (dict_set (db_branches w) (b_name b) b') (dict_set (registry w) (b_name b) b')).
Proof. reflexivity. Qed.

Lemma rebase_edge_update at_ e :
  rebase_edge at_ e = RebaseUpdate → valid_at (rebased at_ e) at_ = true.
Proof.
  unfold rebase_edge, rebased. rewrite valid_at_spec. unfold assign. cbn.
  case_bool_decide; [done|]. destruct (edge_to e) as [u|]; case_bool_decide; try done; intros _; split; lia.
Qed.

Lemma rebase_edge_valid at_ e :
  edge_conflict e ≠ Some "drop" → valid_at e at_ = true → rebase_edge at_ e = RebaseUpdate.
Proof.
  intros Hc Hv%valid_at_spec. unfold rebase_edge. rewrite bool_decide_false by done.
  destruct (edge_to e) as [u|]; [rewrite bool_decide_false by lia|rewrite bool_decide_true by lia]; done.
Qed.

(** C27: Rebasing a branch never fails.  The branch then starts at the time of the
    rebase in the database and in the registry; an edge of another branch is
    untouched; every edge that remains on the branch starts at the time of the
    rebase, is valid then and carries no conflict; and no edge of the branch that
    was valid at that time is lost, unless its conflict was resolved by dropping
    it. *)
Theorem rebase_spec (now : Z) (memgraph : bool) (at_ : option Z) (b : Branch) (w : World) :
  graph_wf (graph w) →
  let t := Timestamp now at_ in
  ∃ b' w', rebase now memgraph at_ b w = (Ok b', w') ∧
    b' = b <| b_branched_from := t |> ∧
    dict_get (db_branches w') (b_name b) = Some b' ∧ dict_get (registry w') (b_name b) = Some b' ∧
    (∀ e, edge_branch e ≠ b_name b → e ∈ edges (graph w') ↔ e ∈ edges (graph w)) ∧
    (∀ e, e ∈ edges (graph w') → edge_branch e = b_name b →
       edge_from e = t ∧ valid_at e t = true ∧ edge_conflict e = None) ∧
    (∀ e, e ∈ edges (graph w) → edge_branch e = b_name b → edge_conflict e ≠ Some "drop" →
       valid_at e t = true → rebased t e ∈ edges (graph w')).
Proof.
  intros Hwf t. do 2 eexists. split; [apply rebase_eq|]. cbn [db_branches registry graph].
  fold t. split; [done|]. split; [apply dict_get_set_eq|]. split; [apply dict_get_set_eq|].
  rewrite (rebase_edges _ _ _ _ Hwf).
  setoid_rewrite list_elem_of_omap. unfold rebase_result. split_and!.
  - intros e Hb. split.
    + intros (x & Hx & He). destruct (decide (edge_branch x = b_name b)) as [Hbx|]; [|by injection He as ->].
      destruct (rebase_edge t x); [|done]. injection He as <-. by destruct Hb.
    + intros He. exists e. by rewrite decide_False.
  - intros e (x & Hx & He) Hb. destruct (decide (edge_branch x = b_name b)) as [Hbx|]; [|congruence].
    destruct (rebase_edge t x) eqn:Ha; [|done]. injection He as <-.
    split_and!; [done|by apply rebase_edge_update|done].
  - intros e He Hb Hc Hv. exists e. split; [done|]. by rewrite decide_True, (rebase_edge_valid t e).
Qed.

Definition dev_edge : Edge :=
  mkEdge 1 "IS_PART_OF" 2 0 "dev" 2 RelationshipStatus.ACTIVE 120 None None.
Definition example_world : World :=
  mkWorld (mkGraph [mkVertex 0 true None; mkVertex 1 false (Some "a"); mkVertex 2 false (Some "b")]
             [main_edge; dev_edge] 2)
    [("dev", dev_branch)] [("dev", dev_branch)].

Lemma rebase_spec_witness :
  graph_wf (graph example_world) ∧
  ∃ b' w', rebase 200 false (Some 150%Z) dev_branch example_world = (Ok b', w') ∧
    b_branched_from b' = 150%Z ∧ rebased 150 dev_edge ∈ edges (graph w').
Proof.
  assert (graph_wf (graph example_world)) as Hwf.
  { split; [apply (bool_decide_unpack _); vm_compute; exact I|].
    intros e He. apply elem_of_cons in He as [->|He]; [cbn; lia|].
    apply list_elem_of_singleton in He as ->. cbn. lia. }
  split; [exact Hwf|].
  destruct (rebase_spec 200 false (Some 150%Z) dev_branch example_world Hwf)
    as (b' & w' & Hr & Hb & _ & _ & _ & _ & Hkeep).
  exists b', w'. split; [exact Hr|]. split; [rewrite Hb; reflexivity|].
  apply Hkeep; [right; left|reflexivity|discriminate|vm_compute; reflexivity].
Defined.

(** Deleting a branch is refused, and changes nothing, for the default and the
    global branch; any other branch disappears from the database with all its
    edges, and no other branch and no other edge does. *)
Theorem delete_spec (memgraph : bool) (b : Branch) (w : World) :
  let '(r, w') := delete memgraph b w in
  if b_is_default b || b_is_global b then is_ok r = false ∧ w' = w
  else r = Ok tt ∧
    (∀ name, dict_get (db_branches w') name =
       if decide (b_name b = name) then None else dict_get (db_branches w) name) ∧
    (∀ e, e ∈ edges (graph w') ↔ e ∈ edges (graph w) ∧ edge_branch e ≠ b_name b).
Proof.
  unfold delete. destruct (b_is_default b); [done|]. destruct (b_is_global b); [done|]. cbn.
  split; [done|]. split; [intros name; apply dict_get_del|]. intros e.
  change (e ∈ filter (λ e, negb (bool_decide (edge_branch e = b_name b))) (edges (graph w)) ↔
    e ∈ edges (graph w) ∧ edge_branch e ≠ b_name b).
  rewrite list_elem_of_filter, Is_true_true, negb_true_iff, bool_decide_eq_false. naive_solver.
Qed.
