(* ===== verification/IpNetwork.v ===== *)
(** * IP networks

    What the code uses of Python's [ipaddress]: networks of both versions, their masks,
    [supernet], [subnets] and [subnet_of], computed on integers as the module does, and
    the text of a network.  The lemmas describe a network as a block of addresses. *)

From stdpp Require Import prelude strings.
From S2P Require Import Prelude.

#[local] Open Scope Z_scope.

Inductive IPVersion := V4 | V6.
#[export] Instance IPVersion_eq_dec : EqDecision IPVersion.
Proof. solve_decision. Defined.

Definition max_prefixlen (v : IPVersion) : Z := match v with V4 => 32 | V6 => 128 end.
Definition all_ones (v : IPVersion) : Z := 2 ^ max_prefixlen v - 1.

Record IPNetwork := mkIPNetwork {
  version : IPVersion;
  network_address : Z;
  prefixlen : Z;
}.
#[export] Instance IPNetwork_eq_dec : EqDecision IPNetwork.
Proof. solve_decision. Defined.

(** [_ip_int_from_prefix] *)
Definition netmask (n : IPNetwork) : Z :=
  Z.lxor (all_ones (version n)) (Z.shiftr (all_ones (version n)) (prefixlen n)).
Definition hostmask (n : IPNetwork) : Z := Z.lxor (netmask n) (all_ones (version n)).
Definition broadcast_address (n : IPNetwork) : Z := Z.lor (network_address n) (hostmask n).
Definition num_addresses (n : IPNetwork) : Z := broadcast_address n - network_address n + 1.

(** [supernet(new_prefix=q)] *)
Definition supernet (n : IPNetwork) (q : Z) : result IPNetwork :=
  if decide (prefixlen n = 0) then Ok n
  else if decide (prefixlen n < q) then Err (ValueError "new prefix must be shorter")
  else if decide (q < 0) then Err (ValueError "current prefixlen cannot have a prefixlen_diff of")
  else Ok (mkIPNetwork (version n)
             (Z.land (network_address n) (Z.shiftl (netmask n) (prefixlen n - q))) q).

(** The subnet at the rank [i] of [subnets(new_prefix=q)]. *)
Definition subnet_at (n : IPNetwork) (q i : Z) : IPNetwork :=
  mkIPNetwork (version n) (network_address n + i * Z.shiftr (hostmask n + 1) (q - prefixlen n)) q.

(** What the generator [subnets(new_prefix=q)] yields: the number of subnets, from the
    first one on; the network itself when it is a single address. *)
Definition subnets_count (n : IPNetwork) (q : Z) : result Z :=
  if decide (q < prefixlen n) then Err (ValueError "new prefix must be longer")
  else if decide (max_prefixlen (version n) < q) then Err (ValueError "prefix length diff is invalid for netblock")
  else Ok (2 ^ (q - prefixlen n)).
Definition subnets (n : IPNetwork) (q : Z) : result (list IPNetwork) :=
  if decide (prefixlen n = max_prefixlen (version n)) then Ok [n]
  else
    count ← subnets_count n q;
    Ok ((λ i, subnet_at n q (Z.of_nat i)) <$> seq 0 (Z.to_nat count)).
(** [next(n.subnets(new_prefix=q))] *)
Definition next_subnet (n : IPNetwork) (q : Z) : result IPNetwork :=
  if decide (prefixlen n = max_prefixlen (version n)) then Ok n
  else
    _ ← subnets_count n q;
    Ok (subnet_at n q 0).

Definition subnet_of (n other : IPNetwork) : result bool :=
  if decide (version n = version other)
  then Ok (bool_decide (network_address other ≤ network_address n)
           && bool_decide (broadcast_address n ≤ broadcast_address other))
  else Err (TypeError "are not of the same version").

(** A string, as the module sees it: the text of a network, in the spelling of [str]
    ([None]) or in another one, or a text that is not one of a network. *)
Inductive ip_text :=
  | NetText (n : IPNetwork) (spelling : option string)
  | NotNetwork (s : string).
#[export] Instance ip_text_eq_dec : EqDecision ip_text.
Proof. solve_decision. Defined.

Definition net_str (n : IPNetwork) : ip_text := NetText n None.

Definition well_formed (n : IPNetwork) : bool :=
  bool_decide (0 ≤ prefixlen n ≤ max_prefixlen (version n)) &&
  bool_decide (0 ≤ network_address n ≤ all_ones (version n)).

(** [ipaddress.ip_network(text)]: strict, the host bits must be zero. *)
Definition ip_network (t : ip_text) : result IPNetwork :=
  match t with
  | NetText n _ =>
      if well_formed n then
        if decide (Z.land (network_address n) (netmask n) = network_address n) then Ok n
        else Err (ValueError "has host bits set")
      else Err (ValueError "does not appear to be an IPv4 or IPv6 network")
  | NotNetwork _ => Err (ValueError "does not appear to be an IPv4 or IPv6 network")
  end.

(** ** Blocks *)

(** The number of addresses. *)
Definition size (n : IPNetwork) : Z := 2 ^ (max_prefixlen (version n) - prefixlen n).

Record valid (n : IPNetwork) : Prop := {
  valid_prefixlen : 0 ≤ prefixlen n ≤ max_prefixlen (version n);
  valid_start : 0 ≤ network_address n;
  valid_end : network_address n + size n ≤ 2 ^ max_prefixlen (version n);
  valid_aligned : (size n | network_address n);
}.

(** The address [x] of the version [v] is in the network. *)
Definition has_address (n : IPNetwork) (v : IPVersion) (x : Z) : Prop :=
  version n = v ∧ network_address n ≤ x < network_address n + size n.

(** [m] is a part of [n]. *)
Definition within (m n : IPNetwork) : Prop :=
  version m = version n ∧ prefixlen n ≤ prefixlen m ∧
  network_address n ≤ network_address m ∧ network_address m + size m ≤ network_address n + size n.
#[export] Instance within_dec m n : Decision (within m n).
Proof. unfold within. apply _. Defined.
(** No address is in both. *)
Definition apart (m n : IPNetwork) : Prop := ∀ v x, has_address m v x → ¬ has_address n v x.

Lemma max_prefixlen_pos v : 0 < max_prefixlen v.
Proof. by destruct v. Qed.

Lemma size_pos n : valid n → 0 < size n.
Proof. intros H. pose proof (valid_prefixlen n H). apply Z.pow_pos_nonneg; lia. Qed.

(** *** Masks *)

(** Case analysis on the comparisons of the goal. *)
Ltac compare_bits :=
  repeat match goal with
  | |- context [(?a <? ?b)%Z] => destruct (Z.ltb_spec a b)
  | |- context [(?a <=? ?b)%Z] => destruct (Z.leb_spec a b)
  end; cbn; try reflexivity; exfalso; lia.

Lemma all_ones_ones v : all_ones v = Z.ones (max_prefixlen v).
Proof. unfold all_ones. rewrite Z.ones_equiv. lia. Qed.

Lemma shiftr_all_ones v p : 0 ≤ p ≤ max_prefixlen v → Z.shiftr (all_ones v) p = Z.ones (max_prefixlen v - p).
Proof. intros Hp. rewrite all_ones_ones, Z.shiftr_div_pow2, Z.ones_div_pow2 by lia. done. Qed.

Lemma netmask_bits n i : 0 ≤ prefixlen n ≤ max_prefixlen (version n) → 0 ≤ i →
  Z.testbit (netmask n) i =
  (max_prefixlen (version n) - prefixlen n <=? i) && (i <? max_prefixlen (version n)).
Proof.
  intros Hp Hi. unfold netmask. rewrite Z.lxor_spec, shiftr_all_ones, all_ones_ones by done.
  rewrite !Z.testbit_ones_nonneg by lia.
  compare_bits.
Qed.

Lemma hostmask_size n : 0 ≤ prefixlen n ≤ max_prefixlen (version n) → hostmask n = size n - 1.
Proof.
  intros Hp. unfold hostmask, size.
  replace (2 ^ _ - 1) with (Z.ones (max_prefixlen (version n) - prefixlen n)) by (rewrite Z.ones_equiv; lia).
  apply Z.bits_inj'. intros i Hi.
  rewrite Z.lxor_spec, netmask_bits, all_ones_ones, !Z.testbit_ones_nonneg by lia.
  compare_bits.
Qed.

(** Keeping the bits from [k] on is rounding down to a multiple of [2 ^ k]. *)
Lemma round_down_bits x k i : 0 ≤ k → 0 ≤ i → Z.testbit (x - x mod 2 ^ k) i = (k <=? i) && Z.testbit x i.
Proof.
  intros Hk Hi. replace (x - x mod 2 ^ k) with (Z.shiftl (Z.shiftr x k) k).
  - rewrite Z.shiftl_spec by lia. destruct (Z.leb_spec k i); cbn.
    + rewrite Z.shiftr_spec by lia. f_equal. lia.
    + by rewrite Z.testbit_neg_r by lia.
  - rewrite Z.shiftl_mul_pow2, Z.shiftr_div_pow2 by lia.
    pose proof (Z.div_mod x (2 ^ k) ltac:(lia)). lia.
Qed.

Lemma testbit_above x k i : 0 ≤ x < 2 ^ k → 0 ≤ k ≤ i → Z.testbit x i = false.
Proof.
  intros Hx Hk. destruct (decide (x = 0)) as [->|]; [apply Z.testbit_0_l|].
  apply Z.bits_above_log2; [lia|]. apply Z.lt_le_trans with k; [|lia]. apply Z.log2_lt_pow2; lia.
Qed.

Lemma land_mask x m M k : 0 ≤ k ≤ M → 0 ≤ x < 2 ^ M →
  (∀ i, 0 ≤ i < M → Z.testbit m i = (k <=? i)) → Z.land x m = x - x mod 2 ^ k.
Proof.
  intros Hk Hx Hm. apply Z.bits_inj'. intros i Hi. rewrite Z.land_spec, round_down_bits by lia.
  destruct (Z.lt_ge_cases i M) as [Hlt|Hge].
  - rewrite Hm by lia. apply andb_comm.
  - rewrite testbit_above with (k := M) by lia. cbn. by rewrite andb_false_r.
Qed.

Lemma mod_aligned x d : 0 < d → (d | x) → x mod d = 0.
Proof. intros Hd. by apply Z.mod_divide; lia. Qed.

Lemma broadcast_end n : valid n → broadcast_address n = network_address n + size n - 1.
Proof.
  intros Hv. pose proof Hv as [Hp H0 _ Ha]. pose proof (size_pos n Hv) as Hs. unfold broadcast_address.
  rewrite hostmask_size by done. unfold size in *. set (k := max_prefixlen (version n) - prefixlen n) in *.
  replace (2 ^ k - 1) with (Z.ones k) by (rewrite Z.ones_equiv; lia).
  assert (Z.land (network_address n) (Z.ones k) = 0) as Hland.
  { rewrite Z.land_ones by lia. by apply mod_aligned. }
  rewrite <-Z.lxor_lor, <-Z.add_nocarry_lxor, Z.ones_equiv by done. lia.
Qed.

Lemma num_addresses_size n : valid n → num_addresses n = size n.
Proof. intros Hv. unfold num_addresses. rewrite broadcast_end by done. lia. Qed.

Lemma below_max n : valid n → 0 ≤ network_address n < 2 ^ max_prefixlen (version n).
Proof. intros Hv. pose proof (size_pos n Hv). pose proof (valid_start n Hv). pose proof (valid_end n Hv). lia. Qed.

Lemma ip_network_valid n s : valid n → ip_network (NetText n s) = Ok n.
Proof.
  intros Hv. pose proof Hv as [Hp H0 He Ha]. pose proof (below_max n Hv). cbn. unfold well_formed, all_ones.
  rewrite !bool_decide_true by lia. cbn.
  rewrite (land_mask _ _ (max_prefixlen (version n)) (max_prefixlen (version n) - prefixlen n)); [|lia..|].
  - fold (size n). rewrite mod_aligned by auto using size_pos. by rewrite decide_True by lia.
  - intros i Hi. rewrite netmask_bits by lia. destruct (Z.ltb_spec i (max_prefixlen (version n))); [|lia].
    by rewrite andb_true_r.
Qed.

Lemma ip_network_str n : valid n → ip_network (net_str n) = Ok n.
Proof. apply ip_network_valid. Qed.

Lemma pow2_divide a b : 0 ≤ a ≤ b → (2 ^ a | 2 ^ b).
Proof. intros H. exists (2 ^ (b - a)). rewrite <-Z.pow_add_r by lia. f_equal. lia. Qed.

Lemma size_divide n m : version n = version m → prefixlen n ≤ prefixlen m ≤ max_prefixlen (version m) →
  (size m | size n).
Proof. intros Hv Hp. unfold size. rewrite Hv. apply pow2_divide. lia. Qed.

Lemma ip_network_ok t n : ip_network t = Ok n → valid n ∧ ∃ s, t = NetText n s.
Proof.
  destruct t as [n' s|s]; cbn; [|done]. destruct (well_formed n') eqn:Hw; [|done].
  unfold well_formed in Hw. apply andb_true_iff in Hw as [Hp Ha]. apply bool_decide_eq_true in Hp, Ha.
  case_decide as Hland; [|done]. intros [= ->]. split; [|by exists s]. unfold all_ones in Ha.
  rewrite (land_mask _ _ (max_prefixlen (version n)) (max_prefixlen (version n) - prefixlen n)) in Hland; [|lia..|].
  - assert ((size n | network_address n)) as Hal.
    { apply Z.mod_divide; [unfold size; lia|]. unfold size. lia. }
    split; [done|lia| |done]. destruct Hal as [c Hc].
    destruct (size_divide (mkIPNetwork (version n) 0 0) n eq_refl) as [d Hd]; [cbn; lia|].
    unfold size at 1 in Hd. cbn in Hd. rewrite Z.sub_0_r in Hd.
    assert (0 < size n) by (unfold size; lia). rewrite Hd in *.
    assert (c < d) by (apply Z.mul_lt_mono_pos_r with (size n); lia).
    assert ((c + 1) * size n ≤ d * size n) by (apply Z.mul_le_mono_nonneg_r; lia). lia.
  - intros i Hi. rewrite netmask_bits by lia. destruct (Z.ltb_spec i (max_prefixlen (version n))); [|lia].
    by rewrite andb_true_r.
Qed.

(** *** Two blocks are nested or apart *)

Lemma divide_floor s a x : 0 < s → (s | a) → a ≤ x → a ≤ x - x mod s.
Proof.
  intros Hs [c ->] Hx. pose proof (Z.div_mod x s ltac:(lia)) as Hx'.
  assert (c ≤ x / s) by (apply Z.div_le_lower_bound; lia). nia.
Qed.

Lemma has_address_block n v x : valid n → has_address n v x ↔
  version n = v ∧ x - x mod size n = network_address n.
Proof.
  intros Hv. pose proof (size_pos n Hv) as Hs. pose proof (valid_aligned n Hv) as Ha.
  pose proof (Z.mod_pos_bound x (size n) Hs). unfold has_address. split; intros [<- Hx]; (split; [done|]).
  - pose proof (divide_floor (size n) (network_address n) x Hs Ha ltac:(lia)).
    destruct Ha as [c Hc]. rewrite Hc in *. assert (x / size n = c) as Hdiv.
    { symmetry. apply Z.div_unique with (x - c * size n); lia. }
    pose proof (Z.div_mod x (size n) ltac:(lia)). nia.
  - lia.
Qed.

Lemma first_address n : valid n → has_address n (version n) (network_address n).
Proof. intros Hv. pose proof (size_pos n Hv). split; [done|lia]. Qed.

Lemma round_down_twice x a b : 0 < a → 0 < b → (a | b) → (x - x mod a) - (x - x mod a) mod b = x - x mod b.
Proof.
  intros Ha Hb [c ->]. assert (0 < c) by nia.
  rewrite !Zmod_eq_full by lia. rewrite (Z.mul_comm c a), <-!Z.div_div by lia.
  replace (x - (x - x / a * a)) with (x / a * a) by lia. rewrite Z.div_mul by lia. lia.
Qed.

Lemma laminar m n v x : valid m → valid n → prefixlen n ≤ prefixlen m →
  has_address m v x → has_address n v x → within m n.
Proof.
  intros Hm Hn Hp Hxm Hxn. assert (version m = version n) as Hver by (destruct Hxm, Hxn; congruence).
  pose proof (size_pos m Hm) as Hsm. pose proof (size_pos n Hn) as Hsn.
  assert ((size m | size n)) as Hdiv.
  { apply size_divide; [done|]. split; [done|]. apply (valid_prefixlen m Hm). }
  apply has_address_block in Hxm as [_ Hxm], Hxn as [_ Hxn]; [|done..].
  assert (network_address m - network_address m mod size n = network_address n) as Hround.
  { by rewrite <-Hxm, round_down_twice. }
  pose proof (Z.mod_pos_bound (network_address m) (size n) Hsn). split; [done|]. split; [done|]. split; [lia|].
  destruct Hdiv as [c Hc]. destruct (valid_aligned m Hm) as [d Hd]. destruct (valid_aligned n Hn) as [e He].
  rewrite Hc in *. assert (d < (e + 1) * c) by (apply Z.mul_lt_mono_pos_r with (size m); lia).
  assert ((d + 1) * size m ≤ (e + 1) * c * size m) by (apply Z.mul_le_mono_nonneg_r; lia). lia.
Qed.

Lemma within_or_apart m n : valid m → valid n → prefixlen n ≤ prefixlen m → within m n ∨ apart m n.
Proof.
  intros Hm Hn Hp. destruct (decide (has_address n (version m) (network_address m))) as [Hin|Hnot].
  - left. eapply laminar; eauto using first_address.
  - right. intros v x Hxm Hxn. apply Hnot. destruct (laminar m n v x) as (Hver & _ & Ha & He); [done..|].
    pose proof (size_pos m Hm). split; [done|lia].
Qed.

Lemma within_has_address m n v x : within m n → has_address m v x → has_address n v x.
Proof. intros (Hv & _ & H1 & H2) [<- Hx]. split; [done|lia]. Qed.

Lemma within_refl n : within n n.
Proof. split_and!; lia || done. Qed.
Lemma within_trans a b c : within a b → within b c → within a c.
Proof. intros (? & ? & ? & ?) (? & ? & ? & ?). split_and!; lia || congruence. Qed.
Lemma within_antisymm m n : within m n → prefixlen m = prefixlen n → m = n.
Proof.
  intros (Hv & _ & Ha & He) Hp. destruct m as [v a p], n as [v' a' p']; unfold size in *; cbn in *. subst.
  f_equal. lia.
Qed.
Lemma apart_sym m n : apart m n → apart n m.
Proof. intros H v x Hn Hm. by eapply H. Qed.
Lemma within_apart a b c : within a b → apart b c → apart a c.
Proof. intros Hw Hap v x Ha. apply Hap. by eapply within_has_address. Qed.
Lemma not_apart_within m n : valid m → within m n → ¬ apart m n.
Proof. intros Hm Hw Hap. eapply Hap; [by apply first_address|]. eapply within_has_address; eauto using first_address. Qed.

(** ** [supernet] and [subnets] *)

Lemma shifted_mask_bits n q i : 0 ≤ q ≤ prefixlen n → prefixlen n ≤ max_prefixlen (version n) →
  0 ≤ i < max_prefixlen (version n) →
  Z.testbit (Z.shiftl (netmask n) (prefixlen n - q)) i = (max_prefixlen (version n) - q <=? i).
Proof.
  intros Hq Hp Hi. rewrite Z.shiftl_spec by lia. destruct (Z.lt_ge_cases i (prefixlen n - q)).
  - rewrite Z.testbit_neg_r by lia. compare_bits.
  - rewrite netmask_bits by lia. compare_bits.
Qed.

(** The block of length [q] that contains the network. *)
Definition enclosing (n : IPNetwork) (q : Z) : IPNetwork :=
  let s := 2 ^ (max_prefixlen (version n) - q) in
  mkIPNetwork (version n) (network_address n - network_address n mod s) q.

Lemma enclosing_valid n q : valid n → 0 ≤ q ≤ prefixlen n → valid (enclosing n q) ∧ within n (enclosing n q).
Proof.
  intros Hn Hq. pose proof (valid_prefixlen n Hn). pose proof (below_max n Hn).
  set (e := enclosing n q). assert (size e = 2 ^ (max_prefixlen (version n) - q)) as Hsize by done.
  assert (0 < size e) as Hs by (rewrite Hsize; lia).
  assert (network_address e = network_address n - network_address n mod size e) as Ha by done.
  pose proof (Z.mod_pos_bound (network_address n) (size e) Hs).
  assert ((size e | network_address e)) as Hal.
  { rewrite Ha. exists (network_address n / size e). pose proof (Z.div_mod (network_address n) (size e)). lia. }
  assert (valid e) as He.
  { split; [cbn; lia| |  |done].
    - rewrite Ha. pose proof (Z.mod_le (network_address n) (size e)). lia.
    - assert ((size e | 2 ^ max_prefixlen (version n))) as [d Hd] by (rewrite Hsize; apply pow2_divide; lia).
      change (version e) with (version n). destruct Hal as [c Hc]. rewrite Hd, Hc.
      assert (c < d) by (apply Z.mul_lt_mono_pos_r with (size e); lia).
      assert ((c + 1) * size e ≤ d * size e) by (apply Z.mul_le_mono_nonneg_r; lia). lia. }
  split; [done|]. apply laminar with (version n) (network_address n); auto using first_address; [cbn; lia|].
  split; [done|]. lia.
Qed.

Lemma supernet_spec n q : valid n → 0 ≤ q ≤ prefixlen n → supernet n q = Ok (enclosing n q).
Proof.
  intros Hn Hq. pose proof (valid_prefixlen n Hn). pose proof (below_max n Hn). unfold supernet.
  case_decide as Hp0.
  - f_equal. unfold enclosing. replace q with (prefixlen n) by lia. fold (size n).
    rewrite mod_aligned by auto using size_pos, valid_aligned. rewrite Z.sub_0_r. by destruct n.
  - rewrite !decide_False by lia. unfold enclosing. do 2 f_equal.
    apply land_mask with (max_prefixlen (version n)); [lia..|].
    intros i Hi. apply shifted_mask_bits; lia.
Qed.

Lemma enclosing_unique n m : valid n → valid m → within n m → enclosing n (prefixlen m) = m.
Proof.
  intros Hn Hm Hw. pose proof (valid_prefixlen m Hm). pose proof Hw as (Hv & Hp & _ & _).
  destruct (enclosing_valid n (prefixlen m) Hn ltac:(lia)) as [He Hwe].
  apply within_antisymm; [|done]. apply laminar with (version n) (network_address n); [done..| |].
  - eapply within_has_address; eauto using first_address.
  - eapply within_has_address; eauto using first_address.
Qed.

Lemma enclosing_id n : valid n → enclosing n (prefixlen n) = n.
Proof. intros Hn. apply enclosing_unique; auto using within_refl. Qed.

Lemma enclosing_enclosing n p q : valid n → 0 ≤ q ≤ p → p ≤ prefixlen n →
  enclosing (enclosing n p) q = enclosing n q.
Proof.
  intros Hn Hq Hp. destruct (enclosing_valid n p Hn ltac:(lia)) as [He Hw].
  destruct (enclosing_valid (enclosing n p) q He ltac:(cbn; lia)) as [He' Hw'].
  symmetry. apply (enclosing_unique n (enclosing (enclosing n p) q)); eauto using within_trans.
Qed.

Lemma enclosing_mono n p q : valid n → 0 ≤ q ≤ p → p ≤ prefixlen n → within (enclosing n p) (enclosing n q).
Proof.
  intros Hn Hq Hp. destruct (enclosing_valid n p Hn ltac:(lia)) as [He _].
  rewrite <-(enclosing_enclosing n p q) by done. by apply enclosing_valid.
Qed.

(** *** Halves *)

(** The two halves of a network. *)
Definition half (n : IPNetwork) (i : Z) : IPNetwork := subnet_at n (prefixlen n + 1) i.

Lemma subnet_at_spec n q i : valid n → prefixlen n ≤ q ≤ max_prefixlen (version n) →
  subnet_at n q i = mkIPNetwork (version n) (network_address n + i * 2 ^ (max_prefixlen (version n) - q)) q.
Proof.
  intros Hn Hq. pose proof (valid_prefixlen n Hn). unfold subnet_at. do 2 f_equal.
  rewrite hostmask_size by lia. replace (size n - 1 + 1) with (size n) by lia.
  unfold size. rewrite Z.shiftr_div_pow2, <-Z.pow_sub_r by lia. do 2 f_equal. lia.
Qed.

Lemma subnet_at_valid n q i : valid n → prefixlen n ≤ q ≤ max_prefixlen (version n) → 0 ≤ i < 2 ^ (q - prefixlen n) →
  valid (subnet_at n q i) ∧ within (subnet_at n q i) n.
Proof.
  intros Hn Hq Hi. pose proof Hn as [Hp H0 He Ha]. rewrite subnet_at_spec by done.
  set (s := 2 ^ (max_prefixlen (version n) - q)). assert (0 < s) by (unfold s; lia).
  assert (size n = 2 ^ (q - prefixlen n) * s) as Hsize.
  { unfold size, s. rewrite <-Z.pow_add_r by lia. f_equal. lia. }
  assert ((i + 1) * s ≤ size n) by (rewrite Hsize; apply Z.mul_le_mono_nonneg_r; lia).
  split; [split|split_and!]; cbn [version network_address prefixlen] in *; unfold size in *;
    cbn [version network_address prefixlen] in *; fold s; try lia || done.
  apply Z.divide_add_r; [|by exists i]. etrans; [|exact Ha]. fold (size n). unfold size. apply pow2_divide. lia.
Qed.

Lemma subnets_halves n : valid n → prefixlen n < max_prefixlen (version n) →
  subnets n (prefixlen n + 1) = Ok [half n 0; half n 1].
Proof.
  intros Hn Hp. unfold subnets, subnets_count. rewrite !decide_False by lia.
  replace (2 ^ (prefixlen n + 1 - prefixlen n)) with 2 by (replace (prefixlen n + 1 - prefixlen n) with 1 by lia; done).
  done.
Qed.

Lemma half_valid n i : valid n → prefixlen n < max_prefixlen (version n) → 0 ≤ i < 2 →
  valid (half n i) ∧ within (half n i) n.
Proof.
  intros Hn Hp Hi. pose proof (valid_prefixlen n Hn). apply subnet_at_valid; [done|lia|].
  replace (prefixlen n + 1 - prefixlen n) with 1 by lia. lia.
Qed.

(** A part of a network of the next length is one of its halves. *)
Lemma child_half n c : valid n → valid c → within c n → prefixlen c = prefixlen n + 1 →
  c = half n 0 ∨ c = half n 1.
Proof.
  intros Hn Hc Hw Hp. pose proof (valid_prefixlen c Hc). pose proof (valid_prefixlen n Hn).
  pose proof Hw as (Hv & _ & Ha & He). rewrite Hv in *.
  assert (size n = 2 * size c) as Hsize.
  { unfold size. rewrite Hv, Hp. rewrite <-Z.pow_succ_r by lia. f_equal. lia. }
  pose proof (size_pos c Hc). destruct (valid_aligned c Hc) as [d Hd], (valid_aligned n Hn) as [e He'].
  rewrite Hsize in He', He.
  assert (network_address c = network_address n ∨ network_address c = network_address n + size c) as Hcase.
  { assert (2 * e ≤ d) by nia. assert (d < 2 * e + 2) by nia. assert (d = 2 * e ∨ d = 2 * e + 1) as [-> | ->] by lia; [left|right]; lia. }
  unfold half. rewrite !subnet_at_spec by (done || lia).
  assert (2 ^ (max_prefixlen (version n) - (prefixlen n + 1)) = size c) as -> by (unfold size; rewrite Hv, Hp; done).
  clear - Hv Hp Hcase. generalize dependent (size c). intros s. destruct c as [v a p]; cbn in *. subst p v.
  intros [-> | ->]; [left|right]; f_equal; lia.
Qed.

(** A network and a half of it that contains a given part. *)
Lemma part_half n m : valid n → valid m → within m n → prefixlen n < prefixlen m →
  within m (half n 0) ∨ within m (half n 1).
Proof.
  intros Hn Hm Hw Hp. pose proof (valid_prefixlen m Hm). pose proof (valid_prefixlen n Hn).
  destruct (enclosing_valid m (prefixlen n + 1) Hm ltac:(lia)) as [He Hwe].
  assert (within (enclosing m (prefixlen n + 1)) n) as Hen.
  { pose proof (enclosing_mono m (prefixlen n + 1) (prefixlen n) Hm ltac:(lia) ltac:(lia)) as Hmono.
    by rewrite (enclosing_unique m n) in Hmono. }
  destruct (child_half n (enclosing m (prefixlen n + 1))) as [<- | <-]; auto.
Qed.

Lemma same_length_apart a b : valid a → valid b → prefixlen a = prefixlen b → a ≠ b → apart a b.
Proof.
  intros Ha Hb Hp Hne v x Hxa Hxb. apply Hne. apply within_antisymm; [|done]. eapply laminar; eauto. lia.
Qed.

Lemma halves_differ n : valid n → prefixlen n < max_prefixlen (version n) → half n 0 ≠ half n 1.
Proof.
  intros Hn Hp. pose proof (valid_prefixlen n Hn). unfold half. rewrite !subnet_at_spec by (done || lia). intros [=].
  assert (0 < 2 ^ (max_prefixlen (version n) - (prefixlen n + 1))) by (apply Z.pow_pos_nonneg; lia). lia.
Qed.

(** Two different halves of the same network. *)
Definition siblings (a b : IPNetwork) : Prop :=
  a ≠ b ∧ ∃ n, valid n ∧ prefixlen a = prefixlen n + 1 ∧ prefixlen b = prefixlen n + 1 ∧ within a n ∧ within b n.

Lemma siblings_sym a b : siblings a b → siblings b a.
Proof. intros (Hne & n & ?). split; [done|]. exists n. tauto. Qed.

Lemma halves_siblings n : valid n → prefixlen n < max_prefixlen (version n) → siblings (half n 0) (half n 1).
Proof.
  intros Hn Hp. split; [by apply halves_differ|]. exists n. split; [done|]. do 2 (split; [done|]).
  split; apply half_valid; done || lia.
Qed.

(** The network of one address. *)
Definition point (v : IPVersion) (x : Z) : IPNetwork := mkIPNetwork v x (max_prefixlen v).

Lemma point_valid v x : 0 ≤ x < 2 ^ max_prefixlen v → valid (point v x).
Proof.
  intros Hx. pose proof (max_prefixlen_pos v).
  split; cbn; [lia|lia| |]; unfold size; cbn; rewrite Z.sub_diag; [change (2 ^ 0) with 1; lia|].
  apply Z.divide_1_l.
Qed.

Lemma point_within n v x : valid n → has_address n v x → within (point v x) n.
Proof.
  intros Hn Hx. pose proof Hx as [<- Hx']. pose proof (valid_prefixlen n Hn).
  split_and!; [done|cbn; lia|cbn; lia|]. unfold size at 1. cbn. rewrite Z.sub_diag. change (2 ^ 0) with 1. lia.
Qed.

Lemma point_has_address v x n : within (point v x) n → has_address n v x.
Proof.
  intros (Hv & _ & Ha & He). unfold size in He at 1. cbn in *. rewrite Z.sub_diag in He. change (2 ^ 0) with 1 in He.
  split; [done|lia].
Qed.

(** Networks with a common part are nested. *)
Lemma common_part c m n : valid c → valid m → valid n → within c m → within c n → prefixlen n ≤ prefixlen m →
  within m n.
Proof.
  intros Hc Hm Hn Hcm Hcn Hp. apply laminar with (version c) (network_address c); [done..| |].
  - eapply within_has_address; [exact Hcm|by apply first_address].
  - eapply within_has_address; [exact Hcn|by apply first_address].
Qed.

Lemma subnet_of_spec a b : valid a → valid b → version a = version b → prefixlen b ≤ prefixlen a →
  ∃ r, subnet_of a b = Ok r ∧ (r = true ↔ within a b).
Proof.
  intros Ha Hb Hv Hp. unfold subnet_of. rewrite decide_True by done. eexists. split; [done|].
  rewrite !broadcast_end by done. rewrite andb_true_iff, !bool_decide_eq_true. unfold within.
  split; intros; [split_and!; lia || done|lia].
Qed.

Lemma not_within_apart a b : valid a → valid b → ¬ within a b → ¬ within b a → apart a b.
Proof.
  intros Ha Hb Hab Hba. destruct (Z.le_ge_cases (prefixlen b) (prefixlen a)) as [Hp|Hp].
  - by destruct (within_or_apart a b Ha Hb Hp).
  - destruct (within_or_apart b a Hb Ha Hp); [done|by apply apart_sym].
Qed.
