(* ===== verification/IpText.v ===== *)
(** * The text of IP addresses and networks

    What the code uses of Python's [ipaddress] on strings: [ip_network] and
    [ip_interface] ([read_network], [read_interface]), the text that they print back ([with_prefixlen]), and
    [convert_ip_to_binary_str] of [backend/infrahub/core/utils.py] ([ip_binary_str]).  An address of the
    version 6 may have a scope, which only its text shows. *)

From stdpp Require Import prelude strings pretty.
From Stdlib Require Import Ascii.
From S2P Require Import Prelude PyString SdkUtils IpNetwork.

#[local] Open Scope Z_scope.
#[local] Abbreviation colon := ":".

(** ** Numbers *)

Definition str_forall (f : ascii → bool) (s : string) : bool := forallb f (String.list_ascii_of_string s).
(** [s.isascii() and s.isdigit()] *)
Definition is_decimal (s : string) : bool := negb (bool_decide (s = "")) && str_forall is_digit s.
(** The number that digits of the base write. *)
Definition digits_value (base : Z) (s : string) : Z :=
  foldl (λ acc c, acc * base + default 0 (digit_value base (lower_char c))) 0 (String.list_ascii_of_string s).

(** [_parse_octet], [_parse_hextet] *)
Definition parse_octet (s : string) : option Z :=
  if is_decimal s && bool_decide (String.length s ≤ 3)%nat && (bool_decide (s = "0") || negb (startswith s "0"))
  then let n := digits_value 10 s in if n <=? 255 then Some n else None
  else None.
Definition parse_hextet (s : string) : option Z :=
  if negb (bool_decide (s = "")) && str_forall is_hexdigit s && bool_decide (String.length s ≤ 4)%nat
  then Some (digits_value 16 s) else None.

(** ['%x' % n] *)
Definition hex_digit (n : Z) : ascii := default "0"%char (String.get (Z.to_nat n) base16_alphabet).
Fixpoint hex_text (fuel : nat) (n : Z) (text : string) : string :=
  match fuel with
  | O => text
  | S fuel => if n <? 16 then String (hex_digit n) text else hex_text fuel (n / 16) (String (hex_digit (n mod 16)) text)
  end.
(** Four digits are enough for 16 bits. *)
Definition hextet_str (n : Z) : string := hex_text 4 n "".

(** The numbers written by the words of [w] bits of an integer, the highest first. *)
Definition words (w count : nat) (n : Z) : list Z :=
  (λ i, Z.shiftr n (Z.of_nat (w * i)) mod 2 ^ Z.of_nat w) <$> rev (seq 0 count).
Definition of_words (w : nat) (acc : Z) (l : list Z) : Z := foldl (λ acc h, Z.lor (Z.shiftl acc (Z.of_nat w)) h) acc l.

(** ** Version 4 *)

Definition parse_v4 (s : string) : option Z :=
  match py_split "." s with
  | [a; b; c; d] => octets ← mapM parse_octet [a; b; c; d]; Some (of_words 8 0 octets)
  | _ => None
  end.
Definition v4_str (n : Z) : string := py_join "." (pretty <$> words 8 4 n).

(** ** Version 6 *)

(** The last part may be an address of the version 4, which is worth two parts. *)
Definition expand_v4 (parts : list string) : option (list string) :=
  match last parts with
  | Some p =>
      if str_contains "." p then
        n ← parse_v4 p;
        Some (take (length parts - 1) parts ++ [hextet_str (Z.land (Z.shiftr n 16) 65535); hextet_str (Z.land n 65535)])
      else Some parts
  | None => None
  end.

(** The indices of the empty parts, without the first and the last part. *)
Definition skip_indices (parts : list string) : list nat :=
  filter (λ i, parts !! i = Some "") (seq 1 (length parts - 2)).

Definition empty_at (parts : list string) (i : nat) : bool := bool_decide (parts !! i = Some "").

(** The parts before the skipped zeros, how many are skipped, and the parts after them. *)
Definition split_parts (parts : list string) : option (list string * nat * list string) :=
  let n := length parts in
  match skip_indices parts with
  | [] => if bool_decide (n = 8)%nat && negb (empty_at parts 0) && negb (empty_at parts (n - 1)) then Some (parts, 0%nat, []) else None
  | [i] =>
      let hi := (if empty_at parts 0 then i - 1 else i)%nat in
      let lo := (if empty_at parts (n - 1) then n - i - 1 - 1 else n - i - 1)%nat in
      if (empty_at parts 0 && bool_decide (hi ≠ 0%nat)) || (empty_at parts (n - 1) && bool_decide (lo ≠ 0%nat))
         || bool_decide (8 - (hi + lo) < 1)%nat
      then None else Some (take hi parts, (8 - (hi + lo))%nat, drop (n - lo) parts)
  | _ => None
  end.

Definition parse_parts (parts : list string) : option Z :=
  '(hi, skipped, lo) ← split_parts parts;
  hi ← mapM parse_hextet hi;
  lo ← mapM parse_hextet lo;
  Some (of_words 16 (Z.shiftl (of_words 16 0 hi) (Z.of_nat (16 * skipped))) lo).

Definition parse_v6 (s : string) : option Z :=
  let parts := py_split colon s in
  if bool_decide (length parts < 3)%nat then None
  else
    parts ← expand_v4 parts;
    if bool_decide (9 < length parts)%nat then None else parse_parts parts.

(** The first of the longest runs of zeros, as its start and its length: the loop of
    [_compress_hextets], with the current run and the best one. *)
Fixpoint best_run (zeros : list bool) (index start len best_start best_len : nat) : nat * nat :=
  match zeros with
  | [] => (best_start, best_len)
  | true :: zeros =>
      let start := if bool_decide (len = 0%nat) then index else start in
      if bool_decide (best_len < S len)%nat then best_run zeros (S index) start (S len) start (S len)
      else best_run zeros (S index) start (S len) best_start best_len
  | false :: zeros => best_run zeros (S index) start 0 best_start best_len
  end.
Definition _compress_hextets (hextets : list string) : list string :=
  let '(start, len) := best_run ((λ h, bool_decide (h = "0")) <$> hextets) 0 0 0 0 0 in
  if bool_decide (1 < len)%nat then
    let hextets' := if bool_decide (start + len = length hextets)%nat then hextets ++ [""] else hextets in
    let hextets' := take start hextets' ++ [""] ++ drop (start + len) hextets' in
    if bool_decide (start = 0%nat) then "" :: hextets' else hextets'
  else hextets.
Definition v6_str (n : Z) : string := py_join colon (_compress_hextets (hextet_str <$> words 16 8 n)).

(** ** Addresses *)

Record IPAddress := mkIPAddress {
  ad_version : IPVersion;
  ad_ip : Z;
  ad_scope : option string;
}.
#[export] Instance IPAddress_eq_dec : EqDecision IPAddress.
Proof. solve_decision. Defined.

(** [_split_scope_id] *)
Definition split_scope_id (s : string) : option (string * option string) :=
  match split_once "%" s with
  | None => Some (s, None)
  | Some (addr, scope) => if bool_decide (scope = "") || str_contains "%" scope then None else Some (addr, Some scope)
  end.

Definition parse_address (v : IPVersion) (s : string) : option IPAddress :=
  match v with
  | V4 => n ← parse_v4 s; Some (mkIPAddress V4 n None)
  | V6 =>
      match split_scope_id s with
      | Some (addr, scope) => match parse_v6 addr with Some n => Some (mkIPAddress V6 n scope) | None => None end
      | None => None
      end
  end.

(** [_string_from_ip_int], and [str] of an address *)
Definition string_from_ip_int (v : IPVersion) (n : Z) : string := match v with V4 => v4_str n | V6 => v6_str n end.
Definition address_str (a : IPAddress) : string :=
  string_from_ip_int (ad_version a) (ad_ip a) +:+ match ad_scope a with Some s => "%" +:+ s | None => "" end.

(** ** Masks *)

(** [_prefix_from_prefix_string], [_prefix_from_ip_int], [_prefix_from_ip_string] *)
Definition prefix_from_prefix_string (v : IPVersion) (s : string) : option Z :=
  if is_decimal s then let n := digits_value 10 s in if n <=? max_prefixlen v then Some n else None else None.
(** The number of zeros on the right of an integer, at most [bits]. *)
Fixpoint count_righthand_zero_bits (bits : nat) (n : Z) : Z :=
  match bits with O => 0 | S bits => if Z.odd n then 0 else 1 + count_righthand_zero_bits bits (Z.shiftr n 1) end.
Definition prefix_from_ip_int (v : IPVersion) (n : Z) : option Z :=
  let trailing_zeroes := count_righthand_zero_bits (Z.to_nat (max_prefixlen v)) n in
  let prefixlen := max_prefixlen v - trailing_zeroes in
  if Z.shiftr n trailing_zeroes =? Z.shiftl 1 prefixlen - 1 then Some prefixlen else None.
Definition prefix_from_ip_string (s : string) : option Z :=
  n ← parse_v4 s;
  match prefix_from_ip_int V4 n with
  | Some p => Some p
  | None => prefix_from_ip_int V4 (Z.lxor n (all_ones V4))
  end.
Definition make_netmask (v : IPVersion) (mask : option string) : option Z :=
  match mask, v with
  | None, _ => Some (max_prefixlen v)
  | Some s, V4 => match prefix_from_prefix_string V4 s with Some p => Some p | None => prefix_from_ip_string s end
  | Some s, V6 => prefix_from_prefix_string V6 s
  end.

(** ** Interfaces and networks *)

(** An address with the length of its prefix: [ip_interface(s)].  A network is one whose
    address has no host bit. *)
Record IPInterface := mkIPInterface {
  if_address : IPAddress;
  if_prefixlen : Z;
}.
#[export] Instance IPInterface_eq_dec : EqDecision IPInterface.
Proof. solve_decision. Defined.

Definition split_addr_prefix (s : string) : option (string * option string) :=
  match py_split "/" s with
  | [addr] => Some (addr, None)
  | [addr; mask] => Some (addr, Some mask)
  | _ => None
  end.
Definition parse_interface (v : IPVersion) (s : string) : option IPInterface :=
  '(addr, mask) ← split_addr_prefix s;
  a ← parse_address v addr;
  p ← make_netmask v mask;
  Some (mkIPInterface a p).

(** The first version that reads the text. *)
Definition parse_any (s : string) : option IPInterface :=
  match parse_interface V4 s with Some i => Some i | None => parse_interface V6 s end.

Definition read_interface (s : string) : result IPInterface :=
  require (ValueError "does not appear to be an IPv4 or IPv6 interface") (parse_any s).

(** The network of an interface, its host bits cleared. *)
Definition if_network (i : IPInterface) : IPNetwork :=
  let n := mkIPNetwork (ad_version (if_address i)) (ad_ip (if_address i)) (if_prefixlen i) in
  mkIPNetwork (version n) (Z.land (network_address n) (netmask n)) (prefixlen n).
Definition has_host_bits (i : IPInterface) : bool :=
  bool_decide (Z.land (ad_ip (if_address i)) (netmask (if_network i)) ≠ ad_ip (if_address i)).

(** The network object keeps the scope of its address. *)
Definition read_network (s : string) : result IPInterface :=
  i ← require (ValueError "does not appear to be an IPv4 or IPv6 network") (parse_any s);
  if has_host_bits i then Err (ValueError "has host bits set") else Ok i.

(** [with_prefixlen] of a network, and of an interface, which leaves the scope out *)
Definition network_with_prefixlen (i : IPInterface) : string := address_str (if_address i) +:+ "/" +:+ pretty (if_prefixlen i).
Definition interface_with_prefixlen (i : IPInterface) : string :=
  string_from_ip_int (ad_version (if_address i)) (ad_ip (if_address i)) +:+ "/" +:+ pretty (if_prefixlen i).

Definition version_number (v : IPVersion) : Z := match v with V4 => 4 | V6 => 6 end.

(** ** [convert_ip_to_binary_str] *)

(** [bin(n)[2:]], for a number that is not negative *)
Fixpoint bin_pos (p : positive) (text : string) : string :=
  match p with
  | xH => String "1" text
  | xO p => bin_pos p (String "0" text)
  | xI p => bin_pos p (String "1" text)
  end.
Definition bin_str (n : Z) : string := match n with Zpos p => bin_pos p "" | _ => "0" end.
(** [s.zfill(width)] *)
Definition zfill (width : nat) (s : string) : string :=
  String.concat "" (replicate (width - String.length s) "0") +:+ s.
Definition ip_binary_str (v : IPVersion) (n : Z) : string := zfill (Z.to_nat (max_prefixlen v)) (bin_str n).

(** ** Examples *)

Example parse_examples :
  read_network "10.0.0.0/8" = Ok (mkIPInterface (mkIPAddress V4 167772160 None) 8) ∧
  read_network "10.0.0.0/255.0.0.0" = Ok (mkIPInterface (mkIPAddress V4 167772160 None) 8) ∧
  read_network "10.0.0.0/0.255.255.255" = Ok (mkIPInterface (mkIPAddress V4 167772160 None) 8) ∧
  read_network "10.0.0.1/8" = Err (ValueError "has host bits set") ∧
  read_network "10.0.0.01/32" = Err (ValueError "does not appear to be an IPv4 or IPv6 network") ∧
  (network_with_prefixlen <$> read_network "2001:0DB8::/32") = Ok "2001:db8::/32" ∧
  (interface_with_prefixlen <$> read_interface "fe80::0:1%eth0/64") = Ok "fe80::1/64" ∧
  (network_with_prefixlen <$> read_network "::ffff:10.0.0.1") = Ok "::ffff:a00:1/128" ∧
  (interface_with_prefixlen <$> read_interface "1:0:0:2:0:0:0:3") = Ok "1:0:0:2::3/128" ∧
  is_ok (read_interface "1::2::3") = false ∧ is_ok (read_interface ":1:2:3:4:5:6:7") = false ∧
  ip_binary_str V4 167772161 = "00001010000000000000000000000001".
Proof. split_and!; by vm_compute. Qed.

(** ** Splitting and joining *)

Definition no_char (c : ascii) (s : string) : bool := str_forall (λ x, negb (bool_decide (x = c))) s.

Lemma str_forall_app f s t : str_forall f (s +:+ t) = str_forall f s && str_forall f t.
Proof.
  unfold str_forall. induction s as [|c s IH]; [done|]. rewrite str_app_cons. cbn. by rewrite IH, andb_assoc.
Qed.
Lemma str_forall_mono (f g : ascii → bool) s : (∀ c, f c = true → g c = true) → str_forall f s = true → str_forall g s = true.
Proof. unfold str_forall. intros Hfg. rewrite !forallb_forall. eauto. Qed.
Lemma no_char_cons c x s : no_char c (String x s) = negb (bool_decide (x = c)) && no_char c s.
Proof. done. Qed.
Lemma no_char_app c s t : no_char c (s +:+ t) = no_char c s && no_char c t.
Proof. apply str_forall_app. Qed.
Lemma startswith_char c x s : startswith (String x s) (String c "") = bool_decide (x = c).
Proof. unfold startswith. cbn. repeat case_decide; case_bool_decide; congruence || done. Qed.

Section split_char.
Context (c : ascii).
#[local] Abbreviation sep := (String c "").

Lemma split_aux_step cur x s :
  split_aux sep 0 cur (String x s) = if bool_decide (x = c) then cur :: split_aux sep 0 "" s else split_aux sep 0 (cur +:+ String x "") s.
Proof. cbn [split_aux]. by rewrite startswith_char. Qed.
Lemma split_aux_last cur s : no_char c s = true → split_aux sep 0 cur s = [cur +:+ s].
Proof.
  revert cur. induction s as [|x s IH]; intros cur; [by rewrite str_app_nil_r|]. rewrite no_char_cons, andb_true_iff, negb_true_iff.
  intros [Hx Hs]. by rewrite split_aux_step, Hx, IH, str_app_assoc.
Qed.
Lemma split_aux_char cur s t : no_char c s = true → split_aux sep 0 cur (s +:+ String c t) = (cur +:+ s) :: split_aux sep 0 "" t.
Proof.
  revert cur. induction s as [|x s IH]; intros cur.
  { intros _. change ("" +:+ String c t) with (String c t). by rewrite split_aux_step, bool_decide_eq_true_2, str_app_nil_r. }
  rewrite no_char_cons, andb_true_iff, negb_true_iff. intros [Hx Hs].
  by rewrite str_app_cons, split_aux_step, Hx, IH, str_app_assoc.
Qed.

(** Parts without the separator are what their join splits into. *)
Lemma split_join parts : parts ≠ [] → Forall (λ p, no_char c p = true) parts → py_split sep (py_join sep parts) = parts.
Proof.
  intros Hne Hall. unfold py_split. induction Hall as [|p parts Hp Hall IH]; [done|]. destruct parts as [|q parts].
  { by apply split_aux_last. }
  change (py_join sep (p :: q :: parts)) with (p +:+ String c (py_join sep (q :: parts))).
  rewrite split_aux_char by done. by rewrite IH.
Qed.

Lemma join_cons p q parts : py_join sep (p :: q :: parts) = p +:+ String c (py_join sep (q :: parts)).
Proof. done. Qed.
Lemma split_aux_nonempty cur s : split_aux sep 0 cur s ≠ [].
Proof. revert cur. induction s as [|x s IH]; intros cur; [done|]. rewrite split_aux_step. case_bool_decide; [done|apply IH]. Qed.
Lemma join_split_aux cur s : py_join sep (split_aux sep 0 cur s) = cur +:+ s.
Proof.
  revert cur. induction s as [|x s IH]; intros cur; [by rewrite str_app_nil_r|]. rewrite split_aux_step. case_bool_decide as Hx.
  - subst x. specialize (IH ""). destruct (split_aux sep 0 "" s) as [|q l] eqn:Hl; [by apply split_aux_nonempty in Hl|].
    by rewrite join_cons, IH.
  - by rewrite IH, str_app_assoc.
Qed.
(** Joining the parts of a text gives the text. *)
Lemma join_split s : py_join sep (py_split sep s) = s.
Proof. apply join_split_aux. Qed.

Lemma str_forall_join f parts : f c = true → Forall (λ p, str_forall f p = true) parts → str_forall f (py_join sep parts) = true.
Proof.
  intros Hc Hall. induction Hall as [|p parts Hp Hall IH]; [done|]. destruct parts as [|q parts]; [done|].
  rewrite join_cons, str_forall_app, Hp. unfold str_forall in *. cbn [String.list_ascii_of_string forallb]. by rewrite Hc, IH.
Qed.
End split_char.

(** ** Words *)

(** A test of all the numbers of [w] bits. *)
Fixpoint forall_bits (f : Z → bool) (w : nat) (acc : Z) : bool :=
  match w with O => f acc | S w => forall_bits f w (2 * acc) && forall_bits f w (2 * acc + 1) end.
Lemma forall_bits_spec f w acc x :
  forall_bits f w acc = true → 0 ≤ x < 2 ^ Z.of_nat w → f (acc * 2 ^ Z.of_nat w + x) = true.
Proof.
  revert acc x. induction w as [|w IH]; intros acc x; cbn [forall_bits].
  { change (2 ^ Z.of_nat 0) with 1. intros Hf ?. by replace (acc * 1 + x) with acc by lia. }
  rewrite andb_true_iff. intros [H0 H1] Hx. rewrite Nat2Z.inj_succ, Z.pow_succ_r in * by lia.
  destruct (decide (x < 2 ^ Z.of_nat w)).
  - specialize (IH (2 * acc) x H0 ltac:(lia)). by replace (acc * (2 * 2 ^ Z.of_nat w) + x) with (2 * acc * 2 ^ Z.of_nat w + x) by lia.
  - specialize (IH (2 * acc + 1) (x - 2 ^ Z.of_nat w) H1 ltac:(lia)).
    by replace (acc * (2 * 2 ^ Z.of_nat w) + x) with ((2 * acc + 1) * 2 ^ Z.of_nat w + (x - 2 ^ Z.of_nat w)) by lia.
Qed.
Lemma forall_below f w x : forall_bits f w 0 = true → 0 ≤ x < 2 ^ Z.of_nat w → f x = true.
Proof. intros Hf Hx. by specialize (forall_bits_spec f w 0 x Hf Hx). Qed.

Lemma lor_shiftl acc h w : 0 ≤ w → 0 ≤ h < 2 ^ w → Z.lor (Z.shiftl acc w) h = acc * 2 ^ w + h.
Proof.
  intros Hw Hh. assert (Z.land (Z.shiftl acc w) h = 0) as Hland.
  { apply Z.bits_inj'. intros i Hi. rewrite Z.land_spec, Z.bits_0. destruct (decide (i < w)).
    - by rewrite Z.shiftl_spec_low.
    - rewrite (testbit_above h w i) by lia. by rewrite andb_false_r. }
  by rewrite <-Z.lxor_lor, <-Z.add_nocarry_lxor, Z.shiftl_mul_pow2 by done.
Qed.

Lemma words_succ w k n : words w (S k) n = (Z.shiftr n (Z.of_nat (w * k)) mod 2 ^ Z.of_nat w) :: words w k n.
Proof. unfold words. by rewrite seq_S, rev_app_distr. Qed.
Lemma words_length w k n : length (words w k n) = k.
Proof. unfold words. by rewrite length_fmap, length_rev, length_seq. Qed.
Lemma words_bound w k n : Forall (λ h, 0 ≤ h < 2 ^ Z.of_nat w) (words w k n).
Proof. unfold words. apply Forall_fmap, Forall_true. intros i. apply Z.mod_pos_bound. lia. Qed.

Lemma of_words_words w k n acc : 0 ≤ n → of_words w acc (words w k n) = acc * 2 ^ Z.of_nat (w * k) + n mod 2 ^ Z.of_nat (w * k).
Proof.
  intros Hn. revert acc. induction k as [|k IH]; intros acc.
  { rewrite Nat.mul_0_r. cbn. rewrite Zmod_1_r. lia. }
  rewrite words_succ. unfold of_words in *. cbn [foldl]. rewrite IH, lor_shiftl by (try lia; apply Z.mod_pos_bound; lia).
  rewrite Z.shiftr_div_pow2 by lia. replace (Z.of_nat (w * S k)) with (Z.of_nat (w * k) + Z.of_nat w) by lia.
  rewrite Z.pow_add_r, Z.rem_mul_r by lia. lia.
Qed.
(** The words of a number write it. *)
Lemma of_words_id w k n : 0 ≤ n < 2 ^ Z.of_nat (w * k) → of_words w 0 (words w k n) = n.
Proof. intros Hn. rewrite of_words_words by lia. rewrite Z.mod_small by done. lia. Qed.
Lemma of_words_app w acc l1 l2 : of_words w acc (l1 ++ l2) = of_words w (of_words w acc l1) l2.
Proof. apply foldl_app. Qed.
Lemma of_words_zeros w acc k : of_words w acc (replicate k 0) = Z.shiftl acc (Z.of_nat (w * k)).
Proof.
  revert acc. induction k as [|k IH]; intros acc; [by rewrite Nat.mul_0_r, Z.shiftl_0_r|].
  unfold of_words in *. cbn [replicate foldl]. rewrite IH, Z.lor_0_r, Z.shiftl_shiftl by lia. f_equal. lia.
Qed.

(** ** Numbers that are printed are read back *)

Definition plain_char (c : ascii) : bool := is_hexdigit c || bool_decide (c = ":"%char) || bool_decide (c = "."%char).

Lemma octet_str n : 0 ≤ n < 256 → parse_octet (pretty n) = Some n ∧ str_forall is_digit (pretty n) = true.
Proof.
  intros Hn. apply (forall_below (λ n, bool_decide (parse_octet (pretty n) = Some n ∧ str_forall is_digit (pretty n) = true)) 8) in Hn.
  - by apply bool_decide_eq_true in Hn.
  - by vm_compute.
Qed.
Lemma prefix_str n : 0 ≤ n < 256 → is_decimal (pretty n) = true ∧ digits_value 10 (pretty n) = n.
Proof.
  intros Hn. apply (forall_below (λ n, bool_decide (is_decimal (pretty n) = true ∧ digits_value 10 (pretty n) = n)) 8) in Hn.
  - by apply bool_decide_eq_true in Hn.
  - by vm_compute.
Qed.

Definition add_digit (base acc : Z) (c : ascii) : Z := acc * base + default 0 (digit_value base (lower_char c)).
Lemma hex_digit_spec n : 0 ≤ n < 16 → is_hexdigit (hex_digit n) = true ∧ ∀ acc, add_digit 16 acc (hex_digit n) = acc * 16 + n.
Proof.
  intros Hn. split.
  - by apply (forall_below (λ n, is_hexdigit (hex_digit n)) 4).
  - intros acc. unfold add_digit. f_equal. apply Z.eqb_eq.
    by apply (forall_below (λ n, default 0 (digit_value 16 (lower_char (hex_digit n))) =? n) 4).
Qed.
Lemma hex_text_spec k n t :
  0 ≤ n < 16 ^ Z.of_nat (S k) →
  let s := hex_text (S k) n t in
  str_forall is_hexdigit s = str_forall is_hexdigit t ∧
  foldl (add_digit 16) 0 (String.list_ascii_of_string s) = foldl (add_digit 16) n (String.list_ascii_of_string t) ∧
  (String.length t < String.length s ≤ S k + String.length t)%nat.
Proof.
  revert n t. induction k as [|k IH]; intros n t Hn; cbn [hex_text].
  - rewrite (proj2 (Z.ltb_lt n 16)) by (change (16 ^ Z.of_nat 1) with 16 in Hn; lia).
    destruct (hex_digit_spec n ltac:(change (16 ^ Z.of_nat 1) with 16 in Hn; lia)) as [Hd Ha]. unfold str_forall.
    cbn [String.list_ascii_of_string forallb foldl String.length]. rewrite Hd, Ha. split_and!; [done|done|lia|lia].
  - destruct (Z.ltb_spec n 16) as [Hlt|Hge].
    + destruct (hex_digit_spec n ltac:(lia)) as [Hd Ha]. unfold str_forall. cbn [String.list_ascii_of_string forallb foldl String.length].
      rewrite Hd, Ha. split_and!; [done|done|lia|lia].
    + rewrite Nat2Z.inj_succ, Z.pow_succ_r in Hn by lia.
      destruct (IH (n / 16) (String (hex_digit (n mod 16)) t)) as (Hf & Hv & Hl).
      { split; [apply Z.div_pos; lia|apply Z.div_lt_upper_bound; lia]. }
      destruct (hex_digit_spec (n mod 16) ltac:(apply Z.mod_pos_bound; lia)) as [Hd Ha]. cbn [hex_text] in Hf, Hv, Hl.
      split_and!.
      * rewrite Hf. unfold str_forall. cbn [String.list_ascii_of_string forallb]. by rewrite Hd.
      * rewrite Hv. cbn [String.list_ascii_of_string foldl]. rewrite Ha. f_equal. rewrite (Z.div_mod n 16) at 3 by done. lia.
      * cbn [String.length] in Hl. lia.
      * cbn [String.length] in Hl. lia.
Qed.
Lemma hextet_str_spec n : 0 ≤ n < 65536 →
  parse_hextet (hextet_str n) = Some n ∧ str_forall is_hexdigit (hextet_str n) = true ∧ (hextet_str n = "0" → n = 0).
Proof.
  intros Hn. destruct (hex_text_spec 3 n "" Hn) as (Hf & Hv & Hl). change (hex_text 4 n "") with (hextet_str n) in Hf, Hv, Hl.
  assert (parse_hextet (hextet_str n) = Some n) as Hp.
  { unfold parse_hextet. rewrite Hf. assert (hextet_str n ≠ "") as Hne by (intros Heq; rewrite Heq in Hl; cbn in Hl; lia).
    assert (String.length (hextet_str n) ≤ 4)%nat as Hle by (change (String.length "") with 0%nat in Hl; lia).
    rewrite (bool_decide_eq_false_2 (hextet_str n = "")), (bool_decide_eq_true_2 (String.length _ ≤ 4)%nat) by done.
    change (digits_value 16 (hextet_str n)) with (foldl (add_digit 16) 0 (String.list_ascii_of_string (hextet_str n))).
    by rewrite Hv. }
  split_and!; [done|done|]. intros H0. rewrite H0 in Hp. by injection Hp as <-.
Qed.

#[local] Opaque hextet_str.

(** ** Version 4 *)

Lemma mapM_octets l : Forall (λ n, 0 ≤ n < 256) l → mapM parse_octet (pretty <$> l) = Some l.
Proof. induction 1 as [|n l Hn _ IH]; [done|]. cbn. destruct (octet_str n Hn) as [-> _]. cbn. by rewrite IH. Qed.
Lemma digit_not c d : is_digit c = true → is_digit d = false → negb (bool_decide (c = d)) = true.
Proof. intros Hc Hd. rewrite bool_decide_eq_false_2; [done|]. intros ->. congruence. Qed.

Lemma parse_v4_str n : 0 ≤ n < 2 ^ 32 → parse_v4 (v4_str n) = Some n.
Proof.
  intros Hn. unfold parse_v4, v4_str. pose proof (words_bound 8 4 n) as Hb. pose proof (words_length 8 4 n) as Hlen.
  rewrite split_join.
  - destruct (words 8 4 n) as [|a [|b [|c [|d [|]]]]] eqn:Hw; try done. cbn [fmap list_fmap].
    change [pretty a; pretty b; pretty c; pretty d] with (pretty <$> [a; b; c; d]). rewrite mapM_octets by done.
    cbn [mbind option_bind]. rewrite <-Hw. f_equal. by apply (of_words_id 8 4).
  - by destruct (words 8 4 n).
  - apply Forall_fmap. eapply Forall_impl; [exact Hb|]. intros h Hh. destruct (octet_str h Hh) as [_ Hd].
    eapply str_forall_mono, Hd. intros c Hc. by apply digit_not.
Qed.
Lemma v4_chars n : str_forall (λ c, is_digit c || bool_decide (c = "."%char)) (v4_str n) = true.
Proof.
  unfold v4_str. apply str_forall_join; [done|]. apply Forall_fmap. eapply Forall_impl; [apply words_bound|].
  intros h Hh. destruct (octet_str h Hh) as [_ Hd]. eapply str_forall_mono, Hd. intros c ->. done.
Qed.
(** What is read as an address of the version 4 has only digits and dots. *)
Lemma parse_octet_digits s n : parse_octet s = Some n → str_forall is_digit s = true.
Proof.
  unfold parse_octet, is_decimal. destruct (str_forall is_digit s); [done|]. by rewrite andb_false_r.
Qed.
Lemma parse_v4_chars s n : parse_v4 s = Some n → str_forall (λ c, is_digit c || bool_decide (c = "."%char)) s = true.
Proof.
  unfold parse_v4. destruct (py_split "." s) as [|a [|b [|c [|d [|]]]]] eqn:Hs; try done. intros Hp.
  rewrite <-(join_split "."%char s), Hs. apply str_forall_join; [done|].
  assert (Forall (λ p, ∃ m, parse_octet p = Some m) [a; b; c; d]) as Hall.
  { cbn in Hp. destruct (parse_octet a) eqn:Ha, (parse_octet b) eqn:Hb, (parse_octet c) eqn:Hc, (parse_octet d) eqn:Hd; try done.
    repeat (constructor; [by eexists|]). constructor. }
  eapply Forall_impl; [exact Hall|]. intros x (m & Hx). eapply str_forall_mono, parse_octet_digits, Hx. by intros ? ->.
Qed.

(** ** Version 6 *)

(** The parts with the zeros from [s], [l] of them, left out. *)
Definition compressed (parts : list string) (s l : nat) : list string :=
  (if bool_decide (s = 0%nat) then [""] else []) ++ take s parts ++ [""] ++ drop (s + l) parts ++
  (if bool_decide (s + l = length parts)%nat then [""] else []).

Lemma compress_run parts s l :
  best_run ((λ h, bool_decide (h = "0")) <$> parts) 0 0 0 0 0 = (s, l) → (s + l ≤ length parts)%nat →
  _compress_hextets parts = if bool_decide (1 < l)%nat then compressed parts s l else parts.
Proof.
  intros Hrun Hle. unfold _compress_hextets, compressed. rewrite Hrun. case_bool_decide; [|done].
  assert (∀ p : list string, take s (parts ++ p) = take s parts ∧ drop (s + l) (parts ++ p) = drop (s + l) parts ++ p) as Happ.
  { intros p. split; [by rewrite take_app_le by lia|by rewrite drop_app_le by lia]. }
  repeat case_bool_decide; cbn [app]; rewrite ?app_nil_r; try done; by destruct (Happ [""]) as [-> ->].
Qed.

(** The best run is a run of zeros. *)
Definition run_ok (zeros : list bool) (r : nat * nat) : bool :=
  bool_decide (r.1 + r.2 ≤ length zeros)%nat && forallb id (take r.2 (drop r.1 zeros)).
Fixpoint all_flags (k : nat) : list (list bool) :=
  match k with O => [[]] | S k => (cons true <$> all_flags k) ++ (cons false <$> all_flags k) end.
Lemma elem_of_all_flags zeros : zeros ∈ all_flags (length zeros).
Proof.
  induction zeros as [|[] zeros IH]; cbn; [by left|..]; rewrite elem_of_app, !list_elem_of_fmap; [left|right]; by exists zeros.
Qed.
Lemma best_run_ok zeros : length zeros = 8%nat → run_ok zeros (best_run zeros 0 0 0 0 0) = true.
Proof.
  intros Hlen. assert (forallb (λ z, run_ok z (best_run z 0 0 0 0 0)) (all_flags 8) = true) as Hall by by vm_compute.
  rewrite forallb_forall in Hall. apply Hall, list_elem_of_In. rewrite <-Hlen. apply elem_of_all_flags.
Qed.

Ltac concrete_parts parts Hlen Hne :=
  destruct parts as [|p0 [|p1 [|p2 [|p3 [|p4 [|p5 [|p6 [|p7 [|]]]]]]]]]; try discriminate Hlen; clear Hlen;
  rewrite !Forall_cons in Hne; destruct Hne as (? & ? & ? & ? & ? & ? & ? & ? & _);
  destruct p0, p1, p2, p3, p4, p5, p6, p7; try congruence.

Lemma split_uncompressed parts : length parts = 8%nat → Forall (.≠ "") parts → split_parts parts = Some (parts, 0%nat, []).
Proof. intros Hlen Hne. concrete_parts parts Hlen Hne. reflexivity. Qed.
Lemma split_compressed parts s l :
  length parts = 8%nat → Forall (.≠ "") parts → (1 < l)%nat → (s + l ≤ 8)%nat →
  split_parts (compressed parts s l) = Some (take s parts, l, drop (s + l) parts) ∧
  (3 ≤ length (compressed parts s l) ≤ 9)%nat.
Proof.
  intros Hlen Hne Hl Hs. concrete_parts parts Hlen Hne.
  do 7 (destruct s as [|s]; [do 9 (destruct l as [|l]; [first [lia | split; [reflexivity|split; apply Nat.leb_le; reflexivity]]|]); lia|]). lia.
Qed.

Lemma hex_not_char c s : is_hexdigit c = false → str_forall is_hexdigit s = true → no_char c s = true.
Proof. intros Hc. apply str_forall_mono. intros x Hx. rewrite bool_decide_eq_false_2; [done|]. intros ->. congruence. Qed.
Lemma mapM_hextets l : Forall (λ n, 0 ≤ n < 65536) l → mapM parse_hextet (hextet_str <$> l) = Some l.
Proof. induction 1 as [|n l Hn _ IH]; [done|]. cbn. destruct (hextet_str_spec n Hn) as (-> & _). cbn. by rewrite IH. Qed.
Lemma contains_char c s : no_char c s = true → str_contains (String c "") s = false.
Proof.
  induction s as [|x s IH]; [done|]. rewrite no_char_cons, andb_true_iff, negb_true_iff. intros [Hx Hs].
  cbn [str_contains]. by rewrite startswith_char, Hx, IH.
Qed.
Lemma contains_join c parts : (1 < length parts)%nat → no_char c (py_join (String c "") parts) = false.
Proof.
  destruct parts as [|p [|q parts]]; cbn [length]; [lia|lia|]. intros _. rewrite join_cons, no_char_app, no_char_cons.
  rewrite bool_decide_eq_true_2 by done. by rewrite andb_false_r.
Qed.

(** The parts of an address of the version 6. *)
Definition v6_parts (n : Z) : list string := _compress_hextets (hextet_str <$> words 16 8 n).

Lemma v6_parts_spec n : 0 ≤ n < 2 ^ 128 →
  (3 ≤ length (v6_parts n) ≤ 9)%nat ∧ parse_parts (v6_parts n) = Some n ∧
  Forall (λ p, str_forall is_hexdigit p = true) (v6_parts n).
Proof.
  intros Hn. unfold v6_parts. set (hs := words 16 8 n). pose proof (words_bound 16 8 n) as Hb. fold hs in Hb.
  assert (length hs = 8%nat) as Hlen by apply words_length. set (parts := hextet_str <$> hs).
  assert (length parts = 8%nat) as Hplen by (unfold parts; by rewrite length_fmap).
  assert (Forall (λ p, str_forall is_hexdigit p = true) parts) as Hhex.
  { apply Forall_fmap. eapply Forall_impl; [exact Hb|]. intros h Hh. by destruct (hextet_str_spec h Hh) as (_ & ? & _). }
  assert (Forall (.≠ "") parts) as Hne.
  { apply Forall_fmap. eapply Forall_impl; [exact Hb|]. intros h Hh. cbn. intros Heq.
    destruct (hextet_str_spec h Hh) as (Hp & _). by rewrite Heq in Hp. }
  assert (of_words 16 0 hs = n) as Hval by by apply (of_words_id 16 8).
  destruct (best_run ((λ h, bool_decide (h = "0")) <$> parts) 0 0 0 0 0) as [s l] eqn:Hrun.
  pose proof (best_run_ok ((λ h, bool_decide (h = "0")) <$> parts) ltac:(by rewrite length_fmap)) as Hok.
  rewrite Hrun in Hok. unfold run_ok in Hok. cbn [fst snd] in Hok. rewrite length_fmap, Hplen in Hok.
  apply andb_true_iff in Hok as [Hle%bool_decide_eq_true Hzeros]. rewrite (compress_run parts s l) by (done || lia).
  case_bool_decide as Hl.
  - destruct (split_compressed parts s l Hplen Hne Hl Hle) as [Hsplit Hcount]. split_and!; [lia|lia| |].
    + unfold parse_parts. rewrite Hsplit. cbn [mbind option_bind]. unfold parts. rewrite <-fmap_take, <-fmap_drop.
      rewrite (mapM_hextets (take s hs)), (mapM_hextets (drop (s + l) hs)) by (by apply Forall_take || by apply Forall_drop).
      cbn [mbind option_bind]. f_equal. rewrite <-of_words_zeros, <-!of_words_app, <-Hval. f_equal.
      rewrite <-(take_drop s hs) at 3. f_equal. rewrite <-drop_drop. rewrite <-(take_drop l (drop s hs)) at 2. f_equal.
      apply (list_eq_same_length _ _ l); [rewrite length_take, length_drop; lia|by rewrite length_replicate|].
      intros i x y Hi Hx Hy. apply lookup_replicate in Hx as [-> _]. rewrite lookup_take_lt, lookup_drop in Hy by done.
      rewrite Forall_forall in Hb. symmetry. apply (hextet_str_spec y); [by eapply Hb, list_elem_of_lookup_2|].
      rewrite forallb_forall in Hzeros. apply (bool_decide_eq_true_1 _), (Hzeros (bool_decide (hextet_str y = "0"))), list_elem_of_In.
      apply list_elem_of_lookup. exists i. unfold parts.
      by rewrite lookup_take_lt, lookup_drop, !list_lookup_fmap, Hy by done.
    + unfold compressed. repeat apply Forall_app_2; try (by apply Forall_take); try (by apply Forall_drop);
        try case_bool_decide; repeat constructor.
  - split_and!; [lia|lia| |done]. unfold parse_parts. rewrite split_uncompressed by done. cbn [mbind option_bind].
    unfold parts. rewrite mapM_hextets by done. cbn [mbind option_bind mapM].
    change (of_words 16 ?a []) with a. change (Z.of_nat (16 * 0)) with 0. by rewrite Z.shiftl_0_r, Hval.
Qed.

Lemma parse_v6_str n : 0 ≤ n < 2 ^ 128 → parse_v6 (v6_str n) = Some n.
Proof.
  intros Hn. destruct (v6_parts_spec n Hn) as (Hlen & Hparse & Hhex). unfold parse_v6, v6_str. fold (v6_parts n).
  rewrite split_join.
  - rewrite bool_decide_eq_false_2 by lia. unfold expand_v4. destruct (last (v6_parts n)) as [p|] eqn:Hlast.
    2: { apply last_None in Hlast. rewrite Hlast in Hlen. cbn in Hlen. lia. }
    rewrite contains_char. 2: { apply last_Some in Hlast as [l Hl]. rewrite Hl, Forall_app, Forall_singleton in Hhex.
      apply hex_not_char; [done|apply Hhex]. }
    cbn [mbind option_bind]. by rewrite bool_decide_eq_false_2 by lia.
  - intros Heq. rewrite Heq in Hlen. cbn in Hlen. lia.
  - eapply Forall_impl; [exact Hhex|]. intros p. by apply hex_not_char.
Qed.
Lemma v6_chars n : 0 ≤ n < 2 ^ 128 → str_forall (λ c, is_hexdigit c || bool_decide (c = ":"%char)) (v6_str n) = true ∧ no_char ":" (v6_str n) = false.
Proof.
  intros Hn. destruct (v6_parts_spec n Hn) as (Hlen & _ & Hhex). unfold v6_str. fold (v6_parts n). split.
  - apply str_forall_join; [done|]. eapply Forall_impl; [exact Hhex|]. intros p. apply str_forall_mono. by intros c ->.
  - apply contains_join. lia.
Qed.

(** ** Interfaces *)

#[local] Opaque parse_v4 v4_str parse_v6 v6_str.

Lemma split_once_char c s t : no_char c s = true → split_once (String c "") (s +:+ String c t) = Some (s, t).
Proof.
  induction s as [|x s IH]; intros Hs.
  - change ("" +:+ String c t) with (String c t). cbn. by rewrite decide_True.
  - rewrite no_char_cons, andb_true_iff, negb_true_iff, bool_decide_eq_false in Hs. destruct Hs as [Hx Hs].
    rewrite str_app_cons. cbn [split_once strip_prefix]. rewrite decide_False by done. by rewrite IH.
Qed.
Lemma split_once_no_char c s : no_char c s = true → split_once (String c "") s = None.
Proof. intros Hs. by apply split_once_none, contains_char. Qed.

(** A text that reads back: an address of its version, a scope that has no separator, and a
    prefix that the version allows. *)
Definition scope_ok (s : string) : Prop := s ≠ "" ∧ no_char "%" s = true ∧ no_char "/" s = true.
Record valid_interface (i : IPInterface) : Prop := {
  vi_ip : 0 ≤ ad_ip (if_address i) < 2 ^ max_prefixlen (ad_version (if_address i));
  vi_prefixlen : 0 ≤ if_prefixlen i ≤ max_prefixlen (ad_version (if_address i));
  vi_scope : match ad_scope (if_address i) with Some s => ad_version (if_address i) = V6 ∧ scope_ok s | None => True end;
}.

Lemma v4_no_char c n : is_digit c || bool_decide (c = "."%char) = false → no_char c (v4_str n) = true.
Proof.
  intros Hc. eapply str_forall_mono, v4_chars. intros x Hx. cbn in Hx. rewrite bool_decide_eq_false_2; [done|]. intros ->. congruence.
Qed.
Lemma v6_no_char c n : 0 ≤ n < 2 ^ 128 → is_hexdigit c || bool_decide (c = ":"%char) = false → no_char c (v6_str n) = true.
Proof.
  intros Hn Hc. eapply str_forall_mono, (v6_chars n Hn). intros x Hx. cbn in Hx. rewrite bool_decide_eq_false_2; [done|]. intros ->. congruence.
Qed.

Lemma parse_v4_address n : 0 ≤ n < 2 ^ 32 →
  parse_address V4 (address_str (mkIPAddress V4 n None)) = Some (mkIPAddress V4 n None) ∧
  no_char "/" (address_str (mkIPAddress V4 n None)) = true.
Proof.
  intros Hn. unfold address_str. cbn [ad_version ad_ip ad_scope string_from_ip_int]. rewrite str_app_nil_r.
  unfold parse_address. rewrite parse_v4_str by exact Hn. split; [reflexivity|]. by apply v4_no_char.
Qed.
Lemma parse_v6_address n scope : 0 ≤ n < 2 ^ 128 → match scope with Some s => scope_ok s | None => True end →
  parse_address V6 (address_str (mkIPAddress V6 n scope)) = Some (mkIPAddress V6 n scope) ∧
  no_char "/" (address_str (mkIPAddress V6 n scope)) = true.
Proof.
  intros Hn Hscope. unfold address_str. cbn [ad_version ad_ip ad_scope string_from_ip_int].
  assert (no_char "%" (v6_str n) = true ∧ no_char "/" (v6_str n) = true) as [Hperc Hslash] by (split; by apply v6_no_char).
  unfold parse_address, split_scope_id. destruct scope as [s|].
  - destruct Hscope as (Hs & Hsp & Hss). change ("%" +:+ s) with (String "%" s). rewrite split_once_char by exact Hperc.
    rewrite bool_decide_eq_false_2, contains_char by done. cbn [orb]. rewrite parse_v6_str by exact Hn.
    split; [reflexivity|]. rewrite no_char_app, no_char_cons, Hslash, Hss. reflexivity.
  - rewrite str_app_nil_r. rewrite split_once_no_char by exact Hperc. rewrite parse_v6_str by exact Hn.
    split; [reflexivity|exact Hslash].
Qed.
Lemma parse_address_str i : valid_interface i →
  parse_address (ad_version (if_address i)) (address_str (if_address i)) = Some (if_address i) ∧
  no_char "/" (address_str (if_address i)) = true.
Proof.
  intros [Hip _ Hscope]. destruct i as [[v n scope] p]. cbn [if_address ad_version ad_ip ad_scope] in *.
  destruct v; [destruct scope; [by destruct Hscope|by apply parse_v4_address]|].
  apply parse_v6_address; [exact Hip|]. destruct scope; [apply Hscope|done].
Qed.

Lemma make_netmask_str v p : 0 ≤ p ≤ max_prefixlen v → make_netmask v (Some (pretty p)) = Some p.
Proof.
  intros Hp. assert (max_prefixlen v ≤ 128) by by destruct v. destruct (prefix_str p) as [Hd Hv]; [lia|].
  assert (prefix_from_prefix_string v (pretty p) = Some p) as Hpre.
  { unfold prefix_from_prefix_string. rewrite Hd, Hv. by rewrite (proj2 (Z.leb_le _ _)) by lia. }
  unfold make_netmask. destruct v; by rewrite Hpre.
Qed.
Lemma pretty_no_slash p : 0 ≤ p < 256 → no_char "/" (pretty p) = true.
Proof.
  intros Hp. destruct (octet_str p Hp) as [_ Hd]. eapply str_forall_mono, Hd. intros c Hc. by apply digit_not.
Qed.

Lemma parse_interface_str i : valid_interface i →
  parse_interface (ad_version (if_address i)) (network_with_prefixlen i) = Some i.
Proof.
  intros Hi. destruct (parse_address_str i Hi) as [Ha Hslash]. pose proof (vi_prefixlen i Hi) as Hp.
  assert (max_prefixlen (ad_version (if_address i)) ≤ 128) by by destruct (ad_version (if_address i)).
  unfold parse_interface, split_addr_prefix, network_with_prefixlen.
  change (address_str (if_address i) +:+ "/" +:+ pretty (if_prefixlen i)) with
    (py_join "/" [address_str (if_address i); pretty (if_prefixlen i)]).
  rewrite split_join; [|done|repeat constructor; [done|apply pretty_no_slash; lia]]. cbn [mbind option_bind].
  rewrite Ha. cbn [mbind option_bind]. rewrite make_netmask_str by done. by destruct i.
Qed.

(** The text of an address of the version 6 is not read as one of the version 4. *)
Lemma parse_v4_colon addr mask :
  no_char ":" addr = false → no_char "/" addr = true → no_char "/" mask = true →
  parse_interface V4 (addr +:+ "/" +:+ mask) = None.
Proof.
  intros Hcolon Ha Hm. unfold parse_interface, split_addr_prefix.
  change (addr +:+ "/" +:+ mask) with (py_join "/" [addr; mask]). rewrite split_join; [|done|by repeat constructor].
  cbn [mbind option_bind]. unfold parse_address. destruct (parse_v4 addr) as [n|] eqn:Hv; [|done].
  apply parse_v4_chars in Hv. assert (no_char ":" addr = true); [|congruence].
  eapply str_forall_mono, Hv. intros c Hc. cbn in Hc. rewrite bool_decide_eq_false_2; [done|]. intros ->. done.
Qed.

Lemma parse_any_str i : valid_interface i → parse_any (network_with_prefixlen i) = Some i.
Proof.
  intros Hi. pose proof (parse_interface_str i Hi) as Hself. unfold parse_any.
  destruct (ad_version (if_address i)) eqn:Hv; [by rewrite Hself|]. unfold network_with_prefixlen in *. rewrite parse_v4_colon, Hself; [done|..].
  - unfold address_str. rewrite Hv, no_char_app. pose proof (vi_ip i Hi) as Hip. rewrite Hv in Hip. cbn [string_from_ip_int].
    destruct (v6_chars (ad_ip (if_address i)) Hip) as [_ ->]. done.
  - apply (parse_address_str i Hi).
  - apply pretty_no_slash. pose proof (vi_prefixlen i Hi) as Hp. rewrite Hv in Hp. cbn in Hp. lia.
Qed.

(** ** What is read is valid *)

Lemma split_aux_no_char c cur s : no_char c cur = true → Forall (λ p, no_char c p = true) (split_aux (String c "") 0 cur s).
Proof.
  revert cur. induction s as [|x s IH]; intros cur Hcur; [by repeat constructor|]. rewrite split_aux_step.
  case_bool_decide as Hx; [constructor; [done|by apply IH]|]. apply IH. rewrite no_char_app, Hcur, no_char_cons.
  by rewrite bool_decide_eq_false_2.
Qed.
(** No part holds the separator. *)
Lemma split_no_char c s : Forall (λ p, no_char c p = true) (py_split (String c "") s).
Proof. by apply split_aux_no_char. Qed.

Lemma digit_bounds base c : 0 < base → 0 ≤ default 0 (digit_value base c) < base ∨ default 0 (digit_value base c) = 0.
Proof.
  intros Hb. unfold digit_value. set (v := if is_digit c then _ else _).
  assert (∀ z, v = Some z → 0 ≤ z) as Hv.
  { intros z. subst v. unfold is_digit, is_upper, is_lower. repeat case_match; intros [= <-]; rewrite ?andb_true_iff, ?N.leb_le in *; lia. }
  destruct v as [z|]; [|by right]. specialize (Hv z eq_refl). destruct (z <? base) eqn:Hz; [|by right]. apply Z.ltb_lt in Hz. left. cbn. lia.
Qed.
Lemma digits_bounds base s : 0 < base → 0 ≤ digits_value base s < base ^ Z.of_nat (String.length s).
Proof.
  intros Hb. unfold digits_value.
  assert (∀ acc, 0 ≤ acc → 0 ≤ foldl (add_digit base) acc (String.list_ascii_of_string s) < (acc + 1) * base ^ Z.of_nat (String.length s)) as H.
  { induction s as [|c s IH]; intros acc Hacc; [cbn; lia|]. cbn [String.list_ascii_of_string foldl String.length].
    rewrite Nat2Z.inj_succ, Z.pow_succ_r by lia.
    assert (acc * base ≤ add_digit base acc c < acc * base + base) as Hd.
    { unfold add_digit. destruct (digit_bounds base (lower_char c) Hb) as [Hd|Hd]; [|rewrite Hd]; lia. }
    specialize (IH (add_digit base acc c) ltac:(nia)).
    assert (0 < base ^ Z.of_nat (String.length s)) by (by apply Z.pow_pos_nonneg; lia). nia. }
  specialize (H 0 ltac:(lia)). rewrite Z.add_0_l, Z.mul_1_l in H. exact H.
Qed.

Lemma parse_octet_bounds s n : parse_octet s = Some n → 0 ≤ n < 2 ^ Z.of_nat 8.
Proof.
  unfold parse_octet. destruct (_ && _ && _); [|done]. destruct (Z.leb_spec (digits_value 10 s) 255); [|done]. intros [= <-].
  pose proof (digits_bounds 10 s ltac:(lia)). change (2 ^ Z.of_nat 8) with 256. lia.
Qed.
Lemma parse_hextet_bounds s n : parse_hextet s = Some n → 0 ≤ n < 2 ^ Z.of_nat 16.
Proof.
  unfold parse_hextet. destruct (negb _ && _); [|done]. cbn [andb]. case_bool_decide as Hlen; [|done]. intros [= <-].
  pose proof (digits_bounds 16 s ltac:(lia)) as Hb. assert (16 ^ Z.of_nat (String.length s) ≤ 16 ^ 4) by (apply Z.pow_le_mono_r; lia).
  change (2 ^ Z.of_nat 16) with (16 ^ 4). lia.
Qed.
Lemma mapM_bounds (f : string → option Z) w l r : (∀ s n, f s = Some n → 0 ≤ n < 2 ^ Z.of_nat w) → mapM f l = Some r →
  Forall (λ n, 0 ≤ n < 2 ^ Z.of_nat w) r ∧ length r = length l.
Proof.
  intros Hf Hm. apply mapM_Some in Hm. split; [|by apply Forall2_length in Hm]. induction Hm; constructor; eauto.
Qed.

Lemma of_words_bounds w acc l : 0 ≤ acc → Forall (λ n, 0 ≤ n < 2 ^ Z.of_nat w) l →
  0 ≤ of_words w acc l < (acc + 1) * 2 ^ Z.of_nat (w * length l).
Proof.
  intros Hacc Hl. revert acc Hacc. induction Hl as [|n l Hn Hl IH]; intros acc Hacc; cbn [length].
  { rewrite Nat.mul_0_r. cbn. lia. }
  unfold of_words in *. cbn [foldl]. rewrite lor_shiftl by lia.
  replace (Z.of_nat (w * S (length l))) with (Z.of_nat w + Z.of_nat (w * length l)) by lia. rewrite Z.pow_add_r by lia.
  specialize (IH (acc * 2 ^ Z.of_nat w + n) ltac:(nia)).
  assert (0 < 2 ^ Z.of_nat (w * length l)) by (apply Z.pow_pos_nonneg; lia). nia.
Qed.

#[local] Transparent parse_v4 parse_v6.
Lemma parse_v4_bounds s n : parse_v4 s = Some n → 0 ≤ n < 2 ^ 32.
Proof.
  unfold parse_v4. destruct (py_split "." s) as [|a [|b [|c [|d [|]]]]]; try done.
  intros (octets & Hm & [= <-])%bind_Some. destruct (mapM_bounds _ _ _ _ parse_octet_bounds Hm) as [Hb Hlen].
  pose proof (of_words_bounds 8 0 octets ltac:(lia) Hb) as H. rewrite Hlen in H. exact H.
Qed.

Lemma elem_of_skip_indices parts i : i ∈ skip_indices parts → (0 < i < length parts - 1)%nat.
Proof. unfold skip_indices. rewrite list_elem_of_filter, elem_of_seq. lia. Qed.
Lemma split_parts_length parts hi k lo : split_parts parts = Some (hi, k, lo) → (length hi + k + length lo = 8)%nat.
Proof.
  unfold split_parts. destruct (skip_indices parts) as [|i [|]] eqn:Hi; [| |done].
  - case_match eqn:Hc; [|done]. intros [= <- <- <-]. apply andb_true_iff in Hc as [[Hc%bool_decide_eq_true _]%andb_true_iff _]. cbn. lia.
  - assert (0 < i < length parts - 1)%nat as Hb by (apply elem_of_skip_indices; rewrite Hi; left).
    set (h := if empty_at parts 0 then _ else _). set (l := if empty_at parts (length parts - 1) then _ else _).
    case_match eqn:Hc; [done|]. intros [= <- <- <-]. apply orb_false_iff in Hc as [_ Hc%bool_decide_eq_false].
    assert (h ≤ length parts)%nat by (subst h; destruct (empty_at parts 0); lia).
    assert (l ≤ length parts)%nat by (subst l; destruct (empty_at parts (length parts - 1)); lia).
    rewrite length_take, length_drop. lia.
Qed.
Lemma parse_v6_bounds s n : parse_v6 s = Some n → 0 ≤ n < 2 ^ 128.
Proof.
  unfold parse_v6. case_bool_decide; [done|]. intros (parts & _ & Hp)%bind_Some. case_bool_decide; [done|]. revert Hp.
  unfold parse_parts. intros ([[hi k] lo] & Hs & Hp)%bind_Some. apply bind_Some in Hp as (his & Hhi & Hp).
  apply bind_Some in Hp as (los & Hlo & Hp). apply (inj Some) in Hp as <-. apply split_parts_length in Hs.
  destruct (mapM_bounds _ _ _ _ parse_hextet_bounds Hhi) as [Hbh Hlh]. destruct (mapM_bounds _ _ _ _ parse_hextet_bounds Hlo) as [Hbl Hll].
  rewrite <-of_words_zeros, <-!of_words_app, app_assoc.
  assert (Forall (λ n, 0 ≤ n < 2 ^ Z.of_nat 16) ((his ++ replicate k 0) ++ los)) as Hall.
  { repeat apply Forall_app_2; [done| |done]. by apply Forall_replicate. }
  pose proof (of_words_bounds 16 0 _ ltac:(lia) Hall) as H2. rewrite !length_app, length_replicate, Hlh, Hll, Hs in H2. exact H2.
Qed.
#[local] Opaque parse_v4 parse_v6.

Lemma parse_address_valid v s a : parse_address v s = Some a → no_char "/" s = true →
  ad_version a = v ∧ 0 ≤ ad_ip a < 2 ^ max_prefixlen v ∧
  match ad_scope a with Some scope => v = V6 ∧ scope_ok scope | None => True end.
Proof.
  intros Ha Hslash. destruct v; unfold parse_address in Ha.
  - apply bind_Some in Ha as (n & Hn & Ha). apply (inj Some) in Ha as <-. cbn [ad_version ad_ip ad_scope max_prefixlen].
    split_and!; [done|apply (parse_v4_bounds _ _ Hn)|apply (parse_v4_bounds _ _ Hn)|done].
  - destruct (split_scope_id s) as [[addr scope]|] eqn:Hsplit; [|done]. destruct (parse_v6 addr) as [n|] eqn:Hn; [|done].
    apply (inj Some) in Ha as <-. cbn [ad_version ad_ip ad_scope max_prefixlen].
    split_and!; [done|apply (parse_v6_bounds _ _ Hn)|apply (parse_v6_bounds _ _ Hn)|]. unfold split_scope_id in Hsplit.
    destruct (split_once "%" s) as [[l r]|] eqn:Honce; [|injection Hsplit as <- <-; done].
    destruct (bool_decide (r = "") || str_contains "%" r) eqn:Hc; [done|]. injection Hsplit as <- <-.
    apply orb_false_iff in Hc as [Hr%bool_decide_eq_false Hp]. split; [done|]. apply split_once_some in Honce.
    split_and!; [done| |].
    + clear -Hp. induction r as [|x r IH]; [done|]. cbn [str_contains] in Hp. rewrite startswith_char in Hp.
      apply orb_false_iff in Hp as [Hx Hr]. rewrite no_char_cons, Hx. by apply IH.
    + rewrite Honce, !no_char_app in Hslash. apply andb_true_iff in Hslash as [_ [_ ?]%andb_true_iff]. done.
Qed.

Lemma zero_bits_bounds k n : 0 ≤ count_righthand_zero_bits k n ≤ Z.of_nat k.
Proof. revert n. induction k as [|k IH]; intros n; cbn [count_righthand_zero_bits]; [lia|]. destruct (Z.odd n); [lia|]. specialize (IH (Z.shiftr n 1)). lia. Qed.
Lemma prefix_from_ip_int_bounds v n p : prefix_from_ip_int v n = Some p → 0 ≤ p ≤ max_prefixlen v.
Proof.
  unfold prefix_from_ip_int. destruct (_ =? _); [|done]. intros [= <-].
  pose proof (zero_bits_bounds (Z.to_nat (max_prefixlen v)) n). pose proof (max_prefixlen_pos v). lia.
Qed.
Lemma prefix_string_bounds v s p : prefix_from_prefix_string v s = Some p → 0 ≤ p ≤ max_prefixlen v.
Proof.
  unfold prefix_from_prefix_string. destruct (is_decimal s); [|done]. destruct (Z.leb_spec (digits_value 10 s) (max_prefixlen v)); [|done].
  intros [= <-]. pose proof (digits_bounds 10 s ltac:(lia)). lia.
Qed.
Lemma make_netmask_bounds v mask p : make_netmask v mask = Some p → 0 ≤ p ≤ max_prefixlen v.
Proof.
  unfold make_netmask. destruct mask as [s|]; [|intros [= <-]; pose proof (max_prefixlen_pos v); lia].
  destruct v; [|apply prefix_string_bounds]. destruct (prefix_from_prefix_string V4 s) eqn:Hs.
  - intros [= <-]. by eapply prefix_string_bounds.
  - unfold prefix_from_ip_string. intros (n & _ & Hp)%bind_Some. destruct (prefix_from_ip_int V4 n) eqn:Hn.
    + injection Hp as <-. by eapply prefix_from_ip_int_bounds.
    + by eapply prefix_from_ip_int_bounds.
Qed.

Lemma split_addr_no_slash s addr mask : split_addr_prefix s = Some (addr, mask) → no_char "/" addr = true.
Proof.
  unfold split_addr_prefix. pose proof (split_no_char "/" s) as Hall. destruct (py_split "/" s) as [|a [|b [|]]]; try done;
    intros [= <- _]; by apply Forall_cons in Hall as [? _].
Qed.
(** What is read can be printed and read again. *)
Lemma parse_any_valid s i : parse_any s = Some i → valid_interface i.
Proof.
  assert (∀ v, parse_interface v s = Some i → valid_interface i) as H.
  { intros v ([addr mask] & Hs & Hi)%bind_Some. apply bind_Some in Hi as (a & Ha & Hi). apply bind_Some in Hi as (p & Hp & Hi).
    apply (inj Some) in Hi as <-. apply make_netmask_bounds in Hp.
    destruct (parse_address_valid v addr a Ha (split_addr_no_slash _ _ _ Hs)) as (<- & Hip & Hscope).
    constructor; [exact Hip|exact Hp|exact Hscope]. }
  unfold parse_any. destruct (parse_interface V4 s) as [j|] eqn:H4; [|apply H]. intros [= ->]. by apply (H V4).
Qed.
Lemma read_interface_valid s i : read_interface s = Ok i → valid_interface i.
Proof. unfold read_interface. destruct (parse_any s) eqn:Hp; [|done]. intros [= <-]. by eapply parse_any_valid. Qed.
Lemma read_network_valid s i : read_network s = Ok i → valid_interface i ∧ has_host_bits i = false.
Proof.
  unfold read_network. destruct (parse_any s) eqn:Hp; [|done]. cbn. destruct (has_host_bits _) eqn:Hb; [done|].
  intros [= <-]. split; [by eapply parse_any_valid|done].
Qed.
(** The text of a network, and of an interface without its scope, is read back. *)
Lemma read_network_str i : valid_interface i → has_host_bits i = false → read_network (network_with_prefixlen i) = Ok i.
Proof. intros Hi Hb. unfold read_network. rewrite parse_any_str by done. cbn. by rewrite Hb. Qed.
Definition without_scope (i : IPInterface) : IPInterface :=
  mkIPInterface (mkIPAddress (ad_version (if_address i)) (ad_ip (if_address i)) None) (if_prefixlen i).
Lemma read_interface_str i : valid_interface i → read_interface (interface_with_prefixlen i) = Ok (without_scope i).
Proof.
  intros [Hip Hp _]. unfold read_interface. assert (interface_with_prefixlen i = network_with_prefixlen (without_scope i)) as ->.
  { unfold network_with_prefixlen, interface_with_prefixlen, address_str. cbn [without_scope if_address ad_version ad_ip ad_scope if_prefixlen].
    by rewrite str_app_nil_r. }
  rewrite parse_any_str; [done|]. by constructor.
Qed.

(** ** Binary text *)

(** The bits of a number, the highest first. *)
Definition bit_char (b : bool) : ascii := if b then "1"%char else "0"%char.
Fixpoint bits_str (k : nat) (n : Z) : string :=
  match k with O => "" | S k => String (bit_char (Z.testbit n (Z.of_nat k))) (bits_str k n) end.

Lemma bin_pos_app p t : bin_pos p t = bin_pos p "" +:+ t.
Proof.
  revert t. induction p as [p IH|p IH|]; intros t; cbn [bin_pos]; [rewrite IH, (IH (String "1" ""))|rewrite IH, (IH (String "0" ""))|done];
    by rewrite str_app_assoc.
Qed.
Lemma bits_str_succ k b n : 0 ≤ n → bits_str (S k) (2 * n + Z.b2z b) = bits_str k n +:+ String (bit_char b) "".
Proof.
  intros Hn. induction k as [|k IH].
  - cbn [bits_str]. change ("" +:+ String (bit_char b) "") with (String (bit_char b) ""). do 2 f_equal.
    change (Z.of_nat 0) with 0. by rewrite Z.testbit_0_r.
  - change (bits_str (S (S k)) (2 * n + Z.b2z b)) with
      (String (bit_char (Z.testbit (2 * n + Z.b2z b) (Z.of_nat (S k)))) (bits_str (S k) (2 * n + Z.b2z b))).
    rewrite IH. change (bits_str (S k) n) with (String (bit_char (Z.testbit n (Z.of_nat k))) (bits_str k n)).
    rewrite str_app_cons. do 2 f_equal. rewrite Nat2Z.inj_succ. by rewrite Z.testbit_succ_r by lia.
Qed.
Lemma bits_str_length k n : String.length (bits_str k n) = k.
Proof. induction k; cbn; congruence. Qed.
Lemma bits_str_zero k : bits_str k 0 = String.concat "" (replicate k "0").
Proof.
  induction k as [|k IH]; [done|]. cbn [bits_str replicate String.concat]. rewrite Z.bits_0, IH. by destruct k.
Qed.

Lemma bin_pos_bits p : bin_pos p "" = bits_str (Pos.size_nat p) (Zpos p).
Proof.
  induction p as [p IH|p IH|]; [| |done]; cbn [bin_pos Pos.size_nat]; rewrite bin_pos_app, IH.
  - change (Zpos p~1) with (2 * Zpos p + Z.b2z true). by rewrite bits_str_succ.
  - change (Zpos p~0) with (2 * Zpos p + Z.b2z false). by rewrite bits_str_succ.
Qed.
Lemma zeros_app j k : String.concat "" (replicate j "0") +:+ String.concat "" (replicate k "0") = String.concat "" (replicate (j + k) "0").
Proof. rewrite <-!bits_str_zero. induction j as [|j IH]; [done|]. cbn [bits_str Nat.add]. by rewrite str_app_cons, IH, !Z.bits_0. Qed.
Lemma bits_str_pad j k n : 0 ≤ n < 2 ^ Z.of_nat k → bits_str (j + k) n = String.concat "" (replicate j "0") +:+ bits_str k n.
Proof.
  intros Hn. induction j as [|j IH]; [done|]. cbn [Nat.add bits_str]. rewrite IH, (testbit_above n (Z.of_nat k)) by lia.
  cbn [bit_char]. rewrite <-str_app_cons. f_equal. rewrite <-!bits_str_zero. cbn [bits_str]. by rewrite Z.bits_0.
Qed.
Lemma size_nat_bound p k : Zpos p < 2 ^ Z.of_nat k → (Pos.size_nat p ≤ k)%nat.
Proof.
  revert k. induction p as [p IH|p IH|]; intros k Hk; cbn [Pos.size_nat]; (destruct k as [|k]; [change (2 ^ Z.of_nat 0) with 1 in Hk; lia|]);
    try lia; rewrite Nat2Z.inj_succ, Z.pow_succ_r in Hk by lia; specialize (IH k ltac:(lia)); lia.
Qed.
Lemma pos_size_bound p : Zpos p < 2 ^ Z.of_nat (Pos.size_nat p).
Proof. induction p as [p IH|p IH|]; cbn [Pos.size_nat]; rewrite ?Nat2Z.inj_succ, ?Z.pow_succ_r by lia; [lia|lia|done]. Qed.

(** The text is the bits of the address, from the highest one. *)
Lemma binary_str_bits v n : 0 ≤ n < 2 ^ max_prefixlen v → ip_binary_str v n = bits_str (Z.to_nat (max_prefixlen v)) n.
Proof.
  intros Hn. unfold ip_binary_str, zfill. set (k := Z.to_nat (max_prefixlen v)).
  assert (0 < k)%nat as Hk by (subst k; pose proof (max_prefixlen_pos v); lia).
  assert (2 ^ max_prefixlen v = 2 ^ Z.of_nat k) as Hpow by (subst k; pose proof (max_prefixlen_pos v); f_equal; lia). rewrite Hpow in Hn.
  destruct n as [|p|p]; [| |lia]; cbn [bin_str].
  - change "0" with (String.concat "" (replicate 1 "0")) at 3. rewrite zeros_app, bits_str_zero. do 2 f_equal. cbn. lia.
  - rewrite bin_pos_bits, bits_str_length. pose proof (size_nat_bound p k ltac:(lia)) as Hs.
    rewrite <-bits_str_pad by (split; [lia|apply pos_size_bound]). f_equal. lia.
Qed.
