(* ===== verification/PrefixPool.v ===== *)
(** * Pools of prefixes

    [PrefixPool] of [backend/infrahub/pools/prefix.py], which carves sub-prefixes out of
    a network, and [get_next] of [core/node/resource_manager/ip_prefix_pool.py], which
    looks for a free prefix in the resources of a pool.

    The pool keeps the text of its networks: see [ip_text] in [IpNetwork]. *)

From stdpp Require Import prelude strings.
From S2P Require Import Prelude PyDict IpNetwork.

#[local] Open Scope Z_scope.

(** [range(a, b)] and [range(a, b, -1)] *)
Definition py_range (a b : Z) : list Z := seqZ a (b - a).
Definition py_range_down (a b : Z) : list Z := reverse (seqZ (b + 1) (a - b)).

Record PrefixPool := mkPrefixPool {
  network : IPNetwork;
  mask_biggest : Z;
  mask_smallest : Z;
  available_subnets : list (Z * list ip_text);
  sub_by_key : list (ip_text * option string);
  sub_by_id : list (string * ip_text);
}.
#[export] Instance PrefixPool_rebuild : Rebuild PrefixPool := λ p,
  mkPrefixPool (network p) (mask_biggest p) (mask_smallest p) (available_subnets p) (sub_by_key p) (sub_by_id p).

(** [available_subnets] is a [defaultdict(list)]. *)
Definition available (p : PrefixPool) (i : Z) : list ip_text := default [] (dict_get (available_subnets p) i).
Definition set_available (p : PrefixPool) (i : Z) (l : list ip_text) : PrefixPool :=
  p <| available_subnets := dict_set (available_subnets p) i l |>.
Definition add_available (i : Z) (p : PrefixPool) (n : IPNetwork) : PrefixPool :=
  set_available p i (available p i ++ [net_str n]).

(** [__init__] *)
Definition new_pool (text : ip_text) : result PrefixPool :=
  network ← ip_network text;
  let mask_biggest := prefixlen network + 1 in
  let pool := mkPrefixPool network mask_biggest (max_prefixlen (version network)) [] [] [] in
  subs ← subnets network mask_biggest;
  Ok (foldl (add_available mask_biggest) pool subs).

(** [l.index(x)] and [del], nothing when [x] is not in the list. *)
Fixpoint remove_first {A} `{EqDecision A} (x : A) (l : list A) : list A :=
  match l with
  | [] => []
  | y :: l => if decide (x = y) then l else y :: remove_first x l
  end.
(** [index] and [del], the [ValueError] ignored. *)
Definition remove_subnet_from_available_list (p : PrefixPool) (subnet : IPNetwork) : PrefixPool :=
  let l := available p (prefixlen subnet) in
  set_available p (prefixlen subnet) (remove_first (net_str subnet) l).

(** One iteration of the loop of [split_supernet]; [parent_net] is threaded. *)
Definition split_step (subnet : IPNetwork) (acc : PrefixPool * IPNetwork) (i : Z) :
    result (PrefixPool * IPNetwork) :=
  let '(pool, parent_net) := acc in
  tmp_net ← subnets parent_net i;
  if decide (i = prefixlen subnet) then Ok (foldl (add_available i) pool tmp_net, parent_net)
  else
    match tmp_net with
    | [] => Err IndexError
    | net0 :: rest =>
        first ← subnet_of subnet net0;
        net1 ← require IndexError (head rest);
        if (first : bool) then Ok (add_available i pool net1, net0) else Ok (add_available i pool net0, net1)
    end.
Definition split_supernet (pool : PrefixPool) (supernet subnet : IPNetwork) : result PrefixPool :=
  '(pool, _) ← foldM (split_step subnet) (pool, supernet) (py_range (prefixlen supernet + 1) (prefixlen subnet + 1));
  Ok (remove_subnet_from_available_list pool supernet).

(** [None] and the empty string are false. *)
Definition truthy_id (identifier : option string) : option string :=
  match identifier with Some (String c s) => Some (String c s) | _ => None end.

(** The first available network among those that contain [sub] with the given lengths. *)
Fixpoint find_supernet (pool : PrefixPool) (sub : IPNetwork) (lengths : list Z) : result (option IPNetwork) :=
  match lengths with
  | [] => Ok None
  | sublen :: lengths =>
      supernet ← supernet sub sublen;
      if decide (net_str supernet ∈ available pool sublen) then Ok (Some supernet)
      else find_supernet pool sub lengths
  end.

Definition record_reservation (pool : PrefixPool) (subnet : ip_text) (identifier : option string) : PrefixPool :=
  match truthy_id identifier with
  | Some id => pool <| sub_by_id := dict_set (sub_by_id pool) id subnet |>
                    <| sub_by_key := dict_set (sub_by_key pool) subnet (Some id) |>
  | None => pool <| sub_by_key := dict_set (sub_by_key pool) subnet None |>
  end.

(** [reserve]; the fuel is the depth of the recursion. *)
Fixpoint reserve_rec (fuel : nat) (pool : PrefixPool) (subnet : ip_text) (identifier : option string) :
    result (bool * PrefixPool) :=
  match fuel with
  | O => Err (RuntimeError "maximum recursion depth exceeded")
  | S fuel =>
      sub ← ip_network subnet;
      raise_if (bool_decide (prefixlen sub ≤ prefixlen (network pool))) (ValueError "do not have the right size");;
      sup ← supernet sub (prefixlen (network pool));
      raise_if (negb (bool_decide (sup = network pool))) (ValueError "is not part of this network");;
      match truthy_id identifier ≫= dict_get (sub_by_id pool) with
      | Some reserved =>
          raise_if (negb (bool_decide (reserved = net_str sub)))
            (ValueError "this identifier is already used but for a different resource");;
          Ok (true, pool)
      | None =>
          let known := dict_mem (sub_by_key pool) (net_str sub) in
          raise_if (opt_is_some (truthy_id identifier) && known)
            (ValueError "this subnet is already reserved but not with this identifier");;
          if known then Ok (true, remove_subnet_from_available_list pool sub)
          else if decide (subnet ∈ available pool (prefixlen sub)) then
            Ok (true, remove_subnet_from_available_list (record_reservation pool subnet identifier) sub)
          else
            sup ← find_supernet pool sub (py_range_down (prefixlen sub - 1) (prefixlen (network pool)));
            match sup with
            | Some sup =>
                pool ← split_supernet pool sup sub;
                reserve_rec fuel pool subnet identifier
            | None => Ok (false, pool)
            end
      end
  end.
(** The recursion limit of Python. *)
Definition reserve : PrefixPool → ip_text → option string → result (bool * PrefixPool) := reserve_rec 1000.

(** The first available network of one of the lengths. *)
Fixpoint find_available (pool : PrefixPool) (lengths : list Z) : option ip_text :=
  match lengths with
  | [] => None
  | i :: lengths =>
      match available pool i with
      | t :: _ => Some t
      | [] => find_available pool lengths
      end
  end.

Definition get (pool : PrefixPool) (clean_prefixlen : Z) (identifier : option string) :
    result (IPNetwork * PrefixPool) :=
  match truthy_id identifier ≫= dict_get (sub_by_id pool) with
  | Some text =>
      net ← ip_network text;
      if decide (prefixlen net = clean_prefixlen) then Ok (net, pool) else Err (ValueError "")
  | None =>
      match available pool clean_prefixlen with
      | sub :: _ =>
          '(_, pool) ← reserve pool sub identifier;
          net ← ip_network sub;
          Ok (net, pool)
      | [] =>
          match find_available pool (py_range_down (clean_prefixlen - 1) (mask_biggest pool - 1)) with
          | Some text =>
              supernet ← ip_network text;
              next_sub ← next_subnet supernet clean_prefixlen;
              pool ← split_supernet pool supernet next_sub;
              '(_, pool) ← reserve pool (net_str next_sub) identifier;
              Ok (next_sub, pool)
          | None => Err IndexError
          end
      end
  end.

Definition get_nbr_available_subnets (pool : PrefixPool) : list (Z * nat) :=
  (λ i, (i, length (available pool i))) <$> py_range (mask_biggest pool) (mask_smallest pool + 1).

Definition check_if_already_allocated (pool : PrefixPool) (identifier : string) : bool :=
  dict_mem (sub_by_id pool) identifier.

(** ** Pools of the database *)

(** [CoreIPPrefixPool.get_next]: the resources are given by their prefix and the
    prefixes that [get_subnets] finds in it. *)
Fixpoint get_next (resources : list (ip_text * list IPNetwork)) (length : Z) : result IPNetwork :=
  match resources with
  | [] => Err IndexError
  | (prefix, subnets) :: resources =>
      pool ← new_pool prefix;
      pool ← foldM (λ pool subnet, snd <$> reserve pool (net_str subnet) None) pool subnets;
      match get pool length None with
      | Ok (next_available, _) => Ok next_available
      | Err IndexError => get_next resources length
      | Err e => Err e
      end
  end.

(** ** Tests of the repository *)

Definition ipv4 (a b c d p : Z) : IPNetwork := mkIPNetwork V4 (((a * 256 + b) * 256 + c) * 256 + d) p.

Example split_middle :
  (pool ← new_pool (net_str (ipv4 192 168 0 0 24));
   pool ← split_supernet pool (ipv4 192 168 0 128 25) (ipv4 192 168 0 192 27);
   Ok (available pool 25, available pool 26, available pool 27)) =
  Ok ([net_str (ipv4 192 168 0 0 25)], [net_str (ipv4 192 168 0 128 26)],
      [net_str (ipv4 192 168 0 192 27); net_str (ipv4 192 168 0 224 27)]).
Proof. vm_compute. reflexivity. Qed.

Example reserve_then_get :
  (pool ← new_pool (net_str (ipv4 192 168 0 0 16));
   '(r, pool) ← reserve pool (net_str (ipv4 192 168 0 0 24)) (Some "first");
   '(n1, pool) ← get pool 24 (Some "second");
   '(n2, pool) ← get pool 25 None;
   '(n3, pool) ← get pool 24 (Some "first");
   Ok (r, n1, n2, n3)) =
  Ok (true, ipv4 192 168 1 0 24, ipv4 192 168 2 0 25, ipv4 192 168 0 0 24).
Proof. vm_compute. reflexivity. Qed.

Example no_more_subnet :
  (pool ← new_pool (net_str (ipv4 192 0 0 0 22));
   '(n1, pool) ← get pool 24 None;
   '(n2, pool) ← get pool 24 None;
   '(n3, pool) ← get pool 24 None;
   '(n4, pool) ← get pool 24 None;
   Ok ([n1; n2; n3; n4], get pool 24 None)) =
  Ok ([ipv4 192 0 0 0 24; ipv4 192 0 1 0 24; ipv4 192 0 2 0 24; ipv4 192 0 3 0 24], Err IndexError).
Proof. vm_compute. reflexivity. Qed.

(** ** Partitions of a network *)

Lemma remove_first_spec {A} `{EqDecision A} (x : A) l : NoDup l →
  NoDup (remove_first x l) ∧ ∀ y, y ∈ remove_first x l ↔ y ∈ l ∧ y ≠ x.
Proof.
  induction l as [|z l IH]; cbn; intros Hnd.
  { split; [constructor|]. intros y. rewrite elem_of_nil. tauto. }
  apply NoDup_cons in Hnd as [Hz Hnd]. destruct (IH Hnd) as [IHnd IHin].
  case_decide as Hx.
  - subst z. split; [done|]. intros y. rewrite elem_of_cons.
    split; [intros Hy; split; [by right|by intros ->]|]. intros [[->|?] ?]; done.
  - split; [constructor; [rewrite IHin; tauto|done]|].
    intros y. rewrite !elem_of_cons, IHin. split; [intros [->|[? ?]]; auto|]. intros [[->|?] ?]; auto.
Qed.

Lemma remove_first_absent {A} `{EqDecision A} (x : A) l : x ∉ l → remove_first x l = l.
Proof.
  induction l as [|y l IH]; [done|]. rewrite not_elem_of_cons. intros [Hne Hx]. cbn.
  rewrite decide_False by done. by rewrite IH.
Qed.

(** The free and the reserved networks cut [net] in disjoint parts, and two halves of a
    part are not both free, except those of [net] itself. *)
Record partition (net : IPNetwork) (free reserved : IPNetwork → Prop) : Prop := {
  part_valid n : free n ∨ reserved n → valid n ∧ within n net ∧ prefixlen net < prefixlen n;
  part_free_apart a b : free a → free b → a ≠ b → apart a b;
  part_reserved_apart a b : reserved a → reserved b → a ≠ b → apart a b;
  part_apart a b : free a → reserved b → apart a b;
  part_cover v x : has_address net v x → ∃ n, (free n ∨ reserved n) ∧ has_address n v x;
  part_siblings a b : free a → free b → siblings a b → prefixlen a = prefixlen net + 1;
}.

(** A network apart from the reserved ones is in a single free network. *)
Lemma partition_complete net free reserved : valid net → partition net free reserved → ∀ b,
  valid b → within b net → prefixlen net < prefixlen b → (∀ r, reserved r → apart b r) →
  ∃ a, free a ∧ within b a.
Proof.
  intros Hnet Hpart b Hb.
  remember (Z.to_nat (max_prefixlen (version b) - prefixlen b)) as k eqn:Hk. revert b Hb Hk.
  induction k as [|k IH]; intros b Hb Hk Hw Hp Hr; pose proof (valid_prefixlen b Hb).
  - destruct (part_cover _ _ _ Hpart (version b) (network_address b)) as (n & [Hf|Hres] & Hx).
    { eapply within_has_address; eauto using first_address. }
    + exists n. split; [done|]. destruct (part_valid _ _ _ Hpart n) as (Hn & _); [by left|].
      apply laminar with (version b) (network_address b); auto using first_address.
      pose proof (valid_prefixlen n Hn). destruct Hx as [Hv _]. rewrite Hv in *. lia.
    + exfalso. eapply Hr; eauto using first_address.
  - assert (prefixlen b < max_prefixlen (version b)) as Hlt by lia.
    destruct (half_valid b 0 Hb Hlt ltac:(lia)) as [Hv0 Hw0], (half_valid b 1 Hb Hlt ltac:(lia)) as [Hv1 Hw1].
    destruct (IH (half b 0)) as (a0 & Hf0 & Ha0); [done|cbn; lia|by eapply within_trans|cbn; lia| |].
    { intros r Hres. eapply within_apart; [exact Hw0|by apply Hr]. }
    destruct (IH (half b 1)) as (a1 & Hf1 & Ha1); [done|cbn; lia|by eapply within_trans|cbn; lia| |].
    { intros r Hres. eapply within_apart; [exact Hw1|by apply Hr]. }
    destruct (part_valid _ _ _ Hpart a0) as (Hva0 & _); [by left|].
    destruct (part_valid _ _ _ Hpart a1) as (Hva1 & _); [by left|].
    destruct (decide (prefixlen a0 ≤ prefixlen b)) as [Hle|Hgt0].
    { exists a0. split; [done|]. by apply common_part with (half b 0). }
    destruct (decide (prefixlen a1 ≤ prefixlen b)) as [Hle|Hgt1].
    { exists a1. split; [done|]. by apply common_part with (half b 1). }
    exfalso.
    assert (half b 0 = a0) as Heq0 by (apply within_antisymm; [done|]; destruct Ha0 as (_ & ? & _); cbn in *; lia).
    assert (half b 1 = a1) as Heq1 by (apply within_antisymm; [done|]; destruct Ha1 as (_ & ? & _); cbn in *; lia).
    subst. pose proof (part_siblings _ _ _ Hpart _ _ Hf0 Hf1 (halves_siblings b Hb Hlt)) as Hsib. cbn in Hsib. lia.
Qed.

(** *** Splitting a network *)

(** The parts of [parent] that [split_supernet] makes available on the way to [s]: the
    halves that do not contain [s], and [s] itself. *)
Definition piece (parent s n : IPNetwork) : Prop :=
  valid n ∧ prefixlen parent < prefixlen n ≤ prefixlen s ∧ within n (enclosing s (prefixlen n - 1)) ∧
  (within s n → n = s).

Lemma piece_within parent s n : valid parent → valid s → within s parent → piece parent s n → within n parent.
Proof.
  intros Hp Hs Hw (Hn & Hlen & Hwn & _). eapply within_trans; [exact Hwn|].
  rewrite <-(enclosing_unique s parent) by done. pose proof (valid_prefixlen parent Hp).
  apply enclosing_mono; [done|cbn; lia|lia].
Qed.

Lemma piece_self parent s : valid parent → valid s → within s parent → prefixlen parent < prefixlen s →
  piece parent s s.
Proof.
  intros Hp Hs Hw Hlt. pose proof (valid_prefixlen parent Hp). split; [done|]. split; [lia|]. split; [|done].
  apply enclosing_valid; [done|lia].
Qed.

Lemma pieces_apart parent s a b : valid parent → valid s → within s parent → piece parent s a → piece parent s b →
  a ≠ b → apart a b.
Proof.
  intros Hp Hs Hw. pose proof (valid_prefixlen parent Hp).
  assert (∀ a b, prefixlen a ≤ prefixlen b → piece parent s a → piece parent s b → a ≠ b → apart a b) as Hone.
  { clear a b. intros a b Hle (Ha & Hla & Hwa & Hsa) (Hb & Hlb & Hwb & Hsb) Hne.
    destruct (decide (prefixlen a = prefixlen b)) as [Heq|Hlt]; [by apply same_length_apart|].
    intros v x Hxa Hxb. destruct (enclosing_valid s (prefixlen b - 1) Hs ltac:(lia)) as [He Hwe].
    assert (within (enclosing s (prefixlen b - 1)) a) as Hin.
    { eapply laminar; [done|done|cbn; lia| |exact Hxa]. eapply within_has_address; [exact Hwb|exact Hxb]. }
    rewrite (Hsa (within_trans _ _ _ Hwe Hin)) in Hlt, Hle. lia. }
  intros Ha Hb Hne. destruct (Z.le_ge_cases (prefixlen a) (prefixlen b)); [by apply Hone|].
  apply apart_sym, Hone; auto.
Qed.

Lemma pieces_cover parent s v x : valid parent → valid s → within s parent → prefixlen parent < prefixlen s →
  has_address parent v x → ∃ n, piece parent s n ∧ has_address n v x.
Proof.
  intros Hp Hs Hw Hlt Hx. pose proof (valid_prefixlen parent Hp) as Hpp. pose proof (valid_prefixlen s Hs) as Hps.
  assert (v = version parent) as -> by (by destruct Hx). pose proof Hw as (Hver & _).
  assert (0 ≤ x < 2 ^ max_prefixlen (version parent)) as Hrange.
  { pose proof (valid_start parent Hp). pose proof (valid_end parent Hp). destruct Hx. lia. }
  pose proof (point_valid _ _ Hrange) as Hpt. set (pt := point (version parent) x) in *.
  (* the longest block on the way to [s] that has the address *)
  assert (∀ k q, prefixlen parent ≤ q ≤ prefixlen s → Z.to_nat (prefixlen s - q) = k →
    has_address (enclosing s q) (version parent) x → ∃ n, piece parent s n ∧ has_address n (version parent) x) as Hwalk.
  { intros k. induction k as [|k IH]; intros q Hq Hk Hxq.
    - assert (q = prefixlen s) as -> by lia. rewrite enclosing_id in Hxq by done. exists s. auto using piece_self.
    - destruct (enclosing_valid s q Hs ltac:(lia)) as [Hvq Hwq].
      assert (prefixlen pt = max_prefixlen (version s)) as Hlpt by (by rewrite Hver).
      destruct (enclosing_valid pt (q + 1) Hpt ltac:(lia)) as [Hn Hwn].
      assert (has_address (enclosing pt (q + 1)) (version parent) x) as Hxn by by apply point_has_address.
      destruct (decide (within s (enclosing pt (q + 1)))) as [Hin|Hout].
      + apply (IH (q + 1)); [lia|lia|]. pose proof (enclosing_unique s _ Hs Hn Hin) as Heq.
        cbn [enclosing prefixlen] in Heq. by rewrite Heq.
      + exists (enclosing pt (q + 1)). split; [|done]. split; [done|]. split; [cbn; lia|]. split; [|done].
        change (prefixlen (enclosing pt (q + 1))) with (q + 1). replace (q + 1 - 1) with q by lia.
        eapply laminar; [done|done|cbn; lia|done|done]. }
  apply (Hwalk (Z.to_nat (prefixlen s - prefixlen parent)) (prefixlen parent)); [lia|done|]. by rewrite enclosing_unique.
Qed.

Lemma pieces_siblings parent s a b : valid parent → valid s → piece parent s a → piece parent s b →
  a ≠ s → b ≠ s → siblings a b → False.
Proof.
  intros Hp Hs (Ha & Hla & Hwa & Hsa) (Hb & Hlb & Hwb & Hsb) Has Hbs (Hne & m & _ & Hma & Hmb & _).
  pose proof (valid_prefixlen parent Hp). assert (prefixlen b = prefixlen a) as Hlen by lia. rewrite Hlen in *.
  destruct (enclosing_valid s (prefixlen a - 1) Hs ltac:(lia)) as [He Hwe].
  assert (∀ c, valid c → within c (enclosing s (prefixlen a - 1)) → prefixlen c = prefixlen a →
    c = half (enclosing s (prefixlen a - 1)) 0 ∨ c = half (enclosing s (prefixlen a - 1)) 1) as Hhalf.
  { intros c Hc Hwc Hlc. apply child_half; [done..|]. cbn. lia. }
  destruct (part_half (enclosing s (prefixlen a - 1)) s) as [H0|H0]; [done..|cbn; lia| |];
    destruct (Hhalf a Ha Hwa eq_refl) as [Ea|Ea], (Hhalf b Hb Hwb Hlen) as [Eb|Eb]; try congruence;
    rewrite <-Ea in H0 || rewrite <-Eb in H0; auto.
Qed.

(** *** Carving a network *)

Section carve.
Context (net : IPNetwork) (free reserved : IPNetwork → Prop) (parent s : IPNetwork).

(** What is free, and reserved, once [s] was carved out of the free network [parent]. *)
Definition carve_free (n : IPNetwork) : Prop := (free n ∧ n ≠ parent) ∨ (piece parent s n ∧ n ≠ s).
Definition carve_reserved (n : IPNetwork) : Prop := reserved n ∨ n = s.

Lemma carve_partition : valid net → partition net free reserved → free parent → valid s → within s parent →
  partition net carve_free carve_reserved.
Proof.
  intros Hnet Hpart Hfree Hs Hw.
  destruct (part_valid _ _ _ Hpart parent) as (Hparent & Hwp & Hlp); [by left|].
  pose proof (valid_prefixlen parent Hparent) as Hpp.
  assert (∀ n, piece parent s n → within n parent) as Hpw by (intros n Hn; by apply piece_within with s).
  assert (∀ a n, free a → a ≠ parent → within n parent → apart n a) as Hold.
  { intros a n Ha Hne Hn. eapply within_apart; [exact Hn|]. by apply (part_free_apart _ _ _ Hpart). }
  assert (∀ r n, reserved r → within n parent → apart n r) as Hres.
  { intros r n Hr Hn. eapply within_apart; [exact Hn|]. by apply (part_apart _ _ _ Hpart). }
  split.
  - assert (∀ n, valid n → within n parent → prefixlen parent ≤ prefixlen n →
      valid n ∧ within n net ∧ prefixlen net < prefixlen n) as Hin.
    { intros n Hn Hwn Hlen. split; [done|]. split; [by eapply within_trans|lia]. }
    intros n [[[Hn _]|[Hn _]]|[Hn| ->]]; [by apply (part_valid _ _ _ Hpart); left| |by apply (part_valid _ _ _ Hpart); right|].
    + apply Hin; [apply Hn|by apply Hpw|]. destruct Hn as (_ & ? & _). lia.
    + apply Hin; [done|done|apply Hw].
  - intros a b [[Ha Hna]|[Ha Has]] [[Hb Hnb]|[Hb Hbs]] Hne.
    + by apply (part_free_apart _ _ _ Hpart).
    + apply apart_sym, Hold; auto.
    + apply Hold; auto.
    + by apply (pieces_apart parent s).
  - intros a b [Ha| ->] [Hb| ->] Hne; [by apply (part_reserved_apart _ _ _ Hpart)| | |done].
    + apply apart_sym. by apply Hres.
    + by apply Hres.
  - intros a b [[Ha Hna]|[Ha Has]] [Hb| ->].
    + by apply (part_apart _ _ _ Hpart).
    + apply apart_sym. by apply Hold.
    + apply Hres; auto.
    + destruct (decide (prefixlen parent < prefixlen s)) as [Hlt|Hge].
      * apply (pieces_apart parent s); auto using piece_self.
      * destruct Ha as (_ & ? & _). lia.
  - intros v x Hx. destruct (part_cover _ _ _ Hpart v x Hx) as (n & Hn & Hxn).
    destruct (decide (n = parent)) as [->|Hne].
    + destruct (decide (prefixlen parent < prefixlen s)) as [Hlt|Hge].
      * destruct (pieces_cover parent s v x) as (m & Hm & Hxm); [done..|].
        exists m. split; [|done]. destruct (decide (m = s)); [by right; right|left; by right].
      * exists s. split; [by right; right|]. replace s with parent; [done|].
        symmetry. apply within_antisymm; [done|]. destruct Hw as (_ & ? & _). lia.
    + exists n. split; [|done]. destruct Hn as [Hn|Hn]; [left; by left|right; by left].
  - assert (∀ a b, free a → a ≠ parent → piece parent s b → siblings a b → False) as Hmixed.
    { intros a b Ha Hne Hb (_ & m & Hm & Hla & Hlb & Hwa & Hwb).
      destruct (part_valid _ _ _ Hpart a) as (Hva & _); [by left|].
      pose proof (Hpw b Hb) as Hbp. destruct Hb as (Hvb & Hlen & _).
      apply (not_apart_within a a Hva (within_refl a)). apply Hold; [done..|].
      eapply within_trans; [exact Hwa|]. apply common_part with b; [done..|lia]. }
    intros a b [[Ha Hna]|[Ha Has]] [[Hb Hnb]|[Hb Hbs]] Hsib.
    + by apply (part_siblings _ _ _ Hpart a b).
    + exfalso. by apply (Hmixed a b).
    + exfalso. apply (Hmixed b a); auto using siblings_sym.
    + exfalso. by apply (pieces_siblings parent s a b).
Qed.
End carve.

(** ** The pool as a partition *)

Definition free_in (p : PrefixPool) (n : IPNetwork) : Prop := net_str n ∈ available p (prefixlen n).
Definition reserved_in (p : PrefixPool) (n : IPNetwork) : Prop := net_str n ∈ dict_keys (sub_by_key p).

(** The pools that differ by what is available only. *)
Definition same_reservations (p p' : PrefixPool) : Prop :=
  p' = p <| available_subnets := available_subnets p' |>.

Lemma same_reservations_refl p : same_reservations p p.
Proof. by destruct p. Qed.

Record pool_ok (p : PrefixPool) : Prop := {
  ok_network : valid (network p);
  ok_room : prefixlen (network p) < max_prefixlen (version (network p));
  ok_mask : mask_biggest p = prefixlen (network p) + 1;
  ok_available i t : t ∈ available p i → ∃ n, t = net_str n ∧ prefixlen n = i;
  ok_NoDup i : NoDup (available p i);
  ok_keys t : t ∈ dict_keys (sub_by_key p) → ∃ n, t = net_str n;
  ok_ids id t : dict_get (sub_by_id p) id = Some t → dict_get (sub_by_key p) t = Some (Some id);
  ok_partition : partition (network p) (free_in p) (reserved_in p);
}.

Lemma available_set p i l j : available (set_available p i l) j = if decide (i = j) then l else available p j.
Proof. unfold available, set_available. cbn. rewrite dict_get_set. by case_decide. Qed.

Lemma add_available_elem i p n j t :
  t ∈ available (add_available i p n) j ↔ t ∈ available p j ∨ (i = j ∧ t = net_str n).
Proof.
  unfold add_available. rewrite available_set. case_decide as Hij; [subst|tauto].
  rewrite elem_of_app, list_elem_of_singleton. tauto.
Qed.

Lemma add_available_NoDup i p n : (∀ j, NoDup (available p j)) → net_str n ∉ available p i →
  ∀ j, NoDup (available (add_available i p n) j).
Proof.
  intros Hnd Hn j. unfold add_available. rewrite available_set. case_decide; [|done].
  apply NoDup_app. split; [done|]. split; [|apply NoDup_singleton]. intros t Ht ->%list_elem_of_singleton. done.
Qed.

Lemma net_str_inj a b : net_str a = net_str b → a = b.
Proof. by intros [=]. Qed.

Section split.
Context (s : IPNetwork) (Hs : valid s).

(** The way down from [parent] to [s] goes through one of its halves. *)
Lemma way_down parent : valid parent → within s parent → prefixlen parent < prefixlen s →
  ∃ i j, (i = 0 ∧ j = 1 ∨ i = 1 ∧ j = 0) ∧ within s (half parent i) ∧ ¬ within s (half parent j) ∧
    valid (half parent i) ∧ valid (half parent j) ∧ within (half parent i) parent ∧ within (half parent j) parent ∧
    half parent i ≠ half parent j.
Proof.
  intros Hp Hw Hlt. pose proof (valid_prefixlen s Hs). assert (prefixlen parent < max_prefixlen (version parent)) as Hm.
  { destruct Hw as [<- _]. lia. }
  destruct (half_valid parent 0 Hp Hm ltac:(lia)) as [Hv0 Hw0], (half_valid parent 1 Hp Hm ltac:(lia)) as [Hv1 Hw1].
  pose proof (halves_differ parent Hp Hm) as Hne.
  assert (apart (half parent 0) (half parent 1)) as Hap by by apply same_length_apart.
  assert (∀ a b, apart a b → within s a → ¬ within s b) as Hboth.
  { intros a b Hab Hsa Hsb. eapply (not_apart_within s a); [done..|]. apply apart_sym.
    eapply within_apart in Hab; [|exact Hsa]. exfalso. by eapply (not_apart_within s b). }
  destruct (part_half parent s) as [H0|H1]; [done..| |].
  - exists 0, 1. split_and!; eauto.
  - exists 1, 0. split_and!; eauto using apart_sym.
Qed.

Lemma piece_step parent i j n : valid parent → within s parent → prefixlen parent + 1 < prefixlen s →
  (i = 0 ∧ j = 1 ∨ i = 1 ∧ j = 0) → within s (half parent i) → ¬ within s (half parent j) →
  valid (half parent i) → valid (half parent j) → within (half parent j) parent →
  piece parent s n ↔ n = half parent j ∨ piece (half parent i) s n.
Proof.
  intros Hp Hw Hlt Hij Hi Hj Hvi Hvj Hwj. pose proof (valid_prefixlen parent Hp). split.
  - intros (Hn & Hlen & Hwn & Hsn). destruct (decide (prefixlen n = prefixlen parent + 1)) as [Heq|Hne].
    + left. rewrite Heq in Hwn. replace (prefixlen parent + 1 - 1) with (prefixlen parent) in Hwn by lia.
      rewrite enclosing_unique in Hwn by done.
      assert (n = half parent i ∨ n = half parent j) as [->| ->]; [| |done].
      { destruct (child_half parent n) as [->| ->]; [done..| |]; destruct Hij as [[-> ->]|[-> ->]]; auto. }
      specialize (Hsn Hi). rewrite <-Hsn in Hlt. cbn in Hlt. lia.
    + right. split; [done|]. split; [cbn; lia|]. done.
  - intros [->|(Hn & Hlen & Hwn & Hsn)].
    + split; [done|]. split; [cbn; lia|]. split; [|done]. cbn [half subnet_at prefixlen].
      replace (prefixlen parent + 1 - 1) with (prefixlen parent) by lia. by rewrite enclosing_unique.
    + split; [done|]. split; [cbn in *; lia|done].
Qed.

Lemma piece_last parent n : valid parent → within s parent → prefixlen parent + 1 = prefixlen s →
  piece parent s n ↔ n = half parent 0 ∨ n = half parent 1.
Proof.
  intros Hp Hw Hlt. pose proof (valid_prefixlen parent Hp). pose proof (valid_prefixlen s Hs).
  assert (prefixlen parent < max_prefixlen (version parent)) as Hm by (destruct Hw as [<- _]; lia).
  destruct (half_valid parent 0 Hp Hm ltac:(lia)) as [Hv0 Hw0], (half_valid parent 1 Hp Hm ltac:(lia)) as [Hv1 Hw1].
  split.
  - intros (Hn & Hlen & Hwn & _). apply child_half; [done..| |lia].
    rewrite <-(enclosing_unique s parent) by done. by replace (prefixlen parent) with (prefixlen n - 1) by lia.
  - assert (∀ i, valid (half parent i) → within (half parent i) parent → piece parent s (half parent i)) as Hi.
    { intros i Hv Hwi. split; [done|]. split; [cbn; lia|]. cbn [half subnet_at prefixlen].
      replace (prefixlen parent + 1 - 1) with (prefixlen parent) by lia. rewrite enclosing_unique by done.
      split; [done|]. intros Hin. symmetry. apply within_antisymm; [done|]. cbn. lia. }
    intros [-> | ->]; auto.
Qed.

(** The elements available at each length, after the pieces were added. *)
Definition adds_pieces (parent : IPNetwork) (p p' : PrefixPool) : Prop :=
  same_reservations p p' ∧ (∀ i, NoDup (available p' i)) ∧
  ∀ i t, t ∈ available p' i ↔ t ∈ available p i ∨ ∃ n, t = net_str n ∧ i = prefixlen n ∧ piece parent s n.

Lemma split_loop k : ∀ p parent, valid parent → within s parent → prefixlen s = prefixlen parent + 1 + Z.of_nat k →
  (∀ i, NoDup (available p i)) → (∀ n, piece parent s n → ¬ free_in p n) →
  ∃ p' last, foldM (split_step s) (p, parent) (seqZ (prefixlen parent + 1) (Z.of_nat (S k))) = Ok (p', last) ∧
    adds_pieces parent p p'.
Proof.
  induction k as [|k IH]; intros p parent Hp Hw Hlen Hnd Hnew; pose proof (valid_prefixlen s Hs);
    pose proof (valid_prefixlen parent Hp);
    (assert (prefixlen parent < max_prefixlen (version parent)) as Hm by (destruct Hw as [<- _]; lia));
    rewrite seqZ_cons by lia; cbn [foldM split_step]; rewrite subnets_halves by done.
  - replace (Z.of_nat 1 - 1) with 0 by lia. cbn [mbind result_bind]. rewrite decide_True by lia.
    cbn [foldl seqZ]. rewrite seqZ_nil by lia. cbn. eexists _, _. split; [done|].
    pose proof (piece_last parent (half parent 0) Hp Hw ltac:(lia)) as Hp0.
    pose proof (piece_last parent (half parent 1) Hp Hw ltac:(lia)) as Hp1.
    assert (∀ i, NoDup (available (add_available (prefixlen parent + 1) p (half parent 0)) i)) as Hnd0.
    { apply add_available_NoDup; [done|]. apply (Hnew (half parent 0)). tauto. }
    split; [done|]. split.
    + apply add_available_NoDup; [done|]. rewrite add_available_elem. intros [Hin|[_ Heq%net_str_inj]].
      * apply (Hnew (half parent 1)); tauto.
      * by eapply halves_differ.
    + intros i t. rewrite !add_available_elem. setoid_rewrite (piece_last parent); [|done|done|lia].
      split; [intros [[?|[<- ->]]|[<- ->]]; eauto 10|].
      intros [?|(n & -> & -> & [-> | ->])]; cbn; auto.
  - destruct (way_down parent Hp Hw ltac:(lia)) as (i & j & Hij & Hi & Hj & Hvi & Hvj & Hwi & Hwj & Hne).
    assert (∀ n, piece parent s n ↔ n = half parent j ∨ piece (half parent i) s n) as Hpiece.
    { intros n. apply piece_step; done || lia. }
    destruct (subnet_of_spec s (half parent 0)) as (r & Hr & Hrw).
    { done. } { destruct Hij as [[-> ->]|[-> ->]]; done. } { destruct Hw; done. } { cbn. lia. }
    assert (split_step s (p, parent) (prefixlen parent + 1) =
      Ok (add_available (prefixlen parent + 1) p (half parent j), half parent i)) as Hstep.
    { unfold split_step. rewrite subnets_halves by done. cbn [mbind result_bind]. rewrite decide_False by lia.
      rewrite Hr. cbn. destruct Hij as [[-> ->]|[-> ->]].
      - rewrite (proj2 Hrw Hi). done.
      - destruct r; [exfalso; by apply Hj, Hrw|done]. }
    unfold split_step in Hstep. rewrite subnets_halves in Hstep by done. rewrite Hstep. cbn [mbind result_bind].
    destruct (IH (add_available (prefixlen parent + 1) p (half parent j)) (half parent i))
      as (p' & last & Hfold & Hsame & Hnd' & Helem); [done|done|cbn; lia| | |].
    + apply add_available_NoDup; [done|]. apply (Hnew (half parent j)). apply Hpiece. by left.
    + intros n Hn. unfold free_in. rewrite add_available_elem. intros [Hin|[_ ->%net_str_inj]].
      * apply (Hnew n); [apply Hpiece; by right|done].
      * destruct Hn as (_ & ? & _). cbn in *. lia.
    + exists p', last. split.
      { rewrite <-Hfold. f_equal. f_equal; cbn; lia. }
      split; [rewrite Hsame; done|]. split; [done|]. intros i' t. rewrite Helem, add_available_elem.
      setoid_rewrite Hpiece. split.
      * intros [[?|[<- ->]]|(n & -> & -> & Hn)]; eauto 10.
      * intros [?|(n & -> & -> & [->|Hn])]; cbn; eauto 10.
Qed.

Lemma split_supernet_spec p parent : valid parent → within s parent → prefixlen parent < prefixlen s →
  (∀ i, NoDup (available p i)) → (∀ n, piece parent s n → ¬ free_in p n) →
  ∃ p', split_supernet p parent s = Ok p' ∧ same_reservations p p' ∧ (∀ i, NoDup (available p' i)) ∧
    ∀ i t, t ∈ available p' i ↔ (t ∈ available p i ∧ (i = prefixlen parent → t ≠ net_str parent)) ∨
      ∃ n, t = net_str n ∧ i = prefixlen n ∧ piece parent s n.
Proof.
  intros Hp Hw Hlt Hnd Hnew.
  destruct (split_loop (Z.to_nat (prefixlen s - prefixlen parent - 1)) p parent)
    as (p' & last & Hfold & Hsame & Hnd' & Helem); [done|done|lia|done|done|].
  eexists. split.
  { unfold split_supernet, py_range. replace (prefixlen s + 1 - (prefixlen parent + 1)) with
      (Z.of_nat (S (Z.to_nat (prefixlen s - prefixlen parent - 1)))) by lia. rewrite Hfold. done. }
  unfold remove_subnet_from_available_list.
  destruct (remove_first_spec (net_str parent) (available p' (prefixlen parent)) (Hnd' _)) as [Hrnd Hrin].
  split; [rewrite Hsame; done|]. split; [intros i; rewrite available_set; by case_decide|].
  intros i t. rewrite available_set. case_decide as Hi.
  - subst i. rewrite Hrin, Helem. split; [intros [[?|?] ?]; auto|].
    intros [[? Hne]|(n & -> & Hlen & Hn)]; [auto|]. split; [right; by exists n|].
    destruct Hn as (_ & ? & _). intros ->%net_str_inj. lia.
  - rewrite Helem. split; [intros [?|?]; [left; split; [done|congruence]|auto]|]. intros [[? _]|?]; auto.
Qed.
End split.

(** ** Carving the pool *)

Lemma free_in_valid p n : pool_ok p → free_in p n → valid n ∧ within n (network p) ∧ prefixlen (network p) < prefixlen n.
Proof. intros Hok Hn. apply (part_valid _ _ _ (ok_partition p Hok)). by left. Qed.

Lemma available_free p i t : pool_ok p → t ∈ available p i → ∃ n, t = net_str n ∧ prefixlen n = i ∧ free_in p n.
Proof.
  intros Hok Ht. destruct (ok_available p Hok i t Ht) as (n & -> & <-). by exists n.
Qed.

Lemma reserved_in_set p n k v : n ∈ dict_keys (dict_set (sub_by_key p) k v) ↔ n ∈ dict_keys (sub_by_key p) ∨ n = k.
Proof. rewrite elem_of_dict_keys_set. split; intros [?|?]; auto. Qed.

(** The identifier is not known and, when there is one, the subnet is not either. *)
Record fresh (p : PrefixPool) (s : IPNetwork) (identifier : option string) : Prop := {
  fresh_id : truthy_id identifier ≫= dict_get (sub_by_id p) = None;
  fresh_key : is_Some (truthy_id identifier) → ¬ reserved_in p s;
}.

Lemma record_reservation_spec p s identifier : 
  let p' := record_reservation p (net_str s) identifier in
  network p' = network p ∧ mask_biggest p' = mask_biggest p ∧ available_subnets p' = available_subnets p ∧
  sub_by_key p' = dict_set (sub_by_key p) (net_str s) (truthy_id identifier) ∧
  sub_by_id p' = match truthy_id identifier with
                 | Some id => dict_set (sub_by_id p) id (net_str s)
                 | None => sub_by_id p
                 end.
Proof. unfold record_reservation. by destruct (truthy_id identifier). Qed.

(** The pool once [s] is carved out of the free [parent] and reserved. *)
Lemma pool_carve p p' parent s identifier : pool_ok p → free_in p parent → valid s → within s parent →
  fresh p s identifier → ¬ reserved_in p s →
  network p' = network p → mask_biggest p' = mask_biggest p →
  (∀ i, NoDup (available p' i)) →
  (∀ i t, t ∈ available p' i ↔ (t ∈ available p i ∧ (i = prefixlen parent → t ≠ net_str parent)) ∨
      ∃ n, t = net_str n ∧ i = prefixlen n ∧ piece parent s n ∧ n ≠ s) →
  sub_by_key p' = dict_set (sub_by_key p) (net_str s) (truthy_id identifier) →
  sub_by_id p' = match truthy_id identifier with
                 | Some id => dict_set (sub_by_id p) id (net_str s)
                 | None => sub_by_id p
                 end →
  pool_ok p' ∧ ∀ n, reserved_in p' n ↔ reserved_in p n ∨ n = s.
Proof.
  intros Hok Hfree Hs Hw [Hid Hkey] Hnot Hnet Hmask Hnd Helem Hkeys Hids.
  assert (∀ n, reserved_in p' n ↔ reserved_in p n ∨ n = s) as Hres.
  { intros n. unfold reserved_in. rewrite Hkeys, reserved_in_set. split; (intros [?|Heq]; [by left|right]); [by apply net_str_inj|congruence]. }
  split; [|done]. pose proof Hok as [Hn Hroom Hm Hav _ Hks Hidk Hpart]. split.
  - by rewrite Hnet.
  - by rewrite Hnet.
  - by rewrite Hmask, Hnet.
  - intros i t. rewrite Helem. intros [[Ht _]|(n & -> & -> & _)]; [by apply Hav|by exists n].
  - done.
  - intros t. rewrite Hkeys, reserved_in_set. intros [Ht| ->]; [by apply Hks|by exists s].
  - intros id t. rewrite Hids, Hkeys. destruct (truthy_id identifier) as [id'|] eqn:Hi.
    + rewrite !dict_get_set. destruct (decide (id' = id)) as [<-|Hne].
      * intros [= <-]. by rewrite decide_True.
      * intros Hget. case_decide as Ht; [|by apply Hidk]. exfalso. apply Hkey; [by eexists|].
        unfold reserved_in. rewrite Ht. apply dict_get_is_Some. eexists. by apply Hidk.
    + intros Hget. rewrite dict_get_set. case_decide as Ht; [|by apply Hidk]. exfalso. apply Hnot.
      unfold reserved_in. rewrite Ht. apply dict_get_is_Some. eexists. by apply Hidk.
  - rewrite Hnet.
    pose proof (carve_partition _ _ _ parent s Hn Hpart Hfree Hs Hw) as Hcarve.
    assert (∀ n, free_in p' n ↔ carve_free (free_in p) parent s n) as Hf.
    { intros n. unfold free_in at 1, carve_free. rewrite Helem. split.
      - intros [[Ht Hne]|(n' & ->%net_str_inj & _ & Hpc & Hne)]; [left|by right].
        split; [done|]. intros ->. by apply Hne.
      - intros [[Ht Hne]|[Hpc Hne]]; [left; split; [done|]; intros _ Heq; by apply Hne, net_str_inj|right]. by exists n. }
    destruct Hcarve as [C1 C2 C3 C4 C5 C6]. split.
    + intros n. rewrite Hf, Hres. apply C1.
    + intros a b. rewrite !Hf. apply C2.
    + intros a b. rewrite !Hres. apply C3.
    + intros a b. rewrite Hf, Hres. apply C4.
    + intros v x Hx. destruct (C5 v x Hx) as (n & Hn' & Hxn). exists n. rewrite Hf, Hres. done.
    + intros a b. rewrite !Hf. apply C6.
Qed.

Lemma pool_ok_ext p p' : pool_ok p → network p' = network p → mask_biggest p' = mask_biggest p →
  sub_by_key p' = sub_by_key p → sub_by_id p' = sub_by_id p → (∀ i, available p' i = available p i) → pool_ok p'.
Proof.
  intros [H1 H2 H3 H4 H5 H6 H7 H8] En Em Ek Ei Ea.
  assert (∀ n, free_in p' n ↔ free_in p n) as Hf by (intros n; unfold free_in; by rewrite Ea).
  assert (∀ n, reserved_in p' n ↔ reserved_in p n) as Hr by (intros n; unfold reserved_in; by rewrite Ek).
  split; rewrite ?En, ?Em; try done.
  - intros i t. rewrite Ea. apply H4.
  - intros i. by rewrite Ea.
  - intros t. rewrite Ek. apply H6.
  - intros id t. rewrite Ei, Ek. apply H7.
  - destruct H8 as [P1 P2 P3 P4 P5 P6]. split.
    + intros n. rewrite Hf, Hr. apply P1.
    + intros a b. rewrite !Hf. apply P2.
    + intros a b. rewrite !Hr. apply P3.
    + intros a b. rewrite Hf, Hr. apply P4.
    + intros v x Hx. destruct (P5 v x Hx) as (n & ?). exists n. by rewrite Hf, Hr.
    + intros a b. rewrite !Hf. apply P6.
Qed.

(** ** [reserve] *)

(** A network that the pool may reserve. *)
Definition inside (p : PrefixPool) (s : IPNetwork) : Prop :=
  valid s ∧ within s (network p) ∧ prefixlen (network p) < prefixlen s.

Lemma find_supernet_spec p s lengths : valid s → (∀ q, q ∈ lengths → 0 ≤ q ≤ prefixlen s) →
  ∃ r, find_supernet p s lengths = Ok r ∧
    match r with
    | Some n => ∃ q, q ∈ lengths ∧ n = enclosing s q ∧ free_in p n
    | None => ∀ q, q ∈ lengths → ¬ free_in p (enclosing s q)
    end.
Proof.
  intros Hs. induction lengths as [|q lengths IH]; intros Hq; cbn [find_supernet].
  { exists None. split; [done|]. intros q []%elem_of_nil. }
  rewrite supernet_spec by (done || (apply Hq; left)). cbn [mbind result_bind].
  case_decide as Hin.
  - eexists. split; [done|]. exists q. split; [left|]. done.
  - destruct IH as (r & Hr & Hspec); [intros; apply Hq; by right|]. exists r. split; [done|].
    destruct r as [n|].
    + destruct Hspec as (q' & Hq' & ?). exists q'. split; [by right|done].
    + intros q' [->|Hq']%elem_of_cons; [done|by apply Hspec].
Qed.

Lemma elem_of_py_range_down a b q : q ∈ py_range_down a b ↔ b < q ≤ a.
Proof. unfold py_range_down. rewrite reverse_Permutation, elem_of_seqZ. lia. Qed.

Section reserve.
Context (p : PrefixPool) (s : IPNetwork) (identifier : option string).
Context (Hok : pool_ok p) (Hin : inside p s) (Hfresh : fresh p s identifier).

(** A recursive call, from a pool with the same reservations, passes the checks. *)
Lemma reserve_checks fuel p' : same_reservations p p' →
  reserve_rec (S fuel) p' (net_str s) identifier =
    if dict_mem (sub_by_key p) (net_str s) then Ok (true, remove_subnet_from_available_list p' s)
    else if decide (net_str s ∈ available p' (prefixlen s)) then
      Ok (true, remove_subnet_from_available_list (record_reservation p' (net_str s) identifier) s)
    else
      sup ← find_supernet p' s (py_range_down (prefixlen s - 1) (prefixlen (network p)));
      match sup with
      | Some sup => p' ← split_supernet p' sup s; reserve_rec fuel p' (net_str s) identifier
      | None => Ok (false, p')
      end.
Proof.
  intros Hsame. destruct Hin as (Hs & Hw & Hlt). pose proof (ok_network p Hok) as Hn.
  pose proof (valid_prefixlen _ Hn).
  assert (network p' = network p ∧ sub_by_key p' = sub_by_key p ∧ sub_by_id p' = sub_by_id p) as (Enet & Ekey & Eid).
  { by rewrite Hsame. }
  cbn [reserve_rec]. rewrite ip_network_str by done. cbn [mbind result_bind].
  rewrite Enet, bool_decide_false by lia. cbn [raise_if mbind result_bind].
  rewrite supernet_spec by (done || lia). cbn [mbind result_bind].
  rewrite enclosing_unique, bool_decide_true by done. cbn [raise_if mbind result_bind negb].
  rewrite Eid, (fresh_id _ _ _ Hfresh), Ekey.
  destruct (dict_mem (sub_by_key p) (net_str s)) eqn:Hmem.
  - destruct (truthy_id identifier) eqn:Hid; cbn; [|done]. exfalso.
    apply (fresh_key _ _ _ Hfresh); [rewrite Hid; by eexists|]. by apply dict_mem_spec.
  - rewrite andb_false_r. done.
Qed.

(** The two ways to reserve end here. *)
Lemma reserve_end p' parent : free_in p parent → within s parent → ¬ reserved_in p s → same_reservations p p' →
  (∀ i, NoDup (available p' i)) →
  (∀ i t, t ∈ available p' i ∧ ¬ (i = prefixlen s ∧ t = net_str s) ↔
     (t ∈ available p i ∧ (i = prefixlen parent → t ≠ net_str parent)) ∨
      ∃ n, t = net_str n ∧ i = prefixlen n ∧ piece parent s n ∧ n ≠ s) →
  let p'' := remove_subnet_from_available_list (record_reservation p' (net_str s) identifier) s in
  pool_ok p'' ∧ network p'' = network p ∧ (∀ n, reserved_in p'' n ↔ reserved_in p n ∨ n = s) ∧
  sub_by_id p'' = match truthy_id identifier with
                  | Some id => dict_set (sub_by_id p) id (net_str s)
                  | None => sub_by_id p
                  end.
Proof.
  intros Hfree Hw Hnot Hsame Hnd Helem. cbn zeta.
  destruct (record_reservation_spec p' s identifier) as (Enet & Emask & Eav & Ekey & Eid).
  set (q := record_reservation p' (net_str s) identifier) in *.
  assert (∀ i, available q i = available p' i) as Hav by (intros i; unfold available; by rewrite Eav).
  destruct (remove_first_spec (net_str s) (available q (prefixlen s))) as [Hrnd Hrin]; [by rewrite Hav|].
  assert (network p' = network p ∧ mask_biggest p' = mask_biggest p ∧ sub_by_key p' = sub_by_key p ∧ sub_by_id p' = sub_by_id p)
    as (Enet' & Emask' & Ekey' & Eid') by by rewrite Hsame.
  destruct (pool_carve p (remove_subnet_from_available_list q s) parent s identifier) as [Hok'' Hres];
    [done|done|apply Hin|done|done|done|..].
  - change (network q = network p). congruence.
  - change (mask_biggest q = mask_biggest p). congruence.
  - intros i. unfold remove_subnet_from_available_list. rewrite available_set. case_decide; [done|by rewrite Hav].
  - intros i t. rewrite <-Helem. unfold remove_subnet_from_available_list. rewrite available_set.
    case_decide as Hi; [rewrite Hrin|]; rewrite Hav; subst; intuition congruence.
  - change (sub_by_key q = dict_set (sub_by_key p) (net_str s) (truthy_id identifier)). by rewrite Ekey, Ekey'.
  - change (sub_by_id q = match truthy_id identifier with Some id => dict_set (sub_by_id p) id (net_str s) | None => sub_by_id p end).
    by rewrite Eid, Eid'.
  - split; [done|]. split; [change (network q = network p); congruence|]. split; [done|].
    change (sub_by_id q = match truthy_id identifier with Some id => dict_set (sub_by_id p) id (net_str s) | None => sub_by_id p end).
    by rewrite Eid, Eid'.
Qed.

(** A free subnet, or one inside a free network, gets reserved. *)
Definition reserves (p' : PrefixPool) : Prop :=
  pool_ok p' ∧ network p' = network p ∧ (∀ n, reserved_in p' n ↔ reserved_in p n ∨ n = s) ∧
  sub_by_id p' = match truthy_id identifier with
                 | Some id => dict_set (sub_by_id p) id (net_str s)
                 | None => sub_by_id p
                 end.

Lemma free_not_reserved parent : free_in p parent → within s parent → ¬ reserved_in p s.
Proof.
  intros Hfree Hw Hres. destruct Hin as (Hs & _). apply (not_apart_within s s Hs (within_refl s)).
  eapply within_apart; [exact Hw|]. by apply (part_apart _ _ _ (ok_partition p Hok)).
Qed.

Lemma reserve_free fuel : free_in p s →
  ∃ p', reserve_rec (S fuel) p (net_str s) identifier = Ok (true, p') ∧ reserves p'.
Proof.
  intros Hfree. pose proof (free_not_reserved s Hfree (within_refl s)) as Hnot.
  assert (dict_mem (sub_by_key p) (net_str s) = false) as Hmem.
  { apply not_true_iff_false. by rewrite dict_mem_spec. }
  rewrite (reserve_checks fuel p (same_reservations_refl p)), Hmem, decide_True by done. eexists. split; [done|].
  apply (reserve_end p s); auto using within_refl, same_reservations_refl.
  - by apply ok_NoDup.
  - intros i t. split; [intros [Ht Hne]; left; split; [done|]; intros ->; naive_solver|].
    intros [[Ht Hne]|(n & _ & _ & (_ & ? & _) & _)]; [|lia]. split; [done|]. intros [-> ->]. by apply Hne.
Qed.

Lemma split_then_reserve fuel parent : free_in p parent → within s parent → prefixlen parent < prefixlen s →
  ∃ p1 p', split_supernet p parent s = Ok p1 ∧ reserve_rec (S fuel) p1 (net_str s) identifier = Ok (true, p') ∧
    reserves p'.
Proof.
  intros Hfree Hw Hlt. pose proof (free_not_reserved parent Hfree Hw) as Hnot. destruct Hin as (Hs & _).
  destruct (free_in_valid p parent Hok Hfree) as (Hparent & _).
  assert (∀ n, piece parent s n → ¬ free_in p n) as Hnew.
  { intros n Hn Hf. pose proof (piece_within parent s n Hparent Hs Hw Hn) as Hnp. destruct Hn as (Hvn & Hlen & _).
    apply (not_apart_within n parent Hvn Hnp). apply (part_free_apart _ _ _ (ok_partition p Hok)); [done..|].
    intros ->. lia. }
  destruct (split_supernet_spec s Hs p parent) as (p1 & Hsplit & Hsame & Hnd & Helem); [done..|by apply ok_NoDup|done|].
  exists p1. assert (net_str s ∈ available p1 (prefixlen s)) as Hav.
  { apply Helem. right. exists s. auto using piece_self. }
  assert (dict_mem (sub_by_key p) (net_str s) = false) as Hmem.
  { apply not_true_iff_false. by rewrite dict_mem_spec. }
  rewrite (reserve_checks fuel p1), Hmem, decide_True by done. eexists. split; [done|]. split; [done|].
  apply (reserve_end p1 parent); [done..|]. intros i t. rewrite Helem. split.
  - intros [[?|(n & -> & -> & Hn)] Hne]; [by left|right]. exists n. split_and!; [done..|]. intros ->. by apply Hne.
  - intros [[Ht Hne]|(n & -> & -> & Hn & Hne)].
    + split; [by left|]. intros [-> ->]. apply (not_apart_within s parent); [done..|].
      apply (part_free_apart _ _ _ (ok_partition p Hok)); [done..|]. intros ->. lia.
    + split; [right; by exists n|]. intros [_ Heq%net_str_inj]. done.
Qed.

(** Reserving a subnet of the network: it succeeds exactly when the subnet is reserved
    already or has no address in common with the reserved ones. *)
Lemma reserve_result : ∃ b p', reserve p (net_str s) identifier = Ok (b, p') ∧
  (b = true ↔ reserved_in p s ∨ ∀ r, reserved_in p r → apart s r) ∧
  ((b = true ∧ ¬ reserved_in p s ∧ reserves p') ∨
   ((b = true → reserved_in p s) ∧ pool_ok p' ∧ network p' = network p ∧ sub_by_key p' = sub_by_key p ∧
    sub_by_id p' = sub_by_id p)).
Proof.
  destruct Hin as (Hs & Hw & Hlt). pose proof (ok_network p Hok) as Hn. pose proof (valid_prefixlen _ Hn).
  assert (∀ parent, free_in p parent → within s parent → ∀ r, reserved_in p r → apart s r) as Hfree_apart.
  { intros parent Hf Hwp r Hr. eapply within_apart; [exact Hwp|]. by apply (part_apart _ _ _ (ok_partition p Hok)). }
  destruct (dict_mem (sub_by_key p) (net_str s)) eqn:Hmem.
  - exists true. eexists. unfold reserve. rewrite (reserve_checks 999 p (same_reservations_refl p)), Hmem. split; [done|].
    apply dict_mem_spec in Hmem. fold (reserved_in p s) in Hmem. split; [tauto|]. right. split; [done|].
    assert (remove_first (net_str s) (available p (prefixlen s)) = available p (prefixlen s)) as Hrem.
    { assert (¬ free_in p s) as Hnf by (intros Hf; by eapply (free_not_reserved s); eauto using within_refl).
      by apply remove_first_absent. }
    unfold remove_subnet_from_available_list. rewrite Hrem. split; [|done]. eapply pool_ok_ext; [exact Hok|done..|].
    intros i. rewrite available_set. by case_decide; subst.
  - assert (¬ reserved_in p s) as Hnot by (unfold reserved_in; rewrite <-dict_mem_spec; congruence).
    destruct (decide (net_str s ∈ available p (prefixlen s))) as [Hav|Hnav].
    + destruct (reserve_free 999 Hav) as (p' & Hr & Hspec). exists true, p'. split; [done|]. split; [|by left].
      split; [|done]. intros _. right. by apply (Hfree_apart s Hav (within_refl s)).
    + destruct (find_supernet_spec p s (py_range_down (prefixlen s - 1) (prefixlen (network p)))) as (sup & Hsup & Hspec);
        [done|intros q Hq%elem_of_py_range_down; lia|].
      unfold reserve. rewrite (reserve_checks 999 p (same_reservations_refl p)), Hmem, decide_False, Hsup by done. cbn [mbind result_bind].
      destruct sup as [sup|].
      * destruct Hspec as (q & Hq%elem_of_py_range_down & -> & Hf).
        destruct (enclosing_valid s q Hs ltac:(lia)) as [_ Hwe].
        destruct (split_then_reserve 998 (enclosing s q)) as (p1 & p' & -> & Hr & Hres); [done..|cbn; lia|].
        exists true, p'. split; [exact Hr|]. split; [|by left]. split; [|done]. intros _. right. by eapply Hfree_apart.
      * exists false, p. split; [done|]. split; [|right; done]. split; [done|]. intros [?|Hap]; [done|]. exfalso.
        destruct (partition_complete _ _ _ Hn (ok_partition p Hok) s) as (a & Hf & Hwa); [done..|].
        destruct (free_in_valid p a Hok Hf) as (Hva & _ & Hla).
        destruct (decide (prefixlen a = prefixlen s)) as [Heq|Hne].
        { apply Hnav. by rewrite (within_antisymm s a). }
        apply (Hspec (prefixlen a)); [apply elem_of_py_range_down; destruct Hwa as (_ & ? & _); lia|].
        by rewrite enclosing_unique.
Qed.
End reserve.

(** ** [get] *)

Lemma find_available_spec p lengths :
  match find_available p lengths with
  | Some t => ∃ i, i ∈ lengths ∧ t ∈ available p i
  | None => ∀ i, i ∈ lengths → available p i = []
  end.
Proof.
  induction lengths as [|i lengths IH]; cbn; [intros i []%elem_of_nil|].
  destruct (available p i) as [|t l] eqn:Hav.
  - destruct (find_available p lengths).
    + destruct IH as (j & Hj & Ht). exists j. split; [by right|done].
    + intros j [->|Hj]%elem_of_cons; [done|by apply IH].
  - exists i. split; [left|]. rewrite Hav. left.
Qed.

Lemma next_subnet_spec n q : valid n → prefixlen n < q ≤ max_prefixlen (version n) →
  ∃ s, next_subnet n q = Ok s ∧ valid s ∧ within s n ∧ prefixlen s = q.
Proof.
  intros Hn Hq. pose proof (valid_prefixlen n Hn). unfold next_subnet, subnets_count.
  rewrite !decide_False by lia. exists (subnet_at n q 0). split; [done|].
  assert (0 < 2 ^ (q - prefixlen n)) by (apply Z.pow_pos_nonneg; lia).
  destruct (subnet_at_valid n q 0 Hn); [lia|lia|done].
Qed.

(** The pool after the reservation of [n] for an identifier. *)
Definition allocated (p p' : PrefixPool) (n : IPNetwork) (identifier : option string) : Prop :=
  pool_ok p' ∧ network p' = network p ∧ (∀ r, reserved_in p' r ↔ reserved_in p r ∨ r = n) ∧
  ∀ id, truthy_id identifier = Some id → dict_get (sub_by_id p') id = Some (net_str n).

Lemma reserves_allocated p p' s identifier : reserves p s identifier p' → allocated p p' s identifier.
Proof.
  intros (Hok & Hnet & Hres & Hid). split; [done|]. split; [done|]. split; [done|].
  intros id Heq. rewrite Hid, Heq. apply dict_get_set_eq.
Qed.

(** [get] without a reservation of the identifier. *)
Lemma get_result p q identifier : pool_ok p → q ≤ max_prefixlen (version (network p)) →
  truthy_id identifier ≫= dict_get (sub_by_id p) = None →
  match get p q identifier with
  | Ok (n, p') => inside p n ∧ prefixlen n = q ∧ (∀ r, reserved_in p r → apart n r) ∧ allocated p p' n identifier
  | Err e => e = IndexError ∧ ∀ n, inside p n → prefixlen n = q → ¬ ∀ r, reserved_in p r → apart n r
  end.
Proof.
  intros Hok Hq Hid. unfold get. rewrite Hid.
  assert (∀ n, free_in p n → inside p n) as Hinside by (intros n; by apply free_in_valid).
  assert (∀ s parent, free_in p parent → inside p s → within s parent →
    ¬ reserved_in p s ∧ ∀ r, reserved_in p r → apart s r) as Hapart.
  { intros s parent Hf Hs Hw. split; [by eapply free_not_reserved|]. intros r Hr. eapply within_apart; [exact Hw|].
    by apply (part_apart _ _ _ (ok_partition p Hok)). }
  destruct (available p q) as [|t l] eqn:Hav.
  - pose proof (find_available_spec p (py_range_down (q - 1) (mask_biggest p - 1))) as Hfind.
    rewrite (ok_mask p Hok) in *. replace (prefixlen (network p) + 1 - 1) with (prefixlen (network p)) in * by lia.
    destruct (find_available p _) as [t|].
    + destruct Hfind as (i & Hi%elem_of_py_range_down & Ht).
      destruct (available_free p i t Hok Ht) as (sup & -> & <- & Hf).
      destruct (Hinside sup Hf) as (Hsup & Hws & Hls). pose proof Hws as (Hver & _).
      rewrite ip_network_str by done. cbn [mbind result_bind].
      destruct (next_subnet_spec sup q Hsup) as (s & -> & Hs & Hw & Hlen); [rewrite Hver; lia|]. cbn [mbind result_bind].
      assert (inside p s) as Hin by (split; [done|split; [by eapply within_trans|lia]]).
      destruct (Hapart s sup Hf Hin Hw) as [Hnot Hap].
      destruct (split_then_reserve p s identifier Hok Hin ltac:(split; [done|done]) 999 sup Hf Hw ltac:(lia)) as (p1 & p' & -> & Hr & Hres).
      cbn [mbind result_bind]. unfold reserve. change 1000%nat with (S 999). rewrite Hr. cbn.
      split; [done|]. split; [done|]. split; [done|]. by apply reserves_allocated.
    + split; [done|]. intros n Hn Hlen Hap. pose proof Hn as (Hvn & Hwn & Hln).
      destruct (partition_complete _ _ _ (ok_network p Hok) (ok_partition p Hok) n) as (a & Hf & Hwa); [done..|].
      pose proof (Hinside a Hf) as (_ & _ & Hla). pose proof Hwa as (_ & Hle & _). unfold free_in in Hf.
      destruct (decide (prefixlen a = q)) as [Heq|Hne].
      * rewrite Heq, Hav in Hf. by apply elem_of_nil in Hf.
      * rewrite Hfind in Hf by (apply elem_of_py_range_down; lia). by apply elem_of_nil in Hf.
  - destruct (available_free p q t Hok) as (s & -> & Hlen & Hf); [rewrite Hav; left|].
    pose proof (Hinside s Hf) as Hin. destruct (Hapart s s Hf Hin (within_refl s)) as [Hnot Hap].
    destruct (reserve_free p s identifier Hok Hin ltac:(split; [done|done]) 999 Hf) as (p' & Hr & Hres).
    unfold reserve. change 1000%nat with (S 999). rewrite Hr. cbn [mbind result_bind].
    rewrite ip_network_str by apply Hin. cbn. split; [done|]. split; [done|]. split; [done|]. by apply reserves_allocated.
Qed.

(** ** A new pool *)

Lemma new_pool_result t n : ip_network t = Ok n → prefixlen n < max_prefixlen (version n) →
  ∃ p, new_pool t = Ok p ∧ pool_ok p ∧ network p = n ∧ ∀ r, ¬ reserved_in p r.
Proof.
  intros Ht Hm. destruct (ip_network_ok t n Ht) as [Hn _]. unfold new_pool. rewrite Ht. cbn [mbind result_bind].
  rewrite subnets_halves by done. cbn [mbind result_bind foldl]. eexists. split; [done|].
  set (p0 := mkPrefixPool n (prefixlen n + 1) (max_prefixlen (version n)) [] [] []).
  set (p := add_available _ (add_available _ p0 (half n 0)) (half n 1)).
  pose proof (halves_differ n Hn Hm) as Hne.
  destruct (half_valid n 0 Hn Hm ltac:(lia)) as [Hv0 Hw0], (half_valid n 1 Hn Hm ltac:(lia)) as [Hv1 Hw1].
  assert (∀ r, ¬ reserved_in p r) as Hres by (intros r []%elem_of_nil).
  assert (∀ i t, t ∈ available p i ↔ i = prefixlen n + 1 ∧ (t = net_str (half n 0) ∨ t = net_str (half n 1))) as Hav.
  { intros i t'. unfold p. rewrite !add_available_elem. change (available p0 i) with (@nil ip_text).
    rewrite elem_of_nil. naive_solver. }
  assert (∀ a, free_in p a ↔ a = half n 0 ∨ a = half n 1) as Hfree.
  { intros a. unfold free_in. rewrite Hav. split.
    - intros [_ [->%net_str_inj| ->%net_str_inj]]; auto.
    - intros [-> | ->]; auto. }
  split; [|done]. split; cbn [network mask_biggest]; try done.
  - intros i t'. rewrite Hav. intros [-> [-> | ->]]; eauto.
  - apply add_available_NoDup.
    + apply add_available_NoDup; [intros; apply NoDup_nil_2|]. apply not_elem_of_nil.
    + rewrite add_available_elem. intros [[]%elem_of_nil|[_ Heq%net_str_inj]]. done.
  - intros t' []%elem_of_nil.
  - change (network p) with n. split.
    + intros a. rewrite Hfree. intros [[-> | ->]|Hr]; [split_and!; [done..|cbn; lia]|split_and!; [done..|cbn; lia]|by apply Hres in Hr].
    + intros a b. rewrite !Hfree. intros [-> | ->] [-> | ->] Hab; try done; by apply same_length_apart.
    + intros a b Ha. by apply Hres in Ha.
    + intros a b _ Hb. by apply Hres in Hb.
    + intros v x Hx. pose proof Hx as [Hv Hx'].
      assert (0 ≤ x < 2 ^ max_prefixlen v) as Hrange.
      { rewrite <-Hv. pose proof (valid_start n Hn). pose proof (valid_end n Hn). lia. }
      destruct (part_half n (point v x)) as [Hp|Hp].
      * done. * by apply point_valid. * by apply point_within. * cbn. by rewrite <-Hv.
      * exists (half n 0). rewrite Hfree. split; [auto|by apply point_has_address].
      * exists (half n 1). rewrite Hfree. split; [auto|by apply point_has_address].
    + intros a b. rewrite !Hfree. intros [-> | ->] _ _; done.
Qed.

(** ** Runs of a pool *)

(** The pools that the operations build, from a network that is not a single address,
    with texts of networks in their usual spelling and lengths that exist. *)
Inductive pool_reachable : PrefixPool → Prop :=
  | reach_new t p : new_pool t = Ok p → prefixlen (network p) < max_prefixlen (version (network p)) → pool_reachable p
  | reach_reserve p s identifier b p' :
      pool_reachable p → reserve p (net_str s) identifier = Ok (b, p') → pool_reachable p'
  | reach_get p q identifier n p' :
      pool_reachable p → q ≤ max_prefixlen (version (network p)) → get p q identifier = Ok (n, p') → pool_reachable p'.

Lemma reserve_cases p s identifier b p' : pool_ok p → reserve p (net_str s) identifier = Ok (b, p') →
  p' = p ∨ (inside p s ∧ fresh p s identifier).
Proof.
  intros Hok Hr. unfold reserve in Hr. change 1000%nat with (S 999) in Hr.
  generalize dependent 999%nat. intros fuel Hr. cbn [reserve_rec] in Hr.
  apply bind_ok in Hr as (sub & Hsub & Hr). apply ip_network_ok in Hsub as (Hs & sp & Heq).
  injection Heq as <- <-. apply raise_if_bind in Hr as [Hlen Hr]. apply bool_decide_eq_false in Hlen.
  pose proof (ok_network p Hok) as Hn. pose proof (valid_prefixlen _ Hn).
  rewrite supernet_spec in Hr by (done || lia). apply bind_ok in Hr as (sup & [= <-] & Hr).
  apply raise_if_bind in Hr as [Hsup Hr]. apply negb_false_iff, bool_decide_eq_true in Hsup.
  assert (inside p s) as Hin.
  { split; [done|]. split; [|lia]. rewrite <-Hsup. apply enclosing_valid; [done|lia]. }
  destruct (truthy_id identifier ≫= dict_get (sub_by_id p)) as [t|] eqn:Hid.
  - left. apply raise_if_bind in Hr as [_ [= _ <-]]. done.
  - right. split; [done|]. apply raise_if_bind in Hr as [Hk _]. split; [done|].
    intros [id Hid'] Hres. rewrite Hid' in Hk. cbn in Hk. unfold reserved_in in Hres. apply dict_mem_spec in Hres.
    congruence.
Qed.

Lemma reserve_keeps p s identifier b p' : pool_ok p → reserve p (net_str s) identifier = Ok (b, p') →
  pool_ok p' ∧ network p' = network p.
Proof.
  intros Hok Hr. destruct (reserve_cases p s identifier b p' Hok Hr) as [->|[Hin Hfresh]]; [done|].
  destruct (reserve_result p s identifier Hok Hin Hfresh) as (b0 & p0 & Hr0 & _ & Hcase).
  rewrite Hr in Hr0. injection Hr0 as <- <-. destruct Hcase as [(_ & _ & ? & ? & _)|(_ & ? & ? & _)]; done.
Qed.

Lemma get_keeps p q identifier n p' : pool_ok p → q ≤ max_prefixlen (version (network p)) →
  get p q identifier = Ok (n, p') → pool_ok p' ∧ network p' = network p.
Proof.
  intros Hok Hq Hg. destruct (truthy_id identifier ≫= dict_get (sub_by_id p)) as [t|] eqn:Hid.
  - unfold get in Hg. rewrite Hid in Hg. apply bind_ok in Hg as (net & _ & Hg). case_decide; [|done].
    by injection Hg as <- <-.
  - pose proof (get_result p q identifier Hok Hq Hid) as Hspec. rewrite Hg in Hspec.
    destruct Hspec as (_ & _ & _ & ? & ? & _). done.
Qed.

Lemma network_adds i subs : ∀ p, network (foldl (add_available i) p subs) = network p.
Proof. induction subs as [|m subs IH]; intros p; cbn [foldl]; [done|]. by rewrite IH. Qed.

Lemma reachable_ok p : pool_reachable p → pool_ok p.
Proof.
  induction 1 as [t p Hnew Hm|p s identifier b p' _ IH Hr|p q identifier n p' _ IH Hq Hg].
  - destruct (ip_network t) as [n|e] eqn:Ht; [|unfold new_pool in Hnew; by rewrite Ht in Hnew].
    assert (network p = n) as Hnet.
    { unfold new_pool in Hnew. rewrite Ht in Hnew. cbn [mbind result_bind] in Hnew.
      apply bind_ok in Hnew as (subs & _ & [= <-]).
      apply (network_adds (prefixlen n + 1) subs). }
    rewrite Hnet in Hm. destruct (new_pool_result t n Ht Hm) as (p0 & Hp0 & Hok & _). congruence.
  - by eapply reserve_keeps.
  - by eapply get_keeps.
Qed.

(** C28: Allocation in a pool, in every state the operations reach, of a prefix length that
    is at most the one of an address, for an identifier that has no reservation yet or for
    none.  [get] returns a network of the requested length inside the network of the pool,
    with no address in common with what is reserved, reserves it, and gives it again to the
    same identifier.  It raises IndexError, and nothing else, exactly when no such network
    exists: the space is never fragmented by the splits. *)
Theorem pool_get_spec p q identifier :
  pool_reachable p → q ≤ max_prefixlen (version (network p)) →
  truthy_id identifier ≫= dict_get (sub_by_id p) = None →
  match get p q identifier with
  | Ok (n, p') =>
      inside p n ∧ prefixlen n = q ∧ (∀ r, reserved_in p r → apart n r) ∧
      (∀ r, reserved_in p' r ↔ reserved_in p r ∨ r = n) ∧
      ∀ id, truthy_id identifier = Some id → get p' q identifier = Ok (n, p')
  | Err e => e = IndexError ∧ ∀ n, inside p n → prefixlen n = q → ¬ ∀ r, reserved_in p r → apart n r
  end.
Proof.
  intros Hok%reachable_ok Hq Hid. pose proof (get_result p q identifier Hok Hq Hid) as Hspec.
  destruct (get p q identifier) as [[n p']|e]; [|done].
  destruct Hspec as (Hin & Hlen & Hap & _ & _ & Hres & Hget). split_and!; [done..|].
  intros id Heq. unfold get. rewrite Heq. cbn [mbind option_bind]. rewrite (Hget id Heq).
  rewrite ip_network_str by apply Hin. cbn [mbind result_bind]. by rewrite decide_True.
Qed.

(** Reserving a network of the pool, with no identifier or a new one, never raises.
    It succeeds exactly when the network is reserved already or has no address in common
    with the reserved ones, and it then becomes reserved, or stays so; otherwise nothing
    is reserved. *)
Theorem pool_reserve_spec p s identifier :
  pool_reachable p → inside p s → fresh p s identifier →
  ∃ b p', reserve p (net_str s) identifier = Ok (b, p') ∧
    (b = true ↔ reserved_in p s ∨ ∀ r, reserved_in p r → apart s r) ∧
    ∀ r, reserved_in p' r ↔ reserved_in p r ∨ (b = true ∧ r = s).
Proof.
  intros Hok%reachable_ok Hin Hfresh.
  destruct (reserve_result p s identifier Hok Hin Hfresh) as (b & p' & Hr & Hb & Hcase).
  exists b, p'. split; [done|]. split; [done|]. intros r.
  destruct Hcase as [(-> & _ & _ & _ & Hres & _)|(Hs & _ & _ & Hkey & _)].
  - rewrite Hres. naive_solver.
  - unfold reserved_in. rewrite Hkey. split; [by left|]. intros [?|[-> ->]]; [done|by apply Hs].
Qed.

(** ** [get_next] *)

(** A resource: its network, which has room for subnets, and the subnets in use. *)
Record resource_ok (q : Z) (resource : ip_text * list IPNetwork) (n : IPNetwork) : Prop := {
  resource_network : ip_network resource.1 = Ok n;
  resource_room : prefixlen n < max_prefixlen (version n);
  resource_length : q ≤ max_prefixlen (version n);
  resource_subnets s : s ∈ resource.2 → valid s ∧ within s n ∧ prefixlen n < prefixlen s;
  resource_apart a b : a ∈ resource.2 → b ∈ resource.2 → a ≠ b → apart a b;
}.
(** A network of the length [q] that the resource can give. *)
Definition can_give (q : Z) (resource : ip_text * list IPNetwork) (n r : IPNetwork) : Prop :=
  valid r ∧ within r n ∧ prefixlen n < prefixlen r ∧ prefixlen r = q ∧ ∀ s, s ∈ resource.2 → apart r s.

Lemma reserve_all n subnets : ∀ p, pool_ok p → network p = n → 
  (∀ s, s ∈ subnets → inside p s) → (∀ a b, a ∈ subnets → b ∈ subnets → a ≠ b → apart a b) →
  (∀ r s, reserved_in p r → s ∈ subnets → r ≠ s → apart r s) →
  ∃ p', foldM (λ pool subnet, snd <$> reserve pool (net_str subnet) None) p subnets = Ok p' ∧
    pool_ok p' ∧ network p' = n ∧ sub_by_id p' = sub_by_id p ∧
    ∀ r, reserved_in p' r ↔ reserved_in p r ∨ r ∈ subnets.
Proof.
  induction subnets as [|s subnets IH]; intros p Hok Hnet Hin Hap Hres; cbn [foldM].
  { exists p. split_and!; try done. intros r. rewrite elem_of_nil. tauto. }
  destruct (reserve_result p s None Hok (Hin s ltac:(left))) as (b & p1 & Hr & Hb & Hcase).
  { split; [done|]. by intros []. }
  assert (b = true) as ->.
  { apply Hb. destruct (decide (net_str s ∈ dict_keys (sub_by_key p))) as [|Hnot]; [by left|right].
    intros r Hr'. apply apart_sym, Hres; [done|left|]. intros ->. done. }
  assert (pool_ok p1 ∧ network p1 = n ∧ sub_by_id p1 = sub_by_id p ∧ ∀ r, reserved_in p1 r ↔ reserved_in p r ∨ r = s)
    as (Hok1 & Hnet1 & Hid1 & Hres1).
  { destruct Hcase as [(_ & _ & ? & -> & ? & ?)|(Hs & ? & -> & Hkey & ?)]; [done|]. split_and!; [done..|].
    intros r. unfold reserved_in. rewrite Hkey. split; [by left|]. intros [?| ->]; [done|by apply Hs]. }
  rewrite Hr. cbn [mbind result_bind fmap result_fmap snd].
  destruct (IH p1) as (p' & Hf & Hok' & Hnet' & Hid' & Hres'); [done|done| | | |].
  - intros a Ha. unfold inside. rewrite Hnet1, <-Hnet. apply Hin. by right.
  - intros a b' Ha Hb'. apply Hap; by right.
  - intros r a [Hr'| ->]%Hres1 Ha Hne; [apply Hres; [done|by right|done]|apply Hap; [left|by right|done]].
  - exists p'. split; [exact Hf|]. split_and!; [done|done|congruence|]. intros r. rewrite Hres', Hres1, elem_of_cons. tauto.
Qed.

Lemma resource_get q resource n : resource_ok q resource n →
  ∃ p, (p ← new_pool resource.1; foldM (λ pool subnet, snd <$> reserve pool (net_str subnet) None) p resource.2) = Ok p ∧
  match get p q None with
  | Ok (r, _) => can_give q resource n r
  | Err e => e = IndexError ∧ ∀ r, ¬ can_give q resource n r
  end.
Proof.
  intros [Hn Hroom Hq Hsub Hap]. destruct (new_pool_result _ n Hn Hroom) as (p0 & -> & Hok0 & Hnet0 & Hnone).
  cbn [mbind result_bind].
  destruct (reserve_all n resource.2 p0) as (p & -> & Hok & Hnet & _ & Hres); [done|done| |done| |].
  - intros s Hs. unfold inside. rewrite Hnet0. by apply Hsub.
  - intros r s Hr. by apply Hnone in Hr.
  - exists p. split; [done|].
    assert (∀ r, reserved_in p r ↔ r ∈ resource.2) as Hres'.
    { intros r. rewrite Hres. split; [intros [Hr|?]; [by apply Hnone in Hr|done]|by right]. }
    pose proof (get_result p q None Hok) as Hget. unfold inside in Hget. rewrite Hnet in Hget.
    specialize (Hget Hq eq_refl).
    destruct (get p q None) as [[r p']|e].
    + destruct Hget as ((? & ? & ?) & ? & Hr & _). split_and!; [done..|]. intros s Hs. by apply Hr, Hres'.
    + destruct Hget as [He Hall]. split; [done|]. intros r (? & ? & ? & ? & Hr).
      apply (Hall r); [done|done|]. intros s Hs. by apply Hr, Hres'.
Qed.

(** The next prefix of a prefix pool, when the subnets in use in each resource have
    no address in common: a network of the requested length, inside the first resource
    that can give one, with no address in common with the subnets in use there;
    IndexError exactly when no resource can give one. *)
Theorem get_next_spec q resources nets :
  Forall2 (resource_ok q) resources nets →
  match get_next resources q with
  | Ok r => ∃ i resource n, resources !! i = Some resource ∧ nets !! i = Some n ∧ can_give q resource n r ∧
      ∀ j resource' n', (j < i)%nat → resources !! j = Some resource' → nets !! j = Some n' →
        ∀ r', ¬ can_give q resource' n' r'
  | Err e => e = IndexError ∧
      ∀ j resource n, resources !! j = Some resource → nets !! j = Some n → ∀ r, ¬ can_give q resource n r
  end.
Proof.
  induction 1 as [|[t subnets] n resources nets Hok _ IH]; cbn [get_next]; [split; [done|by intros []]|].
  destruct (resource_get q (t, subnets) n Hok) as (p & Hp & Hget). cbn [fst snd] in Hp.
  apply bind_ok in Hp as (p0 & -> & Hfold). cbn [mbind result_bind]. rewrite Hfold. cbn [mbind result_bind].
  destruct (get p q None) as [[r p']|e].
  - exists 0%nat, (t, subnets), n. split_and!; [done..|]. intros j ? ? Hj. lia.
  - destruct Hget as [-> Hnone]. destruct (get_next resources q) as [r|e].
    + destruct IH as (i & resource & n' & Hi & Hni & Hgive & Hearlier). exists (S i), resource, n'.
      split_and!; [done..|]. intros [|j] resource' n'' Hj; cbn.
      * intros [= <-] [= <-]. done.
      * apply Hearlier. lia.
    + destruct IH as [-> IH]. split; [done|]. intros [|j] resource n'; cbn; [intros [= <-] [= <-]; done|apply IH].
Qed.

(** ** Witnesses *)

Definition example_pool : PrefixPool :=
  match new_pool (net_str (ipv4 192 168 0 0 16)) with
  | Ok p => match reserve p (net_str (ipv4 192 168 0 0 24)) (Some "first") with Ok (_, p) => p | Err _ => p end
  | Err _ => mkPrefixPool (ipv4 0 0 0 0 0) 0 0 [] [] []
  end.

Lemma example_pool_reachable : pool_reachable example_pool.
Proof.
  eapply (reach_reserve _ (ipv4 192 168 0 0 24) (Some "first") true);
    [eapply (reach_new (net_str (ipv4 192 168 0 0 16))); vm_compute; reflexivity|vm_compute; reflexivity].
Qed.

(** Networks that are valid and inside another one, and resources, by computation. *)
Definition check_subnet (n s : IPNetwork) : bool :=
  bool_decide (ip_network (net_str s) = Ok s) && bool_decide (within s n) && bool_decide (prefixlen n < prefixlen s).
Lemma check_subnet_spec n s : check_subnet n s = true → valid s ∧ within s n ∧ prefixlen n < prefixlen s.
Proof.
  unfold check_subnet. rewrite !andb_true_iff, !bool_decide_eq_true. intros [[Hs%ip_network_ok ?] ?]. tauto.
Qed.

Definition check_resource (q : Z) (resource : ip_text * list IPNetwork) (n : IPNetwork) : bool :=
  bool_decide (ip_network resource.1 = Ok n) && bool_decide (prefixlen n < max_prefixlen (version n)) &&
  bool_decide (q ≤ max_prefixlen (version n)) && forallb (check_subnet n) resource.2 &&
  forallb (λ a, forallb (λ b, bool_decide (a = b) || negb (bool_decide (within a b)) && negb (bool_decide (within b a)))
    resource.2) resource.2.
Lemma check_resource_spec q resource n : check_resource q resource n = true → resource_ok q resource n.
Proof.
  unfold check_resource. rewrite !andb_true_iff, !bool_decide_eq_true. intros [[[[Hn Hm] Hq] Hs] Hap].
  rewrite !forallb_forall in *.
  assert (∀ s, s ∈ resource.2 → valid s ∧ within s n ∧ prefixlen n < prefixlen s) as Hsub.
  { intros s Hin. apply check_subnet_spec, Hs, list_elem_of_In, Hin. }
  split; try done. intros a b Ha Hb Hne. apply list_elem_of_In in Ha as Ha', Hb as Hb'. specialize (Hap a Ha').
  rewrite forallb_forall in Hap. specialize (Hap b Hb'). rewrite bool_decide_false in Hap by done. cbn in Hap.
  apply andb_true_iff in Hap as [H1 H2]. apply negb_true_iff, bool_decide_eq_false in H1, H2.
  apply not_within_apart; [by apply Hsub|by apply Hsub|done|done].
Qed.

Lemma pool_get_spec_witness :
  pool_reachable example_pool ∧
  match get example_pool 24 (Some "second") with
  | Ok (n, p') =>
      inside example_pool n ∧ prefixlen n = 24 ∧ (∀ r, reserved_in example_pool r → apart n r) ∧
      (∀ r, reserved_in p' r ↔ reserved_in example_pool r ∨ r = n) ∧
      ∀ id, truthy_id (Some "second") = Some id → get p' 24 (Some "second") = Ok (n, p')
  | Err e => e = IndexError ∧ ∀ n, inside example_pool n → prefixlen n = 24 →
      ¬ ∀ r, reserved_in example_pool r → apart n r
  end.
Proof.
  split; [apply example_pool_reachable|].
  apply (pool_get_spec example_pool 24 (Some "second")); [apply example_pool_reachable| |reflexivity].
  vm_compute. discriminate.
Defined.

Lemma pool_reserve_spec_witness :
  ∃ b p', reserve example_pool (net_str (ipv4 192 168 7 0 24)) (Some "second") = Ok (b, p') ∧
    (b = true ↔ reserved_in example_pool (ipv4 192 168 7 0 24) ∨
       ∀ r, reserved_in example_pool r → apart (ipv4 192 168 7 0 24) r) ∧
    ∀ r, reserved_in p' r ↔ reserved_in example_pool r ∨ (b = true ∧ r = ipv4 192 168 7 0 24).
Proof.
  apply (pool_reserve_spec example_pool (ipv4 192 168 7 0 24) (Some "second")).
  - apply example_pool_reachable.
  - apply (check_subnet_spec (network example_pool)). vm_compute. reflexivity.
  - split; [reflexivity|]. intros _ H. apply dict_mem_spec in H. vm_compute in H. discriminate H.
Defined.

Lemma get_next_spec_witness :
  let resources := [(net_str (ipv4 10 0 0 0 30), [ipv4 10 0 0 0 31; ipv4 10 0 0 2 31]); (net_str (ipv4 10 0 1 0 24), [])] in
  let nets := [ipv4 10 0 0 0 30; ipv4 10 0 1 0 24] in
  match get_next resources 31 with
  | Ok r => ∃ i resource n, resources !! i = Some resource ∧ nets !! i = Some n ∧ can_give 31 resource n r ∧
      ∀ j resource' n', (j < i)%nat → resources !! j = Some resource' → nets !! j = Some n' →
        ∀ r', ¬ can_give 31 resource' n' r'
  | Err e => e = IndexError ∧
      ∀ j resource n, resources !! j = Some resource → nets !! j = Some n → ∀ r, ¬ can_give 31 resource n r
  end.
Proof.
  intros resources nets. apply (get_next_spec 31 resources nets).
  constructor; [|constructor; [|constructor]]; apply check_resource_spec; vm_compute; reflexivity.
Defined.

(** A text of a network that is not in the spelling of [str] is never found available:
    a free subnet is refused, and the network that contains it is split all the same. *)
Theorem other_spelling_refused :
  let p := example_pool in
  let s := ipv4 192 168 128 0 20 in
  (∃ p', reserve p (net_str s) None = Ok (true, p')) ∧
  ∃ p', reserve p (NetText s (Some "192.168.128.0/255.255.240.0")) None = Ok (false, p') ∧
    available p 17 ≠ available p' 17.
Proof. split; eexists; [|split; [|]]; vm_compute; try reflexivity. discriminate. Qed.
