(* ===== verification/Ipam.v ===== *)
(** * IP address management

    The space and the utilization of prefixes ([backend/infrahub/core/ipam/size.py] and
    [utilization.py]), and the tree of the prefixes and addresses of a namespace:
    [core/ipam/reconciler.py] with the query [IPPrefixReconcileQuery] of
    [core/query/ipam.py].

    The query is modelled on the nodes of one namespace as a branch sees them at the time
    of the query; an IP value is an integer with its prefix length. *)

From stdpp Require Import prelude strings sorting.
From S2P Require Import Prelude PyString PyDict IpNetwork.

#[local] Open Scope Z_scope.

(** ** Space and utilization *)

Inductive PrefixMemberType := PREFIX | ADDRESS.
#[export] Instance PrefixMemberType_eq_dec : EqDecision PrefixMemberType.
Proof. solve_decision. Defined.

(** A node of the kind [BuiltinIPPrefix]. *)
Record PrefixNode := mkPrefixNode {
  pn_id : string;
  pn_prefix : IPNetwork;
  pn_member_type : PrefixMemberType;
  pn_is_pool : bool;
}.

Definition get_prefix_space (ip_prefix : PrefixNode) : Z :=
  let prefix_space := num_addresses (pn_prefix ip_prefix) in
  if bool_decide (pn_member_type ip_prefix = ADDRESS) && bool_decide (version (pn_prefix ip_prefix) = V4)
     && bool_decide (prefixlen (pn_prefix ip_prefix) < 31) && negb (pn_is_pool ip_prefix)
  then prefix_space - 2 else prefix_space.

Record PrefixChildDetails := mkPrefixChildDetails {
  child_type : PrefixMemberType;
  child_prefixlen : Z;
  child_ip_value : string;
}.

(** A row of [IPPrefixUtilization]; [urow_is_address]: the child has the label of the
    addresses. *)
Record UtilizationRow := mkUtilizationRow {
  urow_prefix_id : string;
  urow_branch : string;
  urow_is_address : bool;
  urow_prefixlen : Z;
  urow_value : string;
}.

Abbreviation ResultsByPrefix := (list (string * list (string * list PrefixChildDetails))).

(** [_run_and_parse_query] *)
Definition parse_row (results : ResultsByPrefix) (row : UtilizationRow) : ResultsByPrefix :=
  let by_branch := default [] (dict_get results (urow_prefix_id row)) in
  dict_set results (urow_prefix_id row)
    (dict_append by_branch (urow_branch row)
       (mkPrefixChildDetails (if urow_is_address row then ADDRESS else PREFIX) (urow_prefixlen row) (urow_value row))).
Definition _run_and_parse_query (rows : list UtilizationRow) : ResultsByPrefix := foldl parse_row [] rows.

Section utilization.
Context `{SetOrder}.
(** [_results_by_prefix_id], once [_fetch_data] has run, and [self.ip_prefixes]. *)
Context (results : ResultsByPrefix) (all_prefixes : list PrefixNode).

Definition children_of (prefix_member_type : option PrefixMemberType) (branch_names : option (list string))
    (prefix_id : string) : list PrefixChildDetails :=
  let by_branch := default [] (dict_get results prefix_id) in
  let names := match branch_names with Some (b :: l) => b :: l | _ => dict_keys by_branch end in
  b ← names;
  filter (λ c, match prefix_member_type with Some t => bool_decide (child_type c = t) | None => true end = true)
    (default [] (dict_get by_branch b)).

Definition get_children (ip_prefixes : option (list PrefixNode)) (prefix_member_type : option PrefixMemberType)
    (branch_names : option (list string)) : list PrefixChildDetails :=
  let prefix_ids := set_list (set_inter (py_set (pn_id <$> default all_prefixes ip_prefixes)) (dict_keys results)) in
  id ← prefix_ids; children_of prefix_member_type branch_names id.

Definition get_num_children_in_use (ip_prefixes : option (list PrefixNode))
    (prefix_member_type : option PrefixMemberType) (branch_names : option (list string)) : Z :=
  Z.of_nat (length (get_children ip_prefixes prefix_member_type branch_names)).

Definition sum_Z (l : list Z) : Z := foldl Z.add 0 l.

(** The children of a prefix, each counted with the size of its network. *)
Definition used_space (branch_names : option (list string)) (ip_prefix : PrefixNode) : Z :=
  sum_Z ((λ c, 2 ^ (max_prefixlen (version (pn_prefix ip_prefix)) - child_prefixlen c)) <$>
    get_children (Some [ip_prefix]) (Some PREFIX) branch_names).

Definition _get_prefix_use_fraction (ip_prefixes : option (list PrefixNode)) (branch_names : option (list string)) : Z * Z :=
  let ip_prefixes := default all_prefixes ip_prefixes in
  (sum_Z (used_space branch_names <$> ip_prefixes), sum_Z (get_prefix_space <$> ip_prefixes)).

Definition _get_address_use_fraction (ip_prefixes : option (list PrefixNode)) (branch_names : option (list string)) : Z * Z :=
  let ip_prefixes := default all_prefixes ip_prefixes in
  (get_num_children_in_use (Some ip_prefixes) (Some ADDRESS) branch_names, sum_Z (get_prefix_space <$> ip_prefixes)).

(** The fraction whose percentage is returned; the division itself is on floats. *)
Definition get_use_percentage (ip_prefixes : option (list PrefixNode)) (branch_names : option (list string)) :
    result (Z * Z) :=
  let ip_prefixes := default all_prefixes ip_prefixes in
  let address_prefixes := filter (λ p, pn_member_type p = ADDRESS) ip_prefixes in
  let prefix_prefixes := filter (λ p, pn_member_type p ≠ ADDRESS) ip_prefixes in
  let '(address_used, address_space) :=
    match address_prefixes with [] => (0, 0) | _ => _get_address_use_fraction (Some address_prefixes) branch_names end in
  let '(prefix_used, prefix_space) :=
    match prefix_prefixes with [] => (0, 0) | _ => _get_prefix_use_fraction (Some prefix_prefixes) branch_names end in
  let total := (address_used + prefix_used, address_space + prefix_space) in
  if decide (total.2 = 0) then Err ZeroDivisionError else Ok total.
End utilization.

(** ** The tree of a namespace *)

(** A value: an address with its prefix length, or a network. *)
Record IpValue := mkIpValue {
  iv_is_address : bool;
  iv_version : IPVersion;
  iv_int : Z;
  iv_prefixlen : Z;
}.
#[export] Instance IpValue_eq_dec : EqDecision IpValue.
Proof. solve_decision. Defined.

(** [convert_ip_to_binary_str] of [core/utils.py]: the digits, filled with zeros. *)
Definition convert_ip_to_binary_str (v : IpValue) : list bool :=
  let w := Z.to_nat (max_prefixlen (iv_version v)) in
  (λ i, Z.testbit (iv_int v) (Z.of_nat (w - 1 - i))) <$> seq 0 w.

(** [s.ljust(w, "0")] *)
Definition ljust_zeros (s : list bool) (w : Z) : list bool := s ++ replicate (Z.to_nat w - length s) false.

(** The nodes of the namespace, the parent of the nodes that have one (the relationship
    [parent] of a prefix, [ip_prefix] of an address), and [is_top_level] of the prefixes. *)
Record Ipam := mkIpam {
  ip_nodes : list (string * IpValue);
  ip_parent : list (string * string);
  is_top_level : list (string * bool);
}.
#[export] Instance Ipam_rebuild : Rebuild Ipam := λ s, mkIpam (ip_nodes s) (ip_parent s) (is_top_level s).

(** *** [IPPrefixReconcileQuery] *)

Section query.
Context (s : Ipam) (ip_value : IpValue).

Definition prefix_binary_host : list bool :=
  take (Z.to_nat (iv_prefixlen ip_value)) (convert_ip_to_binary_str ip_value).

(** [possible_prefix_and_length_list]: the longest length of each possible prefix. *)
Definition possible_prefix (max_prefix_len : Z) : list bool :=
  ljust_zeros (take (Z.to_nat max_prefix_len) prefix_binary_host) (max_prefixlen (iv_version ip_value)).
Definition possible_prefix_and_length_list : list (list bool * Z) :=
  let start_prefixlen := if iv_is_address ip_value then iv_prefixlen ip_value else iv_prefixlen ip_value - 1 in
  foldl (λ m max_prefix_len,
      if dict_mem m (possible_prefix max_prefix_len) then m else dict_set m (possible_prefix max_prefix_len) max_prefix_len)
    [] (reverse (seqZ 1 start_prefixlen)).

(** The node with the uuid, or else the node of the same kind with the value. *)
Definition get_ip_node_uuid (node_uuid : option string) : option string :=
  match node_uuid with
  | Some (String c u) => if dict_mem (ip_nodes s) (String c u) then Some (String c u) else None
  | _ => head (fst <$> filter (λ n, iv_is_address n.2 = iv_is_address ip_value ∧ iv_version n.2 = iv_version ip_value
                ∧ iv_prefixlen n.2 = iv_prefixlen ip_value
                ∧ convert_ip_to_binary_str n.2 = convert_ip_to_binary_str ip_value) (ip_nodes s))
  end.

(** The relationship of an address to its prefix has another name. *)
Definition get_current_parent_uuid (uuid : string) : option string :=
  n ← dict_get (ip_nodes s) uuid;
  if (iv_is_address n : bool) then None else dict_get (ip_parent s) uuid.
Definition get_current_children_uuids (uuid : string) : list string :=
  fst <$> filter (λ cp, cp.2 = uuid ∧ cp.1 ∈ dict_keys (ip_nodes s)) (ip_parent s).

Definition maybe_new_parent (n : string * IpValue) : bool :=
  negb (iv_is_address n.2) && bool_decide (iv_version n.2 = iv_version ip_value) &&
  existsb (λ pl, bool_decide (convert_ip_to_binary_str n.2 = pl.1) && bool_decide (iv_prefixlen n.2 ≤ pl.2))
    possible_prefix_and_length_list.
(** [ORDER BY prefixlen DESC], then the first. *)
Definition get_calculated_parent_uuid : option string :=
  head (fst <$> py_sorted_by (λ n, - iv_prefixlen n.2) (filter (λ n, maybe_new_parent n = true) (ip_nodes s))).

Definition starts_with (l p : list bool) : bool := bool_decide (take (length p) l = p).

Definition maybe_new_child (ip_node : string) (n : string * IpValue) : bool :=
  negb (iv_is_address ip_value) && negb (bool_decide (n.1 = ip_node)) &&
  (if iv_is_address n.2 then bool_decide (iv_prefixlen ip_value ≤ iv_prefixlen n.2)
   else bool_decide (iv_prefixlen ip_value < iv_prefixlen n.2)) &&
  bool_decide (iv_version n.2 = iv_version ip_value) &&
  starts_with (convert_ip_to_binary_str n.2) prefix_binary_host.

(** The body of [REDUCE]: [potential_parent] is a more specific parent of [n]. *)
Definition more_specific_parent (n potential_parent : string * IpValue) : bool :=
  negb (bool_decide (potential_parent.1 = n.1)) && negb (iv_is_address potential_parent.2) &&
  negb (negb (iv_is_address n.2) && bool_decide (iv_prefixlen n.2 ≤ iv_prefixlen potential_parent.2)) &&
  negb (iv_is_address n.2 && bool_decide (iv_prefixlen n.2 < iv_prefixlen potential_parent.2)) &&
  starts_with (convert_ip_to_binary_str n.2)
    (take (Z.to_nat (iv_prefixlen potential_parent.2)) (convert_ip_to_binary_str potential_parent.2)).

Definition get_calculated_children_uuids (ip_node : string) : list string :=
  let maybe_children := filter (λ n, maybe_new_child ip_node n = true) (ip_nodes s) in
  fst <$> filter (λ n, existsb (more_specific_parent n) maybe_children = false) maybe_children.
End query.

(** *** [IpamReconciler] *)

Definition _update_node_parent (uuid : string) (new_parent_uuid : option string) (s : Ipam) : Ipam :=
  match dict_get (ip_nodes s) uuid with
  | None => s
  | Some v =>
      let s := s <| ip_parent := match new_parent_uuid with
                                 | Some p => dict_set (ip_parent s) uuid p
                                 | None => dict_del (ip_parent s) uuid
                                 end |> in
      if iv_is_address v then s
      else s <| is_top_level := dict_set (is_top_level s) uuid (negb (opt_is_some new_parent_uuid)) |>
  end.

(** [IPNodesToReconcile] *)
Record IPNodesToReconcile := mkReconcile {
  node_uuid : string;
  current_parent_uuid : option string;
  calculated_parent_uuid : option string;
  current_child_uuids : list string;
  calculated_child_uuids : list string;
}.

Definition update_node (r : IPNodesToReconcile) (s : Ipam) : Ipam :=
  _update_node_parent (node_uuid r) (calculated_parent_uuid r) s.
Definition update_current_children (r : IPNodesToReconcile) (s : Ipam) : Ipam :=
  foldl (λ s child, _update_node_parent child (current_parent_uuid r) s) s
    (filter (.∉ calculated_child_uuids r) (current_child_uuids r)).
Definition update_calculated_children (r : IPNodesToReconcile) (s : Ipam) : Ipam :=
  foldl (λ s child, _update_node_parent child (Some (node_uuid r)) s) s
    (filter (.∉ current_child_uuids r) (calculated_child_uuids r)).
Definition update_children_for_delete (r : IPNodesToReconcile) (s : Ipam) : Ipam :=
  foldl (λ s child, _update_node_parent child (current_parent_uuid r) s) s (current_child_uuids r).

(** [node.delete]: the node and its relationships. *)
Definition delete_node (uuid : string) (s : Ipam) : Ipam :=
  mkIpam (dict_del (ip_nodes s) uuid)
    (filter (λ cp, cp.1 ≠ uuid ∧ cp.2 ≠ uuid) (ip_parent s)) (dict_del (is_top_level s) uuid).

Definition nodes_to_reconcile (s : Ipam) (ip_value : IpValue) (uuid : string) : IPNodesToReconcile :=
  mkReconcile uuid (get_current_parent_uuid s uuid) (get_calculated_parent_uuid s ip_value)
    (get_current_children_uuids s uuid) (get_calculated_children_uuids s ip_value uuid).

Definition reconcile (ip_value : IpValue) (uuid : option string) (is_delete : bool) (s : Ipam) : result Ipam :=
  node ← require (NodeNotFoundError "") (get_ip_node_uuid s ip_value uuid);
  let r := nodes_to_reconcile s ip_value node in
  Ok (if is_delete then delete_node node (update_children_for_delete r s)
      else update_calculated_children r (update_current_children r (update_node r s))).

(** *** Operations on the namespace *)

(** A node is saved with its value, then reconciled, as the mutations of
    [graphql/mutations/ipam.py] do. *)
Definition save_value (uuid : string) (v : IpValue) (s : Ipam) : Ipam :=
  s <| ip_nodes := dict_set (ip_nodes s) uuid v |>.
Definition mutate_create (uuid : string) (v : IpValue) (s : Ipam) : result Ipam :=
  reconcile v (Some uuid) false (save_value uuid v s).
Definition mutate_update (uuid : string) (v : IpValue) (s : Ipam) : result Ipam :=
  reconcile v (Some uuid) false (save_value uuid v s).
Definition mutate_delete (uuid : string) (s : Ipam) : result Ipam :=
  v ← require (NodeNotFoundError uuid) (dict_get (ip_nodes s) uuid);
  if (iv_is_address v : bool) then Ok (delete_node uuid s) else reconcile v (Some uuid) true s.

(** ** Containment *)

Abbreviation bits := convert_ip_to_binary_str.
Definition len (v : IpValue) : nat := Z.to_nat (iv_prefixlen v).

(** The network [p] contains [c] properly; an address may have the length of its network. *)
Record contains (p c : IpValue) : Prop := {
  contains_prefix : iv_is_address p = false;
  contains_version : iv_version p = iv_version c;
  contains_length : if iv_is_address c then iv_prefixlen p ≤ iv_prefixlen c else iv_prefixlen p < iv_prefixlen c;
  contains_bits : take (len p) (bits p) = take (len p) (bits c);
}.

(** The lengths that exist; the host bits of a network are zero. *)
Record valid_value (v : IpValue) : Prop := {
  value_length : 0 ≤ iv_prefixlen v ≤ max_prefixlen (iv_version v);
  value_host : iv_is_address v = false → drop (len v) (bits v) = replicate (length (bits v) - len v) false;
}.

Lemma length_bits v : length (bits v) = Z.to_nat (max_prefixlen (iv_version v)).
Proof. unfold convert_ip_to_binary_str. by rewrite length_fmap, length_seq. Qed.

Lemma take_agree {A} n m (a b : list A) : (n ≤ m)%nat → take m a = take m b → take n a = take n b.
Proof. intros Hle Heq. rewrite <-(Nat.min_l n m), <-!take_take, Heq by lia. done. Qed.

Lemma contains_trans p q x : contains p q → contains q x → contains p x.
Proof.
  intros [Hp Hv Hl Hb] [Hq Hv' Hl' Hb']. rewrite Hq in Hl. split; [done|congruence|destruct (iv_is_address x); lia|].
  rewrite Hb. apply take_agree with (len q); [unfold len; lia|done].
Qed.

(** Two networks that contain the same value are nested. *)
Lemma contains_chain p q x : contains p x → contains q x → iv_prefixlen p < iv_prefixlen q → contains p q.
Proof.
  intros [Hp Hv Hl Hb] [Hq Hv' Hl' Hb'] Hlt. split; [done|congruence|by rewrite Hq|].
  rewrite Hb. symmetry. apply take_agree with (len q); [unfold len; lia|done].
Qed.

Lemma contains_irrefl v : ¬ contains v v.
Proof. intros [Hp _ Hl _]. rewrite Hp in Hl. lia. Qed.

(** ** Parents *)

(** The nodes by uuid, as a function. *)
Abbreviation Nodes := (string → option IpValue).

Definition without (N : Nodes) (n : string) : Nodes := λ u, if decide (u = n) then None else N u.

(** Different prefixes have different values. *)
Definition distinct (N : Nodes) : Prop := ∀ p q vp vq, N p = Some vp → N q = Some vq →
  iv_is_address vp = false → iv_is_address vq = false → iv_version vp = iv_version vq →
  iv_prefixlen vp = iv_prefixlen vq → take (len vp) (bits vp) = take (len vp) (bits vq) → p = q.

(** [p] is the most specific network that contains [x]. *)
Definition immediate (N : Nodes) (x : IpValue) (p : string) : Prop :=
  ∃ vp, N p = Some vp ∧ contains vp x ∧ ∀ q vq, N q = Some vq → contains vq x → iv_prefixlen vq ≤ iv_prefixlen vp.
Definition parent_of (N : Nodes) (x : IpValue) (o : option string) : Prop :=
  match o with
  | Some p => immediate N x p
  | None => ∀ q vq, N q = Some vq → ¬ contains vq x
  end.

Section parents.
Context (N : Nodes) (Hdistinct : distinct N).

Lemma same_length_same x p q vp vq : N p = Some vp → N q = Some vq → contains vp x → contains vq x →
  iv_prefixlen vp = iv_prefixlen vq → p = q.
Proof.
  intros Hp Hq [Ap Vp _ Bp] [Aq Vq _ Bq] Hl. apply (Hdistinct p q vp vq); try done; [congruence|].
  rewrite Bp. unfold len in *. rewrite Hl. by rewrite Bq.
Qed.

(** Without a node that is not the parent, the parent is the same. *)
Lemma parent_without_other n x o : parent_of N x o → o ≠ Some n → parent_of (without N n) x o.
Proof.
  assert (∀ q vq, without N n q = Some vq → N q = Some vq) as Hwo by (intros q vq; unfold without; by case_decide).
  destruct o as [p|]; cbn; [|intros H _ q vq Hq; by eapply H, Hwo].
  intros (vp & Hp & Hc & Hmax) Hne. exists vp. split; [unfold without; rewrite decide_False by congruence; done|].
  split; [done|]. intros q vq Hq. by eapply Hmax, Hwo.
Qed.

(** Without the parent, the parent is the parent of the parent. *)
Lemma parent_without_parent n w x o : N n = Some w → immediate N x n → parent_of (without N n) w o →
  parent_of (without N n) x o.
Proof.
  intros Hn (w' & Hw' & Hwx & Hmax) Ho. rewrite Hn in Hw'. injection Hw' as <-.
  assert (∀ q vq, without N n q = Some vq → contains vq x → contains vq w) as Hup.
  { intros q vq Hq Hqx. unfold without in Hq. case_decide as Hne; [done|].
    apply contains_chain with x; [done..|]. pose proof (Hmax q vq Hq Hqx).
    destruct (decide (iv_prefixlen vq = iv_prefixlen w)) as [Heq|]; [|lia].
    exfalso. apply Hne. by apply (same_length_same x q n vq w). }
  destruct o as [p|]; cbn in *.
  - destruct Ho as (vp & Hp & Hpw & Hpmax). exists vp. split; [done|]. split; [by eapply contains_trans|].
    intros q vq Hq Hqx. eapply Hpmax; [done|]. by apply (Hup q).
  - intros q vq Hq Hqx. eapply Ho; [done|]. by apply (Hup q).
Qed.

(** A node that does not become the parent changes nothing. *)
Lemma parent_with_other n x o : parent_of (without N n) x o → ¬ immediate N x n → parent_of N x o.
Proof.
  intros Ho Hn. assert (∀ q vq, N q = Some vq → q = n ∨ without N n q = Some vq) as Hcases.
  { intros q vq Hq. unfold without. case_decide; auto. }
  assert (∀ q vq, without N n q = Some vq → N q = Some vq) as Hwo by (intros q vq; unfold without; by case_decide).
  destruct o as [p|]; cbn in *.
  - destruct Ho as (vp & Hp & Hpx & Hmax). exists vp. split; [by apply Hwo|]. split; [done|].
    intros q vq Hq Hqx. destruct (Hcases q vq Hq) as [->|Hq']; [|by eapply Hmax].
    destruct (Z.le_gt_cases (iv_prefixlen vq) (iv_prefixlen vp)) as [|Hgt]; [done|]. exfalso. apply Hn.
    exists vq. split; [done|]. split; [done|]. intros r vr Hr Hrx.
    destruct (Hcases r vr Hr) as [->|Hr']; [by replace vr with vq by congruence|].
    pose proof (Hmax r vr Hr' Hrx). lia.
  - intros q vq Hq Hqx. destruct (Hcases q vq Hq) as [->|Hq']; [|by eapply Ho].
    apply Hn. exists vq. split; [done|]. split; [done|]. intros r vr Hr Hrx.
    destruct (Hcases r vr Hr) as [->|Hr']; [by replace vr with vq by congruence|]. exfalso. by eapply Ho.
Qed.
End parents.

(** ** The tree of a namespace *)

Definition nodes_of (s : Ipam) : Nodes := dict_get (ip_nodes s).

(** The nodes of a namespace: valid values, prefixes of a positive length, all different. *)
Record nodes_ok (s : Ipam) : Prop := {
  nodes_NoDup : NoDup (dict_keys (ip_nodes s));
  nodes_valid u v : nodes_of s u = Some v → valid_value v ∧ (iv_is_address v = false → 1 ≤ iv_prefixlen v);
  nodes_distinct : distinct (nodes_of s);
}.

(** *** The query finds the parent and the children *)

Lemma take_bits_length v : valid_value v → length (take (len v) (bits v)) = len v.
Proof. intros [Hl _]. rewrite length_take, length_bits. unfold len. destruct (iv_version v); cbn in *; lia. Qed.

(** A map that keeps the first value of each key, the values given in descending order. *)
Lemma first_values {K} `{EqDecision K} (f : Z → K) l : StronglySorted (λ a b, b ≤ a) l → ∀ acc,
  (∀ k a, dict_get acc k = Some a → ∀ b, b ∈ l → b ≤ a) →
  let res := foldl (λ m a, if dict_mem m (f a) then m else dict_set m (f a) a) acc l in
  (NoDup (dict_keys acc) → NoDup (dict_keys res)) ∧
  (∀ k a, dict_get acc k = Some a → dict_get res k = Some a) ∧
  (∀ k a, dict_get res k = Some a → dict_get acc k = Some a ∨ a ∈ l ∧ k = f a) ∧
  (∀ a, a ∈ l → ∃ b, dict_get res (f a) = Some b ∧ a ≤ b).
Proof.
  induction 1 as [|a l Hsorted IH Hle]; intros acc Hacc; cbn.
  { do 2 (split; [done|]). split; [by left|]. intros a Ha. by apply elem_of_nil in Ha. }
  rewrite Forall_forall in Hle.
  set (acc' := if dict_mem acc (f a) then acc else dict_set acc (f a) a).
  assert (∀ k b, dict_get acc' k = Some b → dict_get acc k = Some b ∨ b = a ∧ k = f a) as Hacc'.
  { intros k b. unfold acc'. destruct (dict_mem acc (f a)); [by left|]. rewrite dict_get_set. case_decide; [|by left].
    intros [= <-]. by right. }
  destruct (IH acc') as (Hnodup & Hkeep & Hfrom & Hall).
  { intros k b Hb c Hc. destruct (Hacc' k b Hb) as [Hb' |[-> _]]; [|by apply Hle]. eapply Hacc; [done|by right]. }
  assert (∃ b, dict_get acc' (f a) = Some b ∧ a ≤ b) as (b & Hb & Hab).
  { unfold acc'. unfold dict_mem. destruct (dict_get acc (f a)) as [b|] eqn:Hb; cbn.
    - exists b. split; [done|]. eapply Hacc; [done|]. by left.
    - exists a. split; [apply dict_get_set_eq|lia]. }
  split; [|split; [|split]].
  - intros Hn. apply Hnodup. unfold acc'. destruct (dict_mem acc (f a)); [done|]. by apply NoDup_dict_set.
  - intros k c Hc. apply Hkeep. unfold acc'. destruct (dict_mem acc (f a)) eqn:Hmem; [done|].
    rewrite dict_get_set. case_decide; [|done]. subst k. unfold dict_mem in Hmem. by rewrite Hc in Hmem.
  - intros k c Hc. destruct (Hfrom k c Hc) as [Hc' |[Hc' ->]]; [|right; split; [by right|done]].
    destruct (Hacc' k c Hc') as [|[-> ->]]; [by left|right]. split; [by left|done].
  - intros c [->|Hc]%elem_of_cons; [|by apply Hall]. exists b. split; [|done]. by apply Hkeep.
Qed.

Lemma descending n : StronglySorted (λ a b, b ≤ a) (reverse (seqZ 1 n)).
Proof.
  destruct (Z.le_gt_cases 0 n) as [Hn|Hn]; [|rewrite seqZ_nil by lia; constructor].
  rewrite <-(Z2Nat.id n) by done. induction (Z.to_nat n) as [|k IH]; [constructor|].
  replace (Z.of_nat (S k)) with (Z.of_nat k + 1) by lia. rewrite seqZ_app by lia. rewrite reverse_app. cbn.
  constructor; [done|]. apply Forall_forall. intros x Hx%elem_of_reverse%elem_of_seqZ. lia.
Qed.

Lemma ljust_network v m : valid_value v → iv_is_address v = false → m = max_prefixlen (iv_version v) →
  ljust_zeros (take (len v) (bits v)) m = bits v.
Proof.
  intros Hv Hp ->. unfold ljust_zeros. rewrite take_bits_length by done. rewrite <-length_bits.
  by rewrite <-(value_host v Hv Hp), take_drop.
Qed.

Section calculated.
Context (s : Ipam) (v : IpValue) (Hs : nodes_ok s) (Hv : valid_value v).

(** The search by [binary_address] and [prefixlen] finds the networks that contain the value. *)
Lemma maybe_new_parent_spec n x : nodes_of s n = Some x → maybe_new_parent v (n, x) = true ↔ contains x v.
Proof.
  intros Hx. destruct (nodes_valid s Hs n x Hx) as [Hvx Hpos].
  pose proof (value_length x Hvx) as Hlx. pose proof (value_length v Hv) as Hlv.
  set (start := if iv_is_address v then iv_prefixlen v else iv_prefixlen v - 1).
  destruct (first_values (possible_prefix v) _ (descending start) []) as (Hnodup & _ & Hfrom & Hall); [done|].
  change (foldl _ _ _) with (possible_prefix_and_length_list v) in Hnodup, Hfrom, Hall.
  assert (iv_version x = iv_version v → ∀ m, iv_prefixlen x ≤ m ≤ iv_prefixlen v →
    take (len x) (possible_prefix v m) = take (len x) (bits v)) as Htake.
  { intros Hver m Hm. unfold possible_prefix, ljust_zeros, prefix_binary_host. rewrite take_take.
    rewrite take_app_le; [|rewrite length_take, length_bits; unfold len; rewrite Hver in *; lia].
    rewrite take_take. f_equal. unfold len. lia. }
  unfold maybe_new_parent. cbn. rewrite !andb_true_iff, negb_true_iff, bool_decide_eq_true, existsb_exists.
  split.
  - intros [[Hp Hver] ((k & m) & Hin & [Hk%bool_decide_eq_true Hm%bool_decide_eq_true]%andb_prop)]. cbn in *. subst k.
    apply list_elem_of_In, (dict_get_in _ _ _ (Hnodup NoDup_nil_2)) in Hin.
    destruct (Hfrom _ _ Hin) as [|[Hrange Hbits]]; [done|]. apply elem_of_reverse, elem_of_seqZ in Hrange.
    split; [done..| |].
    + unfold start in *. destruct (iv_is_address v); lia.
    + rewrite Hbits at 1. apply Htake; [done|]. unfold start in *. destruct (iv_is_address v); lia.
  - intros [Hp Hver Hl Hb]. split; [done|]. specialize (Hpos Hp).
    destruct (Hall (iv_prefixlen x)) as (m & Hget & Hm).
    { apply elem_of_reverse, elem_of_seqZ. unfold start. destruct (iv_is_address v); lia. }
    exists (possible_prefix v (iv_prefixlen x), m). split; [by apply list_elem_of_In, dict_get_Some_in|].
    apply andb_true_intro. rewrite !bool_decide_eq_true. split; [|done]. cbn.
    rewrite <-(ljust_network x _ Hvx Hp eq_refl). unfold possible_prefix, prefix_binary_host.
    rewrite take_take, Hver, Hb, Nat.min_l; [done|]. destruct (iv_is_address v); lia.
Qed.

Lemma calculated_parent : parent_of (nodes_of s) v (get_calculated_parent_uuid s v).
Proof.
  unfold get_calculated_parent_uuid. set (l := filter _ _).
  assert (∀ p, p ∈ l ↔ nodes_of s p.1 = Some p.2 ∧ contains p.2 v) as Hl.
  { intros [n x]. unfold l. rewrite list_elem_of_filter. cbn. split.
    - intros [Hm Hin]. apply (dict_get_in _ _ _ (nodes_NoDup s Hs)) in Hin. split; [done|]. by eapply maybe_new_parent_spec.
    - intros [Hx Hc]. split; [by eapply maybe_new_parent_spec|]. by apply dict_get_Some_in. }
  pose proof (py_sorted_by_sorted (λ n : string * IpValue, - iv_prefixlen n.2) l) as Hsorted.
  pose proof (py_sorted_by_perm (λ n : string * IpValue, - iv_prefixlen n.2) l) as Hperm.
  destruct (py_sorted_by _ l) as [|[p vp] rest]; cbn.
  - intros q vq Hq Hc. assert ((q, vq) ∈ l) as Hin by by apply Hl. rewrite <-Hperm in Hin. by apply elem_of_nil in Hin.
  - assert ((p, vp) ∈ l) as Hin by (rewrite <-Hperm; by left). apply Hl in Hin as [Hp Hc]. exists vp. split; [done|].
    split; [done|]. intros q vq Hq Hqv. assert ((q, vq) ∈ l) as Hin by by apply Hl. rewrite <-Hperm in Hin.
    apply elem_of_cons in Hin as [[= -> ->]|Hin]; [lia|]. apply StronglySorted_inv in Hsorted as [_ Hle].
    rewrite Forall_forall in Hle. specialize (Hle _ Hin). unfold key_le in Hle. cbn in Hle. lia.
Qed.

Lemma starts_with_spec l (w : IpValue) : valid_value w →
  starts_with l (take (len w) (bits w)) = true ↔ take (len w) (bits w) = take (len w) l.
Proof. intros Hw. unfold starts_with. rewrite bool_decide_eq_true, take_bits_length by done. done. Qed.

(** The children: the nodes whose most specific network is the value. *)
Lemma calculated_children n u : nodes_of s n = Some v →
  u ∈ get_calculated_children_uuids s v n ↔ ∃ x, nodes_of s u = Some x ∧ immediate (nodes_of s) x n.
Proof.
  intros Hn. assert (∀ c, c ∈ ip_nodes s ↔ nodes_of s c.1 = Some c.2) as Hin.
  { intros [c x]. split; [apply dict_get_in, Hs|apply dict_get_Some_in]. }
  assert (∀ c x, nodes_of s c = Some x → maybe_new_child v n (c, x) = true ↔ contains v x) as Hmaybe.
  { intros c x Hx. unfold maybe_new_child. cbn. unfold prefix_binary_host. fold (len v).
    rewrite !andb_true_iff, !negb_true_iff, bool_decide_eq_true, bool_decide_eq_false, starts_with_spec by done. split.
    - intros [[[[Hp _] Hlen] Hver] Hb]. split; [done..| |done].
      destruct (iv_is_address x); by apply bool_decide_eq_true in Hlen.
    - intros Hc. pose proof Hc as [Hp Hver Hlen Hb]. split_and!; [done| | |done..].
      + intros ->. rewrite Hn in Hx. injection Hx as <-. by apply contains_irrefl in Hc.
      + destruct (iv_is_address x); by apply bool_decide_eq_true. }
  assert (∀ c x q w, nodes_of s c = Some x → nodes_of s q = Some w → iv_version w = iv_version x →
    more_specific_parent (c, x) (q, w) = true ↔ contains w x) as Hmore.
  { intros c x q w Hx Hw Hver. unfold more_specific_parent. cbn. fold (len w).
    rewrite !andb_true_iff, !negb_true_iff, starts_with_spec by (by eapply nodes_valid).
    rewrite bool_decide_eq_false, !andb_false_iff, negb_false_iff, !bool_decide_eq_false. split.
    - intros [[[[_ Hp] Hpl] Hal] Hb]. split; [done..| |done]. destruct (iv_is_address x); naive_solver lia.
    - intros Hc. pose proof Hc as [Hp _ Hlen Hb]. split_and!; [|done| | |done].
      + intros ->. rewrite Hx in Hw. injection Hw as <-. by apply contains_irrefl in Hc.
      + destruct (iv_is_address x); [by left|right; lia].
      + destruct (iv_is_address x); [right; lia|by left]. }
  unfold get_calculated_children_uuids. set (maybe := filter _ (ip_nodes s)).
  assert (∀ q w, (q, w) ∈ maybe ↔ nodes_of s q = Some w ∧ contains v w) as Hmay.
  { intros q w. unfold maybe. rewrite list_elem_of_filter, Hin. cbn. split; intros [H1 H2]; split; try done; by eapply Hmaybe. }
  assert (∀ c x, (c, x) ∈ maybe → existsb (more_specific_parent (c, x)) maybe = false ↔ immediate (nodes_of s) x n) as Hmost.
  { intros c x [Hx Hc]%Hmay. rewrite <-not_true_iff_false, existsb_exists. split.
    - intros Hno. exists v. split; [done|]. split; [done|]. intros q w Hw Hwx.
      destruct (Z.le_gt_cases (iv_prefixlen w) (iv_prefixlen v)) as [|Hgt]; [done|]. exfalso. apply Hno.
      exists (q, w). rewrite <-list_elem_of_In, Hmay. pose proof (contains_chain v w x Hc Hwx ltac:(lia)).
      split; [done|]. apply Hmore; [done..|by apply Hwx|done].
    - intros (v' & Hv' & _ & Hmax) ([q w] & Hw%list_elem_of_In%Hmay & Hm). destruct Hw as [Hw [Hp Hver Hl Hb]].
      apply Hmore in Hm; [|done..|by rewrite <-Hver; apply Hc]. rewrite Hn in Hv'. injection Hv' as <-.
      pose proof (Hmax q w Hw Hm). rewrite (contains_prefix _ _ Hm) in Hl. lia. }
  rewrite list_elem_of_fmap. split.
  - intros ([c x] & -> & [He Hc]%list_elem_of_filter). exists x. split; [by apply Hmay in Hc as []|by eapply Hmost].
  - intros (x & Hx & Hi). exists (u, x). split; [done|].
    assert ((u, x) ∈ maybe) by (apply Hmay; split; [done|]; destruct Hi as (v' & Hv' & Hc & _); by replace v with v' by congruence).
    apply list_elem_of_filter. split; [by eapply Hmost|done].
Qed.
End calculated.

(** *** The reconciliation *)

(** The relationships and the flags are those of nodes of the namespace. *)
Record links_ok (s : Ipam) : Prop := {
  links_NoDup : NoDup (dict_keys (ip_parent s));
  links_keys u : u ∈ dict_keys (ip_parent s) → is_Some (nodes_of s u);
}.

Definition top_ok (s : Ipam) (u : string) : Prop := ∀ v, nodes_of s u = Some v → iv_is_address v = false →
  dict_get (is_top_level s) u = Some (negb (opt_is_some (dict_get (ip_parent s) u))).

(** What an update of parents keeps, and the parents after it. *)
Record updates (s s' : Ipam) (l : list string) (o : option string) : Prop := {
  updates_nodes : ip_nodes s' = ip_nodes s;
  updates_links : links_ok s → links_ok s';
  updates_in u : u ∈ l → is_Some (nodes_of s u) → dict_get (ip_parent s') u = o ∧ top_ok s' u;
  updates_out u : u ∉ l → dict_get (ip_parent s') u = dict_get (ip_parent s) u;
  updates_top u : top_ok s u → top_ok s' u;
}.

Lemma update_node_parent_updates u o s : updates s (_update_node_parent u o s) [u] o.
Proof.
  unfold _update_node_parent. destruct (dict_get (ip_nodes s) u) as [v|] eqn:Hv.
  2:{ split; try done. intros w ->%list_elem_of_singleton [x Hx]. unfold nodes_of in Hx. congruence. }
  set (parents := match o with Some _ => _ | None => _ end).
  assert (∀ w, dict_get parents w = if decide (w = u) then o else dict_get (ip_parent s) w) as Hpar.
  { intros w. unfold parents. destruct o; [rewrite dict_get_set|rewrite dict_get_del]; repeat case_decide; congruence. }
  set (tops := dict_set (is_top_level s) u (negb (opt_is_some o))).
  set (s' := if iv_is_address v then _ else _).
  assert (ip_nodes s' = ip_nodes s ∧ ip_parent s' = parents) as [Hnodes Hparent] by by unfold s'; destruct (iv_is_address v).
  assert (top_ok s' u) as Htop.
  { intros x Hx Hp. unfold nodes_of in Hx. rewrite Hnodes, Hv in Hx. injection Hx as <-. rewrite Hparent, Hpar, decide_True by done.
    unfold s'. rewrite Hp. cbn. apply dict_get_set_eq. }
  split; [done| | | |].
  - intros [Hn Hk]. split; rewrite Hparent; unfold parents.
    + destruct o; [by apply NoDup_dict_set|by apply NoDup_dict_del].
    + unfold nodes_of. rewrite Hnodes. intros w Hw. destruct (decide (w = u)) as [->|Hne]; [by rewrite Hv|].
      apply Hk. apply dict_get_is_Some. apply dict_get_is_Some in Hw. fold parents in Hw. rewrite Hpar in Hw.
      by rewrite decide_False in Hw.
  - intros w ->%list_elem_of_singleton _. rewrite Hparent, Hpar, decide_True by done. done.
  - intros w Hw. rewrite Hparent, Hpar, decide_False; [done|]. by intros ->; apply Hw; left.
  - intros w Hw. destruct (decide (w = u)) as [->|Hne]; [done|]. intros x Hx Hp. unfold nodes_of in Hx. rewrite Hnodes in Hx.
    rewrite Hparent, Hpar, decide_False by done. rewrite <-(Hw x Hx Hp). unfold s'. destruct (iv_is_address v); [done|].
    cbn. by rewrite dict_get_set, decide_False.
Qed.

Lemma foldl_update_parents l o s : updates s (foldl (λ s child, _update_node_parent child o s) s l) l o.
Proof.
  revert s. induction l as [|c l IH]; intros s; cbn; [split; try done; by intros ? ?%elem_of_nil|].
  destruct (update_node_parent_updates c o s) as [Hn Hl Hi Ho Ht]. set (s1 := _update_node_parent c o s) in *.
  destruct (IH s1) as [Hn' Hl' Hi' Ho' Ht']. unfold nodes_of in *. split.
  - congruence.
  - auto.
  - intros u Hu Hnode. destruct (decide (u ∈ l)) as [Hin|Hout]; [apply Hi'; [done|by rewrite Hn]|].
    apply elem_of_cons in Hu as [->|]; [|done]. destruct (Hi c ltac:(by left) Hnode) as [Hpar Htop].
    rewrite Ho' by done. auto.
  - intros u [Hne Hu]%not_elem_of_cons. rewrite Ho' by done. apply Ho. by intros ->%list_elem_of_singleton.
  - auto.
Qed.

(** Every node is under the most specific prefix that contains it, and the prefixes
    without one are the top-level ones. *)
Record tree_ok (s : Ipam) : Prop := {
  tree_nodes : nodes_ok s;
  tree_links : links_ok s;
  tree_parent u v : nodes_of s u = Some v → parent_of (nodes_of s) v (dict_get (ip_parent s) u);
  tree_top u : top_ok s u;
}.

Lemma parent_of_ext (N N' : Nodes) x o : (∀ u, N u = N' u) → parent_of N x o → parent_of N' x o.
Proof.
  intros Heq. destruct o as [p|]; cbn.
  - intros (vp & Hp & Hc & Hmax). exists vp. rewrite <-Heq. split; [done|]. split; [done|]. intros q vq. rewrite <-Heq. by eapply Hmax.
  - intros H q vq. rewrite <-Heq. by eapply H.
Qed.

Lemma not_own_parent s n v : tree_ok s → nodes_of s n = Some v → dict_get (ip_parent s) n ≠ Some n.
Proof.
  intros Hs Hv Hn. pose proof (tree_parent s Hs n v Hv) as Hp. rewrite Hn in Hp. destruct Hp as (w & Hw & Hc & _).
  replace w with v in Hc by congruence. by eapply contains_irrefl.
Qed.

Lemma current_children s n u : links_ok s →
  u ∈ get_current_children_uuids s n ↔ dict_get (ip_parent s) u = Some n.
Proof.
  intros Hs. unfold get_current_children_uuids. rewrite list_elem_of_fmap. split.
  - intros ([c p] & -> & [[Hp _] Hin]%list_elem_of_filter). cbn in Hp. subst p. by apply dict_get_in; [apply Hs|].
  - intros Hu. exists (u, n). split; [done|]. apply list_elem_of_filter. split; [split; [done|]|by apply dict_get_Some_in].
    apply dict_get_is_Some. eapply links_keys, dict_get_is_Some; [done|by eexists].
Qed.

(** The state in which a node [n], saved with the value [v], is reconciled. *)
Record reconcilable (s : Ipam) (n : string) (v : IpValue) : Prop := {
  rec_name : n ≠ "";
  rec_nodes : nodes_ok s;
  rec_links : links_ok s;
  rec_node : nodes_of s n = Some v;
  rec_self : dict_get (ip_parent s) n ≠ Some n;
  rec_others u x : u ≠ n → nodes_of s u = Some x → dict_get (ip_parent s) u ≠ Some n →
    parent_of (without (nodes_of s) n) x (dict_get (ip_parent s) u);
  rec_children u x : u ≠ n → nodes_of s u = Some x → dict_get (ip_parent s) u = Some n →
    parent_of (without (nodes_of s) n) x (get_current_parent_uuid s n);
  rec_top u : u ≠ n → top_ok s u;
}.

Lemma node_found s n v w : n ≠ "" → nodes_of s n = Some w → get_ip_node_uuid s v (Some n) = Some n.
Proof. intros Hne Hn. destruct n; [done|]. unfold get_ip_node_uuid, dict_mem. unfold nodes_of in Hn. by rewrite Hn. Qed.

(** The parents once the three steps of [reconcile] are done. *)
Definition reconciled_parent (s : Ipam) (n : string) (v : IpValue) (u : string) : option string :=
  if decide (u = n) then get_calculated_parent_uuid s v
  else if decide (u ∈ get_calculated_children_uuids s v n) then Some n
  else if decide (dict_get (ip_parent s) u = Some n) then get_current_parent_uuid s n
  else dict_get (ip_parent s) u.

Lemma reconcile_parents s n v : reconcilable s n v → n ∉ get_calculated_children_uuids s v n →
  ∃ s', reconcile v (Some n) false s = Ok s' ∧ ip_nodes s' = ip_nodes s ∧ links_ok s' ∧ (∀ u, top_ok s' u) ∧
    ∀ u, is_Some (nodes_of s u) → dict_get (ip_parent s') u = reconciled_parent s n v u.
Proof.
  intros [Hname Hnodes Hlinks Hn Hself _ _ Htop] Hnot.
  set (r := nodes_to_reconcile s v n).
  pose proof (update_node_parent_updates n (calculated_parent_uuid r) s : updates s (update_node r s) _ _) as H1.
  set (s1 := update_node r s) in *.
  pose proof (foldl_update_parents _ _ s1 : updates s1 (update_current_children r s1) _ _) as H2.
  set (s2 := update_current_children r s1) in *.
  pose proof (foldl_update_parents _ _ s2 : updates s2 (update_calculated_children r s2) _ _) as H3.
  set (s3 := update_calculated_children r s2) in *.
  exists s3. split; [by unfold reconcile; rewrite (node_found s n v v)|].
  assert (∀ u, u ∈ current_child_uuids r ↔ dict_get (ip_parent s) u = Some n) as Hcur by (intros u; by apply current_children).
  destruct H1 as [Hn1 Hl1 Hi1 Ho1 Ht1], H2 as [Hn2 Hl2 Hi2 Ho2 Ht2], H3 as [Hn3 Hl3 Hi3 Ho3 Ht3].
  unfold nodes_of in *. rewrite Hn2, Hn1 in *.
  split; [done|]. split; [auto|]. split.
  - intros u. destruct (decide (u = n)) as [->|]; [|auto]. apply Ht3, Ht2. apply Hi1; [by left|by rewrite Hn].
  - intros u Hu. unfold reconciled_parent. change (get_calculated_children_uuids s v n) with (calculated_child_uuids r) in *.
    assert (u ≠ n → dict_get (ip_parent s1) u = dict_get (ip_parent s) u) as Hother.
    { intros Hne. apply Ho1. by intros ->%list_elem_of_singleton. }
    specialize (Hcur u). repeat case_decide; subst; rewrite ?list_elem_of_filter in *.
    + rewrite Ho3, Ho2; [by apply Hi1; [left|]|..]; rewrite list_elem_of_filter; tauto.
    + destruct (decide (u ∈ current_child_uuids r)).
      * rewrite Ho3, Ho2, Hother by (rewrite ?list_elem_of_filter; tauto). tauto.
      * apply Hi3; [apply list_elem_of_filter; tauto|done].
    + rewrite Ho3 by (rewrite list_elem_of_filter; tauto). apply Hi2; [apply list_elem_of_filter; tauto|done].
    + rewrite Ho3, Ho2, Hother by (rewrite ?list_elem_of_filter; tauto). done.
Qed.

Lemma reconcile_tree s n v : reconcilable s n v →
  ∃ s', reconcile v (Some n) false s = Ok s' ∧ tree_ok s' ∧ ip_nodes s' = ip_nodes s.
Proof.
  intros Hrec. pose proof Hrec as [_ Hnodes _ Hn _ Hothers Hchildren _].
  destruct (nodes_valid s Hnodes n v Hn) as [Hvalid _].
  pose proof (calculated_children s v Hnodes Hvalid n) as Hcalc.
  destruct (reconcile_parents s n v Hrec) as (s' & Hok & Hsame & Hlinks & Htop & Hpar).
  { rewrite Hcalc by done. intros (x & Hx & w & Hw & Hc & _). replace w with x in Hc by congruence. by eapply contains_irrefl. }
  exists s'. split; [done|]. split; [|done]. unfold nodes_of in *. split; [|done| |done].
  { destruct Hnodes. split; unfold nodes_of; by rewrite Hsame. }
  unfold nodes_of. rewrite Hsame. intros u x Hx. rewrite Hpar by done. unfold reconciled_parent. case_decide; subst.
  { replace x with v by congruence. by apply calculated_parent. }
  case_decide as Hin; [apply Hcalc in Hin as (y & Hy & Hi); [|done]; cbn; by replace x with y by (unfold nodes_of in *; congruence)|].
  assert (¬ immediate (nodes_of s) x n) by (intros Hi; apply Hin, Hcalc; eauto).
  apply parent_with_other with n; [|done]. case_decide; eauto.
Qed.

(** *** The operations keep the tree *)

(** A value that the validation of the node accepts: the host bits are zero, and no other
    prefix of the namespace has it. *)
Record value_accepted (s : Ipam) (n : string) (v : IpValue) : Prop := {
  accepted_name : n ≠ "";
  accepted_valid : valid_value v;
  accepted_positive : iv_is_address v = false → 1 ≤ iv_prefixlen v;
  accepted_unique q w : nodes_of s q = Some w → q ≠ n → iv_is_address v = false → iv_is_address w = false →
    iv_version v = iv_version w → iv_prefixlen v = iv_prefixlen w → take (len v) (bits v) = take (len v) (bits w) → False;
}.

Inductive ip_op :=
  | IpCreate (n : string) (v : IpValue)
  | IpUpdate (n : string) (v : IpValue)
  | IpDelete (n : string).
Definition run_op (op : ip_op) (s : Ipam) : result Ipam :=
  match op with
  | IpCreate n v => mutate_create n v s
  | IpUpdate n v => mutate_update n v s
  | IpDelete n => mutate_delete n s
  end.

(** A creation has a new uuid; an update keeps the kind of the node. *)
Definition op_ok (s : Ipam) (op : ip_op) : Prop :=
  match op with
  | IpCreate n v => nodes_of s n = None ∧ value_accepted s n v
  | IpUpdate n v => (∃ w, nodes_of s n = Some w ∧ iv_is_address w = iv_is_address v) ∧ value_accepted s n v
  | IpDelete n => n ≠ "" ∧ is_Some (nodes_of s n)
  end.

Definition no_nodes : Ipam := mkIpam [] [] [].

(** The namespaces that the operations make, from an empty one. *)
Inductive ipam_reachable : Ipam → Prop :=
  | ipam_empty : ipam_reachable no_nodes
  | ipam_step s op s' : ipam_reachable s → op_ok s op → run_op op s = Ok s' → ipam_reachable s'.

Lemma nodes_of_save s n v u : nodes_of (save_value n v s) u = if decide (u = n) then Some v else nodes_of s u.
Proof. unfold nodes_of, save_value. cbn. rewrite dict_get_set. by repeat case_decide. Qed.

Lemma without_save s n v u : without (nodes_of s) n u = without (nodes_of (save_value n v s)) n u.
Proof. unfold without. rewrite nodes_of_save. by case_decide. Qed.

Lemma save_nodes_ok s n v : nodes_ok s → value_accepted s n v → nodes_ok (save_value n v s).
Proof.
  intros [Hnodup Hvalid Hdist] [_ Hv Hpos Hunique]. split; [by apply NoDup_dict_set| |].
  - intros u x. rewrite nodes_of_save. case_decide; [by intros [= <-]|apply Hvalid].
  - intros p q vp vq. rewrite !nodes_of_save. repeat case_decide; subst; try done.
    + intros [= <-] Hq Hp' Hq' Hver Hl Hb. exfalso. eapply Hunique; eauto.
    + intros Hp [= <-] Hp' Hq' Hver Hl Hb. exfalso. apply (Hunique p vp); try done. unfold len in *. by rewrite <-Hl.
    + by apply Hdist.
Qed.

Lemma save_reconcilable s n v : tree_ok s → value_accepted s n v →
  (∀ w, nodes_of s n = Some w → iv_is_address w = iv_is_address v) → reconcilable (save_value n v s) n v.
Proof.
  intros Hs Hv Hkind. pose proof Hs as [Hnodes [Hlinks Hkeys] Hpar Htop].
  assert (∀ u, u ≠ n → nodes_of (save_value n v s) u = nodes_of s u) as Hsave by (intros u ?; by rewrite nodes_of_save, decide_False).
  assert (∀ u, dict_get (ip_parent s) u = Some n → ∃ w, nodes_of s n = Some w ∧ iv_is_address w = false) as Hparent.
  { intros u Hu. destruct (Hkeys u) as [x Hx]; [apply dict_get_is_Some; eauto|]. pose proof (Hpar u x Hx) as Hi.
    rewrite Hu in Hi. destruct Hi as (w & Hw & Hc & _). exists w. split; [done|by eapply contains_prefix]. }
  split.
  - by eapply accepted_name.
  - by apply save_nodes_ok.
  - split; [done|]. intros u Hu. rewrite nodes_of_save. case_decide; [by eexists|auto].
  - by rewrite nodes_of_save, decide_True.
  - cbn. intros Hself. destruct (Hparent n Hself) as (w & Hw & _). by eapply not_own_parent.
  - intros u x Hne Hx Hu. rewrite Hsave in Hx by done. eapply parent_of_ext; [apply without_save|].
    apply parent_without_other; [by apply Hpar|done].
  - intros u x Hne Hx Hu. rewrite Hsave in Hx by done. destruct (Hparent u Hu) as (w & Hw & Hprefix).
    pose proof (Hpar u x Hx) as Hi. cbn in Hu. rewrite Hu in Hi. eapply parent_of_ext; [apply without_save|].
    replace (get_current_parent_uuid _ _) with (dict_get (ip_parent s) n).
    + apply parent_without_parent with w; [apply Hnodes|done..|].
      apply parent_without_other; [by apply Hpar|by eapply not_own_parent].
    + unfold get_current_parent_uuid. pose proof (nodes_of_save s n v n) as Hn. unfold nodes_of in Hn.
      rewrite Hn, decide_True by done. cbn. rewrite <-(Hkind w Hw), Hprefix. done.
  - intros u Hne x. rewrite Hsave by done. apply Htop.
Qed.

Lemma dict_get_filter {V} (P : string * V → Prop) `{∀ x, Decision (P x)} (d : list (string * V)) k v :
  NoDup (dict_keys d) → dict_get (filter P d) k = Some v ↔ dict_get d k = Some v ∧ P (k, v).
Proof.
  intros Hd. assert (NoDup (dict_keys (filter P d))) as Hf by by apply NoDup_fmap_filter. split.
  - intros [Hp Hin]%dict_get_Some_in%list_elem_of_filter. split; [by apply dict_get_in|done].
  - intros [Hin%dict_get_Some_in Hp]. apply dict_get_in; [done|]. by apply list_elem_of_filter.
Qed.

Lemma nodes_of_delete s n u : nodes_of (delete_node n s) u = without (nodes_of s) n u.
Proof. unfold nodes_of, delete_node, without. cbn. rewrite dict_get_del. by repeat case_decide. Qed.

Lemma delete_tree s n : nodes_ok s → links_ok s →
  (∀ u x, u ≠ n → nodes_of s u = Some x → dict_get (ip_parent s) u ≠ Some n ∧
    parent_of (without (nodes_of s) n) x (dict_get (ip_parent s) u) ∧ top_ok s u) →
  tree_ok (delete_node n s).
Proof.
  intros [Hnodup Hvalid Hdist] [Hlinks Hkeys] Hothers.
  assert (∀ u x, nodes_of (delete_node n s) u = Some x → u ≠ n ∧ nodes_of s u = Some x) as Hnode.
  { intros u x. rewrite nodes_of_delete. unfold without. by case_decide. }
  assert (∀ u x, u ≠ n → nodes_of s u = Some x →
    dict_get (ip_parent (delete_node n s)) u = dict_get (ip_parent s) u) as Hparent.
  { intros u x Hne Hx. apply option_eq. intros p. cbn. rewrite dict_get_filter by done. cbn.
    split; [by intros [? _]|]. intros Hp. split; [done|]. split; [done|]. intros ->. by apply (Hothers u x). }
  split; [split|split| |].
  - by apply NoDup_dict_del.
  - intros u x Hx. by apply (Hvalid u), Hnode.
  - intros p q vp vq [_ Hp]%Hnode [_ Hq]%Hnode. by apply Hdist.
  - by apply NoDup_fmap_filter.
  - intros u [[c p] [-> [[Hc _] Hin]%list_elem_of_filter]]%list_elem_of_fmap. rewrite nodes_of_delete.
    unfold without. cbn in *. rewrite decide_False by done. apply Hkeys, list_elem_of_fmap. by exists (c, p).
  - intros u x Hx. pose proof Hx as [Hne Hx']%Hnode. rewrite (Hparent u x) by done.
    eapply parent_of_ext; [intros w; symmetry; apply nodes_of_delete|]. by apply Hothers.
  - intros u x Hx Hp. pose proof Hx as [Hne Hx']%Hnode. rewrite (Hparent u x) by done.
    destruct (Hothers u x Hne Hx') as (_ & _ & Htop). rewrite <-(Htop x Hx' Hp). cbn. by rewrite dict_get_del, decide_False.
Qed.

Lemma mutate_delete_tree s n : tree_ok s → n ≠ "" → is_Some (nodes_of s n) →
  ∃ s', mutate_delete n s = Ok s' ∧ tree_ok s' ∧ ip_nodes s' = dict_del (ip_nodes s) n.
Proof.
  intros Hs Hne [w Hw]. pose proof Hs as [Hnodes Hlinks Hpar Htop]. unfold mutate_delete.
  unfold nodes_of in Hw. rewrite Hw. cbn. destruct (iv_is_address w) eqn:Hkind.
  - eexists. split; [done|]. split; [|done]. apply delete_tree; [done..|]. intros u x Hu Hx.
    assert (dict_get (ip_parent s) u ≠ Some n) as Hnot.
    { intros Hp. pose proof (Hpar u x Hx) as Hi. rewrite Hp in Hi. destruct Hi as (w' & Hw' & Hc & _).
      unfold nodes_of in Hw'. rewrite Hw in Hw'. injection Hw' as <-. by rewrite (contains_prefix _ _ Hc) in Hkind. }
    split; [done|]. split; [|apply Htop]. by apply parent_without_other; [apply Hpar|].
  - unfold reconcile. rewrite (node_found s n w w) by done. set (r := nodes_to_reconcile s w n).
    change (require _ (Some n)) with (@Ok string n). cbn [mbind result_bind].
    pose proof (foldl_update_parents _ _ s : updates s (update_children_for_delete r s) _ _) as [Hn1 Hl1 Hi1 Ho1 Ht1].
    set (s1 := update_children_for_delete r s) in *.
    assert (current_parent_uuid r = dict_get (ip_parent s) n) as Hcp.
    { cbn. unfold get_current_parent_uuid. rewrite Hw. cbn. by rewrite Hkind. }
    exists (delete_node n s1). split; [done|]. split; [|by apply (f_equal (λ d, dict_del d n))].
    apply delete_tree; unfold nodes_of; rewrite ?Hn1.
    + destruct Hnodes. split; unfold nodes_of; by rewrite Hn1.
    + auto.
    + intros u x Hu Hx. pose proof (current_children s n u Hlinks) as Hcur.
      pose proof (not_own_parent s n w Hs Hw) as Hself. split_and!; [| |by apply Ht1].
      * destruct (decide (u ∈ current_child_uuids r)) as [Hin|Hout].
        -- destruct (Hi1 u Hin) as [-> _]; [by eexists|]. by rewrite Hcp.
        -- rewrite Ho1 by done. by rewrite <-Hcur.
      * pose proof (Hpar u x Hx) as Hi. destruct (decide (u ∈ current_child_uuids r)) as [Hin|Hout].
        -- destruct (Hi1 u Hin) as [-> _]; [by eexists|]. rewrite Hcp. apply Hcur in Hin. rewrite Hin in Hi.
           apply parent_without_parent with w; [apply Hnodes|done..|]. by apply parent_without_other; [apply Hpar|].
        -- rewrite Ho1 by done. apply parent_without_other; [done|]. by rewrite <-Hcur.
Qed.

(** C23: However a namespace has been built — prefixes and addresses created, moved to another
    value and deleted in any order, each step reconciled locally — every node is under the
    most specific prefix that contains it and the top-level prefixes are those without one;
    and the next operation succeeds.  The operations are those that the validation accepts:
    a new uuid for a creation, a node that exists for an update or a deletion, and a prefix
    whose host bits are zero and that no other prefix of the namespace equals; the default
    networks, 0.0.0.0/0 and ::/0, are left out ([default_network_parent]: they are never
    calculated as the parent of a value whose first bit is set). *)
Theorem ipam_tree_invariant s : ipam_reachable s →
  tree_ok s ∧ ∀ op, op_ok s op → is_ok (run_op op s) = true.
Proof.
  assert (∀ s op, tree_ok s → op_ok s op → ∃ s', run_op op s = Ok s' ∧ tree_ok s') as Hstep.
  { intros s0 [n v|n v|n] Hs Hop; cbn in *.
    - destruct Hop as [Hnew Hv]. destruct (reconcile_tree (save_value n v s0) n v) as (s' & Hok & Ht & _); [|eauto].
      apply save_reconcilable; [done..|]. intros w Hw. congruence.
    - destruct Hop as [(w & Hw & Hkind) Hv]. destruct (reconcile_tree (save_value n v s0) n v) as (s' & Hok & Ht & _); [|eauto].
      apply save_reconcilable; [done..|]. intros w' Hw'. by replace w' with w by congruence.
    - destruct Hop as [Hne Hn]. destruct (mutate_delete_tree s0 n) as (s' & Hok & Ht & _); eauto. }
  intros Hr. assert (tree_ok s) as Hs.
  { induction Hr as [|s op s' _ IH Hop Hok].
    - split; [split; [constructor| |]|split; [constructor|]| |]; unfold nodes_of; cbn; try done. intros u Hu. by apply elem_of_nil in Hu.
    - destruct (Hstep s op IH Hop) as (s'' & Hok' & Ht). congruence. }
  split; [done|]. intros op Hop. by destruct (Hstep s op Hs Hop) as (s' & -> & _).
Qed.

(** An example: a network, its network, and an address under both. *)
Definition net8 : IpValue := mkIpValue false V4 (10 * 2 ^ 24) 8.
Definition net16 : IpValue := mkIpValue false V4 (10 * 2 ^ 24 + 2 ^ 16) 16.
Definition address24 : IpValue := mkIpValue true V4 (10 * 2 ^ 24 + 2 ^ 16 + 5) 24.

Definition ipam_example : list ip_op :=
  [IpCreate "addr" address24; IpCreate "net8" net8; IpCreate "net16" net16].

Lemma accept_prefix s n v : n ≠ "" → valid_value v → iv_is_address v = false → 1 ≤ iv_prefixlen v →
  Forall (λ q, q.1 = n ∨ iv_prefixlen q.2 ≠ iv_prefixlen v) (ip_nodes s) → value_accepted s n v.
Proof.
  intros Hn Hv _ Hl Hothers. split; [done..|]. intros q w Hw%dict_get_Some_in Hne _ _ _ Heq _.
  rewrite Forall_forall in Hothers. destruct (Hothers _ Hw) as [|Hdiff]; cbn in *; congruence.
Qed.

Lemma ipam_tree_invariant_witness :
  ∃ s, tree_ok s ∧ dict_get (ip_parent s) "addr" = Some "net16" ∧ dict_get (ip_parent s) "net16" = Some "net8"
    ∧ is_top_level s = [("net8", true); ("net16", false)].
Proof.
  assert (∃ s, foldM (λ s op, run_op op s) no_nodes ipam_example = Ok s ∧ ipam_reachable s) as (s & Hrun & Hs).
  { eexists. split; [vm_compute; reflexivity|]. 
    eapply (ipam_step _ (IpCreate "net16" net16)); [eapply (ipam_step _ (IpCreate "net8" net8));
      [eapply (ipam_step _ (IpCreate "addr" address24)); [apply ipam_empty|..]|..]|..];
    try (vm_compute; reflexivity); (split; [vm_compute; reflexivity|]).
    - split; [done|split; [cbn; lia|done]|done|]. intros q w Hw. by vm_compute in Hw.
    - apply accept_prefix; [done|split; [cbn; lia|by vm_compute]|done..|].
      repeat first [apply Forall_cons; split; [by right|]|apply Forall_nil_2].
    - apply accept_prefix; [done|split; [cbn; lia|by vm_compute]|done..|].
      repeat first [apply Forall_cons; split; [by right|]|apply Forall_nil_2]. }
  exists s. split; [exact (proj1 (ipam_tree_invariant s Hs))|].
  vm_compute in Hrun. injection Hrun as <-. by vm_compute.
Defined.

(** The default network is a parent, but is never calculated as the parent of a value whose
    first bit is set: the parents then depend on the order of the creations. *)
Definition net0 : IpValue := mkIpValue false V4 0 0.
Definition net192 : IpValue := mkIpValue false V4 (192 * 2 ^ 24 + 168 * 2 ^ 16) 16.

Theorem default_network_parent : ∃ s s',
  (s ← mutate_create "net0" net0 no_nodes; mutate_create "net192" net192 s) = Ok s ∧
  (s ← mutate_create "net192" net192 no_nodes; mutate_create "net0" net0 s) = Ok s' ∧
  contains net0 net192 ∧
  dict_get (ip_parent s) "net192" = None ∧ dict_get (is_top_level s) "net192" = Some true ∧
  dict_get (ip_parent s') "net192" = Some "net0" ∧ dict_get (is_top_level s') "net192" = Some false.
Proof. do 2 eexists. split; [vm_compute; reflexivity|]. split; [vm_compute; reflexivity|]. by repeat split. Qed.

(** ** The percentage *)

Lemma sum_Z_pos l : (∀ x, x ∈ l → 0 < x) → (l ≠ [] → 0 < sum_Z l) ∧ 0 ≤ sum_Z l.
Proof.
  assert (∀ l a, (∀ x, x ∈ l → 0 < x) → 0 ≤ a → (l ≠ [] → 0 < foldl Z.add a l) ∧ a ≤ foldl Z.add a l) as H.
  { induction l0 as [|x l0 IH]; intros a Hl Ha; cbn; [split; [done|lia]|].
    pose proof (Hl x ltac:(by left)). destruct (IH (a + x)) as [_ Hle]; [intros y Hy; apply Hl; by right|lia|]. lia. }
  intros Hl. apply (H l 0); [done|lia].
Qed.

Lemma get_prefix_space_pos p : valid (pn_prefix p) → 0 < get_prefix_space p.
Proof.
  intros Hv. pose proof (valid_prefixlen _ Hv) as Hl. unfold get_prefix_space. rewrite num_addresses_size by done.
  pose proof (size_pos _ Hv). case_match eqn:Hc; [|done].
  apply andb_prop in Hc as [[[_ Hver]%andb_prop Hlen]%andb_prop _]. apply bool_decide_eq_true in Hver, Hlen.
  unfold size. rewrite Hver in *. cbn. pose proof (Z.pow_le_mono_r 2 2 (32 - prefixlen (pn_prefix p)) ltac:(lia) ltac:(lia)). lia.
Qed.

Lemma spaces_pos (l : list PrefixNode) : (∀ p, p ∈ l → valid (pn_prefix p)) →
  (l ≠ [] → 0 < sum_Z (get_prefix_space <$> l)) ∧ 0 ≤ sum_Z (get_prefix_space <$> l).
Proof.
  intros Hl. destruct (sum_Z_pos (get_prefix_space <$> l)) as [Hpos Hnn].
  { intros x (p & -> & Hp)%list_elem_of_fmap. by apply get_prefix_space_pos, Hl. }
  split; [|done]. intros Hne. apply Hpos. by intros ?%fmap_nil_inv.
Qed.

(** The percentage is an error when there is no prefix, and only then. *)
Theorem get_use_percentage_error `{SetOrder} results all_prefixes ip_prefixes branch_names :
  (∀ p, p ∈ default all_prefixes ip_prefixes → valid (pn_prefix p)) →
  get_use_percentage results all_prefixes ip_prefixes branch_names = Err ZeroDivisionError ↔
  default all_prefixes ip_prefixes = [].
Proof.
  unfold get_use_percentage. set (l := default all_prefixes ip_prefixes). intros Hl.
  set (la := filter (λ p, pn_member_type p = ADDRESS) l). set (lp := filter (λ p, pn_member_type p ≠ ADDRESS) l).
  destruct (spaces_pos la) as [Ha Ha0]; [intros p [_ Hp]%list_elem_of_filter; auto|].
  destruct (spaces_pos lp) as [Hp Hp0]; [intros p [_ Hq]%list_elem_of_filter; auto|].
  assert (l = [] ↔ la = [] ∧ lp = []) as Hempty.
  { split; [by unfold la, lp; intros ->|]. intros [Hna Hnp]. destruct l as [|p l'] eqn:Heq; [done|exfalso].
    destruct (decide (pn_member_type p = ADDRESS)) as [Hk|Hk].
    - assert (p ∈ la) as Hin by (apply list_elem_of_filter; split; [done|by left]). rewrite Hna in Hin. by apply elem_of_nil in Hin.
    - assert (p ∈ lp) as Hin by (apply list_elem_of_filter; split; [done|by left]). rewrite Hnp in Hin. by apply elem_of_nil in Hin. }
  rewrite Hempty. clearbody la lp. destruct la as [|a la], lp as [|q lp]; cbn -[sum_Z fmap] in *;
    repeat match goal with H : _ :: _ ≠ [] → _ |- _ => specialize (H ltac:(done)) end;
    case_decide; (split; [try done|intros [??]; try done; lia]); try (exfalso; lia).
Qed.
