(* ===== verification/DiffModel.v ===== *)
(** * Elements of a difference

    [backend/infrahub/core/diff/model.py]: the nodes, attributes, properties and
    relationships of a difference, the modified paths and the conflicts.  Values are
    JSON values; the ids of the database are natural numbers. *)

From stdpp Require Import prelude strings.
From S2P Require Import Prelude PyString PyDict SdkUtils Constants.

Record ValueElement := mkValueElement { previous : json; new : json }.

Record PropertyDiffElement := mkPropertyDiffElement {
  prop_branch : string;
  prop_type : string;
  prop_action : DiffAction;
  prop_path : option string;
  prop_db_id : nat;
  prop_rel_id : nat;
  prop_origin_rel_id : option nat;
  prop_value : option ValueElement;
  prop_changed_at : option Z;
}.
Record NodeAttributeDiffElement := mkNodeAttributeDiffElement {
  attr_id : string;
  attr_name : string;
  attr_path : string;
  attr_action : DiffAction;
  attr_db_id : nat;
  attr_rel_id : nat;
  attr_origin_rel_id : option nat;
  attr_changed_at : option Z;
  attr_properties : list (string * PropertyDiffElement);
}.
#[export] Instance NodeAttributeDiffElement_rebuild : Rebuild NodeAttributeDiffElement := λ a,
  mkNodeAttributeDiffElement (attr_id a) (attr_name a) (attr_path a) (attr_action a) (attr_db_id a)
    (attr_rel_id a) (attr_origin_rel_id a) (attr_changed_at a) (attr_properties a).
Record NodeDiffElement := mkNodeDiffElement {
  node_branch : option string;
  node_labels : list string;
  node_kind : string;
  node_id : string;
  node_path : string;
  node_action : DiffAction;
  node_db_id : nat;
  node_rel_id : option nat;
  node_changed_at : option Z;
  node_attributes : list (string * NodeAttributeDiffElement);
}.
#[export] Instance NodeDiffElement_rebuild : Rebuild NodeDiffElement := λ n,
  mkNodeDiffElement (node_branch n) (node_labels n) (node_kind n) (node_id n) (node_path n)
    (node_action n) (node_db_id n) (node_rel_id n) (node_changed_at n) (node_attributes n).
Record RelationshipEdgeNodeDiffElement := mkRelNode {
  rn_id : string;
  rn_db_id : option nat;
  rn_rel_id : option nat;
  rn_labels : list string;
  rn_kind : string;
}.
Record RelationshipDiffElement := mkRelationshipDiffElement {
  rel_branch : string;
  rel_id : string;
  rel_db_id : nat;
  rel_name : string;
  rel_action : DiffAction;
  rel_nodes : list (string * RelationshipEdgeNodeDiffElement);
  rel_properties : list (string * PropertyDiffElement);
  rel_changed_at : option Z;
  rel_paths : list string;
  rel_conflict_paths : list string;
}.
#[export] Instance RelationshipDiffElement_rebuild : Rebuild RelationshipDiffElement := λ r,
  mkRelationshipDiffElement (rel_branch r) (rel_id r) (rel_db_id r) (rel_name r) (rel_action r)
    (rel_nodes r) (rel_properties r) (rel_changed_at r) (rel_paths r) (rel_conflict_paths r).

Definition get_node_id_by_kind (r : RelationshipDiffElement) (k : string) : option string :=
  head (rn_id <$> filter (λ n, rn_kind n = k) (dict_values (rel_nodes r))).

Record FileDiffElement := mkFileDiffElement {
  file_branch : string;
  file_location : string;
  file_repository : string;
  file_action : DiffAction;
  file_commit_from : string;
  file_commit_to : string;
}.
Record DiffSummaryElement := mkDiffSummaryElement {
  sum_branch : string;
  sum_node : string;
  sum_kind : string;
  sum_actions : list DiffAction;
}.
#[export] Instance DiffSummaryElement_rebuild : Rebuild DiffSummaryElement := λ s,
  mkDiffSummaryElement (sum_branch s) (sum_node s) (sum_kind s) (sum_actions s).

(** ** Modified paths *)

Record ModifiedPath := mkModifiedPath {
  mp_type : string;
  mp_node_id : string;
  mp_path_type : PathType;
  mp_kind : string;
  mp_element_name : option string;
  mp_property_name : option string;
  mp_peer_id : option string;
  mp_action : DiffAction;
  mp_change : option ValueElement;
}.
#[export] Instance ValueElement_eq_dec : EqDecision ValueElement.
Proof. solve_decision. Defined.
#[export] Instance ModifiedPath_eq_dec : EqDecision ModifiedPath.
Proof. solve_decision. Defined.
#[export] Instance ModifiedPath_rebuild : Rebuild ModifiedPath := λ p,
  mkModifiedPath (mp_type p) (mp_node_id p) (mp_path_type p) (mp_kind p) (mp_element_name p)
    (mp_property_name p) (mp_peer_id p) (mp_action p) (mp_change p).

Definition modification_type (p : ModifiedPath) : string :=
  if truthy_str (mp_element_name p) then "element" else "node".

(** [ModifiedPath.__eq__] *)
Definition mp_eq (self other : ModifiedPath) : bool :=
  if negb (bool_decide (modification_type self = modification_type other)) then false
  else if bool_decide (modification_type self = "node") && bool_decide (mp_action self = mp_action other)
          && bool_decide (mp_action self ∈ [DiffAction.REMOVED; DiffAction.UPDATED]) then false
  else if bool_decide (modification_type self = "element") && bool_decide (mp_action self = mp_action other)
          && bool_decide (mp_action self = DiffAction.REMOVED) then false
  else bool_decide (mp_type self = mp_type other) && bool_decide (mp_node_id self = mp_node_id other).

(** What [ModifiedPath.__hash__] hashes: all the fields, of the change only whether
    there is one (the hash of a [ValueElement] is that of its class). *)
Definition mp_hash_key (p : ModifiedPath) :
    string * string * PathType * string * option string * option string * option string * DiffAction * bool :=
  (mp_type p, mp_node_id p, mp_path_type p, mp_kind p, mp_element_name p, mp_property_name p, mp_peer_id p,
   mp_action p, opt_is_some (mp_change p)).

(** Two elements of Python sets are the same when their hashes are equal (taken as:
    what is hashed is equal) and [__eq__] holds. *)
Definition same_entry (x y : ModifiedPath) : bool :=
  bool_decide (mp_hash_key x = mp_hash_key y) && mp_eq x y.

Definition opt_part (sep : string) (o : option string) : string :=
  match o with Some (String c s) => sep +:+ String c s | _ => "" end.

(** [ModifiedPath._path] *)
Definition _path (with_peer : bool) (p : ModifiedPath) : string :=
  mp_type p +:+ "/" +:+ mp_node_id p
  +:+ opt_part "/" (mp_element_name p)
  +:+ (if bool_decide (mp_path_type p = PathType.RELATIONSHIP_ONE) && negb (truthy_str (mp_property_name p))
       then "/peer" else "")
  +:+ (if with_peer then opt_part "/" (mp_peer_id p) else "")
  +:+ (if bool_decide (mp_property_name p = Some "HAS_VALUE") then "/value"
       else opt_part "/property/" (mp_property_name p)).
Definition path_str (p : ModifiedPath) : string := _path true p.
Definition mp_conflict_path (p : ModifiedPath) : string := _path false p.

Definition change_type (p : ModifiedPath) : string :=
  if bool_decide (mp_path_type p ∈ [PathType.ATTRIBUTE; PathType.RELATIONSHIP_MANY; PathType.RELATIONSHIP_ONE])
  then if truthy_str (mp_property_name p) && negb (bool_decide (mp_property_name p = Some "HAS_VALUE"))
       then enum_value (mp_path_type p) +:+ "_property"
       else enum_value (mp_path_type p) +:+ "_value"
  else enum_value (mp_path_type p).

(** ** Conflicts *)

Record BranchChanges := mkBranchChanges {
  bc_branch : string;
  bc_action : DiffAction;
  bc_previous : json;
  bc_new : json;
}.
Record DataConflict := mkDataConflict {
  conflict_name : string;
  conflict_type : string;
  conflict_kind : string;
  conflict_id : string;
  conflict_path : string;
  conflict_full_path : string;
  conflict_path_type : PathType;
  conflict_property_name : option string;
  conflict_change_type : string;
  conflict_changes : list BranchChanges;
}.
(** [DataConflict.__str__] *)
Definition conflict_text (c : DataConflict) : string := conflict_full_path c.
