(* ===== verification/BranchDiffer.v ===== *)
(** * The difference of a branch

    [BranchDiffer] of [backend/infrahub/core/diff/branch_differ.py]: the nodes, the
    relationships and the files of a difference computed from the rows of the
    queries, their summaries, the paths modified on each branch, and the conflicts.

    The rows of the Cypher queries (in the order [get_results] yields them), the
    schema of a kind on a branch, the display labels of nodes, the repositories at
    both times and the reply of the git agent are parameters.  A timestamp is a
    number of microseconds. *)

From stdpp Require Import prelude strings sorting.
From S2P Require Import Prelude PyString PyDict SdkUtils Constants HashModel SchemaDefs.
From S2P Require Import NodeSchemaOps Graph Branch DiffModel.

(** ** Rows of the queries *)

Record DbNode := mkDbNode { db_uuid : string; db_labels : list string; db_kind : string; db_element : nat }.
Record DbAttribute := mkDbAttribute { da_uuid : string; da_name : string; da_element : nat }.

(** [DiffNodeQuery] *)
Record NodeRow := mkNodeRow { nrow_n : DbNode; nrow_r : Edge }.
(** [DiffAttributeQuery]; the last two are the end [ap] of [r2] and its value. *)
Record AttributeRow := mkAttributeRow {
  arow_n : DbNode;
  arow_r1 : Edge;
  arow_a : DbAttribute;
  arow_r2 : Edge;
  arow_ap : nat;
  arow_value : json;
}.
(** [DiffNodePropertiesByIDSQuery] and [DiffRelationshipPropertiesByIDSRangeQuery]:
    the uuid of the attribute or relationship, the edge of the property and its value. *)
Record OriginRow := mkOriginRow { orow_uuid : string; orow_r : Edge; orow_value : json }.
(** [DiffRelationshipQuery]; [rrow_rel] has the uuid and the name of [rel]. *)
Record RelationshipRow := mkRelationshipRow {
  rrow_sn : DbNode;
  rrow_r1 : Edge;
  rrow_rel : DbAttribute;
  rrow_r2 : Edge;
  rrow_dn : DbNode;
}.
(** [DiffRelationshipPropertyQuery] *)
Record RelationshipPropertyRow := mkRelationshipPropertyRow {
  prow_row : RelationshipRow;
  prow_r3 : Edge;
  prow_rp : nat;
  prow_value : json;
}.

(** *** Rows sorted by time *)

(** [Timestamp.to_timestamp]: a number of seconds. *)
Definition to_timestamp (t : Z) : Z := (t / 1000000)%Z.

Definition record_id (r : Edge) : Z :=
  match edge_to r with
  | None => to_timestamp (edge_from r) * 1000 + 500
  | Some to => to_timestamp to * 1000
  end%Z.

(** [sort_results_by_time] of [core/query/__init__.py] *)
Definition sort_results_by_time (results : list OriginRow) : list OriginRow :=
  snd <$> py_sorted_by fst (dict_of_list ((λ row, (record_id (orow_r row), row)) <$> results)).

(** [get_results_by_id_and_prop_type] of both queries. *)
Definition get_results_by_id_and_prop_type (branches_in_scope : list string) (results : list OriginRow)
    (id prop_type : string) : list OriginRow :=
  sort_results_by_time
    (filter (λ row, edge_branch (orow_r row) ∈ branches_in_scope ∧ orow_uuid row = id
                    ∧ edge_type (orow_r row) = prop_type) results).

(** ** The results *)

(** The value of [_results] for a branch. *)
Record BranchResults := mkBranchResults {
  res_nodes : list (string * NodeDiffElement);
  res_rels : list (string * list (string * RelationshipDiffElement));
  res_files : list FileDiffElement;
}.
#[export] Instance BranchResults_rebuild : Rebuild BranchResults := λ r,
  mkBranchResults (res_nodes r) (res_rels r) (res_files r).

Abbreviation Results := (list (string * BranchResults)).
Abbreviation BranchNodes := (list (string * list (string * NodeDiffElement))).
Abbreviation BranchRelationships := (list (string * list (string * list (string * RelationshipDiffElement)))).
Abbreviation BranchPaths := (list (string * list ModifiedPath)).

(** [_results[branch]], a [defaultdict] *)
Definition branch_results (results : Results) (branch : string) : BranchResults :=
  default (mkBranchResults [] [] []) (dict_get results branch).
Definition branch_nodes (results : Results) (branch : string) : list (string * NodeDiffElement) :=
  res_nodes (branch_results results branch).
Definition set_nodes (results : Results) (branch : string) (nodes : list (string * NodeDiffElement)) : Results :=
  dict_set results branch ((branch_results results branch) <| res_nodes := nodes |>).
Definition branch_rels (results : Results) (branch rel_name : string) : list (string * RelationshipDiffElement) :=
  default [] (dict_get (res_rels (branch_results results branch)) rel_name).
Definition set_rel (results : Results) (branch rel_name rel_id : string) (rel : RelationshipDiffElement) : Results :=
  let b := branch_results results branch in
  dict_set results branch
    (b <| res_rels := dict_set (res_rels b) rel_name (dict_set (branch_rels results branch rel_name) rel_id rel) |>).

(** ** The nodes of the difference *)

Section calculate.
Context (diff_from diff_to : Z).
(** [branch.get_branches_in_scope()] *)
Context (branches_in_scope : list string).

(** The edge ended before the end of the difference. *)
Definition ended (r : Edge) : bool :=
  match edge_to r with Some to => bool_decide (to < diff_to)%Z | None => false end.

Definition process_node_row (results : Results) (row : NodeRow) : Results :=
  let n := nrow_n row in
  let r := nrow_r row in
  if ended r then results
  else set_nodes results (edge_branch r)
    (dict_set (branch_nodes results (edge_branch r)) (db_uuid n)
      (mkNodeDiffElement (Some (edge_branch r)) (py_sorted (db_labels n)) (db_kind n) (db_uuid n)
        ("data/" +:+ db_uuid n)
        (match edge_status r with
         | RelationshipStatus.ACTIVE => DiffAction.ADDED
         | RelationshipStatus.DELETED => DiffAction.REMOVED
         end)
        (db_element n) (Some (edge_id r)) (Some (edge_from r)) [])).

(** The element of a node that was neither added nor removed. *)
Definition updated_node (branch : string) (n : DbNode) : NodeDiffElement :=
  mkNodeDiffElement (Some branch) (py_sorted (db_labels n)) (db_kind n) (db_uuid n) ("data/" +:+ db_uuid n)
    DiffAction.UPDATED (db_element n) None None [].

Definition attribute_action (node : NodeDiffElement) (r1 : Edge) : DiffAction * option Z :=
  if bool_decide (node_action node ∈ [DiffAction.ADDED; DiffAction.UPDATED])
     && bool_decide (diff_from ≤ edge_from r1)%Z && bool_decide (edge_status r1 = RelationshipStatus.ACTIVE)
  then (DiffAction.ADDED, Some (edge_from r1))
  else if bool_decide (diff_from ≤ edge_from r1)%Z && bool_decide (edge_status r1 = RelationshipStatus.DELETED)
  then (DiffAction.REMOVED, Some (edge_from r1))
  else (DiffAction.UPDATED, None).

(** The first pass over the attributes: the results and [attrs_to_query]. *)
Definition process_attribute_row (acc : Results * list string) (row : AttributeRow) :
    Results * list string :=
  let '(results, attrs_to_query) := acc in
  let branch := edge_branch (arow_r2 row) in
  let node_id := db_uuid (arow_n row) in
  let attr_name := da_name (arow_a row) in
  let nodes := branch_nodes results branch in
  let node := default (updated_node branch (arow_n row)) (dict_get nodes node_id) in
  let results := set_nodes results branch (dict_set nodes node_id node) in
  if dict_mem (node_attributes node) attr_name || ended (arow_r1 row) then (results, attrs_to_query)
  else
    let '(action, changed_at) := attribute_action node (arow_r1 row) in
    let attr := mkNodeAttributeDiffElement (da_uuid (arow_a row)) attr_name
                  ("data/" +:+ node_id +:+ "/" +:+ attr_name) action (da_element (arow_a row))
                  (edge_id (arow_r1 row)) None changed_at [] in
    let node := node <| node_attributes := dict_set (node_attributes node) attr_name attr |> in
    (set_nodes results branch (dict_set nodes node_id node),
     if decide (action = DiffAction.ADDED) then attrs_to_query
     else if decide (da_uuid (arow_a row) ∈ attrs_to_query) then attrs_to_query
     else attrs_to_query ++ [da_uuid (arow_a row)]).

Definition property_path (node_id attr_name prop_type : string) : string :=
  if decide (prop_type = "HAS_VALUE") then "data/" +:+ node_id +:+ "/" +:+ attr_name +:+ "/value"
  else "data/" +:+ node_id +:+ "/" +:+ attr_name +:+ "/property/" +:+ prop_type.

Definition property_action (origin : bool) (r : Edge) : DiffAction :=
  if negb origin && bool_decide (diff_from ≤ edge_from r)%Z && bool_decide (edge_status r = RelationshipStatus.ACTIVE)
  then DiffAction.ADDED
  else if bool_decide (diff_from ≤ edge_from r)%Z && bool_decide (edge_status r = RelationshipStatus.DELETED)
  then DiffAction.REMOVED else DiffAction.UPDATED.

(** The second pass: the properties of the attributes; [origins] are the results of
    the query of the current values of [attrs_to_query]. *)
Definition process_property_row (origins : list OriginRow) (results : Results) (row : AttributeRow) :
    result Results :=
  let r2 := arow_r2 row in
  let branch := edge_branch r2 in
  let node_id := db_uuid (arow_n row) in
  let attr_name := da_name (arow_a row) in
  if ended r2 then Ok results
  else
    let origin_attr := head (get_results_by_id_and_prop_type branches_in_scope origins
                               (da_uuid (arow_a row)) (edge_type r2)) in
    let prop := mkPropertyDiffElement branch (edge_type r2)
                  (property_action (opt_is_some origin_attr) r2)
                  (Some (property_path node_id attr_name (edge_type r2)))
                  (arow_ap row) (edge_id r2) (edge_id ∘ orow_r <$> origin_attr)
                  (Some (mkValueElement (default JNull (orow_value <$> origin_attr)) (arow_value row)))
                  (Some (edge_from r2)) in
    let nodes := branch_nodes results branch in
    node ← require (KeyError node_id) (dict_get nodes node_id);
    attr ← require (KeyError attr_name) (dict_get (node_attributes node) attr_name);
    let attr := attr <| attr_origin_rel_id := Some (edge_id (arow_r1 row)) |>
                     <| attr_properties := dict_set (attr_properties attr) (edge_type r2) prop |> in
    let node := node <| node_attributes := dict_set (node_attributes node) attr_name attr |> in
    Ok (set_nodes results branch (dict_set nodes node_id node)).

Definition _calculate_diff_nodes (node_rows : list NodeRow) (attribute_rows : list AttributeRow)
    (attribute_origins : list string → list OriginRow) (results : Results) : result Results :=
  let results := foldl process_node_row results node_rows in
  let '(results, attrs_to_query) := foldl process_attribute_row (results, []) attribute_rows in
  foldM (process_property_row (attribute_origins attrs_to_query)) results attribute_rows.

(** ** The relationships of the difference *)

(** [schema.get(name=kind, branch=branch)] *)
Context (get_schema : string → string → result MainSchema).

(** The first relationship of a schema with an identifier. *)
Definition matching_relationship (schema : MainSchema) (identifier : string) : option RelationshipSchema :=
  find_first (λ r, bool_decide (r_identifier r = Some identifier)) (n_relationships schema).

Definition parse_relationship_paths (nodes : list (string * RelationshipEdgeNodeDiffElement))
    (branch_name relationship_name : string) : result (list string * list string) :=
  match dict_keys nodes with
  | id0 :: id1 :: _ =>
      foldM (λ '(paths, conflict_paths) relationship,
          schema ← get_schema (rn_kind relationship) branch_name;
          let name := match matching_relationship schema relationship_name with
                      | Some r => r_name r
                      | None => "-undefined-"
                      end in
          neighbor ← require (KeyError (rn_id relationship))
                       (dict_get (dict_of_list [(id0, id1); (id1, id0)]) (rn_id relationship));
          Ok (paths ++ ["data/" +:+ rn_id relationship +:+ "/" +:+ name +:+ "/" +:+ neighbor],
              conflict_paths ++ ["data/" +:+ rn_id relationship +:+ "/" +:+ name +:+ "/peer"]))
        ([], []) (dict_values nodes)
  | _ => Err IndexError
  end.

(** The dictionary of the two ends. *)
Definition row_nodes (row : RelationshipRow) : list (string * RelationshipEdgeNodeDiffElement) :=
  let edge_node n r := mkRelNode (db_uuid n) (Some (db_element n)) (Some (edge_id r)) (py_sorted (db_labels n)) (db_kind n) in
  dict_of_list [(db_uuid (rrow_sn row), edge_node (rrow_sn row) (rrow_r1 row));
                (db_uuid (rrow_dn row), edge_node (rrow_dn row) (rrow_r2 row))].

Definition new_relationship (branch : string) (row : RelationshipRow) (action : DiffAction) (changed_at : option Z) :
    result RelationshipDiffElement :=
  paths ← parse_relationship_paths (row_nodes row) branch (da_name (rrow_rel row));
  Ok (mkRelationshipDiffElement branch (da_uuid (rrow_rel row)) (da_element (rrow_rel row)) (da_name (rrow_rel row))
        action (row_nodes row) [] changed_at paths.1 paths.2).

(** The relationships added or removed, and [rel_ids_to_query]. *)
Definition process_relationship_row (acc : Results * list string) (row : RelationshipRow) :
    result (Results * list string) :=
  let '(results, rel_ids_to_query) := acc in
  let r1 := rrow_r1 row in
  let rel_id := da_uuid (rrow_rel row) in
  let '(action, ids) := match edge_status r1 with
    | RelationshipStatus.ACTIVE => (DiffAction.ADDED, rel_ids_to_query)
    | RelationshipStatus.DELETED => (DiffAction.REMOVED, rel_ids_to_query ++ [rel_id])
    end in
  rel ← new_relationship (edge_branch r1) row action (Some (edge_from r1));
  Ok (set_rel results (edge_branch r1) (da_name (rrow_rel row)) rel_id rel, ids).

(** The relationships of which only the properties changed. *)
Definition process_updated_relationship (acc : Results * list string) (prow : RelationshipPropertyRow) :
    result (Results * list string) :=
  let '(results, rel_ids_to_query) := acc in
  let row := prow_row prow in
  let branch := edge_branch (prow_r3 prow) in
  let rel_id := da_uuid (rrow_rel row) in
  if dict_mem (branch_rels results branch (da_name (rrow_rel row))) rel_id then Ok acc
  else
    rel ← new_relationship branch row DiffAction.UPDATED None;
    Ok (set_rel results branch (da_name (rrow_rel row)) rel_id rel, rel_ids_to_query ++ [rel_id]).

Definition process_relationship_property (origins : list OriginRow) (results : Results)
    (prow : RelationshipPropertyRow) : result Results :=
  let r3 := prow_r3 prow in
  let rel_name := da_name (rrow_rel (prow_row prow)) in
  let rel_id := da_uuid (rrow_rel (prow_row prow)) in
  let origin_prop := head (get_results_by_id_and_prop_type branches_in_scope origins rel_id (edge_type r3)) in
  let prop := mkPropertyDiffElement (edge_branch r3) (edge_type r3)
                (property_action (opt_is_some origin_prop) r3) None (prow_rp prow) (edge_id r3)
                (edge_id ∘ orow_r <$> origin_prop)
                (Some (mkValueElement (default JNull (orow_value <$> origin_prop)) (prow_value prow)))
                (Some (edge_from r3)) in
  rel ← require (KeyError rel_id) (dict_get (branch_rels results (edge_branch r3) rel_name) rel_id);
  Ok (set_rel results (edge_branch r3) rel_name rel_id
        (rel <| rel_properties := dict_set (rel_properties rel) (edge_type r3) prop |>)).

Definition _calculated_diff_rels (relationship_rows : list RelationshipRow)
    (property_rows : list RelationshipPropertyRow) (relationship_origins : list string → list OriginRow)
    (results : Results) : result Results :=
  acc ← foldM process_relationship_row (results, []) relationship_rows;
  '(results, rel_ids_to_query) ← foldM process_updated_relationship acc property_rows;
  foldM (process_relationship_property (relationship_origins rel_ids_to_query)) results property_rows.
End calculate.

(** ** Modified paths *)

(** [set.add] on a set of paths *)
Definition path_set_add (paths : list ModifiedPath) (p : ModifiedPath) : list ModifiedPath :=
  if existsb (same_entry p) paths then paths else paths ++ [p].

Section paths.
Context (branch_only : bool) (branch : string).
(** [schema.get(name=kind, branch=branch)], and the display labels of some nodes of a
    kind on a branch. *)
Context (get_schema : string → string → result MainSchema)
        (display_labels : string → string → list string → list (string * string)).

Definition skipped (branch_name : string) : bool :=
  branch_only && negb (bool_decide (branch_name = branch)).

(** *** Nodes *)

Definition node_paths (node_id : string) (node_diff : NodeDiffElement) : list ModifiedPath :=
  mkModifiedPath "data" node_id PathType.NODE (node_kind node_diff) None None None (node_action node_diff) None
  :: ('(attr_name, attr) ← node_attributes node_diff;
      (λ tp, mkModifiedPath "data" node_id PathType.ATTRIBUTE (node_kind node_diff) (Some attr_name)
               (Some tp.1) None (attr_action attr) (prop_value tp.2)) <$> attr_properties attr).

Definition add_branch_nodes (paths : BranchPaths) (bn : string * list (string * NodeDiffElement)) : BranchPaths :=
  let '(branch_name, node_data) := bn in
  if skipped branch_name then paths
  else dict_set paths branch_name
    (foldl path_set_add (default [] (dict_get paths branch_name))
       ('(node_id, node_diff) ← node_data; node_paths node_id node_diff)).

(** *** Relationships *)

(** The paths of the relationships of cardinality one, by node and name, the ids of
    the peers by kind, and the paths of the branch. *)
Record RelationshipPaths := mkRelationshipPaths {
  cardinality_one : list (string * ModifiedPath);
  kind_node : list (string * list string);
  branch_paths : list ModifiedPath;
}.

Definition set_change (f : ValueElement → ValueElement) (p : ModifiedPath) : ModifiedPath :=
  p <| mp_change := f <$> mp_change p |>.

(** The peer written in the change of a relationship of cardinality one. *)
Definition set_peer (action : DiffAction) (peer : string) (p : ModifiedPath) : ModifiedPath :=
  match action with
  | DiffAction.ADDED => set_change (λ v, mkValueElement (previous v) (JStr peer)) p
  | DiffAction.REMOVED => set_change (λ v, mkValueElement (JStr peer) (new v)) p
  | _ => p
  end.
Definition mark_updated (p : ModifiedPath) : ModifiedPath :=
  match mp_change p with
  | Some v => if py_eq (previous v) (new v) then p else p <| mp_action := DiffAction.UPDATED |>
  | None => p
  end.

Definition cardinality_one_path (node_id : string) (schema : MainSchema) (r : RelationshipSchema) : ModifiedPath :=
  mkModifiedPath "data" node_id (path_type_from_relationship (r_cardinality r)) (kind schema) (Some (r_name r))
    None None DiffAction.UNCHANGED (Some (mkValueElement JNull JNull)).

Definition add_cardinality_one (node_id : string) (schema : MainSchema) (r : RelationshipSchema)
    (rel : RelationshipDiffElement) (acc : RelationshipPaths) : RelationshipPaths :=
  let relationship_key := node_id +:+ "/" +:+ r_name r in
  let path := default (cardinality_one_path node_id schema r) (dict_get (cardinality_one acc) relationship_key) in
  let peer_kind := r_peer r in
  let ids := default [] (dict_get (kind_node acc) peer_kind) in
  let '(path, ids) :=
    match (if bool_decide (rel_action rel ∈ [DiffAction.ADDED; DiffAction.REMOVED])
           then get_node_id_by_kind rel peer_kind else None) with
    | Some (String c neighbor_id) =>
        (set_peer (rel_action rel) (String c neighbor_id) path, ids ++ [String c neighbor_id])
    | _ => (path, ids)
    end in
  mkRelationshipPaths (dict_set (cardinality_one acc) relationship_key (mark_updated path))
    (dict_set (kind_node acc) peer_kind ids) (branch_paths acc).

Definition relationship_property_path (node_id neighbor_id : string) (schema : MainSchema)
    (r : RelationshipSchema) (rel : RelationshipDiffElement) (tp : string * PropertyDiffElement) : ModifiedPath :=
  mkModifiedPath "data" node_id (path_type_from_relationship (r_cardinality r)) (kind schema) (Some (r_name r))
    (Some tp.1) (Some neighbor_id) (rel_action rel) (prop_value tp.2).

(** One end of a relationship. *)
Definition add_relationship_node (branch_name rel_name : string) (rel : RelationshipDiffElement)
    (acc : RelationshipPaths) (node_id_node : string * RelationshipEdgeNodeDiffElement) : result RelationshipPaths :=
  let '(node_id, node) := node_id_node in
  neighbor_id ← require IndexError (head (filter (.≠ node_id) (dict_keys (rel_nodes rel))));
  schema ← get_schema (rn_kind node) branch_name;
  Ok (match matching_relationship schema rel_name with
      | Some r =>
          let acc := if decide (r_cardinality r = RelationshipCardinality.ONE)
                     then add_cardinality_one node_id schema r rel acc else acc in
          mkRelationshipPaths (cardinality_one acc) (kind_node acc)
            (foldl path_set_add (branch_paths acc)
               (relationship_property_path node_id neighbor_id schema r rel <$> rel_properties rel))
      | None => acc
      end).

(** The relationships of a branch. *)
Definition add_branch_relationships (branch_name : string)
    (rel_data : list (string * list (string * RelationshipDiffElement))) (paths : list ModifiedPath) :
    result RelationshipPaths :=
  foldM (λ acc rn,
      foldM (λ acc ir, foldM (add_relationship_node branch_name rn.1 ir.2) acc (rel_nodes ir.2)) acc rn.2)
    (mkRelationshipPaths [] [] paths) rel_data.

(** *** Labels *)

(** The label and the kind of the peers, read after all the branches. *)
Definition peer_labels (branch_name : string) (kinds : list (string * list string)) :
    result (list (string * (string * string))) :=
  foldM (λ labels ki,
      _ ← get_schema ki.1 branch_name;
      Ok (foldl (λ labels nl, dict_set labels nl.1 (nl.2, ki.1)) labels (display_labels branch_name ki.1 ki.2)))
    [] kinds.

(** An id is replaced by a dictionary when it has a label. *)
Definition label_peer (labels : list (string * (string * string))) (v : json) : json :=
  match v with
  | JStr id =>
      match dict_get labels id with
      | Some (String c label, k) =>
          JDict [("id", JStr id); ("display_label", JStr (String c label)); ("kind", JStr k)]
      | _ => v
      end
  | _ => v
  end.
Definition label_change (labels : list (string * (string * string))) (p : ModifiedPath) : ModifiedPath :=
  match mp_change p with
  | Some v => if truthy_json (new v) && truthy_json (previous v)
              then p <| mp_change := Some (mkValueElement (label_peer labels (previous v)) (label_peer labels (new v))) |>
              else p
  | None => p
  end.

Definition add_labelled (labels : list (string * (string * string))) (paths : list ModifiedPath)
    (p : ModifiedPath) : list ModifiedPath :=
  let p := label_change labels p in
  if decide (mp_action p = DiffAction.UNCHANGED) then paths else path_set_add paths p.

(** The loops of [get_modified_paths_graph]. *)
Definition modified_paths (nodes : BranchNodes) (relationships : BranchRelationships) : result BranchPaths :=
  let paths := foldl add_branch_nodes [] nodes in
  '(paths, collected) ← foldM (λ acc br,
      let '(paths, collected) := acc in
      let '(branch_name, rel_data) := br in
      if skipped branch_name then Ok acc
      else
        r ← add_branch_relationships branch_name rel_data (default [] (dict_get paths branch_name));
        Ok (dict_set paths branch_name (branch_paths r), collected ++ [(branch_name, r)]))
    (paths, []) relationships;
  foldM (λ paths br,
      let '(branch_name, r) := br in
      labels ← peer_labels branch_name (kind_node r);
      Ok (dict_set paths branch_name
            (foldl (add_labelled labels) (default [] (dict_get paths branch_name)) (dict_values (cardinality_one r)))))
    paths collected.
End paths.

(** ** Conflicts *)

Section conflicts.
Context `{SetOrder}.

Definition branch_change (path branch_name : string) (changes : list (string * ModifiedPath)) :
    result (option BranchChanges) :=
  match dict_get changes path with
  | Some p =>
      change ← require (AttributeError "new") (mp_change p);
      Ok (Some (mkBranchChanges branch_name (mp_action p) (previous change) (new change)))
  | None => Ok None
  end.

Definition data_conflict (branch0 branch1 : string) (changes0 changes1 : list (string * ModifiedPath))
    (p : ModifiedPath) : result DataConflict :=
  c0 ← branch_change (path_str p) branch0 changes0;
  c1 ← branch_change (path_str p) branch1 changes1;
  Ok (mkDataConflict (default "" (mp_element_name p)) (mp_type p) (mp_kind p) (mp_node_id p) (mp_conflict_path p)
        (path_str p) (mp_path_type p) (mp_property_name p) (change_type p) (omap id [c0; c1])).

(** [{str(path): path for path in paths}], over a set *)
Definition by_path (paths : list ModifiedPath) : list (string * ModifiedPath) :=
  dict_of_list ((λ p, (path_str p, p)) <$> set_list paths).

(** [paths[branches[0]] & paths[branches[1]]] *)
Definition common_paths (paths0 paths1 : list ModifiedPath) : list ModifiedPath :=
  filter (λ p, existsb (same_entry p) paths1 = true) paths0.

(** The conflicts between the paths of the first two branches. *)
Definition conflicts_of (paths : BranchPaths) : result (list DataConflict) :=
  match paths with
  | (branch0, paths0) :: (branch1, paths1) :: _ =>
      mapM (data_conflict branch0 branch1 (by_path paths0) (by_path paths1)) (set_list (common_paths paths0 paths1))
  | _ => Ok []
  end.
End conflicts.

(** ** Files *)

Record FilesReply := mkFilesReply {
  files_changed : list string;
  files_added : list string;
  files_removed : list string;
}.

Section files.
Context `{SetOrder}.
(** The reply to [GitDiffNamesOnly] for a repository between two commits. *)
Context (rpc : string → string → string → result FilesReply).

Definition get_files_repository (branch_name repository commit_from commit_to : string) :
    result (list FileDiffElement) :=
  diff ← rpc repository commit_from commit_to;
  let elements action names :=
    (λ filename, mkFileDiffElement branch_name filename repository action commit_from commit_to) <$> names in
  Ok (elements DiffAction.UPDATED (files_changed diff) ++ elements DiffAction.ADDED (files_added diff)
      ++ elements DiffAction.REMOVED (files_removed diff)).

(** The repositories with their commit, when they have one. *)
Definition get_files_repositories_for_branch (branch_name : string) (repos_to repos_from : list (string * option string)) :
    result (list FileDiffElement) :=
  let repos_to := dict_of_list repos_to in
  let repos_from := dict_of_list repos_from in
  let repo_ids_common := set_list (set_inter (dict_keys repos_to) (dict_keys repos_from)) in
  responses ← mapM (λ repo_id,
      let commit_to := mjoin (dict_get repos_to repo_id) in
      let commit_from := mjoin (dict_get repos_from repo_id) in
      if decide (commit_to = commit_from) then Ok []
      else
        first_commit ← require (ValidationError "first_commit") commit_from;
        second_commit ← require (ValidationError "second_commit") commit_to;
        get_files_repository branch_name repo_id first_commit second_commit)
    repo_ids_common;
  Ok (mjoin responses).
End files.

(** ** The object *)

Record BranchDiffer := mkBranchDiffer {
  bd_branch : Branch;
  bd_origin_branch : option Branch;
  bd_branch_only : bool;
  bd_diff_from : Z;
  bd_diff_to : Z;
  bd_results : Results;
  bd_calculated_diff_nodes : bool;
  bd_calculated_diff_rels : bool;
  bd_calculated_diff_files : bool;
}.
#[export] Instance BranchDiffer_rebuild : Rebuild BranchDiffer := λ d,
  mkBranchDiffer (bd_branch d) (bd_origin_branch d) (bd_branch_only d) (bd_diff_from d) (bd_diff_to d)
    (bd_results d) (bd_calculated_diff_nodes d) (bd_calculated_diff_rels d) (bd_calculated_diff_files d).

(** [__init__] at the time [now]. *)
Definition new_differ (now : Z) (branch : Branch) (origin_branch : option Branch) (branch_only : bool)
    (diff_from diff_to : option Z) : result BranchDiffer :=
  raise_if (negb (opt_is_some diff_from) && b_is_default branch) DiffFromRequiredOnDefaultBranchError;;
  let diff_from := default (b_created_at branch) diff_from in
  let diff_to := default now diff_to in
  raise_if (bool_decide (diff_to < diff_from)%Z) DiffRangeValidationError;;
  Ok (mkBranchDiffer branch origin_branch branch_only diff_from diff_to [] false false false).

(** [init] *)
Definition init (registry : Registry) (default_branch : string) (now : Z) (branch : Branch) (branch_only : bool)
    (diff_from diff_to : option Z) : result BranchDiffer :=
  origin_branch ← get_origin_branch registry default_branch branch;
  new_differ now branch origin_branch branch_only diff_from diff_to.

(** The rows of the queries of an object, and the repositories of a branch at the
    end and at the beginning of the difference. *)
Record DiffQueries := mkDiffQueries {
  q_nodes : list NodeRow;
  q_attributes : list AttributeRow;
  q_attribute_origins : list string → list OriginRow;
  q_relationships : list RelationshipRow;
  q_relationship_properties : list RelationshipPropertyRow;
  q_relationship_origins : list string → list OriginRow;
  q_repos_to : string → list (string * option string);
  q_repos_from : string → list (string * option string);
}.

Section differ.
Context `{SetOrder}.
Context (queries : DiffQueries) (default_branch : string)
        (get_schema : string → string → result MainSchema)
        (display_labels : string → string → list string → list (string * string))
        (rpc : string → string → string → result FilesReply).

Definition in_scope (d : BranchDiffer) : list string := get_branches_in_scope default_branch (bd_branch d).

(** The part of the results that a getter returns. *)
Definition select {A} (d : BranchDiffer) (f : BranchResults → A) : list (string * A) :=
  (λ br, (br.1, f br.2)) <$>
    filter (λ br, bd_branch_only d = false ∨ br.1 = b_name (bd_branch d)) (bd_results d).

Definition get_nodes (d : BranchDiffer) : result (BranchNodes * BranchDiffer) :=
  d ← (if bd_calculated_diff_nodes d then Ok d
       else
         results ← _calculate_diff_nodes (bd_diff_from d) (bd_diff_to d) (in_scope d) (q_nodes queries)
                     (q_attributes queries) (q_attribute_origins queries) (bd_results d);
         Ok (d <| bd_results := results |> <| bd_calculated_diff_nodes := true |>));
  Ok (select d res_nodes, d).

Definition get_relationships (d : BranchDiffer) : result (BranchRelationships * BranchDiffer) :=
  d ← (if bd_calculated_diff_rels d then Ok d
       else
         results ← _calculated_diff_rels (bd_diff_from d) (in_scope d) get_schema (q_relationships queries)
                     (q_relationship_properties queries) (q_relationship_origins queries) (bd_results d);
         Ok (d <| bd_results := results |> <| bd_calculated_diff_rels := true |>));
  Ok (select d res_rels, d).

Definition _calculated_diff_files (d : BranchDiffer) : result BranchDiffer :=
  let add results branch :=
    files ← get_files_repositories_for_branch rpc (b_name branch)
              (q_repos_to queries (b_name branch)) (q_repos_from queries (b_name branch));
    Ok (dict_set results (b_name branch) ((branch_results results (b_name branch)) <| res_files := files |>)) in
  results ← add (bd_results d) (bd_branch d);
  results ← match bd_origin_branch d with Some origin => add results origin | None => Ok results end;
  Ok (d <| bd_results := results |> <| bd_calculated_diff_files := true |>).
Definition get_files (d : BranchDiffer) : result (list (string * list FileDiffElement) * BranchDiffer) :=
  d ← (if bd_calculated_diff_files d then Ok d else _calculated_diff_files d);
  Ok (select d res_files, d).

(** *** Regrouped by node *)

Definition get_relationships_per_node (d : BranchDiffer) :
    result (list (string * list (string * list (string * list RelationshipDiffElement))) * BranchDiffer) :=
  '(rels, d) ← get_relationships d;
  Ok (foldl (λ acc br,
        foldl (λ acc rel,
          foldl (λ acc node_id,
              let per_node := default [] (dict_get acc br.1) in
              dict_set acc br.1 (dict_set per_node node_id
                (dict_append (default [] (dict_get per_node node_id)) (rel_name rel) rel)))
            acc (dict_keys (rel_nodes rel)))
          acc (item ← dict_values br.2; dict_values item))
      [] rels, d).

Definition add_node_id (acc : list (string * list (string * list string))) (branch_kind_id : string * string * string) :=
  let '(branch_name, kind, node_id) := branch_kind_id in
  let by_kind := default [] (dict_get acc branch_name) in
  let ids := default [] (dict_get by_kind kind) in
  dict_set acc branch_name (dict_set by_kind kind (if decide (node_id ∈ ids) then ids else ids ++ [node_id])).

Definition get_node_id_per_kind (d : BranchDiffer) : result (list (string * list (string * list string)) * BranchDiffer) :=
  '(rels, d) ← get_relationships d;
  '(nodes, d) ← get_nodes d;
  let of_rels := br ← rels; item ← dict_values br.2; rel ← dict_values item;
                 (λ n, (br.1, rn_kind n.2, n.1)) <$> rel_nodes rel in
  let of_nodes := br ← nodes; (λ n, (br.1, node_kind n, node_id n)) <$> dict_values br.2 in
  Ok (foldl add_node_id (foldl add_node_id [] of_rels) of_nodes, d).

(** *** Summaries *)

Abbreviation Changes := (list (string * list (string * DiffSummaryElement))).

Definition summarise_node (branch_name : string) (changes : list (string * DiffSummaryElement))
    (nd : string * NodeDiffElement) : list (string * DiffSummaryElement) :=
  let '(node_id, node_diff) := nd in
  let element := default (mkDiffSummaryElement branch_name node_id (node_kind node_diff) [node_action node_diff])
                   (dict_get changes node_id) in
  let element := if decide (node_action node_diff ∈ sum_actions element) then element
                 else element <| sum_actions := sum_actions element ++ [node_action node_diff] |> in
  dict_set changes node_id element.

Definition summarise_rel_node (branch_name : string) (changes : list (string * DiffSummaryElement))
    (n : RelationshipEdgeNodeDiffElement) : list (string * DiffSummaryElement) :=
  if dict_mem changes (rn_id n) then changes
  else dict_set changes (rn_id n) (mkDiffSummaryElement branch_name (rn_id n) (rn_kind n) [DiffAction.UPDATED]).

Definition summaries (nodes : BranchNodes) (relationships : BranchRelationships) : Changes :=
  let changes := foldl (λ changes br,
    dict_set changes br.1 (foldl (summarise_node br.1) (default [] (dict_get changes br.1)) br.2)) [] nodes in
  foldl (λ changes br,
    dict_set changes br.1
      (foldl (summarise_rel_node br.1) (default [] (dict_get changes br.1))
         (item ← dict_values br.2; rel ← dict_values item; dict_values (rel_nodes rel)))) changes relationships.

Definition get_summaries_by_branch_and_id (d : BranchDiffer) : result (Changes * BranchDiffer) :=
  '(nodes, d) ← get_nodes d;
  '(relationships, d) ← get_relationships d;
  Ok (summaries nodes relationships, d).

Definition get_summary (d : BranchDiffer) : result (list DiffSummaryElement * BranchDiffer) :=
  '(changes, d) ← get_summaries_by_branch_and_id d;
  Ok (branch_diff ← dict_values changes; dict_values branch_diff, d).

Definition get_schema_summary (d : BranchDiffer) : result (list (string * list DiffSummaryElement) * BranchDiffer) :=
  '(summary, d) ← get_summary d;
  Ok (foldl (λ acc element, dict_append acc (sum_branch element) element) []
        (filter (λ element, String.prefix "Schema" (sum_kind element) = true) summary), d).

Definition has_schema_changes (branch : option string) (d : BranchDiffer) : result (bool * BranchDiffer) :=
  '(schema_summary, d) ← get_schema_summary d;
  Ok (match branch with
      | Some (String c b) => dict_mem schema_summary (String c b)
      | _ => negb (bool_decide (schema_summary = []))
      end, d).

(** *** Paths and conflicts *)

Definition get_modified_paths_graph (d : BranchDiffer) : result (BranchPaths * BranchDiffer) :=
  '(nodes, d) ← get_nodes d;
  '(relationships, d) ← get_relationships d;
  paths ← modified_paths (bd_branch_only d) (b_name (bd_branch d)) get_schema display_labels
            nodes relationships;
  Ok (paths, d).

Definition get_conflicts_graph (d : BranchDiffer) : result (list DataConflict * BranchDiffer) :=
  if bd_branch_only d then Ok ([], d)
  else
    '(paths, d) ← get_modified_paths_graph d;
    conflicts ← conflicts_of paths;
    Ok (conflicts, d).

Definition has_conflict (d : BranchDiffer) : result (bool * BranchDiffer) :=
  '(conflicts, d) ← get_conflicts_graph d;
  Ok (truthy_list (Some conflicts), d).
End differ.

(** ** Rows sorted by time: lemmas *)

Lemma sort_results_pairs (results : list OriginRow) id row :
  (id, row) ∈ py_sorted_by fst (dict_of_list ((λ row, (record_id (orow_r row), row)) <$> results)) ↔
  dict_get (dict_of_list ((λ row, (record_id (orow_r row), row)) <$> results)) id = Some row.
Proof.
  rewrite py_sorted_by_perm. split; [|apply dict_get_Some_in].
  apply dict_get_in, NoDup_dict_of_list.
Qed.

Lemma sort_results_elem (results : list OriginRow) row :
  row ∈ sort_results_by_time results ↔
  ∃ l1 l2, results = l1 ++ row :: l2 ∧ ∀ r, r ∈ l2 → record_id (orow_r r) ≠ record_id (orow_r row).
Proof.
  unfold sort_results_by_time. rewrite list_elem_of_fmap. split.
  - intros ([id row'] & -> & Hin). cbn. apply sort_results_pairs in Hin.
    apply dict_get_of_list_last in Hin as (l1 & l2 & Hl & Hlast).
    apply fmap_app_inv in Hl as (r1 & r2 & -> & H2 & ->). symmetry in H2.
    destruct r2 as [|r r2]; [done|]. injection H2 as <- -> <-.
    exists r1, r2. split; [done|]. intros r' Hr'.
    apply (Hlast (record_id (orow_r r'), r')). apply list_elem_of_fmap. by exists r'.
  - intros (l1 & l2 & -> & Hlast). exists (record_id (orow_r row), row). split; [done|].
    apply sort_results_pairs, dict_get_of_list_last. rewrite fmap_app. cbn.
    eexists _, _. split; [done|]. intros kv (r & -> & Hr)%list_elem_of_fmap. by apply Hlast.
Qed.

Lemma strictly_sorted_values {V} (f : V → Z) (l : list (Z * V)) :
  StronglySorted (key_le fst) l → NoDup l.*1 → (∀ kv, kv ∈ l → kv.1 = f kv.2) →
  StronglySorted (λ x y, (f x < f y)%Z) l.*2.
Proof.
  induction l as [|[k v] l IH]; cbn; intros Hs Hnd Hf; [constructor|].
  apply StronglySorted_inv in Hs as [Hs Hle]. apply NoDup_cons in Hnd as [Hk Hnd].
  constructor; [apply IH; auto; intros; apply Hf; by right|].
  apply Forall_fmap, Forall_forall. intros [k' v'] Hin. rewrite Forall_forall in Hle.
  specialize (Hle _ Hin). unfold key_le in Hle. cbn in *.
  pose proof (Hf (k', v') ltac:(by right)) as Hf'. pose proof (Hf (k, v) ltac:(by left)) as Hf0. cbn in *. subst.
  assert (f v ≠ f v'). { intros Heq. apply Hk. rewrite Heq. apply list_elem_of_fmap. by exists (f v', v'). }
  lia.
Qed.

(** The results of the query of the original properties come out sorted by the
    identifier made of the time of their last action, strictly: of the rows with the
    same identifier (the last action in the same second) only the last one is kept. *)
Theorem sort_results_spec (results : list OriginRow) :
  StronglySorted (λ x y, (record_id (orow_r x) < record_id (orow_r y))%Z) (sort_results_by_time results) ∧
  ∀ row, row ∈ sort_results_by_time results ↔
    ∃ l1 l2, results = l1 ++ row :: l2 ∧ ∀ r, r ∈ l2 → record_id (orow_r r) ≠ record_id (orow_r row).
Proof.
  split; [|intros row; apply sort_results_elem]. unfold sort_results_by_time.
  apply strictly_sorted_values with (f := λ row, record_id (orow_r row)).
  - apply py_sorted_by_sorted.
  - rewrite py_sorted_by_perm. apply NoDup_dict_of_list.
  - intros [id row] (l1 & l2 & Hl & _)%sort_results_pairs%dict_get_of_list_last.
    assert ((id, row) ∈ (λ row, (record_id (orow_r row), row)) <$> results) as Hin by (rewrite Hl; set_solver).
    by apply list_elem_of_fmap in Hin as (r & [= -> ->] & _).
Qed.

(** ** Conflicts: lemmas *)

(** The modification types are only compared when they are equal. *)
Definition conflicting (p p' : ModifiedPath) : Prop :=
  mp_hash_key p = mp_hash_key p' ∧ mp_action p ≠ DiffAction.REMOVED ∧
  (mp_action p = DiffAction.UPDATED → modification_type p = "element").

Lemma hash_key_path p p' : mp_hash_key p = mp_hash_key p' → path_str p = path_str p' ∧ mp_action p = mp_action p'.
Proof. destruct p, p'. unfold mp_hash_key, path_str, _path. cbn. intros [=]; subst. done. Qed.

Lemma modification_type_cases p : modification_type p = "element" ∨ modification_type p = "node".
Proof. unfold modification_type. destruct (truthy_str _); auto. Qed.

Lemma same_entry_spec p p' : same_entry p p' = true ↔ conflicting p p'.
Proof.
  unfold same_entry, conflicting. rewrite andb_true_iff, bool_decide_eq_true.
  split; intros [Hk Hr]; (split; [done|]); revert Hr; unfold mp_eq;
    (assert (modification_type p = modification_type p' ∧ mp_type p = mp_type p' ∧ mp_node_id p = mp_node_id p'
      ∧ mp_action p = mp_action p') as (Hm & Ht & Hn & Ha)
      by (revert Hk; destruct p, p'; unfold modification_type, mp_hash_key; cbn; intros [=]; by subst));
    rewrite Hm, Ht, Hn, Ha, (bool_decide_true (mp_type p' = _)), (bool_decide_true (mp_node_id p' = _)) by done;
    destruct (modification_type_cases p') as [-> | ->], (mp_action p'); clear; vm_compute; intuition congruence.
Qed.

Lemma elem_of_common_paths p paths0 paths1 :
  p ∈ common_paths paths0 paths1 ↔ p ∈ paths0 ∧ ∃ p', p' ∈ paths1 ∧ conflicting p p'.
Proof.
  unfold common_paths. rewrite list_elem_of_filter, existsb_exists. setoid_rewrite <-list_elem_of_In.
  setoid_rewrite same_entry_spec. tauto.
Qed.

Lemma by_path_elem `{SetOrder} paths p : p ∈ paths →
  ∃ q, q ∈ paths ∧ path_str q = path_str p ∧ dict_get (by_path paths) (path_str p) = Some q.
Proof.
  intros Hp. rewrite <-(set_list_perm paths) in Hp.
  assert (is_Some (dict_get (by_path paths) (path_str p))) as [q Hq].
  { apply dict_get_is_Some, dict_of_list_keys. rewrite <-list_fmap_compose. apply list_elem_of_fmap. by exists p. }
  exists q. pose proof Hq as (l1 & l2 & Hl & _)%dict_get_of_list_last.
  assert ((path_str p, q) ∈ (λ p, (path_str p, p)) <$> set_list paths) as Hin by (rewrite Hl; set_solver).
  apply list_elem_of_fmap in Hin as (r & [= Hpath ->] & Hr). by rewrite set_list_perm in Hr.
Qed.

Lemma mapM_ok_spec {A B C} (f : A → result B) (g : B → C) (h : A → C) (P : B → Prop) (l : list A) :
  (∀ x, x ∈ l → ∃ y, f x = Ok y ∧ g y = h x ∧ P y) →
  ∃ ys, mapM f l = Ok ys ∧ g <$> ys = h <$> l ∧ Forall P ys.
Proof.
  induction l as [|x l IH]; intros Hf; [by exists []|].
  destruct (Hf x) as (y & Hy & Hg & HP); [by left|].
  destruct IH as (ys & Hys & Hgs & HPs); [intros; apply Hf; by right|].
  exists (y :: ys). cbn. rewrite Hy. cbn. rewrite Hys. cbn. split; [done|]. split; [by rewrite Hg, Hgs|by constructor].
Qed.

Lemma branch_change_elem `{SetOrder} paths p branch (c : ModifiedPath) :
  p ∈ paths → path_str p = path_str c →
  (∀ q, q ∈ paths → path_str q = path_str c → is_Some (mp_change q)) →
  ∃ q v, q ∈ paths ∧ path_str q = path_str c ∧ mp_change q = Some v ∧
    branch_change (path_str c) branch (by_path paths) =
      Ok (Some (mkBranchChanges branch (mp_action q) (previous v) (new v))).
Proof.
  intros Hp Hpath Hchange. destruct (by_path_elem paths p Hp) as (q & Hq & Hqp & Hget).
  destruct (Hchange q Hq) as [v Hv]; [congruence|]. exists q, v. split_and!; [done|congruence|done|].
  unfold branch_change. rewrite <-Hpath, Hget, Hv. done.
Qed.

(** C24: The conflicts between two branches are the paths that both branches modified
    in the same way: same kind of element, property, peer and action, the action not
    being a removal, nor the update of a node as a whole.  Each of these paths gives
    one conflict, with the change made by each of the two branches, in their order;
    the computation succeeds when all the changes at these paths have a value. *)
Theorem conflicts_spec `{SetOrder} branch0 branch1 paths0 paths1 rest :
  (∀ p q, p ∈ common_paths paths0 paths1 → q ∈ paths0 ++ paths1 → path_str q = path_str p → is_Some (mp_change q)) →
  ∃ conflicts, conflicts_of ((branch0, paths0) :: (branch1, paths1) :: rest) = Ok conflicts ∧
    (∀ path, path ∈ conflict_full_path <$> conflicts ↔
       ∃ p p', p ∈ paths0 ∧ p' ∈ paths1 ∧ conflicting p p' ∧ path_str p = path) ∧
    length conflicts = length (common_paths paths0 paths1) ∧
    Forall (λ c, bc_branch <$> conflict_changes c = [branch0; branch1]) conflicts.
Proof.
  intros Hchange.
  destruct (mapM_ok_spec (data_conflict branch0 branch1 (by_path paths0) (by_path paths1)) conflict_full_path path_str
    (λ c, bc_branch <$> conflict_changes c = [branch0; branch1]) (set_list (common_paths paths0 paths1)))
    as (conflicts & Hc & Hpath & Hbr).
  - intros p Hp. rewrite set_list_perm in Hp. pose proof Hp as (Hp0 & p' & Hp1 & Hpp')%elem_of_common_paths.
    destruct (hash_key_path p p') as [Heq _]; [apply Hpp'|].
    destruct (branch_change_elem paths0 p branch0 p) as (q0 & v0 & _ & _ & _ & H0); [done..| |].
    { intros q Hq. apply Hchange; set_solver. }
    destruct (branch_change_elem paths1 p' branch1 p) as (q1 & v1 & _ & _ & _ & H1); [done..| |].
    { intros q Hq. apply Hchange; set_solver. }
    unfold data_conflict. rewrite H0. cbn. rewrite H1. by eexists.
  - exists conflicts. split; [done|]. split; [|split; [|done]].
    + intros path. rewrite Hpath, list_elem_of_fmap. setoid_rewrite set_list_perm.
      setoid_rewrite elem_of_common_paths. naive_solver.
    + apply (f_equal length) in Hpath. by rewrite !length_fmap, set_list_perm in Hpath.
Qed.

(** Two branches that modify the same paths by different actions have no
    conflict: an attribute updated on a branch and removed on the other is not
    reported. *)
Theorem different_actions_no_conflict `{SetOrder} branch0 branch1 paths0 paths1 rest :
  (∀ p p', p ∈ paths0 → p' ∈ paths1 → path_str p = path_str p' → mp_action p ≠ mp_action p') →
  conflicts_of ((branch0, paths0) :: (branch1, paths1) :: rest) = Ok [].
Proof.
  intros Hdiff. assert (common_paths paths0 paths1 = []) as Hnil.
  { apply elem_of_nil_inv. intros p (Hp & p' & Hp' & Hk & _)%elem_of_common_paths.
    destruct (hash_key_path p p' Hk). by eapply Hdiff. }
  cbn. rewrite Hnil. destruct (set_list []) as [|x l] eqn:Hl; [done|].
  pose proof (set_list_perm (A := ModifiedPath) []) as Hperm. rewrite Hl in Hperm.
  by apply Permutation_nil_r in Hperm.
Qed.

(** *** Witnesses *)

Definition updated_path (action : DiffAction) (value : string) : ModifiedPath :=
  mkModifiedPath "data" "n1" PathType.ATTRIBUTE "TestCar" (Some "name") (Some "HAS_VALUE") None action
    (Some (mkValueElement (JStr "old") (JStr value))).

Lemma conflicts_spec_witness :
  let _ := insertion_order in
  let paths0 := [updated_path DiffAction.UPDATED "a"] in
  let paths1 := [updated_path DiffAction.UPDATED "b"] in
  ∃ conflicts, conflicts_of [("main", paths0); ("dev", paths1)] = Ok conflicts ∧
    (∀ path, path ∈ conflict_full_path <$> conflicts ↔
       ∃ p p', p ∈ paths0 ∧ p' ∈ paths1 ∧ conflicting p p' ∧ path_str p = path) ∧
    length conflicts = length (common_paths paths0 paths1) ∧
    Forall (λ c, bc_branch <$> conflict_changes c = ["main"; "dev"]) conflicts.
Proof.
  intros o paths0 paths1. apply (conflicts_spec (H := o) "main" "dev" paths0 paths1 []).
  intros p q _ Hq _. apply elem_of_app in Hq as [Hq|Hq]; apply list_elem_of_singleton in Hq; subst; eexists; done.
Defined.

Lemma different_actions_no_conflict_witness :
  path_str (updated_path DiffAction.UPDATED "a") = path_str (updated_path DiffAction.REMOVED "b") ∧
  conflicts_of (H := insertion_order)
    [("main", [updated_path DiffAction.UPDATED "a"]); ("dev", [updated_path DiffAction.REMOVED "b"])] = Ok [].
Proof.
  split; [done|]. apply (different_actions_no_conflict (H := insertion_order)).
  intros p p' ->%list_elem_of_singleton ->%list_elem_of_singleton _. done.
Defined.

(** ** The nodes of the difference: lemmas *)

Section node_lemmas.
Context (diff_from diff_to : Z) (branches_in_scope : list string).

Definition node_at (results : Results) (branch id : string) : option NodeDiffElement :=
  dict_get (branch_nodes results branch) id.
Definition attributes_at (results : Results) (branch id : string) : list string :=
  match node_at results branch id with Some n => dict_keys (node_attributes n) | None => [] end.

Lemma node_at_set_nodes results branch nodes branch' id' :
  node_at (set_nodes results branch nodes) branch' id' =
  if decide (branch = branch') then dict_get nodes id' else node_at results branch' id'.
Proof.
  unfold node_at, set_nodes, branch_nodes, branch_results. rewrite dict_get_set. by case_decide.
Qed.
Lemma node_at_twice results branch nodes nodes' branch' id' :
  node_at (set_nodes (set_nodes results branch nodes) branch nodes') branch' id' =
  node_at (set_nodes results branch nodes') branch' id'.
Proof. rewrite !node_at_set_nodes. by case_decide. Qed.
Lemma node_at_set results branch id n branch' id' :
  node_at (set_nodes results branch (dict_set (branch_nodes results branch) id n)) branch' id' =
  if decide (branch = branch' ∧ id = id') then Some n else node_at results branch' id'.
Proof.
  rewrite node_at_set_nodes, dict_get_set. repeat case_decide; subst; tauto || done.
Qed.
Lemma node_at_eq results branch id n :
  node_at (set_nodes results branch (dict_set (branch_nodes results branch) id n)) branch id = Some n.
Proof. by rewrite node_at_set, decide_True. Qed.
Lemma node_at_ne results branch id n branch' id' : ¬ (branch = branch' ∧ id = id') →
  node_at (set_nodes results branch (dict_set (branch_nodes results branch) id n)) branch' id' = node_at results branch' id'.
Proof. intros. by rewrite node_at_set, decide_False. Qed.

(** *** The nodes added or removed *)

Definition of_node (branch id : string) (row : NodeRow) : Prop :=
  edge_branch (nrow_r row) = branch ∧ db_uuid (nrow_n row) = id ∧ ended diff_to (nrow_r row) = false.
#[export] Instance of_node_dec branch id row : Decision (of_node branch id row).
Proof. unfold of_node. apply _. Defined.

Definition status_action (s : RelationshipStatus) : DiffAction :=
  match s with RelationshipStatus.ACTIVE => DiffAction.ADDED | RelationshipStatus.DELETED => DiffAction.REMOVED end.

Lemma filter_snoc {A} (P : A → Prop) `{∀ x, Decision (P x)} l x :
  filter P (l ++ [x]) = filter P l ++ if decide (P x) then [x] else [].
Proof. by rewrite filter_app. Qed.

Lemma node_rows_spec rows branch id :
  let results := foldl (process_node_row diff_to) [] rows in
  node_action <$> node_at results branch id =
    (λ row, status_action (edge_status (nrow_r row))) <$> last (filter (of_node branch id) rows) ∧
  attributes_at results branch id = [].
Proof.
  cbn. induction rows as [|row rows IH] using rev_ind; [done|].
  rewrite foldl_snoc, filter_snoc. unfold process_node_row at 1 3.
  destruct (ended diff_to (nrow_r row)) eqn:He.
  - rewrite decide_False by (unfold of_node; rewrite He; naive_solver). by rewrite app_nil_r.
  - unfold attributes_at in *. rewrite node_at_set. case_decide as Hd; cbn.
    + rewrite decide_True by (unfold of_node; rewrite He; naive_solver). rewrite last_snoc. done.
    + rewrite decide_False by (unfold of_node; rewrite He; naive_solver). by rewrite app_nil_r.
Qed.

(** *** The attributes *)

Definition of_owner (branch id : string) (row : AttributeRow) : Prop :=
  edge_branch (arow_r2 row) = branch ∧ db_uuid (arow_n row) = id.
#[export] Instance of_owner_dec branch id row : Decision (of_owner branch id row).
Proof. unfold of_owner. apply _. Defined.
(** A row that creates the attribute [name] of a node. *)
Definition of_attribute (branch id name : string) (row : AttributeRow) : Prop :=
  of_owner branch id row ∧ da_name (arow_a row) = name ∧ ended diff_to (arow_r1 row) = false.

Lemma attribute_row_step results attrs row branch id :
  let results' := (process_attribute_row diff_from diff_to (results, attrs) row).1 in
  node_action <$> node_at results' branch id =
    (if decide (of_owner branch id row) then Some (default DiffAction.UPDATED (node_action <$> node_at results branch id))
     else node_action <$> node_at results branch id) ∧
  ∀ name, name ∈ attributes_at results' branch id ↔
    name ∈ attributes_at results branch id ∨ of_attribute branch id name row.
Proof.
  cbn zeta. unfold process_attribute_row, attributes_at.
  set (b := edge_branch (arow_r2 row)). set (u := db_uuid (arow_n row)).
  set (node := default _ _).
  assert (node_action node = default DiffAction.UPDATED (node_action <$> node_at results b u)) as Hact.
  { subst node. unfold node_at. by destruct (dict_get _ _). }
  assert (dict_keys (node_attributes node) = attributes_at results b u) as Hkeys.
  { subst node. unfold attributes_at, node_at. by destruct (dict_get _ _). }
  destruct (dict_mem _ _ || _) eqn:Hskip; [|destruct (attribute_action _ _ _)]; cbn [fst].
  all: rewrite ?node_at_twice; destruct (decide (of_owner branch id row)) as [[<- <-]|Hne];
    [rewrite !node_at_eq|rewrite !node_at_ne by exact Hne; split; [done|];
     intros name; split; [by left|intros [?|[? _]]; done]].
  - cbn. split; [by rewrite Hact|]. intros name. fold (attributes_at results b u). rewrite Hkeys.
    split; [by left|]. intros [?|([_ _] & <- & He)]; [done|].
    apply orb_true_iff in Hskip as [Hm|Hm]; [|congruence]. by rewrite <-Hkeys, <-dict_mem_spec.
  - apply orb_false_iff in Hskip as [_ He].
    cbn. split; [by rewrite Hact|]. intros name. fold (attributes_at results b u).
    rewrite elem_of_dict_keys_set, Hkeys. unfold of_attribute, of_owner. subst b u. naive_solver.
Qed.

Lemma attribute_rows_spec results attrs rows branch id :
  let results' := (foldl (process_attribute_row diff_from diff_to) (results, attrs) rows).1 in
  node_action <$> node_at results' branch id =
    match node_action <$> node_at results branch id with
    | Some action => Some action
    | None => if decide (Exists (of_owner branch id) rows) then Some DiffAction.UPDATED else None
    end ∧
  ∀ name, name ∈ attributes_at results' branch id ↔
    name ∈ attributes_at results branch id ∨ ∃ row, row ∈ rows ∧ of_attribute branch id name row.
Proof.
  cbn zeta. induction rows as [|row rows IH] using rev_ind; cbn [foldl fst].
  { split; [destruct (node_action <$> _); [done|by rewrite decide_False by (by intros ?%Exists_nil)]|].
    intros name. split; [by left|]. intros [?|(row & []%elem_of_nil & _)]; done. }
  rewrite foldl_snoc. destruct (foldl _ _ _) as [results' attrs'] eqn:Hf. cbn [fst] in IH.
  destruct IH as [IHa IHk]. destruct (attribute_row_step results' attrs' row branch id) as [Ha Hk]. split.
  - rewrite Ha, IHa. destruct (node_action <$> node_at results branch id); cbn; [by case_decide|].
    destruct (decide (Exists _ (rows ++ [row]))) as [He|He], (decide (Exists _ rows)) as [He'|He'];
      rewrite Exists_app, Exists_cons, Exists_nil in He; case_decide; cbn; tauto || done.
  - intros name. rewrite Hk, IHk. setoid_rewrite elem_of_app. setoid_rewrite list_elem_of_singleton. naive_solver.
Qed.

(** *** The properties of the attributes *)

Lemma property_row_step origins results row :
  match process_property_row diff_from diff_to branches_in_scope origins results row with
  | Ok results' =>
      (ended diff_to (arow_r2 row) = false →
         da_name (arow_a row) ∈ attributes_at results (edge_branch (arow_r2 row)) (db_uuid (arow_n row))) ∧
      ∀ branch id, node_action <$> node_at results' branch id = node_action <$> node_at results branch id ∧
        ∀ name, name ∈ attributes_at results' branch id ↔ name ∈ attributes_at results branch id
  | Err e =>
      (∃ key, e = KeyError key) ∧ ended diff_to (arow_r2 row) = false ∧
      da_name (arow_a row) ∉ attributes_at results (edge_branch (arow_r2 row)) (db_uuid (arow_n row))
  end.
Proof.
  unfold process_property_row. destruct (ended _ _); [split; [done|]; split; done|].
  set (b := edge_branch (arow_r2 row)). set (u := db_uuid (arow_n row)). set (a := da_name (arow_a row)).
  fold (node_at results b u).
  destruct (node_at results b u) as [node|] eqn:Hnode;
    (assert (attributes_at results b u = match node_at results b u with
       Some n => dict_keys (node_attributes n) | None => [] end) as -> by done); rewrite Hnode;
    unfold mbind, result_bind; cbn [require]; [|split; [by eexists|split; [done|apply not_elem_of_nil]]].
  destruct (dict_get (node_attributes node) a) as [attr|] eqn:Hattr; cbn [require];
    [|split; [by eexists|split; [done|by apply dict_get_None]]].
  assert (a ∈ dict_keys (node_attributes node)) as Ha by (apply dict_get_is_Some; by eexists).
  split; [done|]. intros branch id. unfold attributes_at. rewrite node_at_set.
  case_decide as Hd; [destruct Hd as [<- <-]; rewrite Hnode; cbn|done].
  split; [done|]. intros name. rewrite elem_of_dict_keys_set. naive_solver.
Qed.

(** A property row needs the attribute that an earlier row created. *)
Definition row_attribute_in (results : Results) (row : AttributeRow) : Prop :=
  ended diff_to (arow_r2 row) = false →
  da_name (arow_a row) ∈ attributes_at results (edge_branch (arow_r2 row)) (db_uuid (arow_n row)).

Lemma property_rows_spec origins rows results :
  match foldM (process_property_row diff_from diff_to branches_in_scope origins) results rows with
  | Ok results' =>
      (∀ row, row ∈ rows → row_attribute_in results row) ∧
      ∀ branch id, node_action <$> node_at results' branch id = node_action <$> node_at results branch id ∧
        ∀ name, name ∈ attributes_at results' branch id ↔ name ∈ attributes_at results branch id
  | Err e => (∃ key, e = KeyError key) ∧ ∃ row, row ∈ rows ∧ ¬ row_attribute_in results row
  end.
Proof.
  revert results. induction rows as [|row rows IH]; intros results; cbn [foldM].
  { split; [intros row []%elem_of_nil|done]. }
  pose proof (property_row_step origins results row) as Hstep.
  destruct (process_property_row _ _ _ _ _ row) as [results'|e]; unfold mbind, result_bind.
  - destruct Hstep as [Hrow Hsame]. specialize (IH results').
    assert (∀ r, row_attribute_in results' r ↔ row_attribute_in results r) as Heq.
    { intros r. unfold row_attribute_in. by rewrite (proj2 (Hsame _ _)). }
    destruct (foldM _ results' rows) as [results''|e].
    + destruct IH as [IHrows IHsame]. split.
      * intros r [->|Hr]%elem_of_cons; [exact Hrow|by apply Heq, IHrows].
      * intros branch id. destruct (IHsame branch id) as [-> Hn], (Hsame branch id) as [Ha Hn'].
        split; [done|]. intros name. by rewrite Hn, Hn'.
    + destruct IH as [Hkey (r & Hr & Hnot)]. split; [done|]. exists r. rewrite <-Heq. split; [by right|done].
  - destruct Hstep as (Hkey & He & Hnot). split; [done|]. exists row. split; [by left|].
    intros Hin. by apply Hnot, Hin.
Qed.

(** C32: The nodes of the difference.  The calculation succeeds when every property
    row that is still open belongs to an attribute that some open row creates, and
    raises a KeyError otherwise.  A node is in the difference of a branch when an
    open row adds or removes it, the last one decides, or when one of its attributes
    changed, it is then updated; it has the attributes of its open rows. *)
Theorem diff_nodes_spec node_rows attribute_rows (origins : list string → list OriginRow) :
  let attribute_created branch id name := ∃ row, row ∈ attribute_rows ∧ of_attribute branch id name row in
  let complete := ∀ row, row ∈ attribute_rows → ended diff_to (arow_r2 row) = false →
    attribute_created (edge_branch (arow_r2 row)) (db_uuid (arow_n row)) (da_name (arow_a row)) in
  match _calculate_diff_nodes diff_from diff_to branches_in_scope node_rows attribute_rows origins [] with
  | Ok results => complete ∧ ∀ branch id,
      node_action <$> node_at results branch id =
        match last (filter (of_node branch id) node_rows) with
        | Some row => Some (status_action (edge_status (nrow_r row)))
        | None => if decide (Exists (of_owner branch id) attribute_rows) then Some DiffAction.UPDATED else None
        end ∧
      ∀ name, name ∈ attributes_at results branch id ↔ attribute_created branch id name
  | Err e => (∃ key, e = KeyError key) ∧ ¬ complete
  end.
Proof.
  cbn zeta. unfold _calculate_diff_nodes.
  pose proof (node_rows_spec node_rows) as Hnodes. cbn zeta in Hnodes.
  set (results0 := foldl (process_node_row diff_to) [] node_rows) in *.
  pose proof (attribute_rows_spec results0 [] attribute_rows) as Hattrs. cbn zeta in Hattrs.
  destruct (foldl _ (results0, []) attribute_rows) as [results1 attrs] eqn:H1. cbn [fst] in Hattrs.
  assert (∀ branch id name, name ∈ attributes_at results1 branch id ↔
    ∃ row, row ∈ attribute_rows ∧ of_attribute branch id name row) as Hkeys.
  { intros branch id name. rewrite (proj2 (Hattrs branch id)), (proj2 (Hnodes branch id)), elem_of_nil. tauto. }
  pose proof (property_rows_spec (origins attrs) attribute_rows results1) as Hprops.
  destruct (foldM _ results1 attribute_rows) as [results|e].
  - destruct Hprops as [Hin Hsame]. split; [intros row Hrow He; by apply Hkeys, Hin|].
    intros branch id. destruct (Hsame branch id) as [-> Hn]. split.
    + rewrite (proj1 (Hattrs branch id)), (proj1 (Hnodes branch id)). by destruct (last _).
    + intros name. by rewrite Hn, Hkeys.
  - destruct Hprops as [Hkey (row & Hrow & Hnot)]. split; [done|]. intros Hc. apply Hnot.
    intros He. apply Hkeys. by apply Hc.
Qed.
End node_lemmas.
