(* ===== verification/BranchMerge.v ===== *)
(** * Merging a branch

    [BranchMerger] of [backend/infrahub/core/merge.py].  The difference (what
    [BranchDiffer] returns, see [BranchDiffer.v]) is an argument: the nodes and the
    relationships by branch, and the conflicts. *)

From stdpp Require Import prelude strings gmap.
From S2P Require Import Prelude PyString PyDict SdkUtils Constants HashModel SchemaDefs.
From S2P Require Import NodeSchemaOps SchemaStore SchemaUpdate Graph Branch DiffModel.

(** ** The difference *)

(** What the differ returns.  [origin_nodes]: the nodes that are on the default
    branch ([NodeListGetInfoQuery]), with their edge to the root. *)
Record Diff := mkDiff {
  diff_nodes : list (string * list (string * NodeDiffElement));
  diff_relationships : list (string * list (string * list (string * RelationshipDiffElement)));
  diff_conflicts : list DataConflict;
  origin_nodes : list (string * nat);
}.

(** ** Merging the graph *)

Definition Resolution : Type := list (string * bool).

(** [path not in conflict_resolution or conflict_resolution[path]] *)
Definition keep_source (conflict_resolution : Resolution) (path : option string) : bool :=
  match path with
  | None => true
  | Some p => default true (dict_get conflict_resolution p)
  end.

(** The graph, and the ids collected in [rel_ids_to_update]. *)
Record MergeState := mkMergeState {
  m_graph : Graph;
  rel_ids_to_update : list nat;
}.
#[export] Instance MergeState_rebuild : Rebuild MergeState := λ s,
  mkMergeState (m_graph s) (rel_ids_to_update s).
Abbreviation MergeM := (Exec MergeState).

Definition query (f : Graph → Graph) : MergeM unit := modify (λ s, s <| m_graph := f (m_graph s) |>).
Definition extend (ids : list nat) : MergeM unit :=
  modify (λ s, s <| rel_ids_to_update := rel_ids_to_update s ++ ids |>).

Section merge_graph.
(** The default branch (its name in the registry and the object), the time of the
    merge, the decisions and the difference. *)
Context (default_branch_name : string) (default_branch : Branch) (at_ : Z) (conflict_resolution : Resolution) (d : Diff).

(** [add_relationship(..., branch_name=default_branch.name, ...)] *)
Definition add_to_default (src dst : nat) (rel_type : string) (status : RelationshipStatus) : MergeM unit :=
  query (add_relationship default_branch_name src dst rel_type (Some (b_name default_branch))
           (Some (b_hierarchy_level default_branch)) at_ status).

Definition merge_property (attr_db_id : nat) (prop_type : string) (prop : PropertyDiffElement) :
    MergeM unit :=
  match prop_action prop with
  | DiffAction.ADDED =>
      _ ← add_to_default attr_db_id (prop_db_id prop) prop_type RelationshipStatus.ACTIVE;
      extend [prop_rel_id prop]
  | DiffAction.UPDATED =>
      match prop_origin_rel_id prop with
      | Some origin_rel_id =>
          if keep_source conflict_resolution (prop_path prop) then
            _ ← add_to_default attr_db_id (prop_db_id prop) prop_type RelationshipStatus.ACTIVE;
            extend [prop_rel_id prop; origin_rel_id]
          else mret tt
      | None => mret tt
      end
  | DiffAction.REMOVED =>
      match prop_origin_rel_id prop with
      | Some origin_rel_id =>
          _ ← add_to_default attr_db_id (prop_db_id prop) prop_type RelationshipStatus.DELETED;
          extend [prop_rel_id prop; origin_rel_id]
      | None => mret tt
      end
  | DiffAction.UNCHANGED => mret tt
  end.

Definition merge_attribute (node : NodeDiffElement) (attr : NodeAttributeDiffElement) : MergeM unit :=
  _ ← match attr_action attr, attr_origin_rel_id attr with
      | DiffAction.ADDED, _ =>
          _ ← add_to_default (node_db_id node) (attr_db_id attr) "HAS_ATTRIBUTE" RelationshipStatus.ACTIVE;
          extend [attr_rel_id attr]
      | DiffAction.REMOVED, Some origin_rel_id =>
          _ ← add_to_default (node_db_id node) (attr_db_id attr) "HAS_ATTRIBUTE" RelationshipStatus.DELETED;
          extend [attr_rel_id attr; origin_rel_id]
      | _, _ => mret tt
      end;
  for_each (λ kv, merge_property (attr_db_id attr) kv.1 kv.2) (attr_properties attr).

Definition merge_node (now : Z) (kv : string * NodeDiffElement) : MergeM unit :=
  let '(node_id, node) := kv in
  _ ← match node_action node with
      | DiffAction.ADDED =>
          _ ← query (add_node_to_branch (node_db_id node) (b_name default_branch)
                       (b_hierarchy_level default_branch) now);
          extend (match node_rel_id node with Some i => [i] | None => [] end)
      | DiffAction.REMOVED =>
          match dict_get (origin_nodes d) node_id with
          | Some rb =>
              s ← get_state;
              _ ← (if existsb (λ v, bool_decide (vertex_uuid v = Some node_id)) (vertices (m_graph s))
                      && existsb vertex_is_root (vertices (m_graph s))
                   then mret tt else raise (QueryError "node_delete"));
              _ ← query (node_delete node_id (b_name default_branch) (b_hierarchy_level default_branch) at_);
              extend (match node_rel_id node with Some i => [i; rb] | None => [] end)
          | None => mret tt
          end
      | _ => mret tt
      end;
  for_each (λ kv, merge_attribute node kv.2) (node_attributes node).

Definition merge_rel_node (rel_element : RelationshipDiffElement) (rel_node : RelationshipEdgeNodeDiffElement) :
    MergeM unit :=
  let matched_conflict_path := filter (λ p, dict_mem conflict_resolution p = true) (rel_conflict_paths rel_element) in
  if bool_decide (rel_action rel_element ∈ [DiffAction.ADDED; DiffAction.REMOVED])
     && keep_source conflict_resolution (head matched_conflict_path)
  then
    let rel_status := if decide (rel_action rel_element = DiffAction.REMOVED)
                      then RelationshipStatus.DELETED else RelationshipStatus.ACTIVE in
    match rn_rel_id rel_node, rn_db_id rel_node with
    | Some rid, Some dbid =>
        _ ← add_to_default dbid (rel_db_id rel_element) "IS_RELATED" rel_status;
        extend [rid]
    | _, _ => raise (ValueError "node.rel_id, rel_node.db_id and rel_element.db_id must be defined")
    end
  else mret tt.

(** The status computed for a removed property is not passed on: the edge is
    created active. *)
Definition merge_rel_property (rel_element : RelationshipDiffElement) (prop : PropertyDiffElement) :
    MergeM unit :=
  _ ← add_to_default (rel_db_id rel_element) (prop_db_id prop) (prop_type prop) RelationshipStatus.ACTIVE;
  _ ← extend [prop_rel_id prop];
  match prop_origin_rel_id prop with
  | Some origin_rel_id =>
      if bool_decide (rel_action rel_element ∈ [DiffAction.UPDATED; DiffAction.REMOVED])
      then extend [origin_rel_id] else mret tt
  | None => mret tt
  end.

Definition merge_relationship (rel_element : RelationshipDiffElement) : MergeM unit :=
  _ ← for_each (λ kv, merge_rel_node rel_element kv.2) (rel_nodes rel_element);
  for_each (λ kv, merge_rel_property rel_element kv.2) (rel_properties rel_element).

(** The loops over the nodes and the relationships of the source branch. *)
Definition merge_elements (now : Z) (source_branch : string) : MergeM unit :=
  _ ← for_each (merge_node now) (default [] (dict_get (diff_nodes d) source_branch));
  for_each (λ by_name, for_each (λ kv, merge_relationship kv.2) by_name.2)
    (default [] (dict_get (diff_relationships d) source_branch)).
End merge_graph.

(** [merge_graph]: a raise inside leaves the queries already executed. *)
Definition merge_graph (now : Z) (default_branch_name : string) (at_ : option Z)
    (conflict_resolution : Resolution) (d : Diff) (source_branch : Branch) : WorldM unit :=
  let at_ := Timestamp now at_ in
  w ← gets id;
  default_branch ← lift (require (KeyError default_branch_name) (dict_get (registry w) default_branch_name));
  let '(r, s) := merge_elements default_branch_name default_branch at_ conflict_resolution d now (b_name source_branch)
                   (mkMergeState (graph w) []) in
  _ ← modify (λ w, w <| graph := m_graph s |>);
  _ ← lift r;
  match rel_ids_to_update s with
  | [] => mret tt
  | ids =>
      _ ← modify (λ w, w <| graph := update_relationships_to ids at_ (graph w) |>);
      let source_branch := source_branch <| b_branched_from := now |> in
      _ ← save source_branch;
      modify (λ w, w <| registry := dict_set (registry w) (b_name source_branch) source_branch |>)
  end.

(** ** Repositories *)

Record Repository := mkRepository { repo_id : string; repo_name : string }.
Record GitRepositoryMerge := mkGitRepositoryMerge {
  repository_id : string;
  repository_name : string;
  source_branch_name : string;
  destination_branch_name : string;
}.

(** The events sent by [merge_repositories], from the repositories of the default
    branch and of the source branch. *)
Definition merge_repositories (has_service : bool) (default_branch : string) (source_branch : string)
    (repos_in_main repos_in_branch : list Repository) : result (list GitRepositoryMerge) :=
  let ids := repo_id <$> repos_in_main in
  let events := (λ repo, mkGitRepositoryMerge (repo_id repo) (repo_name repo) source_branch default_branch)
                <$> filter (λ repo, repo_id repo ∈ ids) repos_in_branch in
  match events with
  | _ :: _ => if has_service then Ok events
              else Err (ValueError "BranchMerger hasn't been initialized with a service object")
  | [] => Ok []
  end.

(** ** [BranchMerger.merge] *)

(** The checks before the merge. *)
Definition check_merge (default_branch_name : string) (source_branch : string)
    (conflict_resolution : Resolution) (conflicts : list DataConflict) : result unit :=
  _ ← match conflict_resolution with
      | _ :: _ =>
          let errors := filter (λ c, dict_mem conflict_resolution (conflict_path c) = false) conflicts in
          raise_if (negb (bool_decide (length errors = 0)))
            (ValidationError ("Unable to merge the branch '" +:+ source_branch
                                +:+ "', conflict resolution missing: " +:+ py_join ", " (conflict_text <$> errors)))
      | [] =>
          raise_if (negb (bool_decide (length conflicts = 0)))
            (ValidationError ("Unable to merge the branch '" +:+ source_branch
                                +:+ "', validation failed: " +:+ py_join ", " (conflict_text <$> conflicts)))
      end;
  raise_if (bool_decide (source_branch = default_branch_name))
    (ValidationError ("Unable to merge the branch '" +:+ source_branch +:+ "' into itself")).

(** The events for the repositories are returned. *)
Definition merge (now : Z) (default_branch_name : string) (at_ : option Z)
    (conflict_resolution : Resolution) (d : Diff) (has_service : bool)
    (repos_in_main repos_in_branch : list Repository) (source_branch : Branch) :
    WorldM (list GitRepositoryMerge) :=
  _ ← lift (check_merge default_branch_name (b_name source_branch) conflict_resolution (diff_conflicts d));
  _ ← merge_graph now default_branch_name at_ conflict_resolution d source_branch;
  if b_sync_with_git source_branch
  then lift (merge_repositories has_service default_branch_name (b_name source_branch) repos_in_main repos_in_branch)
  else mret [].

(** ** The graph only grows *)

(** The state of a merge that started from [g0]: only new edges, on the branch
    [name], from one of the times [times]. *)
Definition grows (g0 : Graph) (name : string) (times : list Z) (s : MergeState) : Prop :=
  vertices (m_graph s) = vertices g0 ∧
  ∃ created, edges (m_graph s) = edges g0 ++ created ∧
    ∀ e, e ∈ created → edge_branch e = name ∧ edge_from e ∈ times ∧ edge_to e = None.

Section grows.
Context (g0 : Graph) (name : string) (times : list Z).

Definition graph_grows (g : Graph) : Prop := grows g0 name times (mkMergeState g []).

Lemma grows_create_edge g rel_type src dst level status t :
  t ∈ times → graph_grows g → graph_grows (create_edge g rel_type src dst name level status t).
Proof.
  intros Ht (Hv & created & Hg & Hc). unfold create_edge, graph_grows, grows.
  destruct (_ && _); [|by split; [|exists created]]. cbn in *. split; [done|].
  exists (created ++ [mkEdge (next_id g) rel_type src dst name level status t None None]).
  rewrite Hg, app_assoc. split; [done|]. intros e [He|He]%elem_of_app; [by apply Hc|].
  by apply list_elem_of_singleton in He as ->.
Qed.

Lemma grows_foldl {A} (f : Graph → A → Graph) l g :
  (∀ g x, graph_grows g → graph_grows (f g x)) → graph_grows g → graph_grows (foldl f g l).
Proof. intros Hf. revert g. induction l as [|x l IH]; intros g Hg; cbn; auto. Qed.

Lemma grows_query f : (∀ g, graph_grows g → graph_grows (f g)) → keeps (grows g0 name times) (query f).
Proof. intros Hf s Hs. apply (Hf (m_graph s)). destruct s. exact Hs. Qed.
Lemma grows_extend ids : keeps (grows g0 name times) (extend ids).
Proof. by intros s Hs. Qed.
Lemma grows_get_state : keeps (grows g0 name times) get_state.
Proof. by intros s Hs. Qed.
End grows.
#[export] Hint Resolve grows_extend grows_get_state : exec.

Section merge_keeps.
Context (default_branch_name : string) (default_branch : Branch) (at_ now : Z)
  (conflict_resolution : Resolution) (d : Diff) (g0 : Graph).
Context (Hname : b_name default_branch = default_branch_name).
Let I := grows g0 default_branch_name [at_; now].

Lemma keeps_add_to_default src dst rel_type status :
  keeps I (add_to_default default_branch_name default_branch at_ src dst rel_type status).
Proof.
  apply grows_query. intros g Hg. unfold add_relationship.
  assert (match Some (b_name default_branch) with Some (String c b) => String c b | _ => default_branch_name end
          = default_branch_name) as -> by (rewrite Hname; by destruct default_branch_name).
  apply grows_create_edge; [left|done].
Qed.
#[local] Hint Resolve keeps_add_to_default : exec.

Lemma keeps_merge_property attr_db_id prop_type prop :
  keeps I (merge_property default_branch_name default_branch at_ conflict_resolution attr_db_id prop_type prop).
Proof. unfold merge_property, I. keeps_auto. Qed.
#[local] Hint Resolve keeps_merge_property : exec.

Lemma keeps_merge_attribute node attr :
  keeps I (merge_attribute default_branch_name default_branch at_ conflict_resolution node attr).
Proof. unfold merge_attribute, I. keeps_auto. Qed.
#[local] Hint Resolve keeps_merge_attribute : exec.
Lemma keeps_add_node_to_branch node_id level :
  keeps I (query (add_node_to_branch node_id (b_name default_branch) level now)).
Proof.
  apply grows_query. intros g Hg. unfold add_node_to_branch. apply grows_foldl; [|done].
  intros g' x Hg'. rewrite Hname. apply grows_create_edge; [right; left|done].
Qed.
Lemma keeps_node_delete uuid level :
  keeps I (query (node_delete uuid (b_name default_branch) level at_)).
Proof.
  apply grows_query. intros g Hg. unfold node_delete. apply grows_foldl; [|done].
  intros g' x Hg'. apply grows_foldl; [|done]. intros g'' y Hg''. rewrite Hname.
  apply grows_create_edge; [left|done].
Qed.
#[local] Hint Resolve keeps_add_node_to_branch keeps_node_delete : exec.

Lemma keeps_merge_node kv :
  keeps I (merge_node default_branch_name default_branch at_ conflict_resolution d now kv).
Proof. unfold merge_node, I. keeps_auto. Qed.
Lemma keeps_merge_relationship r :
  keeps I (merge_relationship default_branch_name default_branch at_ conflict_resolution r).
Proof. unfold merge_relationship, merge_rel_node, merge_rel_property, I. keeps_auto. Qed.
#[local] Hint Resolve keeps_merge_node keeps_merge_relationship : exec.

Lemma keeps_merge_elements source_branch :
  keeps I (merge_elements default_branch_name default_branch at_ conflict_resolution d now source_branch).
Proof. unfold merge_elements, I. keeps_auto. Qed.
End merge_keeps.

(** [e'] is [e], or [e] closed at the time [t]. *)
Definition closed_at (t : Z) (e e' : Edge) : Prop := e' = e ∨ e' = e <| edge_to := Some t |>.

#[export] Instance closed_at_refl t : Reflexive (closed_at t).
Proof. intros e. by left. Qed.

(** [merge_graph] with its steps composed. *)
Lemma merge_graph_eq now default_branch_name at_ cr d b w :
  let t := Timestamp now at_ in
  merge_graph now default_branch_name at_ cr d b w =
  match dict_get (registry w) default_branch_name with
  | None => (Err (KeyError default_branch_name), w)
  | Some db =>
      let '(r, s) := merge_elements default_branch_name db t cr d now (b_name b) (mkMergeState (graph w) []) in
      match r, rel_ids_to_update s with
      | Err e, _ => (Err e, w <| graph := m_graph s |>)
      | Ok _, [] => (Ok tt, w <| graph := m_graph s |>)
      | Ok _, ids =>
          let b := b <| b_branched_from := now |> in
          (Ok tt, mkWorld (update_relationships_to ids t (m_graph s))
             (dict_set (db_branches w) (b_name b) b) (dict_set (registry w) (b_name b) b))
      end
  end.
Proof.
  intros t. unfold merge_graph. fold t. unfold gets, id. unfold mbind at 1, exec_bind at 1.
  unfold lift at 1. unfold mbind at 1, exec_bind at 1.
  destruct (dict_get (registry w) default_branch_name) as [db|]; [|done]. cbn [require].
  unfold lift at 1. cbv beta iota.
  destruct (merge_elements _ _ _ _ _ _ _ _) as [[[]|e] s]; [|done]. by destruct (rel_ids_to_update s).
Qed.

Lemma merge_graph_grows now default_branch_name at_ cr d b w :
  (∀ db, dict_get (registry w) default_branch_name = Some db → b_name db = default_branch_name) →
  let t := Timestamp now at_ in
  let g' := graph (merge_graph now default_branch_name at_ cr d b w).2 in
  ∃ s, grows (graph w) default_branch_name [t; now] s ∧
    (g' = m_graph s ∨ ∃ ids, g' = update_relationships_to ids t (m_graph s)).
Proof.
  intros Hreg t g'. subst g'. rewrite merge_graph_eq. fold t. cbn zeta.
  destruct (dict_get (registry w) default_branch_name) as [db|] eqn:Hdb.
  2: { exists (mkMergeState (graph w) []). split; [|by left]. split; [done|].
       exists []. rewrite app_nil_r. split; [done|]. set_solver. }
  pose proof (keeps_merge_elements default_branch_name db t now cr d (graph w) (Hreg db eq_refl) (b_name b)
    (mkMergeState (graph w) [])) as Hk.
  destruct (merge_elements _ _ _ _ _ _ _ _) as [r1 s1]. cbn [snd] in Hk. exists s1. split.
  { apply Hk. split; [done|]. exists []. split; [by rewrite app_nil_r|]. set_solver. }
  destruct r1 as [[]|e]; [|by left]. destruct (rel_ids_to_update s1); [by left|right]. by eexists.
Qed.

(** C26: A merge only adds to the graph, whether it succeeds or raises on the way:
    no vertex and no edge is removed, an edge that was there is unchanged or gets
    the time of the merge as its end, and every new edge is on the default branch
    and starts at the time of the merge or at the current time. *)
Theorem merge_graph_append_only (now : Z) (default_branch_name : string) (at_ : option Z)
    (cr : Resolution) (d : Diff) (b : Branch) (w : World) :
  (∀ db, dict_get (registry w) default_branch_name = Some db → b_name db = default_branch_name) →
  let t := Timestamp now at_ in
  let w' := (merge_graph now default_branch_name at_ cr d b w).2 in
  vertices (graph w') = vertices (graph w) ∧
  ∃ old created, edges (graph w') = old ++ created ∧ Forall2 (closed_at t) (edges (graph w)) old ∧
    ∀ e, e ∈ created → edge_branch e = default_branch_name ∧ edge_from e ∈ [t; now] ∧
      (edge_to e = None ∨ edge_to e = Some t).
Proof.
  intros Hreg t w'. destruct (merge_graph_grows now default_branch_name at_ cr d b w Hreg)
    as (s & (Hv & created & Hs & Hc) & [Hg|[ids Hg]]); fold t w' in Hg; rewrite Hg.
  - split; [done|]. exists (edges (graph w)), created. split; [done|].
    split; [by apply reflexivity|]. intros e He. naive_solver.
  - split; [done|]. unfold update_relationships_to, assign. cbn [edges]. rewrite Hs, fmap_app.
    do 2 eexists. split; [reflexivity|]. split.
    + apply Forall2_fmap_r, Forall_Forall2_diag, Forall_forall. intros e _.
      unfold closed_at, compose. destruct (decide (edge_id e ∈ ids)); [by right|by left].
    + intros e (x & -> & Hx)%list_elem_of_fmap. destruct (Hc x Hx) as (Hb & Hf & Ht).
      destruct (decide (edge_id x ∈ ids)); cbn; split_and!; auto.
Qed.

(** ** Conflicts *)

Lemma filter_not_decided (cr : Resolution) (conflicts : list DataConflict) :
  length (filter (λ c, dict_mem cr (conflict_path c) = false) conflicts) = 0 ↔
  ∀ c, c ∈ conflicts → conflict_path c ∈ dict_keys cr.
Proof.
  rewrite length_zero_iff_nil. split.
  - intros Hf c Hc. apply dict_mem_spec, not_false_iff_true. intros Hm.
    assert (c ∈ filter (λ c, dict_mem cr (conflict_path c) = false) conflicts) as Hin
      by by apply list_elem_of_filter.
    rewrite Hf in Hin. by apply elem_of_nil in Hin.
  - intros Hall. apply elem_of_nil_inv. intros c [Hm Hc]%list_elem_of_filter.
    apply Hall, dict_mem_spec in Hc. congruence.
Qed.

Lemma check_merge_ok default_branch_name source_branch cr conflicts :
  check_merge default_branch_name source_branch cr conflicts = Ok tt ↔
  source_branch ≠ default_branch_name ∧ ∀ c, c ∈ conflicts → conflict_path c ∈ dict_keys cr.
Proof.
  unfold check_merge. rewrite then_ok, raise_if_ok, bool_decide_eq_false, (comm (∧)). f_equiv.
  rewrite <-filter_not_decided. destruct cr as [|kv cr].
  - rewrite raise_if_ok, negb_false_iff, bool_decide_eq_true.
    assert (filter (λ c, dict_mem [] (conflict_path c) = false) conflicts = conflicts) as ->; [|done].
    clear. induction conflicts as [|c l IH]; [done|]. by rewrite filter_cons, decide_True, IH.
  - by rewrite raise_if_ok, negb_false_iff, bool_decide_eq_true.
Qed.

(** The exceptions a merge can raise once it has started. *)
Definition merge_failure (e : exn) : Prop :=
  match e with ValueError _ | QueryError _ | KeyError _ => True | _ => False end.

Lemma raises_merge_elements default_branch_name db t cr d now source_branch :
  raises merge_failure (merge_elements default_branch_name db t cr d now source_branch).
Proof.
  unfold merge_elements, merge_node, merge_attribute, merge_property, merge_relationship,
    merge_rel_node, merge_rel_property, add_to_default, query, extend.
  raises_auto; exact I.
Qed.

Lemma raises_merge_graph now default_branch_name at_ cr d b :
  raises merge_failure (merge_graph now default_branch_name at_ cr d b).
Proof.
  intros w e. rewrite merge_graph_eq. cbn zeta.
  destruct (dict_get (registry w) default_branch_name) as [db|]; [|by intros [= <-]].
  pose proof (raises_merge_elements default_branch_name db (Timestamp now at_) cr d now (b_name b)
    (mkMergeState (graph w) [])) as Hr.
  destruct (merge_elements _ _ _ _ _ _ _ _) as [[[]|e'] s]; [by destruct (rel_ids_to_update s)|].
  intros [= <-]. by apply Hr.
Qed.

Lemma check_merge_err default_branch_name source_branch cr conflicts e :
  check_merge default_branch_name source_branch cr conflicts = Err e → ∃ msg, e = ValidationError msg.
Proof.
  unfold check_merge. destruct cr as [|kv cr]; unfold raise_if.
  all: destruct (negb _); cbn; [intros [= <-]; by eexists|].
  all: case_bool_decide; [intros [= <-]; by eexists|done].
Qed.

(** A merge is refused, and changes nothing, exactly when the source is the
    default branch or some conflict has no decision; once it starts, it fails only
    on an unknown default branch, a malformed relationship, a failed query or for
    want of the service that sends the repository events. *)
Theorem merge_refused (now : Z) (default_branch_name : string) (at_ : option Z) (cr : Resolution)
    (d : Diff) (has_service : bool) (repos_in_main repos_in_branch : list Repository)
    (source_branch : Branch) (w : World) :
  let '(r, w') := merge now default_branch_name at_ cr d has_service repos_in_main repos_in_branch
                    source_branch w in
  (b_name source_branch = default_branch_name ∨
   (∃ c, c ∈ diff_conflicts d ∧ conflict_path c ∉ dict_keys cr)) ∧
    (∃ msg, r = Err (ValidationError msg)) ∧ w' = w ∨
  (b_name source_branch ≠ default_branch_name ∧
   (∀ c, c ∈ diff_conflicts d → conflict_path c ∈ dict_keys cr)) ∧
    (∀ e, r = Err e → merge_failure e).
Proof.
  unfold merge. unfold mbind at 1, exec_bind at 1, lift at 1.
  pose proof (check_merge_ok default_branch_name (b_name source_branch) cr (diff_conflicts d)) as Hok.
  pose proof (check_merge_err default_branch_name (b_name source_branch) cr (diff_conflicts d)) as Herr.
  destruct (check_merge _ _ _ _) as [[]|e].
  - destruct ((_ : WorldM _) w) as [r w'] eqn:Hm. right. split; [by apply Hok|]. intros e ->.
    assert (raises merge_failure (_ ← merge_graph now default_branch_name at_ cr d source_branch;
      if b_sync_with_git source_branch
      then lift (merge_repositories has_service default_branch_name (b_name source_branch) repos_in_main repos_in_branch)
      else mret [])) as Hr.
    { apply raises_bind; [apply raises_merge_graph|]. intros _. raises_auto. intros w0 e0. cbn.
      unfold merge_repositories. destruct (_ <$> _); [done|]. destruct has_service; [done|]. by intros [= <-]. }
    apply (Hr w). by rewrite Hm.
  - left. destruct (Herr e eq_refl) as [msg ->]. split; [|by split; [exists msg|]].
    destruct (decide (b_name source_branch = default_branch_name)) as [|Hne]; [by left|right].
    destruct (decide (Exists (λ c, conflict_path c ∉ dict_keys cr) (diff_conflicts d))) as [Hex|Hno].
    + apply Exists_exists in Hex as (c & Hc & Hk). by exists c.
    + exfalso. assert (Err (ValidationError msg) = Ok tt) as [=]. apply Hok. split; [done|].
      intros c Hc. destruct (decide (conflict_path c ∈ dict_keys cr)); [done|].
      destruct Hno. apply Exists_exists. by exists c.
Qed.

(** ** Examples *)

Definition main_branch : Branch := (new_branch 0 "main") <| b_is_default := true |>.
(** The vertex 3 is a relationship of the node 1, removed in the branch "dev" with
    its property (the vertex 4). *)
Definition removed_property : PropertyDiffElement :=
  mkPropertyDiffElement "dev" "IS_VISIBLE" DiffAction.REMOVED None 4 11 (Some 10) None None.
Definition removed_relationship : RelationshipDiffElement :=
  mkRelationshipDiffElement "dev" "r1" 3 "device__site" DiffAction.REMOVED
    [("a", mkRelNode "a" (Some 1) (Some 12) ["Node"] "InfraDevice")]
    [("IS_VISIBLE", removed_property)] None [] [].
Definition removal_diff : Diff :=
  mkDiff [] [("dev", [("device__site", [("r1", removed_relationship)])])] [] [].
Definition removal_world : World :=
  let vertex i := mkVertex i (i =? 0)%nat None in
  mkWorld (mkGraph (vertex <$> seq 0 5)
      [mkEdge 10 "IS_VISIBLE" 3 4 "main" 1 RelationshipStatus.ACTIVE 50 None None;
       mkEdge 11 "IS_VISIBLE" 3 4 "dev" 2 RelationshipStatus.DELETED 120 None None;
       mkEdge 12 "IS_RELATED" 1 3 "dev" 2 RelationshipStatus.DELETED 120 None None] 13)
    [("main", main_branch); ("dev", dev_branch)] [("main", main_branch); ("dev", dev_branch)].

Lemma merge_graph_append_only_witness :
  let w' := (merge_graph 200 "main" None [] removal_diff dev_branch removal_world).2 in
  vertices (graph w') = vertices (graph removal_world).
Proof.
  apply (merge_graph_append_only 200 "main" None [] removal_diff dev_branch removal_world).
  intros db Hdb. vm_compute in Hdb. injection Hdb as <-. reflexivity.
Defined.

(** Merging a branch in which a relationship was removed together with one of
    its properties leaves, on the default branch, an active and open edge for the
    removed property: [merge_graph] computes the status "deleted" for it and does
    not pass it on, while the edge of the relationship itself is deleted. *)
Theorem merge_removed_property_active :
  let '(r, w') := merge_graph 200 "main" None [] removal_diff dev_branch removal_world in
  r = Ok tt ∧ prop_action removed_property = DiffAction.REMOVED ∧
  (∃ e, e ∈ edges (graph w') ∧ edge_type e = "IS_VISIBLE" ∧ edge_branch e = "main" ∧
        edge_dst e = prop_db_id removed_property ∧ edge_from e = 200%Z ∧
        edge_status e = RelationshipStatus.ACTIVE ∧ edge_to e = None) ∧
  (∃ e, e ∈ edges (graph w') ∧ edge_type e = "IS_RELATED" ∧ edge_branch e = "main" ∧
        edge_status e = RelationshipStatus.DELETED).
Proof.
  vm_compute. split; [done|]. split; [done|]. split.
  - eexists. split; [do 4 right; left|]. done.
  - eexists. split; [do 3 right; left|]. done.
Qed.
