(* ===== verification/ProposedChange.v ===== *)
(** * Proposed changes

    The life of a proposed change: the states and their guards
    ([ProposedChangeState] of [backend/infrahub/core/constants/__init__.py]) and the
    mutations of [backend/infrahub/graphql/mutations/proposed_change.py], which merge
    the source branch when a change becomes "merged", with the parts of the generic
    mutations ([backend/infrahub/graphql/mutations/main.py]) that they use: every field of
    the input of an update is written before the validators are read, and a deletion takes
    with it the nodes that [DeleteValidator] selects (a parameter). *)

From stdpp Require Import prelude strings.
From S2P Require Import Prelude PyString PyDict SdkUtils Constants SchemaUpdate Graph Branch.
From S2P Require Import DiffModel BranchMerge.

(** ** Guards of the states *)

Definition validate_state_check_run (self : ProposedChangeState) : result unit :=
  raise_if (negb (bool_decide (self = ProposedChangeState.OPEN)))
    (ValidationError "Unable to trigger check on proposed changes that aren't in the open state").

Definition validate_editability (self : ProposedChangeState) : result unit :=
  raise_if (bool_decide (self ∈ [ProposedChangeState.CANCELED; ProposedChangeState.MERGED]))
    (ValidationError ("A proposed change in the " +:+ enum_value self
                      +:+ " state is not allowed to be updated")).

Definition validate_state_transition (self updated_state : ProposedChangeState) : result unit :=
  if decide (self = ProposedChangeState.OPEN) then Ok tt
  else raise_if (bool_decide (self = ProposedChangeState.CLOSED)
                 && negb (bool_decide (updated_state ∈ [ProposedChangeState.CANCELED; ProposedChangeState.OPEN])))
         (ValidationError "A closed proposed change is only allowed to transition to the open state").

(** [ProposedChangeState(value)] *)
Definition parse_state (value : string) : result ProposedChangeState :=
  require (ValueError (value +:+ " is not a valid ProposedChangeState"))
    (find (λ s, bool_decide (enum_value s = value))
       [ProposedChangeState.OPEN; ProposedChangeState.MERGED; ProposedChangeState.CLOSED;
        ProposedChangeState.CANCELED]).

(** ** Data *)

(** A data check: the paths of its conflicts and the branch to keep. *)
Record DataCheck := mkDataCheck {
  check_conflicts : list string;
  check_keep_branch : option string;
}.
Record Validator := mkValidator {
  validator_kind : string;
  validator_conclusion : string;
  validator_checks : list DataCheck;
}.
(** A proposed change as it is loaded: the state says whether it is the default one;
    [pc_validations] are the ids of the peers of the relationship; [pc_fields] are the other
    attributes and relationships. *)
Record ProposedChange := mkProposedChange {
  pc_source_branch : string;
  pc_destination_branch : string;
  pc_state : ProposedChangeState;
  pc_state_is_default : bool;
  pc_validations : list string;
  pc_fields : list (string * json);
}.
#[export] Instance ProposedChange_rebuild : Rebuild ProposedChange := λ p,
  mkProposedChange (pc_source_branch p) (pc_destination_branch p) (pc_state p) (pc_state_is_default p)
    (pc_validations p) (pc_fields p).

Inductive Message :=
  | RequestProposedChangePipeline (proposed_change source_branch : string)
      (source_branch_sync_with_git : bool) (destination_branch : string)
  | EventBranchMerge (source_branch target_branch : string)
  | GitRepositoryMergeMessage (event : GitRepositoryMerge).

(** The database, the registry and what was sent.  [used_ids] are the ids of all the nodes
    that the database ever had: a deletion closes edges, the vertices stay.  [merges] and
    [deletions] are the history of what was committed: the merges with the proposed change,
    the source branch and the decisions, and the ids of the nodes deleted. *)
Record System := mkSystem {
  world : World;
  proposed_changes : list (string * ProposedChange);
  validators : list (string * Validator);
  used_ids : list string;
  sent : list Message;
  merges : list (string * string * Resolution);
  deletions : list string;
}.
#[export] Instance System_rebuild : Rebuild System := λ s,
  mkSystem (world s) (proposed_changes s) (validators s) (used_ids s) (sent s) (merges s) (deletions s).

Abbreviation SystemM := (Exec System).

(** [async with db.start_transaction()]: an exception undoes the changes of the
    database, not those of the registry, and the messages stay sent. *)
Definition transaction {A} (m : SystemM A) : SystemM A := λ s,
  match m s with
  | (Ok a, s') => (Ok a, s')
  | (Err e, s') =>
      (Err e, mkSystem (mkWorld (graph (world s)) (db_branches (world s)) (registry (world s')))
                (proposed_changes s) (validators s) (used_ids s) (sent s') (merges s) (deletions s))
  end.

Definition on_world {A} (m : WorldM A) : SystemM A := λ s,
  let '(r, w) := m (world s) in (r, s <| world := w |>).

Definition send (m : Message) : SystemM unit := modify (λ s, s <| sent := sent s ++ [m] |>).

(** ** Mutations *)

(** The input of an update.  An attribute that is given may be null, and is a dictionary
    that may hold a value and [is_default]; a relationship is given as the ids of its peers. *)
Record StateInput := mkStateInput { si_value : option (option string); si_is_default : bool }.
Record UpdateInput := mkUpdateInput {
  data_state : option (option StateInput);
  data_source_branch : option (option string);
  data_destination_branch : option (option string);
  data_validations : option (list string);
  data_fields : list (string * json);
}.

(** [data.get("state", {}).get("value")] when it is not empty *)
Definition state_update (data : UpdateInput) : result (option string) :=
  match data_state data with
  | None => Ok None
  | Some None => Err (AttributeError "get")
  | Some (Some state) => Ok (match si_value state with Some (Some (String c v)) => Some (String c v) | _ => None end)
  end.

(** The state once [from_graphql] and [save] were applied, as it will be loaded: a text must
    be a state; no value is loaded as the default one, and [is_default] resets a state that
    is not the default one.  [save] then records that a state with a value is not the default
    one ([AttributeGraphql.enum_default_lost]). *)
Definition apply_state (input : option (option StateInput)) (pc : ProposedChange) : result (ProposedChangeState * bool) :=
  match input with
  | Some (Some (mkStateInput (Some (Some v)) _)) => state ← parse_state v; Ok (state, false)
  | Some (Some (mkStateInput (Some None) _)) => Ok (ProposedChangeState.OPEN, true)
  | Some (Some (mkStateInput None true)) => Ok (if pc_state_is_default pc then pc_state pc else ProposedChangeState.OPEN, false)
  | _ => Ok (pc_state pc, false)
  end.

(** A mandatory attribute must have a value when it is saved. *)
Definition apply_mandatory (name current : string) (input : option (option string)) : result string :=
  match input with
  | None => Ok current
  | Some (Some v) => Ok v
  | Some None => Err (ValidationError ("A value must be provided for " +:+ name))
  end.

(** [from_graphql] and [save] of the proposed change: every field of the input is written. *)
Definition apply_update (data : UpdateInput) (pc : ProposedChange) : result ProposedChange :=
  '(state, is_default) ← apply_state (data_state data) pc;
  source_branch ← apply_mandatory "source_branch" (pc_source_branch pc) (data_source_branch data);
  destination_branch ← apply_mandatory "destination_branch" (pc_destination_branch pc) (data_destination_branch data);
  Ok (mkProposedChange source_branch destination_branch state is_default
        (from_option py_set (pc_validations pc) (data_validations data)) (dict_update (pc_fields pc) (data_fields data))).

Section mutations.
(** The constraints checked on a node before it is saved, with the resolution of its peers,
    and the ids of the nodes that the deletion of a node deletes, or why it is refused
    (the parts [Nodes] and [Deletion] of the model); the difference of a branch, what
    updating the schema after a merge does, and the repositories of a branch. *)
Context (node_checks : System → ProposedChange → result unit)
        (ids_to_delete : System → string → result (list string))
        (graph_diff : World → Branch → Diff)
        (update_schema : Branch → WorldM (list SchemaUpdateMigrationInfo))
        (repositories : World → string → list Repository)
        (has_service has_background : bool) (default_branch : string) (now : Z).

Definition get_proposed_change (id : string) : SystemM ProposedChange := λ s,
  (require (NodeNotFoundError id) (dict_get (proposed_changes s) id), s).

(** [_get_source_branch] *)
Definition _get_source_branch (name : string) : SystemM Branch :=
  catch (on_world (get_by_name name)) (λ e, match e with
    | BranchNotFoundError _ =>
        Some (raise (ValidationError "The specified source branch for this proposed change was not found."))
    | _ => None
    end).

(** A [ValidationError] of the generic mutation becomes a [ValueError]. *)
Definition generic_mutation {A} (m : SystemM A) : SystemM A :=
  catch m (λ e, match e with ValidationError msg => Some (raise (ValueError msg)) | _ => None end).

(** [NodeCheckIDQuery] *)
Definition check_id (id : string) : SystemM unit :=
  s ← get_state; lift (raise_if (bool_decide (id ∈ used_ids s)) (ValidationError (id +:+ " is already in use"))).

(** [data] is the node made of the input; its id is given or generated. *)
Definition mutate_create (given : bool) (id : string) (data : ProposedChange) : SystemM unit :=
  source_branch ← transaction (
    _ ← generic_mutation (
      _ ← (if given then check_id id else mret tt);
      s ← get_state;
      _ ← lift (node_checks s data);
      modify (λ s, s <| proposed_changes := dict_set (proposed_changes s) id data |> <| used_ids := id :: used_ids s |>));
    source_branch ← _get_source_branch (pc_source_branch data);
    if decide (pc_destination_branch data = b_name source_branch) then
      raise (ValidationError "The source and destination branch can't be the same")
    else if decide (pc_destination_branch data ≠ "main") then
      raise (ValidationError "Currently only the 'main' branch is supported as a destination for a proposed change")
    else mret source_branch);
  if has_service
  then send (RequestProposedChangePipeline id (b_name source_branch) (b_sync_with_git source_branch)
               (pc_destination_branch data))
  else mret tt.

(** The decisions of the data checks, in the order of the validators. *)
Definition check_decision (conflict_resolution : Resolution) (check : DataCheck) : result Resolution :=
  match check_conflicts check with
  | [] => Ok conflict_resolution
  | path :: _ =>
      match check_keep_branch check with
      | Some (String c b) =>
          Ok (dict_set conflict_resolution path (bool_decide (String c b = "source")))
      | _ => Err (ValidationError "Data conflicts found on branch and missing decisions about what branch to keep")
      end
  end.
Definition validator_decisions (conflict_resolution : Resolution) (validation : Validator) :
    result Resolution :=
  if decide (validator_kind validation = InfrahubKind.DATAVALIDATOR)
  then foldM check_decision conflict_resolution (validator_checks validation)
  else if decide (validator_conclusion validation = enum_value ValidatorConclusion.SUCCESS)
  then Ok conflict_resolution
  else Err (ValidationError "Unable to merge proposed change containing failing checks").

(** [validations.get_peers]: the nodes of the ids that exist *)
Definition get_validations (pc : ProposedChange) : SystemM (list Validator) :=
  gets (λ s, omap (dict_get (validators s)) (pc_validations pc)).

(** What happens when the state becomes "merged": the migrations to run. *)
Definition merge_proposed_change (id : string) (pc : ProposedChange) : SystemM (list SchemaUpdateMigrationInfo) :=
  source_branch ← on_world (get_by_name (pc_source_branch pc));
  validations ← get_validations pc;
  conflict_resolution ← lift (foldM validator_decisions [] validations);
  s ← get_state;
  let w := world s in
  _ ← lift (get_branch_from_registry (registry w) default_branch "");
  events ← on_world (merge now default_branch None conflict_resolution (graph_diff w source_branch)
             has_service (repositories w default_branch) (repositories w (b_name source_branch)) source_branch);
  _ ← for_each (λ e, send (GitRepositoryMergeMessage e)) events;
  _ ← modify (λ s, s <| merges := merges s ++ [(id, b_name source_branch, conflict_resolution)] |>);
  migrations ← on_world (update_schema source_branch);
  _ ← (if has_background then send (EventBranchMerge (b_name source_branch) default_branch) else mret tt);
  mret migrations.

Definition mutate_update (id : string) (data : UpdateInput) : SystemM (list SchemaUpdateMigrationInfo) :=
  obj ← get_proposed_change id;
  let state := pc_state obj in
  _ ← lift (validate_editability state);
  state_value ← lift (state_update data);
  updated_state ← lift (match state_value with
    | Some v =>
        updated_state ← parse_state v;
        _ ← validate_state_transition state updated_state;
        Ok (Some updated_state)
    | None => Ok None
    end);
  transaction (
    proposed_change ← generic_mutation (
      proposed_change ← lift (apply_update data obj);
      s ← get_state;
      _ ← lift (node_checks s proposed_change);
      _ ← modify (λ s, s <| proposed_changes := dict_set (proposed_changes s) id proposed_change |>);
      mret proposed_change);
    if decide (updated_state = Some ProposedChangeState.MERGED)
    then merge_proposed_change id proposed_change else mret []).

(** The generic [mutate_delete], which no method of the proposed changes replaces *)
Definition mutate_delete (id : string) : SystemM unit :=
  _ ← get_proposed_change id;
  transaction (generic_mutation (
    s ← get_state;
    deleted ← lift (ids_to_delete s id);
    modify (λ s, s <| proposed_changes := filter (λ kv, kv.1 ∉ deleted) (proposed_changes s) |>
                   <| validators := filter (λ kv, kv.1 ∉ deleted) (validators s) |>
                   <| deletions := deletions s ++ filter (λ id, id ∈ used_ids s) deleted |>))).

(** [ProposedChangeRequestRunCheck] *)
Definition run_check (id : string) : SystemM unit :=
  proposed_change ← get_proposed_change id;
  _ ← lift (validate_state_check_run (pc_state proposed_change));
  source_branch ← _get_source_branch (pc_source_branch proposed_change);
  if has_service
  then send (RequestProposedChangePipeline id (b_name source_branch) (b_sync_with_git source_branch)
               (pc_destination_branch proposed_change))
  else mret tt.
End mutations.

(** ** Lemmas *)

(** What the methods that only touch the world or the messages leave alone. *)
Definition database (s : System) : list (string * ProposedChange) * list (string * Validator) * list string * list (string * string * Resolution) * list string :=
  (proposed_changes s, validators s, used_ids s, merges s, deletions s).
Definition frame (s0 s : System) : Prop := database s = database s0.

Lemma frame_on_world s0 {A} (m : WorldM A) : keeps (frame s0) (on_world m).
Proof. intros s Hs. unfold on_world. by destruct (m (world s)). Qed.
Lemma frame_send s0 m : keeps (frame s0) (send m).
Proof. by intros s Hs. Qed.
Lemma frame_get s0 id : keeps (frame s0) (get_proposed_change id).
Proof. by intros s Hs. Qed.
#[export] Hint Resolve frame_on_world frame_send frame_get : exec.

Lemma frame_source_branch s0 name : keeps (frame s0) (_get_source_branch name).
Proof.
  apply keeps_catch; [apply frame_on_world|]. intros [] m' [= <-]; apply keeps_raise.
Qed.
#[export] Hint Resolve frame_source_branch : exec.

Lemma frame_run s0 {A} (m : SystemM A) s r s' : keeps (frame s0) m → frame s0 s → m s = (r, s') → frame s0 s'.
Proof. intros Hm Hs Hr. specialize (Hm s Hs). by rewrite Hr in Hm. Qed.

Lemma generic_mutation_ok {A} (m : SystemM A) s a s' : generic_mutation m s = (Ok a, s') → m s = (Ok a, s').
Proof. unfold generic_mutation, catch. destruct (m s) as [[b|e] s1]; [done|]. by destruct e. Qed.

Lemma transaction_cases {A} (m : SystemM A) s r s' :
  transaction m s = (r, s') →
  (∃ e, r = Err e ∧ frame s s') ∨ (∃ a, r = Ok a ∧ m s = (Ok a, s')).
Proof.
  unfold transaction. destruct (m s) as [[a|e] s1]; intros [= <- <-]; [right; by exists a|].
  left. by exists e.
Qed.

Section mutation_lemmas.
Context (node_checks : System → ProposedChange → result unit)
        (graph_diff : World → Branch → Diff)
        (update_schema : Branch → WorldM (list SchemaUpdateMigrationInfo))
        (repositories : World → string → list Repository)
        (has_service has_background : bool) (default_branch : string) (now : Z).

(** The validators of a proposed change that exist *)
Definition validations_of (s : System) (pc : ProposedChange) : list Validator := omap (dict_get (validators s)) (pc_validations pc).

(** A merge that returns adds itself to the history with the decisions of the
    checks, and does nothing else to the proposed changes. *)
Lemma merge_proposed_change_ok id pc s migs s' :
  merge_proposed_change graph_diff update_schema repositories has_service has_background
    default_branch now id pc s = (Ok migs, s') →
  ∃ src cr, foldM validator_decisions [] (validations_of s pc) = Ok cr ∧
    frame (s <| merges := merges s ++ [(id, src, cr)] |>) s'.
Proof.
  unfold merge_proposed_change. intros (b & s1 & H1 & H)%exec_bind_ok.
  apply (frame_run s) in H1; [|auto with exec|done].
  apply exec_bind_ok in H as (vs & s1' & [= <- <-] & H).
  apply exec_bind_ok in H as (cr & s2 & [= Hcr <-] & H). exists (b_name b), cr.
  apply exec_bind_ok in H as (s2' & s3 & [= <- <-] & H). cbn zeta in H.
  apply exec_bind_ok in H as (db & s4 & [= Hdb <-] & H).
  apply exec_bind_ok in H as (events & s5 & H5 & H).
  apply exec_bind_ok in H as ([] & s6 & H6 & H).
  apply exec_bind_ok in H as ([] & s7 & [= <-] & H).
  apply exec_bind_ok in H as (ms & s8 & H8 & H).
  apply exec_bind_ok in H as ([] & s9 & H9 & [= <- <-]).
  split; [injection H1 as _ Hv _ _ _; unfold validations_of; by rewrite <-Hv|].
  apply (frame_run s) in H5; [|auto with exec|done].
  apply (frame_run s) in H6; [|keeps_auto|done].
  set (s0 := s <| merges := merges s ++ [(id, b_name b, cr)] |>).
  assert (frame s0 (s6 <| merges := merges s6 ++ [(id, b_name b, cr)] |>)) as H7.
  { injection H6 as Hp Hv Hu Hm Hd. unfold frame, database. cbn. by rewrite Hp, Hv, Hu, Hm, Hd. }
  apply (frame_run _ _ _ _ _ (frame_on_world _ _) H7) in H8.
  apply (frame_run s0) in H9; [done|keeps_auto|done].
Qed.

(** What an accepted update did. *)
Definition updated (id : string) (data : UpdateInput) (s s' : System) : Prop :=
  ∃ obj pc, dict_get (proposed_changes s) id = Some obj ∧
    (pc_state obj ∉ [ProposedChangeState.CANCELED; ProposedChangeState.MERGED]) ∧
    apply_update data obj = Ok pc ∧
    let s1 := s <| proposed_changes := dict_set (proposed_changes s) id pc |> in
    if decide (state_update data = Ok (Some "merged"))
    then pc_state pc = ProposedChangeState.MERGED ∧ pc_state obj = ProposedChangeState.OPEN ∧
         ∃ src cr, foldM validator_decisions [] (validations_of s pc) = Ok cr ∧
           frame (s1 <| merges := merges s ++ [(id, src, cr)] |>) s'
    else pc_state pc ≠ ProposedChangeState.MERGED ∧ frame s1 s'.

Lemma editable_spec st :
  validate_editability st = Ok tt ↔ st ∉ [ProposedChangeState.CANCELED; ProposedChangeState.MERGED].
Proof. unfold validate_editability. by rewrite raise_if_ok, bool_decide_eq_false. Qed.

Lemma transition_merged st :
  validate_editability st = Ok tt →
  validate_state_transition st ProposedChangeState.MERGED = Ok tt → st = ProposedChangeState.OPEN.
Proof. by destruct st. Qed.

Lemma parse_merged v st : parse_state v = Ok st → (st = ProposedChangeState.MERGED ↔ v = "merged").
Proof.
  unfold parse_state, require. cbn.
  repeat (case_bool_decide as Hv; [intros [= <-]; subst; by vm_compute|]; clear Hv || idtac). done.
Qed.

(** The state of an updated proposed change is the one that the guards saw. *)
Lemma apply_update_state data obj pc : apply_update data obj = Ok pc →
  match state_update data with
  | Ok (Some v) => parse_state v = Ok (pc_state pc)
  | Ok None => pc_state pc = pc_state obj ∨ pc_state pc = ProposedChangeState.OPEN
  | Err _ => True
  end.
Proof.
  unfold apply_update. intros ([st is_default] & Hst & H)%bind_ok.
  apply bind_ok in H as (src & _ & H). apply bind_ok in H as (dst & _ & [= <-]). cbn [pc_state].
  unfold apply_state, state_update in *. destruct (data_state data) as [[[[[[|c v]|]|] reset]|]|]; cbn in *;
    try (injection Hst as <- <-; by auto); try done.
  - apply bind_ok in Hst as (st' & Hp & [= <- _]). done.
  - destruct reset; injection Hst as <- <-; [|by auto]. destruct (pc_state_is_default obj); auto.
Qed.

Lemma apply_update_validations data obj pc : apply_update data obj = Ok pc →
  pc_validations pc = match data_validations data with Some ids => py_set ids | None => pc_validations obj end.
Proof.
  unfold apply_update. intros ([st is_default] & _ & H)%bind_ok.
  apply bind_ok in H as (src & _ & H). apply bind_ok in H as (dst & _ & [= <-]). by destruct (data_validations data).
Qed.

Lemma mutate_update_cases id data s r s' :
  mutate_update node_checks graph_diff update_schema repositories has_service has_background
    default_branch now id data s = (r, s') →
  (∃ e, r = Err e ∧ frame s s') ∨ (∃ migs, r = Ok migs ∧ updated id data s s').
Proof.
  unfold mutate_update. unfold mbind at 1, exec_bind at 1, get_proposed_change.
  destruct (dict_get (proposed_changes s) id) as [obj|] eqn:Hobj; cbn [require];
    [|intros [= <- <-]; left; by eexists]. cbn zeta.
  unfold mbind at 1, exec_bind at 1, lift at 1.
  destruct (validate_editability (pc_state obj)) as [[]|e] eqn:Hed;
    [|intros [= <- <-]; left; by eexists].
  unfold mbind at 1, exec_bind at 1, lift at 1.
  destruct (state_update data) as [sv|e] eqn:Hsv; [|intros [= <- <-]; left; by eexists].
  unfold mbind at 1, exec_bind at 1, lift at 1.
  match goal with |- context [match ?x with Ok _ => _ | Err _ => _ end] => destruct x as [upd|e] eqn:Hupd end;
    [|intros [= <- <-]; left; by eexists].
  intros [(e & -> & Hf)|(migs & -> & Hm)]%transaction_cases; [left; by exists e|right].
  exists migs. split; [done|]. apply exec_bind_ok in Hm as (pc & s1 & Hg & Hm).
  apply generic_mutation_ok in Hg. apply exec_bind_ok in Hg as (pc' & s2 & [= Hpc <-] & Hg).
  apply exec_bind_ok in Hg as (s3 & s4 & [= <- <-] & Hg).
  apply exec_bind_ok in Hg as ([] & s5 & [= _ <-] & Hg).
  apply exec_bind_ok in Hg as ([] & s6 & [= <-] & [= -> <-]).
  exists obj, pc. split; [done|]. split; [by apply editable_spec|]. split; [done|].
  pose proof (apply_update_state _ _ _ Hpc) as Hst. rewrite Hsv in Hst.
  destruct sv as [v|].
  - apply bind_ok in Hupd as (st & Hp & Hupd). apply bind_ok in Hupd as ([] & Ht & [= <-]).
    rewrite Hp in Hst. injection Hst as ->. pose proof (parse_merged _ _ Hp) as Hmg.
    destruct (decide (state_update data = Ok (Some "merged"))) as [Hs|Hs]; rewrite Hsv in Hs.
    + injection Hs as ->. rewrite (proj2 Hmg eq_refl) in *. rewrite decide_True in Hm by done. split; [done|].
      split; [by apply transition_merged|]. apply merge_proposed_change_ok in Hm as (src & cr & Hcr & Hf).
      by exists src, cr.
    + assert (pc_state pc ≠ ProposedChangeState.MERGED) as Hne by (intros ->%Hmg; done).
      rewrite decide_False in Hm by congruence. by injection Hm as <- <-.
  - injection Hupd as <-. rewrite decide_False in Hm by done. injection Hm as <- <-.
    rewrite decide_False by congruence. split; [|done]. apply editable_spec in Hed.
    destruct Hst as [-> | ->]; [set_solver|done].
Qed.
End mutation_lemmas.

(** ** The life of the proposed changes *)

Section lifecycle.
Context (node_checks : System → ProposedChange → result unit)
        (ids_to_delete : System → string → result (list string)) (graph_diff : World → Branch → Diff)
        (update_schema : Branch → WorldM (list SchemaUpdateMigrationInfo))
        (repositories : World → string → list Repository)
        (has_service has_background : bool) (default_branch : string).

(** A run of the system: the mutations, in any order, whether they return or raise (an
    upsert is an update or a creation), an id that is generated being new; the validators of
    the pipeline, which record their conclusions, and the mutations of relationships, which
    only touch the peers; and the other operations on the branches and the graph. *)
Inductive step : System → System → Prop :=
  | step_create given id data s r s' :
      (given = false → id ∉ used_ids s) →
      mutate_create node_checks has_service given id data s = (r, s') → step s s'
  | step_update now id data s r s' :
      mutate_update node_checks graph_diff update_schema repositories has_service has_background
        default_branch now id data s = (r, s') → step s s'
  | step_delete id s r s' : mutate_delete ids_to_delete id s = (r, s') → step s s'
  | step_run_check id s r s' : run_check has_service id s = (r, s') → step s s'
  | step_validators vs s : step s (s <| validators := vs |>)
  | step_relationships id pc validations fields s :
      dict_get (proposed_changes s) id = Some pc →
      step s (s <| proposed_changes :=
                   dict_set (proposed_changes s) id (pc <| pc_validations := validations |> <| pc_fields := fields |>) |>)
  | step_world w s : step s (s <| world := w |>).

(** The part of a proposed change that a user sets. *)
Definition same_change (pc pc' : ProposedChange) : Prop :=
  pc_state pc' = pc_state pc ∧ pc_source_branch pc' = pc_source_branch pc ∧
  pc_destination_branch pc' = pc_destination_branch pc.
#[export] Instance same_change_preorder : PreOrder same_change.
Proof. split; unfold same_change; [done|]. intros x y z (? & ? & ?) (? & ? & ?). split_and!; congruence. Qed.

Definition terminal (st : ProposedChangeState) : Prop :=
  st ∈ [ProposedChangeState.CANCELED; ProposedChangeState.MERGED].

Definition merged_ids (s : System) : list string := (λ m, m.1.1) <$> merges s.

(** The ids of the proposed changes, and of those that were merged or deleted, are used; a
    deleted one is gone; a proposed change was merged at most once, and is then in the state
    "merged". *)
Record history_ok (s : System) : Prop := {
  present_used id : id ∈ dict_keys (proposed_changes s) → id ∈ used_ids s ∧ id ∉ deletions s;
  deleted_used id : id ∈ deletions s → id ∈ used_ids s;
  merged_used id : id ∈ merged_ids s → id ∈ used_ids s;
  merged_once : NoDup (merged_ids s);
  merged_state id pc : id ∈ merged_ids s → dict_get (proposed_changes s) id = Some pc → pc_state pc = ProposedChangeState.MERGED;
}.

Definition keeps_terminal (s s' : System) : Prop :=
  ∀ id pc, dict_get (proposed_changes s) id = Some pc → terminal (pc_state pc) →
    (∃ pc', dict_get (proposed_changes s') id = Some pc' ∧ same_change pc pc') ∨ id ∈ deletions s'.
(** What a step does to a history *)
Record advances (s s' : System) : Prop := {
  adv_terminal : keeps_terminal s s';
  adv_deletions : deletions s ⊆ deletions s';
  adv_history : history_ok s';
}.

Lemma frame_history s0 s : frame s0 s → history_ok s0 → history_ok s.
Proof.
  intros Hf [H1 H1' H2 H3 H4]. injection Hf as Hp _ Hu Hm Hd.
  split; unfold merged_ids; rewrite ?Hp, ?Hm, ?Hu, ?Hd; done.
Qed.
Lemma frame_advances s s0 s' : frame s0 s' → advances s s0 → advances s s'.
Proof.
  intros Hf [H1 H2 H3]. split; [| |by eapply frame_history]; injection Hf as Hp _ _ _ Hd.
  - intros id pc Hpc Ht. rewrite Hp, Hd. by apply H1.
  - by rewrite Hd.
Qed.
Lemma advances_refl s : history_ok s → advances s s.
Proof. split; [|done|done]. intros id pc Hpc _. left. by exists pc. Qed.

(** An entry that is new, or replaces one that may change, keeps a history. *)
Lemma advances_set s id pc ms :
  history_ok s → id ∈ dict_keys (proposed_changes s) →
  (∀ old, dict_get (proposed_changes s) id = Some old → (terminal (pc_state old) → same_change old pc) ∧
     (pc_state old = ProposedChangeState.MERGED → pc_state pc = ProposedChangeState.MERGED)) →
  ms = merges s ∨ (∃ src cr, ms = merges s ++ [(id, src, cr)] ∧ pc_state pc = ProposedChangeState.MERGED ∧ id ∉ merged_ids s) →
  advances s (s <| proposed_changes := dict_set (proposed_changes s) id pc |> <| merges := ms |>).
Proof.
  intros [H1 H1' H2 H3 H4] Hid Hold Hms. split; [|done|split]; cbn.
  - intros id' pc' Hpc' Ht. left. cbn. rewrite dict_get_set. case_decide as He; [|by exists pc'].
    subst. exists pc. split; [done|]. by apply (proj1 (Hold pc' Hpc')).
  - intros id' [-> |Hin]%elem_of_dict_keys_set; by apply H1.
  - done.
  - unfold merged_ids. cbn. destruct Hms as [-> |(src & cr & -> & _)]; [apply H2|]. intros id'.
    rewrite fmap_app, elem_of_app. intros [?|?]; [by apply H2|]. assert (id' = id) as -> by set_solver. by apply H1.
  - unfold merged_ids. cbn. destruct Hms as [-> |(src & cr & -> & _ & Hn)]; [done|].
    rewrite fmap_app. apply NoDup_app. split_and!; [done| |apply NoDup_singleton]. cbn. set_solver.
  - intros id' pc'. rewrite dict_get_set. unfold merged_ids. cbn. case_decide as He.
    + subst. intros Hin [= <-]. destruct Hms as [-> |(src & cr & -> & ? & _)]; [|done].
      apply dict_get_is_Some in Hid as [old Hg]. apply (proj2 (Hold old Hg)). by eapply H4.
    + destruct Hms as [-> |(src & cr & -> & _)]; [apply H4|]. rewrite fmap_app, elem_of_app.
      intros [?|?]; [by apply H4|]. set_solver.
Qed.
Lemma advances_create s id data :
  history_ok s → id ∉ used_ids s →
  advances s (s <| proposed_changes := dict_set (proposed_changes s) id data |> <| used_ids := id :: used_ids s |>).
Proof.
  intros [H1 H1' H2 H3 H4] Hid. split; [|done|split]; cbn.
  - intros id' pc Hpc _. left. exists pc. cbn. rewrite dict_get_set. case_decide as He; [|done]. subst.
    destruct Hid. by eapply H1, dict_get_is_Some.
  - intros id' [-> |Hin]%elem_of_dict_keys_set; [split; [left|by intros ?%H1']|]. split; [right; by apply H1|by apply H1].
  - intros id' Hin. right. by apply H1'.
  - intros id' Hin. right. by apply H2.
  - done.
  - intros id' pc Hin. rewrite dict_get_set. case_decide as He; [|by apply H4]. subst. by apply H2 in Hin.
Qed.

Lemma dict_get_removed (d : list (string * ProposedChange)) (ids : list string) k :
  dict_get (filter (λ kv, kv.1 ∉ ids) d) k = if decide (k ∈ ids) then None else dict_get d k.
Proof.
  induction d as [|[k' v] d IH]; [by case_decide|]. rewrite filter_cons. cbn [fst].
  destruct (decide (k' ∉ ids)) as [Hp|Hp]; cbn [dict_get]; rewrite IH; destruct (decide (k = k')) as [->|]; try done.
  - by rewrite decide_False.
  - by rewrite !decide_True by (by apply dec_stable).
Qed.

Lemma advances_delete s ids :
  history_ok s →
  advances s (s <| proposed_changes := filter (λ kv, kv.1 ∉ ids) (proposed_changes s) |>
                <| validators := filter (λ kv, kv.1 ∉ ids) (validators s) |>
                <| deletions := deletions s ++ filter (λ id, id ∈ used_ids s) ids |>).
Proof.
  intros [H1 H1' H2 H3 H4]. split; [|cbn; set_solver|split]; cbn.
  - intros id pc Hpc _. cbn. rewrite dict_get_removed, elem_of_app, list_elem_of_filter.
    destruct (decide (id ∈ ids)) as [Hin|]; [right; right|left; by exists pc].
    split; [|done]. by eapply H1, dict_get_is_Some.
  - intros id Hid. rewrite elem_of_app, list_elem_of_filter.
    apply dict_get_is_Some in Hid as [pc Hg]. rewrite dict_get_removed in Hg.
    destruct (decide (id ∈ ids)); [done|].
    destruct (H1 id) as [? ?]; [by apply dict_get_is_Some; eexists|]. naive_solver.
  - intros id. rewrite elem_of_app, list_elem_of_filter. naive_solver.
  - done.
  - done.
  - intros id pc Hin. rewrite dict_get_removed. destruct (decide (id ∈ ids)); [done|by apply H4].
Qed.

Lemma create_cases given id data s r s' :
  (given = false → id ∉ used_ids s) →
  mutate_create node_checks has_service given id data s = (r, s') →
  frame s s' ∨ (id ∉ used_ids s ∧ frame (s <| proposed_changes := dict_set (proposed_changes s) id data |> <| used_ids := id :: used_ids s |>) s').
Proof.
  intros Hfresh. unfold mutate_create. unfold mbind at 1, exec_bind at 1. destruct (transaction _ s) as [[b|e] s1] eqn:Ht.
  - apply transaction_cases in Ht as [(? & ? & _)|(b' & [= <-] & Hm)]; [done|]. intros Hs. right.
    apply exec_bind_ok in Hm as ([] & s2 & Hg & Hm). apply generic_mutation_ok in Hg.
    apply exec_bind_ok in Hg as ([] & s3 & Hc & Hg).
    assert (s3 = s ∧ id ∉ used_ids s) as [-> Hid].
    { destruct given; [|injection Hc as <-; auto]. unfold check_id in Hc.
      apply exec_bind_ok in Hc as (? & ? & [= <- <-] & [= Hc <-]). apply raise_if_ok, bool_decide_eq_false in Hc. done. }
    split; [done|]. apply exec_bind_ok in Hg as (? & ? & [= <- <-] & Hg).
    apply exec_bind_ok in Hg as ([] & ? & [= _ <-] & [= <-]).
    match type of Hm with _ ?x = _ => apply (frame_run x) in Hm; [|keeps_auto|done] end.
    eapply frame_run; [|exact Hm|exact Hs]. keeps_auto.
  - apply transaction_cases in Ht as [(e' & _ & Hf)|(? & ? & _)]; [|done]. intros [= _ <-]. by left.
Qed.

Lemma step_advances s s' : step s s' → history_ok s → advances s s'.
Proof.
  intros Hstep Hok. pose proof (advances_refl _ Hok) as Hrefl.
  destruct Hstep as [given id data s r s' Hfresh Hc|now id data s r s' Hu|id s r s' Hd|id s r s' Hr|vs s|id pc vs fs s Hpc|w s].
  - apply create_cases in Hc as [Hf|[Hid Hf]]; [by eapply frame_advances| |exact Hfresh].
    eapply frame_advances; [exact Hf|]. by apply advances_create.
  - apply mutate_update_cases in Hu as [(e & _ & Hf)|(migs & _ & obj & pc & Hobj & Hed & _ & Hcase)]; [by eapply frame_advances|].
    assert (id ∈ dict_keys (proposed_changes s)) as Hid by (apply dict_get_is_Some; by eexists).
    assert (∀ old, dict_get (proposed_changes s) id = Some old → (terminal (pc_state old) → same_change old pc) ∧
      (pc_state old = ProposedChangeState.MERGED → pc_state pc = ProposedChangeState.MERGED)) as Hold.
    { intros old. rewrite Hobj. intros [= <-]. split; [done|]. intros Hm. rewrite Hm in Hed. set_solver. }
    assert (∀ st, pc_state obj = st → st ≠ ProposedChangeState.MERGED → id ∉ merged_ids s) as Hnew.
    { intros st Hst Hne Hin. destruct Hok as [_ _ _ _ H4]. apply Hne. rewrite <-Hst. by eapply H4. }
    cbn zeta in Hcase. destruct (decide _) as [_|_].
    + destruct Hcase as (Hst & Hopen & src & cr & _ & Hf). eapply frame_advances; [exact Hf|].
      apply advances_set; [done..|]. right. exists src, cr. split_and!; [done..|]. by eapply Hnew.
    + destruct Hcase as [Hst Hf]. eapply frame_advances; [exact Hf|].
      eapply frame_advances; [|apply (advances_set s id pc (merges s)); auto]. done.
  - unfold mutate_delete in Hd. unfold mbind at 1, exec_bind at 1, get_proposed_change in Hd.
    destruct (dict_get (proposed_changes s) id); [|by injection Hd as _ <-]. cbn [require] in Hd.
    apply transaction_cases in Hd as [(e & _ & Hf)|([] & -> & Hm)]; [by eapply frame_advances|].
    apply generic_mutation_ok in Hm. apply exec_bind_ok in Hm as (? & ? & [= <- <-] & Hm).
    apply exec_bind_ok in Hm as (ids & ? & [= _ <-] & [= <-]). by apply advances_delete.
  - eapply frame_advances; [|exact Hrefl]. eapply frame_run; [|done|exact Hr]. unfold run_check. keeps_auto.
  - destruct Hrefl as [H1 H2 [? ? ? ? ?]]. split; [done|done|by split].
  - eapply frame_advances; [|apply (advances_set s id (pc <| pc_validations := vs |> <| pc_fields := fs |>) (merges s))];
      [done|done|apply dict_get_is_Some; by eexists| |by left].
    intros old. rewrite Hpc. by intros [= <-].
  - by apply (frame_advances s s).
Qed.

Lemma steps_advance s s' : rtc step s s' → history_ok s → advances s s'.
Proof.
  induction 1 as [s|s1 s2 s3 Hstep _ IH]; [apply advances_refl|]. intros Hok.
  destruct (step_advances _ _ Hstep Hok) as [Ht Hd Hok2]. destruct (IH Hok2) as [Ht' Hd' Hok3]. split; [|set_solver|done].
  intros id pc Hpc Hterm. destruct (Ht id pc Hpc Hterm) as [(pc2 & Hpc2 & Hsame)|Hdel]; [|right; set_solver].
  destruct (Ht' id pc2 Hpc2) as [(pc3 & Hpc3 & Hsame3)|?]; [by destruct Hsame as (-> & _)|left|by right].
  exists pc3. split; [done|]. by transitivity pc2.
Qed.
End lifecycle.

(** C2: Through any run of the system that starts from a database whose proposed changes are
    among its nodes and were not deleted, in any order of the creations, updates, deletions
    and runs of checks, and whether they return or raise: a merged or canceled proposed change
    keeps its state and its branches until it is deleted; a deleted one never comes back; and,
    when no merge was recorded at the start, a proposed change is merged at most once, and
    is in the state "merged" as long as it exists. *)
Theorem proposed_change_lifecycle (node_checks : System → ProposedChange → result unit)
    (ids_to_delete : System → string → result (list string)) (graph_diff : World → Branch → Diff)
    (update_schema : Branch → WorldM (list SchemaUpdateMigrationInfo))
    (repositories : World → string → list Repository)
    (has_service has_background : bool) (default_branch : string) (s s' : System)
    (Hids : ∀ id, id ∈ dict_keys (proposed_changes s) → id ∈ used_ids s ∧ id ∉ deletions s)
    (Hdeleted : ∀ id, id ∈ deletions s → id ∈ used_ids s) (Hmerges : merges s = []) :
  rtc (step node_checks ids_to_delete graph_diff update_schema repositories has_service has_background default_branch) s s' →
  (∀ id pc, dict_get (proposed_changes s) id = Some pc →
     pc_state pc ∈ [ProposedChangeState.CANCELED; ProposedChangeState.MERGED] →
     (∃ pc', dict_get (proposed_changes s') id = Some pc' ∧ same_change pc pc') ∨ id ∈ deletions s') ∧
  (∀ id, id ∈ deletions s' → dict_get (proposed_changes s') id = None) ∧
  NoDup (merged_ids s') ∧
  ∀ id pc, id ∈ merged_ids s' → dict_get (proposed_changes s') id = Some pc → pc_state pc = ProposedChangeState.MERGED.
Proof.
  intros Hrun. apply steps_advance in Hrun as [Ht _ Hok]; [|by split; unfold merged_ids; rewrite ?Hmerges; cbn; try set_solver; constructor].
  split; [exact Ht|]. destruct Hok as [H1 _ _ H3 H4]. split_and!; [|done|exact H4].
  intros id Hdel. destruct (dict_get (proposed_changes s') id) as [pc|] eqn:Hpc; [|done].
  destruct (H1 id) as [_ Hno]; [by apply dict_get_is_Some; eexists|done].
Qed.

(** *** The gate of a merge *)

Lemma check_decisions_ok checks cr cr' :
  foldM check_decision cr checks = Ok cr' →
  (∀ c, c ∈ checks → check_conflicts c ≠ [] → truthy_str (check_keep_branch c) = true) ∧
  (∀ p, p ∈ dict_keys cr' ↔ p ∈ dict_keys cr ∨ ∃ c, c ∈ checks ∧ head (check_conflicts c) = Some p).
Proof.
  revert cr. induction checks as [|c checks IH]; intros cr Hf.
  { injection Hf as <-. split; [by intros c Hc%elem_of_nil|]. intros p.
    split; [by left|]. intros [Hp|(c & Hc%elem_of_nil & _)]; done. }
  cbn in Hf. apply bind_ok in Hf as (cr1 & Hc & Hf). destruct (IH _ Hf) as [IH1 IH2].
  assert ((check_conflicts c ≠ [] → truthy_str (check_keep_branch c) = true) ∧
          ∀ p, p ∈ dict_keys cr1 ↔ p ∈ dict_keys cr ∨ head (check_conflicts c) = Some p) as [H1 H2].
  { unfold check_decision in Hc. destruct (check_conflicts c) as [|path paths].
    - injection Hc as <-. split; [done|]. intros p. cbn. split; [by left|]. by intros [?|?].
    - destruct (check_keep_branch c) as [[|ch b]|]; try done. injection Hc as <-. split; [done|].
      intros p. rewrite elem_of_dict_keys_set. cbn. split; [intros [->|?]|intros [?|[= ->]]]; auto. }
  split.
  { intros c' [->|Hc']%elem_of_cons; [done|by apply IH1]. }
  intros p. rewrite IH2, H2. split.
  - intros [[?|Hp]|(c' & Hc' & Hp)]; [by left|right; exists c; split; [left|done]|].
    right. exists c'. split; [by right|done].
  - intros [?|(c' & [->|Hc']%elem_of_cons & Hp)]; [by left; left|by left; right|].
    right. by exists c'.
Qed.

Lemma validators_decisions_ok vs cr cr' :
  foldM validator_decisions cr vs = Ok cr' →
  (∀ v, v ∈ vs → validator_kind v ≠ InfrahubKind.DATAVALIDATOR →
     validator_conclusion v = enum_value ValidatorConclusion.SUCCESS) ∧
  (∀ v c, v ∈ vs → validator_kind v = InfrahubKind.DATAVALIDATOR → c ∈ validator_checks v →
     check_conflicts c ≠ [] → truthy_str (check_keep_branch c) = true) ∧
  (∀ p, p ∈ dict_keys cr' ↔ p ∈ dict_keys cr ∨
     ∃ v c, v ∈ vs ∧ validator_kind v = InfrahubKind.DATAVALIDATOR ∧ c ∈ validator_checks v ∧
            head (check_conflicts c) = Some p).
Proof.
  revert cr. induction vs as [|v vs IH]; intros cr Hf.
  { injection Hf as <-. split_and!; [by intros v Hv%elem_of_nil|by intros v c Hv%elem_of_nil|].
    intros p. split; [by left|]. intros [Hp|(v & c & Hv%elem_of_nil & _)]; done. }
  cbn in Hf. apply bind_ok in Hf as (cr1 & Hv & Hf). destruct (IH _ Hf) as (IH1 & IH2 & IH3).
  unfold validator_decisions in Hv. destruct (decide (validator_kind v = InfrahubKind.DATAVALIDATOR)) as [Hk|Hk].
  - apply check_decisions_ok in Hv as [H1 H2]. split_and!.
    + intros v' [->|Hv']%elem_of_cons; [done|by apply IH1].
    + intros v' c [->|Hv']%elem_of_cons; [intros _; apply H1|by apply IH2].
    + intros p. rewrite IH3, H2. setoid_rewrite elem_of_cons. split.
      * intros [[?|(c & ? & ?)]|(v' & c & ? & ? & ? & ?)]; [by left|right; exists v, c; auto|].
        right. exists v', c. auto.
      * intros [?|(v' & c & [->|?] & ? & ? & ?)]; [by left; left|left; right; by exists c|].
        right. by exists v', c.
  - case_decide as Hs; [|done]. injection Hv as <-. split_and!.
    + intros v' [->|Hv']%elem_of_cons; [done|by apply IH1].
    + intros v' c [->|Hv']%elem_of_cons; [done|by apply IH2].
    + intros p. rewrite IH3. setoid_rewrite elem_of_cons. split.
      * intros [?|(v' & c & ? & ? & ? & ?)]; [by left|]. right. exists v', c. auto.
      * intros [?|(v' & c & [->|?] & ? & ? & ?)]; [by left|done|]. right. by exists v', c.
Qed.

(** C3: A proposed change becomes "merged" only from "open", when every validator that is
    linked to it once the update is written, and is not the data validator, concluded
    "success", and every data check with conflicts has a branch to keep; then exactly one
    merge is added to the history, of this proposed change, with one decision for the first
    conflict of each such check. *)
Theorem merge_gate (node_checks : System → ProposedChange → result unit) (graph_diff : World → Branch → Diff)
    (update_schema : Branch → WorldM (list SchemaUpdateMigrationInfo))
    (repositories : World → string → list Repository)
    (has_service has_background : bool) (default_branch : string) (now : Z)
    (id : string) (data : UpdateInput) (s s' : System) (migrations : list SchemaUpdateMigrationInfo) (is_default : bool) :
  mutate_update node_checks graph_diff update_schema repositories has_service has_background
    default_branch now id data s = (Ok migrations, s') →
  data_state data = Some (Some (mkStateInput (Some (Some "merged")) is_default)) →
  ∃ obj pc src cr,
    dict_get (proposed_changes s) id = Some obj ∧ pc_state obj = ProposedChangeState.OPEN ∧
    dict_get (proposed_changes s') id = Some pc ∧ pc_state pc = ProposedChangeState.MERGED ∧
    pc_validations pc = match data_validations data with Some ids => py_set ids | None => pc_validations obj end ∧
    let linked v := ∃ n, n ∈ pc_validations pc ∧ dict_get (validators s') n = Some v in
    (∀ v, linked v → validator_kind v ≠ InfrahubKind.DATAVALIDATOR →
       validator_conclusion v = enum_value ValidatorConclusion.SUCCESS) ∧
    (∀ v c, linked v → validator_kind v = InfrahubKind.DATAVALIDATOR →
       c ∈ validator_checks v → check_conflicts c ≠ [] → truthy_str (check_keep_branch c) = true) ∧
    merges s' = merges s ++ [(id, src, cr)] ∧
    ∀ p, p ∈ dict_keys cr ↔
      ∃ v c, linked v ∧ validator_kind v = InfrahubKind.DATAVALIDATOR ∧
             c ∈ validator_checks v ∧ head (check_conflicts c) = Some p.
Proof.
  intros Hu Hst. apply mutate_update_cases in Hu as [(? & ? & _)|(ms & _ & obj & pc & Hobj & _ & Hpc & Hc)]; [done|].
  cbn zeta in Hc. rewrite decide_True in Hc by (unfold state_update; by rewrite Hst).
  destruct Hc as (Hmerged & Hopen & src & cr & Hcr & Hf). injection Hf as Hp Hv _ Hm _.
  apply validators_decisions_ok in Hcr as (H1 & H2 & H3).
  assert (∀ v, v ∈ validations_of s pc ↔ ∃ n, n ∈ pc_validations pc ∧ dict_get (validators s') n = Some v) as Hlinked.
  { intros v. unfold validations_of. rewrite list_elem_of_omap. by rewrite Hv. }
  exists obj, pc, src, cr. split; [done|]. split; [done|]. split; [by rewrite Hp; cbn; rewrite dict_get_set_eq|].
  split; [done|]. split; [by apply apply_update_validations in Hpc|]. split_and!.
  - intros v Hl. by apply H1, Hlinked.
  - intros v c Hl. by apply H2, Hlinked.
  - done.
  - intros p. rewrite H3. setoid_rewrite Hlinked. split; [|by right]. by intros [?%elem_of_nil|?].
Qed.

(** ** A concrete run *)

Definition example_change : ProposedChange :=
  mkProposedChange "dev" "main" ProposedChangeState.OPEN true ["v1"; "v2"] [].
Definition example_system : System :=
  mkSystem removal_world [("pc1", example_change)]
    [("v1", mkValidator InfrahubKind.DATAVALIDATOR "failure" [mkDataCheck ["data/a/height/value"] (Some "source")]);
     ("v2", mkValidator "CoreSchemaValidator" "success" [])] ["pc1"; "v1"; "v2"] [] [] [].
Definition example_checks : System → ProposedChange → result unit := λ _ _, Ok tt.
Definition example_delete : System → string → result (list string) := λ _ id, Ok [id; "v1"; "v2"].
Definition example_diff : World → Branch → Diff := λ _ _, mkDiff [] [] [] [].
Definition example_update_schema : Branch → WorldM (list SchemaUpdateMigrationInfo) := λ _, mret [].
Definition example_repositories : World → string → list Repository := λ _ _, [].
Definition example_input : UpdateInput := mkUpdateInput (Some (Some (mkStateInput (Some (Some "merged")) false))) None None None [].
Definition example_update : result (list SchemaUpdateMigrationInfo) * System :=
  mutate_update example_checks example_diff example_update_schema example_repositories true true
    "main" 200 "pc1" example_input example_system.

Lemma merge_gate_witness :
  ∃ obj pc src cr,
    dict_get (proposed_changes example_system) "pc1" = Some obj ∧
    dict_get (proposed_changes example_update.2) "pc1" = Some pc ∧
    pc_state pc = ProposedChangeState.MERGED ∧
    merges example_update.2 = merges example_system ++ [("pc1", src, cr)].
Proof.
  destruct (merge_gate example_checks example_diff example_update_schema example_repositories true true
    "main" 200 "pc1" example_input example_system example_update.2 [] false)
    as (obj & pc & src & cr & Hobj & _ & Hpc & Hst & _ & _ & _ & Hm & _).
  - vm_compute. reflexivity.
  - reflexivity.
  - exists obj, pc, src, cr. split; [exact Hobj|]. split; [exact Hpc|]. split; [exact Hst|exact Hm].
Defined.

(** A proposed change is merged, cannot be reopened, and is deleted. *)
Definition example_reopen_input : UpdateInput := mkUpdateInput (Some (Some (mkStateInput (Some (Some "open")) false))) None None None [].
Definition example_reopen : result (list SchemaUpdateMigrationInfo) * System :=
  mutate_update example_checks example_diff example_update_schema example_repositories true true
    "main" 300 "pc1" example_reopen_input example_update.2.
Definition example_deletion : result unit * System := mutate_delete example_delete "pc1" example_reopen.2.
Lemma proposed_change_lifecycle_witness :
  is_ok example_reopen.1 = false ∧ merged_ids example_deletion.2 = ["pc1"] ∧ NoDup (merged_ids example_deletion.2) ∧
  dict_get (proposed_changes example_deletion.2) "pc1" = None.
Proof.
  split; [by vm_compute|]. split; [by vm_compute|].
  destruct (proposed_change_lifecycle example_checks example_delete example_diff example_update_schema example_repositories
    true true "main" example_system example_deletion.2) as (_ & Hgone & Honce & _).
  - intros id ->%list_elem_of_singleton. split; [left|apply not_elem_of_nil].
  - intros id []%elem_of_nil.
  - reflexivity.
  - eapply rtc_l; [apply (step_update _ _ _ _ _ _ _ _ 200 "pc1" example_input _ example_update.1); by vm_compute|].
    eapply rtc_l; [eapply (step_update _ _ _ _ _ _ _ _ 300 "pc1" example_reopen_input _ example_reopen.1 example_reopen.2); by vm_compute|].
    apply rtc_once, (step_delete _ _ _ _ _ _ _ _ "pc1" _ example_deletion.1). by vm_compute.
  - split; [exact Honce|]. apply Hgone. vm_compute. left.
Defined.
