(* ===== verification/Attribute.v ===== *)
(** * Attributes of a node

    [backend/infrahub/core/attribute.py]: the classes of attributes, the validation of a
    value, its form in the database, and the operations that change the object.  A class is
    a constructor of [AttributeClass]; the methods that it overrides are cases of one
    definition.  Regular expressions, dates, URLs, the hash of passwords and ujson are
    parameters, in [Libraries]. *)

From stdpp Require Import prelude strings pretty.
From Stdlib Require Import Ascii.
From S2P Require Import Prelude PyString PyDict SdkUtils Constants HashModel SchemaDefs PyValue Enums PropertyMixin IpNetwork IpText Branch.

#[local] Open Scope Z_scope.

(** ** What the code calls *)

Record Libraries := mkLibraries {
  now : Z;
  (** [re.match(pattern, text)]; [None]: the pattern raises [re.error] *)
  re_match : string → string → option bool;
  (** [pendulum.parse]: the instant, when it returns a [DateTime] *)
  pendulum_parse : string → option Z;
  (** [DateTime.now().subtract] *)
  pendulum_subtract : list (string * Z) → result Z;
  (** [httpx.URL(url)]: the scheme and the location *)
  httpx_url : string → result (string * string);
  (** [bcrypt.hashpw], with the salt of a call of [gensalt] *)
  bcrypt_hashpw : nat → string → string;
  ujson_dumps : json → string;
  ujson_loads : string → result json;
}.

(** ** Times ([python_sdk/infrahub_sdk/timestamp.py]) *)

(** [re.search("(\d+)u", text)]: the number before the first unit [u] that follows digits;
    [run] is the number being read. *)
Fixpoint search_unit (u : ascii) (run : option Z) (s : string) : option Z :=
  match s with
  | EmptyString => None
  | String c s' =>
      if is_digit c then search_unit u (Some (10 * default 0 run + default 0 (digit_value 10 c))) s'
      else match run with
           | Some n => if bool_decide (c = u) then Some n else search_unit u None s'
           | None => search_unit u None s'
           end
  end.
(** The longer names of a unit start with its letter. *)
Definition REGEX_MAPPING : list (string * ascii) := [("seconds", "s"%char); ("minutes", "m"%char); ("hours", "h"%char)].

Section attribute.
Context (lib : Libraries).

Definition _parse_string (value : string) : result Z :=
  match pendulum_parse lib value with
  | Some t => Ok t
  | None =>
      match omap (λ '(key, u), n ← search_unit u None value; Some (key, n)) REGEX_MAPPING with
      | [] => Err (TimestampFormatError "Invalid time format")
      | params => pendulum_subtract lib params
      end
  end.
(** [Timestamp(value)], for a value that is not a date *)
Definition timestamp_of (value : PyValue) : result Z :=
  match value with PVal (JStr s) => _parse_string s | _ => Ok (now lib) end.

(** [is_valid_url] of [python_sdk/infrahub_sdk/utils.py] *)
Definition is_valid_url (url : PyValue) : result bool :=
  match url with
  | PVal (JStr url) =>
      if str_contains "://" url || startswith url "/" then
        match httpx_url lib (if str_contains "://" url then url else "http://localhost" +:+ url) with
        | Ok (scheme, netloc) => Ok (negb (bool_decide (scheme = "")) && negb (bool_decide (netloc = "")))
        | Err (TypeError _) => Ok false
        | Err e => Err e
        end
      else Ok false
  | _ => Ok false
  end.

(** [hash_password] of [helpers.py] *)
Definition hash_password (salt : nat) (password : string) : string := bcrypt_hashpw lib salt password.

(** ** Classes *)

Inductive AttributeClass :=
  | ClsAnyAttribute | ClsString | ClsHashedPassword | ClsInteger | ClsBoolean | ClsDateTime | ClsDropdown | ClsURL
  | ClsIPNetwork | ClsIPHost | ClsListAttribute | ClsJSONAttribute.
Definition class_names : list (string * AttributeClass) :=
  [("AnyAttribute", ClsAnyAttribute); ("String", ClsString); ("HashedPassword", ClsHashedPassword); ("Integer", ClsInteger);
   ("Boolean", ClsBoolean); ("DateTime", ClsDateTime); ("Dropdown", ClsDropdown); ("URL", ClsURL); ("IPNetwork", ClsIPNetwork);
   ("IPHost", ClsIPHost); ("ListAttribute", ClsListAttribute); ("JSONAttribute", ClsJSONAttribute)].
(** [ATTRIBUTE_TYPES[self.kind].get_infrahub_class()] *)
Definition get_class (schema : AttributeSchema) : result AttributeClass :=
  name ← require (KeyError (a_kind schema)) (dict_get ATTRIBUTE_TYPES (a_kind schema));
  require (AttributeError name) (dict_get class_names name).

(** [isinstance(value, cls.type)]: a boolean is an integer. *)
Definition isinstance (cls : AttributeClass) (value : PyValue) : bool :=
  match cls, value with
  | ClsAnyAttribute, _ => true
  | (ClsString | ClsHashedPassword | ClsDateTime | ClsDropdown | ClsURL | ClsIPNetwork | ClsIPHost), PVal (JStr _) => true
  | ClsInteger, PVal (JInt _ | JBool _) => true
  | ClsBoolean, PVal (JBool _) => true
  | ClsListAttribute, PVal (JList _) => true
  | ClsJSONAttribute, PVal (JDict _ | JList _) => true
  | _, _ => false
  end.

(** ** Validation *)

Definition invalid (name msg : string) : exn := ValidationError (name +:+ ": " +:+ msg).

Definition base_validate_format (cls : AttributeClass) (value : PyValue) (name : string) (schema : AttributeSchema) : result unit :=
  let value_to_check := if is_enum schema then enum_to_value value else value in
  raise_if (negb (isinstance cls value_to_check)) (invalid name "is not of type").

Definition validate_format (cls : AttributeClass) (value : PyValue) (name : string) (schema : AttributeSchema) : result unit :=
  let not_valid := invalid name "is not a valid value" in
  match cls with
  | ClsAnyAttribute => Ok tt
  | _ =>
      _ ← base_validate_format cls value name schema;
      match cls with
      | ClsDateTime =>
          if negb (truthy_value value) && a_optional schema then Ok tt
          else match timestamp_of value with Err (TimestampFormatError _) => Err not_valid | Err e => Err e | Ok _ => Ok tt end
      | ClsURL => valid ← is_valid_url value; raise_if (negb valid) not_valid
      | ClsIPNetwork => raise_if (negb (is_ok (read_network (value_str value)))) not_valid
      | ClsIPHost => raise_if (negb (is_ok (read_interface (value_str value)))) not_valid
      | _ => Ok tt
      end
  end.

(** [len(value)] *)
Definition py_len (value : PyValue) : result Z :=
  match value with
  | PVal (JStr s) => Ok (Z.of_nat (String.length s))
  | PVal (JList l) => Ok (Z.of_nat (length l))
  | PVal (JDict d) => Ok (Z.of_nat (length d))
  | _ => Err (TypeError "object has no len()")
  end.
(** An optional limit counts when it is not zero. *)
Definition limit (n : option Z) : option Z := match n with Some n => if n =? 0 then None else Some n | None => None end.

Definition check_regex (value : PyValue) (name : string) (schema : AttributeSchema) : result unit :=
  if truthy_str (a_regex schema) then
    match re_match lib (default "" (a_regex schema)) (value_str value) with
    | None => Err (invalid name "The regex defined in the schema is not valid")
    | Some is_valid => raise_if (negb is_valid) (invalid name "must be conform with the regex")
    end
  else Ok tt.
Definition check_length (value : PyValue) (name : string) (schema : AttributeSchema) : result unit :=
  _ ← (match limit (a_min_length schema) with
       | Some n => len ← py_len value; raise_if (len <? n) (invalid name "must have a minimum length of")
       | None => Ok tt end);
  match limit (a_max_length schema) with
  | Some n => len ← py_len value; raise_if (n <? len) (invalid name "must have a maximum length of")
  | None => Ok tt
  end.
Definition check_enum (value : PyValue) (name : string) (schema : AttributeSchema) : result unit :=
  if is_enum schema then
    match convert_value_to_enum 0 schema value with
    | Err (ValueError _) => Err (invalid name "must be one of")
    | Err e => Err e
    | Ok _ => Ok tt
    end
  else Ok tt.
Definition check_choice (value : PyValue) (name : string) (schema : AttributeSchema) : result unit :=
  choices ← require (TypeError "'NoneType' object is not iterable") (a_choices schema);
  raise_if (negb (existsb (value_eq value) ((λ c, PVal (JStr (c_name c))) <$> choices))) (invalid name "must be one of").

Definition validate_content (cls : AttributeClass) (value : PyValue) (name : string) (schema : AttributeSchema) : result unit :=
  _ ← check_regex value name schema;
  _ ← check_length value name schema;
  _ ← check_enum value name schema;
  match cls with ClsDropdown => check_choice value name schema | _ => Ok tt end.

Definition validate (cls : AttributeClass) (value : PyValue) (name : string) (schema : AttributeSchema) : result unit :=
  if is_none value then
    if a_optional schema then Ok tt else Err (invalid name "A value must be provided for")
  else
    _ ← validate_format cls value name schema;
    validate_content cls value name schema.

(** ** The form of a value in the database *)

(** [serialize_value]; [salt] is for the passwords. *)
Definition serialize_value (cls : AttributeClass) (salt : nat) (value : PyValue) : result PyValue :=
  match cls with
  | ClsHashedPassword => Ok (PVal (JStr (hash_password salt (value_str value))))
  | ClsIPNetwork => i ← read_network (value_str value); Ok (PVal (JStr (network_with_prefixlen i)))
  | ClsIPHost => i ← read_interface (value_str value); Ok (PVal (JStr (interface_with_prefixlen i)))
  | ClsListAttribute | ClsJSONAttribute =>
      match value with PVal v => Ok (PVal (JStr (ujson_dumps lib v))) | _ => Err (TypeError "is not JSON serializable") end
  | _ => Ok (enum_to_value value)
  end.
Definition deserialize_value (cls : AttributeClass) (value : json) : result PyValue :=
  match cls, value with
  | ClsListAttribute, JStr s => PVal <$> ujson_loads lib s
  | ClsJSONAttribute, JStr (String c s) => PVal <$> ujson_loads lib (String c s)
  | _, _ => Ok (PVal value)
  end.
Definition value_from_db (cls : AttributeClass) (value : json) : result PyValue :=
  if py_eq value (JStr NULL_VALUE) then Ok (PVal JNull) else deserialize_value cls value.

(** The address of an [IPNetwork] or of an [IPHost] ([obj]). *)
Definition ip_obj (cls : AttributeClass) (value : PyValue) : result IPInterface :=
  _ ← raise_if (negb (truthy_value value)) (ValueError "value must be defined");
  match cls with ClsIPNetwork => read_network (value_str value) | _ => read_interface (value_str value) end.
(** A property of the address that is [None] for an empty value. *)
Definition ip_property {A} (f : IPInterface → A) (cls : AttributeClass) (value : PyValue) : result (option A) :=
  if truthy_value value then i ← ip_obj cls value; Ok (Some (f i)) else Ok None.

Definition obj_version (i : IPInterface) : IPVersion := ad_version (if_address i).
Definition ip_text_of (i : IPInterface) (n : Z) : string := string_from_ip_int (obj_version i) n.
Definition attr_version := ip_property (λ i, version_number (obj_version i)).
Definition attr_prefixlen := ip_property if_prefixlen.
Definition attr_broadcast_address := ip_property (λ i, ip_text_of i (broadcast_address (if_network i))).
Definition attr_hostmask := ip_property (λ i, ip_text_of i (hostmask (if_network i))).
Definition attr_netmask := ip_property (λ i, ip_text_of i (netmask (if_network i))).
Definition attr_num_addresses := ip_property (λ i, num_addresses (if_network i)).
Definition attr_network_address := ip_property (λ i, address_str (if_address i)).
(** The text of the address of [with_netmask]: an interface leaves the scope out. *)
Definition mask_base (cls : AttributeClass) (i : IPInterface) : string :=
  match cls with ClsIPNetwork => address_str (if_address i) | _ => ip_text_of i (ad_ip (if_address i)) end.
Definition attr_with_hostmask (cls : AttributeClass) :=
  ip_property (λ i, mask_base cls i +:+ "/" +:+ ip_text_of i (hostmask (if_network i))) cls.
Definition attr_with_netmask (cls : AttributeClass) :=
  ip_property (λ i, mask_base cls i +:+ "/" +:+ ip_text_of i (netmask (if_network i))) cls.
Definition attr_ip := ip_property (λ i, ip_text_of i (ad_ip (if_address i))).
(** The scope stays when the address is the one of the network. *)
Definition network_str (i : IPInterface) : string :=
  (if has_host_bits i then ip_text_of i (network_address (if_network i)) else address_str (if_address i)) +:+ "/" +:+ pretty (if_prefixlen i).
Definition attr_network := ip_property network_str.
Definition network_address_integer (cls : AttributeClass) (value : PyValue) : result Z := i ← ip_obj cls value; Ok (ad_ip (if_address i)).
(** [network_address_binary], [ip_binary] *)
Definition ip_binary (cls : AttributeClass) (value : PyValue) : result string :=
  i ← ip_obj cls value; Ok (ip_binary_str (obj_version i) (ad_ip (if_address i))).

(** [data[key] = value] with an optional number *)
Definition opt_int (o : option Z) : PyValue := PVal (match o with Some n => JInt n | None => JNull end).

Definition to_db (cls : AttributeClass) (salt : nat) (is_default value : PyValue) : result (list (string * PyValue)) :=
  if is_none value then Ok [("is_default", is_default); ("value", PVal (JStr NULL_VALUE))]
  else
    v ← serialize_value cls salt value;
    let data := [("is_default", is_default); ("value", v)] in
    match cls with
    | ClsIPNetwork | ClsIPHost =>
        version ← attr_version cls value;
        binary_address ← ip_binary cls value;
        prefixlen ← attr_prefixlen cls value;
        Ok (data ++ [("version", opt_int version); ("binary_address", PVal (JStr binary_address)); ("prefixlen", opt_int prefixlen)])
    | _ => Ok data
    end.

Definition get_db_node_type (cls : AttributeClass) (value : PyValue) : string :=
  match cls with
  | ClsIPNetwork => if is_none value then "default" else "ipnetwork"
  | ClsIPHost => if is_none value then "default" else "iphost"
  | _ => "default"
  end.

(** ** Dropdowns *)

(** [color], [description], [label]: the property of the first choice with the value. *)
Definition choice_property (f : DropdownChoice → option string) (schema : AttributeSchema) (value : PyValue) : string :=
  if truthy_list (a_choices schema) then
    match head (filter (λ c, value_eq (PVal (JStr (c_name c))) value = true) (default [] (a_choices schema))) with
    | Some selected => if truthy_str (f selected) then default "" (f selected) else ""
    | None => ""
    end
  else "".
End attribute.
