(* ===== verification/AttributeObject.v ===== *)
(** * Attribute objects

    The operations of [BaseAttribute] ([backend/infrahub/core/attribute.py]) that read and
    change the object, with the queries of [core/query/attribute.py] that they execute:
    [__init__], [load_from_db], [from_graphql], [save], [delete], [get_create_data],
    [to_graphql].  A state holds the object, a counter for what is new at each call (the
    classes of enumerations, the salts of passwords), and the queries executed with their
    parameters. *)

From stdpp Require Import prelude strings.
From S2P Require Import Prelude PyString PyDict SdkUtils Constants HashModel SchemaDefs PyValue Enums PropertyMixin IpNetwork IpText Branch Attribute.

#[local] Open Scope Z_scope.

(** ** Data *)

Record BaseAttribute := mkBaseAttribute {
  at_id : PyValue;
  at_db_id : option string;
  at_updated_at : option Z;
  at_at : Z;
  at_is_default : PyValue;
  at_is_from_profile : PyValue;
  at_value : PyValue;
  at_properties : Properties;
}.
#[export] Instance BaseAttribute_rebuild : Rebuild BaseAttribute := λ a,
  mkBaseAttribute (at_id a) (at_db_id a) (at_updated_at a) (at_at a) (at_is_default a) (at_is_from_profile a) (at_value a) (at_properties a).
#[export] Program Instance BaseAttribute_properties : HasProperties BaseAttribute := {|
  properties := at_properties;
  with_properties p a := a <| at_properties := p |>;
|}.
Solve All Obligations with intros; repeat match goal with x : BaseAttribute |- _ => destruct x end; reflexivity.

(** What the methods read of the attribute and never change. *)
Record AttributeInfo := mkAttributeInfo {
  ai_name : string;
  ai_class : AttributeClass;
  ai_schema : AttributeSchema;
  ai_branch : Branch;
  ai_node : PeerNode;
  ai_node_db_id : string;
}.

(** [AttributeFromDB]; an edge of the graph, and the row of the attribute. *)
Record AttributeFromDB := mkAttributeFromDB {
  fd_attr_id : string;
  fd_attr_uuid : string;
  fd_value : json;
  fd_content : list (string * json);
  fd_updated_at : option string;
  fd_is_default : json;
  fd_is_from_profile : bool;
  fd_node_properties : list (string * string);
  fd_flag_properties : list (string * json);
}.
#[export] Instance AttributeFromDB_rebuild : Rebuild AttributeFromDB := λ d,
  mkAttributeFromDB (fd_attr_id d) (fd_attr_uuid d) (fd_value d) (fd_content d) (fd_updated_at d) (fd_is_default d) (fd_is_from_profile d)
    (fd_node_properties d) (fd_flag_properties d).
Record DbEdge := mkDbEdge { de_id : string; de_branch : string }.
Record CurrentAttribute := mkCurrent {
  ca_data : AttributeFromDB;
  ca_edge : string → option DbEdge;
}.

Inductive AttributeInput :=
  | FromDB (data : AttributeFromDB)
  | FromDict (data : list (string * PyValue))
  | FromValue (value : PyValue).

(** The queries that write, with their parameters. *)
Inductive AttrQuery :=
  | AttributeUpdateValueQuery (attr_uuid : PyValue) (branch : string) (branch_level at_ : Z) (content : list (string * PyValue))
      (node_type : string)
  | AttributeUpdateFlagQuery (attr_uuid : PyValue) (branch : string) (branch_level at_ : Z) (flag_name : string) (flag_value : PyValue)
  | AttributeUpdateNodePropertyQuery (attr_uuid : PyValue) (branch : string) (branch_level at_ : Z) (prop_name : string) (prop_id : json)
  | UpdateEdgesTo (ids : list string) (to : Z)
  | AddRelationship (src dst rel_type branch : string) (branch_level at_ : Z) (status : string).

Record AttrState := mkAttrState {
  attr : BaseAttribute;
  fresh : nat;
  attr_queries : list AttrQuery;
}.
#[export] Instance AttrState_rebuild : Rebuild AttrState := λ s, mkAttrState (attr s) (fresh s) (attr_queries s).

Definition on_attr {A} (m : Exec BaseAttribute A) : Exec AttrState A := λ s,
  let '(r, a) := m (attr s) in (r, s <| attr := a |>).
Definition next_fresh : Exec AttrState nat := λ s, (Ok (fresh s), s <| fresh := S (fresh s) |>).
Definition run_query (q : AttrQuery) : Exec AttrState unit := modify (λ s, s <| attr_queries := attr_queries s ++ [q] |>).
Definition set_value (v : PyValue) : Exec AttrState unit := modify (λ s, s <| attr := (attr s) <| at_value := v |> |>).

Section attribute.
Context (lib : Libraries) (global_branch : Branch) (info : AttributeInfo).
#[local] Abbreviation schema := (ai_schema info).
#[local] Abbreviation cls := (ai_class info).

Definition attr_branch : Branch :=
  if bool_decide (a_branch schema = Some BranchSupportType.AGNOSTIC) then global_branch else ai_branch info.
Definition default_value : PyValue := PVal (default JNull (a_default_value schema)).
(** [self.schema.convert_value_to_enum(value)] makes a new class at each call. *)
Definition to_enum (value : PyValue) : Exec AttrState PyValue := id ← next_fresh; lift (convert_value_to_enum id schema value).
Definition validate_self (value : PyValue) : result unit := validate lib cls value (ai_name info) schema.

(** ** Loading *)

Definition load_from_db (data : AttributeFromDB) : Exec BaseAttribute unit :=
  value ← lift (value_from_db lib cls (fd_value data));
  _ ← modify (λ a, a <| at_value := value |> <| at_is_default := PVal (fd_is_default data) |>
                     <| at_is_from_profile := PVal (JBool (fd_is_from_profile data)) |>
                     <| at_id := PVal (JStr (fd_attr_uuid data)) |> <| at_db_id := Some (fd_attr_id data) |>);
  _ ← on_properties (for_each (λ name, match dict_get (fd_flag_properties data) name with
                                       | Some v => modify (set_flag name (PVal v)) | None => mret tt end) _flag_properties);
  _ ← on_properties (for_each (λ name, match dict_get (fd_node_properties data) name with
                                       | Some uuid => _set_node_property name (PVal (JStr uuid)) | None => mret tt end) _node_properties);
  a ← get_state;
  match at_updated_at a, fd_updated_at data with
  | None, Some (String c t) => updated_at ← lift (_parse_string lib (String c t)); modify (λ a, a <| at_updated_at := Some updated_at |>)
  | _, _ => mret tt
  end.

(** [setattr(self, field_name, data.get(field_name, None))] *)
Definition set_field (data : list (string * PyValue)) (name : string) : Exec BaseAttribute unit :=
  let value := default (PVal JNull) (dict_get data name) in
  if bool_decide (name = "id") then modify (λ a, a <| at_id := value |>) else on_properties (set_property name value).
Definition load_from_dict (data : list (string * PyValue)) : Exec BaseAttribute unit :=
  _ ← modify (λ a, a <| at_value := default (PVal JNull) (dict_get data "value") |>
                     <| at_is_default := default (at_is_default a) (dict_get data "is_default") |>
                     <| at_is_from_profile := default (at_is_from_profile a) (dict_get data "is_from_profile") |>);
  _ ← for_each (set_field data) ("id" :: _flag_properties ++ _node_properties);
  a ← get_state;
  match at_updated_at a, dict_get data "updated_at" with
  | None, Some t => updated_at ← lift (timestamp_of lib t); modify (λ a, a <| at_updated_at := Some updated_at |>)
  | _, _ => mret tt
  end.

Definition load_data (data : AttributeInput) : Exec BaseAttribute unit :=
  match data with
  | FromDB d => load_from_db d
  | FromDict d => load_from_dict d
  | FromValue (PVal (JDict d)) => load_from_dict (prod_map id PVal <$> d)
  | FromValue (PVal JNull) => modify (λ a, a <| at_is_default := PVal (JBool true) |>)
  | FromValue v => modify (λ a, a <| at_value := v |>)
  end.

(** The arguments of [__init__] for the object itself; [kwargs] are the properties. *)
Definition init_object (id : PyValue) (db_id : option string) (updated_at : option Z) (at_ : Z) (is_default is_from_profile : bool) :
    BaseAttribute :=
  mkBaseAttribute id db_id updated_at at_ (PVal (JBool is_default)) (PVal (JBool is_from_profile)) (PVal JNull) default_properties.

(** The end of [__init__]: the default value, the validation, and the enumeration. *)
Definition apply_default : Exec AttrState unit :=
  s ← get_state;
  if is_none (at_value (attr s)) && negb (is_none default_value)
  then modify (λ s, s <| attr := (attr s) <| at_value := default_value |> <| at_is_default := PVal (JBool true) |> |>)
  else mret tt.
Definition validate_value : Exec AttrState unit :=
  s ← get_state;
  if is_none (at_value (attr s)) then mret tt else lift (validate_self (at_value (attr s))).
Definition convert_value : Exec AttrState unit :=
  s ← get_state;
  if is_enum schema && truthy_value (at_value (attr s)) then v ← to_enum (at_value (attr s)); set_value v else mret tt.
Definition default_flags : Exec Properties unit :=
  modify (λ p, p <| p_is_protected := if is_none (p_is_protected p) then PVal (JBool false) else p_is_protected p |>
                 <| p_is_visible := if is_none (p_is_visible p) then PVal (JBool true) else p_is_visible p |>).

(** [__init__], on an object that [init_object] made *)
Definition attribute_init (data : AttributeInput) (kwargs : list (string * PyValue)) (ids : list (string * json)) : Exec AttrState unit :=
  _ ← on_attr (on_properties (_ ← _init_node_property_mixin kwargs ids; _init_flag_property_mixin kwargs));
  _ ← on_attr (load_data data);
  _ ← apply_default;
  _ ← validate_value;
  _ ← convert_value;
  on_attr (on_properties default_flags).

Definition get_value (a : BaseAttribute) : PyValue := enum_to_value (at_value a).
Definition set_default_value : Exec AttrState unit :=
  _ ← set_value default_value;
  if is_enum schema && truthy_value default_value then v ← to_enum default_value; set_value v else mret tt.

(** ** [from_graphql] *)

Definition graphql_value (data : list (string * PyValue)) : Exec AttrState bool :=
  match dict_get data "value" with
  | Some v =>
      value_to_set ← (if is_enum schema then to_enum v else mret v);
      s ← get_state;
      if value_eq value_to_set (at_value (attr s)) then mret false else _ ← set_value value_to_set; mret true
  | None => mret false
  end.
Definition graphql_profile (changed : bool) : Exec AttrState unit :=
  s ← get_state;
  if changed && truthy_value (at_is_from_profile (attr s)) then
    _ ← on_attr (modify (λ a, a <| at_is_from_profile := PVal (JBool false) |>));
    on_attr (on_properties (_set_node_property "source" (PVal JNull)))
  else mret tt.
Definition graphql_default (data : list (string * PyValue)) : Exec AttrState bool :=
  s ← get_state;
  if dict_mem data "is_default" && negb (truthy_value (at_is_default (attr s))) then
    _ ← on_attr (modify (λ a, a <| at_is_default := PVal (JBool true) |>));
    _ ← (if dict_mem data "value" then mret tt else set_default_value);
    mret true
  else mret false.
Definition graphql_property (data : list (string * PyValue)) (name : string) : Exec AttrState bool :=
  match dict_get data name with
  | Some v =>
      s ← get_state;
      if value_eq v (get_property name (at_properties (attr s))) then mret false
      else _ ← on_attr (on_properties (set_property name v)); mret true
  | None => mret false
  end.
Definition from_graphql (data : list (string * PyValue)) : Exec AttrState bool :=
  c1 ← graphql_value data;
  _ ← graphql_profile c1;
  c2 ← graphql_default data;
  c3 ← graphql_property data "is_protected";
  c4 ← graphql_property data "is_visible";
  c5 ← graphql_property data "source";
  c6 ← graphql_property data "owner";
  mret (c1 || c2 || c3 || c4 || c5 || c6).

(** ** [save] *)

(** What the database holds, after the queries executed. *)
Context (current : list AttrQuery → option CurrentAttribute).
Context (attribute_get : list AttrQuery → list (string * string * list DbEdge)).

(** [content != self.to_db()] *)
Definition content_eq (content : list (string * json)) (data : list (string * PyValue)) : bool :=
  bool_decide (length content = length data) &&
  forallb (λ kv, match dict_get data kv.1 with Some v => value_eq (PVal kv.2) v | None => false end) content.

(** [self.to_db()], with a new salt *)
Definition self_to_db : Exec AttrState (list (string * PyValue)) :=
  salt ← next_fresh; s ← get_state; lift (to_db lib cls salt (at_is_default (attr s)) (at_value (attr s))).

Definition close_edge (edge : option DbEdge) (at_ : Z) : Exec AttrState unit :=
  match edge with
  | Some e => if bool_decide (de_branch e = b_name attr_branch) then run_query (UpdateEdgesTo [de_id e] at_) else mret tt
  | None => mret tt
  end.
(** [current_attr_result.get_rel(name)]: the row has the edge. *)
Definition close_row_edge (cur : CurrentAttribute) (name : string) (at_ : Z) : Exec AttrState unit :=
  edge ← lift (require (ValueError name) (ca_edge cur name));
  close_edge (Some edge) at_.

(** The query calls [to_db] twice: for its keys, then for its parameters. *)
Definition update_value (cur : CurrentAttribute) (at_ : Z) : Exec AttrState unit :=
  data ← self_to_db;
  if content_eq (fd_content (ca_data cur)) data then mret tt
  else
    _ ← self_to_db;
    content ← self_to_db;
    s ← get_state;
    _ ← run_query (AttributeUpdateValueQuery (at_id (attr s)) (b_name attr_branch) (b_hierarchy_level attr_branch) at_ content
                     (get_db_node_type cls (at_value (attr s))));
    close_row_edge cur "r2" at_.
Definition SUPPORTED_FLAGS : list (string * string) := [("is_visible", "rel_isv"); ("is_protected", "rel_isp")].
Definition update_flag (cur : CurrentAttribute) (at_ : Z) (flag : string * string) : Exec AttrState unit :=
  s ← get_state;
  v ← lift (require (KeyError flag.1) (dict_get (fd_flag_properties (ca_data cur)) flag.1));
  if value_eq (PVal v) (get_flag flag.1 (at_properties (attr s))) then mret tt
  else
    _ ← run_query (AttributeUpdateFlagQuery (at_id (attr s)) (b_name attr_branch) (b_hierarchy_level attr_branch) at_ flag.1
                     (get_flag flag.1 (at_properties (attr s))));
    close_row_edge cur flag.2 at_.
Definition update_node_property (cur : CurrentAttribute) (at_ : Z) (name : string) : Exec AttrState unit :=
  s ← get_state;
  let prop_id := get_node_id name (at_properties (attr s)) in
  let same := match dict_get (fd_node_properties (ca_data cur)) name with Some uuid => py_eq (JStr uuid) prop_id | None => false end in
  if truthy_json prop_id && negb same then
    _ ← run_query (AttributeUpdateNodePropertyQuery (at_id (attr s)) (b_name attr_branch) (b_hierarchy_level attr_branch) at_ name prop_id);
    close_edge (ca_edge cur ("rel_" +:+ name)) at_
  else mret tt.

(** The value is no longer the default one. *)
Definition reset_is_default : Exec AttrState unit :=
  s ← get_state;
  let a := attr s in
  if (truthy_value (at_is_default a) && (negb (is_none default_value) && negb (value_eq default_value (at_value a))))
     || (is_none default_value && negb (is_none (at_value a)))
  then on_attr (modify (λ a, a <| at_is_default := PVal (JBool false) |>)) else mret tt.

Definition _update (at_ : Z) : Exec AttrState bool :=
  s ← get_state;
  _ ← lift (validate_self (at_value (attr s)));
  _ ← reset_is_default;
  s ← get_state;
  cur ← lift (require IndexError (current (attr_queries s)));
  _ ← update_value cur at_;
  _ ← for_each (update_flag cur at_) SUPPORTED_FLAGS;
  _ ← for_each (update_node_property cur at_) _node_properties;
  mret true.
Definition attribute_save (at_ : option Z) : Exec AttrState bool :=
  s ← get_state;
  if negb (truthy_value (at_id (attr s))) || truthy_value (at_is_from_profile (attr s)) then mret false
  else _update (Timestamp (now lib) at_).

(** ** [delete] *)

Definition deleted_property (db_id : string) (at_ : Z) (row : string * string * list DbEdge) : Exec AttrState unit :=
  run_query (AddRelationship db_id row.1.1 row.1.2 (b_name attr_branch) (b_hierarchy_level attr_branch) at_ "deleted").
Definition attribute_delete `{SetOrder} (at_ : option Z) : Exec AttrState bool :=
  s ← get_state;
  match at_db_id (attr s) with
  | Some (String c r) =>
      let db_id := String c r in
      let delete_at := Timestamp (now lib) at_ in
      match attribute_get (attr_queries s) with
      | [] => mret false
      | results =>
          _ ← for_each (deleted_property db_id delete_at) results;
          let rel_ids := set_list (py_set (omap (λ e, if decide (de_branch e = b_name attr_branch) then Some (de_id e) else None)
                                             (concat results.*2))) in
          _ ← (match rel_ids with [] => mret tt | _ => run_query (UpdateEdgesTo rel_ids delete_at) end);
          _ ← run_query (AddRelationship (ai_node_db_id info) db_id "HAS_ATTRIBUTE" (b_name attr_branch)
                           (b_hierarchy_level attr_branch) delete_at "deleted");
          mret true
      end
  | _ => mret false
  end.

(** ** [get_create_data] *)

Record AttributeCreateData := mkCreateData {
  cd_name : string;
  cd_type : string;
  cd_branch : string;
  cd_branch_level : Z;
  cd_branch_support : string;
  cd_status : string;
  cd_content : list (string * PyValue);
  cd_is_default : PyValue;
  cd_is_protected : PyValue;
  cd_is_visible : PyValue;
  cd_source_prop : list json;
  cd_owner_prop : list json;
  cd_node_type : string;
}.
(** The level is that of the branch of the attribute, also when the global branch is used. *)
Definition get_create_data : Exec AttrState AttributeCreateData :=
  content ← self_to_db;
  branch_support ← lift (require (AttributeError "value") (a_branch schema));
  s ← get_state;
  let p := at_properties (attr s) in
  mret (mkCreateData (ai_name info) (a_kind schema) (b_name attr_branch) (b_hierarchy_level (ai_branch info)) (enum_value branch_support)
    "active" content (at_is_default (attr s)) (p_is_protected p) (p_is_visible p)
    (filter (λ id, truthy_json id = true) [p_source_id p]) (filter (λ id, truthy_json id = true) [p_owner_id p])
    (get_db_node_type cls (at_value (attr s)))).

(** ** [to_graphql] *)

Context (graphql_enums : bool).
Context (get_one : json → result (option PeerNode)).
Context (node_to_graphql : PeerNode → list (string * json) → result json).

Definition _filter_sensitive (value : string) (filter_sensitive : bool) : string :=
  if filter_sensitive && bool_decide (a_kind schema ∈ ["HashedPassword"; "Password"]) then "***" else value.

(** [getattr(self, name)] *)
Definition opt_text (o : option string) : PyValue := of_opt o.
Definition getattr_ip (name : string) (value : PyValue) : option (result PyValue) :=
  let text f := Some (opt_text <$> f cls value) in
  let number f := Some (opt_int <$> f cls value) in
  if bool_decide (name = "version") then number attr_version
  else if bool_decide (name = "prefixlen") then number attr_prefixlen
  else if bool_decide (name = "netmask") then text attr_netmask
  else if bool_decide (name = "hostmask") then text attr_hostmask
  else if bool_decide (name = "with_netmask") then text attr_with_netmask
  else if bool_decide (name = "with_hostmask") then text attr_with_hostmask
  else None.
Definition getattr_attribute (name : string) (a : BaseAttribute) : result PyValue :=
  let value := at_value a in
  let choice f := Ok (PVal (JStr (choice_property f schema value))) in
  let fields : list (string * PyValue) :=
    [("id", at_id a); ("db_id", of_opt (at_db_id a)); ("name", PVal (JStr (ai_name info))); ("value", value);
     ("is_default", at_is_default a); ("is_from_profile", at_is_from_profile a);
     ("is_visible", p_is_visible (at_properties a)); ("is_protected", p_is_protected (at_properties a));
     ("source_id", PVal (p_source_id (at_properties a))); ("owner_id", PVal (p_owner_id (at_properties a)))] in
  match dict_get fields name, cls with
  | Some v, _ => Ok v
  | None, ClsDropdown =>
      if bool_decide (name = "color") then choice c_color
      else if bool_decide (name = "description") then choice c_description
      else if bool_decide (name = "label") then choice c_label else Err (AttributeError name)
  | None, ClsIPNetwork =>
      match getattr_ip name value with
      | Some r => r
      | None =>
          if bool_decide (name = "broadcast_address") then opt_text <$> attr_broadcast_address cls value
          else if bool_decide (name = "network_address") then opt_text <$> attr_network_address cls value
          else if bool_decide (name = "num_addresses") then opt_int <$> attr_num_addresses cls value
          else if bool_decide (name = "network_address_integer") then (λ n, PVal (JInt n)) <$> network_address_integer cls value
          else if bool_decide (name = "network_address_binary") then (λ t, PVal (JStr t)) <$> ip_binary cls value
          else Err (AttributeError name)
      end
  | None, ClsIPHost => 
      match getattr_ip name value with
      | Some r => r
      | None =>
          if bool_decide (name = "ip") then opt_text <$> attr_ip cls value
          else if bool_decide (name = "network") then opt_text <$> attr_network cls value
          else if bool_decide (name = "ip_integer") then (λ n, PVal (JInt n)) <$> network_address_integer cls value
          else if bool_decide (name = "ip_binary") then (λ t, PVal (JStr t)) <$> ip_binary cls value
          else Err (AttributeError name)
      end
  | None, _ => Err (AttributeError name)
  end.

Definition default_node_fields : list (string * json) := [("id", JNull); ("display_label", JNull); ("__typename", JNull)].

(** One field of the payload: [None] when the code leaves it out. *)
Definition graphql_field (fields : list (string * json)) (filter_sensitive : bool) (name : string) : Exec AttrState (option PyValue) :=
  s ← get_state;
  if bool_decide (name = "updated_at") then mret (Some (opt_int (at_updated_at (attr s))))
  else if bool_decide (name = "__typename") then mret (Some (PVal (JStr (a_kind schema))))
  else if bool_decide (name ∈ _node_properties) then
    node ← on_attr (on_properties (_get_node_property get_one name));
    match node with
    | None => mret (Some (PVal JNull))
    | Some n =>
        node_fields ← lift (match fields with
                            | [] => Ok default_node_fields
                            | _ => match dict_get fields name with Some (JDict d) => Ok d | Some _ => Ok [] | None => Err (KeyError name) end end);
        payload ← lift (node_to_graphql n node_fields);
        mret (Some (PVal payload))
    end
  else
    let attribute := match strip_prefix "_" name with Some rest => rest | None => name end in
    field ← lift (getattr_attribute attribute (attr s));
    match field with
    | PEnum m =>
        if bool_decide (name = "value") then
          let v := if graphql_enums then JStr (em_name m) else em_value m in
          mret (match v with JNull => None | JStr t => Some (PVal (JStr (_filter_sensitive t filter_sensitive))) | _ => Some (PVal v) end)
        else mret None
    | PVal (JStr t) => mret (Some (PVal (JStr (_filter_sensitive t filter_sensitive))))
    | PVal JNull | PNode _ => mret None
    | PVal v => mret (Some (PVal v))
    end.

Fixpoint graphql_fields (fields : list (string * json)) (filter_sensitive : bool) (names : list string) (response : list (string * PyValue)) :
    Exec AttrState (list (string * PyValue)) :=
  match names with
  | [] => mret response
  | name :: names =>
      value ← graphql_field fields filter_sensitive name;
      graphql_fields fields filter_sensitive names (match value with Some v => dict_set response name v | None => response end)
  end.
(** [fields] is empty when none are given. *)
Definition to_graphql (fields : list (string * json)) (filter_sensitive : bool) : Exec AttrState (list (string * PyValue)) :=
  s ← get_state;
  let names := match fields with [] => ["__typename"; "value"] ++ _node_properties ++ _flag_properties | _ => dict_keys fields end in
  graphql_fields fields filter_sensitive names [("id", at_id (attr s))].
End attribute.
