(* ===== verification/AttributeFacts.v ===== *)
(** * Facts on attributes

    The theorems on [Attribute] and [AttributeObject]: a value is stored and loaded back,
    [save] makes the database hold the object, [from_graphql] says what it changed. *)

From stdpp Require Import countable prelude strings.
From Stdlib Require Import Ascii.
From S2P Require Import Prelude PyString PyDict SdkUtils Constants HashModel SchemaDefs PyValue Enums PropertyMixin IpNetwork IpText Branch Attribute AttributeObject.

#[local] Open Scope Z_scope.

(** ** Values in the database *)

(** ujson reads back the lists and the dictionaries that it wrote, and neither the empty
    text nor [NULL] is JSON. *)
Record ujson_ok (lib : Libraries) : Prop := {
  loads_dumps v : match v with JList _ | JDict _ => ujson_loads lib (ujson_dumps lib v) = Ok v | _ => True end;
  loads_empty : is_ok (ujson_loads lib "") = false;
  loads_null : is_ok (ujson_loads lib NULL_VALUE) = false;
}.

Definition is_ip (cls : AttributeClass) : bool := match cls with ClsIPNetwork | ClsIPHost => true | _ => false end.

Section values.
Context (lib : Libraries).

Lemma validate_ok cls value name schema : validate lib cls value name schema = Ok tt →
  (is_none value = true ∧ a_optional schema = true) ∨
  (is_none value = false ∧ validate_format lib cls value name schema = Ok tt ∧ validate_content lib cls value name schema = Ok tt).
Proof.
  unfold validate. destruct (is_none value); [destruct (a_optional schema); [by left|done]|].
  intros Hv. right. split; [done|]. by apply then_ok in Hv.
Qed.
(** A value that is accepted has the type of its class. *)
Lemma validate_isinstance cls value name schema : validate lib cls value name schema = Ok tt → is_none value = false →
  isinstance cls (if is_enum schema then enum_to_value value else value) = true.
Proof.
  intros Hv Hn. apply validate_ok in Hv as [[? _]|(_ & Hf & _)]; [congruence|]. unfold validate_format in Hf.
  destruct cls; [done|..]; apply then_ok in Hf as [Hf _]; apply raise_if_ok, negb_false_iff in Hf; exact Hf.
Qed.
Lemma validate_ip cls value name schema : validate lib cls value name schema = Ok tt → is_none value = false →
  (cls = ClsIPNetwork → ∃ i, read_network (value_str value) = Ok i) ∧ (cls = ClsIPHost → ∃ i, read_interface (value_str value) = Ok i).
Proof.
  intros Hv Hn. apply validate_ok in Hv as [[? _]|(_ & Hf & _)]; [congruence|]. unfold validate_format in Hf.
  split; intros ->; apply then_ok in Hf as [_ Hf]; apply raise_if_ok, negb_false_iff in Hf.
  - destruct (read_network (value_str value)); [by eexists|done].
  - destruct (read_interface (value_str value)); [by eexists|done].
Qed.

Lemma read_empty : is_ok (read_network "") = false ∧ is_ok (read_interface "") = false.
Proof. split; by vm_compute. Qed.
(** The text of an address is not empty. *)
Lemma read_truthy s i : read_network s = Ok i ∨ read_interface s = Ok i → truthy_value (PVal (JStr s)) = true.
Proof.
  intros Hr. destruct s; [|done]. destruct read_empty as [Hn Hi]. destruct Hr as [Hr|Hr]; by rewrite Hr in *.
Qed.

(** A value of the type of its class, as what stores it expects: a text for an address, no
    member of an enumeration where JSON is expected. *)
Definition storable (cls : AttributeClass) (value : PyValue) : Prop :=
  match cls with
  | ClsIPNetwork => ∃ t i, value = PVal (JStr t) ∧ read_network t = Ok i
  | ClsIPHost => ∃ t i, value = PVal (JStr t) ∧ read_interface t = Ok i
  | ClsListAttribute => ∃ l, value = PVal (JList l)
  | ClsJSONAttribute => ∃ v, value = PVal v ∧ match v with JList _ | JDict _ => True | _ => False end
  | _ => is_none value = false
  end.

(** Without an enumeration, what is accepted can be stored. *)
Lemma validated_storable cls value name schema :
  validate lib cls value name schema = Ok tt → is_none value = false → is_enum schema = false → storable cls value.
Proof.
  intros Hv Hn Henum. pose proof (validate_isinstance _ _ _ _ Hv Hn) as Hi. rewrite Henum in Hi.
  destruct (validate_ip _ _ _ _ Hv Hn) as [Hnet Hhost].
  destruct cls; try exact Hn; destruct value as [[]| |]; try done; cbn.
  - destruct (Hnet eq_refl) as [i Hread]. by eexists _, i.
  - destruct (Hhost eq_refl) as [i Hread]. by eexists _, i.
  - by eexists.
  - by eexists.
  - by eexists.
Qed.

Lemma storable_not_none cls value : storable cls value → is_none value = false.
Proof. destruct cls; cbn; try done; [intros (t & i & -> & _)..|intros (l & ->)|intros ([] & -> & Hv)]; done. Qed.

(** The text of an address, in the spelling of the database. *)
Definition canonical (cls : AttributeClass) (value : PyValue) : PyValue :=
  match cls with
  | ClsIPNetwork => match read_network (value_str value) with Ok i => PVal (JStr (network_with_prefixlen i)) | Err _ => value end
  | ClsIPHost => match read_interface (value_str value) with Ok i => PVal (JStr (interface_with_prefixlen i)) | Err _ => value end
  | _ => enum_to_value value
  end.

(** What the address says does not depend on its spelling. *)
Lemma canonical_network t i : read_network t = Ok i → read_network (network_with_prefixlen i) = Ok i.
Proof. intros Hr. destruct (read_network_valid t i Hr). by apply read_network_str. Qed.
Lemma canonical_host t i : read_interface t = Ok i →
  read_interface (interface_with_prefixlen i) = Ok (without_scope i) ∧ interface_with_prefixlen (without_scope i) = interface_with_prefixlen i.
Proof. intros Hr. split; [|done]. by eapply read_interface_str, read_interface_valid. Qed.

(** The properties that are stored for an address. *)
Definition ip_data (is_default : PyValue) (text : string) (i : IPInterface) : list (string * PyValue) :=
  [("is_default", is_default); ("value", PVal (JStr text)); ("version", PVal (JInt (version_number (obj_version i))));
   ("binary_address", PVal (JStr (ip_binary_str (obj_version i) (ad_ip (if_address i))))); ("prefixlen", PVal (JInt (if_prefixlen i)))].
Lemma to_db_network salt is_default t i : read_network t = Ok i →
  to_db lib ClsIPNetwork salt is_default (PVal (JStr t)) = Ok (ip_data is_default (network_with_prefixlen i) i).
Proof.
  intros Hr. unfold to_db, attr_version, attr_prefixlen, ip_binary, ip_property, ip_obj. cbn [is_none serialize_value value_str py_str].
  rewrite (read_truthy t i (or_introl Hr)). cbn [negb raise_if mbind result_bind]. by rewrite Hr.
Qed.
Lemma to_db_host salt is_default t i : read_interface t = Ok i →
  to_db lib ClsIPHost salt is_default (PVal (JStr t)) = Ok (ip_data is_default (interface_with_prefixlen i) i).
Proof.
  intros Hr. unfold to_db, attr_version, attr_prefixlen, ip_binary, ip_property, ip_obj. cbn [is_none serialize_value value_str py_str].
  rewrite (read_truthy t i (or_intror Hr)). cbn [negb raise_if mbind result_bind]. by rewrite Hr.
Qed.
Lemma to_db_other cls salt is_default value : is_ip cls = false → is_none value = false →
  to_db lib cls salt is_default value = (v ← serialize_value lib cls salt value; Ok [("is_default", is_default); ("value", v)]).
Proof. intros Hc Hn. unfold to_db. rewrite Hn. by destruct cls. Qed.

Lemma py_eq_str v t : py_eq v (JStr t) = bool_decide (v = JStr t).
Proof. destruct v; cbn; try (by rewrite bool_decide_eq_false_2). apply bool_decide_ext. naive_solver. Qed.

(** The text that a class writes itself is not the one of [None]. *)
Lemma value_from_db_text cls t : t ≠ NULL_VALUE → value_from_db lib cls (JStr t) = deserialize_value lib cls (JStr t).
Proof. intros Ht. unfold value_from_db. rewrite py_eq_str, bool_decide_eq_false_2; [done|]. congruence. Qed.
Lemma network_text_not_null i t : read_network t = Ok i → network_with_prefixlen i ≠ NULL_VALUE.
Proof. intros Hr Heq. apply canonical_network in Hr. rewrite Heq in Hr. by vm_compute in Hr. Qed.
Lemma host_text_not_null i t : read_interface t = Ok i → interface_with_prefixlen i ≠ NULL_VALUE.
Proof. intros Hr Heq. apply canonical_host in Hr as [Hr _]. rewrite Heq in Hr. by vm_compute in Hr. Qed.
Lemma dumps_text v : ujson_ok lib → match v with JList _ | JDict _ => True | _ => False end →
  ujson_dumps lib v ≠ NULL_VALUE ∧ ujson_dumps lib v ≠ "" ∧ ujson_loads lib (ujson_dumps lib v) = Ok v.
Proof.
  intros [Hld He Hn] Hv. specialize (Hld v). assert (ujson_loads lib (ujson_dumps lib v) = Ok v) as Hl by by destruct v.
  split_and!; [| |done]; intros Heq; rewrite Heq in Hl; [by rewrite Hl in Hn|by rewrite Hl in He].
Qed.

(** A class that stores the value as it is. *)
Definition is_plain (cls : AttributeClass) : bool :=
  match cls with ClsIPNetwork | ClsIPHost | ClsListAttribute | ClsJSONAttribute | ClsHashedPassword => false | _ => true end.

(** C9: What is stored for a value is loaded as the same value: an enumeration as the value
    of its member, and an address in the spelling of the database, which denotes the same
    address; storing again what was loaded writes the same properties.  Passwords, which
    are hashed, and the text [NULL], which stands for [None], are left out. *)
Theorem value_roundtrip cls salt salt' is_default value data :
  ujson_ok lib → cls ≠ ClsHashedPassword → storable cls value →
  (is_plain cls = true → ∃ x, enum_to_value value = PVal x ∧ x ≠ JNull ∧ x ≠ JStr NULL_VALUE) →
  to_db lib cls salt is_default value = Ok data →
  ∃ w, dict_get data "value" = Some (PVal w) ∧ value_from_db lib cls w = Ok (canonical cls value) ∧
       to_db lib cls salt' is_default (canonical cls value) = Ok data.
Proof.
  intros Hjson Hpw Hs Hplain Hdata. pose proof (storable_not_none _ _ Hs) as Hn. destruct (is_plain cls) eqn:Hp.
  - destruct (Hplain eq_refl) as (x & Hx & Hnull & HNULL). exists x.
    assert (canonical cls value = PVal x) as -> by by destruct cls.
    assert (∀ v, enum_to_value v = PVal x → is_none v = false → ∀ n, to_db lib cls n is_default v = Ok [("is_default", is_default); ("value", PVal x)]) as Hto.
    { intros v Hv Hnv n. rewrite to_db_other by (done || by destruct cls). by destruct cls; try done; cbn; rewrite Hv. }
    rewrite (Hto value Hx Hn) in Hdata. injection Hdata as <-. split_and!; [done| |apply Hto; [done|by destruct x]].
    unfold value_from_db. rewrite py_eq_str, bool_decide_eq_false_2 by done. by destruct cls, x.
  - destruct cls; try done; cbn in Hs.
    + destruct Hs as (t & i & -> & Hr). rewrite (to_db_network _ _ _ _ Hr) in Hdata. injection Hdata as <-.
      exists (JStr (network_with_prefixlen i)). assert (canonical ClsIPNetwork (PVal (JStr t)) = PVal (JStr (network_with_prefixlen i))) as ->
        by (cbn; by rewrite Hr).
      rewrite value_from_db_text by by eapply network_text_not_null. split_and!; [done|done|].
      by apply to_db_network, (canonical_network t).
    + destruct Hs as (t & i & -> & Hr). rewrite (to_db_host _ _ _ _ Hr) in Hdata. injection Hdata as <-.
      exists (JStr (interface_with_prefixlen i)). assert (canonical ClsIPHost (PVal (JStr t)) = PVal (JStr (interface_with_prefixlen i))) as ->
        by (cbn; by rewrite Hr).
      rewrite value_from_db_text by by eapply host_text_not_null. split_and!; [done|done|].
      by apply (to_db_host _ _ _ (without_scope i)), (canonical_host t).
    + destruct Hs as (l & ->). rewrite to_db_other in Hdata by done. injection Hdata as <-.
      destruct (dumps_text (JList l) Hjson I) as (HN & _ & Hl). exists (JStr (ujson_dumps lib (JList l))). split_and!; [done| |done].
      rewrite value_from_db_text by done. cbn [deserialize_value]. by rewrite Hl.
    + destruct Hs as (v & -> & Hv). rewrite to_db_other in Hdata by done. injection Hdata as <-.
      destruct (dumps_text v Hjson Hv) as (HN & He & Hl). exists (JStr (ujson_dumps lib v)). split_and!; [done| |by rewrite to_db_other].
      rewrite value_from_db_text by done. unfold deserialize_value. destruct (ujson_dumps lib v) as [|c r] eqn:Hd; [done|].
      by rewrite Hl.
Qed.
End values.

Lemma py_eq_refl v : json_wf v → py_eq v v = true.
Proof.
  induction v as [|b|z|t|l IH|d IH] using json_nested_ind; intros Hwf; cbn [py_eq].
  - done.
  - by destruct b.
  - by apply Z.eqb_refl.
  - by apply bool_decide_eq_true.
  - inversion_clear Hwf as [| | | |? Hl|]. induction IH as [|x l Hx _ IHl]; [done|]. apply Forall_cons in Hl as [Hwx Hl].
    by rewrite Hx, IHl.
  - inversion_clear Hwf as [| | | | |? Hnd Hd]. rewrite Nat.eqb_refl. cbn [andb].
    assert (∀ e, (∀ k x, (k, x) ∈ e → dict_get d k = Some x) → Forall (λ kv : string * json, json_wf kv.2 → py_eq kv.2 kv.2 = true) e →
      Forall (λ kv : string * json, json_wf kv.2) e →
      (fix eq_dict d0 := match d0 with [] => true | (k, x) :: d' => match dict_get d k with Some y => py_eq x y | None => false end && eq_dict d' end) e = true) as H.
    { intros e Hget He Hwe. induction e as [|[k x] e IHe]; [done|]. apply Forall_cons in He as [Hx He]. apply Forall_cons in Hwe as [Hwx Hwe].
      rewrite (Hget k x) by left. cbn in Hx. rewrite (Hx Hwx). apply IHe; [|done|done]. intros; apply Hget; by right. }
    apply H; [|done|done]. intros k x Hin. by apply dict_get_in.
Qed.

(** ** Saving *)

Ltac nodup_keys := apply (bool_decide_eq_true_1 (NoDup _)); reflexivity.
Ltac plain_values :=
  repeat (apply Forall_cons; split; [eexists; split; [reflexivity|apply py_eq_refl; first [assumption | constructor]]|]);
  apply Forall_nil_2.

(** The value that the database stores for a value given to a query. *)
Definition to_json (v : PyValue) : json := match v with PVal v => v | PEnum m => em_value m | PNode _ => JNull end.

(** What a query changes in the row of the attribute. *)
Definition apply_query (data : AttributeFromDB) (q : AttrQuery) : AttributeFromDB :=
  match q with
  | AttributeUpdateValueQuery _ _ _ _ content _ => data <| fd_content := prod_map id to_json <$> content |>
  | AttributeUpdateFlagQuery _ _ _ _ name v => data <| fd_flag_properties := dict_set (fd_flag_properties data) name (to_json v) |>
  | AttributeUpdateNodePropertyQuery _ _ _ _ name id => data <| fd_node_properties := dict_set (fd_node_properties data) name (py_str id) |>
  | UpdateEdgesTo _ _ | AddRelationship _ _ _ _ _ _ _ => data
  end.

Section save.
Context (lib : Libraries) (global_branch : Branch) (info : AttributeInfo) (current : list AttrQuery → option CurrentAttribute).
#[local] Abbreviation cls := (ai_class info).
#[local] Abbreviation branch := (attr_branch global_branch info).

(** The row holds the object: its value, its flags, and the nodes that it has. *)
Definition holds_value (data : AttributeFromDB) (a : BaseAttribute) : Prop :=
  ∃ salt content, to_db lib cls salt (at_is_default a) (at_value a) = Ok content ∧ content_eq (fd_content data) content = true.
Definition holds_flag (data : AttributeFromDB) (a : BaseAttribute) (name : string) : Prop :=
  ∃ v, dict_get (fd_flag_properties data) name = Some v ∧ value_eq (PVal v) (get_flag name (at_properties a)) = true.
Definition holds_node (data : AttributeFromDB) (a : BaseAttribute) (name : string) : Prop :=
  truthy_json (get_node_id name (at_properties a)) = true →
  ∃ uuid, dict_get (fd_node_properties data) name = Some uuid ∧ py_eq (JStr uuid) (get_node_id name (at_properties a)) = true.
Record holds (data : AttributeFromDB) (a : BaseAttribute) : Prop := {
  h_value : holds_value data a;
  h_flags : ∀ name, name ∈ _flag_properties → holds_flag data a name;
  h_nodes : ∀ name, name ∈ _node_properties → holds_node data a name;
}.

(** An object whose flags are booleans, whose nodes are known by an id, and whose value is
    plain data of its class. *)
Record object_ok (a : BaseAttribute) : Prop := {
  ok_default : ∃ b, at_is_default a = PVal (JBool b);
  ok_value : at_value a = PVal JNull ∨ (storable cls (at_value a) ∧ ∃ x, enum_to_value (at_value a) = PVal x ∧ json_wf x);
  ok_flags : ∀ name, name ∈ _flag_properties → ∃ b, get_flag name (at_properties a) = PVal (JBool b);
  ok_nodes : ∀ name, name ∈ _node_properties → get_node_id name (at_properties a) = JNull ∨
                                            ∃ t, get_node_id name (at_properties a) = JStr t;
}.
(** A row that has the edges and the flags that every attribute has. *)
Record row_ok (cur : CurrentAttribute) : Prop := {
  row_edges : ∀ name, name ∈ ["r2"; "rel_isv"; "rel_isp"] → is_Some (ca_edge cur name);
  row_flags : ∀ name, name ∈ _flag_properties → is_Some (dict_get (fd_flag_properties (ca_data cur)) name);
}.

(** The properties that are stored: their names, and their values as JSON that equals itself. *)
Lemma to_db_ok salt a : object_ok a → ∃ content, to_db lib cls salt (at_is_default a) (at_value a) = Ok content ∧
  NoDup (dict_keys content) ∧ Forall (λ kv, ∃ x, kv.2 = PVal x ∧ py_eq x x = true) content.
Proof.
  intros [[b ->] Hv _ _]. destruct Hv as [-> |[Hs (x & Hx & Hwf)]].
  { eexists. split; [reflexivity|]. split; [nodup_keys|plain_values]. }
  pose proof (storable_not_none _ _ Hs) as Hn. destruct (is_ip cls) eqn:Hip.
  - destruct cls; try done; destruct Hs as (t & i & Ht & Hr); rewrite Ht; [rewrite (to_db_network lib _ _ t i Hr)|rewrite (to_db_host lib _ _ t i Hr)];
      (eexists; split; [reflexivity|]; split; [nodup_keys|plain_values]).
  - rewrite to_db_other by done.
    assert (∃ w, serialize_value lib cls salt (at_value a) = Ok (PVal w) ∧ json_wf w) as (w & -> & Hw).
    { destruct cls; try done; cbn in Hs |- *; rewrite ?Hx; try (by eexists; split); try (by eexists; split; [reflexivity|constructor]).
      - destruct Hs as (l & ->). by eexists; split; [reflexivity|constructor].
      - destruct Hs as (v & -> & _). by eexists; split; [reflexivity|constructor]. }
    eexists. split; [reflexivity|]. split; [nodup_keys|plain_values].
Qed.

(** What is written is what is compared at the next call. *)
Lemma content_eq_written content : NoDup (dict_keys content) → Forall (λ kv, ∃ x, kv.2 = PVal x ∧ py_eq x x = true) content →
  content_eq (prod_map id to_json <$> content) content = true.
Proof.
  intros Hnd Hall. unfold content_eq. rewrite length_fmap, bool_decide_eq_true_2 by done. cbn [andb].
  rewrite forallb_forall. intros kv Hin. apply list_elem_of_In, list_elem_of_fmap in Hin as ([k v] & -> & Hin). cbn [prod_map fst snd id].
  rewrite (dict_get_in _ _ _ Hnd Hin). rewrite Forall_forall in Hall. destruct (Hall _ Hin) as (x & Hx & Heq). cbn in Hx. subst v. done.
Qed.

(** *** The parts of the update *)

(** A part of the object: its value, a flag or a node. *)
Definition part_names : list string := "value" :: _flag_properties ++ _node_properties.
Definition holds_part (data : AttributeFromDB) (a : BaseAttribute) (k : string) : Prop :=
  if bool_decide (k = "value") then holds_value data a
  else if bool_decide (k ∈ _flag_properties) then holds_flag data a k else holds_node data a k.
Definition touches (q : AttrQuery) : option string :=
  match q with
  | AttributeUpdateValueQuery _ _ _ _ _ _ => Some "value"
  | AttributeUpdateFlagQuery _ _ _ _ name _ | AttributeUpdateNodePropertyQuery _ _ _ _ name _ => Some name
  | UpdateEdgesTo _ _ | AddRelationship _ _ _ _ _ _ _ => None
  end.
(** The query has the time [t], and the branch of the attribute if it names one. *)
Definition query_ok (t : Z) (q : AttrQuery) : Prop :=
  match q with
  | AttributeUpdateValueQuery _ b l at_ _ _ | AttributeUpdateFlagQuery _ b l at_ _ _ | AttributeUpdateNodePropertyQuery _ b l at_ _ _
  | AddRelationship _ _ _ b l at_ _ => b = b_name branch ∧ l = b_hierarchy_level branch ∧ at_ = t
  | UpdateEdgesTo _ to => to = t
  end.

Lemma holds_untouched data a q k : touches q ≠ Some k → holds_part data a k ↔ holds_part (apply_query data q) a k.
Proof.
  intros Hq. unfold holds_part, holds_value, holds_flag, holds_node.
  destruct q; cbn [touches apply_query] in *; repeat case_bool_decide; try done; cbn [fd_content fd_flag_properties fd_node_properties assign];
    try congruence; rewrite ?dict_get_set_ne by congruence; done.
Qed.
Lemma holds_untouched_all data a qs k : Forall (λ q, touches q ≠ Some k) qs → holds_part data a k ↔ holds_part (foldl apply_query data qs) a k.
Proof. intros Hqs. revert data. induction Hqs as [|q qs Hq _ IH]; intros data; [done|]. cbn [foldl]. by rewrite (holds_untouched data a q k), IH. Qed.

(** A step writes the parts [K] that the row does not hold, and nothing when it holds them. *)
Definition step_spec (cur : CurrentAttribute) (t : Z) (a : BaseAttribute) (K : list string) (m : Exec AttrState unit) : Prop :=
  ∀ f q, ∃ f' qs, m (mkAttrState a f q) = (Ok tt, mkAttrState a f' (q ++ qs)) ∧
    Forall (λ x, ∀ k, touches x = Some k → k ∈ K) qs ∧ Forall (query_ok t) qs ∧
    (∀ data, (∀ k, k ∈ K → holds_part (ca_data cur) a k → holds_part data a k) → ∀ k, k ∈ K → holds_part (foldl apply_query data qs) a k) ∧
    (cls ≠ ClsHashedPassword → (∀ k, k ∈ K → holds_part (ca_data cur) a k) → qs = []).

Lemma step_seq cur t a K1 K2 m1 m2 : step_spec cur t a K1 m1 → step_spec cur t a K2 m2 → (∀ k, k ∈ K1 → k ∉ K2) →
  step_spec cur t a (K1 ++ K2) (_ ← m1; m2).
Proof.
  intros H1 H2 Hdisj f q. destruct (H1 f q) as (f1 & qs1 & Hrun1 & Ht1 & Hq1 & Hh1 & He1).
  destruct (H2 f1 (q ++ qs1)) as (f2 & qs2 & Hrun2 & Ht2 & Hq2 & Hh2 & He2). exists f2, (qs1 ++ qs2).
  assert (∀ (K K' : list string) (qs : list AttrQuery) k, (∀ k, k ∈ K → k ∉ K') → Forall (λ x, ∀ k, touches x = Some k → k ∈ K) qs → k ∈ K' → Forall (λ x, touches x ≠ Some k) qs) as Hno.
  { intros K K' qs k HK Hall Hk. eapply Forall_impl; [exact Hall|]. intros x Hx Heq. apply (HK k); auto. }
  split_and!.
  - rewrite app_assoc. unfold mbind, exec_bind. by rewrite Hrun1, Hrun2.
  - apply Forall_app_2; [eapply Forall_impl; [exact Ht1|]|eapply Forall_impl; [exact Ht2|]]; intros x Hx k Hk; apply elem_of_app; auto.
  - by apply Forall_app_2.
  - intros data Hd k. rewrite foldl_app, elem_of_app. intros [Hk|Hk].
    + rewrite <-holds_untouched_all by by apply (Hno K2 K1 qs2 k (λ k' H2 H1, Hdisj k' H1 H2)). apply Hh1; [|done]. intros; apply Hd; [apply elem_of_app; auto|done].
    + apply Hh2; [|done]. intros k' Hk' Hc. rewrite <-holds_untouched_all by by apply (Hno K1 K2 qs1 k' Hdisj). apply Hd; [apply elem_of_app; auto|done].
  - intros Hp Hc. rewrite He1, He2; [done|done| |done|]; intros; apply Hc, elem_of_app; auto.
Qed.

Definition close_queries (e : DbEdge) (t : Z) : list AttrQuery :=
  if bool_decide (de_branch e = b_name branch) then [UpdateEdgesTo [de_id e] t] else [].
Lemma close_edge_run e t a f q :
  close_edge global_branch info (Some e) t (mkAttrState a f q) = (Ok tt, mkAttrState a f (q ++ close_queries e t)).
Proof. unfold close_edge, close_queries. case_bool_decide; [done|]. by rewrite app_nil_r. Qed.
Lemma close_queries_ok e t : Forall (λ x, touches x = None) (close_queries e t) ∧ Forall (query_ok t) (close_queries e t).
Proof. unfold close_queries. case_bool_decide; repeat constructor. Qed.

(** A step that either finds its part in the row, or writes it and closes an edge. *)
Lemma step_one cur t a k m (edge : option DbEdge) :
  (∀ f q, (∃ f', m (mkAttrState a f q) = (Ok tt, mkAttrState a f' q) ∧ holds_part (ca_data cur) a k) ∨
          (∃ f' w', m (mkAttrState a f q) = (Ok tt, mkAttrState a f' (q ++ w' :: match edge with Some e => close_queries e t | None => [] end)) ∧
             touches w' = Some k ∧ query_ok t w' ∧ (∀ data, holds_part (apply_query data w') a k) ∧
             (cls ≠ ClsHashedPassword → ¬ holds_part (ca_data cur) a k))) →
  step_spec cur t a [k] m.
Proof.
  intros Hm f q. destruct (Hm f q) as [(f' & Hrun & Hh)|(f' & w' & Hrun & Htw & Hqw & Hh & Hn)].
  - exists f', []. rewrite app_nil_r. split_and!; [done|constructor|constructor| |done].
    intros data Hd k' ->%list_elem_of_singleton. apply Hd; [by apply list_elem_of_singleton|done].
  - set (rest := match edge with Some e => close_queries e t | None => [] end) in *.
    assert (Forall (λ x, touches x = None) rest ∧ Forall (query_ok t) rest) as [Htr Hqr].
    { subst rest. destruct edge; [apply close_queries_ok|split; constructor]. }
    exists f', (w' :: rest). split_and!; [done| |by constructor| |].
    + constructor; [intros k' Hk'; rewrite Htw in Hk'; injection Hk' as <-; by apply list_elem_of_singleton|].
      eapply Forall_impl; [exact Htr|]. intros x Hx k' Hk'. cbn in Hx. congruence.
    + intros data _ k' ->%list_elem_of_singleton. cbn [foldl]. rewrite <-holds_untouched_all; [apply Hh|].
      eapply Forall_impl; [exact Htr|]. intros x Hx. cbn in Hx. congruence.
    + intros Hp Hc. exfalso. apply (Hn Hp), Hc, list_elem_of_singleton; done.
Qed.

Lemma holds_value_salt data a : cls ≠ ClsHashedPassword → holds_value data a →
  ∀ salt content, to_db lib cls salt (at_is_default a) (at_value a) = Ok content → content_eq (fd_content data) content = true.
Proof.
  intros Hp (salt' & content' & Hto' & Heq) salt content Hto. assert (content = content') as ->; [|done].
  assert (∀ v, serialize_value lib cls salt v = serialize_value lib cls salt' v) as Hser by by destruct cls.
  unfold to_db in *. destruct (is_none (at_value a)); [congruence|]. rewrite Hser in Hto. congruence.
Qed.

Lemma update_value_step cur t a : object_ok a → row_ok cur → step_spec cur t a ["value"] (update_value lib global_branch info cur t).
Proof.
  intros Ha Hr. destruct (row_edges _ Hr "r2" ltac:(left)) as [e He]. apply step_one with (edge := Some e). intros f q.
  destruct (to_db_ok f a Ha) as (c1 & Hc1 & _). destruct (to_db_ok (S f) a Ha) as (c2 & Hc2 & _).
  destruct (to_db_ok (S (S f)) a Ha) as (c3 & Hc3 & Hnd & Hpl).
  assert (∀ n qs c, to_db lib cls n (at_is_default a) (at_value a) = Ok c →
    self_to_db lib info (mkAttrState a n qs) = (Ok c, mkAttrState a (S n) qs)) as Hself.
  { intros n qs c Hc. transitivity (to_db lib cls n (at_is_default a) (at_value a), mkAttrState a (S n) qs); [done|]. by rewrite Hc. }
  unfold update_value. rewrite (exec_step _ _ _ _ _ (Hself _ _ _ Hc1)). destruct (content_eq (fd_content (ca_data cur)) c1) eqn:Heq.
  - left. exists (S f). split; [done|]. by exists f, c1.
  - right. rewrite (exec_step _ _ _ _ _ (Hself _ _ _ Hc2)), (exec_step _ _ _ _ _ (Hself _ _ _ Hc3)).
    eexists _, (AttributeUpdateValueQuery (at_id a) _ _ t c3 _). split_and!.
    + do 2 erewrite exec_step by reflexivity. unfold close_row_edge. rewrite He. erewrite exec_step by reflexivity.
      etransitivity; [apply close_edge_run|]. cbn. by rewrite <-app_assoc.
    + done.
    + done.
    + intros data. exists (S (S f)), c3. split; [done|]. by apply content_eq_written.
    + intros Hp Hh. apply (holds_value_salt _ _ Hp) with (salt := f) (content := c1) in Hh; [congruence|done].
Qed.

Lemma update_flag_step cur t a flag : object_ok a → row_ok cur → flag ∈ SUPPORTED_FLAGS →
  step_spec cur t a [flag.1] (update_flag global_branch info cur t flag).
Proof.
  intros Ha Hr Hflag. assert (flag.1 ∈ _flag_properties ∧ flag.2 ∈ ["r2"; "rel_isv"; "rel_isp"] ∧ flag.1 ≠ "value") as (Hf & Hedge & Hv).
  { unfold SUPPORTED_FLAGS in Hflag. unfold _flag_properties. set_solver. }
  destruct (row_edges _ Hr _ Hedge) as [e He]. destruct (row_flags _ Hr _ Hf) as [v Hget]. destruct (ok_flags _ Ha _ Hf) as [b Hb].
  apply step_one with (edge := Some e). intros f q. unfold holds_part. rewrite (bool_decide_eq_false_2 (flag.1 = "value")), bool_decide_eq_true_2 by done.
  unfold update_flag. erewrite exec_step by reflexivity. rewrite Hget. erewrite exec_step by reflexivity. cbn [attr].
  destruct (value_eq (PVal v) (get_flag flag.1 (at_properties a))) eqn:Heq.
  - left. exists f. split; [done|]. by exists v.
  - right. eexists f, (AttributeUpdateFlagQuery (at_id a) _ _ t flag.1 _). split_and!.
    + erewrite exec_step by reflexivity. unfold close_row_edge. rewrite He. erewrite exec_step by reflexivity.
      etransitivity; [apply close_edge_run|]. cbn. by rewrite <-app_assoc.
    + done.
    + done.
    + intros data. exists (to_json (get_flag flag.1 (at_properties a))). cbn. rewrite dict_get_set_eq. split; [done|]. rewrite Hb. by destruct b.
    + intros _ (w & Hw & Hweq). congruence.
Qed.

Lemma update_node_step cur t a name : object_ok a → name ∈ _node_properties →
  step_spec cur t a [name] (update_node_property global_branch info cur t name).
Proof.
  intros Ha Hname. assert (name ∉ _flag_properties ∧ name ≠ "value") as [Hf Hv].
  { unfold _node_properties, _flag_properties in *. set_solver. }
  apply step_one with (edge := ca_edge cur ("rel_" +:+ name)). intros f q. unfold holds_part.
  rewrite (bool_decide_eq_false_2 (name = "value")), (bool_decide_eq_false_2 (name ∈ _flag_properties)) by done.
  unfold update_node_property. erewrite exec_step by reflexivity. cbn [attr]. unfold holds_node.
  destruct (truthy_json (get_node_id name (at_properties a))) eqn:Htr; cbn [andb].
  2: { left. exists f. split; [done|]. done. }
  destruct (match dict_get (fd_node_properties (ca_data cur)) name with Some uuid => py_eq (JStr uuid) (get_node_id name (at_properties a)) | None => false end) eqn:Heq; cbn [negb].
  - left. exists f. split; [done|]. intros _. destruct (dict_get (fd_node_properties (ca_data cur)) name) as [uuid|]; [by exists uuid|done].
  - right. destruct (ok_nodes _ Ha _ Hname) as [Hid|[t' Hid]]; [by rewrite Hid in Htr|].
    eexists f, (AttributeUpdateNodePropertyQuery (at_id a) _ _ t name _). split_and!.
    + erewrite exec_step by reflexivity. destruct (ca_edge cur ("rel_" +:+ name)) as [e|].
      * etransitivity; [apply close_edge_run|]. cbn. by rewrite <-app_assoc.
      * done.
    + done.
    + done.
    + intros data _. exists t'. rewrite Hid. cbn. rewrite dict_get_set_eq. split; [done|]. by apply bool_decide_eq_true.
    + intros _ Hh. destruct (Hh eq_refl) as (uuid & Hu & Hueq). by rewrite Hu, Hueq in Heq.
Qed.

(** *** The update *)

(** The object once [_update] has looked at its default value. *)
Definition reset_default (a : BaseAttribute) : BaseAttribute :=
  if (truthy_value (at_is_default a) && (negb (is_none (default_value info)) && negb (value_eq (default_value info) (at_value a))))
     || (is_none (default_value info) && negb (is_none (at_value a)))
  then a <| at_is_default := PVal (JBool false) |> else a.
Lemma reset_run a f q : reset_is_default info (mkAttrState a f q) = (Ok tt, mkAttrState (reset_default a) f q).
Proof. unfold reset_is_default, reset_default. erewrite exec_step by reflexivity. cbn [attr]. by destruct (_ || _). Qed.
Lemma reset_ok a : object_ok a → object_ok (reset_default a).
Proof. intros [Hd Hv Hf Hn]. unfold reset_default. destruct (_ || _); constructor; try done. by eexists. Qed.
Lemma holds_all data a : (∀ k, k ∈ part_names → holds_part data a k) ↔ holds data a.
Proof.
  unfold holds_part, part_names. split.
  - intros H. constructor.
    + specialize (H "value" ltac:(left)). by rewrite bool_decide_eq_true_2 in H.
    + intros name Hn. specialize (H name ltac:(set_solver)).
      rewrite bool_decide_eq_false_2, bool_decide_eq_true_2 in H by (done || intros ->; unfold _flag_properties in Hn; set_solver). done.
    + intros name Hn. specialize (H name ltac:(set_solver)).
      rewrite !bool_decide_eq_false_2 in H by (unfold _flag_properties, _node_properties in *; set_solver). done.
  - intros [Hv Hf Hn] k Hk. repeat case_bool_decide; [done|by apply Hf|]. apply Hn. set_solver.
Qed.

Lemma step_for_each {B} (key : B → string) cur t a (g : B → Exec AttrState unit) l :
  (∀ x, x ∈ l → step_spec cur t a [key x] (g x)) → NoDup (key <$> l) → step_spec cur t a (key <$> l) (for_each g l).
Proof.
  induction l as [|x l IH]; intros Hg Hnd.
  - intros f q. exists f, []. rewrite app_nil_r. split_and!; [done|constructor|constructor| |done]. intros data _ k Hk. by apply elem_of_nil in Hk.
  - rewrite fmap_cons in *. apply NoDup_cons in Hnd as [Hx Hnd]. cbn [for_each]. apply (step_seq cur t a [key x]).
    + apply Hg. left.
    + apply IH; [|done]. intros y Hy. apply Hg. by right.
    + intros k ->%list_elem_of_singleton. done.
Qed.
Lemma update_step cur t a : object_ok a → row_ok cur →
  step_spec cur t a part_names
    (_ ← update_value lib global_branch info cur t;
     _ ← for_each (update_flag global_branch info cur t) SUPPORTED_FLAGS;
     for_each (update_node_property global_branch info cur t) _node_properties).
Proof.
  intros Ha Hr. apply (step_seq cur t a ["value"]); [by apply update_value_step| |unfold _flag_properties, _node_properties; set_solver].
  apply (step_seq cur t a _flag_properties); [| |unfold _flag_properties, _node_properties; set_solver].
  - apply (step_for_each fst cur t a (update_flag global_branch info cur t) SUPPORTED_FLAGS); [|nodup_keys].
    intros flag Hflag. by apply update_flag_step.
  - rewrite <-(list_fmap_id _node_properties) at 1. apply (step_for_each id); [|nodup_keys]. intros name Hname. by apply update_node_step.
Qed.

Lemma attribute_save_run at_ a f q cur :
  object_ok a → truthy_value (at_id a) = true → truthy_value (at_is_from_profile a) = false →
  validate_self lib info (at_value a) = Ok tt → current q = Some cur → row_ok cur →
  let t := Timestamp (now lib) at_ in
  ∃ f' qs, attribute_save lib global_branch info current at_ (mkAttrState a f q) = (Ok true, mkAttrState (reset_default a) f' (q ++ qs)) ∧
    Forall (query_ok t) qs ∧ holds (foldl apply_query (ca_data cur) qs) (reset_default a) ∧
    (cls ≠ ClsHashedPassword → holds (ca_data cur) (reset_default a) → qs = []).
Proof.
  intros Ha Hid Hprofile Hval Hcur Hrow t.
  destruct (update_step cur t (reset_default a) (reset_ok a Ha) Hrow f q) as (f' & qs & Hrun & _ & Hq & Hh & He).
  exists f', qs. split_and!; [|done| |].
  - unfold attribute_save. erewrite exec_step by reflexivity. cbn [attr]. rewrite Hid, Hprofile. cbn [negb orb].
    unfold _update. erewrite exec_step by reflexivity. cbn [attr]. rewrite Hval. erewrite exec_step by reflexivity.
    rewrite (exec_step _ _ _ _ _ (reset_run a f q)). erewrite exec_step by reflexivity. cbn [attr_queries]. rewrite Hcur.
    erewrite exec_step by reflexivity. fold t. revert Hrun. generalize (update_value lib global_branch info cur t) as m1.
    generalize (for_each (update_flag global_branch info cur t) SUPPORTED_FLAGS) as m2.
    generalize (for_each (update_node_property global_branch info cur t) _node_properties) as m3.
    intros m3 m2 m1. unfold mbind, exec_bind. destruct (m1 _) as [[[]|] s1]; [|done]. destruct (m2 s1) as [[[]|] s2]; [|done].
    destruct (m3 s2) as [[[]|] s3]; [|done]. by intros [= ->].
  - apply holds_all. by apply Hh.
  - intros Hp Hall. apply He; [done|]. by apply holds_all.
Qed.
(** C8: [save], for an attribute of the database that does not come from a profile, and whose
    value is accepted: it writes what the row of the attribute does not hold, and then the
    row holds the object (its value, its flags, the nodes it has); nothing is written when
    the row already holds it, unless it is a password.  Every query has the time of the call
    and the branch of the attribute, and the object only changes when its value is not the
    default one. *)
Theorem attribute_save_spec at_ a f q cur :
  object_ok a → truthy_value (at_id a) = true → truthy_value (at_is_from_profile a) = false →
  validate_self lib info (at_value a) = Ok tt → current q = Some cur → row_ok cur →
  let t := Timestamp (now lib) at_ in
  ∃ f' qs, attribute_save lib global_branch info current at_ (mkAttrState a f q) = (Ok true, mkAttrState (reset_default a) f' (q ++ qs)) ∧
    Forall (query_ok t) qs ∧ holds (foldl apply_query (ca_data cur) qs) (reset_default a) ∧
    (cls ≠ ClsHashedPassword → holds (ca_data cur) (reset_default a) → qs = []).
Proof. exact (attribute_save_run at_ a f q cur). Qed.
End save.

(** ** Witnesses *)

Lemma flag_cases name : name ∈ _flag_properties → name = "is_visible" ∨ name = "is_protected".
Proof. unfold _flag_properties. set_solver. Qed.
Lemma node_cases name : name ∈ _node_properties → name = "source" ∨ name = "owner".
Proof. unfold _node_properties. set_solver. Qed.

(** JSON values are countable, hence can be written as a text and read back. *)
Fixpoint json_tree (v : json) : gen_tree (bool + Z + string) :=
  match v with
  | JNull => GenNode 0 []
  | JBool b => GenLeaf (inl (inl b))
  | JInt z => GenLeaf (inl (inr z))
  | JStr s => GenLeaf (inr s)
  | JList l => GenNode 1 (map json_tree l)
  | JDict d => GenNode 2 (map (λ kv, GenNode 3 [GenLeaf (inr kv.1); json_tree kv.2]) d)
  end.
Fixpoint tree_json (t : gen_tree (bool + Z + string)) : json :=
  match t with
  | GenLeaf (inl (inl b)) => JBool b
  | GenLeaf (inl (inr z)) => JInt z
  | GenLeaf (inr s) => JStr s
  | GenNode 1 l => JList (map tree_json l)
  | GenNode 2 l => JDict (map (λ t, match t with GenNode _ [GenLeaf (inr k); v] => (k, tree_json v) | _ => ("", JNull) end) l)
  | GenNode _ _ => JNull
  end.
#[export] Instance json_countable : Countable json.
Proof.
  apply (inj_countable' json_tree tree_json). intros v. induction v as [|b|z|t|l IH|d IH] using json_nested_ind; try done; cbn; f_equal.
  - induction IH as [|x l Hx _ IHl]; [done|]. cbn. by rewrite Hx, IHl.
  - induction IH as [|[k x] d Hx _ IHd]; [done|]. cbn in *. by rewrite Hx, IHd.
Qed.

Fixpoint digits_of (p : positive) : string :=
  match p with xH => "" | xO p => String "0" (digits_of p) | xI p => String "1" (digits_of p) end.
Fixpoint of_digits (s : string) : positive :=
  match s with EmptyString => xH | String c s => if bool_decide (c = "0"%char) then xO (of_digits s) else xI (of_digits s) end.
Lemma of_digits_of p : of_digits (digits_of p) = p.
Proof. induction p as [p IH|p IH|]; cbn; by rewrite ?IH. Qed.

(** Libraries that take an address for a time, no URL, and hash by writing the salt. *)
Definition demo_lib : Libraries :=
  mkLibraries 1000 (λ _ _, Some true) (λ _, None) (λ _, Err (ValueError "time")) (λ _, Err (TypeError "url"))
    (λ salt t, digits_of (Pos.of_succ_nat salt) +:+ "$" +:+ t)
    (λ v, "[" +:+ digits_of (encode v))
    (λ s, match s with
          | String "[" s => match decode (of_digits s) with Some v => Ok v | None => Err (ValueError "json") end
          | _ => Err (ValueError "json")
          end).
Lemma demo_lib_ok : ujson_ok demo_lib.
Proof.
  split; [|done|done]. intros v. assert (ujson_loads demo_lib (ujson_dumps demo_lib v) = Ok v) as H; [|by destruct v].
  change (match decode (of_digits (digits_of (encode v))) with Some v => Ok v | None => Err (ValueError "json") end = Ok v).
  by rewrite of_digits_of, decode_encode.
Qed.

Definition demo_address : PyValue := PVal (JStr "2001:DB8::1").
Lemma value_roundtrip_witness : ∃ data w, to_db demo_lib ClsIPHost 0 (PVal (JBool false)) demo_address = Ok data ∧
  dict_get data "value" = Some (PVal w) ∧ value_from_db demo_lib ClsIPHost w = Ok (PVal (JStr "2001:db8::1/128")).
Proof.
  destruct (value_roundtrip demo_lib ClsIPHost 0 1 (PVal (JBool false)) demo_address
    [("is_default", PVal (JBool false)); ("value", PVal (JStr "2001:db8::1/128")); ("version", PVal (JInt 6));
     ("binary_address", PVal (JStr (ip_binary_str V6 42540766411282592856903984951653826561))); ("prefixlen", PVal (JInt 128))])
    as (w & Hget & Hload & _).
  - apply demo_lib_ok.
  - done.
  - eexists _, _. split; [reflexivity|]. by vm_compute.
  - done.
  - by vm_compute.
  - eexists _, w. split_and!; [by vm_compute|exact Hget|]. rewrite Hload. by vm_compute.
Defined.

Definition test_branch (name : string) (level : Z) : Branch := mkBranch name "OPEN" "" "main" 0 level 0 (level =? 1) false false false false None None.
Definition demo_info (cls : AttributeClass) (schema : AttributeSchema) : AttributeInfo :=
  mkAttributeInfo "address" cls schema (test_branch "branch1" 2) (mkPeerNode (Some "n1") "InfraHost" true) "db1".
Definition demo_object (value : PyValue) : BaseAttribute :=
  mkBaseAttribute (PVal (JStr "a1")) (Some "db2") None 0 (PVal (JBool true)) (PVal (JBool false)) value
    (mkProperties (PVal (JBool true)) (PVal (JBool true)) None (JStr "n7") None JNull).
Definition demo_current (content : list (string * json)) : CurrentAttribute :=
  mkCurrent (mkAttributeFromDB "db2" "a1" (default JNull (dict_get content "value")) content None (JBool true) false [("source", "n7")]
               [("is_visible", JBool true); ("is_protected", JBool false)])
    (λ name, Some (mkDbEdge ("edge-" +:+ name) (if bool_decide (name = "r2") then "branch1" else "main"))).
Lemma demo_current_ok content : row_ok (demo_current content).
Proof. split; [by eexists|]. intros name Hn. by destruct (flag_cases name Hn) as [-> | ->]; eexists. Qed.

Definition host_schema : AttributeSchema := new_attribute "address" "IPHost".
Definition demo_row : CurrentAttribute :=
  demo_current [("is_default", JBool true); ("value", JStr "10.0.0.1/24"); ("version", JInt 4);
    ("binary_address", JStr (ip_binary_str V4 167772161)); ("prefixlen", JInt 24)].
Lemma attribute_save_spec_witness :
  ∃ f' qs, attribute_save demo_lib (test_branch "-global-" 1) (demo_info ClsIPHost host_schema)
    (λ _, Some demo_row) (Some 5)
    (mkAttrState (demo_object (PVal (JStr "10.0.0.2/24"))) 0 []) =
      (Ok true, mkAttrState ((demo_object (PVal (JStr "10.0.0.2/24"))) <| at_is_default := PVal (JBool false) |>) f' qs) ∧
    Forall (query_ok (test_branch "-global-" 1) (demo_info ClsIPHost host_schema) 5) qs.
Proof.
  destruct (attribute_save_spec demo_lib (test_branch "-global-" 1) (demo_info ClsIPHost host_schema)
    (λ _, Some demo_row) (Some 5)
    (demo_object (PVal (JStr "10.0.0.2/24"))) 0 [] demo_row) as (f' & qs & Hrun & Hq & _); [..|exists f', qs; by split].
  - split; [by eexists| | |].
    + right. split; [eexists _, _; split; [reflexivity|by vm_compute]|]. eexists; split; [reflexivity|constructor].
    + intros name Hn. by destruct (flag_cases name Hn) as [-> | ->]; eexists.
    + intros name Hn. destruct (node_cases name Hn) as [-> | ->]; [right; by eexists|by left].
  - done.
  - done.
  - by vm_compute.
  - done.
  - by apply demo_current_ok.
Defined.
