(* ===== verification/AttributeGraphql.v ===== *)
(** * Attributes from GraphQL

    The theorem on [from_graphql] of [core/attribute.py], and behaviours of attributes that
    differ from what the code announces: passwords hashed again, enumerations that always
    change, the text [NULL]. *)

From stdpp Require Import prelude strings.
From S2P Require Import Prelude PyString PyDict SdkUtils Constants HashModel SchemaDefs PyValue Enums PropertyMixin IpNetwork IpText Branch Attribute AttributeObject AttributeFacts.

#[local] Open Scope Z_scope.

Definition graphql_properties : list string := ["is_protected"; "is_visible"; "source"; "owner"].

(** The value, the flags and the nodes that are given are those that the object has; when
    [is_default] is given, true or false, the object is marked as the default one. *)
Definition property_settled (data : list (string * PyValue)) (p : Properties) (name : string) : Prop :=
  ∀ v, dict_get data name = Some v → value_eq v (get_property name p) = true.
Record settled (data : list (string * PyValue)) (a : BaseAttribute) : Prop := {
  st_value v : dict_get data "value" = Some v → value_eq v (at_value a) = true;
  st_default : dict_mem data "is_default" = true → truthy_value (at_is_default a) = true;
  st_properties name : name ∈ graphql_properties → property_settled data (at_properties a) name;
}.

(** What a mutation gives: JSON for the value and the flags, and the id of a node. *)
Record graphql_data_ok (data : list (string * PyValue)) : Prop := {
  gd_value name v : name ∈ ["value"; "is_protected"; "is_visible"] → dict_get data name = Some v → ∃ x, v = PVal x ∧ json_wf x;
  gd_node name v : name ∈ _node_properties → dict_get data name = Some v → v = PVal JNull ∨ ∃ t, v = PVal (JStr t);
}.

Lemma get_property_flag name p : name ∈ _flag_properties → get_property name p = get_flag name p.
Proof. intros Hn. unfold get_property. by rewrite bool_decide_eq_true_2. Qed.
Lemma get_property_node name p : name ∈ _node_properties → get_property name p = PVal (get_node_id name p).
Proof. intros Hn. unfold get_property. rewrite bool_decide_eq_false_2; [done|]. destruct (node_cases name Hn) as [-> | ->]; unfold _flag_properties; set_solver. Qed.

Lemma value_eq_refl x : json_wf x → value_eq (PVal x) (PVal x) = true.
Proof. apply py_eq_refl. Qed.

Lemma graphql_name name : name ∈ graphql_properties → name ∈ _flag_properties ∨ name ∈ _node_properties.
Proof. unfold graphql_properties, _flag_properties, _node_properties. set_solver. Qed.

(** A property that is set is the one read, and the others stay. *)
Lemma set_property_spec data name v p : graphql_data_ok data → name ∈ graphql_properties → dict_get data name = Some v →
  ∃ p', set_property name v p = (Ok tt, p') ∧ value_eq v (get_property name p') = true ∧
        ∀ name', name' ∈ graphql_properties → name' ≠ name → get_property name' p' = get_property name' p.
Proof.
  intros Hdata Hname Hget. unfold set_property. destruct (graphql_name _ Hname) as [Hf|Hn].
  - destruct (gd_value _ Hdata name v) as (x & -> & Hwf); [unfold _flag_properties in Hf; set_solver|done|].
    rewrite bool_decide_eq_true_2 by done. exists (set_flag name (PVal x) p). split_and!; [done| |].
    + rewrite get_property_flag, get_set_flag, decide_True by done. by apply value_eq_refl.
    + intros name' Hn' Hne. destruct (graphql_name _ Hn') as [Hf'|Hnode].
      * rewrite !get_property_flag, get_set_flag, decide_False by done. done.
      * rewrite !get_property_node, get_node_set_flag by done. done.
  - assert (name ∉ _flag_properties) as Hnf by (destruct (node_cases name Hn) as [-> | ->]; unfold _flag_properties; set_solver).
    rewrite bool_decide_eq_false_2, bool_decide_eq_true_2 by done.
    assert (∃ x, v = PVal x ∧ json_wf x ∧ _set_node_property name v p = (Ok tt, set_node name None x p)) as (x & -> & Hwf & Hrun).
    { destruct (gd_node _ Hdata name v Hn Hget) as [-> |[t ->]]; eexists; (split_and!; [reflexivity|constructor|reflexivity]). }
    eexists. split_and!; [exact Hrun| |].
    + rewrite get_property_node by done. destruct (get_set_node name None x p name Hn Hn) as [-> _]. rewrite decide_True by done. by apply value_eq_refl.
    + intros name' Hn' Hne. destruct (graphql_name _ Hn') as [Hf'|Hnode].
      * rewrite !get_property_flag by done. by rewrite get_flag_set_node.
      * rewrite !get_property_node by done. destruct (get_set_node name None x p name' Hn Hnode) as [-> _]. by rewrite decide_False.
Qed.

Section from_graphql.
Context (lib : Libraries) (info : AttributeInfo) (data : list (string * PyValue)).
Context (Hdata : graphql_data_ok data) (Henum : is_enum (ai_schema info) = false).

(** A step that sets the given properties among [names], and says whether one was different. *)
Definition properties_step (names : list string) (m : Exec AttrState bool) : Prop :=
  ∀ a f q, ∃ c p', m (mkAttrState a f q) = (Ok c, mkAttrState (a <| at_properties := p' |>) f q) ∧
    (∀ n, n ∈ names → property_settled data p' n) ∧
    (c = false ↔ ∀ n, n ∈ names → property_settled data (at_properties a) n) ∧ (c = false → p' = at_properties a) ∧
    ∀ n, n ∈ graphql_properties → n ∉ names → get_property n p' = get_property n (at_properties a).

Lemma property_step name : name ∈ graphql_properties → properties_step [name] (graphql_property data name).
Proof.
  intros Hname [id dbid upd at_ def prof val p] f q. unfold graphql_property, property_settled.
  destruct (dict_get data name) as [v|] eqn:Hget.
  2: { exists false, p. split_and!; [done|intros n ->%list_elem_of_singleton; congruence| |done|done]. split; [|done].
       intros _ n ->%list_elem_of_singleton. congruence. }
  erewrite exec_step by reflexivity. cbn [attr at_properties]. destruct (value_eq v (get_property name p)) eqn:Heq.
  - exists false, p. split_and!; [done| | |done|done]; [|split; [intros _|done]]; intros n ->%list_elem_of_singleton; congruence.
  - destruct (set_property_spec data name v p Hdata Hname Hget) as (p' & Hrun & Hset & Hother). exists true, p'. split_and!.
    + unfold on_attr, on_properties, mbind, exec_bind. cbn. by rewrite Hrun.
    + intros n ->%list_elem_of_singleton. congruence.
    + split; [done|]. intros Hs. specialize (Hs name ltac:(by apply list_elem_of_singleton) v Hget). cbn in Hs. congruence.
    + done.
    + intros n Hn Hne. apply Hother; [done|]. intros ->. by apply Hne, list_elem_of_singleton.
Qed.
Lemma properties_seq ns1 ns2 m1 m2 :
  (∀ n, n ∈ ns1 → n ∈ graphql_properties ∧ n ∉ ns2) → (∀ n, n ∈ ns2 → n ∈ graphql_properties) →
  properties_step ns1 m1 → properties_step ns2 m2 →
  properties_step (ns1 ++ ns2) (c1 ← m1; c2 ← m2; mret (c1 || c2)).
Proof.
  intros Hd Hg2 H1 H2 a f q. destruct (H1 a f q) as (c1 & p1 & Hrun1 & Hs1 & Hc1 & He1 & Ho1).
  destruct (H2 (a <| at_properties := p1 |>) f q) as (c2 & p2 & Hrun2 & Hs2 & Hc2 & He2 & Ho2).
  cbn [at_properties assign] in *. exists (c1 || c2), p2.
  assert (∀ n, n ∈ ns2 → property_settled data p1 n ↔ property_settled data (at_properties a) n) as Hsame.
  { intros n Hn. unfold property_settled. rewrite Ho1; [done|by apply Hg2|]. intros Hn1. by apply (Hd n). }
  split_and!.
  - unfold mbind, exec_bind. rewrite Hrun1, Hrun2. by destruct a.
  - intros n [Hn|Hn]%elem_of_app; [|by apply Hs2]. destruct (Hd n Hn). intros v Hv. rewrite Ho2 by done. by apply Hs1.
  - rewrite orb_false_iff, Hc1, Hc2. split.
    + intros [Ha Hb] n [Hn|Hn]%elem_of_app; [by apply Ha|]. apply Hsame, Hb; done.
    + intros Hall. split; intros n Hn; [apply Hall, elem_of_app; by left|]. apply Hsame; [done|]. apply Hall, elem_of_app; by right.
  - intros [-> ->]%orb_false_iff. rewrite He2 by done. by apply He1.
  - intros n Hn Hnot. rewrite not_elem_of_app in Hnot. destruct Hnot. by rewrite Ho2, Ho1.
Qed.

(** The four properties, in the order of the code. *)
Definition graphql_all : Exec AttrState bool :=
  c3 ← graphql_property data "is_protected"; c ← (c4 ← graphql_property data "is_visible";
    c ← (c5 ← graphql_property data "source"; c6 ← graphql_property data "owner"; mret (c5 || c6)); mret (c4 || c)); mret (c3 || c).
Lemma all_step : properties_step graphql_properties graphql_all.
Proof.
  unfold graphql_properties at 1. unfold graphql_all.
  assert (∀ n, n ∈ graphql_properties → properties_step [n] (graphql_property data n)) as H by apply property_step.
  unfold graphql_properties in *.
  apply (properties_seq ["is_protected"] ["is_visible"; "source"; "owner"]); [unfold graphql_properties; set_solver..|apply H; set_solver|].
  apply (properties_seq ["is_visible"] ["source"; "owner"]); [unfold graphql_properties; set_solver..|apply H; set_solver|].
  apply (properties_seq ["source"] ["owner"]); [unfold graphql_properties; set_solver..|apply H; set_solver|apply H; set_solver].
Qed.
Lemma all_group {S} (m3 m4 m5 m6 : Exec S bool) b s :
  (c3 ← m3; c4 ← m4; c5 ← m5; c6 ← m6; mret (b || c3 || c4 || c5 || c6)) s =
  (c ← (c3 ← m3; c ← (c4 ← m4; c ← (c5 ← m5; c6 ← m6; mret (c5 || c6)); mret (c4 || c)); mret (c3 || c)); mret (b || c)) s.
Proof.
  unfold mbind, exec_bind. destruct (m3 s) as [[c3|] s3]; [|done]. destruct (m4 s3) as [[c4|] s4]; [|done].
  destruct (m5 s4) as [[c5|] s5]; [|done]. destruct (m6 s5) as [[c6|] s6]; [|done]. cbn. by rewrite !orb_assoc.
Qed.

(** The value once it is given, and the default one when it is asked for. *)
Definition given_value (a : BaseAttribute) : PyValue := default (at_value a) (dict_get data "value").
Definition value_changed (a : BaseAttribute) : bool := negb (value_eq (given_value a) (at_value a)) && dict_mem data "value".
Definition default_asked (a : BaseAttribute) : bool := dict_mem data "is_default" && negb (truthy_value (at_is_default a)).
Definition profile_left (a : BaseAttribute) : bool := value_changed a && truthy_value (at_is_from_profile a).

Definition after_value (a : BaseAttribute) : BaseAttribute := if value_changed a then a <| at_value := given_value a |> else a.
Definition after_profile (a a1 : BaseAttribute) : BaseAttribute :=
  if profile_left a
  then a1 <| at_is_from_profile := PVal (JBool false) |> <| at_properties := set_node "source" None JNull (at_properties a1) |>
  else a1.
Definition after_default (a a2 : BaseAttribute) : BaseAttribute :=
  if default_asked a
  then (if dict_mem data "value" then a2 <| at_is_default := PVal (JBool true) |>
        else a2 <| at_is_default := PVal (JBool true) |> <| at_value := default_value info |>)
  else a2.
(** The object before its properties are set. *)
Definition after_fields (a : BaseAttribute) : BaseAttribute := after_default a (after_profile a (after_value a)).

Lemma value_run a f q : graphql_value info data (mkAttrState a f q) = (Ok (value_changed a), mkAttrState (after_value a) f q).
Proof.
  unfold graphql_value, after_value, value_changed, given_value, dict_mem. destruct (dict_get data "value") as [v|]; [|by rewrite andb_false_r].
  rewrite Henum, andb_true_r. do 2 erewrite exec_step by reflexivity. cbn [attr default from_option id]. by destruct (value_eq v (at_value a)).
Qed.
Lemma profile_run a f q :
  graphql_profile (value_changed a) (mkAttrState (after_value a) f q) = (Ok tt, mkAttrState (after_profile a (after_value a)) f q).
Proof.
  unfold graphql_profile, after_profile, profile_left. erewrite exec_step by reflexivity. cbn [attr].
  assert (at_is_from_profile (after_value a) = at_is_from_profile a) as -> by (unfold after_value; by destruct (value_changed a)).
  by destruct (value_changed a && _).
Qed.
Lemma default_run a a2 f q : at_is_default a2 = at_is_default a →
  graphql_default info data (mkAttrState a2 f q) = (Ok (default_asked a), mkAttrState (after_default a a2) f q).
Proof.
  intros Hd. unfold graphql_default, after_default, default_asked. erewrite exec_step by reflexivity. cbn [attr]. rewrite Hd.
  destruct (dict_mem data "is_default" && negb (truthy_value (at_is_default a))); [|done]. unfold set_default_value. rewrite Henum.
  by destruct (dict_mem data "value").
Qed.
Lemma profile_default a : at_is_default (after_profile a (after_value a)) = at_is_default a.
Proof. unfold after_profile, after_value. by destruct (profile_left a), (value_changed a). Qed.

Lemma from_graphql_run a f q : ∃ c p', from_graphql info data (mkAttrState a f q) =
    (Ok (value_changed a || default_asked a || c), mkAttrState ((after_fields a) <| at_properties := p' |>) f q) ∧
  (∀ n, n ∈ graphql_properties → property_settled data p' n) ∧
  (c = false ↔ ∀ n, n ∈ graphql_properties → property_settled data (at_properties (after_fields a)) n) ∧
  (c = false → p' = at_properties (after_fields a)).
Proof.
  destruct (all_step (after_fields a) f q) as (c & p' & Hrun & Hs & Hc & He & _). exists c, p'. split_and!; [|done..].
  unfold from_graphql. rewrite (exec_step _ _ _ _ _ (value_run a f q)), (exec_step _ _ _ _ _ (profile_run a f q)).
  rewrite (exec_step _ _ _ _ _ (default_run a _ f q (profile_default a))). rewrite all_group. by rewrite (exec_step _ _ _ _ _ Hrun).
Qed.

Lemma after_fields_same a : value_changed a = false → default_asked a = false → after_fields a = a.
Proof. intros Hv Hd. unfold after_fields, after_default, after_profile, after_value, profile_left. by rewrite Hv, Hd. Qed.
Lemma unchanged_fields a : value_changed a = false ∧ default_asked a = false ↔
  (∀ v, dict_get data "value" = Some v → value_eq v (at_value a) = true) ∧ (dict_mem data "is_default" = true → truthy_value (at_is_default a) = true).
Proof.
  unfold value_changed, default_asked, given_value, dict_mem. rewrite !andb_false_iff, !negb_false_iff.
  destruct (dict_get data "value"), (dict_get data "is_default"); cbn; naive_solver.
Qed.
Lemma after_fields_settled a :
  (∀ v, dict_get data "value" = Some v → value_eq v (at_value (after_fields a)) = true) ∧
  (dict_mem data "is_default" = true → truthy_value (at_is_default (after_fields a)) = true).
Proof.
  split.
  - intros v Hv. destruct (gd_value _ Hdata "value" v ltac:(left) Hv) as (x & -> & Hwf).
    assert (at_value (after_fields a) = at_value (after_value a)) as ->.
    { unfold after_fields, after_default, after_profile, dict_mem. rewrite Hv. by destruct (default_asked a), (profile_left a). }
    unfold after_value, value_changed, given_value, dict_mem. rewrite Hv. cbn [default from_option id]. rewrite andb_true_r.
    destruct (value_eq (PVal x) (at_value a)) eqn:Heq; [done|]. by apply value_eq_refl.
  - intros Hm. unfold after_fields, after_default. destruct (default_asked a) eqn:Hd; [by destruct (dict_mem data "value")|].
    rewrite profile_default. unfold default_asked in Hd. rewrite Hm in Hd. cbn in Hd. by apply negb_false_iff in Hd.
Qed.

(** C10: [from_graphql], for an attribute without enumeration, and data that are JSON for the
    value and the flags, ids for the nodes: the object then has the value, the flags and the
    nodes that are given; [is_default], given as true or as false, marks it as the default
    one, and gives it the default value of the schema when no value is given and it was not
    marked; it says that it changed exactly when one of these was different, and is the same
    object otherwise; giving the same data again changes nothing.  A value that changes and
    came from a profile no longer does. *)
Theorem from_graphql_spec a f q :
  ∃ changed a', from_graphql info data (mkAttrState a f q) = (Ok changed, mkAttrState a' f q) ∧
    settled data a' ∧
    (dict_get data "value" = None → at_value a' =
       (if dict_mem data "is_default" && negb (truthy_value (at_is_default a))
        then PVal (default JNull (a_default_value (ai_schema info))) else at_value a)) ∧
    (changed = false → a' = a) ∧ (settled data a ↔ changed = false) ∧
    from_graphql info data (mkAttrState a' f q) = (Ok false, mkAttrState a' f q) ∧
    (∀ v, dict_get data "value" = Some v → value_eq v (at_value a) = false → truthy_value (at_is_from_profile a') = false).
Proof.
  assert (∀ b, settled data b ↔ (value_changed b = false ∧ default_asked b = false) ∧ ∀ n, n ∈ graphql_properties → property_settled data (at_properties b) n) as Hset.
  { intros b. rewrite unchanged_fields. split; [by intros [H1 H2 H3]|]. by intros [[H1 H2] H3]. }
  assert (∀ b, settled data b → from_graphql info data (mkAttrState b f q) = (Ok false, mkAttrState b f q)) as Hfix.
  { intros b [[Hv Hd] Hp]%Hset. destruct (from_graphql_run b f q) as (c & p' & -> & _ & Hc & He). rewrite after_fields_same in * by done.
    apply Hc in Hp as ->. rewrite Hv, Hd, He by done. by destruct b. }
  destruct (from_graphql_run a f q) as (c & p' & Hrun & Hs & Hc & He). eexists _, _. split; [exact Hrun|].
  assert (settled data ((after_fields a) <| at_properties := p' |>)) as Hsettled.
  { destruct (after_fields_settled a) as [H1 H2]. by split. }
  assert (value_changed a || default_asked a || c = false → settled data a) as Hback.
  { intros [[Hv Hd]%orb_false_iff Hcf]%orb_false_iff. rewrite after_fields_same in * by done. apply Hset. split; [done|]. by apply Hc. }
  split_and!; [done| | | |by apply Hfix|].
  - intros Hno. cbn. unfold after_fields, after_default, after_profile, after_value, profile_left, value_changed, default_asked, dict_mem.
    rewrite Hno, andb_false_r. by destruct (dict_get data "is_default"), (truthy_value (at_is_default a)).
  - intros [[Hv Hd]%orb_false_iff Hcf]%orb_false_iff. rewrite after_fields_same in * by done. rewrite He by done. by destruct a.
  - split; [|exact Hback]. intros Ha. rewrite (Hfix a Ha) in Hrun. congruence.
  - intros v Hv Hne. assert (value_changed a = true) as Hch by (unfold value_changed, given_value, dict_mem; rewrite Hv; cbn; by rewrite Hne).
    unfold after_fields, after_default, after_profile, after_value, profile_left. rewrite Hch. cbn [andb].
    destruct (truthy_value (at_is_from_profile a)) eqn:Hp, (default_asked a), (dict_mem data "value"); cbn; done.
Qed.
End from_graphql.

(** ** Witness and examples *)

Definition text_schema : AttributeSchema := new_attribute "description" "Text".
Definition text_object (value : PyValue) (is_default from_profile : bool) : BaseAttribute :=
  mkBaseAttribute (PVal (JStr "a1")) (Some "db2") None 0 (PVal (JBool is_default)) (PVal (JBool from_profile)) value
    (mkProperties (PVal (JBool true)) (PVal (JBool false)) None (JStr "n7") None JNull).

Lemma from_graphql_spec_witness :
  let data := [("value", PVal (JStr "new")); ("is_protected", PVal (JBool true)); ("owner", PVal (JStr "n8"))] in
  ∃ changed a', from_graphql (demo_info ClsString text_schema) data (mkAttrState (text_object (PVal (JStr "old")) false true) 0 []) =
      (Ok changed, mkAttrState a' 0 []) ∧
    settled data a' ∧ changed = true ∧ truthy_value (at_is_from_profile a') = false ∧ get_node_id "source" (at_properties a') = JNull.
Proof.
  intros data.
  destruct (from_graphql_spec (demo_info ClsString text_schema) data) with (a := text_object (PVal (JStr "old")) false true) (f := 0%nat) (q := @nil AttrQuery)
    as (changed & a' & Hrun & Hs & _ & _ & _ & _ & Hprof).
  - split; intros name v Hn Hget; [|destruct (node_cases name Hn) as [-> | ->]; cbn in Hget; [done|injection Hget as <-; right; by eexists]].
    assert (name = "value" ∨ name = "is_protected" ∨ name = "is_visible") as [-> |[-> | ->]] by set_solver; cbn in Hget;
      [injection Hget as <-; eexists; split; [reflexivity|constructor]..|done].
  - done.
  - exists changed, a'. split_and!; [exact Hrun|exact Hs| |by apply (Hprof (PVal (JStr "new")))|].
    + vm_compute in Hrun. congruence.
    + vm_compute in Hrun. injection Hrun as _ <-. done.
Defined.

(** The value of a password is its digest once it is loaded: [save] hashes it again, whatever
    was changed. *)
Theorem password_rehashed :
  let stored := hash_password demo_lib 5 "secret" in
  let row := [("is_default", JBool false); ("value", JStr stored)] in
  value_from_db demo_lib ClsHashedPassword (JStr stored) = Ok (PVal (JStr stored)) ∧
  ∃ f qs, attribute_save demo_lib (test_branch "-global-" 1) (demo_info ClsHashedPassword (new_attribute "password" "HashedPassword"))
      (λ _, Some (demo_current row)) (Some 5) (mkAttrState (text_object (PVal (JStr stored)) false false) 6 []) =
    (Ok true, mkAttrState (text_object (PVal (JStr stored)) false false) f
       (AttributeUpdateValueQuery (PVal (JStr "a1")) "branch1" 2 5
          [("is_default", PVal (JBool false)); ("value", PVal (JStr (hash_password demo_lib 8 stored)))] "default" :: qs)).
Proof. split; [done|]. eexists _, _. by vm_compute. Qed.

(** The member that the value becomes is never equal to the one that the object has, since
    each conversion makes a class: the same value is a change, and leaves the profile. *)
Theorem enum_always_changed :
  let schema := status_schema [JStr "active"; JStr "retired"] in
  ∃ v, convert_value_to_enum 0 schema (PVal (JStr "active")) = Ok v ∧
    (from_graphql (demo_info ClsString schema) [("value", PVal (JStr "active"))] (mkAttrState (text_object v false true) 1 [])).1 = Ok true ∧
    at_is_from_profile (attr (from_graphql (demo_info ClsString schema) [("value", PVal (JStr "active"))]
                                (mkAttrState (text_object v false true) 1 [])).2) = PVal (JBool false).
Proof. eexists. split; [by vm_compute|]. split; by vm_compute. Qed.

(** An attribute that has the default value of its enumeration is no longer said to have it
    once it is saved: the text of the schema is not equal to the member. *)
Theorem enum_default_lost :
  let schema := (status_schema [JStr "active"; JStr "retired"]) <| a_default_value := Some (JStr "active") |> in
  let row := [("is_default", JBool true); ("value", JStr "active")] in
  ∃ v f qs, convert_value_to_enum 0 schema (PVal (JStr "active")) = Ok v ∧
    attribute_save demo_lib (test_branch "-global-" 1) (demo_info ClsString schema) (λ _, Some (demo_current row)) (Some 5)
      (mkAttrState (text_object v true false) 1 []) = (Ok true, mkAttrState (text_object v false false) f qs).
Proof. eexists _, _, _. split; by vm_compute. Qed.

(** The text [NULL] is stored as it is, and is loaded as no value. *)
Theorem null_text_lost lib :
  to_db lib ClsString 0 (PVal (JBool false)) (PVal (JStr "NULL")) = Ok [("is_default", PVal (JBool false)); ("value", PVal (JStr "NULL"))] ∧
  value_from_db lib ClsString (JStr "NULL") = Ok (PVal JNull).
Proof. done. Qed.

(** Removing the source of an attribute is accepted by [from_graphql], and [save] writes
    nothing. *)
Theorem removed_source_not_saved :
  let row := [("is_default", JBool false); ("value", JStr "text")] in
  ∃ a f, from_graphql (demo_info ClsString text_schema) [("source", PVal JNull)] (mkAttrState (text_object (PVal (JStr "text")) false false) 0 []) =
      (Ok true, mkAttrState a 0 []) ∧ get_node_id "source" (at_properties a) = JNull ∧
    attribute_save demo_lib (test_branch "-global-" 1) (demo_info ClsString text_schema) (λ _, Some (demo_current row)) (Some 5) (mkAttrState a 0 []) =
      (Ok true, mkAttrState a f []).
Proof. eexists _, _. split_and!; by vm_compute. Qed.

(** Asking that the value is not the default one resets it. *)
Theorem not_default_resets :
  let schema := text_schema <| a_default_value := Some (JStr "none") |> in
  ∃ a, from_graphql (demo_info ClsString schema) [("is_default", PVal (JBool false))]
      (mkAttrState (text_object (PVal (JStr "text")) false false) 0 []) = (Ok true, mkAttrState a 0 []) ∧ at_value a = PVal (JStr "none").
Proof. eexists. split; by vm_compute. Qed.
