(* ===== verification/RelationshipManager.v ===== *)
(** * Relationships of a node and their manager

    [backend/infrahub/core/relationship/model.py] (classes [Relationship] and
    [RelationshipManager]), the classes of the rows in
    [core/query/relationship.py], and the constraints that are checked before a node is
    saved ([core/relationship/constraints/count.py] and [peer_kind.py]).

    The [Relationship] objects are in a heap, and the list of a manager holds references to
    them, since the code compares them by identity and changes them in place.  The queries
    that the code executes are recorded with their parameters in the order of their
    execution; what a query returns is a function of the queries executed before. *)

From stdpp Require Import prelude strings.
From S2P Require Import Prelude PyString PyDict SdkUtils Constants HashModel SchemaDefs NodeSchemaOps RelationshipList PyValue PropertyMixin Branch.

#[local] Open Scope Z_scope.
#[local] Coercion Z.of_nat : nat >-> Z.

(** ** Data *)

(** The edges and the properties of a relationship in the database. *)
Record RelData := mkRelData { rd_db_id : string; rd_branch : string; rd_type : string; rd_status : string }.
Record PropertyData := mkPropertyData {
  pd_name : string;
  pd_prop_db_id : string;
  pd_rel : RelData;
  pd_value : json;
}.
Record RelationshipPeerData := mkPeerData {
  pe_branch : string;
  pe_source_id : string;
  pe_peer_id : string;
  pe_peer_kind : string;
  pe_properties : list (string * PropertyData);
  pe_rel_node_id : option string;
  pe_peer_db_id : option string;
  pe_rel_node_db_id : option string;
  pe_rels : list RelData;
  pe_updated_at : option string;
}.

Definition rel_ids_per_branch (data : RelationshipPeerData) : list (string * list string) :=
  foldl (λ response rel, dict_append response (rd_branch rel) (rd_db_id rel)) []
    (pe_rels data ++ (pd_rel <$> dict_values (pe_properties data))).

Definition PREFIX_PROPERTY : string := "_relation__".

Record Relationship := mkRelationship {
  rel_at : Z;
  rel_id : option string;
  rel_db_id : option string;
  rel_updated_at : option Z;
  rel_peer : PyValue;
  rel_peer_id : option string;
  rel_peer_hfid : PyValue;
  rel_from_pool : PyValue;
  rel_is_visible : PyValue;
  rel_is_protected : PyValue;
  rel_source : option PeerNode;
  rel_source_id : json;
  rel_owner : option PeerNode;
  rel_owner_id : json;
}.
#[export] Instance Relationship_rebuild : Rebuild Relationship := λ r,
  mkRelationship (rel_at r) (rel_id r) (rel_db_id r) (rel_updated_at r) (rel_peer r) (rel_peer_id r)
    (rel_peer_hfid r) (rel_from_pool r) (rel_is_visible r) (rel_is_protected r) (rel_source r)
    (rel_source_id r) (rel_owner r) (rel_owner_id r).
Definition new_relationship (at_ : Z) : Relationship :=
  mkRelationship at_ None None None (PVal JNull) None (PVal JNull) (PVal JNull) (PVal (JBool true)) (PVal (JBool false))
    None JNull None JNull.

#[export] Program Instance Relationship_properties : HasProperties Relationship := {|
  properties r := mkProperties (rel_is_visible r) (rel_is_protected r) (rel_source r) (rel_source_id r)
                    (rel_owner r) (rel_owner_id r);
  with_properties p r := r <| rel_is_visible := p_is_visible p |> <| rel_is_protected := p_is_protected p |>
                           <| rel_source := p_source p |> <| rel_source_id := p_source_id p |>
                           <| rel_owner := p_owner p |> <| rel_owner_id := p_owner_id p |>;
|}.
Solve All Obligations with intros; repeat match goal with x : Properties |- _ => destruct x | x : Relationship |- _ => destruct x end; reflexivity.

(** What a relationship can be made from. *)
Inductive RelationshipInput :=
  | InValue (v : PyValue)
  | InDict (d : list (string * PyValue))
  | InRelationship (ref : nat)
  | InPeerData (data : RelationshipPeerData).
Definition as_dict (data : RelationshipInput) : option (list (string * PyValue)) :=
  match data with
  | InDict d => Some d
  | InValue (PVal (JDict d)) => Some (prod_map id PVal <$> d)
  | _ => None
  end.

(** ** One relationship *)

Definition get_peer_id (rel : Relationship) : result string :=
  match rel_peer_id rel with
  | Some (String c s) => Ok (String c s)
  | _ => Err (ValueError "Relationship has not been initialized yet")
  end.

Definition getattr_property (rel : Relationship) (name : string) : PyValue := get_property name (properties rel).

(** The tuple that [__hash__] hashes: it raises when a value is a list or a dictionary. *)
Definition hashable_value (v : PyValue) : result PyValue :=
  match v with PVal (JList _) | PVal (JDict _) => Err (TypeError "unhashable type") | _ => Ok v end.
Definition rel_hash (rel : Relationship) : result (list PyValue) :=
  mapM hashable_value
    ([of_opt (rel_id rel); of_opt (rel_db_id rel); of_opt (rel_peer_id rel)] ++
     (getattr_property rel <$> _flag_properties ++ _node_properties)).
Fixpoint hash_eq (h1 h2 : list PyValue) : bool :=
  match h1, h2 with
  | [], [] => true
  | a :: h1, b :: h2 => value_eq a b && hash_eq h1 h2
  | _, _ => false
  end.

Definition set_peer (value : PyValue) : Exec Relationship unit :=
  match value with
  | PVal (JStr s) => modify (λ r, r <| rel_peer_id := Some s |>)
  | PNode n =>
      _ ← modify (λ r, r <| rel_peer := value |>);
      peer_id ← lift (get_id n);
      modify (λ r, r <| rel_peer_id := Some peer_id |>)
  | PVal _ | PEnum _ =>
      _ ← modify (λ r, r <| rel_peer := value |>);
      raise (AttributeError "get_id")
  end.

(** One entry of a dictionary of data. *)
Definition process_entry (entry : string * PyValue) : Exec Relationship unit :=
  let '(key, value) := entry in
  peer_id ← gets rel_peer_id;
  let name := py_replace PREFIX_PROPERTY "" key in
  if bool_decide (key ∈ ["peer"; "id"]) then set_peer value
  else if bool_decide (key = "hfid" ∧ peer_id = None) then modify (λ r, r <| rel_peer_hfid := value |>)
  else if startswith key PREFIX_PROPERTY && bool_decide (name ∈ _flag_properties ++ _node_properties) then
    on_properties (set_property name value)
  else if bool_decide (key = "from_pool") then modify (λ r, r <| rel_from_pool := value |>)
  else mret tt.

(** [a or b] *)
Definition or_str (a b : option string) : option string := if truthy_str a then a else b.

(** The attribute [data] of the object, which nothing reads, is left out. *)
Definition _process_data (data : RelationshipInput) : Exec Relationship unit :=
  match data, as_dict data with
  | InPeerData p, _ =>
      _ ← set_peer (PVal (JStr (pe_peer_id p)));
      _ ← modify (λ r, r <| rel_id := or_str (rel_id r) (or_str (pe_rel_node_id p) (rel_id r)) |>
                         <| rel_db_id := or_str (rel_db_id r) (or_str (pe_rel_node_db_id p) (rel_db_id r)) |>);
      for_each (λ prop, on_properties (set_property prop.1 (PVal (pd_value prop.2)))) (pe_properties p)
  | _, Some d => for_each process_entry d
  | InValue v, None => set_peer v
  | InRelationship _, None => raise (AttributeError "get_id")
  | InDict d, None => mret tt
  end.

Definition load (id db_id : option string) (updated_at : option Z) (data : RelationshipInput) : Exec Relationship unit :=
  hash_before ← (λ r, (rel_hash r, r));
  _ ← modify (λ r, r <| rel_id := or_str id (rel_id r) |> <| rel_db_id := or_str db_id (rel_db_id r) |>);
  _ ← _process_data data;
  match updated_at with
  | Some t =>
      hash_after ← (λ r, (rel_hash r, r));
      if hash_eq hash_after hash_before then mret tt else modify (λ r, r <| rel_updated_at := Some t |>)
  | None => mret tt
  end.

Definition compare_properties_with_data (rel : Relationship) (data : RelationshipPeerData) : list string :=
  (filter (λ prop, prop.1 ∈ _flag_properties ++ _node_properties ∧
                   value_eq (PVal (pd_value prop.2)) (getattr_property rel prop.1) = false) (pe_properties data)).*1.

(** ** Queries *)

(** The parameters of the queries that write. *)
Inductive DbQuery :=
  | RelationshipCreateQuery (source_id destination_id name : option string) (branch_support branch : string)
      (branch_level at_ : Z) (is_protected is_visible : PyValue) (node_properties : list (string * json))
  | UpdateRelationshipsTo (ids : list string) (to : Z)
  | RelationshipUpdatePropertyQuery (rel_node_id : option string) (branch : string) (branch_level at_ : Z)
      (properties : list (string * PyValue))
  | RelationshipDeleteQuery (source_id destination_id rel_id : option string) (branch : string) (branch_level at_ : Z)
  | RelationshipDataDeleteQuery (source_id : option string) (data : RelationshipPeerData) (name : option string)
      (branch : string) (branch_level at_ : Z)
  | GetResource (pool_id : string) (data : list (string * json)).

(** What the database answers, after the queries already executed. *)
Record Database := mkDatabase {
  get_peers : list DbQuery → Z → bool → list RelationshipPeerData;
  relationship_get : list DbQuery → option string → option string → Z → option (list RelData);
  get_one_by_id_or_default_filter : list DbQuery → string → Z → result PeerNode;
  get_one_by_default_filter : list DbQuery → string → result (option PeerNode);
  get_one_by_hfid : list DbQuery → PyValue → result (option PeerNode);
  get_one : list DbQuery → string → result (option PeerNode);
  get_resource : list DbQuery → PeerNode → list (string * json) → result PeerNode;
  get_hfid_as_string : list DbQuery → result (option string);
  created : list DbQuery → option (string * string);
}.

Record RelationshipUpdateDetails := mkUpdateDetails {
  peers_database : list (string * RelationshipPeerData);
  peer_ids_present_both : list string;
  peer_ids_present_local_only : list string;
  peer_ids_present_database_only : list string;
}.

(** What the methods read of the manager and never change. *)
Record Manager := mkManager {
  rm_schema : RelationshipSchema;
  rm_branch : Branch;
  rm_at : Z;
  rm_node : PeerNode;
}.

Record ManagerState := mkManagerState {
  heap : list Relationship;
  _relationships : RelationshipValidatorList nat;
  _relationship_id_details : option RelationshipUpdateDetails;
  has_fetched_relationships : bool;
  queries : list DbQuery;
}.
#[export] Instance ManagerState_rebuild : Rebuild ManagerState := λ s,
  mkManagerState (heap s) (_relationships s) (_relationship_id_details s) (has_fetched_relationships s) (queries s).

(** Access to an object of the heap, to the list, and to the database. *)
Definition rel_at_ref (ref : nat) : Exec ManagerState Relationship :=
  λ s, (require (RuntimeError "no such object") (heap s !! ref), s).
Definition on_rel {A} (ref : nat) (m : Exec Relationship A) : Exec ManagerState A := λ s,
  match heap s !! ref with
  | Some rel => let '(r, rel') := m rel in (r, s <| heap := <[ref := rel']> (heap s) |>)
  | None => (Err (RuntimeError "no such object"), s)
  end.
Definition new_object (rel : Relationship) : Exec ManagerState nat := λ s,
  (Ok (length (heap s)), s <| heap := heap s ++ [rel] |>).
Definition on_list (f : RelationshipValidatorList nat → result (RelationshipValidatorList nat)) : Exec ManagerState unit := λ s,
  match f (_relationships s) with Ok l => (Ok tt, s <| _relationships := l |>) | Err e => (Err e, s) end.
Definition execute (q : DbQuery) : Exec ManagerState unit := modify (λ s, s <| queries := queries s ++ [q] |>).
Definition fetch {A} (f : list DbQuery → result A) : Exec ManagerState A := λ s, (f (queries s), s).

Section manager.
Context `{SetOrder} (db : Database) (global_branch : Branch) (now : Z) (rm : Manager).

Definition get_branch_based_on_support_type : Branch :=
  if bool_decide (r_branch (rm_schema rm) = Some BranchSupportType.AGNOSTIC) then global_branch else rm_branch rm.

(** *** [Relationship], with the database *)

Definition _get_peer (ref : nat) : Exec ManagerState unit :=
  rel ← rel_at_ref ref;
  id ← lift (get_peer_id rel);
  found ← gets (λ s, get_one_by_id_or_default_filter db (queries s) id (rel_at rel));
  match found with
  | Ok peer => on_rel ref (modify (λ r, r <| rel_peer := PNode peer |> <| rel_peer_id := pn_id peer |>))
  | Err (NodeNotFoundError _) => on_rel ref (modify (λ r, r <| rel_peer := PVal JNull |>))
  | Err e => raise e
  end.

Definition rel_get_peer (ref : nat) : Exec ManagerState PeerNode :=
  rel ← rel_at_ref ref;
  _ ← (match rel_peer rel with PVal JNull => _get_peer ref | _ => mret tt end);
  rel ← rel_at_ref ref;
  _ ← (match rel_peer rel with PVal (JStr _) => _get_peer ref | _ => mret tt end);
  rel ← rel_at_ref ref;
  match rel_peer rel with
  | PNode n => mret n
  | PVal JNull | PVal (JStr _) => id ← lift (get_peer_id rel); raise (NodeNotFoundError id)
  | PVal _ | PEnum _ => raise (AttributeError "id")
  end.

(** The properties of the query are those of the relationship with a value. *)
Definition create_node_properties (rel : Relationship) : list (string * json) :=
  filter (λ p, truthy_json p.2 = true) [("source", rel_source_id rel); ("owner", rel_owner_id rel)].

Definition _create (ref : nat) (at_ : Z) : Exec ManagerState unit :=
  peer ← rel_get_peer ref;
  rel ← rel_at_ref ref;
  let branch := get_branch_based_on_support_type in
  branch_support ← lift (require (AttributeError "value") (r_branch (rm_schema rm)));
  _ ← execute (RelationshipCreateQuery (pn_id (rm_node rm)) (pn_id peer) (r_identifier (rm_schema rm))
                 (enum_value branch_support) (b_name branch) (b_hierarchy_level branch) at_
                 (rel_is_protected rel) (rel_is_visible rel) (create_node_properties rel));
  result ← gets (λ s, created db (queries s));
  match result with
  | Some (db_id, uuid) => on_rel ref (modify (λ r, r <| rel_db_id := Some db_id |> <| rel_id := Some uuid |>))
  | None => mret tt
  end.

Definition update_relationships_to (ids : list string) (to : Z) : Exec ManagerState unit :=
  match ids with [] => mret tt | _ => execute (UpdateRelationshipsTo ids to) end.

Definition rel_update (ref : nat) (properties_to_update : list string) (data : RelationshipPeerData) (at_ : Z) :
    Exec ManagerState unit :=
  let rel_ids_to_update := omap (λ prop,
      if decide (prop.1 ∈ properties_to_update ∧ rd_branch (pd_rel prop.2) = b_name (rm_branch rm))
      then Some (rd_db_id (pd_rel prop.2)) else None) (pe_properties data) in
  _ ← update_relationships_to rel_ids_to_update at_;
  rel ← rel_at_ref ref;
  let branch := get_branch_based_on_support_type in
  execute (RelationshipUpdatePropertyQuery (pe_rel_node_id data) (b_name branch) (b_hierarchy_level branch) at_
    ((λ name, (name, getattr_property rel name)) <$>
       filter (.∈ properties_to_update) (_flag_properties ++ _node_properties))).

Definition rel_delete (ref : nat) (at_ : Z) : Exec ManagerState unit :=
  peer ← rel_get_peer ref;
  rel ← rel_at_ref ref;
  let branch := get_branch_based_on_support_type in
  result ← gets (λ s, relationship_get db (queries s) (pn_id (rm_node rm)) (pn_id peer) at_);
  match result with
  | None => raise (Error "Unable to find the relationship to delete")
  | Some rels =>
      _ ← update_relationships_to (rd_db_id <$> filter (λ r, rd_branch r = b_name branch) rels) at_;
      execute (RelationshipDeleteQuery (pn_id (rm_node rm)) (pn_id peer) (rel_id rel)
                 (b_name branch) (b_hierarchy_level branch) at_)
  end.

Definition rel_save (ref : nat) (at_ : Z) : Exec ManagerState unit :=
  rel ← rel_at_ref ref;
  if truthy_str (rel_id rel) then mret tt else _create ref at_.

(** [if peer: await self.set_peer(value=peer)] *)
Definition set_found_peer (ref : nat) (peer : option PeerNode) : Exec ManagerState unit :=
  match peer with Some n => on_rel ref (set_peer (PNode n)) | None => mret tt end.

(** ["id" in self.from_pool], then [self.from_pool.get("id")] *)
Definition pool_data (from_pool : PyValue) : result (option (list (string * json))) :=
  if truthy_value from_pool then
    match from_pool with
    | PVal (JDict d) => Ok (if dict_mem d "id" then Some d else None)
    | PVal (JStr s) => if str_contains "id" s then Err (AttributeError "get") else Ok None
    | PVal (JList l) => if existsb (py_eq (JStr "id")) l then Err (AttributeError "get") else Ok None
    | _ => Err (TypeError "argument is not iterable")
    end
  else Ok None.

Definition resolve_from_pool (ref : nat) (from_pool : list (string * json)) : Exec ManagerState unit :=
  let pool_id := match dict_get from_pool "id" with Some v => py_str v | None => "None" end in
  found ← fetch (λ q, get_one db q pool_id);
  match found with
  | None => raise (NodeNotFoundError pool_id)
  | Some pool =>
      let data_from_pool := dict_del from_pool "id" in
      hfid_str ← (if dict_mem data_from_pool "identifier" then mret None else fetch (get_hfid_as_string db));
      let data_from_pool :=
        if truthy_str hfid_str
        then dict_set data_from_pool "identifier" (JStr ("hfid=" +:+ default "" hfid_str +:+ " rel=" +:+ r_name (rm_schema rm)))
        else data_from_pool in
      _ ← execute (GetResource pool_id data_from_pool);
      assigned_peer ← fetch (λ q, get_resource db q pool data_from_pool);
      _ ← on_rel ref (set_peer (PNode assigned_peer));
      on_rel ref (on_properties (_set_node_property "source" (of_opt (pn_id pool))))
  end.

Definition rel_resolve (ref : nat) : Exec ManagerState unit :=
  rel ← rel_at_ref ref;
  if bool_decide (rel_peer rel ≠ PVal JNull) then mret tt
  else
    _ ← (match rel_peer_id rel with
         | Some (String c s) =>
             if is_valid_uuid (String c s) then mret tt
             else found ← fetch (λ q, get_one_by_default_filter db q (String c s)); set_found_peer ref found
         | _ => mret tt
         end);
    rel ← rel_at_ref ref;
    _ ← (if negb (truthy_str (rel_peer_id rel)) && truthy_value (rel_peer_hfid rel)
         then found ← fetch (λ q, get_one_by_hfid db q (rel_peer_hfid rel)); set_found_peer ref found
         else mret tt);
    rel ← rel_at_ref ref;
    if truthy_str (rel_peer_id rel) then mret tt
    else
      from_pool ← lift (pool_data (rel_from_pool rel));
      match from_pool with Some d => resolve_from_pool ref d | None => mret tt end.

(** *** [RelationshipManager] *)

(** One item, or several. *)
Definition as_items (data : RelationshipInput + list RelationshipInput) : list RelationshipInput :=
  match data with
  | inl (InValue (PVal (JList l))) => InValue ∘ PVal <$> l
  | inl item => [item]
  | inr items => items
  end.

(** [isinstance(item, (rel_class, str, dict)) or hasattr(item, "_schema")] *)
Definition valid_item (item : RelationshipInput) : bool :=
  match item with
  | InValue (PVal (JStr _)) | InValue (PVal (JDict _)) | InValue (PNode _) => true
  | InDict _ | InRelationship _ => true
  | _ => false
  end.
Definition invalid_data {A} : Exec ManagerState A :=
  raise (ValidationError (r_name (rm_schema rm) +:+ ": Invalid data provided to form a relationship")).

(** [Relationship(...).new(data=item)], appended to the list *)
Definition append_new (item : RelationshipInput) : Exec ManagerState unit :=
  ref ← new_object (new_relationship (rm_at rm));
  _ ← on_rel ref (_process_data item);
  on_list (λ l, vl_append l (Some ref)).

Definition manager_init : result (RelationshipValidatorList nat) :=
  let s := rm_schema rm in
  vl_init [] (r_name s) (if r_optional s then 0 else r_min_count s) (r_max_count s).
Definition rm_init (data : RelationshipInput + list RelationshipInput) : Exec ManagerState unit :=
  _ ← on_list (λ _, manager_init);
  match data with
  | inl (InValue (PVal JNull)) => mret tt
  | _ =>
      _ ← for_each (λ item, if valid_item item then append_new item else invalid_data) (as_items data);
      modify (λ s, s <| has_fetched_relationships := true |>)
  end.

(** The ids of the relationships of the list. *)
Definition current_peer_ids : Exec ManagerState (list string) := λ s,
  (rels ← mapM (λ ref, require (RuntimeError "no such object") (heap s !! ref)) (vl_relationships (_relationships s));
   mapM get_peer_id rels, s).

(** The part of [fetch_relationship_ids] that reads the database. *)
Definition fetch_details (at_ : option Z) (branch_agnostic : bool) : Exec ManagerState RelationshipUpdateDetails :=
  current ← current_peer_ids;
  peers ← gets (λ s, get_peers db (queries s) (default (rm_at rm) at_) branch_agnostic);
  let peers_database := dict_of_list ((λ peer, (pe_peer_id peer, peer)) <$> peers) in
  let peer_ids := dict_keys peers_database in
  let both := intersection current peer_ids in
  let details := mkUpdateDetails peers_database both (set_list (set_diff current both)) (set_list (set_diff peer_ids both)) in
  _ ← modify (λ s, s <| _relationship_id_details := Some details |>);
  mret details.
Definition fetch_relationship_ids (at_ : option Z) (branch_agnostic force_refresh : bool) :
    Exec ManagerState RelationshipUpdateDetails :=
  details ← gets _relationship_id_details;
  match details with
  | Some details => if force_refresh then fetch_details at_ branch_agnostic else mret details
  | None => fetch_details at_ branch_agnostic
  end.

(** The references of the list, in its order. *)
Definition refs : Exec ManagerState (list nat) := gets (λ s, vl_relationships (_relationships s)).
Definition str_peer_id (o : option string) : string := default "None" o.

(** The loop of [remove]: the first relationship with the peer is removed. *)
Fixpoint remove_loop (peer_id : string) (update_db : bool) (idx : nat) (rels : list nat) : Exec ManagerState bool :=
  match rels with
  | [] => raise IndexError
  | ref :: rels =>
      rel ← rel_at_ref ref;
      if bool_decide (str_peer_id (rel_peer_id rel) ≠ peer_id) then remove_loop peer_id update_db (S idx) rels
      else
        _ ← (if update_db then rel_delete ref now else mret tt);
        _ ← on_list (λ l, snd <$> vl_pop l (Z.of_nat idx));
        mret true
  end.
(** [remove], once the relationships are fetched. *)
Definition remove_fetched (peer_id : string) (update_db : bool) : Exec ManagerState bool :=
  rels ← refs; remove_loop peer_id update_db 0 rels.

Definition append_loaded (at_ : option Z) (details : RelationshipUpdateDetails) (peer_id : string) : Exec ManagerState unit :=
  ref ← new_object (new_relationship (default (rm_at rm) at_));
  data ← lift (require (KeyError peer_id) (dict_get (peers_database details) peer_id));
  _ ← on_rel ref (load None None None (InPeerData data));
  on_list (λ l, vl_append l (Some ref)).

(** The call of [remove] finds the relationships already fetched. *)
Definition _fetch_relationships (at_ : option Z) (branch_agnostic force_refresh : bool) : Exec ManagerState unit :=
  details ← fetch_relationship_ids at_ branch_agnostic force_refresh;
  _ ← for_each (append_loaded at_ details) (peer_ids_present_database_only details);
  _ ← modify (λ s, s <| has_fetched_relationships := true |>);
  for_each (λ peer_id, _ ← remove_fetched peer_id false; mret tt) (peer_ids_present_local_only details).

Definition get_relationships (branch_agnostic force_refresh : bool) : Exec ManagerState (list nat) :=
  fetched ← gets has_fetched_relationships;
  _ ← (if force_refresh || negb fetched then _fetch_relationships None branch_agnostic force_refresh else mret tt);
  refs.

Definition rm_get : Exec ManagerState (nat + list nat) :=
  rels ← get_relationships false false;
  if bool_decide (r_cardinality (rm_schema rm) = RelationshipCardinality.ONE)
  then inl <$> lift (require IndexError (head rels)) else mret (inr rels).

Definition rm_iter : Exec ManagerState (list nat) :=
  if bool_decide (r_cardinality (rm_schema rm) = RelationshipCardinality.ONE)
  then raise (TypeError "relationship with single cardinality are not iterable")
  else
    fetched ← gets has_fetched_relationships;
    if fetched : bool then refs else raise (LookupError "you can't iterate over the relationships before the cache has been populated.").
Definition rm_len : Exec ManagerState Z :=
  fetched ← gets has_fetched_relationships;
  if fetched : bool then ((λ s, let '(n, l) := vl_len (_relationships s) in (Ok n, s <| _relationships := l |>)) : Exec ManagerState Z)
  else raise (LookupError "you can't count relationships before the cache has been populated.").

Definition rm_get_peer : Exec ManagerState (option PeerNode) :=
  if bool_decide (r_cardinality (rm_schema rm) = RelationshipCardinality.MANY)
  then raise (TypeError "peer is not available for relationship with multiple cardinality")
  else
    rels ← get_relationships false false;
    match rels with [] => mret None | ref :: _ => Some <$> rel_get_peer ref end.

(** The ids that [get_peers] asks the manager of the nodes for. *)
Definition rm_get_peers (branch_agnostic : bool) : Exec ManagerState (list string) :=
  rels ← get_relationships branch_agnostic false;
  s ← get_state;
  mret (omap (λ ref, rel ← heap s !! ref; id ← rel_peer_id rel; if truthy_str (Some id) then Some id else None) rels).

(** [{rel.peer_id: rel for rel in rels if rel.peer_id}] *)
Definition previous_relationships (h : list Relationship) (rels : list nat) : list (string * nat) :=
  dict_of_list (omap (λ ref, rel ← h !! ref; id ← rel_peer_id rel; if truthy_str (Some id) then Some (id, ref) else None) rels).

(** [item.get("id", None) in previous], for a dictionary *)
Definition dict_item_ref (previous : list (string * nat)) (d : list (string * PyValue)) : result (option nat) :=
  match dict_get d "id" with
  | Some (PVal (JStr s)) => Ok (dict_get previous s)
  | Some (PVal (JList _)) | Some (PVal (JDict _)) => Err (TypeError "unhashable type")
  | _ => Ok None
  end.

(** A dictionary with the id of a previous relationship. *)
Definition update_known (item : RelationshipInput) (ref : nat) : Exec ManagerState bool :=
  rel ← rel_at_ref ref;
  hash_before ← lift (rel_hash rel);
  _ ← on_rel ref (load None None None item);
  rel ← rel_at_ref ref;
  hash_after ← lift (rel_hash rel);
  _ ← on_list (λ l, vl_append l (Some ref));
  mret (negb (hash_eq hash_after hash_before)).

(** One item of [update]; the result says whether something changed. *)
Definition update_item (previous : list (string * nat)) (item : RelationshipInput) : Exec ManagerState bool :=
  let new := _ ← append_new item; mret true in
  let reuse (ref : nat) := _ ← on_list (λ l, vl_append l (Some ref)); mret false in
  match item, as_dict item with
  | _, Some d =>
      found ← lift (dict_item_ref previous d);
      match found with Some ref => update_known item ref | None => new end
  | InValue (PVal JNull), _ =>
      match previous with
      | [] => mret false
      | _ => _ ← for_each (λ ref, rel_delete ref now) (dict_values previous); mret true
      end
  | InValue (PVal (JStr s)), _ =>
      match dict_get previous s with Some ref => reuse ref | None => new end
  | InValue (PNode n), _ =>
      match pn_id n ≫= dict_get previous with Some ref => reuse ref | None => new end
  | InRelationship _, _ => new
  | _, _ => invalid_data
  end.

Fixpoint update_items (previous : list (string * nat)) (items : list RelationshipInput) (changed : bool) : Exec ManagerState bool :=
  match items with
  | [] => mret changed
  | item :: items => c ← update_item previous item; update_items previous items (changed || c)
  end.

Definition peer_ids_of (h : list Relationship) (rels : list nat) : list (option string) :=
  omap (λ ref, rel_peer_id <$> h !! ref) rels.

Definition rm_update (data : RelationshipInput + list RelationshipInput) : Exec ManagerState bool :=
  rels ← get_relationships false false;
  s ← get_state;
  let previous := previous_relationships (heap s) rels in
  _ ← modify (λ s, s <| _relationships := vl_clear (_relationships s) |>);
  changed ← update_items previous (as_items data) false;
  rels ← get_relationships false false;
  s ← get_state;
  let changed := changed || forallb (λ id, bool_decide (Some id ∈ peer_ids_of (heap s) rels)) (dict_keys previous) in
  _ ← (if changed then lift (vl_validate (_relationships s)) else mret tt);
  mret changed.

(** The id of the data of [add], when it is one that may already be there. *)
Definition add_item_ref (h : list Relationship) (previous : list (string * nat)) (data : RelationshipInput) : result (option nat) :=
  match data, as_dict data with
  | _, Some d => dict_item_ref previous d
  | InRelationship ref, None => Ok (rel ← h !! ref; rel_id rel ≫= dict_get previous)
  | InValue (PNode n), None => Ok (pn_id n ≫= dict_get previous)
  | _, _ => Ok None
  end.
Definition rm_add (data : RelationshipInput) : Exec ManagerState bool :=
  match data with
  | InValue (PVal (JStr _)) | InPeerData _ => invalid_data
  | _ =>
      if valid_item data then
        rels ← get_relationships false false;
        s ← get_state;
        found ← lift (add_item_ref (heap s) (previous_relationships (heap s) rels) data);
        match found with
        | Some _ => mret false
        | None => _ ← append_new data; mret true
        end
      else invalid_data
  end.

Definition rm_resolve : Exec ManagerState unit := rels ← refs; for_each rel_resolve rels.

Definition rm_remove (peer_id : string) (update_db : bool) : Exec ManagerState bool :=
  rels ← get_relationships false false;
  remove_loop peer_id update_db 0 rels.

(** The edges to close are looked for under the branch of the manager. *)
Definition remove_in_db (peer_data : RelationshipPeerData) (at_ : Z) : Exec ManagerState unit :=
  let branch := get_branch_based_on_support_type in
  let ids := rel_ids_per_branch peer_data in
  _ ← (if dict_mem ids (b_name branch)
       then update_relationships_to (default [] (dict_get ids (b_name (rm_branch rm)))) at_ else mret tt);
  execute (RelationshipDataDeleteQuery (pn_id (rm_node rm)) peer_data (r_identifier (rm_schema rm))
             (b_name branch) (b_hierarchy_level branch) at_).

Definition remove_peer_in_db (details : RelationshipUpdateDetails) (at_ : Z) (peer_id : string) : Exec ManagerState unit :=
  data ← lift (require (KeyError peer_id) (dict_get (peers_database details) peer_id));
  remove_in_db data at_.

(** One relationship of [save]. *)
Definition save_one (details : RelationshipUpdateDetails) (at_ : Z) (ref : nat) : Exec ManagerState unit :=
  rel ← rel_at_ref ref;
  match rel_peer_id rel with
  | None => mret tt
  | Some peer_id =>
      if bool_decide (peer_id ∈ peer_ids_present_local_only details) then rel_save ref at_
      else if bool_decide (peer_id ∈ peer_ids_present_both details) then
        data ← lift (require (KeyError peer_id) (dict_get (peers_database details) peer_id));
        match compare_properties_with_data rel data with
        | [] => mret tt
        | properties_not_matching => rel_update ref properties_not_matching data at_
        end
      else mret tt
  end.

Definition rm_save (at_ : option Z) : Exec ManagerState unit :=
  _ ← rm_resolve;
  let save_at := Timestamp now at_ in
  details ← fetch_relationship_ids None false true;
  fetched ← gets has_fetched_relationships;
  _ ← (if fetched : bool then for_each (remove_peer_in_db details save_at) (peer_ids_present_database_only details) else mret tt);
  rels ← get_relationships false false;
  for_each (save_one details save_at) rels.

Definition rm_delete (at_ : option Z) : Exec ManagerState unit :=
  let delete_at := Timestamp now at_ in
  _ ← _fetch_relationships (Some delete_at) false true;
  rels ← get_relationships false false;
  for_each (λ ref, rel_delete ref delete_at) rels.
End manager.

(** A list whose count is its length. *)
Definition vl_of (name : string) (mn mx : Z) (rels : list nat) : RelationshipValidatorList nat :=
  mkValidatorList name mn mx rels (length rels).
(** [max_count and max_count < n], [min_count and n < min_count] *)
Definition too_many (mx n : Z) : bool := negb (mx =? 0) && (mx <? n).
Definition too_few (mn n : Z) : bool := negb (mn =? 0) && (n <? mn).

Lemma too_many_mono mx n m : too_many mx n = true → n ≤ m → too_many mx m = true.
Proof. unfold too_many. rewrite !andb_true_iff, !Z.ltb_lt. intros [? ?] ?. split; [done|lia]. Qed.

Lemma vl_append_of name mn mx rels (ref : nat) :
  ref ∉ rels →
  vl_append (vl_of name mn mx rels) (Some ref) =
    if too_many mx (length rels + 1) then _raise_too_many (vl_of name mn mx rels) else Ok (vl_of name mn mx (rels ++ [ref])).
Proof.
  intros Href. unfold vl_append, vl_contains, vl_of. cbn [vl_relationships].
  rewrite bool_decide_eq_false_2 by done. unfold over_max, too_many. cbn.
  destruct (negb _ && _); [done|]. unfold assign. cbn. do 2 f_equal. rewrite length_app. cbn. lia.
Qed.

(** The objects of a list of references have these peers, one each. *)
Definition good_rel (rel : Relationship) (id : string) : Prop :=
  rel_peer_id rel = Some id ∧ id ≠ "" ∧ ∃ h, rel_hash rel = Ok h.
Definition peers_are (h : list Relationship) (rels : list nat) (ids : list string) : Prop :=
  Forall2 (λ ref id, ∃ rel, h !! ref = Some rel ∧ good_rel rel id) rels ids.
(** A heap with the same objects and maybe more. *)
Definition extends (h h' : list Relationship) : Prop := ∀ i rel, h !! i = Some rel → h' !! i = Some rel.

#[export] Instance extends_preorder : PreOrder extends.
Proof. split; [by intros h i rel|]. intros h1 h2 h3 H12 H23 i rel Hi. by apply H23, H12. Qed.

Lemma extends_app h h' : extends h (h ++ h').
Proof. intros i rel Hi. by apply lookup_app_l_Some. Qed.

Lemma peers_are_extends h h' rels ids : extends h h' → peers_are h rels ids → peers_are h' rels ids.
Proof. intros He Hp. eapply Forall2_impl; [exact Hp|]. intros ref id (rel & Hrel & ?). exists rel. split; [by apply He|done]. Qed.

Lemma peers_are_ref h rels ids ref :
  peers_are h rels ids → ref ∈ rels → ∃ rel id, h !! ref = Some rel ∧ good_rel rel id ∧ id ∈ ids.
Proof.
  intros Hp Href. apply list_elem_of_lookup in Href as [i Hi].
  destruct (Forall2_lookup_l _ _ _ _ _ Hp Hi) as (id & Hid & rel & Hrel & Hgood).
  exists rel, id. split_and!; [done|done|]. by eapply list_elem_of_lookup_2.
Qed.

Lemma peers_are_lt h rels ids ref : peers_are h rels ids → ref ∈ rels → (ref < length h)%nat.
Proof. intros Hp Hr. destruct (peers_are_ref _ _ _ _ Hp Hr) as (rel & id & Hrel & _). by eapply lookup_lt_Some. Qed.

Lemma peers_are_snoc h rels ids ref rel id :
  peers_are h rels ids → h !! ref = Some rel → good_rel rel id → peers_are h (rels ++ [ref]) (ids ++ [id]).
Proof. intros Hp Hrel Hgood. apply Forall2_app; [done|]. constructor; [by exists rel|constructor]. Qed.

Lemma peers_are_cons h ref rels id ids :
  peers_are h (ref :: rels) (id :: ids) → ∃ rel, h !! ref = Some rel ∧ good_rel rel id ∧ peers_are h rels ids.
Proof. intros Hp. apply Forall2_cons in Hp as [(rel & ? & ?) ?]. by exists rel. Qed.

Lemma peer_ids_of_peers h rels ids : peers_are h rels ids → peer_ids_of h rels = Some <$> ids.
Proof.
  intros Hp. induction Hp as [|ref id rels ids (rel & Hrel & Hid & _) _ IH]; [done|].
  unfold peer_ids_of in *. cbn. rewrite Hrel. cbn. by rewrite Hid, IH.
Qed.

Lemma previous_relationships_peers h rels ids :
  peers_are h rels ids → NoDup ids → previous_relationships h rels = zip ids rels.
Proof.
  intros Hp Hnd. unfold previous_relationships.
  assert (omap (λ ref, rel ← h !! ref; id ← rel_peer_id rel; if truthy_str (Some id) then Some (id, ref) else None) rels
          = zip ids rels) as ->.
  { clear Hnd. induction Hp as [|ref id rels ids (rel & Hrel & Hid & Hne & _) _ IH]; [done|].
    cbn. rewrite Hrel. cbn. rewrite Hid. cbn. destruct id; [done|]. cbn. f_equal. exact IH. }
  apply dict_of_list_NoDup. rewrite fst_zip; [done|]. by rewrite (Forall2_length _ _ _ Hp).
Qed.

Lemma dict_get_zip_peers h rels ids id ref :
  peers_are h rels ids → dict_get (zip ids rels) id = Some ref →
  ref ∈ rels ∧ ∃ rel, h !! ref = Some rel ∧ good_rel rel id.
Proof.
  intros Hp. induction Hp as [|ref' id' rels ids (rel & Hrel & Hgood) _ IH]; [done|]. cbn. case_decide as Hid.
  - intros [= <-]. subst. split; [left|by exists rel].
  - intros Hget. destruct (IH Hget) as [? ?]. split; [by right|done].
Qed.

Lemma value_eq_hashable v w : hashable_value v = Ok w → value_eq w w = true.
Proof.
  destruct v as [[|b|z|s|l|d]|m|n]; cbn; intros [= <-]; cbn; rewrite ?Z.eqb_refl, ?bool_decide_eq_true_2 by done; try done.
  by destruct b.
Qed.
Lemma hash_eq_refl rel h : rel_hash rel = Ok h → hash_eq h h = true.
Proof.
  unfold rel_hash. generalize ([of_opt (rel_id rel); of_opt (rel_db_id rel); of_opt (rel_peer_id rel)] ++
    (getattr_property rel <$> _flag_properties ++ _node_properties)).
  intros l. revert h. induction l as [|v l IH]; intros h Hh; [by injection Hh as <-|].
  apply bind_ok in Hh as (w & Hv & Hh). apply bind_ok in Hh as (ws & Hl & [= <-]).
  cbn [hash_eq]. rewrite (value_eq_hashable _ _ Hv).
  by apply IH.
Qed.

(** ** Changes of the list *)

(** The data of one peer by its id: a string, or a dictionary with the id. *)
Definition id_item (id : string) (item : RelationshipInput) : Prop :=
  item = InValue (PVal (JStr id)) ∨ as_dict item = Some [("id", PVal (JStr id))].

Definition with_id (rel : Relationship) (id : string) : Relationship := rel <| rel_peer_id := Some id |>.

Lemma process_id_item id item rel : id_item id item → _process_data item rel = (Ok tt, with_id rel id).
Proof.
  intros [->|Hd]; [done|]. destruct item as [v|d|ref|data]; try done; unfold _process_data; by rewrite Hd.
Qed.

Lemma good_new at_ id : id ≠ "" → good_rel (with_id (new_relationship at_) id) id.
Proof. intros Hid. split_and!; [done..|]. by eexists. Qed.

(** A state whose list has this content. *)
Definition state (h : list Relationship) (name : string) (mn mx : Z) (rels : list nat)
    (details : option RelationshipUpdateDetails) (fetched : bool) (q : list DbQuery) : ManagerState :=
  mkManagerState h (vl_of name mn mx rels) details fetched q.

Lemma new_object_state h name mn mx rels details fetched q rel :
  new_object rel (state h name mn mx rels details fetched q) = (Ok (length h), state (h ++ [rel]) name mn mx rels details fetched q).
Proof. done. Qed.
Lemma on_rel_state {A} ref (m : Exec Relationship A) h name mn mx rels details fetched q rel :
  h !! ref = Some rel →
  on_rel ref m (state h name mn mx rels details fetched q) =
    ((m rel).1, state (<[ref := (m rel).2]> h) name mn mx rels details fetched q).
Proof. intros Hrel. unfold on_rel, state. cbn [heap]. rewrite Hrel. by destruct (m rel). Qed.
Lemma rel_at_ref_state h name mn mx rels details fetched q ref rel :
  h !! ref = Some rel →
  rel_at_ref ref (state h name mn mx rels details fetched q) = (Ok rel, state h name mn mx rels details fetched q).
Proof. intros Hrel. unfold rel_at_ref, state. cbn [heap]. by rewrite Hrel. Qed.

Section update.
Context `{SetOrder} (db : Database) (global_branch : Branch) (now : Z) (rm : Manager).
Implicit Types (h : list Relationship) (rels : list nat) (ids : list string).

Definition refused {A} (name : string) : result A := Err (ValidationError (name +:+ ": Too many relationships")).

(** A reference to an object with the peer [id], of which [P] holds, is appended, or there
    are too many. *)
Definition appended (P : list Relationship → nat → Prop) (h : list Relationship) (name : string) (mn mx : Z) (rels : list nat)
    (details : option RelationshipUpdateDetails) (fetched : bool) (q : list DbQuery) (ids : list string) (id : string)
    {A} (a : A) (r : result A * ManagerState) : Prop :=
  if too_many mx (length ids + 1) then r.1 = refused name ∧ queries r.2 = q
  else ∃ h' ref, r = (Ok a, state h' name mn mx (rels ++ [ref]) details fetched q) ∧ extends h h' ∧
         peers_are h' (rels ++ [ref]) (ids ++ [id]) ∧ P h' ref.

(** What the manager keeps of an [id] given to [update]: the very object that had this peer
    in [h0], unchanged, or, when none had, an object made since for this peer. *)
Definition kept_or_new (h0 : list Relationship) (rels0 : list nat) (prev : list string)
    (h : list Relationship) (ref : nat) (id : string) : Prop :=
  ((id, ref) ∈ zip prev rels0 ∧ ∃ rel, h0 !! ref = Some rel ∧ h !! ref = Some rel) ∨
  ((id ∉ prev) ∧ (length h0 ≤ ref)%nat ∧ h !! ref = Some (with_id (new_relationship (rm_at rm)) id)).

Lemma kept_or_new_extends h0 rels0 prev h h' ref id :
  extends h h' → kept_or_new h0 rels0 prev h ref id → kept_or_new h0 rels0 prev h' ref id.
Proof.
  intros He [(? & rel & ? & ?)|(? & ? & ?)]; [left; split; [done|]; exists rel; split; [done|by apply He]|].
  right. split_and!; [done..|by apply He].
Qed.

Lemma extends_length h h' : extends h h' → (length h ≤ length h')%nat.
Proof.
  intros He. destruct (decide (length h ≤ length h')%nat) as [|Hn]; [done|].
  destruct (lookup_lt_is_Some_2 h (length h')) as [rel Hrel]; [lia|].
  apply He, lookup_lt_Some in Hrel. lia.
Qed.

Lemma appended_weaken P1 P2 h name mn mx rels details fetched q ids id {A} (a : A) r :
  (∀ h' ref, P1 h' ref → P2 h' ref) →
  appended P1 h name mn mx rels details fetched q ids id a r → appended P2 h name mn mx rels details fetched q ids id a r.
Proof. intros HP. unfold appended. destruct (too_many _ _); [done|]. intros (h' & ref & ? & ? & ? & ?). exists h', ref. eauto. Qed.

Lemma append_ref_spec (P : list Relationship → nat → Prop) h name mn mx rels details fetched q ids id ref rel {A} (a : A) :
  peers_are h rels ids → id ∉ ids → h !! ref = Some rel → good_rel rel id → P h ref →
  appended P h name mn mx rels details fetched q ids id a
    ((on_list (λ l, vl_append l (Some ref)) ≫= λ _, mret a) (state h name mn mx rels details fetched q)).
Proof.
  intros Hp Hid Hrel Hgood HP. assert (ref ∉ rels) as Href.
  { intros Hr. destruct (peers_are_ref _ _ _ _ Hp Hr) as (rel' & id' & Hrel' & [Hid' _] & Hin).
    destruct Hgood as [Hid2 _]. congruence. }
  unfold appended, mbind, exec_bind, on_list, state. cbn [_relationships].
  rewrite vl_append_of by done. rewrite <-(Forall2_length _ _ _ Hp).
  destruct (too_many mx (length rels + 1)); [done|]. exists h, ref. split_and!; [done|done| |done].
  by eapply peers_are_snoc.
Qed.

Lemma append_new_spec h name mn mx rels details fetched q ids id item {A} (a : A) :
  peers_are h rels ids → id ∉ ids → id ≠ "" → id_item id item →
  appended (λ h' ref, ref = length h ∧ h' !! ref = Some (with_id (new_relationship (rm_at rm)) id)) h name mn mx rels details fetched q ids id a
    ((append_new rm item ≫= λ _, mret a) (state h name mn mx rels details fetched q)).
Proof.
  intros Hp Hid Hne Hitem. set (rel := with_id (new_relationship (rm_at rm)) id).
  assert (extends h (h ++ [rel])) as He by apply extends_app.
  assert ((h ++ [rel]) !! length h = Some rel) as Hrel by (by rewrite list_lookup_middle).
  pose proof (append_ref_spec (λ h' ref, ref = length h ∧ h' !! ref = Some rel) (h ++ [rel]) name mn mx rels details fetched q ids id (length h) rel a
    (peers_are_extends _ _ _ _ He Hp) Hid Hrel (good_new _ _ Hne) (conj eq_refl Hrel)) as Happ.
  assert ((append_new rm item ≫= λ _, mret a) (state h name mn mx rels details fetched q) =
          (on_list (λ l, vl_append l (Some (length h))) ≫= λ _, mret a) (state (h ++ [rel]) name mn mx rels details fetched q)) as ->.
  { unfold append_new, mbind, exec_bind. rewrite new_object_state.
    rewrite (on_rel_state _ _ _ _ _ _ _ _ _ _ (new_relationship (rm_at rm))) by (by rewrite list_lookup_middle).
    rewrite (process_id_item id) by done. cbn [fst snd].
    by rewrite insert_app_r_alt, Nat.sub_diag by done. }
  unfold appended in *. destruct (too_many mx (length ids + 1)); [done|].
  destruct Happ as (h' & ref & ? & ? & ? & ?). exists h', ref. split; [done|]. split; [by etrans|done].
Qed.

Lemma dict_item_ref_id previous id : dict_item_ref previous [("id", PVal (JStr id))] = Ok (dict_get previous id).
Proof. done. Qed.
Lemma update_item_dict previous item d :
  as_dict item = Some d →
  update_item db global_branch now rm previous item =
    (found ← lift (dict_item_ref previous d);
     match found with Some ref => update_known item ref | None => _ ← append_new rm item; mret true end).
Proof. intros Hd. destruct item as [v|?| |]; try done; [destruct v as [[]| |]; try done; by injection Hd as <-|by injection Hd as <-]. Qed.

Lemma update_known_spec h name mn mx rels details fetched q id item ref rel hash :
  as_dict item = Some [("id", PVal (JStr id))] → h !! ref = Some rel → rel_peer_id rel = Some id → rel_hash rel = Ok hash →
  update_known item ref (state h name mn mx rels details fetched q) =
    (on_list (λ l, vl_append l (Some ref)) ≫= λ _, mret false) (state h name mn mx rels details fetched q).
Proof.
  intros Hd Hrel Hpid Hhash.
  assert (load None None None item rel = (Ok tt, rel)) as Hload.
  { unfold load, mbind, exec_bind. rewrite Hhash. cbn [modify].
    rewrite (process_id_item id) by (by right). f_equal. destruct rel. cbn in *. by subst. }
  assert (<[ref:=rel]> h = h) as Hh by (by apply list_insert_id).
  unfold update_known.
  erewrite exec_step by (by apply rel_at_ref_state). erewrite exec_step by (unfold lift; by rewrite Hhash).
  erewrite exec_step by (rewrite (on_rel_state _ _ _ _ _ _ _ _ _ _ rel), Hload by done; reflexivity).
  cbn [snd]. rewrite Hh. erewrite exec_step by (by apply rel_at_ref_state).
  erewrite exec_step by (unfold lift; by rewrite Hhash). by rewrite (hash_eq_refl _ _ Hhash).
Qed.

(** One id given to [update]: the object that already has it, or a new one. *)
Lemma update_item_spec h0 h name mn mx rels0 rels details fetched q prev ids id item :
  peers_are h0 rels0 prev → extends h0 h → peers_are h rels ids → id ∉ ids → id ≠ "" → id_item id item →
  appended (λ h' ref, kept_or_new h0 rels0 prev h' ref id) h name mn mx rels details fetched q ids id (bool_decide (id ∉ prev))
    (update_item db global_branch now rm (zip prev rels0) item (state h name mn mx rels details fetched q)).
Proof.
  intros Hp0 He Hp Hid Hne Hitem.
  assert (dict_get (zip prev rels0) id = None → id ∉ prev) as Hnone.
  { rewrite dict_get_None. unfold dict_keys. by rewrite fst_zip by (by rewrite (Forall2_length _ _ _ Hp0)). }
  assert (∀ ref, dict_get (zip prev rels0) id = Some ref →
            ∃ rel, h !! ref = Some rel ∧ good_rel rel id ∧ id ∈ prev ∧ kept_or_new h0 rels0 prev h ref id) as Hsome.
  { intros ref Href. pose proof (dict_get_zip_peers _ _ _ _ _ Hp0 Href) as (_ & rel & Hrel & Hgood).
    exists rel. split_and!; [by apply He|done| |left; split; [by apply dict_get_Some_in|exists rel; split; [done|by apply He]]]. destruct (decide (id ∈ prev)) as [|Hn]; [done|].
    assert (dict_get (zip prev rels0) id = None); [|congruence].
    rewrite dict_get_None. unfold dict_keys. by rewrite fst_zip by (by rewrite (Forall2_length _ _ _ Hp0)). }
  pose proof (append_new_spec h name mn mx rels details fetched q ids id item true Hp Hid Hne Hitem) as Hnew.
  destruct (dict_get (zip prev rels0) id) as [ref|] eqn:Hget.
  - destruct (Hsome ref eq_refl) as (rel & Hrel & Hgood & Hin & Hkept). rewrite bool_decide_eq_false_2 by tauto.
    pose proof (append_ref_spec (λ h' ref, kept_or_new h0 rels0 prev h' ref id) h name mn mx rels details fetched q ids id ref rel false
      Hp Hid Hrel Hgood Hkept) as Happ.
    destruct Hitem as [->|Hd]; [unfold update_item; cbn [as_dict]; by rewrite Hget|].
    destruct Hgood as (Hpid & _ & hash & Hhash). rewrite (update_item_dict _ _ _ Hd), dict_item_ref_id, Hget.
    erewrite exec_step by done. cbv beta iota. by erewrite update_known_spec.
  - rewrite bool_decide_eq_true_2 by auto.
    apply (appended_weaken _ (λ h' ref, kept_or_new h0 rels0 prev h' ref id)) in Hnew.
    2: { intros h' ref [-> ?]. right. split_and!; [auto|by apply extends_length|done]. }
    destruct Hitem as [->|Hd]; [unfold update_item; cbn [as_dict]; by rewrite Hget|].
    rewrite (update_item_dict _ _ _ Hd), dict_item_ref_id, Hget. by erewrite exec_step by done.
Qed.

(** What the ids given change: a new one is among them, or none of the previous is missing. *)
Definition update_changes (prev ids : list string) : bool :=
  existsb (λ id, bool_decide (id ∉ prev)) ids || forallb (λ id, bool_decide (id ∈ ids)) prev.

Definition all_appended (P : list Relationship → nat → string → Prop) (h : list Relationship) (name : string) (mn mx : Z) (details : option RelationshipUpdateDetails)
    (fetched : bool) (q : list DbQuery) (ids : list string) {A} (a : A) (r : result A * ManagerState) : Prop :=
  if too_many mx (length ids) then r.1 = refused name ∧ queries r.2 = q
  else ∃ h' rels', r = (Ok a, state h' name mn mx rels' details fetched q) ∧ extends h h' ∧ peers_are h' rels' ids ∧
         Forall2 (P h') rels' ids.

Lemma update_items_spec h0 h name mn mx rels0 rels details fetched q prev done items ids changed :
  peers_are h0 rels0 prev → extends h0 h → peers_are h rels done → Forall2 (kept_or_new h0 rels0 prev h) rels done →
  Forall2 id_item ids items → NoDup (done ++ ids) → Forall (.≠ "") ids → too_many mx (length done) = false →
  all_appended (kept_or_new h0 rels0 prev) h name mn mx details fetched q (done ++ ids) (changed || existsb (λ id, bool_decide (id ∉ prev)) ids)
    (update_items db global_branch now rm (zip prev rels0) items changed (state h name mn mx rels details fetched q)).
Proof.
  intros Hp0. revert h rels done items changed.
  induction ids as [|id ids IH]; intros h rels done items changed He Hp Hkept Hitems Hnd Hne Hmany.
  - apply Forall2_nil_inv_l in Hitems as ->. cbn. rewrite app_nil_r, orb_false_r. unfold all_appended. rewrite Hmany.
    exists h, rels. by repeat split.
  - apply Forall2_cons_inv_l in Hitems as (item & items' & Hitem & Hitems & ->).
    assert (NoDup ((done ++ [id]) ++ ids)) as Hnd' by (by rewrite <-app_assoc).
    apply Forall_cons in Hne as [Hne1 Hne]. apply NoDup_app in Hnd as (Hnd1 & Hdisj & Hnd2).
    apply NoDup_cons in Hnd2 as [Hid Hnd2].
    assert (id ∉ done) as Hid' by (intros Hin; apply (Hdisj id Hin); left).
    pose proof (update_item_spec h0 h name mn mx rels0 rels details fetched q prev done id item Hp0 He Hp Hid' Hne1 Hitem) as Hstep.
    unfold appended in Hstep. cbn [update_items]. destruct (too_many mx (length done + 1)) eqn:Hm.
    + assert (too_many mx (length (done ++ id :: ids)) = true) as Hm'.
      { eapply too_many_mono; [exact Hm|]. rewrite length_app. cbn. lia. }
      unfold all_appended. rewrite Hm'. destruct Hstep as [Hr Hq]. unfold mbind, exec_bind.
      destruct (update_item _ _ _ _ _ _ _) as [r s']. cbn in Hr. by subst.
    + destruct Hstep as (h' & ref & Hrun & He' & Hp' & Hk). rewrite (exec_step _ _ _ _ _ Hrun).
      assert (too_many mx (length (done ++ [id])) = false) as Hm' by (rewrite length_app, Nat2Z.inj_add; exact Hm).
      assert (Forall2 (kept_or_new h0 rels0 prev h') (rels ++ [ref]) (done ++ [id])) as Hkept'.
      { apply Forall2_app; [|by constructor]. eapply Forall2_impl; [exact Hkept|]. intros ? ?. by apply kept_or_new_extends. }
      specialize (IH h' (rels ++ [ref]) (done ++ [id]) items' (changed || bool_decide (id ∉ prev))
                    ltac:(by etrans) Hp' Hkept' Hitems Hnd' Hne Hm').
      rewrite <-app_assoc in IH. cbn [existsb]. rewrite orb_assoc. unfold all_appended in *. cbn [app] in IH.
      destruct (too_many mx (length (done ++ id :: ids))); [done|].
      destruct IH as (h2 & rels2 & ? & ? & ? & ?). exists h2, rels2. split_and!; [done|by etrans|done|done].
Qed.

Lemma forallb_previous h name mn mx rels details fetched q prev ids :
  peers_are h rels ids →
  forallb (λ id, bool_decide (Some id ∈ peer_ids_of (heap (state h name mn mx rels details fetched q)) rels)) prev =
  forallb (λ id, bool_decide (id ∈ ids)) prev.
Proof.
  intros Hp. cbn [heap state]. rewrite (peer_ids_of_peers _ _ _ Hp). induction prev as [|id prev IH]; [done|].
  cbn. rewrite IH. f_equal. apply bool_decide_ext. rewrite list_elem_of_fmap. naive_solver.
Qed.

Lemma vl_validate_of name mn mx rels :
  too_many mx (length rels) = false →
  vl_validate (vl_of name mn mx rels) = if too_few mn (length rels) then _raise_too_few (vl_of name mn mx rels) else Ok tt.
Proof.
  intros Hmany. unfold vl_validate, validate_min, validate_max.
  change (over_max _ _) with (too_many mx (length rels)). change (under_min _ _) with (too_few mn (length rels)).
  rewrite Hmany. by destruct (too_few mn (length rels)).
Qed.

Lemma get_relationships_fetched branch_agnostic s :
  has_fetched_relationships s = true →
  get_relationships db global_branch now rm branch_agnostic false s = (Ok (vl_relationships (_relationships s)), s).
Proof. intros Hf. unfold get_relationships, mbind, exec_bind, gets. by rewrite Hf. Qed.

(** [update] from a manager that knows its relationships. *)
Lemma update_fetched_spec h name mn mx rels0 details q prev ids data :
  peers_are h rels0 prev → NoDup prev → Forall2 id_item ids (as_items data) → NoDup ids → Forall (.≠ "") ids → 0 ≤ mx →
  let '(r, s') := rm_update db global_branch now rm data (state h name mn mx rels0 details true q) in
  if too_many mx (length ids) then r = refused name ∧ queries s' = q
  else ∃ h' rels', extends h h' ∧ peers_are h' rels' ids ∧ Forall2 (kept_or_new h rels0 prev h') rels' ids ∧
    s' = state h' name mn mx rels' details true q ∧
    r = if update_changes prev ids && too_few mn (length ids)
        then Err (ValidationError (name +:+ ": Too few relationships")) else Ok (update_changes prev ids).
Proof.
  intros Hp Hndp Hitems Hnd Hne Hmx. unfold rm_update.
  rewrite (exec_step _ _ _ _ _ (get_relationships_fetched false (state h name mn mx rels0 details true q) eq_refl)).
  erewrite exec_step by reflexivity. cbn [heap state _relationships vl_of vl_relationships].
  rewrite (previous_relationships_peers _ _ _ Hp Hndp). erewrite exec_step by reflexivity.
  change (_ <| _relationships := _ |>) with (state h name mn mx [] details true q).
  assert (too_many mx 0 = false) as Hm0.
  { unfold too_many. apply andb_false_iff. right. apply Z.ltb_ge. lia. }
  pose proof (update_items_spec h h name mn mx rels0 [] details true q prev [] (as_items data) ids false
    Hp (reflexivity h) (Forall2_nil_2 _ _ _) (Forall2_nil_2 _ _ _) Hitems Hnd Hne Hm0) as Hloop.
  unfold all_appended in Hloop. cbn [app orb] in Hloop. destruct (too_many mx (length ids)) eqn:Hmany.
  { destruct Hloop as [Hr Hq]. unfold mbind at 1, exec_bind at 1.
    destruct (update_items _ _ _ _ _ _ _) as [r s']. cbn in Hr. by subst. }
  destruct Hloop as (h' & rels' & Hrun & He & Hp' & Hkept). rewrite (exec_step _ _ _ _ _ Hrun).
  rewrite (exec_step _ _ _ _ _ (get_relationships_fetched false (state h' name mn mx rels' details true q) eq_refl)).
  erewrite exec_step by reflexivity. cbn [_relationships state]. unfold dict_keys.
  rewrite fst_zip by (by rewrite (Forall2_length _ _ _ Hp)).
  change (vl_relationships (vl_of name mn mx rels')) with rels'. rewrite (forallb_previous h' name mn mx rels' details true q prev ids Hp').
  fold (update_changes prev ids).
  assert (too_many mx (length rels') = false) as Hm' by (by rewrite (Forall2_length _ _ _ Hp')).
  assert (length rels' = length ids) as Hlen by (by apply (Forall2_length _ _ _ Hp')).
  destruct (update_changes prev ids); cbn [andb]; unfold lift, mbind, exec_bind.
  - rewrite vl_validate_of by done. rewrite Hlen. destruct (too_few mn (length ids)); by exists h', rels'.
  - by exists h', rels'.
Qed.
End update.
