(* ===== verification/RelationshipSync.v ===== *)
(** * Relationships and the database

    What [update], [save] and the constraints do to the relationships of a manager and to
    the database: [RelationshipCountConstraint]
    ([backend/infrahub/core/relationship/constraints/count.py]),
    [RelationshipPeerKindConstraint] ([peer_kind.py]), and the theorems on
    [RelationshipManager]. *)

From stdpp Require Import prelude strings.
From S2P Require Import Prelude PyString PyDict SdkUtils Constants HashModel SchemaDefs NodeSchemaOps RelationshipList PyValue PropertyMixin Branch RelationshipManager.

#[local] Open Scope Z_scope.
#[local] Coercion Z.of_nat : nat >-> Z.

(** ** The constraints *)

Record NodeToValidate := mkNodeToValidate {
  ntv_uuid : string;
  ntv_cardinality : RelationshipCardinality;
  ntv_min_count : option Z;
  ntv_max_count : option Z;
}.

(** The peers to check for one relationship of the schema of the peer. *)
Definition nodes_of_peer_rel (schema : RelationshipSchema) (details : RelationshipUpdateDetails) (peer_rel : RelationshipSchema) :
    list NodeToValidate :=
  if bool_decide (r_direction schema = r_direction peer_rel ∧ r_direction peer_rel ≠ RelationshipDirection.BIDIR) then []
  else
    concat ((λ peer_id,
      (if negb (r_max_count peer_rel =? 0) && bool_decide (peer_id ∈ peer_ids_present_local_only details)
       then [mkNodeToValidate peer_id (r_cardinality peer_rel) None (Some (r_max_count peer_rel))] else []) ++
      (if negb (r_min_count peer_rel =? 0) && bool_decide (peer_id ∈ peer_ids_present_database_only details)
       then [mkNodeToValidate peer_id (r_cardinality peer_rel) (Some (r_min_count peer_rel)) None] else [])) <$>
      peer_ids_present_local_only details ++ peer_ids_present_database_only details).

(** [RelationshipCountPerNodeQuery.get_count_per_peer] *)
Definition get_count_per_peer (results : list (string * Z)) (node_ids : list string) : list (string * Z) :=
  foldl (λ data node_id, dict_setdefault data node_id 0) (dict_of_list results) node_ids.

(** [if n and ...], for an optional number *)
Definition given (n : option Z) : bool := match n with Some n => negb (n =? 0) | None => false end.
Definition check_node (count_per_peer : list (string * Z)) (node : NodeToValidate) : result unit :=
  count ← require (KeyError (ntv_uuid node)) (dict_get count_per_peer (ntv_uuid node));
  raise_if (given (ntv_max_count node) && (default 0 (ntv_max_count node) <? count + 1))
    (ValidationError (ntv_uuid node +:+ ": maximum number of peers allowed"));;
  raise_if (given (ntv_min_count node) && (count - 1 <? default 0 (ntv_min_count node)))
    (ValidationError (ntv_uuid node +:+ ": no fewer peers allowed")).

Section constraints.
Context `{SetOrder} (db : Database) (global_branch : Branch) (now : Z) (rm : Manager).
Context (get_schema : string → result MainSchema).
Context (count_rows : list DbQuery → list string → option string → RelationshipDirection → list (string * Z)).
Context (nodes_info : list DbQuery → list (option string) → list (string * option MainSchema)).

(** [RelationshipCountConstraint.check] *)
Definition count_check : Exec ManagerState unit :=
  _ ← rm_resolve db rm;
  peer_schema ← lift (get_schema (r_peer (rm_schema rm)));
  identifier ← lift (get_identifier (rm_schema rm));
  match get_relationships_by_identifier peer_schema identifier with
  | [] => mret tt
  | peer_rels =>
      update_details ← fetch_relationship_ids db rm None false false;
      let nodes_to_validate := concat (nodes_of_peer_rel (rm_schema rm) update_details <$> peer_rels) in
      let node_ids := ntv_uuid <$> nodes_to_validate in
      results ← gets (λ s, count_rows (queries s) node_ids (r_identifier (rm_schema rm))
                             (neighbor_direction (r_direction (rm_schema rm))));
      lift (for_all (check_node (get_count_per_peer results node_ids)) nodes_to_validate)
  end.

(** [RelationshipPeerKindConstraint.check] *)
Definition kind_error (allowed_kinds : list string) (errors : list exn) (peer_node : string * option MainSchema) : result (list exn) :=
  match peer_node.2 with
  | None => Err (ValueError "Cannot identify schema for node")
  | Some schema =>
      Ok (if bool_decide (kind schema ∈ allowed_kinds) then errors
          else errors ++ [ValidationError (r_name (rm_schema rm) +:+ ": " +:+ kind schema +:+ " - " +:+ peer_node.1 +:+
                                           " cannot be added to relationship")])
  end.
Definition peer_kind_check : Exec ManagerState unit :=
  peer_schema ← lift (get_schema (r_peer (rm_schema rm)));
  let allowed_kinds := match n_class peer_schema with GenericSchema p => gp_used_by p | _ => [kind peer_schema] end in
  relationships ← get_relationships db global_branch now rm false false;
  match relationships with
  | [] => mret tt
  | _ =>
      s ← get_state;
      peers ← gets (λ s, nodes_info (queries s) (peer_ids_of (heap s) relationships));
      errors ← lift (foldM (kind_error allowed_kinds) [] peers);
      match errors with
      | [] => mret tt
      | _ => raise (ValidationError (r_name (rm_schema rm) +:+ ": cannot be added to relationship"))
      end
  end.
End constraints.

(** ** Reading the peers of the database *)

(** The details for the rows of the database and the ids of the list. *)
Definition details_of `{SetOrder} (peers : list RelationshipPeerData) (ids : list string) : RelationshipUpdateDetails :=
  let peers_database := dict_of_list ((λ peer, (pe_peer_id peer, peer)) <$> peers) in
  let peer_ids := dict_keys peers_database in
  let both := intersection ids peer_ids in
  mkUpdateDetails peers_database both (set_list (set_diff ids both)) (set_list (set_diff peer_ids both)).

(** A row as the query returns it: an id, and properties of their types. *)
Definition property_ok (p : string * PropertyData) : Prop :=
  (p.1 ∈ _flag_properties ∧ ∃ b, pd_value p.2 = JBool b) ∨
  (p.1 ∈ _node_properties ∧ (pd_value p.2 = JNull ∨ ∃ s, pd_value p.2 = JStr s)).
Definition peer_ok (p : RelationshipPeerData) : Prop := pe_peer_id p ≠ "" ∧ Forall property_ok (pe_properties p).

Section read.
Context `{SetOrder}.
Implicit Types (peers : list RelationshipPeerData) (ids : list string).

Lemma elem_of_set_list {A} `{EqDecision A} (l : list A) x : x ∈ set_list l ↔ x ∈ l.
Proof. by rewrite set_list_perm. Qed.

Lemma elem_of_database peers ids x :
  x ∈ dict_keys (peers_database (details_of peers ids)) ↔ ∃ p, p ∈ peers ∧ pe_peer_id p = x.
Proof.
  cbn. rewrite dict_of_list_keys, <-list_fmap_compose, list_elem_of_fmap. naive_solver.
Qed.
Lemma database_get peers ids x p : dict_get (peers_database (details_of peers ids)) x = Some p → p ∈ peers ∧ pe_peer_id p = x.
Proof.
  cbn. rewrite dict_get_of_list_last. intros (l1 & l2 & Hl & _).
  assert ((x, p) ∈ (λ peer, (pe_peer_id peer, peer)) <$> peers) as (p' & [= -> ->] & Hp)%list_elem_of_fmap; [|done].
  rewrite Hl. set_solver.
Qed.
Lemma database_get_some peers ids x :
  x ∈ dict_keys (peers_database (details_of peers ids)) →
  ∃ p, dict_get (peers_database (details_of peers ids)) x = Some p ∧ p ∈ peers ∧ pe_peer_id p = x.
Proof. intros [p Hp]%dict_get_is_Some. exists p. split; [done|by eapply database_get]. Qed.

Lemma elem_of_both peers ids x :
  x ∈ peer_ids_present_both (details_of peers ids) ↔ x ∈ ids ∧ ∃ p, p ∈ peers ∧ pe_peer_id p = x.
Proof. cbn. unfold intersection. rewrite elem_of_set_list, elem_of_set_inter, <-(elem_of_database peers ids). done. Qed.
Lemma elem_of_local_only peers ids x :
  x ∈ peer_ids_present_local_only (details_of peers ids) ↔ x ∈ ids ∧ ¬ ∃ p, p ∈ peers ∧ pe_peer_id p = x.
Proof.
  cbn -[dict_keys]. rewrite elem_of_set_list, elem_of_set_diff. change (intersection ids _) with (peer_ids_present_both (details_of peers ids)).
  rewrite elem_of_both. tauto.
Qed.
Lemma elem_of_database_only peers ids x :
  x ∈ peer_ids_present_database_only (details_of peers ids) ↔ (∃ p, p ∈ peers ∧ pe_peer_id p = x) ∧ x ∉ ids.
Proof.
  cbn -[dict_keys]. rewrite elem_of_set_list, elem_of_set_diff. change (intersection ids _) with (peer_ids_present_both (details_of peers ids)).
  rewrite elem_of_both, (elem_of_database peers ids). tauto.
Qed.
Lemma NoDup_database_only peers ids : NoDup (peer_ids_present_database_only (details_of peers ids)).
Proof. cbn. rewrite set_list_perm. apply NoDup_set_diff. Qed.
End read.

(** *** An object made from a row *)

Definition is_hashable (v : PyValue) : Prop := ∃ w, hashable_value v = Ok w.
Definition hashable_rel (r : Relationship) : Prop :=
  Forall is_hashable [rel_is_visible r; rel_is_protected r; PVal (rel_source_id r); PVal (rel_owner_id r)].

Lemma mapM_hashable l : (∃ h, mapM hashable_value l = Ok h) ↔ Forall is_hashable l.
Proof.
  induction l as [|v l IH]; [split; [constructor|by exists []]|]. rewrite Forall_cons, <-IH. split.
  - intros (h & Hh). apply bind_ok in Hh as (w & Hv & Hh). apply bind_ok in Hh as (ws & Hl & _). split; [by exists w|by exists ws].
  - intros [[w Hw] [ws Hws]]. exists (w :: ws). cbn. rewrite Hw. cbn. by rewrite Hws.
Qed.
Lemma hashable_of_opt o : is_hashable (of_opt o).
Proof. destruct o; by eexists. Qed.
Lemma rel_hash_ok r : (∃ h, rel_hash r = Ok h) ↔ hashable_rel r.
Proof.
  unfold rel_hash. rewrite mapM_hashable. unfold hashable_rel. rewrite Forall_app.
  split; [by intros [_ ?]|]. intros Hh. split; [|done]. repeat constructor; apply hashable_of_opt.
Qed.

Lemma set_property_ok r name data :
  hashable_rel r → property_ok (name, data) →
  ∃ r', on_properties (set_property name (PVal (pd_value data))) r = (Ok tt, r') ∧ hashable_rel r' ∧ rel_peer_id r' = rel_peer_id r.
Proof.
  intros Hr Hok. unfold hashable_rel in *. rewrite !Forall_cons in Hr. destruct Hr as (Hv & Hp & Hs & Ho & _).
  destruct Hok as [[Hname [b Hb]]|[Hname Hval]]; cbn [fst snd] in *; unfold on_properties, set_property.
  - rewrite bool_decide_eq_true_2 by done. rewrite Hb. eexists. split; [reflexivity|].
    unfold set_flag. case_bool_decide; (split; [|done]); repeat constructor; cbn; try done; by eexists.
  - assert (name ∉ _flag_properties) as Hn by (unfold _flag_properties, _node_properties in *; set_solver).
    rewrite bool_decide_eq_false_2, bool_decide_eq_true_2 by done.
    destruct Hval as [-> |[s ->]]; cbn [_set_node_property]; (eexists; split; [reflexivity|]); unfold set_node;
      case_bool_decide; (split; [|done]); repeat constructor; cbn; try done; by eexists.
Qed.

Lemma set_properties_ok props r :
  hashable_rel r → Forall property_ok props →
  ∃ r', for_each (λ prop : string * PropertyData, on_properties (set_property prop.1 (PVal (pd_value prop.2)))) props r = (Ok tt, r') ∧
        hashable_rel r' ∧ rel_peer_id r' = rel_peer_id r.
Proof.
  intros Hr Hprops. revert r Hr. induction Hprops as [|[name data] props Hok _ IH]; intros r Hr; [by exists r|].
  destruct (set_property_ok r name data Hr Hok) as (r1 & Hrun & Hr1 & Hid). destruct (IH r1 Hr1) as (r2 & Hrun2 & Hr2 & Hid2).
  exists r2. cbn [for_each fst snd]. rewrite (exec_step _ _ _ _ _ Hrun). split_and!; [done|done|congruence].
Qed.

Lemma load_peer_ok at_ p :
  peer_ok p → ∃ r, load None None None (InPeerData p) (new_relationship at_) = (Ok tt, r) ∧ good_rel r (pe_peer_id p).
Proof.
  intros [Hne Hprops]. unfold load. erewrite exec_step by reflexivity. erewrite exec_step by reflexivity.
  set (r0 := (new_relationship at_) <| rel_id := _ |> <| rel_db_id := _ |>).
  set (r1 := r0 <| rel_peer_id := Some (pe_peer_id p) |> <| rel_id := or_str (rel_id r0) (or_str (pe_rel_node_id p) (rel_id r0)) |>
                <| rel_db_id := or_str (rel_db_id r0) (or_str (pe_rel_node_db_id p) (rel_db_id r0)) |>).
  destruct (set_properties_ok (pe_properties p) r1) as (r & Hrun & Hr & Hid); [by repeat (constructor; [by eexists|])|done|].
  exists r. split.
  - assert (_process_data (InPeerData p) r0 = (Ok tt, r)) as Hp; [|by rewrite (exec_step _ _ _ _ _ Hp)].
    unfold _process_data. erewrite exec_step by reflexivity. erewrite exec_step by reflexivity. exact Hrun.
  - split_and!; [by rewrite Hid|done|by apply rel_hash_ok].
Qed.

(** *** Fetching *)

Lemma exec_unit {S} (m : Exec S unit) s : (m ≫= λ _, mret tt) s = m s.
Proof. unfold mbind, exec_bind. by destruct (m s) as [[[]|] ?]. Qed.

Section fetching.
Context `{SetOrder} (db : Database) (global_branch : Branch) (now : Z) (rm : Manager).
Implicit Types (h : list Relationship) (rels : list nat) (ids : list string).

Lemma current_peer_ids_spec h name mn mx rels details fetched q ids :
  peers_are h rels ids →
  current_peer_ids (state h name mn mx rels details fetched q) = (Ok ids, state h name mn mx rels details fetched q).
Proof.
  intros Hp. unfold current_peer_ids. cbn [heap state _relationships vl_of vl_relationships]. f_equal.
  assert (∃ objs, mapM (λ ref, require (RuntimeError "no such object") (h !! ref)) rels = Ok objs ∧ mapM get_peer_id objs = Ok ids) as (objs & -> & <-); [|done].
  induction Hp as [|ref id rels ids (rel & Hrel & Hid & Hne & _) _ (objs & Hobjs & Hids)]; [by exists []|].
  exists (rel :: objs). cbn. rewrite Hrel. cbn. rewrite Hobjs. split; [done|]. cbn.
  assert (get_peer_id rel = Ok id) as ->; [unfold get_peer_id; rewrite Hid; by destruct id|]. cbn. by rewrite Hids.
Qed.

Definition fetched_details (q : list DbQuery) (at_ : option Z) (branch_agnostic : bool) (ids : list string) : RelationshipUpdateDetails :=
  details_of (get_peers db q (default (rm_at rm) at_) branch_agnostic) ids.

Lemma fetch_details_spec h name mn mx rels details fetched q ids at_ branch_agnostic :
  peers_are h rels ids →
  fetch_details db rm at_ branch_agnostic (state h name mn mx rels details fetched q) =
    (Ok (fetched_details q at_ branch_agnostic ids),
     state h name mn mx rels (Some (fetched_details q at_ branch_agnostic ids)) fetched q).
Proof.
  intros Hp. unfold fetch_details. rewrite (exec_step _ _ _ _ _ (current_peer_ids_spec _ name mn mx _ details fetched q _ Hp)).
  by do 2 erewrite exec_step by reflexivity.
Qed.

Lemma fetch_ids_spec h name mn mx rels details fetched q ids at_ branch_agnostic force_refresh :
  peers_are h rels ids → details = None ∨ force_refresh = true →
  fetch_relationship_ids db rm at_ branch_agnostic force_refresh (state h name mn mx rels details fetched q) =
    (Ok (fetched_details q at_ branch_agnostic ids),
     state h name mn mx rels (Some (fetched_details q at_ branch_agnostic ids)) fetched q).
Proof.
  intros Hp Hd. unfold fetch_relationship_ids. erewrite exec_step by reflexivity. cbn [_relationship_id_details state].
  destruct Hd as [-> | ->]; [|destruct details]; by apply fetch_details_spec.
Qed.
(** Without [force_refresh], the details of the last call are used. *)
Lemma fetch_ids_cached h name mn mx rels details fetched q at_ branch_agnostic :
  fetch_relationship_ids db rm at_ branch_agnostic false (state h name mn mx rels (Some details) fetched q) =
    (Ok details, state h name mn mx rels (Some details) fetched q).
Proof. done. Qed.

Lemma append_loaded_spec h name mn mx rels details fetched q ids peers known at_ id :
  Forall peer_ok peers → id ∈ dict_keys (peers_database (details_of peers known)) → peers_are h rels ids → id ∉ ids →
  appended (λ _ _, True) h name mn mx rels details fetched q ids id tt
    (append_loaded rm at_ (details_of peers known) id (state h name mn mx rels details fetched q)).
Proof.
  intros Hok Hin Hp Hid. destruct (database_get_some _ _ _ Hin) as (p & Hget & Hpin & Hpid).
  rewrite Forall_forall in Hok. destruct (load_peer_ok (default (rm_at rm) at_) p (Hok p Hpin)) as (rel & Hload & Hgood).
  rewrite Hpid in Hgood. set (r0 := new_relationship (default (rm_at rm) at_)) in *.
  assert (extends h (h ++ [rel])) as He by apply extends_app.
  assert ((h ++ [rel]) !! length h = Some rel) as Hrel by (by rewrite list_lookup_middle).
  pose proof (append_ref_spec (λ _ _, True) (h ++ [rel]) name mn mx rels details fetched q ids id (length h) rel tt
    (peers_are_extends _ _ _ _ He Hp) Hid Hrel Hgood I) as Happ.
  rewrite exec_unit in Happ.
  assert (append_loaded rm at_ (details_of peers known) id (state h name mn mx rels details fetched q) =
          on_list (λ l, vl_append l (Some (length h))) (state (h ++ [rel]) name mn mx rels details fetched q)) as ->.
  { unfold append_loaded. rewrite (exec_step _ _ _ _ _ (new_object_state _ _ _ _ _ _ _ _ _)).
    erewrite exec_step by (unfold lift; rewrite Hget; reflexivity).
    erewrite exec_step; [reflexivity|].
    rewrite (on_rel_state _ _ _ _ _ _ _ _ _ _ r0), Hload by (by rewrite list_lookup_middle). cbn [fst snd].
    by rewrite insert_app_r_alt, Nat.sub_diag by done. }
  unfold appended in *. destruct (too_many mx (length ids + 1)); [done|].
  destruct Happ as (h' & ref & ? & ? & ? & ?). exists h', ref. split_and!; [done|by etrans|done|done].
Qed.

Lemma for_each_loaded h name mn mx rels details fetched q ids peers known at_ new :
  Forall peer_ok peers → (∀ id, id ∈ new → id ∈ dict_keys (peers_database (details_of peers known))) →
  peers_are h rels ids → NoDup (ids ++ new) → too_many mx (length (ids ++ new)) = false →
  ∃ h' rels', for_each (append_loaded rm at_ (details_of peers known)) new (state h name mn mx rels details fetched q) =
    (Ok tt, state h' name mn mx rels' details fetched q) ∧ extends h h' ∧ peers_are h' rels' (ids ++ new).
Proof.
  intros Hok. revert h rels ids. induction new as [|id new IH]; intros h rels ids Hin Hp Hnd Hmany.
  { exists h, rels. by rewrite app_nil_r. }
  assert (id ∉ ids) as Hid by (apply NoDup_app in Hnd as (_ & Hd & _); intros Hin'; apply (Hd id Hin'); left).
  pose proof (append_loaded_spec h name mn mx rels details fetched q ids peers known at_ id Hok (Hin id ltac:(left)) Hp Hid) as Happ.
  unfold appended in Happ. destruct (too_many mx (length ids + 1)) eqn:Hm.
  { apply (too_many_mono _ _ (length (ids ++ id :: new))) in Hm; [congruence|]. rewrite length_app. cbn. lia. }
  destruct Happ as (h1 & ref & Hrun & He & Hp1 & _).
  destruct (IH h1 (rels ++ [ref]) (ids ++ [id])) as (h2 & rels2 & Hrun2 & He2 & Hp2);
    [by intros x Hx; apply Hin; right|done|by rewrite <-app_assoc|by rewrite <-app_assoc|].
  exists h2, rels2. cbn [for_each]. rewrite (exec_step _ _ _ _ _ Hrun), Hrun2. rewrite <-app_assoc in Hp2.
  split_and!; [done|by etrans|done].
Qed.

(** The first access to the relationships reads those of the database. *)
Lemma fetch_fresh h name mn mx q branch_agnostic :
  let peers := get_peers db q (rm_at rm) branch_agnostic in
  let d := details_of peers [] in
  Forall peer_ok peers → too_many mx (length (peer_ids_present_database_only d)) = false →
  ∃ h' rels', get_relationships db global_branch now rm branch_agnostic false (state h name mn mx [] None false q) =
    (Ok rels', state h' name mn mx rels' (Some d) true q) ∧ extends h h' ∧
    peers_are h' rels' (peer_ids_present_database_only d).
Proof.
  intros peers d Hok Hmany.
  destruct (for_each_loaded h name mn mx [] (Some d) false q [] peers [] None (peer_ids_present_database_only d))
    as (h' & rels' & Hrun & He & Hp); [done| |by constructor|by apply NoDup_database_only|done|].
  { intros id Hid. apply elem_of_database_only in Hid as [? _]. by apply elem_of_database. }
  exists h', rels'. split; [|done].
  assert (peer_ids_present_local_only d = []) as Hlocal.
  { apply elem_of_nil_inv. intros x Hx. by apply elem_of_local_only in Hx as [[]%elem_of_nil _]. }
  assert (_fetch_relationships db global_branch now rm None branch_agnostic false (state h name mn mx [] None false q) =
          (Ok tt, state h' name mn mx rels' (Some d) true q)) as Hfetch.
  { unfold _fetch_relationships.
    rewrite (exec_step _ _ _ _ _ (fetch_ids_spec h name mn mx [] None false q [] None branch_agnostic false (Forall2_nil_2 _ _ _) (or_introl eq_refl))).
    change (fetched_details q None branch_agnostic []) with d. rewrite (exec_step _ _ _ _ _ Hrun).
    erewrite exec_step by reflexivity. by rewrite Hlocal. }
  unfold get_relationships. erewrite exec_step by reflexivity. cbn [has_fetched_relationships state negb orb].
  by rewrite (exec_step _ _ _ _ _ Hfetch).
Qed.
End fetching.

(** ** [update] *)

Section update.
Context `{SetOrder} (db : Database) (global_branch : Branch) (now : Z) (rm : Manager).

Lemma update_after_fetch data s rels s1 :
  get_relationships db global_branch now rm false false s = (Ok rels, s1) → has_fetched_relationships s1 = true →
  vl_relationships (_relationships s1) = rels →
  rm_update db global_branch now rm data s = rm_update db global_branch now rm data s1.
Proof.
  intros Hget Hf Hrels. unfold rm_update. rewrite (exec_step _ _ _ _ _ Hget).
  rewrite (exec_step _ _ _ _ _ (get_relationships_fetched db global_branch now rm false s1 Hf)). by rewrite Hrels.
Qed.

(** C36: [update] with a list of distinct ids (texts, or dictionaries with nothing but an
    id) that are not empty, from relationships with distinct peers, the maximum not being
    negative: there is an error exactly when the ids exceed the maximum; otherwise the
    relationships of the manager are afterwards exactly those ids, in this order: a peer
    that was there keeps its object, the same and unchanged (its id, its database id, its
    properties), a peer that was not gets a relationship made by this call, at the time of
    the manager.  What it returns is whether an id is new or no previous peer is missing,
    and only then is a list under the minimum refused. *)
Theorem update_spec s h name mn mx rels0 details q prev ids data :
  get_relationships db global_branch now rm false false s = (Ok rels0, state h name mn mx rels0 details true q) →
  peers_are h rels0 prev → NoDup prev → Forall2 id_item ids (as_items data) → NoDup ids → Forall (.≠ "") ids → 0 ≤ mx →
  let '(r, s') := rm_update db global_branch now rm data s in
  if too_many mx (length ids) then r = Err (ValidationError (name +:+ ": Too many relationships")) ∧ queries s' = q
  else ∃ h' rels', extends h h' ∧ peers_are h' rels' ids ∧ Forall2 (kept_or_new rm h rels0 prev h') rels' ids ∧
    s' = state h' name mn mx rels' details true q ∧
    r = if update_changes prev ids && too_few mn (length ids)
        then Err (ValidationError (name +:+ ": Too few relationships")) else Ok (update_changes prev ids).
Proof.
  intros Hget Hp Hndp Hitems Hnd Hne Hmx. rewrite (update_after_fetch _ _ _ _ Hget eq_refl eq_refl). by apply update_fetched_spec.
Qed.
End update.

(** ** The constraint on the counts *)

Lemma get_count_per_peer_get results node_ids x :
  x ∈ node_ids → dict_get (get_count_per_peer results node_ids) x = Some (default 0 (dict_get (dict_of_list results) x)).
Proof.
  unfold get_count_per_peer. generalize (dict_of_list results) as d. intros d Hx.
  assert (∀ l d, dict_get (foldl (λ data node_id, dict_setdefault data node_id 0) d l) x =
    if decide (x ∈ l) then Some (default 0 (dict_get d x)) else dict_get d x) as Hall; [|by rewrite Hall, decide_True].
  clear. induction l as [|y l IH]; intros d; cbn; [by rewrite decide_False by (by intros ?%elem_of_nil)|].
  rewrite IH, dict_get_setdefault. destruct (decide (x = y)) as [->|Hxy].
  - rewrite (decide_True (P := y ∈ y :: l)) by left. by destruct (decide (y ∈ l)).
  - rewrite (decide_ext (x ∈ y :: l) (x ∈ l)); [done|]. rewrite elem_of_cons. tauto.
Qed.

Lemma check_node_ok counts node count :
  dict_get counts (ntv_uuid node) = Some count →
  check_node counts node = Ok tt ↔
    (∀ mx, ntv_max_count node = Some mx → mx ≠ 0 → count + 1 ≤ mx) ∧
    (∀ mn, ntv_min_count node = Some mn → mn ≠ 0 → mn ≤ count - 1).
Proof.
  intros Hget. unfold check_node. rewrite Hget. cbn [require]. unfold mbind at 1, result_bind at 1.
  rewrite then_ok, !raise_if_ok, !andb_false_iff, !Z.ltb_ge.
  assert (∀ o (P : Z → Prop), (given o = false ∨ P (default 0 o)) ↔ ∀ m, o = Some m → m ≠ 0 → P m) as Hgiven.
  { intros [m|] P; cbn; [|naive_solver]. rewrite negb_false_iff, Z.eqb_eq. destruct (decide (m = 0)); naive_solver. }
  by rewrite (Hgiven (ntv_max_count node) (λ m, count + 1 ≤ m)), (Hgiven (ntv_min_count node) (λ m, m ≤ count - 1)).
Qed.

(** The relationship of the peer can be the other side of the one of the manager. *)
Definition compatible (schema peer_rel : RelationshipSchema) : Prop :=
  ¬ (r_direction schema = r_direction peer_rel ∧ r_direction peer_rel ≠ RelationshipDirection.BIDIR).

Lemma elem_of_nodes schema details peer_rel node :
  node ∈ nodes_of_peer_rel schema details peer_rel ↔
  compatible schema peer_rel ∧
  ((r_max_count peer_rel ≠ 0 ∧ ∃ x, x ∈ peer_ids_present_local_only details ∧
      node = mkNodeToValidate x (r_cardinality peer_rel) None (Some (r_max_count peer_rel))) ∨
   (r_min_count peer_rel ≠ 0 ∧ ∃ x, x ∈ peer_ids_present_database_only details ∧
      node = mkNodeToValidate x (r_cardinality peer_rel) (Some (r_min_count peer_rel)) None)).
Proof.
  unfold nodes_of_peer_rel, compatible. case_bool_decide as Hdir; [split; [by intros ?%elem_of_nil|tauto]|].
  rewrite elem_of_concat. setoid_rewrite list_elem_of_fmap. split.
  - intros (l & (x & -> & Hx) & [Hin|Hin]%elem_of_app); (split; [done|]).
    + left. destruct (Z.eqb_spec (r_max_count peer_rel) 0); cbn in Hin; [by apply elem_of_nil in Hin|].
      case_bool_decide; [|by apply elem_of_nil in Hin]. apply list_elem_of_singleton in Hin. eauto.
    + right. destruct (Z.eqb_spec (r_min_count peer_rel) 0); cbn in Hin; [by apply elem_of_nil in Hin|].
      case_bool_decide; [|by apply elem_of_nil in Hin]. apply list_elem_of_singleton in Hin. eauto.
  - intros [_ [(Hm & x & Hx & ->)|(Hm & x & Hx & ->)]]; (eexists; split; [exists x; split; [reflexivity|set_solver]|]).
    + apply elem_of_app. left. rewrite (proj2 (Z.eqb_neq _ _) Hm), bool_decide_eq_true_2 by done. by left.
    + apply elem_of_app. right. rewrite (proj2 (Z.eqb_neq _ _) Hm), bool_decide_eq_true_2 by done. by left.
Qed.

Section counts.
Context `{SetOrder} (db : Database) (global_branch : Branch) (now : Z) (rm : Manager).
Context (get_schema : string → result MainSchema).
Context (count_rows : list DbQuery → list string → option string → RelationshipDirection → list (string * Z)).

(** The number of peers of a node, for the rows that the query returns with these details. *)
Definition counted (q : list DbQuery) (details : RelationshipUpdateDetails) (peer_rels : list RelationshipSchema) (x : string) : Z :=
  let node_ids := ntv_uuid <$> concat (nodes_of_peer_rel (rm_schema rm) details <$> peer_rels) in
  default 0 (dict_get (dict_of_list (count_rows q node_ids (r_identifier (rm_schema rm))
                                       (neighbor_direction (r_direction (rm_schema rm))))) x).

(** Every new peer has room for one more, every peer that leaves can lose one. *)
Definition counts_allowed (q : list DbQuery) (details : RelationshipUpdateDetails) (peer_rels : list RelationshipSchema) : Prop :=
  ∀ peer_rel, peer_rel ∈ peer_rels → compatible (rm_schema rm) peer_rel →
    (r_max_count peer_rel ≠ 0 → ∀ x, x ∈ peer_ids_present_local_only details →
       counted q details peer_rels x + 1 ≤ r_max_count peer_rel) ∧
    (r_min_count peer_rel ≠ 0 → ∀ x, x ∈ peer_ids_present_database_only details →
       r_min_count peer_rel ≤ counted q details peer_rels x - 1).

Lemma for_all_counts q details peer_rels :
  let nodes := concat (nodes_of_peer_rel (rm_schema rm) details <$> peer_rels) in
  let results := count_rows q (ntv_uuid <$> nodes) (r_identifier (rm_schema rm)) (neighbor_direction (r_direction (rm_schema rm))) in
  for_all (check_node (get_count_per_peer results (ntv_uuid <$> nodes))) nodes = Ok tt ↔ counts_allowed q details peer_rels.
Proof.
  intros nodes results. rewrite for_all_ok.
  assert (∀ node, node ∈ nodes → dict_get (get_count_per_peer results (ntv_uuid <$> nodes)) (ntv_uuid node) =
            Some (counted q details peer_rels (ntv_uuid node))) as Hcount.
  { intros node Hn. rewrite get_count_per_peer_get by (by apply list_elem_of_fmap_2). done. }
  assert (∀ node, node ∈ nodes ↔ ∃ peer_rel, peer_rel ∈ peer_rels ∧ node ∈ nodes_of_peer_rel (rm_schema rm) details peer_rel) as Hin.
  { intros node. unfold nodes. rewrite elem_of_concat. setoid_rewrite list_elem_of_fmap. naive_solver. }
  split.
  - intros Hall peer_rel Hrel Hcomp. split; intros Hm x Hx.
    + set (node := mkNodeToValidate x (r_cardinality peer_rel) None (Some (r_max_count peer_rel))).
      assert (node ∈ nodes) as Hn by (apply Hin; exists peer_rel; split; [done|]; apply elem_of_nodes; eauto 10).
      specialize (Hall _ Hn). rewrite (check_node_ok _ _ _ (Hcount _ Hn)) in Hall. by apply (proj1 Hall).
    + set (node := mkNodeToValidate x (r_cardinality peer_rel) (Some (r_min_count peer_rel)) None).
      assert (node ∈ nodes) as Hn by (apply Hin; exists peer_rel; split; [done|]; apply elem_of_nodes; eauto 10).
      specialize (Hall _ Hn). rewrite (check_node_ok _ _ _ (Hcount _ Hn)) in Hall. by apply (proj2 Hall).
  - intros Hall node Hn. rewrite (check_node_ok _ _ _ (Hcount _ Hn)). apply Hin in Hn as (peer_rel & Hrel & Hn).
    apply elem_of_nodes in Hn as (Hcomp & Hcase). destruct (Hall peer_rel Hrel Hcomp) as [Hmax Hmin].
    destruct Hcase as [(Hm & x & Hx & ->)|(Hm & x & Hx & ->)]; cbn.
    + split; [intros ? [= <-] _; by apply Hmax|done].
    + split; [done|intros ? [= <-] _; by apply Hmin].
Qed.

Lemma count_check_run s s1 s' details peer_schema identifier :
  rm_resolve db rm s = (Ok tt, s1) → get_schema (r_peer (rm_schema rm)) = Ok peer_schema →
  get_identifier (rm_schema rm) = Ok identifier → fetch_relationship_ids db rm None false false s1 = (Ok details, s') →
  (count_check db rm get_schema count_rows s).1 = Ok tt ↔
    counts_allowed (queries s') details (get_relationships_by_identifier peer_schema identifier).
Proof.
  intros Hres Hschema Hid Hfetch. unfold count_check. rewrite (exec_step _ _ _ _ _ Hres).
  rewrite Hschema. erewrite exec_step by reflexivity. rewrite Hid. erewrite exec_step by reflexivity.
  destruct (get_relationships_by_identifier peer_schema identifier) as [|peer_rel peer_rels] eqn:Hrels.
  { split; [|done]. intros _ ? []%elem_of_nil. }
  rewrite (exec_step _ _ _ _ _ Hfetch). erewrite exec_step by reflexivity.
  unfold lift. cbn [fst]. apply for_all_counts.
Qed.

(** The constraint on the counts, with the details that the manager holds (those of the
    last call that read the database, if there was one): the relationships are accepted
    exactly when, for every relationship of the schema of the peer with the same identifier
    and a compatible direction, every peer present only locally stays under its maximum
    with one relationship more, and every peer present only in the database stays over its
    minimum with one less. *)
Theorem count_check_spec s s1 s' details peer_schema identifier :
  rm_resolve db rm s = (Ok tt, s1) → get_schema (r_peer (rm_schema rm)) = Ok peer_schema →
  get_identifier (rm_schema rm) = Ok identifier → fetch_relationship_ids db rm None false false s1 = (Ok details, s') →
  (count_check db rm get_schema count_rows s).1 = Ok tt ↔
    ∀ peer_rel, peer_rel ∈ get_relationships_by_identifier peer_schema identifier → compatible (rm_schema rm) peer_rel →
      let count := counted (queries s') details (get_relationships_by_identifier peer_schema identifier) in
      (r_max_count peer_rel ≠ 0 → ∀ x, x ∈ peer_ids_present_local_only details → count x + 1 ≤ r_max_count peer_rel) ∧
      (r_min_count peer_rel ≠ 0 → ∀ x, x ∈ peer_ids_present_database_only details → r_min_count peer_rel ≤ count x - 1).
Proof. apply count_check_run. Qed.
End counts.

(** ** The constraint after an update *)

Section resolved.
Context `{SetOrder} (db : Database) (global_branch : Branch) (now : Z) (rm : Manager).

Lemma rel_resolve_done ref s rel id :
  heap s !! ref = Some rel → good_rel rel id → is_valid_uuid id = true → rel_resolve db rm ref s = (Ok tt, s).
Proof.
  intros Hrel (Hid & Hne & _) Huuid.
  assert (rel_at_ref ref s = (Ok rel, s)) as Hat by (unfold rel_at_ref; by rewrite Hrel).
  unfold rel_resolve. rewrite (exec_step _ _ _ _ _ Hat). case_bool_decide; [done|]. rewrite Hid.
  destruct id as [|c id]; [done|]. rewrite Huuid. erewrite exec_step by reflexivity.
  rewrite (exec_step _ _ _ _ _ Hat). rewrite Hid. cbn [truthy_str negb andb]. erewrite exec_step by reflexivity.
  rewrite (exec_step _ _ _ _ _ Hat). by rewrite Hid.
Qed.

(** Peers given by their ids need no lookup. *)
Lemma rm_resolve_done h name mn mx rels details fetched q ids :
  peers_are h rels ids → Forall (λ id, is_valid_uuid id = true) ids →
  rm_resolve db rm (state h name mn mx rels details fetched q) = (Ok tt, state h name mn mx rels details fetched q).
Proof.
  intros Hp Hids. unfold rm_resolve. erewrite exec_step by reflexivity. cbn [_relationships state vl_of vl_relationships].
  set (s := state h name mn mx rels details fetched q). assert (heap s = h) as Hh by done.
  generalize dependent s. intros s Hh. induction Hp as [|ref id rels ids (rel & Hrel & Hgood) _ IH]; [done|].
  apply Forall_cons in Hids as [Hid Hids]. cbn [for_each].
  rewrite (exec_step _ _ _ _ _ (rel_resolve_done ref s rel id ltac:(by rewrite Hh) Hgood Hid)). by apply IH.
Qed.
End resolved.

Section stale.
Context `{SetOrder} (db : Database) (global_branch : Branch) (now : Z) (rm : Manager).
Context (get_schema : string → result MainSchema).
Context (count_rows : list DbQuery → list string → option string → RelationshipDirection → list (string * Z)).

(** The relationships of a node are read by [update], and the constraint then uses what
    was read: whatever the ids given, it accepts exactly when every peer that was in the
    database could be removed; the maximum of the new ones is not looked at. *)
Theorem update_checks_stale_details h name mn mx q ids data peer_schema identifier changed :
  let peers := get_peers db q (rm_at rm) false in
  let d := details_of peers [] in
  let s := state h name mn mx [] None false q in
  let s' := (rm_update db global_branch now rm data s).2 in
  Forall peer_ok peers → too_many mx (length (peer_ids_present_database_only d)) = false → 0 ≤ mx →
  Forall2 id_item ids (as_items data) → NoDup ids → Forall (.≠ "") ids → Forall (λ id, is_valid_uuid id = true) ids →
  (rm_update db global_branch now rm data s).1 = Ok changed →
  get_schema (r_peer (rm_schema rm)) = Ok peer_schema → get_identifier (rm_schema rm) = Ok identifier →
  (count_check db rm get_schema count_rows s').1 = Ok tt ↔
    ∀ peer_rel, peer_rel ∈ get_relationships_by_identifier peer_schema identifier → compatible (rm_schema rm) peer_rel →
      r_min_count peer_rel ≠ 0 → ∀ p, p ∈ peers →
        r_min_count peer_rel ≤ counted rm count_rows q d (get_relationships_by_identifier peer_schema identifier) (pe_peer_id p) - 1.
Proof.
  intros peers d s s' Hok Hmany Hmx Hitems Hnd Hne Huuid Hrun Hschema Hid.
  destruct (fetch_fresh db global_branch now rm h name mn mx q false Hok Hmany) as (h1 & rels1 & Hget & He & Hp).
  fold peers in Hget, Hp. fold d in Hget, Hp.
  assert (NoDup (peer_ids_present_database_only d)) as Hndp by apply NoDup_database_only.
  pose proof (update_fetched_spec db global_branch now rm h1 name mn mx rels1 (Some d) q _ ids data Hp Hndp Hitems Hnd Hne Hmx) as Hspec.
  rewrite <-(update_after_fetch db global_branch now rm data s _ _ Hget) in Hspec by done. subst s'.
  destruct (rm_update db global_branch now rm data s) as [r s']. cbn [fst snd] in *. subst r.
  destruct (too_many mx (length ids)); [by destruct Hspec|]. destruct Hspec as (h' & rels' & _ & Hp' & _ & -> & _).
  rewrite (count_check_run db rm get_schema count_rows _ _ _ d peer_schema identifier
    (rm_resolve_done db rm _ _ _ _ _ _ _ _ _ Hp' Huuid) Hschema Hid (fetch_ids_cached db rm _ _ _ _ _ _ _ _ _ _)).
  unfold counts_allowed. cbn [queries state].
  assert (∀ x, x ∉ peer_ids_present_local_only d) as Hlocal.
  { intros x Hx. by apply elem_of_local_only in Hx as [[]%elem_of_nil _]. }
  split; intros Hall peer_rel Hrel Hcomp.
  - intros Hm p Hpin. apply (Hall peer_rel Hrel Hcomp); [done|]. apply elem_of_database_only.
    split; [by exists p|by intros ?%elem_of_nil].
  - split; [intros _ x Hx; by destruct (Hlocal x)|]. intros Hm x Hx.
    apply elem_of_database_only in Hx as [(p & Hpin & <-) _]. by apply (Hall peer_rel Hrel Hcomp).
Qed.
End stale.

(** ** [save] *)

(** What a sequence of queries does: the peers whose relationship is deleted, the
    relationships that are created (the peer, the two flags, and the other properties), and
    those whose properties are updated. *)
Definition Creation : Type := option string * PyValue * PyValue * list (string * json).
Definition PropertyUpdate : Type := option string * list (string * PyValue).
Definition deleted_peers (q : list DbQuery) : list string :=
  omap (λ query, match query with RelationshipDataDeleteQuery _ data _ _ _ _ => Some (pe_peer_id data) | _ => None end) q.
Definition creations (q : list DbQuery) : list Creation :=
  omap (λ query, match query with
                 | RelationshipCreateQuery _ destination_id _ _ _ _ _ is_protected is_visible props =>
                     Some (destination_id, is_protected, is_visible, props)
                 | _ => None
                 end) q.
Definition property_updates (q : list DbQuery) : list PropertyUpdate :=
  omap (λ query, match query with RelationshipUpdatePropertyQuery rel_node_id _ _ _ props => Some (rel_node_id, props) | _ => None end) q.
Definition query_at (query : DbQuery) : option Z :=
  match query with
  | RelationshipCreateQuery _ _ _ _ _ _ at_ _ _ _ | UpdateRelationshipsTo _ at_ | RelationshipUpdatePropertyQuery _ _ _ at_ _
  | RelationshipDeleteQuery _ _ _ _ _ at_ | RelationshipDataDeleteQuery _ _ _ _ _ at_ => Some at_
  | GetResource _ _ => None
  end.

Record effects (at_ : Z) (q : list DbQuery) (deleted : list string) (created : list Creation) (updated : list PropertyUpdate) : Prop := {
  eff_deleted : deleted_peers q = deleted;
  eff_created : creations q = created;
  eff_updated : property_updates q = updated;
  eff_at : Forall (λ query, query_at query = Some at_) q;
}.

Lemma effects_nil at_ : effects at_ [] [] [] [].
Proof. done. Qed.
Lemma effects_app at_ q1 q2 d1 d2 c1 c2 u1 u2 :
  effects at_ q1 d1 c1 u1 → effects at_ q2 d2 c2 u2 → effects at_ (q1 ++ q2) (d1 ++ d2) (c1 ++ c2) (u1 ++ u2).
Proof.
  intros [<- <- <- H1] [<- <- <- H2]. split; [apply omap_app..|by apply Forall_app].
Qed.
Lemma effects_close at_ ids : effects at_ (match ids with [] => [] | _ => [UpdateRelationshipsTo ids at_] end) [] [] [].
Proof. destruct ids; [apply effects_nil|]. split; try done. by repeat constructor. Qed.

(** What must be written.  The row of a peer in the database is the last one. *)
Definition row_of (peers : list RelationshipPeerData) (id : string) : option RelationshipPeerData :=
  last (filter (λ p, pe_peer_id p = id) peers).
Definition own_properties (rel : Relationship) : list (string * PyValue) :=
  [("is_visible", rel_is_visible rel); ("is_protected", rel_is_protected rel);
   ("source", PVal (rel_source_id rel)); ("owner", PVal (rel_owner_id rel))].
(** The properties that the row has with another value *)
Definition changed_properties (rel : Relationship) (p : RelationshipPeerData) : list (string * PyValue) :=
  filter (λ nv, Exists (λ prop, prop.1 = nv.1 ∧ value_eq (PVal (pd_value prop.2)) nv.2 = false) (pe_properties p)) (own_properties rel).
Definition update_of (peers : list RelationshipPeerData) (rel : Relationship) (id : string) : list PropertyUpdate :=
  match row_of peers id with
  | Some p => match changed_properties rel p with [] => [] | l => [(pe_rel_node_id p, l)] end
  | None => []
  end.
Definition creation_of (peers : list RelationshipPeerData) (rel : Relationship) (id : string) : list Creation :=
  match row_of peers id with
  | None => [(Some id, rel_is_protected rel, rel_is_visible rel,
              (if truthy_json (rel_source_id rel) then [("source", rel_source_id rel)] else []) ++
              (if truthy_json (rel_owner_id rel) then [("owner", rel_owner_id rel)] else []))]
  | Some _ => []
  end.

Lemma row_of_database `{SetOrder} peers ids id : dict_get (peers_database (details_of peers ids)) id = row_of peers id.
Proof.
  cbn. unfold row_of. induction peers as [|p peers IH] using rev_ind; [done|].
  rewrite fmap_app, filter_app, filter_cons. cbn [fmap list_fmap]. unfold dict_of_list. rewrite foldl_app. cbn [foldl]. rewrite dict_get_set. cbn.
  unfold dict_of_list in IH.  repeat case_decide; subst; try done; [by rewrite last_snoc|by rewrite app_nil_r].
Qed.
Lemma row_of_None peers id : row_of peers id = None ↔ id ∉ pe_peer_id <$> peers.
Proof.
  unfold row_of. rewrite last_None, list_elem_of_fmap. split.
  - intros Hnil (p & -> & Hp). apply (not_elem_of_nil p). rewrite <-Hnil. by apply list_elem_of_filter.
  - intros Hno. destruct (filter _ peers) as [|p l] eqn:Hf; [done|]. destruct Hno.
    assert (p ∈ filter (λ p, pe_peer_id p = id) peers) as [<- Hp]%list_elem_of_filter by (rewrite Hf; left). by exists p.
Qed.
Lemma in_compared rel p name : name ∈ _flag_properties ++ _node_properties → name ∈ compare_properties_with_data rel p ↔
  Exists (λ prop, prop.1 = name ∧ value_eq (PVal (pd_value prop.2)) (getattr_property rel name) = false) (pe_properties p).
Proof.
  intros Hname. unfold compare_properties_with_data. rewrite list_elem_of_fmap, Exists_exists. split.
  - intros (prop & -> & [[_ Hv] Hin]%list_elem_of_filter). by exists prop.
  - intros (prop & Hin & <- & Hv). exists prop. split; [done|]. by apply list_elem_of_filter.
Qed.
(** The properties that the code compares and writes *)
Lemma compared_changed rel p :
  (λ name, (name, getattr_property rel name)) <$> filter (.∈ compare_properties_with_data rel p) (_flag_properties ++ _node_properties) =
  changed_properties rel p.
Proof.
  unfold changed_properties. change (own_properties rel) with ((λ name, (name, getattr_property rel name)) <$> _flag_properties ++ _node_properties).
  assert (∀ l : list string, (∀ name, name ∈ l → name ∈ _flag_properties ++ _node_properties) →
    (λ name, (name, getattr_property rel name)) <$> filter (.∈ compare_properties_with_data rel p) l =
    filter (λ nv, Exists (λ prop, prop.1 = nv.1 ∧ value_eq (PVal (pd_value prop.2)) nv.2 = false) (pe_properties p))
      ((λ name, (name, getattr_property rel name)) <$> l)) as Hl; [|by apply Hl].
  induction l as [|name l IH]; intros Hin; [done|]. rewrite fmap_cons, !filter_cons. specialize (IH ltac:(intros; apply Hin; by right)).
  pose proof (in_compared rel p name ltac:(apply Hin; left)). destruct (decide (name ∈ _)).
  - rewrite decide_True by naive_solver. by rewrite fmap_cons, IH.
  - rewrite decide_False by naive_solver. done.
Qed.
Lemma compared_nil rel p : compare_properties_with_data rel p = [] ↔ changed_properties rel p = [].
Proof.
  rewrite <-compared_changed. split; [by intros ->|]. intros Hnil%fmap_nil_inv.
  destruct (compare_properties_with_data rel p) as [|name l] eqn:Hc; [done|]. exfalso. apply (not_elem_of_nil name). rewrite <-Hnil.
  assert (name ∈ compare_properties_with_data rel p) as Hin by (rewrite Hc; left). apply list_elem_of_filter. split; [left|].
  unfold compare_properties_with_data in Hin. by apply list_elem_of_fmap in Hin as (prop & -> & [[? _] _]%list_elem_of_filter).
Qed.

(** A node of the database. *)
Definition saved_node (kind id : string) : PeerNode := mkPeerNode (Some id) kind true.

Section save.
Context `{SetOrder} (db : Database) (global_branch : Branch) (now : Z) (rm : Manager).
Context (name : string) (mn mx : Z) (rels : list nat) (fetched : bool) (peer_kind : string).
#[local] Abbreviation st h d q := (state h name mn mx rels (Some d) fetched q).

Lemma update_relationships_to_run ids at_ h d q :
  update_relationships_to ids at_ (st h d q) =
    (Ok tt, st h d (q ++ match ids with [] => [] | _ => [UpdateRelationshipsTo ids at_] end)).
Proof. destruct ids; cbn; by rewrite ?app_nil_r. Qed.
Lemma execute_run query h d q : execute query (st h d q) = (Ok tt, st h d (q ++ [query])).
Proof. done. Qed.

Lemma remove_in_db_run h d q p at_ :
  ∃ q', remove_in_db global_branch rm p at_ (st h d q) = (Ok tt, st h d (q ++ q')) ∧ effects at_ q' [pe_peer_id p] [] [].
Proof.
  unfold remove_in_db. set (branch := get_branch_based_on_support_type global_branch rm).
  set (ids := default [] (dict_get (rel_ids_per_branch p) (b_name (rm_branch rm)))).
  assert (∀ q, effects at_ [RelationshipDataDeleteQuery q p (r_identifier (rm_schema rm)) (b_name branch) (b_hierarchy_level branch) at_]
            [pe_peer_id p] [] []) as Hdel by (split; by repeat constructor).
  destruct (dict_mem _ _).
  - erewrite exec_step by apply update_relationships_to_run. rewrite execute_run. eexists. rewrite <-app_assoc. split; [reflexivity|].
    apply (effects_app _ _ _ [] _ [] [] [] []); [apply effects_close|apply Hdel].
  - erewrite exec_step by reflexivity. rewrite execute_run. eexists. split; [reflexivity|apply Hdel].
Qed.

Lemma remove_loop_run peers ids at_ xs h q :
  let d := details_of peers ids in
  (∀ x, x ∈ xs → x ∈ dict_keys (peers_database d)) →
  ∃ q', for_each (remove_peer_in_db global_branch rm d at_) xs (st h d q) = (Ok tt, st h d (q ++ q')) ∧ effects at_ q' xs [] [].
Proof.
  intros d. revert q. induction xs as [|x xs IH]; intros q Hin; [exists []; rewrite app_nil_r; by split|].
  destruct (database_get_some peers ids x) as (p & Hget & _ & Hpid); [by apply Hin; left|].
  destruct (remove_in_db_run h d q p at_) as (q1 & Hrun & Heff).
  destruct (IH (q ++ q1)) as (q2 & Hrun2 & Heff2); [by intros y Hy; apply Hin; right|].
  assert (remove_peer_in_db global_branch rm d at_ x (st h d q) = (Ok tt, st h d (q ++ q1))) as Hone.
  { unfold remove_peer_in_db. fold d in Hget. rewrite Hget. by erewrite exec_step by reflexivity. }
  exists (q1 ++ q2). cbn [for_each]. rewrite (exec_step _ _ _ _ _ Hone), Hrun2, app_assoc. split; [done|].
  rewrite Hpid in Heff. by apply (effects_app at_ q1 q2 [x] xs [] [] [] []).
Qed.

(** An object that is saved with the id of its peer: the peer is not read yet or is the node
    of the database, and an object whose peer is not in the database is new. *)
Definition saveable (peers : list RelationshipPeerData) (rel : Relationship) (id : string) : Prop :=
  good_rel rel id ∧ (rel_peer rel = PVal JNull ∨ rel_peer rel = PNode (saved_node peer_kind id)) ∧
  (id ∉ pe_peer_id <$> peers → truthy_str (rel_id rel) = false).

Definition knows (id : string) : Prop :=
  ∀ q t, get_one_by_id_or_default_filter db q id t = Ok (saved_node peer_kind id).

Lemma rel_get_peer_run h d q ref rel id :
  h !! ref = Some rel → good_rel rel id → (rel_peer rel = PVal JNull ∨ rel_peer rel = PNode (saved_node peer_kind id)) → knows id →
  rel_get_peer db ref (st h d q) = (Ok (saved_node peer_kind id),
    st (<[ref := rel <| rel_peer := PNode (saved_node peer_kind id) |> <| rel_peer_id := Some id |>]> h) d q).
Proof.
  intros Hrel (Hid & Hne & Hhash) Hpeer Hknows. unfold rel_get_peer.
  rewrite (exec_step _ _ _ _ _ (rel_at_ref_state h name mn mx rels (Some d) fetched q ref rel Hrel)).
  set (rel' := rel <| rel_peer := PNode (saved_node peer_kind id) |> <| rel_peer_id := Some id |>).
  assert (<[ref:=rel']> h !! ref = Some rel') as Hrel' by (apply list_lookup_insert_eq; by eapply lookup_lt_Some).
  assert ((match rel_peer rel with PVal JNull => _get_peer db ref | _ => mret tt end) (st h d q) = (Ok tt, st (<[ref:=rel']> h) d q)) as Hget.
  { destruct Hpeer as [Hpeer|Hpeer]; rewrite Hpeer.
    - unfold _get_peer. rewrite (exec_step _ _ _ _ _ (rel_at_ref_state h name mn mx rels (Some d) fetched q ref rel Hrel)).
      assert (get_peer_id rel = Ok id) as -> by (unfold get_peer_id; rewrite Hid; by destruct id).
      erewrite exec_step by reflexivity. erewrite exec_step by reflexivity. rewrite Hknows.
      by rewrite (on_rel_state _ _ _ _ _ _ _ _ _ _ rel Hrel).
    - assert (rel' = rel) as Heq by (subst rel'; destruct rel; cbn in *; by subst). rewrite Heq. by rewrite list_insert_id. }
  rewrite (exec_step _ _ _ _ _ Hget).
  rewrite (exec_step _ _ _ _ _ (rel_at_ref_state _ name mn mx rels (Some d) fetched q ref rel' Hrel')). cbn.
  erewrite exec_step by reflexivity.
  by rewrite (exec_step _ _ _ _ _ (rel_at_ref_state _ name mn mx rels (Some d) fetched q ref rel' Hrel')).
Qed.

(** Only the object of [ref] changes. *)
Definition changes_only (ref : nat) (h h' : list Relationship) : Prop := ∀ i, i ≠ ref → h' !! i = h !! i.

Lemma good_rel_same rel rel' id :
  good_rel rel id → rel_peer_id rel' = Some id → rel_is_visible rel' = rel_is_visible rel →
  rel_is_protected rel' = rel_is_protected rel → rel_source_id rel' = rel_source_id rel → rel_owner_id rel' = rel_owner_id rel →
  good_rel rel' id.
Proof.
  intros (_ & Hne & Hhash) Hid Hv Hp Hs Ho. split_and!; [done|done|]. apply rel_hash_ok. apply rel_hash_ok in Hhash.
  unfold hashable_rel in *. by rewrite Hv, Hp, Hs, Ho.
Qed.

Lemma create_run h d q ref rel id branch_support at_ :
  h !! ref = Some rel → good_rel rel id → (rel_peer rel = PVal JNull ∨ rel_peer rel = PNode (saved_node peer_kind id)) →
  knows id → r_branch (rm_schema rm) = Some branch_support →
  ∃ h' q' rel', _create db global_branch rm ref at_ (st h d q) = (Ok tt, st h' d (q ++ q')) ∧
    effects at_ q' [] [(Some id, rel_is_protected rel, rel_is_visible rel, create_node_properties rel)] [] ∧ changes_only ref h h' ∧ h' !! ref = Some rel' ∧ good_rel rel' id.
Proof.
  intros Hrel Hgood Hpeer Hknows Hbranch. unfold _create.
  rewrite (exec_step _ _ _ _ _ (rel_get_peer_run h d q ref rel id Hrel Hgood Hpeer Hknows)).
  set (rel1 := rel <| rel_peer := _ |> <| rel_peer_id := _ |>).
  assert (<[ref:=rel1]> h !! ref = Some rel1) as Hrel1 by (apply list_lookup_insert_eq; by eapply lookup_lt_Some).
  rewrite (exec_step _ _ _ _ _ (rel_at_ref_state _ name mn mx rels (Some d) fetched q ref rel1 Hrel1)).
  rewrite Hbranch. erewrite exec_step by reflexivity. erewrite exec_step by apply execute_run. erewrite exec_step by reflexivity.
  cbn [queries state]. destruct (created db _) as [[db_id uuid]|].
  - eexists _, _, _. rewrite (on_rel_state _ _ _ _ _ _ _ _ _ _ rel1 Hrel1). cbn [modify fst snd].
    split; [reflexivity|]. split_and!; [split; by repeat constructor| |apply list_lookup_insert_eq; rewrite length_insert; by eapply lookup_lt_Some|].
    + intros i Hi. by rewrite !list_lookup_insert_ne.
    + by eapply good_rel_same.
  - eexists _, _, _. split; [reflexivity|]. split_and!; [split; by repeat constructor| |exact Hrel1|by eapply good_rel_same].
    intros i Hi. by rewrite list_lookup_insert_ne.
Qed.

Lemma created_properties rel : create_node_properties rel =
  (if truthy_json (rel_source_id rel) then [("source", rel_source_id rel)] else []) ++
  (if truthy_json (rel_owner_id rel) then [("owner", rel_owner_id rel)] else []).
Proof. unfold create_node_properties. rewrite !filter_cons. cbn. destruct (truthy_json (rel_source_id rel)), (truthy_json (rel_owner_id rel)); done. Qed.
Lemma save_one_run peers ids h q ref rel id branch_support at_ :
  let d := details_of peers ids in
  h !! ref = Some rel → saveable peers rel id → knows id → r_branch (rm_schema rm) = Some branch_support → id ∈ ids →
  ∃ h' q' rel', save_one db global_branch rm d at_ ref (st h d q) = (Ok tt, st h' d (q ++ q')) ∧
    effects at_ q' [] (creation_of peers rel id) (update_of peers rel id) ∧
    changes_only ref h h' ∧ h' !! ref = Some rel' ∧ good_rel rel' id.
Proof.
  intros d Hrel (Hgood & Hpeer & Hnew) Hknows Hbranch Hin. unfold save_one.
  rewrite (exec_step _ _ _ _ _ (rel_at_ref_state h name mn mx rels (Some d) fetched q ref rel Hrel)).
  destruct Hgood as (Hid & Hne & Hhash). rewrite Hid. unfold creation_of, update_of.
  pose proof (row_of_database peers ids id) as Hrow. fold d in Hrow.
  assert (id ∈ dict_keys (peers_database d) ↔ ∃ p, p ∈ peers ∧ pe_peer_id p = id) as Hdb by apply elem_of_database.
  destruct (row_of peers id) as [p|] eqn:Hp.
  - assert (∃ p, p ∈ peers ∧ pe_peer_id p = id) as Hex by (apply Hdb, dict_get_is_Some; by eexists).
    rewrite bool_decide_eq_false_2 by (by intros [_ ?]%elem_of_local_only).
    rewrite bool_decide_eq_true_2 by (by apply elem_of_both). rewrite Hrow. erewrite exec_step by reflexivity.
    pose proof (compared_changed rel p) as Hch. pose proof (compared_nil rel p) as Hnil.
    destruct (compare_properties_with_data rel p) as [|prop props].
    + rewrite (proj1 Hnil eq_refl). exists h, [], rel. rewrite app_nil_r. by split_and!.
    + destruct (changed_properties rel p) as [|nv nvs]; [by discriminate (proj2 Hnil)|].
      unfold rel_update. erewrite exec_step by apply update_relationships_to_run.
      rewrite (exec_step _ _ _ _ _ (rel_at_ref_state h name mn mx rels (Some d) fetched _ ref rel Hrel)), execute_run, <-app_assoc, Hch.
      eexists h, _, rel. split; [reflexivity|]. split_and!; try done.
      apply (effects_app _ _ _ [] [] [] [] [] [_]); [apply effects_close|split; by repeat constructor].
  - apply row_of_None in Hp as Hno.
    assert (¬ ∃ p, p ∈ peers ∧ pe_peer_id p = id) as Hnex by (rewrite list_elem_of_fmap in Hno; naive_solver).
    rewrite bool_decide_eq_true_2 by (by apply elem_of_local_only). rewrite <-created_properties. unfold rel_save.
    rewrite (exec_step _ _ _ _ _ (rel_at_ref_state h name mn mx rels (Some d) fetched q ref rel Hrel)), Hnew by done.
    by eapply create_run.
Qed.

Lemma save_loop_run peers ids h q entries branch_support at_ :
  let d := details_of peers ids in
  NoDup (entries.*1) → Forall (λ e, h !! e.1 = Some e.2.1 ∧ saveable peers e.2.1 e.2.2 ∧ knows e.2.2 ∧ e.2.2 ∈ ids) entries →
  r_branch (rm_schema rm) = Some branch_support →
  ∃ h' q', for_each (save_one db global_branch rm d at_) (entries.*1) (st h d q) = (Ok tt, st h' d (q ++ q')) ∧
    effects at_ q' [] (concat ((λ e, creation_of peers e.2.1 e.2.2) <$> entries)) (concat ((λ e, update_of peers e.2.1 e.2.2) <$> entries)) ∧
    (∀ i, i ∉ entries.*1 → h' !! i = h !! i) ∧ peers_are h' (entries.*1) (entries.*2.*2).
Proof.
  intros d Hnd Hall Hbranch. revert h q Hnd Hall. induction entries as [|[ref [rel id]] entries IH]; intros h q Hnd Hall.
  { exists h, []. rewrite app_nil_r. split_and!; try done. constructor. }
  cbn [fmap list_fmap fst snd] in *. apply NoDup_cons in Hnd as [Href Hnd]. apply Forall_cons in Hall as [(Hrel & Hsave & Hknows & Hin) Hall].
  destruct (save_one_run peers ids h q ref rel id branch_support at_ Hrel Hsave Hknows Hbranch Hin)
    as (h1 & q1 & rel' & Hrun & Heff & Hch & Hrel' & Hgood').
  destruct (IH h1 (q ++ q1)) as (h2 & q2 & Hrun2 & Heff2 & Hch2 & Hp2); [done| |].
  { rewrite Forall_forall in Hall |- *. intros e He. destruct (Hall e He) as (Hrel2 & ?). split; [|done].
    rewrite Hch; [done|]. intros Heq. apply Href. rewrite <-Heq. by apply list_elem_of_fmap_2. }
  exists h2, (q1 ++ q2). cbn [for_each]. fold d in Hrun. rewrite (exec_step _ _ _ _ _ Hrun), Hrun2, app_assoc.
  split_and!; [done| | |].
  - exact (effects_app _ _ _ _ _ _ _ _ _ Heff Heff2).
  - intros i Hi. apply not_elem_of_cons in Hi as [Hi1 Hi2]. by rewrite Hch2, Hch.
  - constructor; [|done]. exists rel'. split; [by rewrite Hch2|done].
Qed.
End save.

Section saved.
Context `{SetOrder} (db : Database) (global_branch : Branch) (now : Z) (rm : Manager) (peer_kind : string).

Lemma peers_are_entries h peers entries :
  Forall (λ e : nat * (Relationship * string), h !! e.1 = Some e.2.1 ∧ saveable peer_kind peers e.2.1 e.2.2) entries →
  peers_are h (entries.*1) (entries.*2.*2).
Proof.
  induction 1 as [|[ref [rel id]] entries (Hrel & Hgood & _) _ IH]; [constructor|]. constructor; [by exists rel|done].
Qed.

End saved.

(** ** What the code does not do *)

Section limits.
Context (global_branch : Branch) (rm : Manager).

(** A property that the database does not have is not compared: an owner or a source
    given to a relationship that had none is never saved. *)
Theorem new_property_not_saved rel (data : RelationshipPeerData) name :
  name ∉ (pe_properties data).*1 → name ∉ compare_properties_with_data rel data.
Proof.
  intros Hn. unfold compare_properties_with_data. rewrite list_elem_of_fmap. intros (prop & -> & [_ Hin]%list_elem_of_filter).
  apply Hn. by apply list_elem_of_fmap_2.
Qed.

(** The relationships that do not depend on the branch have their edges on the global
    branch, but [remove_in_db] closes those of the branch of the manager: none. *)
Theorem agnostic_edges_not_closed name mn mx rels fetched h d q data at_ :
  r_branch (rm_schema rm) = Some BranchSupportType.AGNOSTIC →
  dict_get (rel_ids_per_branch data) (b_name (rm_branch rm)) = None →
  remove_in_db global_branch rm data at_ (state h name mn mx rels (Some d) fetched q) =
    (Ok tt, state h name mn mx rels (Some d) fetched
      (q ++ [RelationshipDataDeleteQuery (pn_id (rm_node rm)) data (r_identifier (rm_schema rm))
               (b_name global_branch) (b_hierarchy_level global_branch) at_])).
Proof.
  intros Ha Hnone. unfold remove_in_db, get_branch_based_on_support_type. rewrite bool_decide_eq_true_2 by done. rewrite Hnone.
  by destruct (dict_mem _ _).
Qed.
End limits.

(** ** Examples *)

Definition uuid (c : string) : string := "0000000" +:+ c +:+ "-0000-0000-0000-000000000000".

(** A database in which the node [a] has the peers [p1] and [p2], and every node exists. *)
Definition row (peer : string) : RelationshipPeerData :=
  mkPeerData "main" (uuid "0") peer "InfraTag" [("is_visible", mkPropertyData "is_visible" "p" (mkRelData ("v" +:+ peer) "main" "IS_VISIBLE" "active") (JBool true))]
    (Some ("r" +:+ peer)) None None [mkRelData ("e" +:+ peer) "main" "IS_RELATED" "active"] None.
Definition example_db : Database :=
  mkDatabase (λ _ _ _, [row (uuid "1"); row (uuid "2")]) (λ _ _ _ _, None) (λ _ id _, Ok (saved_node "InfraTag" id))
    (λ _ _, Ok None) (λ _ _, Ok None) (λ _ _, Ok None) (λ _ _ _, Err (Error "no pool")) (λ _, Ok None) (λ _, Some ("db", "new")).
Definition example_rel (min_count max_count : Z) : RelationshipSchema :=
  (SchemaDefs.new_relationship "tags" "InfraTag") <| r_min_count := min_count |> <| r_max_count := max_count |>
    <| r_identifier := Some "tag__device" |> <| r_branch := Some BranchSupportType.AWARE |>.
Definition main_branch : Branch := new_branch 0 "main".
Definition example_manager (min_count max_count : Z) : Manager :=
  mkManager (example_rel min_count max_count) main_branch 0 (saved_node "InfraDevice" (uuid "0")).
Definition fresh (min_count max_count : Z) : ManagerState := state [] "tags" min_count max_count [] None false [].
Definition by_ids (ids : list string) : RelationshipInput + list RelationshipInput :=
  inr ((λ id, InDict [("id", PVal (JStr id))]) <$> ids).

#[local] Existing Instance insertion_order.
Definition example_update (min_count max_count : Z) (ids : list string) : result bool * ManagerState :=
  rm_update example_db main_branch 0 (example_manager min_count max_count) (by_ids ids) (fresh min_count max_count).
Definition example_read (min_count max_count : Z) : ManagerState :=
  (get_relationships example_db main_branch 0 (example_manager min_count max_count) false false (fresh min_count max_count)).2.
Definition example_details : RelationshipUpdateDetails := details_of [row (uuid "1"); row (uuid "2")] [].

Lemma update_spec_witness :
  let s' := (example_update 0 3 [uuid "2"; uuid "3"]).2 in
  (example_update 0 3 [uuid "2"; uuid "3"]).1 = Ok true ∧ ∃ h rels, s' = state h "tags" 0 3 rels (Some example_details) true [] ∧
    peers_are h rels [uuid "2"; uuid "3"] ∧
    Forall2 (kept_or_new (example_manager 0 3) (heap (example_read 0 3)) [0%nat; 1%nat] [uuid "1"; uuid "2"] h) rels [uuid "2"; uuid "3"].
Proof.
  split; [by vm_compute|].
  assert (H := update_spec example_db main_branch 0 (example_manager 0 3) (fresh 0 3) (heap (example_read 0 3)) "tags" 0 3
    [0%nat; 1%nat] (Some example_details) [] [uuid "1"; uuid "2"] [uuid "2"; uuid "3"] (by_ids [uuid "2"; uuid "3"])
    ltac:(by vm_compute) ltac:(repeat constructor; eexists; (split; [vm_compute; reflexivity|split_and!; [vm_compute; reflexivity|done|eexists; vm_compute; reflexivity]]))
    ltac:(refine (bool_decide_eq_true_1 _ _); by vm_compute) ltac:(repeat constructor; by right) ltac:(refine (bool_decide_eq_true_1 _ _); by vm_compute)
    ltac:(repeat constructor; done) ltac:(lia)).
  unfold example_update. destruct (rm_update _ _ _ _ _ _) as [r s']. cbn beta iota zeta in H.
  change (too_many 3 (length [uuid "2"; uuid "3"])) with false in H. cbn beta iota in H.
  destruct H as (h' & rels' & _ & Hp & Hkept & -> & _). by exists h', rels'.
Defined.

(** The tags know their devices: each tag wants between one and two of them. *)
Definition tag_schema : MainSchema :=
  (new_node "Tag" "Infra") <| n_relationships :=
    [(SchemaDefs.new_relationship "devices" "InfraDevice") <| r_identifier := Some "tag__device" |> <| r_min_count := 1 |> <| r_max_count := 2 |>] |>.
Definition tag_schemas : string → result MainSchema := λ _, Ok tag_schema.
(** Every tag has [n] devices. *)
Definition devices (n : Z) : list DbQuery → list string → option string → RelationshipDirection → list (string * Z) :=
  λ _ ids _ _, (λ id, (id, n)) <$> ids.

(** A device is created with a tag that has one device. *)
Definition created_device : ManagerState :=
  (rm_init (example_manager 0 3) (by_ids [uuid "3"]) (fresh 0 3)).2.

Lemma count_check_spec_witness :
  (count_check example_db (example_manager 0 3) tag_schemas (devices 1) created_device).1 = Ok tt ↔
    ∀ peer_rel, peer_rel ∈ n_relationships tag_schema → compatible (example_rel 0 3) peer_rel →
      (r_max_count peer_rel ≠ 0 → ∀ x, x ∈ [uuid "3"] →
         counted (example_manager 0 3) (devices 1) [] (details_of [row (uuid "1"); row (uuid "2")] [uuid "3"]) (n_relationships tag_schema) x + 1 ≤ r_max_count peer_rel) ∧
      (r_min_count peer_rel ≠ 0 → ∀ x, x ∈ [uuid "1"; uuid "2"] →
         r_min_count peer_rel ≤ counted (example_manager 0 3) (devices 1) [] (details_of [row (uuid "1"); row (uuid "2")] [uuid "3"]) (n_relationships tag_schema) x - 1).
Proof.
  exact (count_check_spec example_db (example_manager 0 3) tag_schemas (devices 1) created_device created_device
    (created_device <| _relationship_id_details := Some (details_of [row (uuid "1"); row (uuid "2")] [uuid "3"]) |>)
    (details_of [row (uuid "1"); row (uuid "2")] [uuid "3"]) tag_schema "tag__device"
    ltac:(by vm_compute) eq_refl eq_refl ltac:(by vm_compute)).
Defined.

(** The device that has the tags 1 and 2 is given the tags 1 and 3, the tags having one and
    two devices: the constraint refuses to keep the tag 1, which has no other device, and
    does not see that the tag 3 already has its maximum. *)
Example stale_counts :
  let s := (example_update 0 3 [uuid "1"; uuid "3"]).2 in
  is_ok (count_check example_db (example_manager 0 3) tag_schemas (devices 1) s).1 = false ∧
  is_ok (count_check example_db (example_manager 0 3) tag_schemas (devices 2) s).1 = true.
Proof. by vm_compute. Qed.

(** The tags 1 and 2, of which at least two are required, are replaced by the tag 1 alone:
    [update] says that nothing changed, and the minimum is not checked. *)
Theorem update_removal_unreported :
  ∃ s', example_update 2 3 [uuid "1"] = (Ok false, s') ∧ peer_ids_of (heap s') (vl_relationships (_relationships s')) = [Some (uuid "1")].
Proof. eexists. split; [vm_compute; reflexivity|by vm_compute]. Qed.

(** A device with the tags 2 and 3: the tag 1 leaves, the tag 3 is created, and the
    relationship with the tag 2 is no longer visible. *)
Definition kept : Relationship :=
  (new_relationship 0) <| rel_peer_id := Some (uuid "2") |> <| rel_id := Some "r2" |> <| rel_is_visible := PVal (JBool false) |>.
Definition added : Relationship := (new_relationship 0) <| rel_peer_id := Some (uuid "3") |>.
Definition example_entries : list (nat * (Relationship * string)) := [(0%nat, (kept, uuid "2")); (1%nat, (added, uuid "3"))].

