(* ===== verification/NodeRead.v ===== *)
(** * Reading the nodes

    What [backend/infrahub/core/query/node.py] makes of the rows of its queries (the
    attributes of the nodes, their peers, their profiles), and [ProfileAttributeIndex] of
    [core/manager.py]: the values that a node takes from its profiles. *)

From stdpp Require Import prelude strings sorting.
From Stdlib Require Import Ascii.
From S2P Require Import Prelude PyString PyDict SdkUtils Constants HashModel SchemaDefs PyValue PropertyMixin Query Attribute AttributeObject RelationshipManager.

#[local] Open Scope Z_scope.

(** ** Rows of attributes *)

Definition entity_text (e : Neo4jEntity) (name : string) : string := py_str (prop e name).
Definition element_id (e : Neo4jEntity) : string := py_str (default JNull (dict_get (en_attrs e) "element_id")).
Definition text_or_none (v : json) : option string := match v with JNull => None | v => Some (py_str v) end.

(** [result.get(label).get(name)] *)
Definition item_property (r : QueryResult) (label name : string) : result json :=
  item ← get_item r label;
  match item with INode e | IRel e => Ok (prop e name) | _ => Err (AttributeError "get") end.

(** The node of an optional match, when it is included. *)
Definition included_node (include : bool) (r : QueryResult) (label : string) : result (list (string * string)) :=
  if include then
    item ← get_item r label;
    if truthy_item item then e ← result_node r label; Ok [(label, entity_text e "uuid")] else Ok []
  else Ok [].

Definition _extract_attribute_data (include_source include_owner : bool) (r : QueryResult) : result AttributeFromDB :=
  attr ← result_node r "a";
  attr_value ← result_node r "av";
  rel ← result_rel r "r2";
  is_protected ← item_property r "isp" "value";
  is_visible ← item_property r "isv" "value";
  source ← included_node include_source r "source";
  owner ← included_node include_owner r "owner";
  Ok (mkAttributeFromDB (element_id attr) (entity_text attr "uuid") (prop attr_value "value") (en_props attr_value)
        (text_or_none (prop rel "from")) (prop attr_value "is_default") false (source ++ owner)
        [("is_protected", is_protected); ("is_visible", is_visible)]).

Record NodeAttributesFromDB := mkNodeAttributes {
  na_node : Neo4jEntity;
  na_attrs : list (string * AttributeFromDB);
}.

Definition attribute_groups : list (string * string) := [("n", "uuid"); ("a", "name")].
Definition add_attribute (include_source include_owner : bool) (attrs_by_node : list (string * NodeAttributesFromDB)) (r : QueryResult) :
    result (list (string * NodeAttributesFromDB)) :=
  node ← result_node r "n";
  a ← result_node r "a";
  let node_id := entity_text node "uuid" in
  attr ← _extract_attribute_data include_source include_owner r;
  let known := default (mkNodeAttributes node []) (dict_get attrs_by_node node_id) in
  Ok (dict_set attrs_by_node node_id (mkNodeAttributes (na_node known) (dict_set (na_attrs known) (entity_text a "name") attr))).
Definition get_attributes_group_by_node (include_source include_owner : bool) (q : Query) : result (list (string * NodeAttributesFromDB)) :=
  results ← get_results_group_by attribute_groups q;
  foldM (add_attribute include_source include_owner) [] results.

Definition is_result_of (node_id attr_name : string) (r : QueryResult) : result bool :=
  node ← result_node r "n";
  if bool_decide (entity_text node "uuid" = node_id)
  then a ← result_node r "a"; Ok (bool_decide (entity_text a "name" = attr_name)) else Ok false.
Fixpoint first_result (node_id attr_name : string) (results : list QueryResult) : result QueryResult :=
  match results with
  | [] => Err IndexError
  | r :: results => found ← is_result_of node_id attr_name r; if found : bool then Ok r else first_result node_id attr_name results
  end.
Definition get_result_by_id_and_name (include_source include_owner : bool) (node_id attr_name : string) (q : Query) :
    result (AttributeFromDB * QueryResult) :=
  results ← get_results_group_by attribute_groups q;
  r ← first_result node_id attr_name results;
  data ← _extract_attribute_data include_source include_owner r;
  Ok (data, r).

(** ** Peers of the nodes *)

Definition add_peer (peers_by_node : list (string * list (string * list string))) (r : QueryResult) :
    result (list (string * list (string * list string))) :=
  node_id ← item_property r "n" "uuid";
  rel_name ← item_property r "rel" "name";
  peer_id ← item_property r "peer" "uuid";
  Ok (dict_set peers_by_node (py_str node_id)
        (dict_append (default [] (dict_get peers_by_node (py_str node_id))) (py_str rel_name) (py_str peer_id))).
Definition get_peers_group_by_node (q : Query) : result (list (string * list (string * list string))) :=
  results ← get_results_group_by [("n", "uuid"); ("rel", "name"); ("peer", "uuid")] q;
  foldM add_peer [] results.

(** ** Nodes and their profiles *)

(** [NodeToProcess]: the fields that are read. *)
Record NodeToProcess := mkNodeToProcess {
  np_schema : option MainSchema;
  np_node_id : string;
  np_node_uuid : string;
  np_updated_at : option string;
}.
(** [find_node_schema] reads the labels of the node. *)
Definition get_nodes (find_node_schema : Neo4jEntity → result (option MainSchema)) (q : Query) : result (list NodeToProcess) :=
  results ← get_results_group_by [("n", "uuid")] q;
  mapM (λ r,
    node ← result_node r "n";
    schema ← find_node_schema node;
    profile_uuids ← get_item r "profile_uuids";
    _ ← raise_if (match profile_uuids with IValue (JList _) => false | _ => true end) (TypeError "object is not iterable");
    rb ← result_rel r "rb";
    Ok (mkNodeToProcess schema (element_id node) (entity_text node "uuid") (text_or_none (prop rb "from")))) results.

Definition profile_ids_of (item : Item) : list string :=
  match item with IValue (JList l) => py_str <$> l | _ => [] end.
Definition add_profile_ids (profile_id_map : list (string * list string)) (r : QueryResult) : result (list (string * list string)) :=
  node ← result_node r "n";
  profile_ids ← get_item r "profile_uuids";
  if negb (truthy_json (prop node "uuid")) || negb (truthy_item profile_ids) then Ok profile_id_map
  else Ok (dict_set profile_id_map (entity_text node "uuid")
             (default [] (dict_get profile_id_map (entity_text node "uuid")) ++ profile_ids_of profile_ids)).
Definition get_profile_ids_by_node_id (q : Query) : result (list (string * list string)) := foldM add_profile_ids [] (q_results q).

(** ** Profiles *)

(** What a node is made from, field by field. *)
Inductive Field :=
  | FAttr (data : AttributeInput)
  | FRel (data : RelationshipInput + list RelationshipInput).

(** [int(text)] *)
Definition int_digits (s : string) : option Z :=
  if forallb (λ part, negb (bool_decide (part = "")) && forallb is_digit (String.list_ascii_of_string part)) (py_split "_" s)
  then Some (foldl (λ n c, 10 * n + Z.of_N (N_of_ascii c) - 48) 0 (String.list_ascii_of_string (py_replace "_" "" s)))
  else None.
Definition py_int (s : string) : option Z :=
  match py_strip s with
  | String "-" digits => Z.opp <$> int_digits digits
  | String "+" digits => int_digits digits
  | digits => int_digits digits
  end.

(** The key of the sort: [(1, 0)] is the infinite priority. *)
Definition get_profile_priority (profile : NodeAttributesFromDB) : result (Z * Z * string) :=
  let last := (1, 0, "") in
  let first n := (0, n, entity_text (na_node profile) "uuid") in
  match dict_get (na_attrs profile) "profile_priority" with
  | None => Ok last
  | Some attr =>
      match fd_value attr with
      | JInt n => Ok (first n)
      | JBool b => Ok (first (if b then 1 else 0))
      | JStr s => match py_int s with Some n => Ok (first n) | None => Err (ValueError "invalid literal for int()") end
      | JNull | JList _ | JDict _ => Ok last
      end
  end.

(** The first profile that has a value for the attribute, with this value: [None] in the
    database stops the search. *)
Fixpoint profile_value (attr_name : string) (profiles : list NodeAttributesFromDB) : option (json * string) :=
  match profiles with
  | [] => None
  | p :: profiles =>
      match dict_get (na_attrs p) attr_name with
      | None => profile_value attr_name profiles
      | Some attr =>
          if py_eq (fd_value attr) (JStr NULL_VALUE) then profile_value attr_name profiles
          else match fd_value attr with JNull => None | v => Some (v, entity_text (na_node p) "uuid") end
      end
  end.
Definition apply_profile (attr_name : string) (profiles : list NodeAttributesFromDB) (data : AttributeFromDB) : AttributeFromDB :=
  if truthy_json (fd_is_default data) then
    match profile_value attr_name profiles with
    | Some (value, uuid) => data <| fd_value := value |> <| fd_is_from_profile := true |> <| fd_is_default := JBool false |>
                                 <| fd_node_properties := dict_set (fd_node_properties data) "source" uuid |>
    | None => data
    end
  else data.

Record ProfileAttributeIndex := mkProfileIndex {
  _profile_attributes_id_map : list (string * NodeAttributesFromDB);
  _profile_ids_by_node_id : list (string * list string);
}.
Definition sorted_profiles (profiles : list NodeAttributesFromDB) : result (list NodeAttributesFromDB) :=
  keyed ← mapM (λ p, k ← get_profile_priority p; Ok (k, p)) profiles;
  Ok (snd <$> py_sorted_by fst keyed).
Definition apply_profiles (index : ProfileAttributeIndex) (node_id : string) (node_data : list (string * Field)) : result (list (string * Field)) :=
  match default [] (dict_get (_profile_ids_by_node_id index) node_id) with
  | [] => Ok node_data
  | profile_ids =>
      profiles ← sorted_profiles (omap (dict_get (_profile_attributes_id_map index)) profile_ids);
      Ok ((λ kv, (kv.1, match kv.2 with FAttr (FromDB data) => FAttr (FromDB (apply_profile kv.1 profiles data)) | field => field end)) <$> node_data)
  end.

(** ** Theorems *)

Lemma mapM_pairs {A K} (key : A → result K) l :
  match mapM (λ x, k ← key x; Ok (k, x)) l with
  | Ok keyed => snd <$> keyed = l ∧ ∀ k x, (k, x) ∈ keyed → key x = Ok k
  | Err e => ∃ x, x ∈ l ∧ key x = Err e
  end.
Proof.
  induction l as [|x l IH]; [split; [done|]; by intros k y ?%elem_of_nil|]. cbn.
  destruct (key x) as [k|e] eqn:Hk; cbn; [|exists x; split; [left|done]].
  destruct (mapM _ l) as [keyed|e]; cbn.
  - destruct IH as [Hl Hin]. split; [by f_equal|]. intros k' y [[= -> ->]|Hy]%elem_of_cons; [done|by apply Hin].
  - destruct IH as (y & Hy & He). exists y. split; [by right|done].
Qed.

(** The value that a profile has for an attribute. *)
Definition usable (p : NodeAttributesFromDB) (attr_name : string) (v : json) : Prop :=
  ∃ attr, dict_get (na_attrs p) attr_name = Some attr ∧ fd_value attr = v ∧ py_eq v (JStr NULL_VALUE) = false.
Definition profiles_of (index : ProfileAttributeIndex) (node_id : string) : list NodeAttributesFromDB :=
  omap (dict_get (_profile_attributes_id_map index)) (default [] (dict_get (_profile_ids_by_node_id index) node_id)).
Definition no_null (p : NodeAttributesFromDB) : Prop := ∀ name attr, dict_get (na_attrs p) name = Some attr → fd_value attr ≠ JNull.

(** In a list sorted by priority, the value found is the one of the most important profile
    that has one. *)
Lemma profile_value_spec (key : NodeAttributesFromDB → Z * Z * string) attr_name l :
  StronglySorted (λ p q, py_le (key p) (key q)) l → (∀ p, p ∈ l → no_null p) →
  match profile_value attr_name l with
  | Some (v, uuid) => ∃ p, p ∈ l ∧ usable p attr_name v ∧ uuid = entity_text (na_node p) "uuid" ∧
                        ∀ p' v', p' ∈ l → usable p' attr_name v' → py_le (key p) (key p')
  | None => ∀ p v, p ∈ l → ¬ usable p attr_name v
  end.
Proof.
  induction l as [|p l IH]; intros Hs Hnn; cbn; [by intros p v ?%elem_of_nil|].
  apply StronglySorted_inv in Hs as [Hs Hle]. rewrite Forall_forall in Hle.
  assert ((∀ v, ¬ usable p attr_name v) →
    match profile_value attr_name l with
    | Some (v, uuid) => ∃ p0, p0 ∈ p :: l ∧ usable p0 attr_name v ∧ uuid = entity_text (na_node p0) "uuid" ∧
                          ∀ p' v', p' ∈ p :: l → usable p' attr_name v' → py_le (key p0) (key p')
    | None => ∀ p0 v, p0 ∈ p :: l → ¬ usable p0 attr_name v
    end) as Hskip.
  { intros Hno. specialize (IH Hs (λ q Hq, Hnn q ltac:(by right))).
    destruct (profile_value attr_name l) as [[v uuid]|].
    - destruct IH as (q & Hq & Hu & Huuid & Hmin). exists q. split_and!; [by right|done|done|].
      intros p' v' [-> |Hp']%elem_of_cons Hu'; [by destruct (Hno v')|]. by eapply Hmin.
    - intros q v [-> |Hq]%elem_of_cons; [by apply Hno|by apply IH]. }
  destruct (dict_get (na_attrs p) attr_name) as [attr|] eqn:Hget.
  2: { apply Hskip. intros v (a & Ha & _). congruence. }
  destruct (py_eq (fd_value attr) (JStr NULL_VALUE)) eqn:Hnull.
  { apply Hskip. intros v (a & Ha & <- & Hv). congruence. }
  assert (fd_value attr ≠ JNull) as Hv by exact (Hnn p ltac:(left) attr_name attr Hget).
  assert (∃ q, q ∈ p :: l ∧ usable q attr_name (fd_value attr) ∧ entity_text (na_node p) "uuid" = entity_text (na_node q) "uuid" ∧
    ∀ p' v', p' ∈ p :: l → usable p' attr_name v' → py_le (key q) (key p')) as Hq.
  { exists p. split_and!; [left|by exists attr|done|]. intros p' v' [-> |Hp']%elem_of_cons _; [|by apply Hle].
    destruct (total py_le (key p) (key p)); done. }
  by destruct (fd_value attr).
Qed.

(** The priority of a profile: a number, a boolean, or a text that [int] reads; a profile
    without the attribute, or with nothing that [int] accepts, has none; a text that is not a
    number is an error. *)
Definition priority_value (p : NodeAttributesFromDB) : json := from_option fd_value JNull (dict_get (na_attrs p) "profile_priority").
Definition has_priority (p : NodeAttributesFromDB) (n : Z) : Prop :=
  priority_value p = JInt n ∨ priority_value p = JBool (Z.eqb n 1) ∧ (n = 0 ∨ n = 1) ∨
  ∃ s, priority_value p = JStr s ∧ py_int s = Some n.
Definition no_priority (p : NodeAttributesFromDB) : Prop :=
  priority_value p = JNull ∨ (∃ l, priority_value p = JList l) ∨ ∃ d, priority_value p = JDict d.
Definition bad_priority (p : NodeAttributesFromDB) : Prop := ∃ s, priority_value p = JStr s ∧ py_int s = None.
(** Smallest number first, then smallest id; those without priority last *)
Definition at_least (p p' : NodeAttributesFromDB) : Prop :=
  (∃ n, has_priority p n ∧
     (no_priority p' ∨ ∃ n', has_priority p' n' ∧
        (n < n' ∨ n = n' ∧ py_le (entity_text (na_node p) "uuid") (entity_text (na_node p') "uuid")))) ∨
  (no_priority p ∧ no_priority p').

(** The key of the sort follows this order. *)
Lemma priority_key p :
  match get_profile_priority p with
  | Ok (0, n, uuid) => has_priority p n ∧ uuid = entity_text (na_node p) "uuid"
  | Ok (r, n, uuid) => no_priority p ∧ (r, n, uuid) = (1, 0, "")
  | Err e => bad_priority p ∧ e = ValueError "invalid literal for int()"
  end.
Proof.
  unfold get_profile_priority, has_priority, no_priority, bad_priority, priority_value.
  destruct (dict_get (na_attrs p) "profile_priority") as [attr|]; cbn; [|by split; [left|]].
  destruct (fd_value attr) as [|b|n|s|l|d]; cbn; [by split; [left|]|..].
  - split; [|done]. right; left. destruct b; auto.
  - split; [by left|done].
  - destruct (py_int s) as [n|] eqn:Hn; [split; [right; right; by exists s|done]|]. split; [by exists s|done].
  - split; [right; left; by exists l|done].
  - split; [right; right; by exists d|done].
Qed.
Lemma key_at_least p p' k k' : get_profile_priority p = Ok k → get_profile_priority p' = Ok k' → py_le k k' → at_least p p'.
Proof.
  intros Hk Hk' Hle. pose proof (priority_key p) as H. pose proof (priority_key p') as H'. rewrite Hk in H. rewrite Hk' in H'.
  destruct k as [[[|r|r] n] u]; destruct k' as [[[|r'|r'] n'] u']; destruct H as [Hp Hu], H' as [Hp' Hu'];
    try (by right); try (left; exists n; split; [done|]); try (left; done).
  - right. exists n'. split; [done|]. subst. destruct Hle as [[Hle Hne]|[Heq Hle]]; cbn in *.
    + destruct Hle as [[Hn Hne']|[_ Hn]]; cbn in *; [lia|]. left. assert (n ≠ n') by congruence. lia.
    + simplify_eq. by right.
  - exfalso. simplify_eq. destruct Hle as [[Hle _]|[Heq _]]; cbn in *; [|done]. destruct Hle as [[? _]|[? _]]; cbn in *; lia.
Qed.

(** The attribute takes the value of the most important of the profiles that have one. *)
Definition overridden (profiles : list NodeAttributesFromDB) (attr_name : string) (data data' : AttributeFromDB) : Prop :=
  (∃ p v, truthy_json (fd_is_default data) = true ∧ p ∈ profiles ∧ usable p attr_name v ∧
     (∀ p' v', p' ∈ profiles → usable p' attr_name v' → at_least p p') ∧
     data' = data <| fd_value := v |> <| fd_is_from_profile := true |> <| fd_is_default := JBool false |>
                  <| fd_node_properties := dict_set (fd_node_properties data) "source" (entity_text (na_node p) "uuid") |>) ∨
  ((truthy_json (fd_is_default data) = false ∨ ∀ p v, p ∈ profiles → ¬ usable p attr_name v) ∧ data' = data).

Lemma sorted_profiles_spec profiles :
  match sorted_profiles profiles with
  | Ok sorted => ∃ key, sorted ≡ₚ profiles ∧ StronglySorted (λ p q, py_le (key p) (key q)) sorted ∧
                   ∀ p, p ∈ profiles → get_profile_priority p = Ok (key p)
  | Err e => ∃ p, p ∈ profiles ∧ get_profile_priority p = Err e
  end.
Proof.
  unfold sorted_profiles. pose proof (mapM_pairs get_profile_priority profiles) as H.
  destruct (mapM _ profiles) as [keyed|e]; [|done]. destruct H as [Hl Hin]. cbn [mbind result_bind].
  set (key p := match get_profile_priority p with Ok k => k | Err _ => (0, 0, "") end). exists key.
  assert (∀ kp, kp ∈ keyed → kp.1 = key kp.2) as Hkey by (intros [k p] Hkp%Hin; cbn; unfold key; by rewrite Hkp).
  split_and!.
  - by rewrite py_sorted_by_perm, Hl.
  - pose proof (py_sorted_by_sorted fst keyed) as Hs.
    assert (∀ kp, kp ∈ py_sorted_by fst keyed → kp.1 = key kp.2) as Hk by (intros kp; rewrite py_sorted_by_perm; apply Hkey).
    induction Hs as [|kp l Hs IH Hle]; [constructor|]. rewrite fmap_cons. constructor.
    + apply IH. intros q Hq. apply Hk. by right.
    + rewrite Forall_fmap. rewrite Forall_forall in Hle |- *. intros q Hq. cbn. rewrite <-!Hk by (left || by right). by apply Hle.
  - intros p Hp. rewrite <-Hl in Hp. apply list_elem_of_fmap in Hp as ([k p'] & -> & Hp). cbn [snd]. rewrite (Hin _ _ Hp). f_equal. exact (Hkey _ Hp).
Qed.

Definition profiled (f : string → Field → Field) (index : ProfileAttributeIndex) (node_id : string) : Prop :=
  ∀ name field,
    match field with
    | FAttr (FromDB data) => ∃ data', f name field = FAttr (FromDB data') ∧ overridden (profiles_of index node_id) name data data'
    | _ => f name field = field
    end.
Lemma apply_profile_overridden key name profiles sorted data :
  sorted ≡ₚ profiles → StronglySorted (λ p q, py_le (key p) (key q)) sorted → (∀ p, p ∈ profiles → get_profile_priority p = Ok (key p)) →
  (∀ p, p ∈ profiles → no_null p) → overridden profiles name data (apply_profile name sorted data).
Proof.
  intros Hp Hsorted Hkey Hnn. unfold apply_profile, overridden. destruct (truthy_json (fd_is_default data)) eqn:Hd; [|right; by split; [left|]].
  pose proof (profile_value_spec key name sorted Hsorted) as Hv.
  assert (∀ p, p ∈ sorted ↔ p ∈ profiles) as Hmem by (intros p; by rewrite Hp).
  destruct (profile_value name sorted) as [[v uuid]|]; setoid_rewrite Hmem in Hv; specialize (Hv Hnn); [left|right; by split; [right|]].
  destruct Hv as (p & Hin & Hu & -> & Hmin). exists p, v. split_and!; [done|done|done| |done].
  intros p' v' Hp' Hu'. eapply key_at_least; [by apply Hkey|by apply Hkey|]. by eapply Hmin.
Qed.
Lemma apply_profiles_run index node_id node_data :
  (∀ p, p ∈ profiles_of index node_id → no_null p) →
  match apply_profiles index node_id node_data with
  | Ok node_data' => ∃ f, node_data' = (λ kv, (kv.1, f kv.1 kv.2)) <$> node_data ∧ profiled f index node_id
  | Err e => ∃ p, p ∈ profiles_of index node_id ∧ get_profile_priority p = Err e
  end.
Proof.
  unfold apply_profiles, profiled, profiles_of.
  destruct (default [] (dict_get (_profile_ids_by_node_id index) node_id)) as [|id ids]; intros Hnn.
  - exists (λ _ field, field). split; [by induction node_data as [|[] ? IH]; cbn; f_equal|].
    intros name [[data| |]|]; try done. exists data. split; [done|]. right. split; [|done]. right. by intros p v ?%elem_of_nil.
  - set (profiles := omap _ (id :: ids)) in *. pose proof (sorted_profiles_spec profiles) as Hs.
    destruct (sorted_profiles profiles) as [sorted|e]; [|done]. destruct Hs as (key & Hp & Hsorted & Hkey). cbn [mbind result_bind].
    exists (λ name field, match field with FAttr (FromDB data) => FAttr (FromDB (apply_profile name sorted data)) | field => field end).
    split; [by apply list_fmap_ext; intros _ [name [[| |]|]] _|].
    intros name [[data| |]|]; try done. exists (apply_profile name sorted data). split; [done|]. by eapply apply_profile_overridden.
Qed.
Lemma dict_get_map {A B} (f : string → A → B) (d : list (string * A)) k : dict_get ((λ kv, (kv.1, f kv.1 kv.2)) <$> d) k = f k <$> dict_get d k.
Proof. induction d as [|[k' v] d IH]; cbn; [done|]. case_decide; [by subst|done]. Qed.

(** When the profiles are applied, every priority was read. *)
Lemma apply_profiles_priorities index node_id node_data node_data' :
  apply_profiles index node_id node_data = Ok node_data' → ∀ p, p ∈ profiles_of index node_id → ¬ bad_priority p.
Proof.
  unfold apply_profiles, profiles_of. intros Hrun p Hp (s & Hv & Hs).
  destruct (default [] (dict_get (_profile_ids_by_node_id index) node_id)) as [|id ids]; [by apply elem_of_nil in Hp|].
  set (profiles := omap _ (id :: ids)) in *. pose proof (sorted_profiles_spec profiles) as H.
  destruct (sorted_profiles profiles) as [sorted|e]; [|done]. destruct H as (key & _ & _ & Hkey).
  specialize (Hkey p Hp). unfold priority_value in Hv. unfold get_profile_priority in Hkey.
  destruct (dict_get (na_attrs p) "profile_priority") as [attr|]; cbn in Hv; [|done]. by rewrite Hv, Hs in Hkey.
Qed.

(** C15: The profiles of a node.  Each attribute that has its default value takes the value,
    and as its source the id, of the profile of smallest priority, then of smallest id,
    among those of the node that have a value for it; every other attribute, and every
    relationship, stays.  It raises [ValueError] exactly when the priority of a profile of the
    node is a text that [int] does not read.  For profiles none of whose attributes holds
    [None] (the database stores the text NULL in its place). *)
Theorem apply_profiles_spec index node_id node_data :
  (∀ p, p ∈ profiles_of index node_id → no_null p) →
  match apply_profiles index node_id node_data with
  | Ok node_data' =>
      (∀ p, p ∈ profiles_of index node_id → ¬ bad_priority p) ∧
      Forall2 (λ kv kv', kv'.1 = kv.1 ∧
                 match kv.2 with
                 | FAttr (FromDB data) => ∃ data', kv'.2 = FAttr (FromDB data') ∧ overridden (profiles_of index node_id) kv.1 data data'
                 | field => kv'.2 = field
                 end) node_data node_data'
  | Err e => e = ValueError "invalid literal for int()" ∧ ∃ p, p ∈ profiles_of index node_id ∧ bad_priority p
  end.
Proof.
  intros Hnn. pose proof (apply_profiles_run index node_id node_data Hnn) as H. destruct (apply_profiles _ _ _) as [node_data'|e] eqn:Hrun.
  2: { destruct H as (p & Hin & Hp). pose proof (priority_key p) as Hbad. rewrite Hp in Hbad. destruct Hbad as [Hbad ->]. split; [done|by exists p]. }
  split; [by eapply apply_profiles_priorities|].
  destruct H as (f & -> & Hf). apply Forall2_fmap_r, Forall_Forall2_diag, Forall_forall. intros [name field] _. split; [done|].
  specialize (Hf name field). by destruct field as [[]|].
Qed.

Definition demo_attribute (value : json) (is_default : bool) : AttributeFromDB :=
  mkAttributeFromDB "db" "a" value [] None (JBool is_default) false [] [].
Definition demo_profile (uuid : string) (priority description : json) : NodeAttributesFromDB :=
  mkNodeAttributes (mkEntity [] [("uuid", JStr uuid)])
    [("profile_priority", demo_attribute priority false); ("description", demo_attribute description false)].
Definition demo_index : ProfileAttributeIndex :=
  mkProfileIndex [("p1", demo_profile "p1" (JInt 10) (JStr "from p1")); ("p2", demo_profile "p2" (JInt 5) (JStr "NULL"));
                  ("p3", demo_profile "p3" (JInt 7) (JStr "from p3"))] [("n", ["p1"; "p2"; "p3"])].

Lemma demo_no_null uuid priority description : priority ≠ JNull → description ≠ JNull → no_null (demo_profile uuid priority description).
Proof. intros Hp Hd name attr Hget. cbn in Hget. repeat case_decide; simplify_eq; done. Qed.
Lemma apply_profiles_spec_witness :
  ∃ data data', apply_profiles demo_index "n" [("description", FAttr (FromDB data))] = Ok [("description", FAttr (FromDB data'))] ∧
    fd_value data' = JStr "from p3" ∧ fd_is_from_profile data' = true ∧ overridden (profiles_of demo_index "n") "description" data data'.
Proof.
  exists (demo_attribute JNull true). eexists. split; [by vm_compute|]. split; [done|]. split; [done|].
  assert (∀ p, p ∈ profiles_of demo_index "n" → no_null p) as Hnn.
  { change (profiles_of demo_index "n") with [demo_profile "p1" (JInt 10) (JStr "from p1"); demo_profile "p2" (JInt 5) (JStr "NULL");
      demo_profile "p3" (JInt 7) (JStr "from p3")].
    intros p. rewrite !elem_of_cons, elem_of_nil. intros [-> |[-> |[-> |[]]]]; by apply demo_no_null. }
  pose proof (apply_profiles_spec demo_index "n" [("description", FAttr (FromDB (demo_attribute JNull true)))] Hnn) as H.
  vm_compute (apply_profiles _ _ _) in H. destruct H as [_ H]. apply Forall2_cons in H as [(_ & data' & [= <-] & Ho) _]. exact Ho.
Defined.

(** A profile whose priority was set to nothing prevents its nodes from being read. *)
Theorem null_priority_blocks_reading :
  apply_profiles (mkProfileIndex [("p1", demo_profile "p1" (JStr NULL_VALUE) (JStr "x"))] [("n", ["p1"])]) "n" [] =
  Err (ValueError "invalid literal for int()").
Proof. by vm_compute. Qed.
