(* ===== verification/Node.v ===== *)
(** * Nodes

    The class [Node] of [backend/infrahub/core/node/__init__.py]: a node made from its
    fields, with one attribute ([AttributeObject]) and one relationship manager
    ([RelationshipManager]) for each of those of its schema, saved, deleted, changed by a
    mutation and shown.  The state holds the object, a counter for what is new, and the
    queries executed by the node and by its parts, in order; what the database answers is
    a function of them. *)

From stdpp Require Import prelude strings.
From S2P Require Import Prelude PyString PyDict SdkUtils Constants HashModel SchemaDefs NodeSchemaOps RelationshipList PyValue Enums PropertyMixin Branch Query Attribute AttributeObject RelationshipManager NodeRead.

#[local] Open Scope Z_scope.

(** ** Data *)

(** A manager with what it was made with. *)
Record NodeRelationship := mkNodeRelationship {
  nr_schema : RelationshipSchema;
  nr_at : Z;
  nr_state : ManagerState;
}.
Record Node := mkNode {
  nd_id : option string;
  nd_db_id : option string;
  nd_existing : bool;
  nd_at : Z;
  nd_updated_at : option Z;
  nd_source : PyValue;
  nd_owner : PyValue;
  nd_attribute_names : list string;
  nd_relationship_names : list string;
  nd_attributes : list (string * BaseAttribute);
  nd_relationships : list (string * NodeRelationship);
}.
#[export] Instance Node_rebuild : Rebuild Node := λ n,
  mkNode (nd_id n) (nd_db_id n) (nd_existing n) (nd_at n) (nd_updated_at n) (nd_source n) (nd_owner n)
    (nd_attribute_names n) (nd_relationship_names n) (nd_attributes n) (nd_relationships n).
(** [Node(schema, branch, at)] *)
Definition new_node (at_ : Z) : Node := mkNode None None false at_ None (PVal JNull) (PVal JNull) [] [] [] [].

Record RelationshipCreateData := mkRelCreateData {
  rc_name : string;
  rc_destination_id : string;
  rc_branch : string;
  rc_branch_level : Z;
  rc_branch_support : option string;
  rc_direction : string;
  rc_status : string;
  rc_is_protected : PyValue;
  rc_is_visible : PyValue;
  rc_hierarchical : option string;
  rc_source_prop : list string;
  rc_owner_prop : list string;
}.
(** The parameters of [NodeCreateAllQuery]. *)
Record NodeCreateData := mkNodeCreateData {
  nc_uuid : option string;
  nc_labels : list string;
  nc_branch : string;
  nc_branch_level : Z;
  nc_kind : string;
  nc_namespace : string;
  nc_branch_support : string;
  nc_at : Z;
  nc_attrs : list AttributeCreateData;
  nc_attrs_iphost : list AttributeCreateData;
  nc_attrs_ipnetwork : list AttributeCreateData;
  nc_rels_bidir : list RelationshipCreateData;
  nc_rels_out : list RelationshipCreateData;
  nc_rels_in : list RelationshipCreateData;
}.

Inductive NodeQuery :=
  | OfAttribute (name : string) (q : AttrQuery)
  | OfRelationship (name : string) (q : DbQuery)
  | NodeCheckIDQuery (id : string)
  | NodeCreateAllQuery (data : NodeCreateData)
  | NodeGetListQuery (id : option string) (at_ : Z)
  | EdgesTo (ids : list string) (to : Z)
  | NodeDeleteQuery (id : option string) (branch : string) (branch_level at_ : Z).

(** What the database answers, after the queries already executed. *)
Record NodeDatabase := mkNodeDatabase {
  nb_current : list NodeQuery → string → list AttrQuery → option CurrentAttribute;
  nb_attribute_get : list NodeQuery → string → list AttrQuery → list (string * string * list DbEdge);
  nb_relationships : list NodeQuery → string → RelationshipManager.Database;
  nb_check_id : list NodeQuery → Z;
  nb_self_ids : list NodeQuery → result (string * string);
  nb_new_ids : list NodeQuery → list (string * (string * string));
  nb_branch_edge : list NodeQuery → option (string * string);
}.

Record NodeState := mkNodeState {
  node : Node;
  node_fresh : nat;
  node_queries : list NodeQuery;
}.
#[export] Instance NodeState_rebuild : Rebuild NodeState := λ s, mkNodeState (node s) (node_fresh s) (node_queries s).

Definition on_node (f : Node → Node) : Exec NodeState unit := modify (λ s, s <| node := f (node s) |>).
Definition node_execute (q : NodeQuery) : Exec NodeState unit := modify (λ s, s <| node_queries := node_queries s ++ [q] |>).

Section node.
Context `{SetOrder} (lib : Libraries) (db : NodeDatabase) (global_branch : Branch).
Context (schema : MainSchema) (branch : Branch).
(** [str(UUIDT())] *)
Context (new_uuid : nat → string).

Definition node_id (n : Node) : string := default "None" (nd_id n).
Definition as_peer (n : Node) : PeerNode := mkPeerNode (nd_id n) (kind schema) (nd_existing n).
Definition has_id (n : Node) : bool := truthy_str (nd_id n).
Definition node_branch : Branch := if bool_decide (n_branch schema = BranchSupportType.AGNOSTIC) then global_branch else branch.

(** ** The parts of a node *)

Definition attribute_info (n : Node) (attr_schema : AttributeSchema) (cls : AttributeClass) : AttributeInfo :=
  mkAttributeInfo (a_name attr_schema) cls attr_schema branch (as_peer n) (default "" (nd_db_id n)).

(** A method of an attribute: it changes the object and executes queries. *)
Definition run_attribute {A} (name : string) (m : Exec AttrState A) (a : BaseAttribute) : Exec NodeState A := λ s,
  let '(r, st) := m (mkAttrState a (node_fresh s) []) in
  (r, mkNodeState ((node s) <| nd_attributes := dict_set (nd_attributes (node s)) name (attr st) |>) (fresh st)
        (node_queries s ++ (OfAttribute name <$> attr_queries st))).
(** [getattr(self, name)], for the name of an attribute, with its schema and its class *)
Definition attribute_schema_of (name : string) : result AttributeSchema :=
  require (AttributeError name) (get_attribute_or_none schema name).
Definition on_attribute {A} (name : string) (m : AttributeInfo → Exec AttrState A) : Exec NodeState A :=
  s ← get_state;
  a ← lift (require (AttributeError name) (dict_get (nd_attributes (node s)) name));
  attr_schema ← lift (attribute_schema_of name);
  cls ← lift (get_class attr_schema);
  run_attribute name (m (attribute_info (node s) attr_schema cls)) a.

Definition manager_of (n : Node) (r : NodeRelationship) : Manager := mkManager (nr_schema r) branch (nr_at r) (as_peer n).
Definition run_relationship {A} (name : string) (m : Exec ManagerState A) (r : NodeRelationship) : Exec NodeState A := λ s,
  let '(res, st) := m ((nr_state r) <| queries := [] |>) in
  (res, mkNodeState ((node s) <| nd_relationships := dict_set (nd_relationships (node s)) name (mkNodeRelationship (nr_schema r) (nr_at r) st) |>)
          (node_fresh s) (node_queries s ++ (OfRelationship name <$> queries st))).
Definition on_relationship {A} (name : string) (m : RelationshipManager.Database → Manager → Exec ManagerState A) : Exec NodeState A :=
  s ← get_state;
  r ← lift (require (AttributeError name) (dict_get (nd_relationships (node s)) name));
  run_relationship name (m (nb_relationships db (node_queries s) name) (manager_of (node s) r)) r.

(** ** [_process_fields] *)

(** The data of an attribute and of a relationship, from a field of any form. *)
Definition attribute_input (field : option Field) : option AttributeInput :=
  match field with
  | None => Some (FromValue (PVal JNull))
  | Some (FAttr data) => Some data
  | Some (FRel (inl (InValue v))) => Some (FromValue v)
  | Some (FRel (inl (InDict d))) => Some (FromDict d)
  | Some (FRel _) => None
  end.
Definition relationship_input (field : option Field) : option (RelationshipInput + list RelationshipInput) :=
  match field with
  | None => Some (inl (InValue (PVal JNull)))
  | Some (FRel data) => Some data
  | Some (FAttr (FromValue (PVal (JList l)))) => Some (inr (InValue ∘ PVal <$> l))
  | Some (FAttr (FromValue v)) => Some (inl (InValue v))
  | Some (FAttr (FromDict d)) => Some (inl (InDict d))
  | Some (FAttr (FromDB _)) => None
  end.

Definition _generate_attribute_default (attr_schema : AttributeSchema) (field : option Field) : Exec NodeState unit :=
  cls ← lift (get_class attr_schema);
  s ← get_state;
  let n := node s in
  data ← lift (require (invalid (a_name attr_schema) "is not of type") (attribute_input field));
  let a := init_object (PVal JNull) None None (nd_at n) false false in
  run_attribute (a_name attr_schema)
    (attribute_init lib (attribute_info n attr_schema cls) data [("source", nd_source n); ("owner", nd_owner n)] []) a.
(** The attribute is not set when its creation raises. *)
Definition generate_attribute (attr_schema : AttributeSchema) (field : option Field) : Exec NodeState unit := λ s,
  match _generate_attribute_default attr_schema field s with
  | (Err e, s') => (Err e, s' <| node := (node s') <| nd_attributes := nd_attributes (node s) |> |>)
  | ok => ok
  end.
Definition process_attribute (fields : list (string * Field)) (attr_schema : AttributeSchema) : Exec NodeState unit :=
  _ ← generate_attribute attr_schema (dict_get fields (a_name attr_schema));
  s ← get_state;
  if has_id (node s) then mret tt
  else on_attribute (a_name attr_schema) (λ info, s ← get_state; lift (validate_self lib info (at_value (attr s)))).

Definition empty_manager : ManagerState := mkManagerState [] (mkValidatorList "" 0 0 [] 0) None false [].
Definition _generate_relationship_default (rel_schema : RelationshipSchema) (field : option Field) : Exec NodeState unit :=
  s ← get_state;
  data ← lift (require (ValidationError (r_name rel_schema +:+ ": Invalid data provided to form a relationship")) (relationship_input field));
  let r := mkNodeRelationship rel_schema (nd_at (node s)) empty_manager in
  run_relationship (r_name rel_schema) (rm_init (manager_of (node s) r) data) r.
Definition process_relationship (fields : list (string * Field)) (rel_schema : RelationshipSchema) : Exec NodeState unit := λ s,
  match _generate_relationship_default rel_schema (dict_get fields (r_name rel_schema)) s with
  | (Err e, s') => (Err e, s' <| node := (node s') <| nd_relationships := nd_relationships (node s) |> |>)
  | ok => ok
  end.

(** [try: ... except ValidationError as exc: errors.append(exc)] *)
Definition try_validation (m : Exec NodeState unit) : Exec NodeState (list string) := λ s,
  match m s with
  | (Ok _, s') => (Ok [], s')
  | (Err (ValidationError msg), s') => (Ok [msg], s')
  | (Err (ValidationErrors msgs), s') => (Ok [py_join ", " msgs], s')
  | (Err e, s') => (Err e, s')
  end.
Fixpoint collect_errors {B} (f : B → Exec NodeState unit) (l : list B) : Exec NodeState (list string) :=
  match l with
  | [] => mret []
  | x :: l => errors ← try_validation (f x); rest ← collect_errors f l; mret (errors ++ rest)
  end.

Definition field_error (name msg : string) : string := name +:+ ": " +:+ msg.
Definition input_errors (existing : bool) (fields : list (string * Field)) : list string :=
  ((λ name, field_error name "is not a valid input") <$> filter (λ name, name ∉ valid_input_names schema) (dict_keys fields)) ++
  (if existing then []
   else (λ name, field_error name "is mandatory") <$>
          filter (λ name, name ∉ dict_keys fields) (mandatory_attribute_names schema ++ mandatory_relationship_names schema)).

Definition py_title_words (s : string) : string := py_join " " (py_title <$> py_split "_" s).
(** [process_label] *)
Definition process_label : Exec NodeState unit :=
  s ← get_state;
  let n := node s in
  if has_id n then mret tt
  else
    match dict_get (nd_attributes n) "label", dict_get (nd_attributes n) "name" with
    | Some label, Some name =>
        if is_none (at_value label) && truthy_value (at_value name) then
          match at_value name with
          | PVal (JStr text) =>
              on_node (λ n, n <| nd_attributes := dict_set (nd_attributes n) "label"
                                  (label <| at_value := PVal (JStr (py_title_words text)) |> <| at_is_default := PVal (JBool false) |>) |>)
          | _ => raise (AttributeError "split")
          end
        else mret tt
    | Some label, None =>
        if dict_mem (nd_relationships n) "name" && is_none (at_value label) then raise (AttributeError "value") else mret tt
    | None, name =>
        if dict_mem (nd_relationships n) "label" && (opt_is_some name || dict_mem (nd_relationships n) "name")
        then raise (AttributeError "value") else mret tt
    end.

Definition _process_fields (fields : list (string * Field)) : Exec NodeState unit :=
  _ ← on_node (λ n, n <| nd_source := match dict_get fields "_source" with Some (FAttr (FromValue v)) => v | _ => nd_source n end |>
                      <| nd_owner := match dict_get fields "_owner" with Some (FAttr (FromValue v)) => v | _ => nd_owner n end |>);
  s ← get_state;
  _ ← (match input_errors (nd_existing (node s)) fields with [] => mret tt | errors => raise (ValidationErrors errors) end);
  attribute_errors ← collect_errors (λ a,
    _ ← on_node (λ n, n <| nd_attribute_names := nd_attribute_names n ++ [a_name a] |>);
    process_attribute fields a) (n_attributes schema);
  relationship_errors ← collect_errors (λ r,
    _ ← on_node (λ n, n <| nd_relationship_names := nd_relationship_names n ++ [r_name r] |>);
    process_relationship fields r) (n_relationships schema);
  _ ← (match attribute_errors ++ relationship_errors with [] => mret tt | errors => raise (ValidationErrors errors) end);
  s ← get_state;
  if bool_decide ("label" ∈ nd_attribute_names (node s) ++ nd_relationship_names (node s)) then process_label else mret tt.

(** ** [new] and [load] *)

Definition node_new (id : option string) (fields : list (string * Field)) : Exec NodeState unit :=
  _ ← (match id with
       | Some (String c r) =>
           let id := String c r in
           if negb (is_valid_uuid id) then raise (ValidationError (field_error "id" "is not a valid UUID"))
           else
             _ ← node_execute (NodeCheckIDQuery id);
             s ← get_state;
             if negb (nb_check_id db (node_queries s) =? 0) then raise (ValidationError (field_error "id" "is already in use")) else mret tt
       | _ => mret tt
       end);
  _ ← _process_fields fields;
  s ← get_state;
  match id with
  | Some (String c r) => on_node (λ n, n <| nd_id := Some (String c r) |>)
  | _ => modify (λ s, s <| node := (node s) <| nd_id := Some (new_uuid (node_fresh s)) |> |> <| node_fresh := S (node_fresh s) |>)
  end.
Definition node_load (id db_id updated_at : option string) (fields : list (string * Field)) : Exec NodeState unit :=
  _ ← on_node (λ n, n <| nd_id := id |> <| nd_db_id := db_id |> <| nd_existing := true |>);
  _ ← (match updated_at with
       | Some (String c r) => t ← lift (_parse_string lib (String c r)); on_node (λ n, n <| nd_updated_at := Some t |>)
       | _ => mret tt
       end);
  _process_fields fields.

(** ** Saving *)

Definition truthy_json_text (v : json) : list string := if truthy_json v then [py_str v] else [].
(** [Relationship.get_create_data] *)
Definition rel_create_data (rdb : RelationshipManager.Database) (rm : Manager) (ref : nat) : Exec ManagerState RelationshipCreateData :=
  let rs := rm_schema rm in
  let rel_branch := RelationshipManager.get_branch_based_on_support_type global_branch rm in
  _ ← rel_resolve rdb rm ref;
  peer ← rel_get_peer rdb ref;
  rel ← rel_at_ref ref;
  identifier ← lift (get_identifier rs);
  destination_id ← lift (require (Error "destination_id") (pn_id peer));
  mret (mkRelCreateData identifier destination_id (b_name rel_branch) (b_hierarchy_level (rm_branch rm)) (enum_value <$> r_branch rs)
    (enum_value (r_direction rs)) "active" (rel_is_protected rel) (rel_is_visible rel) (r_hierarchical rs)
    (truthy_json_text (rel_source_id rel)) (truthy_json_text (rel_owner_id rel))).

Fixpoint collect {S B C} (f : B → Exec S C) (l : list B) : Exec S (list C) :=
  match l with [] => mret [] | x :: l => y ← f x; ys ← collect f l; mret (y :: ys) end.

(** [Node.get_labels] *)
Definition node_labels : list string :=
  match n_class schema with
  | NodeSchema p =>
      kind schema :: np_inherit_from p ++
      (if bool_decide (n_namespace schema ∈ ["Schema"; "Internal"]) || bool_decide (InfrahubKind.GENERICGROUP ∈ np_inherit_from p)
       then [] else [InfrahubKind.NODE])
  | ProfileSchema p => kind schema :: pp_inherit_from p
  | GenericSchema _ => [kind schema]
  end.

Definition all_create_data : Exec NodeState (list AttributeCreateData * list RelationshipCreateData) :=
  s ← get_state;
  attributes ← collect (λ name, on_attribute name (λ info, get_create_data lib global_branch info)) (nd_attribute_names (node s));
  relationships ← collect (λ name, on_relationship name (λ rdb rm, rels ← refs; collect (rel_create_data rdb rm) rels)) (nd_relationship_names (node s));
  mret (attributes, concat relationships).
Definition node_create_data (at_ : Z) (n : Node) (attributes : list AttributeCreateData) (relationships : list RelationshipCreateData) : NodeCreateData :=
  let of_type t := filter (λ a, cd_node_type a = t) attributes in
  let towards d := filter (λ r, rc_direction r = enum_value d) relationships in
  mkNodeCreateData (nd_id n) node_labels (b_name node_branch) (b_hierarchy_level node_branch) (kind schema) (n_namespace schema)
    (enum_value (n_branch schema)) at_
    (filter (λ a, cd_node_type a ≠ "iphost" ∧ cd_node_type a ≠ "ipnetwork") attributes) (of_type "iphost") (of_type "ipnetwork")
    (towards RelationshipDirection.BIDIR) (towards RelationshipDirection.OUTBOUND) (towards RelationshipDirection.INBOUND).

(** The ids that the database gave. *)
Definition set_attribute_ids (new_ids : list (string * (string * string))) (create_at : Z) (name : string) : Exec NodeState unit :=
  s ← get_state;
  a ← lift (require (AttributeError name) (dict_get (nd_attributes (node s)) name));
  ids ← lift (require (KeyError name) (dict_get new_ids name));
  on_node (λ n, n <| nd_attributes := dict_set (nd_attributes n) name
                       (a <| at_id := PVal (JStr ids.1) |> <| at_db_id := Some ids.2 |> <| at_at := create_at |>) |>).
Definition set_relationship_ids (new_ids : list (string * (string * string))) (name : string) : Exec NodeState unit :=
  on_relationship name (λ _ rm,
    rels ← refs;
    for_each (λ ref,
      rel ← rel_at_ref ref;
      let identifier := default "None" (r_identifier (rm_schema rm)) +:+ "::" +:+ default "None" (rel_peer_id rel) in
      ids ← lift (require (KeyError identifier) (dict_get new_ids identifier));
      on_rel ref (modify (λ rel, rel <| rel_id := Some ids.1 |> <| rel_db_id := Some ids.2 |>))) rels).

Definition node_create (at_ : option Z) : Exec NodeState unit :=
  let create_at := Timestamp (now lib) at_ in
  '(attributes, relationships) ← all_create_data;
  s ← get_state;
  _ ← node_execute (NodeCreateAllQuery (node_create_data create_at (node s) attributes relationships));
  s ← get_state;
  '(_, db_id) ← lift (nb_self_ids db (node_queries s));
  _ ← on_node (λ n, n <| nd_db_id := Some db_id |> <| nd_at := create_at |> <| nd_updated_at := Some create_at |> <| nd_existing := true |>);
  let new_ids := nb_new_ids db (node_queries s) in
  s ← get_state;
  _ ← for_each (set_attribute_ids new_ids create_at) (nd_attribute_names (node s));
  for_each (set_relationship_ids new_ids) (nd_relationship_names (node s)).

Definition save_attribute (update_at : Z) (name : string) : Exec NodeState unit :=
  s ← get_state;
  _ ← on_attribute name (λ info, attribute_save lib global_branch info (nb_current db (node_queries s) name) (Some update_at));
  mret tt.
Definition save_relationship (update_at : Z) (name : string) : Exec NodeState unit :=
  on_relationship name (λ rdb rm, rm_save rdb global_branch (now lib) rm (Some update_at)).
Definition node_update (at_ : option Z) : Exec NodeState unit :=
  let update_at := Timestamp (now lib) at_ in
  s ← get_state;
  _ ← for_each (save_attribute update_at) (nd_attribute_names (node s));
  for_each (save_relationship update_at) (nd_relationship_names (node s)).
Definition node_save (at_ : option Z) : Exec NodeState unit :=
  let save_at := Timestamp (now lib) at_ in
  s ← get_state;
  if nd_existing (node s) then node_update (Some save_at) else node_create (Some save_at).

Definition node_delete (at_ : option Z) : Exec NodeState unit :=
  let delete_at := Timestamp (now lib) at_ in
  s ← get_state;
  _ ← for_each (λ name, s ← get_state;
                _ ← on_attribute name (λ info, attribute_delete lib global_branch info (nb_attribute_get db (node_queries s) name) (Some delete_at));
                mret tt) (nd_attribute_names (node s));
  _ ← for_each (λ name, on_relationship name (λ rdb rm, rm_delete rdb global_branch (now lib) rm (Some delete_at)))
        (nd_relationship_names (node s));
  _ ← node_execute (NodeGetListQuery (nd_id (node s)) delete_at);
  s ← get_state;
  _ ← (match nb_branch_edge db (node_queries s) with
       | Some (edge_branch, rb_id) => if bool_decide (edge_branch = b_name node_branch) then node_execute (EdgesTo [rb_id] delete_at) else mret tt
       | None => mret tt
       end);
  node_execute (NodeDeleteQuery (nd_id (node s)) (b_name node_branch) (b_hierarchy_level node_branch) delete_at).

(** ** Mutations *)

Definition dict_field (field : Field) : option (list (string * PyValue)) :=
  match field with
  | FAttr (FromDict d) | FRel (inl (InDict d)) => Some d
  | FAttr (FromValue (PVal (JDict d))) | FRel (inl (InValue (PVal (JDict d)))) => Some (prod_map id PVal <$> d)
  | _ => None
  end.
Definition update_field (key : string) (value : Field) : Exec NodeState bool :=
  s ← get_state;
  changed ← (match dict_field value with
             | Some d => if bool_decide (key ∈ nd_attribute_names (node s)) then on_attribute key (λ info, AttributeObject.from_graphql info d)
                         else mret false
             | None => mret false
             end);
  changed' ← (if bool_decide (key ∈ nd_relationship_names (node s)) then
                data ← lift (require (ValidationError (key +:+ ": Invalid data provided to form a relationship")) (relationship_input (Some value)));
                on_relationship key (λ rdb rm, rm_update rdb global_branch (now lib) rm data)
              else mret false);
  mret (changed || changed').
Fixpoint node_from_graphql (data : list (string * Field)) : Exec NodeState bool :=
  match data with
  | [] => mret false
  | (key, value) :: data => changed ← update_field key value; rest ← node_from_graphql data; mret (changed || rest)
  end.

(** ** Labels and identifiers *)

(** What is read of a peer: [getattr(getattr(node, attribute), property)] *)
Context (peer_value : PeerNode → string → string → result PyValue).
Context (get_schema : string → result MainSchema).

(** [getattr(self, name)] then [getattr(attr, property)] *)
Definition attribute_value (name property : string) : Exec NodeState PyValue :=
  s ← get_state;
  a ← lift (require (AttributeError name) (dict_get (nd_attributes (node s)) name));
  attr_schema ← lift (attribute_schema_of name);
  cls ← lift (get_class attr_schema);
  lift (getattr_attribute (attribute_info (node s) attr_schema cls) property a).

Definition get_path_value (path : string) : Exec NodeState PyValue :=
  schema_path ← lift (parse_schema_path schema path (Some get_schema));
  _ ← (if has_property schema_path then mret tt else raise (ValueError "Unable to retrieve the value of a path without property"));
  let property := default "" (attribute_property_name schema_path) in
  match relationship_schema schema_path, attribute_schema schema_path with
  | Some r, a =>
      if negb (is_type_relationship schema_path) then mret (PVal JNull)
      else if bool_decide (r_cardinality r = RelationshipCardinality.MANY)
      then raise (ValueError "Unable to retrieve the value of a path on a relationship of cardinality many")
      else
        peer ← on_relationship (r_name r) (λ rdb rm, _ ← rm_resolve rdb rm; rm_get_peer rdb global_branch (now lib) rm);
        attr ← lift (require (AttributeError "name") a);
        peer ← lift (require (AttributeError (a_name attr)) peer);
        lift (peer_value peer (a_name attr) property)
  | None, Some a => if is_type_attribute schema_path then attribute_value (a_name a) property else mret (PVal JNull)
  | None, None => mret (PVal JNull)
  end.
(** [include_kind] puts the kind first. *)
Definition get_hfid (include_kind : bool) : Exec NodeState (option (list PyValue)) :=
  match n_human_friendly_id schema with
  | Some ((_ :: _) as paths) =>
      hfid ← collect get_path_value paths;
      mret (Some (if include_kind then PVal (JStr (kind schema)) :: hfid else hfid))
  | _ => mret None
  end.
(** ["__".join(hfid)] *)
Definition get_hfid_as_text (include_kind : bool) : Exec NodeState (option string) :=
  hfid ← get_hfid include_kind;
  match hfid with
  | Some ((_ :: _) as values) =>
      texts ← lift (mapM (λ v, match v with PVal (JStr s) => Ok s | _ => Err (TypeError "sequence item: expected str instance") end) values);
      mret (Some (py_join "__" texts))
  | _ => mret None
  end.

Definition display_element (item : string) : Exec NodeState PyValue :=
  match py_split "__" item with
  | [name; property] =>
      if bool_decide (name ∈ attribute_names schema) then attribute_value name property
      else raise (ValidationError "Only Attribute can be used in Display Label")
  | _ => raise (ValidationError "Display Label can only have one level")
  end.
Definition render_display_label : Exec NodeState string :=
  s ← get_state;
  match n_display_labels schema with
  | Some ((_ :: _) as labels) =>
      display_elements ← collect display_element labels;
      if forallb is_none display_elements then mret ""
      else
        let display_label := py_strip (py_join " " (value_str <$> display_elements)) in
        mret (if bool_decide (display_label = "") then node_repr (as_peer (node s)) else display_label)
  | _ => mret (node_repr (as_peer (node s)))
  end.

(** ** [to_graphql] *)

Context (graphql_enums : bool).
Context (get_one : json → result (option PeerNode)).
Context (node_to_graphql : PeerNode → list (string * json) → result json).

(** A payload is JSON, but for the members of enumerations inside. *)
Inductive Payload :=
  | PlValue (v : PyValue)
  | PlList (l : list PyValue)
  | PlAttribute (d : list (string * PyValue)).

Definition sub_fields (fields : list (string * json)) (name : string) : list (string * json) :=
  match dict_get fields name with Some (JDict d) => d | _ => [] end.
Definition node_graphql_field (fields : list (string * json)) (filter_sensitive : bool) (name : string) : Exec NodeState Payload :=
  s ← get_state;
  if bool_decide (name = "__typename") then mret (PlValue (PVal (JStr (kind schema))))
  else if bool_decide (name = "display_label") then label ← render_display_label; mret (PlValue (PVal (JStr label)))
  else if bool_decide (name = "hfid") then
    hfid ← get_hfid false;
    mret (match hfid with Some l => PlList l | None => PlValue (PVal JNull) end)
  else if bool_decide (name = "_updated_at") then mret (PlValue (opt_int (nd_updated_at (node s))))
  else if dict_mem (nd_attributes (node s)) name then
    d ← on_attribute name (λ info, to_graphql info graphql_enums get_one node_to_graphql (sub_fields fields name) filter_sensitive);
    mret (PlAttribute d)
  else mret (PlValue (PVal JNull)).
(** [fields] is empty when none are given. *)
Definition node_to_payload (fields : list (string * json)) (filter_sensitive : bool) : Exec NodeState (list (string * Payload)) :=
  s ← get_state;
  let names := match fields with
               | [] => attribute_names schema ++ ["__typename"; "display_label"]
               | _ => filter (λ name, name ∉ "id" :: relationship_names schema) (dict_keys fields)
               end in
  values ← collect (λ name, v ← node_graphql_field fields filter_sensitive name; mret (name, v)) names;
  mret (dict_update [("id", PlValue (of_opt (nd_id (node s)))); ("type", PlValue (PVal (JStr (kind schema))))] values).
End node.
