(* ===== verification/NodeFacts.v ===== *)
(** * Facts on nodes

    The theorems on [Node]: the values of a node that is created are valid, the errors of a
    creation are all reported, and saving a node saves each of its attributes. *)

From stdpp Require Import prelude strings.
From S2P Require Import Prelude PyString PyDict SdkUtils Constants HashModel SchemaDefs NodeSchemaOps RelationshipList PyValue Enums PropertyMixin Branch Query Attribute AttributeObject AttributeFacts RelationshipManager NodeRead Node.

#[local] Open Scope Z_scope.

Section facts.
Context `{SetOrder} (lib : Libraries) (db : NodeDatabase) (global_branch : Branch).
Context (schema : MainSchema) (branch : Branch) (new_uuid : nat → string).

(** ** Creation *)

(** The fields that are not known, and the mandatory ones that are missing, are all
    reported, before anything is made. *)
Lemma process_fields_refused fields s :
  input_errors schema (nd_existing (node s)) fields ≠ [] →
  ∃ s', _process_fields lib schema branch fields s = (Err (ValidationErrors (input_errors schema (nd_existing (node s)) fields)), s') ∧
    nd_attributes (node s') = nd_attributes (node s) ∧ nd_relationships (node s') = nd_relationships (node s) ∧ node_queries s' = node_queries s.
Proof.
  intros Hne. eexists. unfold _process_fields. do 2 erewrite exec_step by reflexivity. cbn [node].
  match goal with |- context [nd_existing ?n] => change (nd_existing n) with (nd_existing (node s)) end. destruct (input_errors schema (nd_existing (node s)) fields); [done|]. by split_and!.
Qed.

(** An attribute whose value is accepted. *)
Definition valid_object (a : AttributeSchema) (obj : BaseAttribute) : Prop :=
  ∃ cls, get_class a = Ok cls ∧ validate lib cls (at_value obj) (a_name a) a = Ok tt.

(** What the steps of a creation keep: the attributes already made, but [except], and what
    is not made by parts. *)
Record keeps_attributes (except : option string) (n n' : Node) : Prop := {
  ka_id : nd_id n' = nd_id n;
  ka_attribute_names : nd_attribute_names n' = nd_attribute_names n;
  ka_relationship_names : nd_relationship_names n' = nd_relationship_names n;
  ka_attributes name : Some name ≠ except → dict_get (nd_attributes n') name = dict_get (nd_attributes n) name;
}.
Lemma keeps_refl except n : keeps_attributes except n n.
Proof. by split. Qed.
Lemma keeps_trans except n1 n2 n3 : keeps_attributes except n1 n2 → keeps_attributes except n2 n3 → keeps_attributes except n1 n3.
Proof. intros [H1 H2 H3 H4] [K1 K2 K3 K4]. split; [congruence..|]. intros name Hn. by rewrite K4, H4. Qed.
Lemma keeps_weaken except n1 n2 : keeps_attributes None n1 n2 → keeps_attributes except n1 n2.
Proof. intros [H1 H2 H3 H4]. split; [done..|]. intros name _. by apply H4. Qed.

Lemma run_attribute_keeps {A} name (m : Exec AttrState A) a s : keeps_attributes (Some name) (node s) (node (run_attribute name m a s).2).
Proof. unfold run_attribute. destruct (m _) as [r st]. split; try done. intros n Hn. apply dict_get_set_ne. congruence. Qed.
Lemma run_relationship_keeps {A} name (m : Exec ManagerState A) r s : keeps_attributes None (node s) (node (run_relationship name m r s).2).
Proof. unfold run_relationship. by destruct (m _) as [res st]. Qed.

(** *** One attribute *)

Lemma run_attribute_get {A} name (m : Exec AttrState A) a s :
  ∃ obj, dict_get (nd_attributes (node (run_attribute name m a s).2)) name = Some obj.
Proof. unfold run_attribute. destruct (m _) as [r st]. exists (attr st). apply dict_get_set_eq. Qed.
Lemma generate_attribute_ok a field s s' :
  generate_attribute lib schema branch a field s = (Ok tt, s') →
  keeps_attributes (Some (a_name a)) (node s) (node s') ∧ (∃ obj, dict_get (nd_attributes (node s')) (a_name a) = Some obj) ∧ is_ok (get_class a) = true.
Proof.
  unfold generate_attribute. destruct (_generate_attribute_default _ _ _ a field s) as [[[]|e] s1] eqn:Hg; intros [= ->]; revert Hg.
  unfold _generate_attribute_default. destruct (get_class a) as [cls|e]; [|done]. do 2 erewrite exec_step by reflexivity.
  destruct (attribute_input field) as [data|]; [|done]. erewrite exec_step by reflexivity. intros Hrun.
  pose proof (run_attribute_keeps (a_name a) (attribute_init lib (attribute_info schema branch (node s) a cls) data
    [("source", nd_source (node s)); ("owner", nd_owner (node s))] []) (init_object (PVal JNull) None None (nd_at (node s)) false false) s) as Hk.
  pose proof (run_attribute_get (a_name a) (attribute_init lib (attribute_info schema branch (node s) a cls) data
    [("source", nd_source (node s)); ("owner", nd_owner (node s))] []) (init_object (PVal JNull) None None (nd_at (node s)) false false) s) as Hget.
  rewrite Hrun in Hk, Hget. by split_and!.
Qed.

Lemma process_attribute_ok fields a s s' :
  get_attribute_or_none schema (a_name a) = Some a → has_id (node s) = false →
  process_attribute lib schema branch fields a s = (Ok tt, s') →
  keeps_attributes (Some (a_name a)) (node s) (node s') ∧ ∃ obj, dict_get (nd_attributes (node s')) (a_name a) = Some obj ∧ valid_object a obj.
Proof.
  intros Hfind Hid. unfold process_attribute. rewrite exec_bind_ok. intros ([] & s1 & Hg & Hrun).
  apply generate_attribute_ok in Hg as (Hk & (obj & Hobj) & Hcls).
  revert Hrun. erewrite exec_step by reflexivity. unfold has_id in *. rewrite (ka_id _ _ _ Hk), Hid. unfold on_attribute.
  erewrite exec_step by reflexivity. rewrite Hobj. erewrite exec_step by reflexivity. unfold attribute_schema_of. rewrite Hfind.
  erewrite exec_step by reflexivity. destruct (get_class a) as [cls|] eqn:Hc; [|done]. erewrite exec_step by reflexivity.
  unfold run_attribute. erewrite exec_step by reflexivity. unfold lift, validate_self. cbn [ai_class ai_name ai_schema attribute_info attr].
  destruct (validate lib cls (at_value obj) (a_name a) a) as [[]|] eqn:Hv; [|done]. cbn. intros [= <-]. split.
  - eapply keeps_trans; [exact Hk|]. split; try done. intros name Hn. cbn. apply dict_get_set_ne. congruence.
  - exists obj. split; [apply dict_get_set_eq|]. by exists cls.
Qed.

(** *** All of them *)

(** No error collected: every step returned. *)
Lemma collect_errors_ok {B} (f : B → Exec NodeState unit) l s s' :
  collect_errors f l s = (Ok [], s') → for_each f l s = (Ok tt, s').
Proof.
  revert s. induction l as [|x l IH]; intros s; cbn [collect_errors for_each]; [by intros [= ->]|].
  rewrite exec_bind_ok. intros (errors & s1 & Hx & Hrest). apply exec_bind_ok in Hrest as (rest & s2 & Hl & Hend).
  injection Hend as Happ ->. apply app_nil in Happ as [-> ->].
  assert (f x s = (Ok tt, s1)) as Hf.
  { unfold try_validation in Hx. destruct (f x s) as [[[]|e] s1']; [by injection Hx as ->|]. by destruct e. }
  erewrite exec_step by exact Hf. by apply IH.
Qed.

(** Each attribute has an object, of which something is known. *)
Definition has_objects (P : AttributeSchema → BaseAttribute → Prop) (n : Node) (l : list AttributeSchema) : Prop :=
  ∀ a, a ∈ l → ∃ obj, dict_get (nd_attributes n) (a_name a) = Some obj ∧ P a obj.
(** What making one attribute gives, for the nodes with this id. *)
Definition makes (P : AttributeSchema → BaseAttribute → Prop) (id : option string) (fields : list (string * Field)) : Prop :=
  ∀ a s s', get_attribute_or_none schema (a_name a) = Some a → nd_id (node s) = id →
    process_attribute lib schema branch fields a s = (Ok tt, s') →
    keeps_attributes (Some (a_name a)) (node s) (node s') ∧ ∃ obj, dict_get (nd_attributes (node s')) (a_name a) = Some obj ∧ P a obj.
Record attributes_done (P : AttributeSchema → BaseAttribute → Prop) (n0 n : Node) (done : list AttributeSchema) : Prop := {
  ad_id : nd_id n = nd_id n0;
  ad_names : nd_attribute_names n = nd_attribute_names n0 ++ (a_name <$> done);
  ad_relationships : nd_relationship_names n = nd_relationship_names n0;
  ad_objects : has_objects P n done;
}.
Lemma attributes_loop P fields s s' :
  NoDup (a_name <$> n_attributes schema) → makes P (nd_id (node s)) fields →
  for_each (λ a, _ ← on_node (λ n, n <| nd_attribute_names := nd_attribute_names n ++ [a_name a] |>); process_attribute lib schema branch fields a)
    (n_attributes schema) s = (Ok tt, s') →
  attributes_done P (node s) (node s') (n_attributes schema).
Proof.
  intros Hnd HP Hrun.
  pose proof (wp_for_each (λ done s', attributes_done P (node s) (node s') done) (λ _ _, True)
    (λ a, _ ← on_node (λ n, n <| nd_attribute_names := nd_attribute_names n ++ [a_name a] |>); process_attribute lib schema branch fields a)
    (n_attributes schema) s) as Hwp.
  unfold wp in Hwp. rewrite Hrun in Hwp. apply Hwp; clear Hwp Hrun s'.
  - intros done a todo s1 Hl [H1 H2 H3 H4].
    set (n1 := (node s1) <| nd_attribute_names := nd_attribute_names (node s1) ++ [a_name a] |>).
    erewrite exec_step by reflexivity. destruct (process_attribute _ _ _ fields a _) as [[[]|] s2] eqn:Hp; [|done]. cbn [fst snd].
    apply HP in Hp as [[K1 K2 K3 K4] Hobject].
    + split; [by rewrite K1|rewrite K2; cbn; by rewrite H2, fmap_app, app_assoc|by rewrite K3|].
      intros b [Hb|Hb]%elem_of_app; [|by apply list_elem_of_singleton in Hb as ->].
      destruct (H4 b Hb) as (obj & Hobj & Hb'). exists obj. split; [|done]. rewrite K4; [done|].
      intros [= Heq]. rewrite Hl, fmap_app in Hnd. apply NoDup_app in Hnd as (_ & Hdisj & _).
      apply (Hdisj (a_name b)); [by apply list_elem_of_fmap_2|]. rewrite fmap_cons, Heq. left.
    + unfold get_attribute_or_none. rewrite Hl. clear -Hnd Hl. rewrite Hl in Hnd. clear Hl.
      induction done as [|b done IH]; cbn in *; [by rewrite bool_decide_eq_true_2|]. apply NoDup_cons in Hnd as [Hb Hnd].
      rewrite bool_decide_eq_false_2; [by apply IH|]. intros Heq. apply Hb. rewrite Heq, fmap_app, fmap_cons. set_solver.
    + by cbn.
  - split; [done|by rewrite app_nil_r|done|by intros a ?%elem_of_nil].
Qed.

Record relationships_done (n0 n : Node) (done : list RelationshipSchema) : Prop := {
  rd_id : nd_id n = nd_id n0;
  rd_attribute_names : nd_attribute_names n = nd_attribute_names n0;
  rd_attributes : nd_attributes n = nd_attributes n0;
  rd_names : nd_relationship_names n = nd_relationship_names n0 ++ (r_name <$> done);
}.
Lemma process_relationship_keeps fields r s :
  let n' := node (process_relationship schema branch fields r s).2 in
  nd_id n' = nd_id (node s) ∧ nd_attribute_names n' = nd_attribute_names (node s) ∧ nd_attributes n' = nd_attributes (node s) ∧
  nd_relationship_names n' = nd_relationship_names (node s).
Proof.
  unfold process_relationship, _generate_relationship_default. erewrite exec_step by reflexivity.
  destruct (relationship_input _) as [data|]; [|by erewrite exec_err by reflexivity]. erewrite exec_step by reflexivity.
  unfold run_relationship. by destruct (rm_init _ data _) as [[[]|e] st].
Qed.
Lemma relationships_loop fields s s' :
  for_each (λ r, _ ← on_node (λ n, n <| nd_relationship_names := nd_relationship_names n ++ [r_name r] |>); process_relationship schema branch fields r)
    (n_relationships schema) s = (Ok tt, s') →
  relationships_done (node s) (node s') (n_relationships schema).
Proof.
  intros Hrun.
  pose proof (wp_for_each (λ done s', relationships_done (node s) (node s') done) (λ _ _, True)
    (λ r, _ ← on_node (λ n, n <| nd_relationship_names := nd_relationship_names n ++ [r_name r] |>); process_relationship schema branch fields r)
    (n_relationships schema) s) as Hwp.
  unfold wp in Hwp. rewrite Hrun in Hwp. apply Hwp; clear Hwp Hrun s'.
  - intros done r todo s1 _ [H1 H2 H3 H4]. erewrite exec_step by reflexivity.
    destruct (process_relationship_keeps fields r (s1 <| node := (node s1) <| nd_relationship_names := nd_relationship_names (node s1) ++ [r_name r] |> |>))
      as (K1 & K2 & K3 & K4).
    destruct (process_relationship _ _ fields r _) as [[[]|] s2]; [|done]. cbn [fst snd] in *.
    split; [by rewrite K1|by rewrite K2|by rewrite K3|]. rewrite K4. cbn. by rewrite H4, fmap_app, app_assoc.
  - split; [done..|]. by rewrite app_nil_r.
Qed.

Lemma process_label_keeps s s' : process_label s = (Ok tt, s') →
  keeps_attributes (if has_id (node s) then None else Some "label") (node s) (node s').
Proof.
  unfold process_label. erewrite exec_step by reflexivity. destruct (has_id (node s)); [intros [= <-]; apply keeps_refl|].
  destruct (dict_get (nd_attributes (node s)) "label") as [label|], (dict_get (nd_attributes (node s)) "name") as [name|];
    repeat match goal with |- context [if ?b then _ else _] => destruct b end; try (by intros [= <-]; apply keeps_refl); try done.
  destruct (at_value name) as [[]| |]; try done. intros [= <-]. split; try done. intros n Hn. cbn. apply dict_get_set_ne. congruence.
Qed.

(** The node that the fields make. *)
Record node_made (P : AttributeSchema → BaseAttribute → Prop) (n0 n : Node) : Prop := {
  nm_id : nd_id n = nd_id n0;
  nm_attribute_names : nd_attribute_names n = nd_attribute_names n0 ++ attribute_names schema;
  nm_relationship_names : nd_relationship_names n = nd_relationship_names n0 ++ relationship_names schema;
  nm_objects a : a ∈ n_attributes schema → has_id n0 = true ∨ a_name a ≠ "label" →
    ∃ obj, dict_get (nd_attributes n) (a_name a) = Some obj ∧ P a obj;
}.
Lemma process_fields_ok P fields s s' :
  NoDup (attribute_names schema) → makes P (nd_id (node s)) fields →
  _process_fields lib schema branch fields s = (Ok tt, s') → node_made P (node s) (node s').
Proof.
  intros Hnd HP. unfold _process_fields. do 2 erewrite exec_step by reflexivity. cbn [node].
  match goal with |- context [nd_existing ?n] => change (nd_existing n) with (nd_existing (node s)) end.
  destruct (input_errors schema (nd_existing (node s)) fields) as [|e errors]; [|done]. erewrite exec_step by reflexivity.
  rewrite exec_bind_ok. intros (ae & s1 & Ha & Hrun). apply exec_bind_ok in Hrun as (re & s2 & Hr & Hrun).
  destruct (ae ++ re) as [|err errs] eqn:Happ; [|done]. apply app_nil in Happ as [-> ->].
  apply collect_errors_ok in Ha. apply collect_errors_ok in Hr. apply (attributes_loop P) in Ha as [A1 A2 A3 A4]; [|done|done].
  apply relationships_loop in Hr as [R1 R2 R3 R4]. revert Hrun. do 2 erewrite exec_step by reflexivity. intros Hlabel.
  assert (keeps_attributes (if has_id (node s) then None else Some "label") (node s2) (node s')) as [K1 K2 K3 K4].
  { assert (has_id (node s2) = has_id (node s)) as <- by (unfold has_id; by rewrite R1, A1).
    destruct (bool_decide _); [by apply process_label_keeps|]. injection Hlabel as <-. apply keeps_refl. }
  split; [by rewrite K1, R1, A1|by rewrite K2, R2, A2|by rewrite K3, R4, A3|].
  intros a Hin Hne. destruct (A4 a Hin) as (obj & Hobj & Ha'). exists obj. split; [|done].
  rewrite K4; [by rewrite R3|]. destruct (has_id (node s)); [done|]. destruct Hne as [|Hne]; [done|congruence].
Qed.

(** A node that is created has the names of its schema, a valid id, and a valid value for
    each attribute but the label, which [process_label] writes after the validation. *)
Lemma input_errors_nil existing fields : input_errors schema existing fields = [] →
  (∀ name, name ∈ dict_keys fields → name ∈ valid_input_names schema) ∧
  (existing = false → ∀ name, name ∈ mandatory_attribute_names schema ++ mandatory_relationship_names schema → name ∈ dict_keys fields).
Proof.
  unfold input_errors. intros [H1 H2]%app_nil. apply fmap_nil_inv in H1. split.
  - intros name Hin. destruct (decide (name ∈ valid_input_names schema)) as [|Hn]; [done|].
    assert (name ∈ filter (λ name, name ∉ valid_input_names schema) (dict_keys fields)) as Hf by by apply list_elem_of_filter.
    rewrite H1 in Hf. by apply elem_of_nil in Hf.
  - intros -> name Hin. apply fmap_nil_inv in H2. destruct (decide (name ∈ dict_keys fields)) as [|Hn]; [done|].
    assert (name ∈ filter (λ name, name ∉ dict_keys fields) (mandatory_attribute_names schema ++ mandatory_relationship_names schema)) as Hf
      by by apply list_elem_of_filter.
    rewrite H2 in Hf. by apply elem_of_nil in Hf.
Qed.

(** C11: [Node.new], on a node with no part yet: when it returns, every field given is known to
    the schema and every mandatory one is given; the node has the names of the attributes
    and of the relationships of the schema, in order, the value of every attribute but
    [label] was accepted by [validate] for the class of its kind, and the node has the id
    given, which is a UUID, or else a new one. *)
Theorem node_new_valid id fields at_ f q s' :
  NoDup (attribute_names schema) →
  node_new lib db schema branch new_uuid id fields (mkNodeState (new_node at_) f q) = (Ok tt, s') →
  (∀ name, name ∈ dict_keys fields → name ∈ valid_input_names schema) ∧
  (∀ name, name ∈ mandatory_attribute_names schema ++ mandatory_relationship_names schema → name ∈ dict_keys fields) ∧
  nd_attribute_names (node s') = attribute_names schema ∧ nd_relationship_names (node s') = relationship_names schema ∧
  (∀ a, a ∈ n_attributes schema → a_name a ≠ "label" →
     ∃ obj cls, dict_get (nd_attributes (node s')) (a_name a) = Some obj ∧ get_class a = Ok cls ∧ validate lib cls (at_value obj) (a_name a) a = Ok tt) ∧
  (if truthy_str id then nd_id (node s') = id ∧ is_valid_uuid (default "" id) = true
   else ∃ k, nd_id (node s') = Some (new_uuid k)).
Proof.
  intros Hnd. unfold node_new. rewrite exec_bind_ok. intros ([] & s1 & Hid & Hrun).
  assert (node s1 = new_node at_ ∧ (truthy_str id = true → is_valid_uuid (default "" id) = true)) as [Hnode Huuid].
  { destruct id as [[|c r]|]; [by injection Hid as <-| |by injection Hid as <-]. revert Hid.
    destruct (is_valid_uuid _) eqn:Hv; [|discriminate]. cbn [negb].
    do 2 erewrite exec_step by reflexivity. destruct (_ =? 0); [|discriminate]. intros [= <-]. by split. }
  apply exec_bind_ok in Hrun as ([] & s2 & Hf & Hrun). pose proof Hf as Hf'.
  apply (process_fields_ok valid_object) in Hf as [_ M1 M2 M3]; [|done|].
  2: { intros a s3 s4 Ha Hid3. apply process_attribute_ok; [done|]. unfold has_id. by rewrite Hid3, Hnode. }
  rewrite Hnode in M1, M2. change (nd_attribute_names (node s2) = attribute_names schema) in M1.
  change (nd_relationship_names (node s2) = relationship_names schema) in M2.
  destruct (input_errors schema (nd_existing (node s1)) fields) as [|e es] eqn:He.
  2:{ destruct (process_fields_refused fields s1) as (s3 & Hr & _); [by rewrite He|]. by rewrite Hr in Hf'. }
  rewrite Hnode in He. apply input_errors_nil in He as [Hknown Hmandatory]. revert Hrun. erewrite exec_step by reflexivity.
  intros Hend. split_and!; [done|by apply Hmandatory| | | |].
  - rewrite <- M1. by destruct id as [[|c r]|]; injection Hend as <-.
  - rewrite <- M2. by destruct id as [[|c r]|]; injection Hend as <-.
  - intros a Hin Hne. destruct (M3 a Hin (or_intror Hne)) as (obj & Hobj & cls & Hc). exists obj, cls. split; [|done].
    by destruct id as [[|c r]|]; injection Hend as <-.
  - destruct id as [[|c r]|]; injection Hend as <-; [by eexists| |by eexists]. split; [done|by apply Huuid].
Qed.

(** ** Saving *)

(** The queries of an attribute, in order. *)
Definition queries_of (name : string) (log : list NodeQuery) : list AttrQuery :=
  omap (λ q, match q with OfAttribute n q => if bool_decide (n = name) then Some q else None | _ => None end) log.
Lemma queries_of_app name l1 l2 : queries_of name (l1 ++ l2) = queries_of name l1 ++ queries_of name l2.
Proof. apply omap_app. Qed.
Lemma queries_of_attribute name qs : queries_of name (OfAttribute name <$> qs) = qs.
Proof. induction qs as [|q qs IH]; cbn; [done|]. rewrite bool_decide_eq_true_2 by done. by f_equal. Qed.
Lemma queries_of_other name name' qs : name' ≠ name → queries_of name (OfAttribute name' <$> qs) = [].
Proof. intros Hn. induction qs as [|q qs IH]; cbn; [done|]. by rewrite bool_decide_eq_false_2. Qed.
Lemma queries_of_relationship name name' qs : queries_of name (OfRelationship name' <$> qs) = [].
Proof. by induction qs. Qed.
#[local] Arguments queries_of : simpl never.

(** The row of an attribute only changes with the queries of this attribute. *)
Definition own_rows : Prop := ∀ log1 log2 name,
  queries_of name log1 = queries_of name log2 → nb_current db log1 name = nb_current db log2 name.

(** An attribute that comes from the database, with a valid value and its row. *)
Record savable (s : NodeState) (name : string) (a : BaseAttribute) (info : AttributeInfo) (cur : CurrentAttribute) : Prop := {
  sv_object : dict_get (nd_attributes (node s)) name = Some a;
  sv_info : ∃ attr_schema cls, attribute_schema_of schema name = Ok attr_schema ∧ get_class attr_schema = Ok cls ∧
    info = attribute_info schema branch (node s) attr_schema cls;
  sv_ok : object_ok info a;
  sv_id : truthy_value (at_id a) = true;
  sv_profile : truthy_value (at_is_from_profile a) = false;
  sv_valid : validate_self lib info (at_value a) = Ok tt;
  sv_current : nb_current db (node_queries s) name [] = Some cur;
  sv_row : row_ok cur;
}.
(** What the call at the time [t], from [s], did of the attribute: it executed queries after
    which the row holds the object. *)
Definition saved (t : Z) (s s' : NodeState) (name : string) : Prop :=
  ∃ a info cur qs, savable s name a info cur ∧ dict_get (nd_attributes (node s')) name = Some (reset_default info a) ∧
    queries_of name (node_queries s') = queries_of name (node_queries s) ++ qs ∧ Forall (query_ok global_branch info t) qs ∧
    holds lib info (foldl apply_query (ca_data cur) qs) (reset_default info a).

(** Two states with the same node, but for its attributes other than [name]. *)
Record same_attribute (s s' : NodeState) (name : string) : Prop := {
  sa_attribute : dict_get (nd_attributes (node s')) name = dict_get (nd_attributes (node s)) name;
  sa_queries : queries_of name (node_queries s') = queries_of name (node_queries s);
}.
Lemma saved_same t s s1 s2 name : saved t s s1 name → same_attribute s1 s2 name → saved t s s2 name.
Proof. intros (a & info & cur & qs & H1 & H2 & H3 & H4 & H5) [K1 K2]. exists a, info, cur, qs. by rewrite K1, K2. Qed.

(** An attribute that [save] leaves alone: it is not in the database yet, or its value comes
    from a profile. *)
Record left_alone (s : NodeState) (name : string) (a : BaseAttribute) : Prop := {
  la_object : dict_get (nd_attributes (node s)) name = Some a;
  la_schema : ∃ attr_schema cls, attribute_schema_of schema name = Ok attr_schema ∧ get_class attr_schema = Ok cls;
  la_skip : negb (truthy_value (at_id a)) || truthy_value (at_is_from_profile a) = true;
}.
(** What the call does of an attribute. *)
Definition outcome (t : Z) (s s' : NodeState) (name : string) : Prop :=
  saved t s s' name ∨ ∃ a, left_alone s name a ∧ same_attribute s s' name.
Lemma same_attribute_trans s1 s2 s3 n : same_attribute s1 s2 n → same_attribute s2 s3 n → same_attribute s1 s3 n.
Proof. intros [H1 H2] [H3 H4]. split; congruence. Qed.
Lemma outcome_same t s s1 s2 name : outcome t s s1 name → same_attribute s1 s2 name → outcome t s s2 name.
Proof.
  intros [Hs|(a & Ha & Hs)] Hsame; [left; by eapply saved_same|right]. exists a. split; [done|].
  by eapply same_attribute_trans.
Qed.

(** What the loop keeps: the attributes done are saved or left alone, the others as they were. *)
Record saving (t : Z) (s : NodeState) (done : list string) (s1 : NodeState) : Prop := {
  sg_id : nd_id (node s1) = nd_id (node s);
  sg_db_id : nd_db_id (node s1) = nd_db_id (node s);
  sg_existing : nd_existing (node s1) = nd_existing (node s);
  sg_done name : name ∈ done → outcome t s s1 name;
  sg_todo name : name ∉ done → same_attribute s s1 name;
}.
(** One more attribute, whose object may have changed and for which some queries were executed *)
Lemma saving_step t s done s1 name a f qs :
  saving t s done s1 → name ∉ done →
  let s2 := mkNodeState ((node s1) <| nd_attributes := dict_set (nd_attributes (node s1)) name a |>) f
              (node_queries s1 ++ (OfAttribute name <$> qs)) in
  outcome t s s2 name → saving t s (done ++ [name]) s2.
Proof.
  intros [G1 G2 G3 Gd Gt] Hnot s2 Hout. split; cbn [node s2]; [done..| |].
  - intros n [Hn| ->%list_elem_of_singleton]%elem_of_app; [|done].
    eapply outcome_same; [by apply Gd|]. assert (name ≠ n) by congruence. split; cbn.
    + by apply dict_get_set_ne.
    + by rewrite queries_of_app, queries_of_other, app_nil_r.
  - intros n Hn. assert ((n ∉ done) ∧ name ≠ n) as [Hnd Hne] by set_solver. destruct (Gt n Hnd) as [Ka Kq]. split; cbn.
    + rewrite dict_get_set_ne; done.
    + by rewrite queries_of_app, queries_of_other, app_nil_r.
Qed.
Lemma save_attribute_saves t s done s1 name a info cur :
  own_rows → savable s name a info cur → saving t s done s1 → name ∉ done →
  ∃ s2, save_attribute lib db global_branch schema branch t name s1 = (Ok tt, s2) ∧ saving t s (done ++ [name]) s2.
Proof.
  intros Hrows Hs Hsaving Hnot. pose proof Hsaving as [G1 G2 G3 Gd Gt]. pose proof (Gt _ Hnot) as [Ga Gq].
  destruct Hs as [Hobj (attr_schema & cls & Hschema & Hcls & Hinfo) Hok Hid Hprof Hval Hcur Hrow].
  assert (attribute_info schema branch (node s1) attr_schema cls = info) as Hinfo1.
  { rewrite Hinfo. unfold attribute_info, as_peer. by rewrite G1, G2, G3. }
  destruct (attribute_save_run lib global_branch info (nb_current db (node_queries s1) name) (Some t) a (node_fresh s1) [] cur)
    as (f' & qs & Hrun & Hq & Hh & _); try done.
  { rewrite (Hrows _ (node_queries s)); done. }
  eexists. split.
  - unfold save_attribute. erewrite exec_step by reflexivity. erewrite exec_step; [reflexivity|]. unfold on_attribute.
    erewrite exec_step by reflexivity. rewrite Ga, Hobj. erewrite exec_step by reflexivity. rewrite Hschema.
    erewrite exec_step by reflexivity. rewrite Hcls. erewrite exec_step by reflexivity. unfold run_attribute.
    rewrite Hinfo1, Hrun. reflexivity.
  - cbn [attr fresh attr_queries app]. apply saving_step; [done..|]. left.
    exists a, info, cur, qs. split_and!; [|cbn; apply dict_get_set_eq| |done|done].
    + split; try done. by exists attr_schema, cls.
    + cbn. by rewrite queries_of_app, queries_of_attribute, Gq.
Qed.
Lemma save_attribute_skips t s done s1 name a :
  left_alone s name a → saving t s done s1 → name ∉ done →
  ∃ s2, save_attribute lib db global_branch schema branch t name s1 = (Ok tt, s2) ∧ saving t s (done ++ [name]) s2.
Proof.
  intros Hs Hsaving Hnot. pose proof Hsaving as [_ _ _ _ Gt]. pose proof (Gt _ Hnot) as [Ga Gq].
  pose proof Hs as [Hobj (attr_schema & cls & Hschema & Hcls) Hskip]. eexists. split.
  - unfold save_attribute. erewrite exec_step by reflexivity. erewrite exec_step; [reflexivity|]. unfold on_attribute.
    erewrite exec_step by reflexivity. rewrite Ga, Hobj. erewrite exec_step by reflexivity. rewrite Hschema.
    erewrite exec_step by reflexivity. rewrite Hcls. erewrite exec_step by reflexivity. unfold run_attribute, attribute_save.
    erewrite exec_step by reflexivity. cbn [attr]. rewrite Hskip. reflexivity.
  - cbn [attr fresh attr_queries app]. apply (saving_step _ _ _ _ _ _ _ []); [done..|]. right. exists a. split; [done|].
    split; cbn; [by rewrite dict_get_set_eq|]. by rewrite app_nil_r.
Qed.

Lemma on_relationship_keeps {A} name (m : RelationshipManager.Database → Manager → Exec ManagerState A) s n :
  same_attribute s ((on_relationship db schema branch name m s).2) n.
Proof.
  unfold on_relationship. erewrite exec_step by reflexivity. destruct (dict_get _ _) as [r|]; [|by erewrite exec_err by reflexivity].
  erewrite exec_step by reflexivity. unfold run_relationship. destruct (m _ _ _) as [res st]. split; [done|]. cbn.
  by rewrite queries_of_app, queries_of_relationship, app_nil_r.
Qed.
Lemma save_relationships_keep t l s n :
  same_attribute s ((for_each (save_relationship lib db global_branch schema branch t) l s).2) n.
Proof.
  revert s. induction l as [|name l IH]; intros s; [done|]. cbn [for_each].
  pose proof (on_relationship_keeps name (λ rdb rm, rm_save rdb global_branch (now lib) rm (Some t)) s n) as Hk.
  fold (save_relationship lib db global_branch schema branch t name) in Hk. unfold mbind, exec_bind.
  destruct (save_relationship _ _ _ _ _ _ name s) as [[[]|e] s1]; [|done].
  eapply same_attribute_trans; [exact Hk|apply IH].
Qed.

(** C12: [Node.save] of a node of the database whose attributes have distinct names and all
    are in the database with a valid value and their row, or else have no id yet or a value
    of a profile, when the row of an attribute only changes with the queries of this
    attribute: whatever becomes of its relationships after, the queries executed for each of
    the first leave its row with what the object holds (its value, its flags and its nodes),
    all of them at the one time of the call and on the branch of the attribute; the others
    are left as they are, without any query. *)
Theorem node_save_attributes at_ s :
  own_rows → nd_existing (node s) = true → NoDup (nd_attribute_names (node s)) →
  (∀ name, name ∈ nd_attribute_names (node s) → (∃ a info cur, savable s name a info cur) ∨ ∃ a, left_alone s name a) →
  ∀ name, name ∈ nd_attribute_names (node s) →
    let s' := (node_save lib db global_branch schema branch at_ s).2 in
    saved (Timestamp (now lib) at_) s s' name ∨ ∃ a, left_alone s name a ∧ same_attribute s s' name.
Proof.
  intros Hrows Hexisting Hnd Hall name Hin. set (t := Timestamp (now lib) at_). unfold node_save, node_update.
  erewrite exec_step by reflexivity. rewrite Hexisting. erewrite exec_step by reflexivity. fold t. change (Timestamp (now lib) (Some t)) with t.
  assert (∃ s1, for_each (save_attribute lib db global_branch schema branch t) (nd_attribute_names (node s)) s = (Ok tt, s1) ∧
    saving t s (nd_attribute_names (node s)) s1) as (s1 & Hrun & Hs).
  { enough (∀ done todo s0, nd_attribute_names (node s) = done ++ todo → saving t s done s0 →
      ∃ s1, for_each (save_attribute lib db global_branch schema branch t) todo s0 = (Ok tt, s1) ∧ saving t s (done ++ todo) s1) as Hloop.
    { apply (Hloop [] _ s); [done|]. split; try done. by intros n ?%elem_of_nil. }
    intros done todo. revert done. induction todo as [|n todo IH]; intros done s0 Hl Hs.
    { exists s0. by rewrite app_nil_r. }
    assert (n ∉ done) as Hnew.
    { rewrite Hl in Hnd. apply NoDup_app in Hnd as (_ & Hd & _). intros Hn. apply (Hd n Hn). left. }
    assert (∃ s1, save_attribute lib db global_branch schema branch t n s0 = (Ok tt, s1) ∧ saving t s (done ++ [n]) s1) as (s1 & Hrun & Hs1).
    { destruct (Hall n) as [(a & info & cur & Hsav)|(a & Hleft)]; [rewrite Hl; set_solver|..].
      - by apply (save_attribute_saves t s done s0 n a info cur).
      - by apply (save_attribute_skips t s done s0 n a). }
    destruct (IH (done ++ [n]) s1) as (s2 & Hrun2 & Hs2); [by rewrite <- app_assoc|done|]. exists s2. split.
    - cbn [for_each]. by rewrite (exec_step _ _ _ _ _ Hrun).
    - by rewrite <- app_assoc in Hs2. }
  rewrite (exec_step _ _ _ _ _ Hrun). eapply outcome_same; [by apply (sg_done _ _ _ _ Hs)|]. apply save_relationships_keep.
Qed.
End facts.

(** ** Findings *)

(** Nothing in the graph, and no row but [demo_row]. *)
Definition demo_node_db : NodeDatabase :=
  mkNodeDatabase (λ _ name _, if bool_decide (name = "address") then Some demo_row else None) (λ _ _ _, [])
    (λ _ _, RelationshipManager.mkDatabase (λ _ _ _, []) (λ _ _ _ _, None) (λ _ _ _, Err (ValueError "get_one")) (λ _ _, Ok None)
       (λ _ _, Ok None) (λ _ _, Ok None) (λ _ _ _, Err (ValueError "resource")) (λ _, Ok None) (λ _, None))
    (λ _, 0) (λ _, Err (ValueError "result")) (λ _, []) (λ _, None).
Definition demo_uuid (k : nat) : string := "17f2a0b1-0000-4000-8000-00000000000" +:+ py_str (JInt (Z.of_nat k)).
Definition with_attributes (attributes : list AttributeSchema) : MainSchema :=
  (SchemaDefs.new_node "Host" "Infra") <| n_attributes := attributes |>.
#[local] Abbreviation create schema fields :=
  (node_new demo_lib demo_node_db schema (test_branch "branch1" 2) demo_uuid None fields (mkNodeState (new_node 3) 0 [])).

(** [process_label] gives a node a label that its schema refuses: it is written once the
    attributes are validated. *)
Definition short_label : AttributeSchema := (new_attribute "label" "Text") <| a_optional := true |> <| a_max_length := Some 5 |>.
Lemma label_not_validated :
  let '(r, s) := create (with_attributes [new_attribute "name" "Text"; short_label]) [("name", FAttr (FromValue (PVal (JStr "core_switch"))))] in
  r = Ok tt ∧
  ∃ label, dict_get (nd_attributes (node s)) "label" = Some label ∧ at_value label = PVal (JStr "Core Switch") ∧
    is_ok (validate demo_lib ClsString (at_value label) "label" short_label) = false.
Proof. vm_compute. split; [done|]. by eexists. Qed.

(** The source given for the node is lost for the attributes given by a dict, and not for
    those given by a value. *)
Lemma node_source_lost :
  let attributes := [new_attribute "name" "Text"; new_attribute "address" "IPHost"] in
  let '(r, s) := create (with_attributes attributes)
    [("_source", FAttr (FromValue (PVal (JStr "source1")))); ("name", FAttr (FromValue (PVal (JStr "switch"))));
     ("address", FAttr (FromDict [("value", PVal (JStr "10.0.0.1"))]))] in
  let source name := get_node_id "source" ∘ at_properties <$> dict_get (nd_attributes (node s)) name in
  r = Ok tt ∧ source "name" = Some (JStr "source1") ∧ source "address" = Some JNull.
Proof. by vm_compute. Qed.

(** ** Witnesses *)

Definition demo_host : MainSchema := with_attributes [new_attribute "name" "Text"; host_schema].
Definition demo_fields : list (string * Field) :=
  [("name", FAttr (FromValue (PVal (JStr "switch")))); ("address", FAttr (FromValue (PVal (JStr "10.0.0.1"))))].
Lemma node_new_valid_witness :
  let '(r, s) := create demo_host demo_fields in
  r = Ok tt ∧ nd_attribute_names (node s) = ["name"; "address"] ∧
  ∃ obj cls, dict_get (nd_attributes (node s)) "address" = Some obj ∧ get_class host_schema = Ok cls ∧
    validate demo_lib cls (at_value obj) "address" host_schema = Ok tt.
Proof.
  destruct (create demo_host demo_fields) as [r s] eqn:Hc. assert (r = Ok tt) as ->.
  { change r with ((r, s).1). rewrite <- Hc. by vm_compute. }
  destruct (node_new_valid demo_lib demo_node_db demo_host (test_branch "branch1" 2) demo_uuid None demo_fields 3 0 [] s
    ltac:(apply (bool_decide_unpack _); by vm_compute) Hc)
    as (_ & _ & Hnames & _ & Hvalid & _).
  split_and!; [done|exact Hnames|]. apply (Hvalid host_schema); [|done]. right. left.
Defined.

Definition demo_saved : NodeState :=
  mkNodeState (mkNode (Some "n1") (Some "db1") true 0 None (PVal JNull) (PVal JNull) ["address"; "name"] []
    [("address", demo_object (PVal (JStr "10.0.0.2/24")));
     ("name", (demo_object (PVal (JStr "switch"))) <| at_is_from_profile := PVal (JBool true) |>)] []) 0 [].
Lemma node_save_attributes_witness :
  let _ := insertion_order in
  let s' := (node_save demo_lib demo_node_db (test_branch "-global-" 1) demo_host (test_branch "branch1" 2) (Some 5) demo_saved).2 in
  saved demo_lib demo_node_db (test_branch "-global-" 1) demo_host (test_branch "branch1" 2) 5 demo_saved s' "address".
Proof.
  destruct (node_save_attributes (H := insertion_order) demo_lib demo_node_db (test_branch "-global-" 1) demo_host (test_branch "branch1" 2) demo_uuid (Some 5) demo_saved)
    with (name := "address") as [Hs|(a & [Ha _ Hskip] & _)].
  - done.
  - done.
  - apply (bool_decide_unpack _). by vm_compute.
  - intros name [-> | ->%list_elem_of_singleton]%elem_of_cons; [left|right].
    + exists (demo_object (PVal (JStr "10.0.0.2/24"))), (attribute_info demo_host (test_branch "branch1" 2) (node demo_saved) host_schema ClsIPHost), demo_row.
      split; try done.
      * by exists host_schema, ClsIPHost.
      * split; [by eexists| | |].
        -- right. split; [eexists _, _; split; [reflexivity|by vm_compute]|]. eexists; split; [reflexivity|constructor].
        -- intros n Hn. by destruct (flag_cases n Hn) as [-> | ->]; eexists.
        -- intros n Hn. destruct (node_cases n Hn) as [-> | ->]; [right; by eexists|by left].
      * apply demo_current_ok.
    + exists ((demo_object (PVal (JStr "switch"))) <| at_is_from_profile := PVal (JBool true) |>). split; [done| |done].
      by exists (new_attribute "name" "Text"), ClsString.
  - left.
  - exact Hs.
  - injection Ha as <-. by vm_compute in Hskip.
Defined.
