(* ===== verification/NodeManager.v ===== *)
(** * Reading nodes

    [NodeManager] of [backend/infrahub/core/manager.py]: the nodes of given ids with their
    attributes, the values of their profiles and the peers of their relationships, one node
    by its id, its default filter or its human friendly id, and the deletion of nodes with
    those that depend on them.  The rows of the queries are parameters; what is made of
    them is [NodeRead], and [Node] makes the objects, with the schemas that
    [SchemaManager.get] finds ([backend/infrahub/core/schema_manager.py]). *)

From stdpp Require Import prelude strings.
From S2P Require Import Prelude PyString PyDict SdkUtils Constants HashModel SchemaDefs NodeSchemaOps SchemaStore RelationshipList PyValue Enums PropertyMixin Branch Query Attribute AttributeObject AttributeFacts RelationshipManager DeleteValidator NodeRead Node NodeFacts.

#[local] Open Scope Z_scope.

(** ** Data *)

(** An object that was read: the name of its class in the registry, its schema, itself. *)
Record Loaded := mkLoaded {
  ln_class : option string;
  ln_schema : MainSchema;
  ln_node : Node;
}.
#[export] Instance Loaded_rebuild : Rebuild Loaded := λ l, mkLoaded (ln_class l) (ln_schema l) (ln_node l).
(** The queries that read, once executed. *)
Record ManagerDatabase := mkManagerDatabase {
  md_info : list string → result Query;
  md_attributes : list string → option (list (string * json)) → result Query;
  md_relationships : list string → result Query;
  md_list : MainSchema → list (string * json) → option Z → result Query;
}.
(** The dictionary [fields] belongs to the caller. *)
Record ReadState := mkReadState {
  rs_fields : option (list (string * json));
  rs_fresh : nat;
}.
#[export] Instance ReadState_rebuild : Rebuild ReadState := λ s, mkReadState (rs_fields s) (rs_fresh s).

(** The list of nodes belongs to the caller; the queries of each node, in order. *)
Record DeleteState := mkDeleteState {
  ds_nodes : list Loaded;
  ds_fresh : nat;
  ds_graph : DependencyGraph;
  ds_queries : list (string * list NodeQuery);
}.
#[export] Instance DeleteState_rebuild : Rebuild DeleteState := λ s, mkDeleteState (ds_nodes s) (ds_fresh s) (ds_graph s) (ds_queries s).

(** [SchemaManager]: the cache that the branches share, their schemas, and the name of the
    default branch. *)
Record SchemaManager := mkSchemaManager {
  sm_cache : SchemaStore.Store;
  sm_branches : list (string * SchemaStore.SchemaBranch);
  sm_default_branch : string;
}.
Definition find_in (m : SchemaManager) (b : SchemaStore.SchemaBranch) (name : string) : result MainSchema :=
  SchemaStore.find (SchemaStore.mkBranchState (sm_cache m) b) name.
(** [get]: the schema of the branch, or of the default branch when the branch has none *)
Definition schema_get (m : SchemaManager) (branch_name name : string) : result MainSchema :=
  let of_default := b ← require (KeyError (sm_default_branch m)) (dict_get (sm_branches m) (sm_default_branch m)); find_in m b name in
  match dict_get (sm_branches m) branch_name with
  | Some b => match find_in m b name with Err (SchemaNotFoundError _) => of_default | r => r end
  | None => of_default
  end.
(** [get_schema_branch]: a branch that is not known has no schema *)
Definition get_schema_branch (m : SchemaManager) (name : string) : SchemaStore.BranchState :=
  SchemaStore.mkBranchState (sm_cache m) (default (SchemaStore.new_branch (Some name)) (dict_get (sm_branches m) name)).

Section manager.
Context `{SetOrder} (lib : Libraries) (db : ManagerDatabase) (branch : Branch).
(** The schemas, and the classes of the registry by kind. *)
Context (schemas : SchemaManager) (registry_node : list (string * string)).
Context (include_source include_owner : bool) (at_ : Z).

(** ** The nodes to read *)

Definition entity_labels (e : Neo4jEntity) : list string :=
  match dict_get (en_attrs e) "labels" with Some (JList l) => py_str <$> l | _ => [] end.
Fixpoint first_schema (labels : list string) : result (option MainSchema) :=
  match labels with
  | [] => Ok None
  | label :: labels =>
      match schema_get schemas (b_name branch) label with
      | Ok schema => if is_generic_schema schema then first_schema labels else Ok (Some schema)
      | Err (SchemaNotFoundError _) => first_schema labels
      | Err e => Err e
      end
  end.
Definition find_node_schema (node : Neo4jEntity) : result (option MainSchema) := first_schema (entity_labels node).

Definition inherit_from (schema : MainSchema) : list string :=
  match n_class schema with
  | NodeSchema p => np_inherit_from p
  | ProfileSchema p => pp_inherit_from p
  | GenericSchema _ => []
  end.
(** [None] is the class [Node]. *)
Definition identify_node_class (schema : MainSchema) : option string :=
  match dict_get registry_node (kind schema) with
  | Some cls => Some cls
  | None => head (omap (dict_get registry_node) (inherit_from schema))
  end.

(** The set of all the ids of the profiles. *)
Definition all_ids (ids_by_node : list (string * list string)) : list string := py_set (concat (dict_values ids_by_node)).

(** What is asked of a field: its names, or nothing. *)
Definition ask_value (asked : json) : result json :=
  match asked with
  | JDict d => Ok (JDict (if dict_mem d "value" then d else dict_set d "value" JNull))
  | JStr s => if str_contains "value" s then Ok asked else Err (TypeError "object does not support item assignment")
  | JList l => if bool_decide (JStr "value" ∈ l) then Ok asked else Err (TypeError "list indices must be integers or slices")
  | _ => Err (TypeError "argument is not iterable")
  end.
(** The priority of the profiles is asked too, in the dictionary of the caller. *)
Definition ask_priority (profile_ids : list string) : Exec ReadState unit :=
  s ← get_state;
  match rs_fields s, profile_ids with
  | Some ((_ :: _) as fields), _ :: _ =>
      let fields := dict_setdefault fields "profile_priority" (JDict []) in
      _ ← modify (λ s, s <| rs_fields := Some fields |>);
      asked ← lift (ask_value (default JNull (dict_get fields "profile_priority")));
      modify (λ s, s <| rs_fields := Some (dict_set fields "profile_priority" asked) |>)
  | _, _ => mret tt
  end.

(** ** The data of a node *)

Definition attribute_fields (attributes : list (string * NodeAttributesFromDB)) (node_id : string) : list (string * Field) :=
  match dict_get attributes node_id with
  | Some row => (λ kv, (kv.1, FAttr (FromDB kv.2))) <$> na_attrs row
  | None => []
  end.

Definition loaded_peer (peer : option Loaded) : RelationshipInput :=
  InValue (match peer with Some l => PNode (as_peer (ln_schema l) (ln_node l)) | None => PVal JNull end).
Definition relationship_field (peer_ids : list (string * list string)) (peers : list (string * Loaded)) (r : RelationshipSchema) : option Field :=
  identifier ← r_identifier r;
  ids ← dict_get peer_ids identifier;
  let rel_peers := loaded_peer ∘ dict_get peers <$> ids in
  if bool_decide (r_cardinality r = RelationshipCardinality.ONE)
  then match rel_peers with [p] => Some (FRel (inl p)) | _ => None end
  else Some (FRel (inr rel_peers)).
Definition relationship_fields (peers_per_node : list (string * list (string * list string))) (peers : list (string * Loaded))
    (node_id : string) (schema : MainSchema) : list (string * Field) :=
  match dict_get peers_per_node node_id with
  | Some peer_ids => omap (λ r, pair (r_name r) <$> relationship_field peer_ids peers r) (n_relationships schema)
  | None => []
  end.

(** What [load] is given: the attributes, then the relationships; none of them has the
    name of a parameter of [load]. *)
Definition node_data (attributes : list (string * NodeAttributesFromDB))
    (prefetched : option (list (string * list (string * list string)) * list (string * Loaded))) (info : NodeToProcess) (schema : MainSchema) :
    list (string * Field) :=
  let data := attribute_fields attributes (np_node_uuid info) in
  match prefetched with
  | Some (peers_per_node, (_ :: _) as peers) => dict_update data (relationship_fields peers_per_node peers (np_node_uuid info) schema)
  | _ => data
  end.

(** ** [get_many] *)

Definition load_node (info : NodeToProcess) (schema : MainSchema) (data : list (string * Field)) : Exec ReadState Loaded := λ s,
  let '(r, st) := node_load lib schema branch (Some (np_node_uuid info)) (Some (np_node_id info)) (np_updated_at info) data
                    (mkNodeState (new_node at_) (rs_fresh s) []) in
  (match r with Ok _ => Ok (mkLoaded (identify_node_class schema) schema (node st)) | Err e => Err e end, s <| rs_fresh := node_fresh st |>).

Section load_nodes.
Context (infos : list (string * NodeToProcess)) (attributes : list (string * NodeAttributesFromDB)) (index : ProfileAttributeIndex).
Context (prefetched : option (list (string * list (string * list string)) * list (string * Loaded))).

Definition load_one (nodes : list (string * Loaded)) (node_id : string) : Exec ReadState (list (string * Loaded)) :=
  match dict_get infos node_id with
  | None => mret nodes
  | Some info =>
      schema ← lift (require (SchemaNotFoundError node_id) (np_schema info));
      data ← lift (apply_profiles index node_id (node_data attributes prefetched info schema));
      item ← load_node info schema data;
      mret (dict_set nodes node_id item)
  end.
Fixpoint load_nodes (nodes : list (string * Loaded)) (ids : list string) : Exec ReadState (list (string * Loaded)) :=
  match ids with
  | [] => mret nodes
  | id :: ids => nodes ← load_one nodes id; load_nodes nodes ids
  end.
End load_nodes.

(** What the first two queries give: the nodes, the profiles of each, the attributes. *)
Record NodeRows := mkNodeRows {
  nr_infos : list (string * NodeToProcess);
  nr_profile_ids : list (string * list string);
  nr_attributes : list (string * NodeAttributesFromDB);
}.
Definition read_rows (ids : list string) : Exec ReadState NodeRows :=
  info_query ← lift (md_info db ids);
  infos ← lift (get_nodes find_node_schema info_query);
  profile_ids ← lift (get_profile_ids_by_node_id info_query);
  let infos := dict_of_list ((λ info, (np_node_uuid info, info)) <$> infos) in
  _ ← ask_priority (all_ids profile_ids);
  s ← get_state;
  attribute_query ← lift (md_attributes db (dict_keys infos ++ set_list (all_ids profile_ids)) (rs_fields s));
  attributes ← lift (get_attributes_group_by_node include_source include_owner attribute_query);
  mret (mkNodeRows infos profile_ids attributes).

(** The attributes of the profiles, and those of the other nodes. *)
Definition of_profiles (rows : NodeRows) : list (string * NodeAttributesFromDB) :=
  filter (λ kv, kv.1 ∈ all_ids (nr_profile_ids rows)) (nr_attributes rows).
Definition of_nodes (rows : NodeRows) : list (string * NodeAttributesFromDB) :=
  filter (λ kv, kv.1 ∉ all_ids (nr_profile_ids rows)) (nr_attributes rows).
Definition profile_index (rows : NodeRows) : ProfileAttributeIndex := mkProfileIndex (of_profiles rows) (nr_profile_ids rows).

Definition get_many_rows (rows : NodeRows) (prefetched : option (list (string * list (string * list string)) * list (string * Loaded)))
    (ids : list string) : Exec ReadState (list (string * Loaded)) :=
  load_nodes (nr_infos rows) (of_nodes rows) (profile_index rows) prefetched [] ids.
(** Without the relationships: the peers are read so, with all their fields. *)
Definition get_many_plain (ids : list string) : Exec ReadState (list (string * Loaded)) :=
  rows ← read_rows ids; get_many_rows rows None ids.
(** A call with other fields: none. *)
Definition other_read {A} (m : Exec ReadState A) : Exec ReadState A := λ s,
  let '(r, st) := m (mkReadState None (rs_fresh s)) in (r, s <| rs_fresh := rs_fresh st |>).
Definition get_peers_of (ids : list string) : Exec ReadState (list (string * list (string * list string)) * list (string * Loaded)) :=
  relationship_query ← lift (md_relationships db ids);
  peers_per_node ← lift (get_peers_group_by_node relationship_query);
  let peer_ids := set_list (py_set (concat (concat (dict_values <$> dict_values peers_per_node)))) in
  peers ← other_read (get_many_plain peer_ids);
  mret (peers_per_node, peers).
Definition get_many (prefetch_relationships : bool) (ids : list string) : Exec ReadState (list (string * Loaded)) :=
  rows ← read_rows ids;
  prefetched ← (if prefetch_relationships then p ← get_peers_of ids; mret (Some p) else mret None);
  get_many_rows rows prefetched ids.

(** ** One node *)

Definition kind_validation_exceptions : list (string * string) := [("CoreChangeThread", "CoreObjectThread")].
(** [kind] empty is no kind. *)
Definition of_kind (kind_ : string) (schema : MainSchema) : bool :=
  bool_decide (kind_ = "") || bool_decide (kind schema = kind_) || bool_decide (kind_ ∈ inherit_from schema).
Definition get_one (prefetch_relationships : bool) (kind_ : option string) (id : string) : Exec ReadState (option Loaded) :=
  nodes ← get_many prefetch_relationships [id];
  match nodes with
  | [] => mret None
  | _ =>
      node ← lift (require (KeyError id) (dict_get nodes id));
      let k := default "" kind_ in
      if of_kind k (ln_schema node) || bool_decide ((k, kind (ln_schema node)) ∈ kind_validation_exceptions) then mret (Some node)
      else raise (NodeNotFoundError id)
  end.

(** ** [query] *)

Definition get_node_ids (q : Query) : result (list string) :=
  mapM (λ r, item ← get_item r "n.uuid";
             match item with IValue v => Ok (py_str v) | _ => Err (TypeError "the column is a property") end) (get_results q).
(** [fields = deep_merge_dict(dicta=fields, dictb=extra)], which changes the dictionary *)
Definition merge_fields (asked : string) (extra : result (option (list (string * json)))) : Exec ReadState unit :=
  s ← get_state;
  match rs_fields s with
  | Some ((_ :: _) as fields) =>
      if dict_mem fields asked then
        extra ← lift extra;
        match extra with
        | Some ((_ :: _) as extra) =>
            fields ← lift (deep_merge_dict (JDict extra) fields []);
            modify (λ s, s <| rs_fields := Some fields |>)
        | _ => mret tt
        end
      else mret tt
  | _ => mret tt
  end.
Definition nm_query (prefetch_relationships : bool) (schema : MainSchema) (filters : list (string * json)) (limit : option Z) :
    Exec ReadState (list Loaded) :=
  list_query ← lift (md_list db schema filters limit);
  node_ids ← lift (get_node_ids list_query);
  _ ← merge_fields "display_label" (SchemaStore.generate_fields_for_display_label (kind schema) (get_schema_branch schemas (b_name branch))).1;
  _ ← merge_fields "hfid" (Ok (generate_fields_for_hfid schema));
  response ← get_many prefetch_relationships node_ids;
  mret (dict_values response).

Definition one_item (identifier : string) (items : list Loaded) : result (option Loaded) :=
  match items with [] => Ok None | [item] => Ok (Some item) | _ => Err (NodeNotFoundError identifier) end.
Definition get_one_by_default_filter (prefetch_relationships raise_on_error : bool) (kind_ id : string) : Exec ReadState (option Loaded) :=
  schema ← lift (schema_get schemas (b_name branch) kind_);
  match n_default_filter schema with
  | Some (String c r) =>
      items ← nm_query prefetch_relationships schema [(String c r, JStr id)] (Some 2);
      item ← lift (one_item id items);
      match item with
      | None => if raise_on_error then raise (NodeNotFoundError id) else mret None
      | item => mret item
      end
  | _ => raise (NodeNotFoundError id)
  end.
Definition get_one_by_hfid (prefetch_relationships : bool) (kind_ : string) (hfid : list string) : Exec ReadState (option Loaded) :=
  let hfid_str := py_join " :: " hfid in
  schema ← lift (schema_get schemas (b_name branch) kind_);
  match n_human_friendly_id schema with
  | Some ((_ :: _) as paths) =>
      if bool_decide (length paths = length hfid) then
        items ← nm_query prefetch_relationships schema (dict_of_list (zip paths (JStr <$> hfid))) (Some 2);
        lift (one_item hfid_str items)
      else raise (NodeNotFoundError hfid_str)
  | _ => raise (NodeNotFoundError hfid_str)
  end.
Definition get_one_by_id_or_default_filter (prefetch_relationships : bool) (kind_ id : string) : Exec ReadState Loaded :=
  node ← get_one prefetch_relationships None id;
  match node with
  | Some node => mret node
  | None =>
      node ← get_one_by_default_filter prefetch_relationships false kind_ id;
      lift (require (NodeNotFoundError id) node)
  end.
Definition find_object (kind_ : string) (id : option string) (hfid : option (list string)) : Exec ReadState (option Loaded) :=
  let hfid := default [] hfid in
  match default "" id, hfid with
  | "", [] => raise (Error "either id or hfid must be provided.")
  | id, _ =>
      if negb (bool_decide (id = "")) && is_valid_uuid id then get_one false (Some kind_) id
      else match hfid with
           | _ :: _ => get_one_by_hfid false kind_ hfid
           | [] => get_one_by_default_filter false true kind_ id
           end
  end.

(** ** [delete] *)

(** The objects of the database of each node, and what the validator reads. *)
Context (node_db : string → NodeDatabase) (global_branch : Branch).
Context (schemas_map : Schemas) (validator_peers : list FullRelationshipIdentifier → list RelationshipPeersData).

(** [node.get_id()] *)
Definition loaded_id (l : Loaded) : result string := PyValue.get_id (as_peer (ln_schema l) (ln_node l)).
Definition delete_one (l : Loaded) : Exec DeleteState Loaded := λ s,
  let id := node_id (ln_node l) in
  let '(r, st) := node_delete lib (node_db id) global_branch (ln_schema l) branch (Some at_) (mkNodeState (ln_node l) (ds_fresh s) []) in
  (match r with Ok _ => Ok (l <| ln_node := node st |>) | Err e => Err e end,
   s <| ds_fresh := node_fresh st |> <| ds_queries := ds_queries s ++ [(id, node_queries st)] |>).
Definition get_ids (nodes : list Loaded) : Exec DeleteState (list string) := λ s,
  match (ids ← mapM loaded_id nodes; get_ids_to_delete schemas_map validator_peers (zip ids (ln_schema <$> nodes)) (ds_graph s)) with
  | Ok (ids, g) => (Ok ids, s <| ds_graph := g |>)
  | Err e => (Err e, s)
  end.
Definition manager_delete : Exec DeleteState (list Loaded) :=
  s ← get_state;
  ids_to_delete ← get_ids (ds_nodes s);
  node_ids ← lift (mapM loaded_id (ds_nodes s));
  let missing_ids_to_delete := set_diff ids_to_delete node_ids in
  _ ← (match missing_ids_to_delete with
       | [] => mret tt
       | _ =>
           found ← (λ s, let '(r, st) := get_many false (set_list missing_ids_to_delete) (mkReadState None (ds_fresh s)) in
                         (r, s <| ds_fresh := rs_fresh st |>));
           modify (λ s, s <| ds_nodes := ds_nodes s ++ dict_values found |>)
       end);
  s ← get_state;
  collect delete_one (ds_nodes s).
End manager.
