(* ===== verification/NodeManagerFacts.v ===== *)
(** * Facts on the reading of nodes

    The theorems on [NodeManager]: a node that is read has the values of its own row, or of
    the most important of its profiles; what one node is, and when it is refused; the nodes
    that a deletion deletes. *)

From stdpp Require Import prelude strings.
From S2P Require Import Prelude PyString PyDict SdkUtils Constants HashModel SchemaDefs NodeSchemaOps RelationshipList PyValue Enums PropertyMixin Branch Query Attribute AttributeObject AttributeFacts RelationshipManager DeleteValidator NodeRead Node NodeFacts NodeManager.

#[local] Open Scope Z_scope.

Lemma mapM_result_in {A B} (f : A → result B) l ys y : mapM f l = Ok ys → y ∈ ys → ∃ x, x ∈ l ∧ f x = Ok y.
Proof.
  revert ys. induction l as [|x l IH]; intros ys; cbn; [by intros [= <-] ?%elem_of_nil|]. rewrite bind_ok. intros (z & Hz & Hl).
  apply bind_ok in Hl as (zs & Hl & [= <-]). intros [-> |Hy]%elem_of_cons; [exists x; split; [left|done]|].
  destruct (IH _ Hl Hy) as (x' & Hx & Hf). exists x'. split; [by right|done].
Qed.

(** ** An attribute of the database *)

Section attribute.
Context (lib : Libraries) (info : AttributeInfo).

(** The object made from a row: its ids, its value or the default one when the row has
    none, the profile and the source it comes from. *)
Definition value_of_row (v : PyValue) : PyValue := if is_none v then default_value info else v.
Record loaded_from (data : AttributeFromDB) (obj : BaseAttribute) : Prop := {
  lf_id : at_id obj = PVal (JStr (fd_attr_uuid data));
  lf_db_id : at_db_id obj = Some (fd_attr_id data);
  lf_profile : at_is_from_profile obj = PVal (JBool (fd_is_from_profile data));
  lf_source uuid : dict_get (fd_node_properties data) "source" = Some uuid → get_node_id "source" (at_properties obj) = JStr uuid;
  lf_value : ∃ v, value_from_db lib (ai_class info) (fd_value data) = Ok v ∧
    at_is_default obj = (if is_none v && negb (is_none (default_value info)) then PVal (JBool true) else PVal (fd_is_default data)) ∧
    (is_none (value_of_row v) = false → validate_self lib info (value_of_row v) = Ok tt) ∧
    (if is_enum (ai_schema info) && truthy_value (value_of_row v)
     then ∃ k, convert_value_to_enum k (ai_schema info) (value_of_row v) = Ok (at_value obj)
     else at_value obj = value_of_row v);
}.

Lemma flags_loop (d : list (string * json)) p :
  ∃ p', for_each (λ name, match dict_get d name with Some v => modify (set_flag name (PVal v)) | None => mret tt end) _flag_properties p = (Ok tt, p') ∧
    p_source_id p' = p_source_id p.
Proof. unfold _flag_properties. cbn. destruct (dict_get d _), (dict_get d _); by eexists. Qed.
Lemma nodes_loop (d : list (string * string)) p :
  ∃ p', for_each (λ name, match dict_get d name with Some uuid => _set_node_property name (PVal (JStr uuid)) | None => mret tt end) _node_properties p = (Ok tt, p') ∧
    p_source_id p' = match dict_get d "source" with Some uuid => JStr uuid | None => p_source_id p end.
Proof. unfold _node_properties. cbn. destruct (dict_get d "source"), (dict_get d "owner"); by eexists. Qed.

Lemma on_properties_run {A} (m : Exec Properties A) (r : BaseAttribute) x p : m (properties r) = (Ok x, p) → on_properties m r = (Ok x, with_properties p r).
Proof. unfold on_properties. by intros ->. Qed.
Lemma load_from_db_ok data a a' :
  load_from_db lib info data a = (Ok tt, a') →
  at_id a' = PVal (JStr (fd_attr_uuid data)) ∧ at_db_id a' = Some (fd_attr_id data) ∧
  at_is_from_profile a' = PVal (JBool (fd_is_from_profile data)) ∧ at_is_default a' = PVal (fd_is_default data) ∧
  (∀ uuid, dict_get (fd_node_properties data) "source" = Some uuid → p_source_id (at_properties a') = JStr uuid) ∧
  value_from_db lib (ai_class info) (fd_value data) = Ok (at_value a').
Proof.
  unfold load_from_db. destruct (value_from_db _ _ _) as [v|]; [|done]. do 2 erewrite exec_step by reflexivity.
  set (a1 := a <| at_value := v |> <| at_is_default := _ |> <| at_is_from_profile := _ |> <| at_id := _ |> <| at_db_id := _ |>).
  destruct (flags_loop (fd_flag_properties data) (at_properties a1)) as (p1 & H1 & _).
  destruct (nodes_loop (fd_node_properties data) p1) as (p2 & H2 & Hs).
  rewrite (exec_step _ _ _ _ _ (on_properties_run _ a1 tt p1 H1)).
  erewrite exec_step by exact (on_properties_run _ (with_properties p1 a1) tt p2 H2).
  erewrite exec_step by reflexivity.
  assert (∀ uuid, dict_get (fd_node_properties data) "source" = Some uuid → p_source_id p2 = JStr uuid) as Hsource.
  { intros uuid Hu. by rewrite Hs, Hu. }
  destruct (at_updated_at _); [by intros [= <-]; split_and!|]. destruct (fd_updated_at data) as [[|c t]|]; [by intros [= <-]; split_and!| |by intros [= <-]; split_and!].
  destruct (_parse_string lib (String c t)); [|done]. intros [= <-]. by split_and!.
Qed.

Lemma on_attr_ok {A} (m : Exec BaseAttribute A) s (r : A) s' : on_attr m s = (Ok r, s') → m (attr s) = (Ok r, attr s').
Proof. unfold on_attr. destruct (m (attr s)) as [x a]. by intros [= -> <-]. Qed.
Lemma attribute_init_db data kwargs ids s s' :
  attribute_init lib info (FromDB data) kwargs ids s = (Ok tt, s') → loaded_from data (attr s').
Proof.
  unfold attribute_init. rewrite exec_bind_ok. intros ([] & s1 & _ & Hrun). apply exec_bind_ok in Hrun as ([] & s2 & Hload & Hrun).
  apply on_attr_ok, load_from_db_ok in Hload as (H1 & H2 & H3 & H4 & H5 & H6).
  apply exec_bind_ok in Hrun as ([] & s3 & Hdefault & Hrun). apply exec_bind_ok in Hrun as ([] & s4 & Hvalid & Hrun).
  apply exec_bind_ok in Hrun as ([] & s5 & Hconvert & Hrun). apply on_attr_ok in Hrun. injection Hrun as Hattr.
  set (v := at_value (attr s2)) in *.
  assert (at_value (attr s3) = value_of_row v ∧
    at_is_default (attr s3) = (if is_none v && negb (is_none (default_value info)) then PVal (JBool true) else PVal (fd_is_default data)) ∧
    at_id (attr s3) = at_id (attr s2) ∧ at_db_id (attr s3) = at_db_id (attr s2) ∧
    at_is_from_profile (attr s3) = at_is_from_profile (attr s2) ∧ at_properties (attr s3) = at_properties (attr s2)) as (D1 & D2 & D3 & D4 & D5 & D6).
  { revert Hdefault. unfold apply_default. erewrite exec_step by reflexivity. fold v. unfold value_of_row.
    destruct (is_none v) eqn:Hn; cbn [andb]; [|by intros [= <-]].
    destruct (is_none (default_value info)) eqn:Hd; cbn [negb]; [|by intros [= <-]].
    intros [= <-]. split_and!; try done. fold v. destruct v as [[]| |], (default_value info) as [[]| |]; done. }
  assert (s4 = s3 ∧ (is_none (value_of_row v) = false → validate_self lib info (value_of_row v) = Ok tt)) as [-> Hok].
  { revert Hvalid. unfold validate_value. erewrite exec_step by reflexivity. rewrite D1.
    destruct (is_none (value_of_row v)); [by intros [= <-]|]. unfold lift. intros [= Hv <-]. by split. }
  assert ((if is_enum (ai_schema info) && truthy_value (value_of_row v)
           then ∃ k, convert_value_to_enum k (ai_schema info) (value_of_row v) = Ok (at_value (attr s5))
           else at_value (attr s5) = value_of_row v) ∧
    at_is_default (attr s5) = at_is_default (attr s3) ∧ at_id (attr s5) = at_id (attr s3) ∧ at_db_id (attr s5) = at_db_id (attr s3) ∧
    at_is_from_profile (attr s5) = at_is_from_profile (attr s3) ∧ at_properties (attr s5) = at_properties (attr s3)) as (E1 & E2 & E3 & E4 & E5 & E6).
  { revert Hconvert. unfold convert_value. erewrite exec_step by reflexivity. rewrite D1.
    destruct (is_enum (ai_schema info) && truthy_value (value_of_row v)); [|by intros [= <-]].
    unfold to_enum. destruct (convert_value_to_enum (fresh s3) (ai_schema info) (value_of_row v)) as [w|] eqn:Hw;
      (unfold mbind, exec_bind, next_fresh, lift; rewrite Hw); [|done]. intros [= <-]. split_and!; try done. by exists (fresh s3). }
  subst. destruct (attr s') as [] eqn:Hs'. injection Hattr as <- <- <- <- <- <- <- <-. split; cbn.
  - congruence.
  - congruence.
  - congruence.
  - intros uuid Hu. unfold get_node_id. cbn. rewrite E6, D6. by apply H5.
  - exists v. rewrite E2, D2. by split_and!.
Qed.
End attribute.

(** ** A node of the database *)

Section load.
Context `{SetOrder} (lib : Libraries) (schema : MainSchema) (branch : Branch).

Definition info_of (a : AttributeSchema) (info : AttributeInfo) : Prop :=
  ai_name info = a_name a ∧ ai_schema info = a ∧ get_class a = Ok (ai_class info).
(** The object of an attribute whose field is a row. *)
Definition from_fields (fields : list (string * Field)) (a : AttributeSchema) (obj : BaseAttribute) : Prop :=
  ∃ info, info_of a info ∧ ∀ data, dict_get fields (a_name a) = Some (FAttr (FromDB data)) → loaded_from lib info data obj.

Lemma process_attribute_loads id fields : truthy_str id = true → makes lib schema branch (from_fields fields) id fields.
Proof.
  intros Hid a s s' _ Hs. unfold process_attribute. rewrite exec_bind_ok. intros ([] & s1 & Hg & Hrun).
  pose proof Hg as Hk. apply generate_attribute_ok in Hk as (Hk & _ & _). revert Hrun. erewrite exec_step by reflexivity.
  unfold has_id. rewrite (ka_id _ _ _ Hk), Hs, Hid. intros [= <-]. split; [done|]. clear Hk. revert Hg.
  unfold generate_attribute. destruct (_generate_attribute_default _ _ _ a (dict_get fields (a_name a)) s) as [[[]|] s2] eqn:Hg; [|done].
  intros [= <-]. revert Hg. unfold _generate_attribute_default. destruct (get_class a) as [cls|] eqn:Hcls; [|done].
  do 2 erewrite exec_step by reflexivity. destruct (attribute_input _) as [data|] eqn:Hin; [|done]. erewrite exec_step by reflexivity.
  unfold run_attribute. destruct (attribute_init _ _ data _ _ _) as [[[]|] st] eqn:Hinit; [|done]. intros [= <-].
  exists (attr st). split; [apply dict_get_set_eq|]. exists (attribute_info schema branch (node s) a cls). split; [done|].
  intros row Hrow. rewrite Hrow in Hin. injection Hin as <-. by eapply attribute_init_db.
Qed.

(** What [load] makes of the fields. *)
Record load_made (id db_id : option string) (fields : list (string * Field)) (n : Node) : Prop := {
  lm_id : nd_id n = id;
  lm_attribute_names : nd_attribute_names n = attribute_names schema;
  lm_relationship_names : nd_relationship_names n = relationship_names schema;
  lm_attributes a : a ∈ n_attributes schema → ∃ obj, dict_get (nd_attributes n) (a_name a) = Some obj ∧ from_fields fields a obj;
}.
Lemma node_load_ok id db_id updated_at fields at_ f q s' :
  NoDup (attribute_names schema) → truthy_str id = true →
  node_load lib schema branch id db_id updated_at fields (mkNodeState (new_node at_) f q) = (Ok tt, s') → load_made id db_id fields (node s').
Proof.
  intros Hnd Hid. unfold node_load. erewrite exec_step by reflexivity. rewrite exec_bind_ok. intros ([] & s1 & Hupd & Hrun).
  assert (nd_id (node s1) = id ∧ nd_attribute_names (node s1) = [] ∧ nd_relationship_names (node s1) = []) as (H1 & H2 & H3).
  { destruct updated_at as [[|c t]|]; [by injection Hupd as <-| |by injection Hupd as <-]. revert Hupd.
    destruct (_parse_string lib _); [|done]. erewrite exec_step by reflexivity. by intros [= <-]. }
  apply (process_fields_ok lib schema branch (from_fields fields)) in Hrun as [M1 M2 M3 M4]; [|done|].
  2: { rewrite H1. by apply process_attribute_loads. }
  split; [by rewrite M1|by rewrite M2, H2|by rewrite M3, H3|]. intros a Ha. apply M4; [done|]. left. unfold has_id. by rewrite H1.
Qed.
End load.

(** ** [get_many] *)

Section get_many.
Context `{SetOrder} (lib : Libraries) (db : ManagerDatabase) (branch : Branch).
Context (schemas : SchemaManager) (registry_node : list (string * string)).
Context (include_source include_owner : bool) (at_ : Z).

(** The names of a schema are distinct, as [validate_names] requires. *)
Definition distinct_names (schema : MainSchema) : Prop := NoDup (attribute_names schema ++ relationship_names schema).
Definition schemas_ok : Prop := ∀ label schema, schema_get schemas (b_name branch) label = Ok schema → distinct_names schema.

Section load_nodes.
Context (infos : list (string * NodeToProcess)) (attributes : list (string * NodeAttributesFromDB)) (index : ProfileAttributeIndex).
Context (prefetched : option (list (string * list (string * list string)) * list (string * Loaded))).
Context (Hinfos : ∀ id info, dict_get infos id = Some info → np_node_uuid info = id ∧ ∀ schema, np_schema info = Some schema → distinct_names schema).

Record loads (id : string) (l : Loaded) : Prop := {
  ld_info : ∃ info data, dict_get infos id = Some info ∧ np_schema info = Some (ln_schema l) ∧
    apply_profiles index id (node_data attributes prefetched info (ln_schema l)) = Ok data ∧
    load_made lib (ln_schema l) (Some id) (Some (np_node_id info)) data (ln_node l);
}.
Definition all_load (ids : list string) (nodes : list (string * Loaded)) : Prop :=
  NoDup (dict_keys nodes) ∧ (∀ id, id ∈ dict_keys nodes ↔ id ∈ ids ∧ id ∈ dict_keys infos) ∧
  ∀ id l, dict_get nodes id = Some l → loads id l.

Lemma load_one_ok done nodes id s nodes' s' :
  id ≠ "" → all_load done nodes →
  load_one lib branch registry_node at_ infos attributes index prefetched nodes id s = (Ok nodes', s') → all_load (done ++ [id]) nodes'.
Proof.
  intros Hid (Hnd & Hkeys & Hloads). unfold load_one. destruct (dict_get infos id) as [info|] eqn:Hinfo.
  2: { intros [= <- <-]. split_and!; [done| |done]. intros k. rewrite Hkeys, elem_of_app, list_elem_of_singleton.
       split; [naive_solver|]. intros [[| ->] Hk]; [done|]. by apply dict_get_None in Hinfo. }
  destruct (Hinfos id info Hinfo) as [Huuid Hnames]. destruct (np_schema info) as [schema|] eqn:Hschema; [|done].
  erewrite exec_step by reflexivity. destruct (apply_profiles _ _ _) as [data|] eqn:Hp; [|done]. erewrite exec_step by reflexivity.
  rewrite exec_bind_ok. intros (item & s1 & Hload & [= <- <-]). unfold load_node in Hload.
  destruct (node_load _ _ _ _ _ _ _ _) as [[[]|] st] eqn:Hl; [|done]. injection Hload as <- <-.
  apply node_load_ok in Hl; [|specialize (Hnames _ eq_refl); by apply NoDup_app in Hnames as [? _]|rewrite Huuid; by destruct id].
  split_and!; [by apply NoDup_dict_set| |].
  - intros k. rewrite elem_of_dict_keys_set, Hkeys, elem_of_app, list_elem_of_singleton.
    split; [|naive_solver]. intros [-> |]; [|naive_solver]. split; [by right|]. apply dict_get_is_Some. by eexists.
  - intros k l. rewrite dict_get_set. case_decide as Hk; [|by apply Hloads]. intros [= <-]. subst k.
    split. exists info, data. rewrite Huuid in Hl. by split_and!.
Qed.
Lemma load_nodes_ok done nodes ids s nodes' s' :
  "" ∉ ids → all_load done nodes →
  load_nodes lib branch registry_node at_ infos attributes index prefetched nodes ids s = (Ok nodes', s') → all_load (done ++ ids) nodes'.
Proof.
  revert done nodes s. induction ids as [|id ids IH]; intros done nodes s Hids Hall; cbn [load_nodes].
  { intros [= <- _]. by rewrite app_nil_r. }
  rewrite not_elem_of_cons in Hids. destruct Hids as [Hid Hids]. rewrite exec_bind_ok. intros (nodes1 & s1 & Hone & Hrest).
  apply (load_one_ok done) in Hone; [|done|done]. apply (IH _ _ _ Hids Hone) in Hrest. by rewrite <- app_assoc in Hrest.
Qed.
End load_nodes.

Lemma first_schema_found labels schema : first_schema branch schemas labels = Ok (Some schema) → ∃ label, schema_get schemas (b_name branch) label = Ok schema.
Proof.
  induction labels as [|label labels IH]; cbn; [done|]. destruct (schema_get schemas (b_name branch) label) as [s|e] eqn:Hf.
  - destruct (is_generic_schema s); [done|]. intros [= <-]. by exists label.
  - by destruct e.
Qed.
Lemma get_nodes_schemas q infos info schema :
  schemas_ok → get_nodes (find_node_schema branch schemas) q = Ok infos → info ∈ infos → np_schema info = Some schema → distinct_names schema.
Proof.
  intros Hok. unfold get_nodes. rewrite bind_ok. intros (results & _ & Hm) Hin Hs. apply (mapM_result_in _ _ _ info) in Hm as (r & _ & Hr); [|done].
  revert Hr. rewrite bind_ok. intros (node & _ & Hr). apply bind_ok in Hr as (sch & Hf & Hr). apply bind_ok in Hr as (pu & _ & Hr).
  apply bind_ok in Hr as ([] & _ & Hr). apply bind_ok in Hr as (rb & _ & [= <-]). cbn in Hs. subst sch.
  apply first_schema_found in Hf as (label & Hf). by eapply Hok.
Qed.
Lemma read_rows_infos ids s rows s' :
  schemas_ok → read_rows db branch schemas include_source include_owner ids s = (Ok rows, s') →
  ∀ id info, dict_get (nr_infos rows) id = Some info → np_node_uuid info = id ∧ ∀ schema, np_schema info = Some schema → distinct_names schema.
Proof.
  intros Hok. unfold read_rows. rewrite exec_bind_ok. intros (q & s1 & _ & Hrun).
  apply exec_bind_ok in Hrun as (infos & s2 & Hinfos & Hrun). apply exec_bind_ok in Hrun as (pids & s3 & _ & Hrun).
  apply exec_bind_ok in Hrun as ([] & s4 & _ & Hrun). apply exec_bind_ok in Hrun as (s5 & s6 & _ & Hrun).
  apply exec_bind_ok in Hrun as (aq & s7 & _ & Hrun). apply exec_bind_ok in Hrun as (attrs & s8 & _ & [= <- _]). cbn [nr_infos].
  assert (get_nodes (find_node_schema branch schemas) q = Ok infos) as Hget by (unfold lift in Hinfos; congruence).
  intros id info Hid. apply dict_get_of_list_last in Hid as (l1 & l2 & Hl & _).
  assert ((id, info) ∈ (λ info, (np_node_uuid info, info)) <$> infos) as Hid by (rewrite Hl; set_solver).
  apply list_elem_of_fmap in Hid as (info' & [= -> ->] & Hin).
  split; [done|]. intros schema. by eapply get_nodes_schemas.
Qed.

Lemma of_nodes_get rows k : k ∉ all_ids (nr_profile_ids rows) → dict_get (of_nodes rows) k = dict_get (nr_attributes rows) k.
Proof.
  intros Hk. unfold of_nodes. induction (nr_attributes rows) as [|[k' v] d IH]; [done|]. rewrite filter_cons. cbn.
  destruct (decide (k' ∉ all_ids (nr_profile_ids rows))); cbn; [by rewrite IH|]. case_decide; [by subst|done].
Qed.
Lemma node_data_attribute attributes prefetched info schema name field :
  distinct_names schema → name ∈ attribute_names schema → dict_get (attribute_fields attributes (np_node_uuid info)) name = Some field →
  dict_get (node_data attributes prefetched info schema) name = Some field.
Proof.
  intros Hd Hname Hget. unfold node_data. destruct prefetched as [[peers_per_node [|p peers]]|]; try done.
  rewrite dict_get_update, Hget. destruct (dict_get (reverse (relationship_fields _ _ _ _)) name) as [f|] eqn:Hrel; [exfalso|done].
  apply dict_get_Some_in in Hrel. rewrite elem_of_reverse in Hrel.
  unfold relationship_fields in Hrel. destruct (dict_get peers_per_node _) as [ids|]; [|by apply elem_of_nil in Hrel].
  apply list_elem_of_omap in Hrel as (r & Hr & Hf). destruct (relationship_field _ _ r); [|done]. injection Hf as <- <-.
  apply NoDup_app in Hd as (_ & Hd & _). apply (Hd _ Hname). by apply list_elem_of_fmap_2.
Qed.

(** The attribute of a node that was read: its row, and what its profiles make of it. *)
Definition read_attribute (rows : NodeRows) (id : string) (l : Loaded) (a : AttributeSchema) (data : AttributeFromDB) : Prop :=
  ∃ obj info data', dict_get (nd_attributes (ln_node l)) (a_name a) = Some obj ∧ info_of a info ∧
    overridden (profiles_of (profile_index rows) id) (a_name a) data data' ∧ loaded_from lib info data' obj.

Lemma get_many_loads prefetch ids s nodes s' :
  schemas_ok → "" ∉ ids →
  get_many lib db branch schemas registry_node include_source include_owner at_ prefetch ids s = (Ok nodes, s') →
  ∃ rows s1 prefetched, read_rows db branch schemas include_source include_owner ids s = (Ok rows, s1) ∧
    all_load (nr_infos rows) (of_nodes rows) (profile_index rows) prefetched ids nodes.
Proof.
  intros Hok Hids. unfold get_many. rewrite exec_bind_ok. intros (rows & s1 & Hrows & Hrun). exists rows, s1.
  pose proof (read_rows_infos _ _ _ _ Hok Hrows) as Hinfos. apply exec_bind_ok in Hrun as (prefetched & s2 & _ & Hload). exists prefetched.
  split; [done|]. apply (load_nodes_ok _ _ _ _ Hinfos []) in Hload; [done|done|].
  split_and!; [constructor| |done]. intros id. split; [by intros ?%elem_of_nil|by intros [?%elem_of_nil _]].
Qed.

(** C13: [get_many]: the nodes it returns are those of the ids that the first query finds, one
    for each; each has its id, the schema of its labels, the names of this schema, and for
    each attribute that has a row the object made from this row, with the value of the most
    important profile of the node when the attribute has its default value (unless the node
    is itself a profile of one of the nodes read). *)
Theorem get_many_spec prefetch ids s nodes s' :
  schemas_ok → "" ∉ ids →
  get_many lib db branch schemas registry_node include_source include_owner at_ prefetch ids s = (Ok nodes, s') →
  ∃ rows s1, read_rows db branch schemas include_source include_owner ids s = (Ok rows, s1) ∧
    NoDup (dict_keys nodes) ∧ (∀ id, id ∈ dict_keys nodes ↔ id ∈ ids ∧ id ∈ dict_keys (nr_infos rows)) ∧
    ∀ id l, dict_get nodes id = Some l →
      nd_id (ln_node l) = Some id ∧ nd_attribute_names (ln_node l) = attribute_names (ln_schema l) ∧
      nd_relationship_names (ln_node l) = relationship_names (ln_schema l) ∧
      (∃ info, dict_get (nr_infos rows) id = Some info ∧ np_schema info = Some (ln_schema l)) ∧
      ∀ a row data, id ∉ all_ids (nr_profile_ids rows) → (∀ p, p ∈ profiles_of (profile_index rows) id → no_null p) →
        a ∈ n_attributes (ln_schema l) → dict_get (nr_attributes rows) id = Some row → dict_get (na_attrs row) (a_name a) = Some data →
        read_attribute rows id l a data.
Proof.
  intros Hok Hids Hrun. destruct (get_many_loads _ _ _ _ _ Hok Hids Hrun) as (rows & s1 & prefetched & Hrows & Hnd & Hkeys & Hloads).
  exists rows, s1. split; [done|]. pose proof (read_rows_infos _ _ _ _ Hok Hrows) as Hinfos.
  split_and!; [done|exact Hkeys|]. intros id l Hl. destruct (Hloads id l Hl) as [(info & data & Hinfo & Hschema & Hp & [L1 L2 L3 L4])].
  split_and!; [done..|by exists info|]. intros a row d Hprofile Hnn Ha Hrow Hd.
  destruct (Hinfos id info Hinfo) as [Huuid Hnames]. specialize (Hnames _ Hschema). destruct (L4 a Ha) as (obj & Hobj & inf & Hinf & Hfrom).
  pose proof (apply_profiles_run (profile_index rows) id (node_data (of_nodes rows) prefetched info (ln_schema l)) Hnn) as Hf.
  rewrite Hp in Hf. destruct Hf as (f & -> & Hf). specialize (Hf (a_name a) (FAttr (FromDB d))). destruct Hf as (d' & Hfd & Hover).
  exists obj, inf, d'. split_and!; [done|exact Hinf|exact Hover|]. apply Hfrom. rewrite dict_get_map.
  erewrite (node_data_attribute _ _ _ _ _ (FAttr (FromDB d))); [by cbn; rewrite Hfd|done|by apply list_elem_of_fmap_2|].
  unfold attribute_fields. rewrite Huuid, of_nodes_get, Hrow by done. cbn. rewrite (dict_get_map (λ _ x, FAttr (FromDB x))). by rewrite Hd.
Qed.

(** [get_one]: the node has the id and the kind asked (or this kind is one it inherits from,
    or the exception of the threads); without a node, the first query found none. *)
Theorem get_one_spec prefetch kind_ id s r s' :
  schemas_ok → id ≠ "" →
  get_one lib db branch schemas registry_node include_source include_owner at_ prefetch kind_ id s = (Ok r, s') →
  match r with
  | Some l => nd_id (ln_node l) = Some id ∧
      (of_kind (default "" kind_) (ln_schema l) = true ∨ (default "" kind_, kind (ln_schema l)) = ("CoreChangeThread", "CoreObjectThread"))
  | None => ∃ rows s1, read_rows db branch schemas include_source include_owner [id] s = (Ok rows, s1) ∧ id ∉ dict_keys (nr_infos rows)
  end.
Proof.
  intros Hok Hid. unfold get_one. rewrite exec_bind_ok. intros (nodes & s1 & Hmany & Hrun).
  apply get_many_loads in Hmany as (rows & s2 & prefetched & Hrows & Hnd & Hkeys & Hloads); [|done|rewrite list_elem_of_singleton; congruence].
  destruct nodes as [|kv nodes].
  { injection Hrun as <- <-. exists rows, s2. split; [done|]. intros Hin.
    assert (id ∈ dict_keys ([] : list (string * Loaded))) as H0 by (apply Hkeys; split; [left|done]). by apply elem_of_nil in H0. }
  destruct (dict_get (kv :: nodes) id) as [l|] eqn:Hl; [|done]. erewrite exec_step in Hrun by reflexivity.
  destruct (Hloads id l Hl) as [(info & data & _ & _ & _ & [L1 _ _ _])].
  destruct (of_kind (default "" kind_) (ln_schema l)) eqn:Hk; cbn [orb] in Hrun.
  - injection Hrun as <- <-. split; [done|by left].
  - case_bool_decide as He; [|done]. injection Hrun as <- <-. split; [done|right]. by apply list_elem_of_singleton in He.
Qed.

(** ** Deletion *)

Context (node_db : string → NodeDatabase) (global_branch : Branch).
Context (schemas_map : Schemas) (validator_peers : list FullRelationshipIdentifier → list RelationshipPeersData).

Lemma collect_ok {S B C} (I : list B → list C → S → Prop) (f : B → Exec S C) l s ys s' :
  (∀ done out x s y s1, I done out s → f x s = (Ok y, s1) → I (done ++ [x]) (out ++ [y]) s1) →
  I [] [] s → collect f l s = (Ok ys, s') → I l ys s'.
Proof.
  intros Hstep HI. enough (∀ done out l s ys s', I done out s → collect f l s = (Ok ys, s') → I (done ++ l) (out ++ ys) s') as Hall by by apply (Hall [] []).
  clear -Hstep. intros done out l. revert done out. induction l as [|x l IH]; intros done out s ys s' HI; cbn [collect].
  { intros [= <- <-]. by rewrite !app_nil_r. }
  rewrite exec_bind_ok. intros (y & s1 & Hx & Hl). apply exec_bind_ok in Hl as (zs & s2 & Hl & [= <- <-]).
  eapply (IH (done ++ [x]) (out ++ [y])) in Hl; [|by eapply Hstep]. by rewrite <-!app_assoc in Hl.
Qed.

(** Deleting a node keeps its id, and ends with the query that deletes it. *)
Lemma on_attribute_keeps_id schema {A} name (m : AttributeInfo → Exec AttrState A) id :
  keeps (λ s, nd_id (node s) = id) (on_attribute schema branch name m).
Proof.
  unfold on_attribute. apply keeps_bind; [by intros s|intros s]. apply keeps_bind; [apply keeps_lift|intros a].
  apply keeps_bind; [apply keeps_lift|intros sch]. apply keeps_bind; [apply keeps_lift|intros cls].
  intros s1 Hs. unfold run_attribute. by destruct (m _ _) as [r st].
Qed.
Lemma on_relationship_keeps_id schema {A} ndb name (m : RelationshipManager.Database → Manager → Exec ManagerState A) id :
  keeps (λ s, nd_id (node s) = id) (on_relationship ndb schema branch name m).
Proof.
  unfold on_relationship. apply keeps_bind; [by intros s|intros s]. apply keeps_bind; [apply keeps_lift|intros r].
  intros s1 Hs. unfold run_relationship. by destruct (m _ _ _) as [res st].
Qed.
Lemma node_delete_ok ndb schema s s' :
  node_delete lib ndb global_branch schema branch (Some at_) s = (Ok tt, s') →
  nd_id (node s') = nd_id (node s) ∧
  last (node_queries s') = Some (NodeDeleteQuery (nd_id (node s)) (b_name (node_branch global_branch schema branch))
                                   (b_hierarchy_level (node_branch global_branch schema branch)) at_).
Proof.
  unfold node_delete. erewrite exec_step by reflexivity. set (id := nd_id (node s)).
  intros Hrun. apply exec_bind_ok in Hrun as ([] & s1 & H1 & Hrun). apply exec_bind_ok in Hrun as ([] & s2 & H2 & Hrun).
  assert (nd_id (node s1) = id) as Hs1.
  { eapply (f_equal snd) in H1. cbn in H1. subst s1. apply (keeps_for_each (λ s, nd_id (node s) = id)); [|done]. intros name.
    apply keeps_bind; [by intros s0|intros s0]. apply keeps_bind; [apply on_attribute_keeps_id|intros _; apply keeps_ret]. }
  assert (nd_id (node s2) = id) as Hs2.
  { eapply (f_equal snd) in H2. cbn in H2. subst s2. apply (keeps_for_each (λ s, nd_id (node s) = id)); [|done]. intros name.
    apply on_relationship_keeps_id. }
  do 2 erewrite exec_step in Hrun by reflexivity. apply exec_bind_ok in Hrun as ([] & s3 & H3 & Hrun). injection Hrun as <-. cbn.
  assert (nd_id (node s3) = id) as Hs3.
  { revert H3. destruct (nb_branch_edge _ _) as [[eb rb]|]; [destruct (bool_decide _)|]; intros [= <-]; exact Hs2. }
  split; [done|]. by rewrite last_snoc, Hs2.
Qed.

(** What was executed for a node that is deleted. *)
Definition deletes (l : Loaded) (q : string * list NodeQuery) : Prop :=
  q.1 = node_id (ln_node l) ∧
  last q.2 = Some (NodeDeleteQuery (nd_id (ln_node l)) (b_name (node_branch global_branch (ln_schema l) branch))
                     (b_hierarchy_level (node_branch global_branch (ln_schema l) branch)) at_).
Lemma delete_all_ok nodes s deleted s' :
  collect (delete_one lib branch at_ node_db global_branch) nodes s = (Ok deleted, s') →
  (nd_id ∘ ln_node <$> deleted) = (nd_id ∘ ln_node <$> nodes) ∧ ds_nodes s' = ds_nodes s ∧
  ∃ qs, ds_queries s' = ds_queries s ++ qs ∧ Forall2 deletes nodes qs.
Proof.
  intros Hrun. apply (collect_ok (λ done out s1, (nd_id ∘ ln_node <$> out) = (nd_id ∘ ln_node <$> done) ∧ ds_nodes s1 = ds_nodes s ∧
    ∃ qs, ds_queries s1 = ds_queries s ++ qs ∧ Forall2 deletes done qs)) in Hrun; [done| |].
  - intros done out x s1 y s2 (Hids & Hn & qs & Hqs & Hall). unfold delete_one.
    destruct (node_delete _ _ _ _ _ _ _) as [[[]|] st] eqn:Hd; [|done]. intros [= <- <-].
    apply node_delete_ok in Hd as [Hid Hlast]. cbn [node] in *. split_and!; [|done|].
    + rewrite !fmap_app, Hids. cbn. by rewrite Hid.
    + exists (qs ++ [(node_id (ln_node x), node_queries st)]). split; [cbn; by rewrite Hqs, app_assoc|].
      apply Forall2_app; [done|]. by repeat constructor.
  - split_and!; [done|done|]. exists []. by rewrite app_nil_r.
Qed.

(** The first query that [get_many] executes for the ids has a row for the id. *)
Definition in_database (f : nat) (ids : list string) (id : string) : Prop :=
  ∃ rows s, read_rows db branch schemas include_source include_owner ids (mkReadState None f) = (Ok rows, s) ∧ id ∈ dict_keys (nr_infos rows).

(** C14: [NodeManager.delete], when it returns, for schemas whose fields have distinct names
    and ids that are not empty: the list of the caller is extended with one node for exactly
    each id that the validator selected, the caller did not give, and the database has;
    every node of this list is deleted, in its order: the last query executed for it deletes
    it, on its branch, at the time of the call; and the nodes returned are these. *)
Theorem manager_delete_spec s ids s1 deleted s' :
  schemas_ok → get_ids schemas_map validator_peers (ds_nodes s) s = (Ok ids, s1) → "" ∉ ids →
  manager_delete lib db branch schemas registry_node include_source include_owner at_ node_db global_branch schemas_map validator_peers s =
    (Ok deleted, s') →
  ∃ node_ids missing, mapM loaded_id (ds_nodes s) = Ok node_ids ∧ ds_nodes s' = ds_nodes s ++ missing ∧
    NoDup (nd_id ∘ ln_node <$> missing) ∧
    (∀ l, l ∈ missing → nd_id (ln_node l) ≠ None) ∧
    (∀ id, Some id ∈ (nd_id ∘ ln_node <$> missing) ↔
       id ∈ ids ∧ (id ∉ node_ids) ∧ in_database (ds_fresh s) (set_list (set_diff ids node_ids)) id) ∧
    (nd_id ∘ ln_node <$> deleted) = (nd_id ∘ ln_node <$> ds_nodes s') ∧
    ∃ qs, ds_queries s' = ds_queries s ++ qs ∧ Forall2 deletes (ds_nodes s') qs.
Proof.
  intros Hok Hids Hne. unfold manager_delete. erewrite exec_step by reflexivity. rewrite (exec_step _ _ _ _ _ Hids).
  assert (ds_nodes s1 = ds_nodes s ∧ ds_queries s1 = ds_queries s ∧ ds_fresh s1 = ds_fresh s) as (Hn1 & Hq1 & Hf1).
  { revert Hids. unfold get_ids. destruct (_ ≫= _) as [[? ?]|]; [|done]. by intros [= _ <-]. }
  rewrite exec_bind_ok. intros (node_ids & s2 & Hnode & Hrun). unfold lift in Hnode. injection Hnode as Hnode <-.
  apply exec_bind_ok in Hrun as ([] & s3 & Hmissing & Hrun). erewrite exec_step in Hrun by reflexivity.
  assert (∃ missing, ds_nodes s3 = ds_nodes s ++ missing ∧ ds_queries s3 = ds_queries s ∧ NoDup (nd_id ∘ ln_node <$> missing) ∧
    (∀ l, l ∈ missing → nd_id (ln_node l) ≠ None) ∧
    ∀ id, Some id ∈ (nd_id ∘ ln_node <$> missing) ↔
      id ∈ ids ∧ (id ∉ node_ids) ∧ in_database (ds_fresh s) (set_list (set_diff ids node_ids)) id) as (missing & H1 & H2 & H3 & H4 & H5).
  { assert (∀ id, id ∈ set_diff ids node_ids ↔ id ∈ ids ∧ id ∉ node_ids) as Hset by (intros id; apply elem_of_set_diff).
    destruct (set_diff ids node_ids) as [|m ms] eqn:Hdiff.
    { injection Hmissing as <-. exists []. rewrite app_nil_r. split_and!; [done|done|constructor|by intros ? ?%elem_of_nil|].
      intros id. split; [by intros ?%elem_of_nil|]. intros (Hi & Hno & _). by destruct (proj1 (elem_of_nil id) (proj2 (Hset id) (conj Hi Hno))). }
    rewrite <- Hdiff in *. clear Hdiff.
    assert (∀ id, id ∈ set_list (set_diff ids node_ids) ↔ id ∈ ids ∧ id ∉ node_ids) as Hlist by (intros id; by rewrite set_list_perm).
    apply exec_bind_ok in Hmissing as (found & s4 & Hfound & [= <-]).
    destruct (get_many _ _ _ _ _ _ _ _ false _ _) as [r st] eqn:Hg. injection Hfound as -> <-. rewrite Hf1 in Hg.
    apply get_many_loads in Hg as (rows & s5 & prefetched & Hrows & Hnd & Hkeys & Hloads); [|done|by rewrite set_list_perm, Hset; intros [? _]].
    assert (∀ kv, kv ∈ found → nd_id (ln_node kv.2) = Some kv.1) as Hkv.
    { intros [k l] Hin. apply (dict_get_in _ _ _ Hnd) in Hin. by destruct (Hloads k l Hin) as [(info & data & _ & _ & _ & [L1 _ _ _])]. }
    assert ((nd_id ∘ ln_node <$> dict_values found) = (Some <$> dict_keys found)) as Hids_found.
    { unfold dict_keys, dict_values. rewrite <- !list_fmap_compose. apply list_fmap_ext. intros i kv Hin.
      apply Hkv. by eapply list_elem_of_lookup_2. }
    exists (dict_values found). cbn. rewrite Hn1, Hq1, Hids_found. split_and!; [done|done|by apply NoDup_fmap_2; [apply _|]| |].
    - intros l Hl. apply list_elem_of_fmap in Hl as ([k l'] & -> & Hin). by rewrite (Hkv _ Hin).
    - intros id. rewrite list_elem_of_fmap. setoid_rewrite Hkeys. setoid_rewrite Hlist. unfold in_database. split.
      + intros (k & [= <-] & [Hi Hno] & Hk). split_and!; [done..|]. by exists rows, s5.
      + intros (Hi & Hno & rows' & s6 & Hrows' & Hk). rewrite Hrows in Hrows'. injection Hrows' as <- _. by exists id. }
  apply delete_all_ok in Hrun as (Hd & Hn & qs & Hqs & Hall).
  exists node_ids, missing. rewrite Hn, H1. split_and!; [done|done|done|exact H4|exact H5|by rewrite <- H1|].
  exists qs. rewrite <- H1, <- H2. done.
Qed.
End get_many.

(** ** Examples *)

Definition demo_entity (uuid : string) (labels : list string) : Neo4jEntity :=
  mkEntity [("element_id", JStr ("db-" +:+ uuid)); ("labels", JList (JStr <$> labels))] [("uuid", JStr uuid)].
Definition results_of (labels : list string) (rows : list (list Item)) : result Query :=
  results ← mapM (new_result labels) rows;
  Ok (mkQuery "" READ false true None None [] [] [] labels results true []).
Definition info_row (uuid kind : string) (profiles : list string) : list Item :=
  [IValue (JList (JStr <$> profiles)); INode (demo_entity uuid [kind]); IRel (mkEntity [] [])].
Definition attribute_row (uuid name value : string) (is_default : bool) : list Item :=
  [INode (demo_entity uuid []); INode (mkEntity [("element_id", JStr ("a-" +:+ name))] [("uuid", JStr (uuid +:+ name)); ("name", JStr name)]);
   INode (mkEntity [] [("value", JStr value); ("is_default", JBool is_default)]); IRel (mkEntity [] []);
   INode (mkEntity [] [("value", JBool false)]); INode (mkEntity [] [("value", JBool true)])].
Definition row_uuid (i : nat) (row : list Item) : string := match row !! i with Some (INode e) => entity_text e "uuid" | _ => "" end.
(** A host whose description comes from a profile. *)
Definition manager_db : ManagerDatabase :=
  mkManagerDatabase
    (λ ids, results_of ["collect(profile.uuid) as profile_uuids"; "n"; "rb"]
              (filter (λ row, row_uuid 1 row ∈ ids)
                 [info_row "host" "InfraHost" ["profile"]; info_row "profile" "ProfileInfraHost" []]))
    (λ ids _, results_of ["n"; "a"; "av"; "r2"; "isp"; "isv"]
              (filter (λ row, row_uuid 0 row ∈ ids)
                 [attribute_row "host" "name" "core1" false; attribute_row "host" "description" "NULL" true;
                  attribute_row "profile" "description" "a host" false]))
    (λ _, Err (ValueError "relationships")) (λ _ _ _, Err (ValueError "list")).
Definition host_attributes : list AttributeSchema :=
  [(new_attribute "name" "Text") <| a_optional := true |>; (new_attribute "description" "Text") <| a_optional := true |>].
Definition host_profile : MainSchema :=
  (SchemaDefs.new_node "InfraHost" "Profile") <| n_attributes := host_attributes |> <| n_class := ProfileSchema (mkProfilePart []) |>.
Definition demo_schemas : SchemaManager :=
  mkSchemaManager (SchemaStore.mkStore [with_attributes host_attributes; host_profile] [("h", 0%nat); ("p", 1%nat)])
    [("main", SchemaStore.mkSchemaBranch (Some "main") [("InfraHost", "h")] [] [("ProfileInfraHost", "p")])] "main".
Definition demo_get_many (ids : list string) : list (string * (list (string * (PyValue * PyValue)))) :=
  let _ := insertion_order in
  match (get_many demo_lib manager_db (test_branch "main" 1) demo_schemas [] false false 3 false ids (mkReadState None 0)).1 with
  | Ok nodes => (λ kv, (kv.1, (λ a, (a.1, (at_value a.2, at_is_from_profile a.2))) <$> nd_attributes (ln_node kv.2))) <$> nodes
  | Err _ => []
  end.

(** A profile that is read together with a node that uses it loses its attributes: it is
    loaded with no value at all. *)
Theorem node_and_profile_together :
  let text s := PVal (JStr s) in
  let no := PVal (JBool false) in
  demo_get_many ["profile"] = [("profile", [("name", (PVal JNull, no)); ("description", (text "a host", no))])] ∧
  demo_get_many ["host"; "profile"] =
    [("host", [("name", (text "core1", no)); ("description", (text "a host", PVal (JBool true)))]);
     ("profile", [("name", (PVal JNull, no)); ("description", (PVal JNull, no))])].
Proof. by vm_compute. Qed.

(** The dictionary of fields of the caller is changed. *)
Theorem fields_of_caller_changed :
  let _ := insertion_order in
  rs_fields (get_many demo_lib manager_db (test_branch "main" 1) demo_schemas [] false false 3 false ["host"]
               (mkReadState (Some [("name", JDict [("value", JNull)])]) 0)).2 =
  Some [("name", JDict [("value", JNull)]); ("profile_priority", JDict [("value", JNull)])].
Proof. by vm_compute. Qed.

(** ** Witnesses *)

Lemma demo_schemas_ok : schemas_ok (test_branch "main" 1) demo_schemas.
Proof.
  intros label schema Hget.
  assert (∃ main, dict_get (sm_branches demo_schemas) "main" = Some main ∧ find_in demo_schemas main label = Ok schema) as (main & [= <-] & Hfind).
  { eexists. split; [reflexivity|]. revert Hget. unfold schema_get. cbn [sm_branches demo_schemas dict_get fst snd b_name test_branch sm_default_branch].
    rewrite decide_True by done. cbn [require mbind result_bind]. by destruct (find_in _ _ label) as [|[]]. }
  revert Hfind. unfold find_in, SchemaStore.find, SchemaStore.find_ref, SchemaStore.find_key. cbn -[host_profile with_attributes].
  repeat case_decide; cbn -[host_profile with_attributes]; intros [= <-]; apply (bool_decide_unpack _); by vm_compute.
Qed.
#[local] Abbreviation demo_many ids :=
  (get_many (H := insertion_order) demo_lib manager_db (test_branch "main" 1) demo_schemas [] false false 3 false ids (mkReadState None 0)).

Lemma no_null_check l :
  forallb (λ p, forallb (λ kv : string * AttributeFromDB, negb (bool_decide (fd_value kv.2 = JNull))) (na_attrs p)) l = true → ∀ p, p ∈ l → no_null p.
Proof.
  rewrite forallb_forall. intros Hl p Hp name attr Hget. apply list_elem_of_In, Hl in Hp. rewrite forallb_forall in Hp.
  apply dict_get_Some_in, list_elem_of_In, Hp in Hget. cbn in Hget. by case_bool_decide.
Qed.
Lemma get_many_spec_witness :
  ∃ nodes s' rows s1, demo_many ["host"] = (Ok nodes, s') ∧
    read_rows (H := insertion_order) manager_db (test_branch "main" 1) demo_schemas false false ["host"] (mkReadState None 0) = (Ok rows, s1) ∧
    dict_keys nodes = ["host"] ∧
    ∃ l row data, dict_get nodes "host" = Some l ∧ dict_get (nr_attributes rows) "host" = Some row ∧
      dict_get (na_attrs row) "description" = Some data ∧
      read_attribute demo_lib rows "host" l ((new_attribute "description" "Text") <| a_optional := true |>) data.
Proof.
  assert ("" ∉ ["host"]) as Hne by (apply (bool_decide_unpack _); by vm_compute).
  destruct (demo_many ["host"]) as [[nodes|] s'] eqn:Hrun; [|by vm_compute in Hrun]. exists nodes, s'.
  destruct (get_many_spec (H := insertion_order) demo_lib manager_db (test_branch "main" 1) demo_schemas [] false false 3 false ["host"] (mkReadState None 0)
    nodes s' demo_schemas_ok Hne Hrun)
    as (rows & s1 & Hrows & _ & _ & Hloads).
  exists rows, s1. split; [done|]. split; [exact Hrows|].
  assert (nodes = match (demo_many ["host"]).1 with Ok n => n | Err _ => [] end) as Hn by by rewrite Hrun.
  assert (rows = match (read_rows (H := insertion_order) manager_db (test_branch "main" 1) demo_schemas false false ["host"] (mkReadState None 0)).1 with
                 | Ok r => r | Err _ => mkNodeRows [] [] [] end) as Hr by by rewrite Hrows.
  split; [by rewrite Hn; vm_compute|].
  destruct (dict_get nodes "host") as [l|] eqn:Hl; [|by rewrite Hn in Hl; vm_compute in Hl].
  destruct (dict_get (nr_attributes rows) "host") as [row|] eqn:Hrow; [|by rewrite Hr in Hrow; vm_compute in Hrow].
  destruct (dict_get (na_attrs row) "description") as [data|] eqn:Hdata.
  2: { assert (dict_get (nr_attributes rows) "host" ≫= (λ row, dict_get (na_attrs row) "description") = None) as Hnone by by rewrite Hrow.
       rewrite Hr in Hnone. by vm_compute in Hnone. }
  exists l, row, data. split_and!; [done..|]. destruct (Hloads "host" l Hl) as (_ & _ & _ & _ & Hattr). apply (Hattr _ row); [| | |done|done].
  - rewrite Hr. apply (bool_decide_unpack _). by vm_compute.
  - apply no_null_check. rewrite Hr. by vm_compute.
  - assert (n_attributes ∘ ln_schema <$> dict_get nodes "host" = Some host_attributes) as Hs by (rewrite Hn; by vm_compute).
    rewrite Hl in Hs. injection Hs as ->. right. left.
Defined.

(** A host whose profile is deleted with it. *)
Definition cascading_host : MainSchema :=
  (with_attributes host_attributes) <| n_relationships :=
    [example_relationship "profile" "ProfileInfraHost" "host__profile" true RelationshipDeleteBehavior.CASCADE] |>.
Definition schemas_of_hosts : Schemas := [("InfraHost", cascading_host); ("ProfileInfraHost", host_profile)].
Definition cascading_rows : list RelationshipPeersData := [mkPeersData "1" "host__profile" "host" "InfraHost" "profile" "ProfileInfraHost"].
Definition delete_demo : DeleteState :=
  mkDeleteState [mkLoaded None cascading_host ((new_node 3) <| nd_id := Some "host" |> <| nd_existing := true |>)] 0 [] [].
#[local] Abbreviation demo_ids :=
  (get_ids (H := insertion_order) schemas_of_hosts (matching_rows cascading_rows) (ds_nodes delete_demo) delete_demo).
#[local] Abbreviation demo_delete :=
  (manager_delete (H := insertion_order) demo_lib manager_db (test_branch "main" 1) demo_schemas [] false false 3 (λ _, demo_node_db)
     (test_branch "-global-" 1) schemas_of_hosts (matching_rows cascading_rows) delete_demo).
Lemma manager_delete_spec_witness :
  ∃ deleted s' missing, demo_delete = (Ok deleted, s') ∧ ds_nodes s' = ds_nodes delete_demo ++ missing ∧
    (nd_id ∘ ln_node <$> missing) = [Some "profile"] ∧ (nd_id ∘ ln_node <$> deleted) = [Some "host"; Some "profile"] ∧
    ∃ qs, ds_queries s' = qs ∧ Forall2 (deletes (test_branch "main" 1) 3 (test_branch "-global-" 1)) (ds_nodes s') qs.
Proof.
  destruct demo_ids as [[ids|] s1] eqn:Hids; [|by vm_compute in Hids].
  assert (ids = ["host"; "profile"]) as Hi.
  { assert (demo_ids.1 = Ok ["host"; "profile"]) as Heq by by vm_compute. rewrite Hids in Heq. by injection Heq. }
  assert ("" ∉ ids) as Hne by (rewrite Hi; apply (bool_decide_unpack _); by vm_compute).
  destruct demo_delete as [[deleted|] s'] eqn:Hrun; [|by vm_compute in Hrun]. exists deleted, s'.
  destruct (manager_delete_spec (H := insertion_order) demo_lib manager_db (test_branch "main" 1) demo_schemas [] false false 3 (λ _, demo_node_db)
    (test_branch "-global-" 1) schemas_of_hosts (matching_rows cascading_rows) delete_demo ids s1 deleted s' demo_schemas_ok Hids Hne Hrun)
    as (node_ids & missing & _ & Hnodes & _ & _ & _ & Hdeleted & qs & Hqs & Hall).
  exists missing. split; [done|]. split; [exact Hnodes|].
  assert ((nd_id ∘ ln_node <$> ds_nodes s') = [Some "host"; Some "profile"]) as Hs'.
  { assert ((nd_id ∘ ln_node <$> ds_nodes demo_delete.2) = [Some "host"; Some "profile"]) as Heq by by vm_compute. by rewrite Hrun in Heq. }
  split_and!.
  - rewrite Hnodes, fmap_app in Hs'. by injection Hs'.
  - by rewrite Hdeleted.
  - exists qs. by split.
Defined.
