(* ===== verification/SdkSchema.v ===== *)
(** * The schemas that the SDK reads

    [python_sdk/infrahub_sdk/schema.py]: the classes of the schemas of a branch, as the
    client receives them, and the access to their fields. *)

From stdpp Require Import prelude strings.
From S2P Require Import Prelude PyString PyDict SdkUtils.

Inductive BranchSupportType := AWARE | AGNOSTIC | LOCAL.
Inductive RelationshipCardinality := ONE | MANY.
Inductive RelationshipKind := GENERIC | ATTRIBUTE | COMPONENT | PARENT | GROUP | HIERARCHY | PROFILE.
Inductive SchemaState := PRESENT | ABSENT.
#[export] Instance RelationshipKind_eq_dec : EqDecision RelationshipKind.
Proof. solve_decision. Defined.
#[export] Instance RelationshipCardinality_eq_dec : EqDecision RelationshipCardinality.
Proof. solve_decision. Defined.

Record FilterSchema := mkFilterSchema {
  fs_name : string;
  fs_kind : string;
  fs_description : option string;
}.

Record AttributeSchema := mkAttributeSchema {
  as_id : option string;
  as_state : SchemaState;
  as_name : string;
  as_kind : string;
  as_label : option string;
  as_description : option string;
  as_default_value : json;
  as_inherited : bool;
  as_unique : bool;
  as_branch : option BranchSupportType;
  as_optional : bool;
  as_read_only : bool;
  as_choices : option (list json);
  as_enum : option (list json);
  as_max_length : option Z;
  as_min_length : option Z;
  as_regex : option string;
}.
Record RelationshipSchema := mkRelationshipSchema {
  rs_id : option string;
  rs_state : SchemaState;
  rs_name : string;
  rs_peer : string;
  rs_kind : RelationshipKind;
  rs_label : option string;
  rs_description : option string;
  rs_identifier : option string;
  rs_inherited : bool;
  rs_cardinality : RelationshipCardinality;
  rs_branch : option BranchSupportType;
  rs_optional : bool;
  rs_read_only : bool;
  rs_filters : list FilterSchema;
}.
(** [AttributeSchema(name=name, kind=kind)] and [RelationshipSchema(name=name, peer=peer)] *)
Definition attribute_schema (name kind : string) : AttributeSchema :=
  mkAttributeSchema None PRESENT name kind None None JNull false false None false false None None None None None.
Definition relationship_schema (name peer : string) : RelationshipSchema :=
  mkRelationshipSchema None PRESENT name peer GENERIC None None None false MANY None true false [].

(** The classes of nodes, with the fields that only they have. *)
Inductive SchemaClass :=
  | GenericSchema (used_by : list string)
  | NodeSchema (inherit_from : list string) (branch : option BranchSupportType) (default_filter : option string)
      (human_friendly_id : option (list string))
  | ProfileSchema (inherit_from : list string).
Record BaseNodeSchema := mkBaseNodeSchema {
  bs_class : SchemaClass;
  bs_id : option string;
  bs_state : SchemaState;
  bs_name : string;
  bs_label : option string;
  bs_namespace : string;
  bs_description : option string;
  bs_attributes : list AttributeSchema;
  bs_relationships : list RelationshipSchema;
  bs_filters : list FilterSchema;
}.

Definition kind (s : BaseNodeSchema) : string := bs_namespace s +:+ bs_name s.
(** [schema.inherit_from]; [None] where the class has no such field. *)
Definition inherit_from (s : BaseNodeSchema) : option (list string) :=
  match bs_class s with NodeSchema l _ _ _ | ProfileSchema l => Some l | GenericSchema _ => None end.
Definition human_friendly_id (s : BaseNodeSchema) : option (list string) :=
  match bs_class s with NodeSchema _ _ _ hfid => hfid | _ => None end.

Definition get_attribute_or_none (s : BaseNodeSchema) (name : string) : option AttributeSchema :=
  snd <$> list_find (λ item, as_name item = name) (bs_attributes s).
Definition get_attribute (s : BaseNodeSchema) (name : string) : result AttributeSchema :=
  match get_attribute_or_none s name with Some item => Ok item | None => Err (ValueError "Unable to find the attribute") end.
Definition get_relationship_or_none (s : BaseNodeSchema) (name : string) : option RelationshipSchema :=
  snd <$> list_find (λ item, rs_name item = name) (bs_relationships s).
Definition get_relationship (s : BaseNodeSchema) (name : string) : result RelationshipSchema :=
  match get_relationship_or_none s name with Some item => Ok item | None => Err (ValueError "Unable to find the relationship") end.
Definition get_relationship_by_identifier (s : BaseNodeSchema) (id : string) (raise_on_error : bool) : result (option RelationshipSchema) :=
  match list_find (λ item, rs_identifier item = Some id) (bs_relationships s) with
  | Some (_, item) => Ok (Some item)
  | None => if raise_on_error then Err (ValueError "Unable to find the relationship") else Ok None
  end.
Definition get_field (s : BaseNodeSchema) (name : string) (raise_on_error : bool) : result (option (AttributeSchema + RelationshipSchema)) :=
  match get_attribute_or_none s name, get_relationship_or_none s name with
  | Some attribute, _ => Ok (Some (inl attribute))
  | None, Some relationship => Ok (Some (inr relationship))
  | None, None => if raise_on_error then Err (ValueError "Unable to find the field") else Ok None
  end.

Definition attribute_names (s : BaseNodeSchema) : list string := as_name <$> bs_attributes s.
Definition relationship_names (s : BaseNodeSchema) : list string := rs_name <$> bs_relationships s.
Definition mandatory_attribute_names (s : BaseNodeSchema) : list string :=
  as_name <$> filter (λ item, as_optional item = false ∧ as_default_value item = JNull) (bs_attributes s).
Definition mandatory_relationship_names (s : BaseNodeSchema) : list string :=
  rs_name <$> filter (λ item, rs_optional item = false) (bs_relationships s).
Definition mandatory_input_names (s : BaseNodeSchema) : list string := mandatory_attribute_names s ++ mandatory_relationship_names s.
Definition local_attributes (s : BaseNodeSchema) : list AttributeSchema := filter (λ item, as_inherited item = false) (bs_attributes s).
Definition local_relationships (s : BaseNodeSchema) : list RelationshipSchema := filter (λ item, rs_inherited item = false) (bs_relationships s).
Definition unique_attributes (s : BaseNodeSchema) : list AttributeSchema := filter (λ item, as_unique item = true) (bs_attributes s).

Definition validate_data_against_schema (schema : BaseNodeSchema) (data : list (string * json)) : result unit :=
  for_all (λ key, if decide (key ∈ relationship_names schema ++ attribute_names schema) then Ok tt
                  else Err (ValidationError "is not a valid value")) (dict_keys data).

(** [str(value)] is given by [py_str]. *)
Definition generate_payload_create (py_str : json → string) (schema : BaseNodeSchema) (data : list (string * json))
    (source owner : option string) (is_protected is_visible : option bool) : result (list (string * json)) :=
  let text name o := if truthy_str o then [(name, JStr (default "" o))] else [] in
  let flag name o := match o with Some b => [(name, JBool b)] | None => [] end in
  let item_metadata := text "source" source ++ text "owner" owner ++ flag "is_protected" is_protected ++ flag "is_visible" is_visible in
  let item value := JDict (dict_update [("id", JStr (py_str value))] item_metadata) in
  foldM (λ obj_data kv,
    value ← (if decide (kv.1 ∈ attribute_names schema) then Ok (JDict (dict_update [("value", kv.2)] item_metadata))
             else if decide (kv.1 ∈ relationship_names schema) then
               rel ← get_relationship schema kv.1;
               match rs_cardinality rel, kv.2 with
               | ONE, value => Ok (item value)
               | MANY, JList l => Ok (JList (item <$> l))
               | MANY, JStr s => Ok (JList ((λ c, item (JStr (String c ""))) <$> String.list_ascii_of_string s))
               | MANY, JDict d => Ok (JList ((λ k, item (JStr k)) <$> dict_keys d))
               | MANY, _ => Err (TypeError "object is not iterable")
               end
             else Ok (JDict []));
    Ok (dict_set obj_data kv.1 value)) [] data.

(** ** The cache of schemas *)

(** [InfrahubSchema]: the schemas of the branches that were asked for; [calls] counts the
    requests.  What the server answers to a request is a parameter. *)
Record SchemaCache := mkSchemaCache {
  cache : list (string * list (string * BaseNodeSchema));
  calls : nat;
}.
#[export] Instance SchemaCache_rebuild : Rebuild SchemaCache := λ c, mkSchemaCache (cache c) (calls c).

Section infrahub_schema.
Context (server : nat → string → list string → result (list BaseNodeSchema * list BaseNodeSchema * list BaseNodeSchema)).

Definition fetch (branch : string) (namespaces : list string) : Exec SchemaCache (list (string * BaseNodeSchema)) :=
  n ← gets calls;
  _ ← modify (λ c, c <| calls := S n |>);
  data ← lift (server n branch namespaces);
  let '(nodes, generics, profiles) := data in
  mret (dict_of_list ((λ s, (kind s, s)) <$> nodes ++ generics ++ profiles)).
(** [self.cache[branch] = await self.fetch(...)] *)
Definition refresh_cache (branch : string) (namespaces : list string) : Exec SchemaCache unit :=
  schemas ← fetch branch namespaces;
  modify (λ c, c <| cache := dict_set (cache c) branch schemas |>).
Definition cached (c : SchemaCache) (branch kind : string) : option BaseNodeSchema :=
  schemas ← dict_get (cache c) branch; dict_get schemas kind.

Definition get (kind branch : string) (refresh : bool) : Exec SchemaCache BaseNodeSchema :=
  _ ← (if refresh then refresh_cache branch [] else mret tt);
  c ← get_state;
  match cached c branch kind with
  | Some schema => mret schema
  | None =>
      _ ← (if refresh then mret tt else refresh_cache branch []);
      c ← get_state;
      match cached c branch kind with
      | Some schema => mret schema
      | None => raise (SchemaNotFoundError kind)
      end
  end.
Definition all (branch : string) (refresh : bool) (namespaces : list string) : Exec SchemaCache (list (string * BaseNodeSchema)) :=
  c ← get_state;
  _ ← (if refresh || negb (dict_mem (cache c) branch) then refresh_cache branch namespaces else mret tt);
  c ← get_state;
  match dict_get (cache c) branch with Some schemas => mret schemas | None => raise (KeyError branch) end.
End infrahub_schema.

(** [InfrahubNodeBase.validate_filters] *)
Definition validate_filters (s : BaseNodeSchema) (filters : option (list (string * json))) : result bool :=
  _ ← for_all (λ filter_name,
        if bool_decide (Exists (λ filter_schema, fs_name filter_schema = filter_name) (bs_filters s)) then Ok tt
        else Err (LookupError "FilterNotFoundError")) (dict_keys (default [] filters));
  Ok true.

(** ** Access to the fields *)

(** The first element with a name, when the names are distinct, is the one that has it. *)
Lemma list_find_key {A} (key : A → string) l x : NoDup (key <$> l) → x ∈ l →
  snd <$> list_find (λ y, key y = key x) l = Some x.
Proof.
  induction l as [|y l IH]; [by intros _ ?%elem_of_nil|]. rewrite fmap_cons, NoDup_cons. intros [Hy Hl] Hx. cbn.
  case_decide as Hk; cbn.
  - apply elem_of_cons in Hx as [->|Hx]; [done|]. contradict Hy. rewrite Hk. by apply list_elem_of_fmap_2.
  - apply elem_of_cons in Hx as [->|Hx]; [done|]. rewrite <-(IH Hl Hx). by destruct (list_find _ l) as [[]|].
Qed.
Lemma get_relationship_elem s r : NoDup (relationship_names s) → r ∈ bs_relationships s → get_relationship s (rs_name r) = Ok r.
Proof. intros Hnd Hr. unfold get_relationship, get_relationship_or_none. by rewrite (list_find_key rs_name). Qed.
Lemma get_attribute_elem s a : NoDup (attribute_names s) → a ∈ bs_attributes s → get_attribute s (as_name a) = Ok a.
Proof. intros Hnd Ha. unfold get_attribute, get_attribute_or_none. by rewrite (list_find_key as_name). Qed.

(** The filters are accepted exactly when the schema has each of them. *)
Lemma validate_filters_spec s filters :
  validate_filters s filters = Ok true ↔ ∀ name, name ∈ dict_keys (default [] filters) → ∃ f, f ∈ bs_filters s ∧ fs_name f = name.
Proof.
  unfold validate_filters. rewrite bind_ok. split.
  - intros ([] & Hall & _) name Hin. apply for_all_ok with (x := name) in Hall; [|done].
    case_bool_decide as He; [|done]. by apply Exists_exists in He.
  - intros Hall. exists tt. split; [|done]. apply for_all_ok. intros name Hin.
    rewrite bool_decide_eq_true_2; [done|]. apply Exists_exists. by apply Hall.
Qed.

(** ** The cache *)

Section cache.
Context (server : nat → string → list string → result (list BaseNodeSchema * list BaseNodeSchema * list BaseNodeSchema)).

#[local] Arguments cached : simpl never.
Lemma refresh_cache_run branch namespaces c :
  refresh_cache server branch namespaces c =
    match server (calls c) branch namespaces with
    | Ok (nodes, generics, profiles) =>
        (Ok tt, mkSchemaCache (dict_set (cache c) branch (dict_of_list ((λ s, (kind s, s)) <$> nodes ++ generics ++ profiles))) (S (calls c)))
    | Err e => (Err e, mkSchemaCache (cache c) (S (calls c)))
    end.
Proof. unfold refresh_cache, fetch, mbind, exec_bind. cbn. by destruct (server _ _ _) as [[[nodes generics] profiles]|]. Qed.

(** Every cached schema is under its kind. *)
Definition cache_ok (c : SchemaCache) : Prop := ∀ branch k s, cached c branch k = Some s → kind s = k.

Lemma dict_of_list_kinds (l : list BaseNodeSchema) k s : dict_get (dict_of_list ((λ s, (kind s, s)) <$> l)) k = Some s → kind s = k ∧ s ∈ l.
Proof.
  intros (l1 & l2 & Hl & _)%dict_get_of_list_last.
  assert ((k, s) ∈ (λ s, (kind s, s)) <$> l) as (s' & [= -> ->] & Hin)%list_elem_of_fmap by (rewrite Hl; set_solver). done.
Qed.
Lemma cached_set c branch schemas n b k :
  cached (mkSchemaCache (dict_set (cache c) branch schemas) n) b k = if decide (branch = b) then dict_get schemas k else cached c b k.
Proof. unfold cached. cbn. rewrite dict_get_set. by case_decide. Qed.
Lemma refresh_cache_ok branch namespaces : keeps cache_ok (refresh_cache server branch namespaces).
Proof.
  intros c Hc. rewrite refresh_cache_run. destruct (server _ _ _) as [[[nodes generics] profiles]|e]; [|exact Hc].
  intros b k s. cbn [snd]. rewrite cached_set. case_decide; [|apply Hc]. by intros [? _]%dict_of_list_kinds.
Qed.
Lemma get_cache_ok k branch refresh : keeps cache_ok (get server k branch refresh).
Proof.
  unfold get. apply keeps_bind; [destruct refresh; [apply refresh_cache_ok|apply keeps_ret]|intros []].
  apply keeps_bind; [by intros c|intros c]. destruct (cached c branch k); [apply keeps_ret|].
  apply keeps_bind; [destruct refresh; [apply keeps_ret|apply refresh_cache_ok]|intros []].
  apply keeps_bind; [by intros c'|intros c']. destruct (cached c' branch k); [apply keeps_ret|apply keeps_raise].
Qed.

(** A schema that [get] does not find is not one that the server has: its last answer does
    not hold it. *)
Lemma get_missing k branch refresh c c' :
  get server k branch refresh c = (Err (SchemaNotFoundError k), c') →
  (∀ n b, server n b [] ≠ Err (SchemaNotFoundError k)) →
  ∃ nodes generics profiles, server (calls c) branch [] = Ok (nodes, generics, profiles) ∧ calls c' = S (calls c) ∧
    ∀ s, s ∈ nodes ++ generics ++ profiles → kind s ≠ k.
Proof.
  intros Hget Hserver.
  assert (∃ c1, refresh_cache server branch [] c = (Ok tt, c1) ∧ cached c1 branch k = None ∧ c' = c1) as (c1 & Hr & Hnone & ->).
  { unfold get in Hget. destruct refresh.
    - unfold mbind, exec_bind in Hget. rewrite refresh_cache_run in *. destruct (server _ _ _) as [[[nodes generics] profiles]|e] eqn:Hs.
      + eexists. split; [done|]. cbn in Hget.
        match type of Hget with context [cached ?s _ _] => destruct (cached s branch k) eqn:Hk end; cbn in Hget; [done|].
        rewrite Hk in Hget. by injection Hget as <-.
      + injection Hget as -> _. by destruct (Hserver (calls c) branch).
    - unfold mbind, exec_bind in Hget. cbn in Hget. destruct (cached c branch k) eqn:Hc; [done|]. rewrite refresh_cache_run in *.
      destruct (server _ _ _) as [[[nodes generics] profiles]|e] eqn:Hs.
      + eexists. split; [done|]. cbn in Hget.
        match type of Hget with context [cached ?s _ _] => destruct (cached s branch k) eqn:Hk end; cbn in Hget; [done|].
        by injection Hget as <-.
      + injection Hget as -> _. by destruct (Hserver (calls c) branch). }
  rewrite refresh_cache_run in Hr. destruct (server _ _ _) as [[[nodes generics] profiles]|e]; [|done]. injection Hr as <-.
  exists nodes, generics, profiles. split_and!; [done|done|]. rewrite cached_set, decide_True in Hnone by done.
  apply dict_get_None in Hnone. intros s Hs Hk. apply Hnone, dict_of_list_keys. rewrite <-list_fmap_compose.
  apply list_elem_of_fmap. by exists s.
Qed.
End cache.

(** The whole schema of a branch that [all] is asked for, after the schemas of one namespace,
    is only that of the namespace, since the answer is cached under the branch alone. *)
Theorem partial_schema_cached :
  let tag := mkBaseNodeSchema (NodeSchema [] None None None) None PRESENT "Tag" None "Builtin" None [] [] [] in
  let device := mkBaseNodeSchema (NodeSchema [] None None None) None PRESENT "Device" None "Infra" None [] [] [] in
  let server (_ : nat) (_ : string) namespaces :=
    Ok (filter (λ s, namespaces = [] ∨ bs_namespace s ∈ namespaces) [tag; device], @nil BaseNodeSchema, @nil BaseNodeSchema) in
  let '(first, c) := all server "main" false ["Builtin"] (mkSchemaCache [] 0) in
  first = Ok [("BuiltinTag", tag)] ∧ (all server "main" false [] c).1 = Ok [("BuiltinTag", tag)] ∧
  (all server "main" true [] c).1 = Ok [("BuiltinTag", tag); ("InfraDevice", device)].
Proof. by vm_compute. Qed.
