(* ===== verification/SdkStore.v ===== *)
(** * The store of the SDK

    [python_sdk/infrahub_sdk/store.py]: the node objects that a client keeps, by kind and
    key and by human friendly id.  An object is known by its number. *)

From stdpp Require Import prelude strings.
From S2P Require Import Prelude PyString PyDict.

Record NodeStore := mkNodeStore {
  store : list (string * list (string * nat));
  store_by_hfid : list (string * nat);
}.
#[export] Instance NodeStore_rebuild : Rebuild NodeStore := λ s, mkNodeStore (store s) (store_by_hfid s).
Definition new_store : NodeStore := mkNodeStore [] [].

(** [self._store[kind]], where [_store] is a [defaultdict] *)
Definition kind_items (kind : string) : Exec NodeStore (list (string * nat)) :=
  _ ← modify (λ s, s <| store := dict_setdefault (store s) kind [] |>);
  gets (λ s, default [] (dict_get (store s) kind)).

(** [_set(node, key)]: [kind] and [hfid] are those of the node. *)
Definition store_set (node : nat) (kind : string) (hfid key : option string) : Exec NodeStore unit :=
  if negb (truthy_str key) && negb (truthy_str hfid) then raise (ValueError "Cannot store node without human friendly ID or key.") else
  _ ← (if truthy_str key then
         items ← kind_items kind;
         modify (λ s, s <| store := dict_set (store s) kind (dict_set items (default "" key) node) |>)
       else mret tt);
  if truthy_str hfid then modify (λ s, s <| store_by_hfid := dict_set (store_by_hfid s) (default "" hfid) node |>) else mret tt.

(** The first kind that holds the key *)
Definition find_key (s : NodeStore) (key : string) : option nat := head (omap (λ item, dict_get item.2 key) (store s)).
Definition missing (key : string) (raise_when_missing : bool) : Exec NodeStore (option nat) :=
  if raise_when_missing then raise (NodeNotFoundError key) else mret None.

(** [_get]: [kind and kind not in store and key not in store[kind]] is evaluated from the
    left, and reading [store[kind]] adds the kind. *)
Definition store_get (key : string) (kind : option string) (raise_when_missing : bool) : Exec NodeStore (option nat) :=
  s ← get_state;
  absent ← (match kind with
            | Some (String c k) =>
                if dict_mem (store s) (String c k) then mret false
                else items ← kind_items (String c k); mret (negb (dict_mem items key))
            | _ => mret false
            end);
  if (absent : bool) then missing key raise_when_missing else
  s ← get_state;
  match (match kind with Some (String c k) => items ← dict_get (store s) (String c k); dict_get items key | _ => None end) with
  | Some node => mret (Some node)
  | None => match find_key s key with Some node => mret (Some node) | None => missing key raise_when_missing end
  end.

Definition store_get_by_hfid (key : string) (raise_when_missing : bool) : Exec NodeStore (option nat) :=
  s ← get_state;
  match dict_get (store_by_hfid s) key with Some node => mret (Some node) | None => missing key raise_when_missing end.

(** ** Reading what was stored *)

Lemma kind_items_run kind s :
  kind_items kind s = (Ok (default [] (dict_get (store s) kind)), mkNodeStore (dict_setdefault (store s) kind []) (store_by_hfid s)).
Proof.
  unfold kind_items. erewrite exec_step by reflexivity. unfold gets. cbn. by rewrite dict_get_setdefault, decide_True.
Qed.

(** A node that was stored under a key is the one its kind and this key give. *)
Lemma store_set_get node kind hfid key raise_when_missing s s' :
  kind ≠ "" → key ≠ "" → store_set node kind hfid (Some key) s = (Ok tt, s') →
  store_get key (Some kind) raise_when_missing s' = (Ok (Some node), s').
Proof.
  intros Hkind Hkey Hset. destruct key as [|c key]; [done|]. destruct kind as [|d kind]; [done|].
  assert (dict_get (store s') (String d kind) ≫= (λ items, dict_get items (String c key)) = Some node) as Hget.
  { unfold store_set in Hset. cbn [truthy_str negb andb] in Hset. apply exec_bind_ok in Hset as ([] & s1 & Hs1 & Hs2).
    apply exec_bind_ok in Hs1 as (items & s0 & Hi & Hs1). rewrite kind_items_run in Hi. injection Hi as <- <-. injection Hs1 as <-.
    destruct (truthy_str hfid); injection Hs2 as <-; cbn; rewrite dict_get_set_eq; cbn; by rewrite dict_get_set_eq. }
  unfold store_get. erewrite exec_step by reflexivity.
  assert (dict_mem (store s') (String d kind) = true) as -> by (unfold dict_mem; by destruct (dict_get (store s') _)).
  erewrite exec_step by reflexivity. cbn beta iota. erewrite exec_step by reflexivity. cbn beta iota. by rewrite Hget.
Qed.

(** What a key and a kind give is what the store holds, under some kind. *)
Lemma store_get_in key kind r s node s' : store_get key kind r s = (Ok (Some node), s') →
  ∃ k items, (k, items) ∈ store s' ∧ dict_get items key = Some node.
Proof.
  intros (s0 & ? & [= <- <-] & H)%exec_bind_ok. apply exec_bind_ok in H as (absent & s1 & _ & H).
  destruct absent; [by destruct r|]. apply exec_bind_ok in H as (s2 & ? & [= <- <-] & H).
  destruct (match kind with Some (String c k) => _ | _ => None end) as [n|] eqn:Hn.
  - injection H as -> ->. destruct kind as [[|c k]|]; try done.
    destruct (dict_get (store s') (String c k)) as [items|] eqn:Hi; [|done]. eexists _, _. by split; [apply dict_get_Some_in|].
  - destruct (find_key s1 key) as [n|] eqn:Hf; [|by destruct r]. injection H as -> ->. unfold find_key in Hf.
    destruct (omap _ _) as [|m l] eqn:Ho; [done|]. injection Hf as ->.
    assert (node ∈ omap (λ item, dict_get item.2 key) (store s')) as ([k items] & Hin & Hget)%list_elem_of_omap by (rewrite Ho; left).
    by exists k, items.
Qed.

(** A key that a kind does not have is refused the first time, and the second time gives a node
    of another kind: the test of the kind has added it to the store. *)
Theorem second_get_other_kind :
  let '(_, s) := store_set 7 "InfraDevice" None (Some "atl1") new_store in
  let '(first, s) := store_get "atl1" (Some "InfraInterface") true s in
  first = Err (NodeNotFoundError "atl1") ∧ (store_get "atl1" (Some "InfraInterface") true s).1 = Ok (Some 7).
Proof. by vm_compute. Qed.
