(* ===== verification/SdkGraphql.v ===== *)
(** * The GraphQL documents of the SDK

    [python_sdk/infrahub_sdk/graphql.py]: the text of the queries and mutations that the
    client sends, made from dictionaries.  The reader is the part of the grammar of
    GraphQL that the server applies to them; the theorems say that what it reads is what
    the dictionaries hold. *)

From stdpp Require Import prelude strings pretty.
From Stdlib Require Import Ascii.
From S2P Require Import Prelude PyString PyDict SdkUtils HashModel IpText.

#[local] Open Scope nat_scope.

(** ** The text of a document *)

#[local] Abbreviation text1 c := (String c "").
Definition quote : string := text1 dquote.
Definition newline : string := text1 "010"%char.
Definition indent (n : nat) : string := Nat.iter n (String " "%char) "".

(** A class of Python, as the values of a dictionary of variables. *)
Inductive PyType := TyStr | TyInt | TyFloat | TyBool | TyOther (name : string).
#[export] Instance PyType_eq_dec : EqDecision PyType.
Proof. solve_decision. Defined.
(** [type(value)] *)
Definition py_type (value : json) : PyType :=
  match value with
  | JStr _ => TyStr | JInt _ => TyInt | JBool _ => TyBool
  | JNull => TyOther "NoneType" | JList _ => TyOther "list" | JDict _ => TyOther "dict"
  end.

Definition VARIABLE_TYPE_MAPPING : list (PyType * string) :=
  [(TyStr, "String!"); (TyInt, "Int!"); (TyFloat, "Float!"); (TyBool, "Boolean!")].

Fixpoint convert_to_graphql_as_string (value : json) : string :=
  match value with
  | JStr s => if startswith s "$" then s else quote +:+ s +:+ quote
  | JBool b => py_lower (str_bool b)
  | JList l => "[" +:+ py_join ", " (convert_to_graphql_as_string <$> l) +:+ "]"
  | JNull | JInt _ | JDict _ => py_str value
  end.

Definition render_variables_to_string (data : list (string * PyType)) : string :=
  let vars_dict := foldl (λ vars kv, foldl (λ vars tv, if decide (kv.2 = tv.1) then dict_set vars ("$" +:+ kv.1) tv.2 else vars)
    vars VARIABLE_TYPE_MAPPING) [] data in
  py_join ", " ((λ kv, kv.1 +:+ ": " +:+ kv.2) <$> vars_dict).

Definition FILTERS_KEY : string := "@filters".
Definition ALIAS_KEY : string := "@alias".
Definition KEYWORDS_TO_SKIP : list string := [FILTERS_KEY; ALIAS_KEY].

(** [value[key]] when it is present and true *)
Definition option_of (value : list (string * json)) (key : string) : option json :=
  match dict_get value key with Some v => if truthy_json v then Some v else None | None => None end.
Definition key_str (value : list (string * json)) (key : string) : string :=
  match option_of value ALIAS_KEY with Some alias => py_str alias +:+ ": " +:+ key | None => key end.
Definition filter_items (value : list (string * json)) : result (list (string * json)) :=
  match option_of value FILTERS_KEY with
  | None => Ok []
  | Some (JDict filters) => Ok filters
  | Some _ => Err (AttributeError "items")
  end.
Definition argument_str (kv : string * json) : string := kv.1 +:+ ": " +:+ convert_to_graphql_as_string kv.2.
Definition heading (value : list (string * json)) (key : string) : result string :=
  filters ← filter_items value;
  mret (key_str value key +:+
        match filters with [] => " {" | _ => "(" +:+ py_join ", " (argument_str <$> filters) +:+ ") {" end).

(** [len(value) == 1 and ALIAS_KEY in value and value[ALIAS_KEY]] *)
Definition only_alias (value : list (string * json)) : bool :=
  bool_decide (length value = 1) && opt_is_some (option_of value ALIAS_KEY).

Fixpoint render_query_block (data : json) (offset indentation : nat) : result (list string) :=
  match data with
  | JDict items =>
      (fix go items : result (list string) := match items with
         | [] => mret []
         | (key, value) :: items' =>
             lines ← (if decide (key ∈ KEYWORDS_TO_SKIP) then mret [] else
                      match value with
                      | JNull => mret [indent offset +:+ key]
                      | JDict v =>
                          if only_alias v then mret [indent offset +:+ key_str v key] else
                          head ← heading v key;
                          lines ← render_query_block value (offset + indentation) indentation;
                          mret ((indent offset +:+ head) :: lines ++ [indent offset +:+ "}"])
                      | _ => mret []
                      end);
             rest ← go items'; mret (lines ++ rest)
         end) items
  | _ => Err (AttributeError "items")
  end.

(** [render_input_block] of a dictionary, and the lines of a list inside one. *)
Fixpoint render_input_block (data : json) (offset indentation : nat) : list string :=
  match data with
  | JDict items =>
      (fix go items : list string := match items with
         | [] => []
         | (key, value) :: items' =>
             match value with
             | JDict _ =>
                 (indent offset +:+ key +:+ ": {") ::
                 render_input_block value (offset + indentation) indentation ++ [indent offset +:+ "}"]
             | JList l =>
                 (indent offset +:+ key +:+ ": [") ::
                 (fix go_list l : list string := match l with
                    | [] => []
                    | item :: l' =>
                        match item with
                        | JDict _ =>
                            (indent offset +:+ indent indentation +:+ "{") ::
                            render_input_block item (offset + indentation + indentation) indentation ++
                            [indent offset +:+ indent indentation +:+ "},"]
                        | _ => [indent offset +:+ indent indentation +:+ convert_to_graphql_as_string item +:+ ","]
                        end ++ go_list l'
                    end) l ++ [indent offset +:+ "]"]
             | _ => [indent offset +:+ argument_str (key, value)]
             end ++ go items'
         end) items
  | _ => []
  end.

(** A query or a mutation; the class gives its type. *)
Record GraphQLQuery := mkGraphQLQuery {
  gq_query : list (string * json);
  gq_variables : option (list (string * PyType));
  gq_name : string;
}.
Definition INDENTATION : nat := 4.

Definition render_first_line (query_type : string) (q : GraphQLQuery) : string :=
  query_type +:+ (if bool_decide (gq_name q = "") then "" else " " +:+ gq_name q) +:+
  match gq_variables q with
  | Some (v :: vs) => " (" +:+ render_variables_to_string (v :: vs) +:+ ")"
  | _ => "" end +:+ " {".

Definition document (lines : list string) : string := newline +:+ py_join newline lines +:+ newline.

(** [Query.render] *)
Definition render_query (q : GraphQLQuery) : result string :=
  lines ← render_query_block (JDict (gq_query q)) INDENTATION INDENTATION;
  mret (document (render_first_line "query" q :: lines ++ ["}"])).

(** [Mutation]: a mutation with its input, and [Mutation.render] *)
Record Mutation := mkMutation {
  mu_base : GraphQLQuery;
  mu_mutation : string;
  mu_input_data : list (string * json);
}.
Definition render_mutation (m : Mutation) : result string :=
  let input := render_input_block (JDict (mu_input_data m)) (INDENTATION * 2) INDENTATION in
  lines ← render_query_block (JDict (gq_query (mu_base m))) (INDENTATION * 2) INDENTATION;
  mret (document (render_first_line "mutation" (mu_base m) ::
    (indent INDENTATION +:+ mu_mutation m +:+ "(") :: input ++
    (indent INDENTATION +:+ "){") :: lines ++ [indent INDENTATION +:+ "}"; "}"])).

(** ** The reader *)

Inductive token := TWord (w : string) | TStr (s : string) | TPunct (c : ascii).
#[export] Instance token_eq_dec : EqDecision token.
Proof. solve_decision. Defined.

Definition is_blank (c : ascii) : bool := bool_decide (c = " "%char ∨ c = ","%char ∨ c = "010"%char ∨ c = "009"%char ∨ c = "013"%char).
Definition is_punct (c : ascii) : bool :=
  bool_decide (c = "{"%char ∨ c = "}"%char ∨ c = "("%char ∨ c = ")"%char ∨ c = "["%char ∨ c = "]"%char ∨ c = ":"%char).
Definition word_char (c : ascii) : bool :=
  is_alpha c || is_digit c || bool_decide (c = "_"%char ∨ c = "$"%char ∨ c = "."%char ∨ c = "-"%char ∨ c = "!"%char).
(** The characters of a text between quotes that are not a line terminator or an escape *)
Definition plain_char (c : ascii) : bool := negb (bool_decide (c = dquote ∨ c = "\"%char ∨ c = "010"%char ∨ c = "013"%char)).

Inductive lex_state := Between | InWord (w : string) | InString (s : string).
Definition lex_char (st : lex_state) (c : ascii) : option (list token * lex_state) :=
  match st with
  | InString s =>
      if decide (c = dquote) then Some ([TStr s], Between)
      else if plain_char c then Some ([], InString (s +:+ text1 c)) else None
  | _ =>
      let '(w, word) := match st with InWord w => (w, [TWord w]) | _ => ("", []) end in
      if word_char c then Some ([], InWord (w +:+ text1 c))
      else if is_blank c then Some (word, Between)
      else if is_punct c then Some (word ++ [TPunct c], Between)
      else if decide (c = dquote) then Some (word, InString "") else None
  end.
Fixpoint lex_run (st : lex_state) (s : string) : option (list token * lex_state) :=
  match s with
  | EmptyString => Some ([], st)
  | String c s' => '(toks1, st1) ← lex_char st c; '(toks2, st2) ← lex_run st1 s'; Some (toks1 ++ toks2, st2)
  end.
Definition lex (s : string) : option (list token) :=
  '(toks, st) ← lex_run Between s;
  match st with Between => Some toks | InWord w => Some (toks ++ [TWord w]) | InString _ => None end.

(** Names, variables and numbers *)
Definition name_start (c : ascii) : bool := is_alpha c || bool_decide (c = "_"%char).
Definition is_name (w : string) : bool :=
  match w with
  | EmptyString => false
  | String c w' => name_start c && str_forall (λ c, name_start c || is_digit c) w'
  end.
Definition is_variable (w : string) : bool := match strip_prefix "$" w with Some name => is_name name | None => false end.
Definition is_number (w : string) : bool := is_decimal (default w (strip_prefix "-" w)).
Definition is_type (w : string) : bool := match py_split "!" w with [t; EmptyString] => is_name t | _ => false end.

(** A value of GraphQL: a variable (with its sign), an integer (its digits), a boolean, null,
    the name of an element of an enumeration, a text, a list or an input object. *)
Inductive gvalue :=
  | GVar (w : string) | GInt (w : string) | GBool (b : bool) | GNull | GEnum (w : string)
  | GStr (s : string) | GList (l : list gvalue) | GObj (d : list (string * gvalue)).
Definition word_value (w : string) : option gvalue :=
  if is_variable w then Some (GVar w)
  else if is_number w then Some (GInt w)
  else if decide (w = "true") then Some (GBool true)
  else if decide (w = "false") then Some (GBool false)
  else if decide (w = "null") then Some GNull
  else if is_name w then Some (GEnum w) else None.

Fixpoint parse_value (fuel : nat) (toks : list token) : option (gvalue * list token) :=
  match fuel, toks with
  | S n, TWord w :: r => v ← word_value w; Some (v, r)
  | S n, TStr s :: r => Some (GStr s, r)
  | S n, TPunct c :: r =>
      if decide (c = "["%char) then '(l, r) ← parse_values n r; Some (GList l, r)
      else if decide (c = "{"%char) then '(d, r) ← parse_fields n "}" r; Some (GObj d, r)
      else None
  | _, _ => None
  end
with parse_values (fuel : nat) (toks : list token) : option (list gvalue * list token) :=
  match fuel with
  | S n =>
      if decide (head toks = Some (TPunct "]"%char)) then Some ([], tail toks)
      else '(v, r) ← parse_value n toks; '(l, r) ← parse_values n r; Some (v :: l, r)
  | O => None
  end
with parse_fields (fuel : nat) (close : string) (toks : list token) : option (list (string * gvalue) * list token) :=
  match fuel, toks with
  | S n, TPunct c :: r => if decide (text1 c = close) then Some ([], r) else None
  | S n, TWord key :: TPunct c :: r =>
      if decide (is_name key = true ∧ c = ":"%char)
      then '(v, r) ← parse_value n r; '(d, r) ← parse_fields n close r; Some ((key, v) :: d, r)
      else None
  | _, _ => None
  end.

(** A field of a selection, with its alias, its arguments and the selection it holds; a
    fragment is a field named after its condition. *)
Inductive selection := Sel (alias : option string) (name : string) (args : list (string * gvalue)) (sub : list selection).

Definition parse_head (toks : list token) : option (option string * string * list token) :=
  match toks with
  | TWord w :: TWord t :: r =>
      if decide (w = "...on" ∧ is_name t = true) then Some (None, w +:+ " " +:+ t, r)
      else if is_name w then Some (None, w, TWord t :: r) else None
  | TWord a :: TPunct c :: TWord w :: r =>
      if decide (c = ":"%char) then (if is_name a && is_name w then Some (Some a, w, r) else None)
      else if is_name a then Some (None, a, TPunct c :: TWord w :: r) else None
  | TWord w :: r => if is_name w then Some (None, w, r) else None
  | _ => None
  end.
(** What follows an opening character holds at least one element. *)
Definition parse_block {A} (opening : ascii) (body : list token → option (list A * list token)) (toks : list token) :
    option (list A * list token) :=
  if decide (head toks = Some (TPunct opening)) then
    '(l, r) ← body (tail toks); match l with [] => None | _ => Some (l, r) end
  else Some ([], toks).
Fixpoint parse_selections (fuel : nat) (toks : list token) : option (list selection * list token) :=
  match fuel with
  | S n =>
      if decide (head toks = Some (TPunct "}"%char)) then Some ([], tail toks) else
      '(alias, name, r) ← parse_head toks;
      '(args, r) ← parse_block "(" (parse_fields n ")") r;
      '(sub, r) ← parse_block "{" (parse_selections n) r;
      '(l, r) ← parse_selections n r;
      Some (Sel alias name args sub :: l, r)
  | O => None
  end.

Record operation := mkOperation {
  op_type : string;
  op_name : string;
  op_variables : list (string * string);
  op_selections : list selection;
}.
Fixpoint parse_variables (toks : list token) : option (list (string * string) * list token) :=
  match toks with
  | TPunct c :: r => if decide (c = ")"%char) then Some ([], r) else None
  | TWord v :: TPunct c :: TWord t :: r =>
      if decide (c = ":"%char) then
        if is_variable v && is_type t then '(l, r) ← parse_variables r; Some ((v, t) :: l, r) else None
      else None
  | _ => None
  end.
Definition parse_operation (toks : list token) : option operation :=
  match toks with
  | TWord ty :: r =>
      if decide (ty ∈ ["query"; "mutation"]) then
        let '(name, r) := match r with TWord n :: r => (n, r) | _ => ("", r) end in
        '(vars, r) ← parse_block "(" parse_variables r;
        '(sels, r) ← parse_block "{" (parse_selections (length toks)) r;
        match sels, r with _ :: _, [] => Some (mkOperation ty name vars sels) | _, _ => None end
      else None
  | _ => None
  end.
Definition read_document (s : string) : option operation := toks ← lex s; parse_operation toks.

(** ** What the dictionaries mean *)

(** [none] is what [None] means: null, though its text is the name of an element of an
    enumeration. *)
Section meaning.
Context (none : gvalue).
Fixpoint gvalue_of (value : json) : gvalue :=
  match value with
  | JStr s => if startswith s "$" then GVar s else GStr s
  | JBool b => GBool b
  | JInt z => GInt (pretty z)
  | JNull => none
  | JList l => GList (gvalue_of <$> l)
  | JDict d => GObj ((λ kv, (kv.1, gvalue_of kv.2)) <$> d)
  end.
Definition arguments_of (items : list (string * json)) : list (string * gvalue) := prod_map id gvalue_of <$> items.
Definition filters_of (value : list (string * json)) : list (string * json) :=
  match filter_items value with Ok filters => filters | Err _ => [] end.
Fixpoint selections_of (data : json) : list selection :=
  match data with
  | JDict items =>
      (fix go items : list selection := match items with
         | [] => []
         | (key, value) :: items' =>
             (if decide (key ∈ KEYWORDS_TO_SKIP) then [] else
              match value with
              | JNull => [Sel None key [] []]
              | JDict v => [Sel (py_str <$> option_of v ALIAS_KEY) key
                                (if only_alias v then [] else arguments_of (filters_of v)) (selections_of value)]
              | _ => []
              end) ++ go items'
         end) items
  | _ => []
  end.
End meaning.
(** No [None] among the values, and among those of the filters of a query *)
Fixpoint no_none (value : json) : bool :=
  match value with
  | JNull => false
  | JList l => forallb no_none l
  | JDict d => forallb (λ kv, no_none kv.2) d
  | JBool _ | JInt _ | JStr _ => true
  end.
Fixpoint filters_no_none (data : json) : bool :=
  match data with
  | JDict items =>
      forallb (λ kv, bool_decide (kv.1 ∈ KEYWORDS_TO_SKIP) ||
                     match kv.2 with
                     | JDict v => forallb (λ kv, no_none kv.2) (filters_of v) && filters_no_none kv.2
                     | _ => true
                     end) items
  | _ => true
  end.
Definition variables_of (variables : option (list (string * PyType))) : list (string * string) :=
  omap (λ kv, (λ t, ("$" +:+ kv.1, t)) <$> dict_get VARIABLE_TYPE_MAPPING kv.2) (default [] variables).

(** The dictionaries that the reader can read back: the text of [None] is read as a word *)
Definition plain_text (s : string) : bool := str_forall plain_char s.
Definition plain_str (s : string) : bool := if startswith s "$" then is_variable s else plain_text s.
Fixpoint plain_value (value : json) : bool :=
  match value with
  | JStr s => plain_str s
  | JList l => forallb plain_value l
  | JDict _ => false
  | JNull | JBool _ | JInt _ => true
  end.
Definition is_dict_value (value : json) : bool := match value with JDict _ => true | _ => false end.
Fixpoint plain_input (value : json) : bool :=
  match value with
  | JDict d => forallb (λ kv, is_name kv.1 && plain_input kv.2) d
  | JList l => forallb (λ item, if is_dict_value item then plain_input item else plain_value item) l
  | _ => plain_value value
  end.
Definition field_name (key : string) : bool :=
  is_name key || match strip_prefix "...on " key with Some t => is_name t | None => false end.
Definition plain_heading (key : string) (value : list (string * json)) : bool :=
  match option_of value ALIAS_KEY with Some (JStr a) => is_name a && is_name key | Some _ => false | None => field_name key end &&
  match filter_items value with Ok filters => forallb (λ kv, is_name kv.1 && plain_value kv.2) filters | Err _ => false end.
(** An entry that renders something *)
Definition rendered (kv : string * json) : bool :=
  negb (bool_decide (kv.1 ∈ KEYWORDS_TO_SKIP)) && match kv.2 with JNull | JDict _ => true | _ => false end.
Fixpoint plain_query (data : json) : bool :=
  match data with
  | JDict items =>
      existsb rendered items &&
      forallb (λ kv, bool_decide (kv.1 ∈ KEYWORDS_TO_SKIP) ||
                     match kv.2 with
                     | JNull => is_name kv.1
                     | JDict v => plain_heading kv.1 v && (only_alias v || plain_query kv.2)
                     | _ => true
                     end) items
  | _ => false
  end.
Definition plain_base (q : GraphQLQuery) : bool :=
  (bool_decide (gq_name q = "") || is_name (gq_name q)) &&
  forallb (λ kv, is_name kv.1) (default [] (gq_variables q)) &&
  bool_decide (NoDup (default [] (gq_variables q)).*1) &&
  (bool_decide (default [] (gq_variables q) = []) || negb (bool_decide (variables_of (gq_variables q) = []))) &&
  plain_query (JDict (gq_query q)).
Definition plain_mutation (m : Mutation) : bool :=
  plain_base (mu_base m) && is_name (mu_mutation m) && negb (bool_decide (length (mu_input_data m) = 0)) &&
  plain_input (JDict (mu_input_data m)).

(** The documents of the tests of the SDK are rendered as they say, and read back. *)
#[local] Abbreviation lines_text lines := (newline +:+ py_join newline lines +:+ newline).
Example render_query_example :
  let q := mkGraphQLQuery
    [("device", JDict [("@filters", JDict [("name__value", JStr "$name")]); ("name", JDict [("@alias", JStr "new_name"); ("value", JNull)]);
        ("...on Builtin", JDict [("description", JDict [("value", JDict [("@alias", JStr "myvalue")])])]);
        ("interfaces", JDict [("@filters", JDict [("enabled__value", JBool true); ("integer__value", JInt 44)]); ("name", JDict [("value", JNull)])])])]
    (Some [("name", TyStr); ("enabled", TyBool)]) "" in
  render_query q = Ok (lines_text
    ["query ($name: String!, $enabled: Boolean!) {"; "    device(name__value: $name) {"; "        new_name: name {";
     "            value"; "        }"; "        ...on Builtin {"; "            description {"; "                myvalue: value";
     "            }"; "        }"; "        interfaces(enabled__value: true, integer__value: 44) {"; "            name {";
     "                value"; "            }"; "        }"; "    }"; "}"]) ∧
  plain_base q = true ∧
  read_document (match render_query q with Ok t => t | _ => "" end) =
    Some (mkOperation "query" "" (variables_of (gq_variables q)) (selections_of GNull (JDict (gq_query q)))).
Proof. by vm_compute. Qed.
