(* ===== verification/SdkGraphqlFacts.v ===== *)
(** * Theorems about the GraphQL documents of the SDK

    The text that [SdkGraphql] renders is cut into the words it was made from, and the
    reader makes the dictionaries of these words. *)

From stdpp Require Import prelude strings pretty.
From Stdlib Require Import Ascii.
From S2P Require Import Prelude PyString PyDict SdkUtils HashModel IpText SdkGraphql.

#[local] Open Scope nat_scope.

(** What the text of [None] is read as *)
#[local] Abbreviation written := (GEnum "None").
#[local] Abbreviation text1 c := (String c "").

(** ** Cutting a text into words *)

Lemma lex_run_app st s1 t1 st1 s2 t2 st2 :
  lex_run st s1 = Some (t1, st1) → lex_run st1 s2 = Some (t2, st2) → lex_run st (s1 +:+ s2) = Some (t1 ++ t2, st2).
Proof.
  revert st t1. induction s1 as [|c s1 IH]; intros st t1; cbn [lex_run].
  { by intros [= <- <-]. }
  rewrite str_app_cons. cbn [lex_run]. destruct (lex_char st c) as [[u stu]|]; cbn; [|done].
  destruct (lex_run stu s1) as [[v stv]|] eqn:Hv; cbn; [|done]. intros [= <- <-] H2.
  rewrite (IH _ _ Hv H2). cbn. by rewrite app_assoc.
Qed.

(** A delimiter ends the word before it. *)
Definition delimiter (d : ascii) : bool := is_blank d || is_punct d.
Definition punct_of (d : ascii) : list token := if is_blank d then [] else [TPunct d].
(** [s], followed by a delimiter, is the words [toks]. *)
Definition reads (s : string) (toks : list token) : Prop :=
  ∀ d, delimiter d = true → lex_run Between (s +:+ text1 d) = Some (toks ++ punct_of d, Between).

Lemma delimiter_not_word d : delimiter d = true → word_char d = false.
Proof.
  unfold delimiter, is_blank, is_punct. rewrite orb_true_iff, !bool_decide_eq_true. intros Hd.
  repeat destruct Hd as [Hd|Hd]; subst d; done.
Qed.
Lemma lex_char_delimiter w d : delimiter d = true →
  lex_char (InWord w) d = Some (TWord w :: punct_of d, Between) ∧ lex_char Between d = Some (punct_of d, Between).
Proof.
  intros Hd. unfold lex_char. rewrite delimiter_not_word by done. unfold delimiter, punct_of in *.
  destruct (is_blank d); [done|]. cbn in Hd. by rewrite Hd.
Qed.

Lemma reads_empty : reads "" [].
Proof.
  intros d Hd. change ("" +:+ text1 d) with (text1 d). cbn [lex_run].
  destruct (lex_char_delimiter "" d Hd) as [_ ->]. cbn. by rewrite app_nil_r.
Qed.

Lemma lex_run_word u w : str_forall word_char w = true → (u ≠ "" ∨ w ≠ "") →
  lex_run (InWord u) w = Some ([], InWord (u +:+ w)).
Proof.
  revert u. induction w as [|c w IH]; intros u Hw Hu; [by rewrite str_app_nil_r|].
  apply andb_true_iff in Hw as [Hc Hw]. cbn. rewrite Hc. cbn. rewrite IH; [|done|by left; destruct u].
  cbn. by rewrite str_app_assoc.
Qed.
Lemma reads_word w : w ≠ "" → str_forall word_char w = true → reads w [TWord w].
Proof.
  intros Hne Hw d Hd. destruct w as [|c w]; [done|]. apply andb_true_iff in Hw as [Hc Hw].
  change [TWord (String c w)] with ([] ++ [TWord (String c w)]). rewrite <-app_assoc. eapply lex_run_app.
  { cbn. rewrite Hc. cbn. rewrite lex_run_word; [done|done|by left]. }
  change (("" +:+ text1 c) +:+ w) with (String c w). destruct (lex_char_delimiter (String c w) d Hd) as [He _].
  cbn [lex_run]. rewrite He. cbn. by rewrite app_nil_r.
Qed.

Lemma lex_run_string u s : plain_text s = true → lex_run (InString u) s = Some ([], InString (u +:+ s)).
Proof.
  revert u. induction s as [|c s IH]; intros u Hs; [by rewrite str_app_nil_r|].
  apply andb_true_iff in Hs as [Hc Hs]. cbn [lex_run lex_char]. rewrite decide_False, Hc.
  - cbn. rewrite IH by done. cbn. by rewrite str_app_assoc.
  - intros ->. done.
Qed.
Lemma reads_string s : plain_text s = true → reads (quote +:+ s +:+ quote) [TStr s].
Proof.
  intros Hs d Hd. rewrite str_app_assoc. eapply (lex_run_app _ _ [] (InString "")); [done|]. rewrite str_app_assoc.
  eapply (lex_run_app _ _ []); [by apply lex_run_string|]. eapply (lex_run_app _ _ [TStr s] Between); [done|].
  apply (reads_empty d Hd).
Qed.

Lemma reads_delimited s d s' t t' : delimiter d = true → reads s t → reads s' t' →
  reads (s +:+ String d s') (t ++ punct_of d ++ t').
Proof.
  intros Hd Hs Hs' e He. replace ((s +:+ String d s') +:+ text1 e) with ((s +:+ text1 d) +:+ s' +:+ text1 e).
  - rewrite (app_assoc t), <-app_assoc. eapply lex_run_app; [by apply Hs|by apply Hs'].
  - by rewrite !str_app_assoc, str_app_cons.
Qed.
Lemma reads_after s d t : delimiter d = true → reads s t → reads (s +:+ text1 d) (t ++ punct_of d).
Proof. intros Hd Hs. rewrite <-(app_nil_r (punct_of d)). apply reads_delimited; [done|done|apply reads_empty]. Qed.
Lemma reads_before d s t : delimiter d = true → reads s t → reads (String d s) (punct_of d ++ t).
Proof. intros Hd Hs. apply (reads_delimited "" d s []); [done|apply reads_empty|done]. Qed.

Lemma reads_indent n s t : reads s t → reads (indent n +:+ s) t.
Proof.
  intros Hs. induction n as [|n IH]; [done|]. change (indent (S n) +:+ s) with (String " "%char (indent n +:+ s)).
  by apply (reads_before " "%char _ t).
Qed.

Lemma lex_run_blank s : lex_run Between (String " " s) = lex_run Between s.
Proof.
  cbn [lex_run]. change (lex_char Between " "%char) with (Some (@nil token, Between)). cbn.
  by destruct (lex_run Between s) as [[]|].
Qed.

Lemma reads_join ss ts : Forall2 reads ss ts → reads (py_join ", " ss) (concat ts).
Proof.
  induction 1 as [|s t ss ts Hs Hss IH]; [apply reads_empty|]. destruct Hss as [|s' t' ss ts Hs' Hss].
  { cbn. by rewrite app_nil_r. }
  change (py_join ", " (s :: s' :: ss)) with (s +:+ String ","%char (String " "%char (py_join ", " (s' :: ss)))).
  apply (reads_delimited s ","%char _ t); [done|done|]. by apply (reads_before " "%char _ (concat (t' :: ts))).
Qed.

(** ** Lines *)

(** The lines [lines] are the words [toks], none of which goes over the end of a line. *)
Definition reads_lines (lines : list string) (toks : list token) : Prop :=
  ∃ ts, Forall2 reads lines ts ∧ concat ts = toks.

Lemma reads_lines_nil : reads_lines [] [].
Proof. by exists []. Qed.
Lemma reads_lines_cons l lines t toks : reads l t → reads_lines lines toks → reads_lines (l :: lines) (t ++ toks).
Proof. intros Hl (ts & Hts & <-). exists (t :: ts). by split; [constructor|]. Qed.
Lemma reads_lines_app lines lines' toks toks' :
  reads_lines lines toks → reads_lines lines' toks' → reads_lines (lines ++ lines') (toks ++ toks').
Proof. intros (ts & Hts & <-) (ts' & Hts' & <-). exists (ts ++ ts'). by split; [apply Forall2_app|apply concat_app]. Qed.
Lemma reads_lines_one l t : reads l t → reads_lines [l] t.
Proof. intros Hl. exists [t]. split; [by constructor|]. cbn. by rewrite app_nil_r. Qed.
(** An opening line, a block, and a closing line. *)
Lemma reads_lines_block l lines l' t toks t' : reads l t → reads_lines lines toks → reads l' t' →
  reads_lines (l :: lines ++ [l']) (t ++ toks ++ t').
Proof. intros. by apply reads_lines_cons, reads_lines_app, reads_lines_one. Qed.

Lemma lex_document lines toks : lines ≠ [] → reads_lines lines toks → lex (document lines) = Some toks.
Proof.
  intros Hne (ts & Hts & <-). unfold lex, document.
  enough (lex_run Between (newline +:+ py_join newline lines +:+ newline) = Some (concat ts, Between)) as -> by done.
  eapply (lex_run_app _ _ [] Between _ _ Between); [done|].
  induction Hts as [|l t lines ts Hl Hls IH]; [done|]. destruct Hls as [|l' t' lines ts Hl' Hls].
  { cbn. by apply (Hl "010"%char). }
  change (py_join newline (l :: l' :: lines)) with (l +:+ newline +:+ py_join newline (l' :: lines)).
  rewrite !str_app_assoc, <-(str_app_assoc l). cbn [concat]. eapply lex_run_app; [|by apply IH].
  unfold newline. rewrite (Hl "010"%char) by done. by rewrite app_nil_r.
Qed.

(** ** Lists *)

Lemma forallb_Forall {A} (f : A → bool) l : forallb f l = true ↔ Forall (λ x, f x = true) l.
Proof. rewrite forallb_forall, Forall_forall. by setoid_rewrite list_elem_of_In. Qed.
Lemma Forall2_fmap_same {A B C} (R : B → C → Prop) (f : A → B) (g : A → C) l :
  Forall (λ x, R (f x) (g x)) l → Forall2 R (f <$> l) (g <$> l).
Proof. intros Hl. apply Forall2_fmap. by induction Hl; constructor. Qed.
(** An induction hypothesis on the elements of a list, for those that pass a test *)
Lemma Forall_checked {A} (P : A → Prop) (test : A → bool) l :
  Forall (λ x, test x = true → P x) l → forallb test l = true → Forall P l.
Proof.
  intros HP Ht%forallb_Forall. apply (Forall_impl (λ x, (test x = true → P x) ∧ test x = true)); [by apply Forall_and|].
  intros x [Hx ?]. by apply Hx.
Qed.

(** ** Words *)

Lemma name_chars w : is_name w = true → w ≠ "" ∧ str_forall word_char w = true.
Proof.
  destruct w as [|c w]; [done|]. cbn [is_name]. rewrite andb_true_iff. intros [Hc Hw]. split; [done|].
  unfold str_forall. cbn. apply andb_true_iff. unfold name_start in *. split.
  - unfold word_char. destruct (is_alpha c); [done|]. cbn in *. apply bool_decide_eq_true in Hc as ->. by rewrite orb_true_r.
  - apply (str_forall_mono (λ c, name_start c || is_digit c)); [|done]. intros x. unfold name_start, word_char.
    destruct (is_alpha x), (is_digit x); try done. cbn. rewrite orb_false_r, !bool_decide_eq_true. auto.
Qed.
Lemma reads_name w : is_name w = true → reads w [TWord w].
Proof. intros [Hne Hw]%name_chars. by apply reads_word. Qed.

Lemma is_variable_spec w : is_variable w = true ↔ ∃ n, w = "$" +:+ n ∧ is_name n = true.
Proof.
  unfold is_variable. destruct (strip_prefix "$" w) as [n|] eqn:Hn.
  - apply strip_prefix_spec in Hn as ->. split; [by exists n|]. intros (m & Hm & Hname). by simplify_eq.
  - split; [done|]. intros (m & -> & _). by rewrite (proj2 (strip_prefix_spec _ _ m)) in Hn.
Qed.
Lemma reads_variable w : is_variable w = true → reads w [TWord w].
Proof.
  intros (n & -> & [_ Hn]%name_chars)%is_variable_spec. apply reads_word; [done|].
  rewrite str_forall_app. by rewrite Hn.
Qed.

Lemma pretty_N_go_digits x s : str_forall is_digit s = true → is_decimal s = true ∨ (0 < x)%N → is_decimal (pretty_N_go x s) = true.
Proof.
  revert s. induction (N.lt_wf_0 x) as [x _ IH]. intros s Hs Hne. destruct (decide (0 < x)%N) as [Hx|Hx].
  - rewrite pretty_N_go_step by done.
    assert (is_decimal (String (pretty_N_char (x `mod` 10)) s) = true) as Hd.
    { unfold is_decimal, str_forall. cbn. rewrite !andb_true_iff. split_and!; [done| |done].
      unfold pretty_N_char. by repeat case_match. }
    apply IH; [apply N.div_lt; lia| |by left]. by apply andb_true_iff in Hd as [_ ?].
  - replace x with 0%N by lia. rewrite pretty_N_go_0. by destruct Hne.
Qed.
Lemma pretty_N_decimal (n : N) : is_decimal (pretty n) = true.
Proof.
  unfold pretty, pretty_N. case_decide; [done|]. apply pretty_N_go_digits; [done|]. right. lia.
Qed.
Lemma pretty_number (z : Z) : is_number (pretty z) = true.
Proof.
  unfold is_number. destruct z as [|p|p]; [done| |].
  - change (pretty (Z.pos p)) with (pretty (N.pos p)). pose proof (pretty_N_decimal (N.pos p)) as Hp.
    destruct (strip_prefix "-" (pretty (N.pos p))) as [t|] eqn:Ht; [|done].
    apply strip_prefix_spec in Ht. rewrite Ht in Hp. done.
  - change (pretty (Z.neg p)) with ("-" +:+ pretty (N.pos p)).
    rewrite (proj2 (strip_prefix_spec "-" _ (pretty (N.pos p)))) by done. apply pretty_N_decimal.
Qed.
Lemma is_decimal_chars w : is_decimal w = true → w ≠ "" ∧ str_forall word_char w = true.
Proof.
  unfold is_decimal. rewrite andb_true_iff, negb_true_iff, bool_decide_eq_false. intros [Hne Hw]. split; [done|].
  apply (str_forall_mono is_digit); [|done]. intros c Hc. unfold word_char. rewrite Hc. by rewrite orb_true_r.
Qed.
Lemma reads_number w : is_number w = true → reads w [TWord w].
Proof.
  unfold is_number. destruct (strip_prefix "-" w) as [t|] eqn:Ht; intros [Hne Hw]%is_decimal_chars.
  - apply strip_prefix_spec in Ht as ->. apply reads_word; [done|]. by rewrite str_forall_app.
  - by apply reads_word.
Qed.

(** ** Values and input blocks *)

Fixpoint value_tokens (v : json) : list token :=
  match v with
  | JStr s => [if startswith s "$" then TWord s else TStr s]
  | JBool b => [TWord (if b then "true" else "false")]
  | JInt z => [TWord (pretty z)]
  | JNull => [TWord "None"]
  | JList l => TPunct "[" :: concat (value_tokens <$> l) ++ [TPunct "]"%char]
  | JDict d => TPunct "{" :: concat ((λ kv, TWord kv.1 :: TPunct ":" :: value_tokens kv.2) <$> d) ++ [TPunct "}"%char]
  end.
Definition field_tokens (d : list (string * json)) : list token :=
  concat ((λ kv, TWord kv.1 :: TPunct ":" :: value_tokens kv.2) <$> d).

(** The lines of an element of a list, and of an entry of a block. *)
Definition item_lines (offset indentation : nat) (item : json) : list string :=
  match item with
  | JDict _ =>
      (indent offset +:+ indent indentation +:+ "{") ::
      render_input_block item (offset + indentation + indentation) indentation ++
      [indent offset +:+ indent indentation +:+ "},"]
  | _ => [indent offset +:+ indent indentation +:+ convert_to_graphql_as_string item +:+ ","]
  end.
Definition entry_lines (offset indentation : nat) (kv : string * json) : list string :=
  match kv.2 with
  | JDict _ =>
      (indent offset +:+ kv.1 +:+ ": {") :: render_input_block kv.2 (offset + indentation) indentation ++ [indent offset +:+ "}"]
  | JList l =>
      (indent offset +:+ kv.1 +:+ ": [") :: concat (item_lines offset indentation <$> l) ++ [indent offset +:+ "]"]
  | _ => [indent offset +:+ argument_str kv]
  end.
Lemma render_input_block_dict d offset indentation :
  render_input_block (JDict d) offset indentation = concat (entry_lines offset indentation <$> d).
Proof.
  induction d as [|[key value] d IH]; [done|]. rewrite fmap_cons. cbn [concat]. rewrite <-IH. cbn [render_input_block]. f_equal.
  unfold entry_lines. destruct value as [| | | |l|d']; try done. cbn [snd fst]. do 2 f_equal.
  induction l as [|item l IHl]; [done|]. rewrite fmap_cons. cbn [concat]. rewrite <-IHl. by destruct item.
Qed.

Lemma plain_value_text v : plain_value v = true → ∀ s, v = JStr s → reads (convert_to_graphql_as_string v) (value_tokens v).
Proof.
  intros Hv s ->. cbn in *. unfold plain_str in Hv. destruct (startswith s "$"); [by apply reads_variable|by apply reads_string].
Qed.
Lemma reads_value v : plain_value v = true → reads (convert_to_graphql_as_string v) (value_tokens v).
Proof.
  induction v as [|b|z|s|l IH|d _] using json_nested_ind; intros Hv; try done.
  - by apply reads_name.
  - destruct b; by apply reads_name.
  - apply reads_number, pretty_number.
  - by eapply plain_value_text.
  - cbn [convert_to_graphql_as_string value_tokens].
    apply (reads_before "["%char _ (concat (value_tokens <$> l) ++ [TPunct "]"%char])); [done|].
    apply (reads_after _ "]"%char); [done|]. apply reads_join, Forall2_fmap_same. by apply (Forall_checked _ plain_value).
Qed.

Definition input_reads (v : json) : Prop :=
  plain_input v = true → ∀ offset indentation, match v with
    | JDict d => reads_lines (render_input_block v offset indentation) (field_tokens d)
    | JList l => reads_lines (concat (item_lines offset indentation <$> l)) (concat (value_tokens <$> l))
    | _ => reads (convert_to_graphql_as_string v) (value_tokens v)
    end.

Lemma reads_key key s t : is_name key = true → reads s t → reads (key +:+ ": " +:+ s) (TWord key :: TPunct ":" :: t).
Proof.
  intros Hk Hs. change (": " +:+ s) with (String ":"%char (String " "%char s)).
  apply (reads_delimited key ":"%char _ [TWord key]); [done|by apply reads_name|]. by apply (reads_before " "%char s t).
Qed.
Lemma reads_punct c : is_punct c = true → reads (text1 c) [TPunct c].
Proof.
  intros Hc. pose proof (reads_after "" c [] ltac:(by unfold delimiter; rewrite Hc, orb_true_r) reads_empty) as H.
  unfold punct_of in H. destruct (is_blank c) eqn:Hb; [|done].
  unfold is_blank, is_punct in *. rewrite bool_decide_eq_true in *. naive_solver.
Qed.

Lemma reads_lines_concat {A} (f : A → list string) (g : A → list token) l :
  Forall (λ x, reads_lines (f x) (g x)) l → reads_lines (concat (f <$> l)) (concat (g <$> l)).
Proof. induction 1; [apply reads_lines_nil|]. cbn. by apply reads_lines_app. Qed.

Lemma reads_item offset indentation v : input_reads v →
  (if is_dict_value v then plain_input v else plain_value v) = true → reads_lines (item_lines offset indentation v) (value_tokens v).
Proof.
  intros IH Hv. destruct v as [|b|z|s|l|d]; cbn [is_dict_value] in Hv.
  1-5: apply reads_lines_one, reads_indent, reads_indent;
       rewrite <-(app_nil_r (value_tokens _)); apply (reads_after _ ","%char); [done|by apply reads_value].
  apply (reads_lines_cons _ _ [TPunct "{"%char]); [by apply reads_indent, reads_indent, reads_punct|].
  apply reads_lines_app; [by apply IH|]. apply reads_lines_one, reads_indent, reads_indent.
  by apply (reads_delimited "" "}"%char "," [] []); [|apply reads_empty|apply (reads_after "" ","%char []), reads_empty].
Qed.
Lemma reads_entry offset indentation kv : input_reads kv.2 → is_name kv.1 && plain_input kv.2 = true →
  reads_lines (entry_lines offset indentation kv) (TWord kv.1 :: TPunct ":" :: value_tokens kv.2).
Proof.
  destruct kv as [key v]. cbn [fst snd]. intros IH [Hk Hv]%andb_true_iff. specialize (IH Hv). unfold entry_lines, argument_str. cbn [fst snd].
  destruct v as [|b|z|s|l|d].
  1-4: by apply reads_lines_one, reads_indent, reads_key; [|apply (IH 0 0)].
  - apply (reads_lines_cons _ _ [TWord key; TPunct ":"; TPunct "["%char]).
    { by apply reads_indent, (reads_key key "[" [TPunct "["%char]), reads_punct. }
    apply reads_lines_app; [by apply IH|]. by apply reads_lines_one, reads_indent, reads_punct.
  - apply (reads_lines_cons _ _ [TWord key; TPunct ":"; TPunct "{"%char]).
    { by apply reads_indent, (reads_key key "{" [TPunct "{"%char]), reads_punct. }
    apply reads_lines_app; [by apply IH|]. by apply reads_lines_one, reads_indent, reads_punct.
Qed.
Lemma reads_input v : input_reads v.
Proof.
  induction v as [|b|z|s|l IH|d IH] using json_nested_ind; intros Hv offset indentation; try by apply reads_value.
  - apply reads_lines_concat. cbn in Hv. apply (Forall_checked _ (λ item, if is_dict_value item then plain_input item else plain_value item)); [|done].
    apply (Forall_impl _ _ _ IH). intros v. apply reads_item.
  - rewrite render_input_block_dict. apply reads_lines_concat. cbn in Hv.
    apply (Forall_checked _ (λ kv, is_name kv.1 && plain_input kv.2)); [|done].
    apply (Forall_impl _ _ _ IH). intros kv. apply reads_entry.
Qed.

(** ** Reading values *)

Definition value_parses (v : json) : Prop :=
  ∀ n rest, length (value_tokens v) ≤ n → parse_value n (value_tokens v ++ rest) = Some (gvalue_of written v, rest).

Lemma value_tokens_head v : ∃ t r, value_tokens v = t :: r ∧ t ≠ TPunct "]"%char.
Proof. destruct v as [|[]|z|s|l|d]; cbn; eauto. destruct (startswith s "$"); eauto. Qed.
Lemma value_tokens_pos v : 0 < length (value_tokens v).
Proof. destruct (value_tokens_head v) as (t & r & -> & _). cbn. lia. Qed.

Lemma field_tokens_cons k v d : field_tokens ((k, v) :: d) = TWord k :: TPunct ":" :: value_tokens v ++ field_tokens d.
Proof. done. Qed.

Lemma parse_values_tokens l : Forall value_parses l → ∀ n rest, length (concat (value_tokens <$> l)) < n →
  parse_values n (concat (value_tokens <$> l) ++ TPunct "]" :: rest) = Some (gvalue_of written <$> l, rest).
Proof.
  induction 1 as [|v l Hv _ IH]; intros [|n] rest Hn; [cbn in Hn; lia|done|cbn in Hn; lia|].
  cbn in Hn. rewrite length_app in Hn. cbn [fmap list_fmap concat parse_values]. rewrite <-app_assoc.
  rewrite decide_False.
  - pose proof (value_tokens_pos v). rewrite Hv by lia. cbn. fold (value_tokens <$> l). rewrite IH; [done|]. unfold fmap in *. lia.
  - destruct (value_tokens_head v) as (t & r & -> & Ht). cbn. congruence.
Qed.
Lemma parse_fields_tokens c d : Forall (λ kv, is_name kv.1 = true ∧ value_parses kv.2) d →
  ∀ n rest, length (field_tokens d) < n →
  parse_fields n (text1 c) (field_tokens d ++ TPunct c :: rest) = Some (arguments_of written d, rest).
Proof.
  induction 1 as [|[k v] d [Hk Hv] _ IH]; intros [|n] rest Hn; [cbn in Hn; lia| |cbn in Hn; lia|].
  { cbn. by rewrite decide_True. }
  rewrite field_tokens_cons in *. cbn [length fst snd] in *. rewrite length_app in Hn.
  cbn [app parse_fields]. rewrite <-app_assoc, decide_True, Hv by (done || lia). cbn. by rewrite IH by lia.
Qed.

Lemma variable_value w : is_variable w = true → word_value w = Some (GVar w).
Proof. intros Hw. unfold word_value. by rewrite Hw. Qed.
Lemma number_value (z : Z) : word_value (pretty z) = Some (GInt (pretty z)).
Proof.
  unfold word_value. rewrite pretty_number. destruct (is_variable (pretty z)) eqn:Hv; [|done]. exfalso.
  unfold is_variable in Hv. destruct (strip_prefix "$" (pretty z)) as [t|] eqn:Ht; [|done]. apply strip_prefix_spec in Ht.
  pose proof (pretty_number z) as Hn. rewrite Ht in Hn. by vm_compute in Hn.
Qed.

Lemma parse_value_tokens v : plain_input v = true ∨ plain_value v = true → value_parses v.
Proof.
  induction v as [|b|z|s|l IH|d IH] using json_nested_ind; intros Hv [|n] rest Hn; cbn in Hn; try lia.
  - done.
  - by destruct b.
  - cbn. by rewrite number_value.
  - assert (plain_str s = true) as Hs by (by destruct Hv). unfold plain_str in Hs. cbn. destruct (startswith s "$"); [|done].
    by rewrite (variable_value _ Hs).
  - cbn. rewrite <-app_assoc. rewrite length_app in Hn. cbn in Hn. change ([TPunct "]"%char] ++ rest) with (TPunct "]"%char :: rest).
    pose proof (parse_values_tokens l) as Hl. cbn in Hl. unfold fmap in *. rewrite Hl; [done| |lia].
    apply Forall_forall. intros v Hin. eapply Forall_forall in IH; [|done]. apply IH.
    destruct Hv as [Hv|Hv]; cbn in Hv; apply forallb_Forall in Hv; eapply Forall_forall in Hv; try done; [|by right].
    destruct (is_dict_value v); auto.
  - cbn. rewrite <-app_assoc. rewrite length_app in Hn. cbn in Hn. change ([TPunct "}"%char] ++ rest) with (TPunct "}"%char :: rest).
    pose proof (parse_fields_tokens "}" d) as Hd. unfold field_tokens in Hd. cbn in Hd. unfold fmap in *.
    rewrite Hd; [done| |lia]. destruct Hv as [Hv|[=]]. cbn in Hv. apply forallb_Forall in Hv.
    apply Forall_forall. intros kv Hin. eapply Forall_forall in IH; [|done]. eapply Forall_forall in Hv; [|done].
    apply andb_true_iff in Hv as [Hk Hv]. split; [done|]. apply IH. by left.
Qed.

(** ** Query blocks *)

Definition key_tokens (key : string) : list token :=
  match strip_prefix "...on " key with Some t => [TWord "...on"; TWord t] | None => [TWord key] end.
Definition head_tokens (alias : option string) (key : string) : list token :=
  match alias with Some a => [TWord a; TPunct ":"%char] | None => [] end ++ key_tokens key.
Definition args_tokens (filters : list (string * json)) : list token :=
  match filters with [] => [] | _ => TPunct "(" :: field_tokens filters ++ [TPunct ")"%char] end.
(** The words of an entry of a dictionary, [sub] being those of its value, and the
    selection it means. *)
Definition entry_tokens (kv : string * json) (sub : list token) : list token :=
  if decide (kv.1 ∈ KEYWORDS_TO_SKIP) then [] else
  match kv.2 with
  | JNull => key_tokens kv.1
  | JDict v =>
      head_tokens (py_str <$> option_of v ALIAS_KEY) kv.1 ++
      (if only_alias v then [] else args_tokens (filters_of v) ++ TPunct "{" :: sub ++ [TPunct "}"%char])
  | _ => []
  end.
Fixpoint query_tokens (data : json) : list token :=
  match data with
  | JDict items => concat ((λ kv, entry_tokens kv (query_tokens kv.2)) <$> items)
  | _ => []
  end.
Definition entry_selections (kv : string * json) : list selection :=
  if decide (kv.1 ∈ KEYWORDS_TO_SKIP) then [] else
  match kv.2 with
  | JNull => [Sel None kv.1 [] []]
  | JDict v => [Sel (py_str <$> option_of v ALIAS_KEY) kv.1
                    (if only_alias v then [] else arguments_of written (filters_of v)) (selections_of written kv.2)]
  | _ => []
  end.
Definition query_lines (offset indentation : nat) (kv : string * json) : result (list string) :=
  if decide (kv.1 ∈ KEYWORDS_TO_SKIP) then mret [] else
  match kv.2 with
  | JNull => mret [indent offset +:+ kv.1]
  | JDict v =>
      if only_alias v then mret [indent offset +:+ key_str v kv.1] else
      head ← heading v kv.1;
      lines ← render_query_block kv.2 (offset + indentation) indentation;
      mret ((indent offset +:+ head) :: lines ++ [indent offset +:+ "}"])
  | _ => mret []
  end.

Lemma selections_of_dict items : selections_of written (JDict items) = concat (entry_selections <$> items).
Proof. induction items as [|[key v] items IH]; [done|]. rewrite fmap_cons. cbn [concat]. by rewrite <-IH. Qed.
Lemma render_query_block_dict items offset indentation :
  render_query_block (JDict items) offset indentation = (@concat _) <$> mapM (query_lines offset indentation) items.
Proof.
  induction items as [|[key v] items IH]; [done|].
  transitivity (lines ← query_lines offset indentation (key, v);
                rest ← (@concat _) <$> mapM (query_lines offset indentation) items; mret (lines ++ rest)).
  { cbn [render_query_block] in *. by rewrite IH. }
  cbn [mapM]. destruct (query_lines offset indentation (key, v)); [|done]. cbn.
  by destruct (mapM (query_lines offset indentation) items).
Qed.

(** The tests of [plain_query] on one entry *)
Definition plain_entry (kv : string * json) : bool :=
  bool_decide (kv.1 ∈ KEYWORDS_TO_SKIP) ||
  match kv.2 with
  | JNull => is_name kv.1
  | JDict v => plain_heading kv.1 v && (only_alias v || plain_query kv.2)
  | _ => true
  end.

Lemma name_key_tokens key : is_name key = true → key_tokens key = [TWord key].
Proof.
  unfold key_tokens. destruct (strip_prefix "...on " key) as [c|] eqn:Hc; [|done]. by apply strip_prefix_spec in Hc as ->.
Qed.
Lemma reads_field_name key : field_name key = true → reads key (key_tokens key).
Proof.
  unfold field_name. destruct (is_name key) eqn:Hn; intros Hk.
  { rewrite name_key_tokens by done. by apply reads_name. }
  rewrite orb_false_l in Hk. unfold key_tokens. destruct (strip_prefix "...on " key) as [c|] eqn:Hc; [|done].
  apply strip_prefix_spec in Hc as ->. apply (reads_delimited "...on" " "%char c [TWord "...on"] [TWord c]); [done|by apply reads_word|by apply reads_name].
Qed.
Lemma plain_heading_spec key v : plain_heading key v = true →
  (∃ a, option_of v ALIAS_KEY = Some (JStr a) ∧ is_name a = true ∧ is_name key = true ∨
        option_of v ALIAS_KEY = None ∧ field_name key = true) ∧
  filter_items v = Ok (filters_of v) ∧ forallb (λ kv, is_name kv.1 && plain_value kv.2) (filters_of v) = true.
Proof.
  unfold plain_heading, filters_of. rewrite andb_true_iff. intros [Ha Hf]. split; [|by destruct (filter_items v)].
  destruct (option_of v ALIAS_KEY) as [[]|]; try done; [|by exists ""; right]. exists s. left. by apply andb_true_iff in Ha as [? ?].
Qed.
Lemma reads_key_str key v : plain_heading key v = true → reads (key_str v key) (head_tokens (py_str <$> option_of v ALIAS_KEY) key).
Proof.
  intros ((a & [(Ha & Hn & Hk)|(Ha & Hk)]) & _)%plain_heading_spec; unfold key_str, head_tokens; rewrite Ha; cbn.
  - rewrite name_key_tokens by done. by apply (reads_key a key [TWord key]); [|apply reads_name].
  - by apply reads_field_name.
Qed.

Lemma reads_arguments filters : forallb (λ kv, is_name kv.1 && plain_value kv.2) filters = true →
  reads (py_join ", " (argument_str <$> filters)) (field_tokens filters).
Proof.
  intros Hf. apply reads_join, Forall2_fmap_same. apply forallb_Forall in Hf. apply (Forall_impl _ _ _ Hf).
  intros kv [Hk Hv]%andb_true_iff. by apply reads_key, reads_value.
Qed.
Lemma reads_heading key v : plain_heading key v = true → ∃ head,
  heading v key = Ok head ∧
  reads head (head_tokens (py_str <$> option_of v ALIAS_KEY) key ++ args_tokens (filters_of v) ++ [TPunct "{"%char]).
Proof.
  intros Hh. pose proof (reads_key_str _ _ Hh) as Hk. destruct (plain_heading_spec _ _ Hh) as (_ & Hf & Hplain).
  unfold heading. rewrite Hf. cbn. eexists. split; [done|]. destruct (filters_of v) as [|f filters] eqn:Hfs.
  - by apply (reads_delimited _ " "%char "{" _ [TPunct "{"%char]); [|done|apply reads_punct].
  - assert (args_tokens (filters_of v) = TPunct "(" :: field_tokens (filters_of v) ++ [TPunct ")"%char]) as Hargs by by rewrite Hfs.
    rewrite <-Hfs in *. rewrite Hargs, <-app_comm_cons, <-app_assoc.
    apply (reads_delimited _ "("%char _ _ (field_tokens (filters_of v) ++ [TPunct ")"%char; TPunct "{"%char])); [done|done|].
    apply (reads_delimited _ ")"%char " {" _ [TPunct "{"%char]); [done|by apply reads_arguments|].
    by apply (reads_before " "%char "{" [TPunct "{"%char]), reads_punct.
Qed.

Lemma reads_query data : plain_query data = true → ∀ offset indentation, ∃ lines,
  render_query_block data offset indentation = Ok lines ∧ reads_lines lines (query_tokens data).
Proof.
  induction data as [| | | | |items IH] using json_nested_ind; try done. intros Hplain offset indentation.
  change (existsb rendered items && forallb plain_entry items = true) in Hplain. apply andb_true_iff in Hplain as [_ Hplain].
  rewrite render_query_block_dict.
  enough (∃ ls, mapM (query_lines offset indentation) items = Ok ls ∧
                reads_lines (concat ls) (query_tokens (JDict items))) as (ls & -> & Hls) by by eexists.
  apply forallb_Forall in Hplain. induction items as [|[key v] items IHitems]; [exists []; by split; [|apply reads_lines_nil]|].
  inv IH. inv Hplain. destruct IHitems as (ls & Hls & Hreads); [done..|]. cbn [mapM].
  enough (∃ lines, query_lines offset indentation (key, v) = Ok lines ∧ reads_lines lines (entry_tokens (key, v) (query_tokens v)))
    as (lines & -> & Hlines).
  { exists (lines :: ls). cbn. rewrite Hls. split; [done|]. by apply reads_lines_app. }
  rename select (plain_entry _ = true) into He. rename select (plain_query _ = true → _) into IHv.
  unfold plain_entry, query_lines, entry_tokens in *. cbn [fst snd] in *.
  destruct (decide (key ∈ KEYWORDS_TO_SKIP)) as [Hin|Hin]; [exists []; by split; [|apply reads_lines_nil]|].
  rewrite bool_decide_eq_false_2 in He by done. cbn [orb] in He. destruct v as [| | | | |v]; try (exists []; by split; [|apply reads_lines_nil]).
  - eexists. split; [done|]. rewrite name_key_tokens by done. by apply reads_lines_one, reads_indent, reads_name.
  - apply andb_true_iff in He as [Hh Hsub]. destruct (only_alias v).
    + eexists. split; [done|]. rewrite app_nil_r. by apply reads_lines_one, reads_indent, reads_key_str.
    + destruct (reads_heading _ _ Hh) as (head & -> & Hhead). destruct (IHv Hsub (offset + indentation) indentation) as (lines & Hl & Hlines).
      cbn [mbind result_bind]. rewrite Hl. eexists. split; [done|].
      change (TPunct "{" :: query_tokens (JDict v) ++ [TPunct "}"%char]) with ([TPunct "{"%char] ++ query_tokens (JDict v) ++ [TPunct "}"%char]).
      rewrite !(app_assoc _ _ (_ ++ _)), <-(app_assoc (head_tokens _ _)).
      apply reads_lines_block; [by apply reads_indent|done|]. by apply reads_indent, reads_punct.
Qed.

(** ** Reading selections *)

(** What can follow a field: another field, or the end of the block. *)
Definition field_end (toks : list token) : Prop :=
  match toks with TWord _ :: _ => True | TPunct c :: _ => c = "}"%char | _ => False end.

Lemma parse_head_tokens alias key rest :
  match alias with Some a => is_name a && is_name key | None => field_name key end = true → head rest ≠ Some (TPunct ":"%char) →
  parse_head (head_tokens alias key ++ rest) = Some (alias, key, rest).
Proof.
  intros Hk Hrest. destruct alias as [a|].
  - apply andb_true_iff in Hk as [Ha Hk]. unfold head_tokens. rewrite name_key_tokens by done. cbn. by rewrite Ha, Hk.
  - unfold head_tokens. cbn [app]. unfold field_name in Hk. destruct (is_name key) eqn:Hn.
    + rewrite name_key_tokens by done. destruct rest as [|[w|s|c] r]; cbn; rewrite ?Hn; try done.
      * rewrite decide_False; [done|]. intros [-> _]. done.
      * destruct r as [|[w|s|e] r]; try done. rewrite decide_False; [done|]. intros ->. by apply Hrest.
    + rewrite orb_false_l in Hk. unfold key_tokens. destruct (strip_prefix "...on " key) as [t|] eqn:Ht; [|done].
      apply strip_prefix_spec in Ht as ->. cbn [app parse_head]. by rewrite decide_True.
Qed.

Lemma field_end_query data rest : field_end rest → field_end (query_tokens data ++ rest).
Proof.
  intros Hrest. destruct data as [| | | | |items]; try done. induction items as [|[key v] items IH]; [done|].
  cbn [query_tokens]. rewrite fmap_cons. cbn [concat]. rewrite <-app_assoc.
  assert (∀ k r, field_end (key_tokens k ++ r)) as Hkey by (intros k r; unfold key_tokens; by destruct (strip_prefix _ k)).
  unfold entry_tokens at 1. cbn [fst snd]. case_decide; [done|].
  destruct v as [| | | | |v]; try apply Hkey; try done. rewrite <-app_assoc.
  unfold head_tokens. destruct (option_of v ALIAS_KEY); [done|apply Hkey].
Qed.

Lemma parse_args n filters rest :
  forallb (λ kv, is_name kv.1 && plain_value kv.2) filters = true → length (args_tokens filters) < n → head rest ≠ Some (TPunct "("%char) →
  parse_block "(" (parse_fields n ")") (args_tokens filters ++ rest) = Some (arguments_of written filters, rest).
Proof.
  intros Hf Hn Hrest. unfold parse_block. destruct filters as [|f filters]; [by rewrite decide_False|].
  set (fs := f :: filters) in *.
  change (args_tokens fs ++ rest) with (TPunct "(" :: (field_tokens fs ++ [TPunct ")"%char]) ++ rest).
  rewrite decide_True by done. cbn [tail]. rewrite <-app_assoc. cbn [app]. rewrite (parse_fields_tokens ")"%char); [done| |].
  - apply forallb_Forall in Hf. apply (Forall_impl _ _ _ Hf). intros kv [Hk Hv]%andb_true_iff. split; [done|].
    apply parse_value_tokens. by right.
  - subst fs. unfold args_tokens in Hn. cbn [length] in Hn. rewrite length_app in Hn. cbn in *. lia.
Qed.
Lemma field_end_head rest c : field_end rest → c ≠ "}"%char → head rest ≠ Some (TPunct c).
Proof. destruct rest as [|[]]; cbn; congruence. Qed.
Lemma selections_rendered data : plain_query data = true → selections_of written data ≠ [].
Proof.
  destruct data as [| | | | |items]; try done. cbn [plain_query]. rewrite andb_true_iff. intros [Hr _] Hnil.
  rewrite selections_of_dict in Hnil. apply existsb_exists in Hr as (kv & Hkv%list_elem_of_In & Hr).
  apply andb_true_iff in Hr as [Hin Hv]. rewrite negb_true_iff, bool_decide_eq_false in Hin.
  enough (entry_selections kv = []) as He.
  { unfold entry_selections in He. rewrite decide_False in He by done. by destruct (kv.2). }
  apply list_elem_of_split in Hkv as (l1 & l2 & ->). rewrite fmap_app, concat_app in Hnil. apply app_eq_nil in Hnil as [_ Hnil].
  cbn in Hnil. by apply app_eq_nil in Hnil as [? _].
Qed.

Lemma no_block {A} c (body : list token → option (list A * list token)) toks :
  head toks ≠ Some (TPunct c) → parse_block c body toks = Some ([], toks).
Proof. intros Hh. unfold parse_block. by rewrite decide_False. Qed.
Lemma parse_block_open {A} c (body : list token → option (list A * list token)) toks l rest :
  body toks = Some (l, rest) → l ≠ [] → parse_block c body (TPunct c :: toks) = Some (l, rest).
Proof. intros Hb Hl. unfold parse_block. rewrite decide_True by done. cbn. rewrite Hb. by destruct l. Qed.
Lemma name_field key : is_name key = true → field_name key = true.
Proof. unfold field_name. by intros ->. Qed.
Lemma key_tokens_pos key : 0 < length (key_tokens key).
Proof. unfold key_tokens. destruct (strip_prefix _ key); cbn; lia. Qed.
Lemma plain_heading_head key v : plain_heading key v = true →
  match py_str <$> option_of v ALIAS_KEY with Some a => is_name a && is_name key | None => field_name key end = true.
Proof. intros ((a & [(-> & Ha & Hk)|(-> & Hk)]) & _)%plain_heading_spec; cbn; [by rewrite Ha, Hk|done]. Qed.
Lemma only_alias_selections v : only_alias v = true → selections_of written (JDict v) = [].
Proof.
  unfold only_alias, option_of. rewrite andb_true_iff, bool_decide_eq_true. intros [Hlen Ha].
  destruct v as [|[k x] [|]]; try done. cbn in Ha. case_decide as Hk; [|done]. by subst k.
Qed.

(** One field, followed by the other fields of its block. *)
Lemma parse_field n alias key args sub toks rest :
  parse_head toks = Some (alias, key, rest) → ∀ rest1 rest2,
  parse_block "(" (parse_fields n ")") rest = Some (args, rest1) →
  parse_block "{" (parse_selections n) rest1 = Some (sub, rest2) →
  parse_selections (S n) toks = '(l, r) ← parse_selections n rest2; Some (Sel alias key args sub :: l, r).
Proof.
  intros Hhead rest1 rest2 Hargs Hsub. cbn [parse_selections]. rewrite decide_False.
  - rewrite Hhead. cbn. rewrite Hargs. cbn. by rewrite Hsub.
  - intros Hc. destruct toks as [|t toks]; [done|]. injection Hc as ->. done.
Qed.

Lemma parse_query data : plain_query data = true → ∀ n rest, length (query_tokens data) < n →
  parse_selections n (query_tokens data ++ TPunct "}" :: rest) = Some (selections_of written data, rest).
Proof.
  induction data as [| | | | |items IH] using json_nested_ind; try done. intros Hplain.
  change (existsb rendered items && forallb plain_entry items = true) in Hplain. apply andb_true_iff in Hplain as [_ Hplain].
  rewrite selections_of_dict. apply forallb_Forall in Hplain.
  induction items as [|[key v] items IHitems]; intros n rest Hn; [destruct n; [cbn in Hn; lia|done]|].
  inv IH. inv Hplain. rename select (plain_entry _ = true) into He. rename select (plain_query _ = true → _) into IHv.
  specialize (IHitems ltac:(done) ltac:(done)).
  change (query_tokens (JDict ((key, v) :: items))) with (entry_tokens (key, v) (query_tokens v) ++ query_tokens (JDict items)) in *.
  change (concat (entry_selections <$> (key, v) :: items)) with (entry_selections (key, v) ++ concat (entry_selections <$> items)).
  rewrite length_app in Hn. rewrite <-app_assoc.
  pose proof (field_end_query (JDict items) (TPunct "}" :: rest) eq_refl) as Hend.
  set (toks := query_tokens (JDict items)) in *. set (sels := concat (entry_selections <$> items)) in *. clearbody toks sels.
  unfold plain_entry, entry_tokens, entry_selections in *. cbn [fst snd] in *.
  destruct (decide (key ∈ KEYWORDS_TO_SKIP)) as [Hin|Hin]; [by apply IHitems|].
  rewrite bool_decide_eq_false_2 in He by done. cbn [orb] in He. destruct v as [| | | | |v]; try (by apply IHitems).
  - pose proof (key_tokens_pos key). destruct n as [|n]; [lia|]. change (key_tokens key) with (head_tokens None key).
    erewrite parse_field; [|apply (parse_head_tokens None); [by apply name_field|by apply field_end_head]
      |by apply no_block, field_end_head|by apply no_block, field_end_head].
    by rewrite IHitems by lia.
  - apply andb_true_iff in He as [Hh Hsub]. destruct (plain_heading_spec _ _ Hh) as (Halias & _ & Hargs).
    assert (0 < length (head_tokens (py_str <$> option_of v ALIAS_KEY) key)) as Hpos.
    { unfold head_tokens. rewrite length_app. pose proof (key_tokens_pos key). lia. }
    rewrite length_app in Hn. destruct n as [|n]; [lia|]. rewrite <-app_assoc. destruct (only_alias v) eqn:Halone; cbn [app length] in Hn |- *.
    + erewrite parse_field; [|apply parse_head_tokens; [by apply plain_heading_head|by apply field_end_head]
        |by apply no_block, field_end_head|by apply no_block, field_end_head].
      rewrite only_alias_selections by done. by rewrite IHitems by lia.
    + rewrite length_app in Hn. cbn [length] in Hn. rewrite length_app in Hn. cbn [length] in Hn. rewrite <-!app_assoc. cbn [app]. rewrite <-app_assoc.
      erewrite parse_field; [|apply parse_head_tokens; [by apply plain_heading_head|by destruct (filters_of v)]
        |apply parse_args; [done|lia|done]|].
      2:{ apply parse_block_open; [by apply IHv; [|lia]|by apply selections_rendered]. }
      by rewrite IHitems by lia.
Qed.

(** ** Documents *)

Definition declared (kv : string * PyType) : option (string * string) :=
  (λ t, ("$" +:+ kv.1, t)) <$> dict_get VARIABLE_TYPE_MAPPING kv.2.
Lemma declared_key kv vt : declared kv = Some vt → vt.1 = "$" +:+ kv.1.
Proof. unfold declared. destruct (dict_get VARIABLE_TYPE_MAPPING kv.2); [|done]. by intros [= <-]. Qed.
Lemma declared_variables data : NoDup data.*1 →
  foldl (λ vars kv, foldl (λ vars tv, if decide (kv.2 = tv.1) then dict_set vars ("$" +:+ kv.1) tv.2 else vars)
    vars VARIABLE_TYPE_MAPPING) [] data = omap declared data.
Proof.
  intros Hnd. transitivity (dict_of_list (omap declared data)).
  - unfold dict_of_list. generalize (@nil (string * string)). clear Hnd. induction data as [|[k t] data IH]; intros vars; [done|].
    cbn [foldl omap list_omap]. rewrite IH. by destruct t.
  - apply dict_of_list_NoDup. induction data as [|[k t] data IH]; [constructor|].
    inv Hnd. cbn [omap list_omap]. destruct (declared (k, t)) as [[v u]|] eqn:Hd; [|by apply IH].
    rewrite fmap_cons. constructor; [|by apply IH]. apply declared_key in Hd. cbn in Hd. subst v.
    rename select (k ∉ _) into Hk. contradict Hk. apply list_elem_of_fmap in Hk as ([v' u'] & Hv & Hin).
    apply list_elem_of_omap in Hin as ([k' t'] & Hin & Hd%declared_key). cbn in Hv, Hd. subst v'.
    assert (k = k') as -> by (by injection Hd).
    apply list_elem_of_fmap. by exists (k', t').
Qed.

Definition variable_tokens (vars : list (string * string)) : list token :=
  concat ((λ kv, [TWord kv.1; TPunct ":"%char; TWord kv.2]) <$> vars).
Definition variables_ok (vars : list (string * string)) : Prop :=
  Forall (λ kv, is_variable kv.1 = true ∧ is_type kv.2 = true ∧ reads kv.2 [TWord kv.2]) vars.
Lemma declared_ok data : forallb (λ kv, is_name kv.1) data = true → variables_ok (omap declared data).
Proof.
  intros Hd%forallb_Forall. induction Hd as [|[k t] data Hk _ IH]; [constructor|].
  assert (is_variable ("$" +:+ k) = true) as Hv by (apply is_variable_spec; by exists k).
  destruct t; try done; (constructor; [split_and!; [done|done|by apply reads_word]|exact IH]).
Qed.
Lemma reads_variables vars : variables_ok vars →
  reads (py_join ", " ((λ kv, kv.1 +:+ ": " +:+ kv.2) <$> vars)) (variable_tokens vars).
Proof.
  intros Hv. apply reads_join, Forall2_fmap_same. apply (Forall_impl _ _ _ Hv). intros [v t] (Hvar & _ & Ht). cbn [fst snd] in *.
  change (": " +:+ t) with (String ":"%char (String " "%char t)).
  apply (reads_delimited v ":"%char _ [TWord v] [TWord t]); [done|by apply reads_variable|by apply (reads_before " "%char t [TWord t])].
Qed.
Lemma parse_variables_tokens vars rest : variables_ok vars →
  parse_variables (variable_tokens vars ++ TPunct ")" :: rest) = Some (vars, rest).
Proof.
  induction 1 as [|[v t] vars (Hv & Ht & _) _ IH]; [done|]. cbn [fst snd] in *.
  change (variable_tokens ((v, t) :: vars) ++ _) with (TWord v :: TPunct ":" :: TWord t :: (variable_tokens vars ++ TPunct ")" :: rest)).
  cbn [parse_variables]. rewrite decide_True, Hv, Ht by done. cbn. by rewrite IH.
Qed.

Definition first_tokens (ty : string) (q : GraphQLQuery) : list token :=
  TWord ty :: (if bool_decide (gq_name q = "") then [] else [TWord (gq_name q)]) ++
  (match variables_of (gq_variables q) with [] => [] | vars => TPunct "(" :: variable_tokens vars ++ [TPunct ")"%char] end) ++
  [TPunct "{"%char].
Lemma plain_base_spec q : plain_base q = true →
  (gq_name q = "" ∨ is_name (gq_name q) = true) ∧ variables_ok (variables_of (gq_variables q)) ∧
  plain_query (JDict (gq_query q)) = true.
Proof.
  unfold plain_base. rewrite !andb_true_iff. intros ((((Hn & Hv) & _) & _) & Hq). split_and!; [|by apply declared_ok|done].
  apply orb_true_iff in Hn as [->%bool_decide_eq_true|Hn]; auto.
Qed.
#[local] Abbreviation vars_text q :=
  (match gq_variables q with Some (v :: vs) => " (" +:+ render_variables_to_string (v :: vs) +:+ ")" | _ => "" end +:+ " {").
#[local] Abbreviation vars_tokens q :=
  (match variables_of (gq_variables q) with [] => [] | vars => TPunct "(" :: variable_tokens vars ++ [TPunct ")"%char] end ++ [TPunct "{"%char]).
Lemma reads_vars_text q : plain_base q = true → reads (vars_text q) (vars_tokens q).
Proof.
  intros Hq. destruct (plain_base_spec _ Hq) as (_ & Hvars & _). unfold plain_base in Hq.
  rewrite !andb_true_iff in Hq. destruct Hq as ((((_ & _) & Hnd) & Hsome) & _). apply bool_decide_eq_true in Hnd.
  destruct (gq_variables q) as [[|v vs]|]; try (by apply (reads_before " "%char "{" [TPunct "{"%char]), reads_punct).
  cbn [default] in *. rewrite bool_decide_eq_false_2, orb_false_l, negb_true_iff, bool_decide_eq_false in Hsome by done.
  unfold render_variables_to_string. rewrite declared_variables by done.
  change (omap declared (v :: vs)) with (variables_of (Some (v :: vs))). set (vars := variables_of (Some (v :: vs))) in *.
  replace (match vars with [] => [] | _ => _ end) with (TPunct "(" :: variable_tokens vars ++ [TPunct ")"%char]) by (by destruct vars).
  rewrite !str_app_assoc. cbn [app]. rewrite <-app_assoc.
  apply (reads_before " "%char _ (TPunct "(" :: _)); [done|].
  apply (reads_before "("%char _ (variable_tokens vars ++ _)); [done|].
  apply (reads_delimited _ ")"%char " {" _ [TPunct "{"%char]); [done|by apply reads_variables|].
  by apply (reads_before " "%char "{" [TPunct "{"%char]), reads_punct.
Qed.
Lemma reads_first_line ty q : is_name ty = true → plain_base q = true → reads (render_first_line ty q) (first_tokens ty q).
Proof.
  intros Hty Hq. pose proof (reads_vars_text _ Hq) as Hend. destruct (plain_base_spec _ Hq) as (Hname & _ & _).
  unfold render_first_line, first_tokens.
  assert (∃ s, vars_text q = String " " s) as [s Hs] by (destruct (gq_variables q) as [[|v vs]|]; by eexists).
  assert (∀ t, reads (String " " s) t → reads s t) as Hblank.
  { intros t Ht d Hd. rewrite <-(Ht d Hd). by rewrite str_app_cons, lex_run_blank. }
  rewrite Hs in *. apply Hblank in Hend. destruct (bool_decide (gq_name q = "")) eqn:Hn.
  - apply (reads_delimited ty " "%char s [TWord ty]); [done|by apply reads_name|done].
  - rewrite str_app_assoc. apply (reads_delimited ty " "%char (gq_name q +:+ String " " s) [TWord ty]); [done|by apply reads_name|].
    apply bool_decide_eq_false in Hn.
    apply (reads_delimited (gq_name q) " "%char s [TWord (gq_name q)]); [done| |done]. apply reads_name. by destruct Hname.
Qed.

(** A document is its first line, a body, and a closing line. *)
Lemma read_document_spec ty q lines toks sels : ty ∈ ["query"; "mutation"] → plain_base q = true →
  reads_lines lines toks → sels ≠ [] →
  (∀ n, length toks < n → parse_selections n (toks ++ [TPunct "}"%char]) = Some (sels, [])) →
  read_document (document (render_first_line ty q :: lines ++ ["}"])) =
    Some (mkOperation ty (gq_name q) (variables_of (gq_variables q)) sels).
Proof.
  intros Hty Hq Hlines Hne Hsels. destruct (plain_base_spec _ Hq) as (Hname & Hvars & _). unfold read_document.
  rewrite (lex_document _ (first_tokens ty q ++ toks ++ [TPunct "}"%char])); [|done|].
  2:{ apply reads_lines_block; [apply reads_first_line; [|done]|done|by apply reads_punct].
      rewrite !elem_of_cons, elem_of_nil in Hty. by destruct Hty as [->|[->|[]]]. }
  cbn [mbind option_bind]. unfold parse_operation.
  set (all := first_tokens ty q ++ toks ++ [TPunct "}"%char]).
  assert (length toks < length all) as Hfuel by (subst all; rewrite !length_app; cbn; lia).
  assert (parse_block "{" (parse_selections (length all)) (TPunct "{" :: toks ++ [TPunct "}"%char]) = Some (sels, [])) as Hblock.
  { apply parse_block_open; [by apply Hsels|done]. }
  assert (∃ vars rest, all = TWord ty :: (if bool_decide (gq_name q = "") then [] else [TWord (gq_name q)]) ++ TPunct vars :: rest ∧
    parse_block "(" parse_variables (TPunct vars :: rest) =
      Some (variables_of (gq_variables q), TPunct "{" :: toks ++ [TPunct "}"%char])) as (c & rest & Hall & Hparse).
  { subst all. unfold first_tokens. cbn [app]. rewrite <-!app_assoc. clear Hfuel Hblock.
    destruct (variables_of (gq_variables q)) as [|v vars] eqn:Hvs; [by eexists _, _|]. rewrite <-Hvs in *.
    eexists _, _. split; [done|]. apply parse_block_open; [|by rewrite Hvs].
    etrans; [|by apply parse_variables_tokens]. apply (f_equal parse_variables), eq_sym, (app_assoc _ [_]). }
  rewrite Hall in *. rewrite decide_True by done. case_bool_decide as Hn; cbn [app]; rewrite Hparse; cbn [mbind option_bind];
    cbn [app] in Hblock; rewrite Hblock; cbn; rewrite ?Hn; by destruct sels.
Qed.

(** The tokens of the body of a mutation *)
Definition mutation_tokens (m : Mutation) : list token :=
  [TWord (mu_mutation m); TPunct "("%char] ++ field_tokens (mu_input_data m) ++ [TPunct ")"%char; TPunct "{"%char] ++
  query_tokens (JDict (gq_query (mu_base m))) ++ [TPunct "}"%char].
Lemma plain_mutation_spec m : plain_mutation m = true →
  plain_base (mu_base m) = true ∧ is_name (mu_mutation m) = true ∧ mu_input_data m ≠ [] ∧
  plain_input (JDict (mu_input_data m)) = true ∧ plain_query (JDict (gq_query (mu_base m))) = true.
Proof.
  unfold plain_mutation. rewrite !andb_true_iff, negb_true_iff, bool_decide_eq_false. intros (((Hb & Hn) & Hi) & Hp).
  split_and!; try done; [by destruct (mu_input_data m)|]. by apply plain_base_spec in Hb as (_ & _ & ?).
Qed.
Lemma parse_mutation m n : plain_mutation m = true → length (mutation_tokens m) < n →
  parse_selections n (mutation_tokens m ++ [TPunct "}"%char]) =
    Some ([Sel None (mu_mutation m) (arguments_of written (mu_input_data m)) (selections_of written (JDict (gq_query (mu_base m))))], []).
Proof.
  intros (_ & Hname & Hne & Hinput & Hquery)%plain_mutation_spec Hn. unfold mutation_tokens in *.
  rewrite !length_app in Hn. cbn [length] in Hn. destruct n as [|n]; [lia|]. cbn [app]. rewrite <-app_assoc. cbn [app]. rewrite <-app_assoc.
  assert (arguments_of written (mu_input_data m) ≠ []) as Hargs by by destruct (mu_input_data m).
  erewrite (parse_field n None (mu_mutation m)).
  4:{ apply parse_block_open; [apply parse_query; [done|lia]|by apply selections_rendered]. }
  3:{ apply parse_block_open; [|done]. apply (parse_fields_tokens ")"%char); [|lia].
      cbn in Hinput. apply forallb_Forall in Hinput. apply (Forall_impl _ _ _ Hinput).
      intros kv [Hk Hv]%andb_true_iff. split; [done|]. apply parse_value_tokens. by left. }
  2:{ cbn [parse_head]. by destruct (field_tokens _) as [|[]]; cbn; rewrite ?Hname. }
  destruct n as [|n]; [lia|]. done.
Qed.
Lemma render_mutation_lines m : plain_mutation m = true → ∃ lines,
  render_mutation m = Ok (document (render_first_line "mutation" (mu_base m) :: lines ++ ["}"])) ∧
  reads_lines lines (mutation_tokens m).
Proof.
  intros (_ & Hname & _ & Hinput & Hquery)%plain_mutation_spec. unfold render_mutation.
  destruct (reads_query _ Hquery (INDENTATION * 2) INDENTATION) as (lines & -> & Hlines). cbn [mbind result_bind].
  set (input := render_input_block _ _ _).
  exists ((indent INDENTATION +:+ mu_mutation m +:+ "(") :: input ++ (indent INDENTATION +:+ "){") :: lines ++ [indent INDENTATION +:+ "}"]). split.
  - cbn [app]. do 3 f_equal. rewrite <-app_assoc. cbn [app]. by rewrite <-app_assoc.
  - unfold mutation_tokens. apply (reads_lines_cons _ _ [_; _]).
    { apply reads_indent, (reads_delimited _ "("%char "" [_] []); [done|by apply reads_name|apply reads_empty]. }
    apply reads_lines_app; [by apply (reads_input (JDict _))|]. apply (reads_lines_block _ _ _ [_; _]); [|done|by apply reads_indent, reads_punct].
    by apply reads_indent, (reads_before ")"%char "{" [TPunct "{"%char]), reads_punct.
Qed.

Lemma mutation_reads (m : Mutation) : plain_mutation m = true →
  ∃ text, render_mutation m = Ok text ∧
    read_document text = Some (mkOperation "mutation" (gq_name (mu_base m)) (variables_of (gq_variables (mu_base m)))
      [Sel None (mu_mutation m) (arguments_of written (mu_input_data m)) (selections_of written (JDict (gq_query (mu_base m))))]).
Proof.
  intros Hm. destruct (render_mutation_lines _ Hm) as (lines & Hr & Hlines). destruct (plain_mutation_spec _ Hm) as (Hb & _).
  eexists. split; [done|]. apply (read_document_spec _ _ _ (mutation_tokens m)); try done; [by right; left|].
  intros n Hn. by apply parse_mutation.
Qed.
Lemma query_reads (q : GraphQLQuery) : plain_base q = true →
  ∃ text, render_query q = Ok text ∧
    read_document text = Some (mkOperation "query" (gq_name q) (variables_of (gq_variables q)) (selections_of written (JDict (gq_query q)))).
Proof.
  intros Hq. destruct (plain_base_spec _ Hq) as (_ & _ & Hquery). unfold render_query.
  destruct (reads_query _ Hquery INDENTATION INDENTATION) as (lines & -> & Hlines). eexists. split; [done|].
  apply (read_document_spec _ _ _ (query_tokens (JDict (gq_query q)))); try done; [by left|by apply selections_rendered|].
  intros n Hn. by apply parse_query.
Qed.

(** Without [None], it does not matter what it means. *)
Lemma gvalue_of_no_none none none' v : no_none v = true → gvalue_of none v = gvalue_of none' v.
Proof.
  induction v as [|b|z|s|l IH|d IH] using json_nested_ind; intros Hv; try done; cbn in *; f_equal.
  - apply list_fmap_ext. intros i v Hin%list_elem_of_lookup_2. rewrite forallb_forall in Hv. eapply Forall_forall in IH; [|done]. apply IH, Hv.
    by apply list_elem_of_In.
  - apply list_fmap_ext. intros i kv Hin%list_elem_of_lookup_2. rewrite forallb_forall in Hv. eapply Forall_forall in IH; [|done]. f_equal. apply IH, Hv.
    by apply list_elem_of_In.
Qed.
Lemma arguments_of_no_none none none' items : no_none (JDict items) = true → arguments_of none items = arguments_of none' items.
Proof. intros Hv. apply (gvalue_of_no_none none none') in Hv. cbn in Hv. by injection Hv. Qed.
Lemma selections_of_no_none none none' data : filters_no_none data = true → selections_of none data = selections_of none' data.
Proof.
  induction data as [| | | | |items IH] using json_nested_ind; intros Hd; try done.
  cbn [filters_no_none] in Hd. induction IH as [|[k v] items Hv _ IHl]; [done|]. cbn [forallb fst snd] in *. apply andb_true_iff in Hd as [Hkv Hd].
  specialize (IHl Hd). cbn [selections_of] in *. rewrite IHl. f_equal. case_decide as Hk; [done|].
  rewrite bool_decide_eq_false_2 in Hkv by done. destruct v as [| | | | |v]; try done. apply andb_true_iff in Hkv as [Hf Hkv].
  rewrite (Hv Hkv). do 2 f_equal. destruct (only_alias v); [done|]. by apply arguments_of_no_none.
Qed.

(** C20: The texts of a query and of a mutation are read by the server as the operation, its
    variables, the fields it asks for with their aliases and filters, and the input data of
    the mutation, exactly: null apart from words, numbers, booleans, texts and variables.  For
    names that are names of GraphQL (or fragments on one), aliases that are texts, at least one
    field in each selection, an input that is not empty, variables of distinct names of which
    one at least has a type that the mapping knows, texts that are variables or hold no quote,
    escape or end of line, and no [None] among the values, nor a dictionary in a filter or
    in a list inside a list. *)
Theorem documents_roundtrip (q : GraphQLQuery) (m : Mutation) (Hq : plain_base q = true) (Hm : plain_mutation m = true)
    (Hnq : filters_no_none (JDict (gq_query q)) = true)
    (Hnm : no_none (JDict (mu_input_data m)) = true ∧ filters_no_none (JDict (gq_query (mu_base m))) = true) :
  (∃ text, render_query q = Ok text ∧
    read_document text = Some (mkOperation "query" (gq_name q) (variables_of (gq_variables q)) (selections_of GNull (JDict (gq_query q))))) ∧
  ∃ text, render_mutation m = Ok text ∧
    read_document text = Some (mkOperation "mutation" (gq_name (mu_base m)) (variables_of (gq_variables (mu_base m)))
      [Sel None (mu_mutation m) (arguments_of GNull (mu_input_data m)) (selections_of GNull (JDict (gq_query (mu_base m))))]).
Proof.
  destruct Hnm as [Hinput Hnm]. rewrite !(selections_of_no_none GNull written), (arguments_of_no_none GNull written) by done.
  split; [by apply query_reads|by apply mutation_reads].
Qed.
#[local] Abbreviation demo_query := (mkGraphQLQuery
  [("device", JDict [("@filters", JDict [("name__value", JStr "$name"); ("limit", JInt 10)]); ("name", JDict [("@alias", JStr "new_name"); ("value", JNull)]);
     ("...on Builtin", JDict [("description", JDict [("value", JDict [("@alias", JStr "myvalue")])])])])] (Some [("name", TyStr)]) "devices").
#[local] Abbreviation demo_mutation := (mkMutation
  (mkGraphQLQuery [("ok", JNull); ("object", JDict [("id", JNull)])] (Some [("value_1", TyStr)]) "") "CoreDeviceUpdate"
  [("data", JDict [("name", JDict [("value", JStr "$value_1"); ("is_protected", JBool true)]);
     ("mtu", JDict [("value", JInt (-1))]); ("tags", JList [JDict [("id", JStr "red one")]; JDict [("id", JStr "")]])])]).
Lemma documents_roundtrip_witness :
  (plain_base demo_query = true ∧ plain_mutation demo_mutation = true) ∧
  (∃ text, render_query demo_query = Ok text ∧
    read_document text = Some (mkOperation "query" "devices" [("$name", "String!")]
      [Sel None "device" [("name__value", GVar "$name"); ("limit", GInt "10")]
        [Sel (Some "new_name") "name" [] [Sel None "value" [] []];
         Sel None "...on Builtin" [] [Sel None "description" [] [Sel (Some "myvalue") "value" [] []]]]])) ∧
  ∃ text, render_mutation demo_mutation = Ok text ∧
    read_document text = Some (mkOperation "mutation" "" [("$value_1", "String!")]
      [Sel None "CoreDeviceUpdate"
        [("data", GObj [("name", GObj [("value", GVar "$value_1"); ("is_protected", GBool true)]);
           ("mtu", GObj [("value", GInt "-1")]); ("tags", GList [GObj [("id", GStr "red one")]; GObj [("id", GStr "")]])])]
        [Sel None "ok" [] []; Sel None "object" [] [Sel None "id" [] []]]]).
Proof. split; [by vm_compute|]. exact (documents_roundtrip demo_query demo_mutation eq_refl eq_refl eq_refl (conj eq_refl eq_refl)). Defined.

(** A quote in a text ends it: here the value of an element of a list adds a field to the
    input, since the texts are not escaped. *)
Theorem quote_not_escaped :
  let q := String dquote "" in
  ∃ text, render_mutation (mkMutation (mkGraphQLQuery [("ok", JNull)] None "") "CoreTagUpdate"
      [("data", JDict [("names", JList [JStr ("a" +:+ q +:+ "]}, extra: {value: [" +:+ q +:+ "b")])])]) = Ok text ∧
    read_document text = Some (mkOperation "mutation" "" []
      [Sel None "CoreTagUpdate" [("data", GObj [("names", GList [GStr "a"])]); ("extra", GObj [("value", GList [GStr "b"])])] [Sel None "ok" [] []]]).
Proof. eexists. split; vm_compute; reflexivity. Qed.

(** [None] is not sent as null, but as an element of an enumeration named None. *)
Theorem none_is_not_null :
  ∃ text, render_mutation (mkMutation (mkGraphQLQuery [("ok", JNull)] None "") "CoreTagUpdate"
      [("data", JDict [("description", JDict [("value", JNull)])])]) = Ok text ∧
    read_document text = Some (mkOperation "mutation" "" []
      [Sel None "CoreTagUpdate" [("data", GObj [("description", GObj [("value", GEnum "None")])])] [Sel None "ok" [] []]]).
Proof. eexists. split; vm_compute; reflexivity. Qed.
