(* ===== verification/SdkNode.v ===== *)
(** * The nodes of the SDK

    [python_sdk/infrahub_sdk/node.py]: the node objects of the client, their attributes,
    their related nodes and the managers of their relationships, and the mutations that
    they send.  A node object is known by its number: [nodes] gives the objects, and a
    related node that was given as an object refers to it.  The data of a node are those of
    the server, or JSON values. *)

From stdpp Require Import prelude strings pretty.
From Stdlib Require Import Ascii.
From S2P Require Import Prelude PyString PyDict SdkUtils HashModel IpNetwork IpText SdkSchema SdkStore SdkGraphql.

#[local] Open Scope nat_scope.

Definition PROPERTIES_FLAG : list string := ["is_visible"; "is_protected"].
Definition PROPERTIES_OBJECT : list string := ["source"; "owner"].
Definition PROPERTIES : list string := PROPERTIES_FLAG ++ PROPERTIES_OBJECT.

(** [SAFE_VALUE.match(value)]: characters of the class up to the end, which for [$] can also
    be an end of line that ends the text. *)
Definition safe_char (c : ascii) : bool :=
  is_alpha c || is_digit c || bool_decide (c = "."%char ∨ c = " "%char ∨ c = "/"%char ∨ c = ":"%char ∨ c = "_"%char ∨ c = "-"%char).
Fixpoint SAFE_VALUE (value : string) : bool :=
  match value with
  | EmptyString => true
  | String c rest => bool_decide (c = "010"%char ∧ rest = "") || safe_char c && SAFE_VALUE rest
  end.

(** [d.get(key)] *)
Definition dget (d : list (string * json)) (key : string) : json := default JNull (dict_get d key).
(** [d.get(key)] where [d] can be another value than a dictionary *)
Definition data_get (data : json) (key : string) : json := match data with JDict d => dget d key | _ => JNull end.

(** ** Attributes *)

(** The values of an attribute: those of the data, and the objects of [ipaddress]. *)
Inductive SdkValue := SVal (v : json) | SInterface (i : IPInterface) | SNetwork (i : IPInterface).

Record NodeProperty := mkNodeProperty { np_id : json; np_display_label : json; np_typename : json }.
Definition node_property (data : json) : NodeProperty :=
  match data with
  | JStr s => mkNodeProperty (JStr s) JNull JNull
  | JDict d => mkNodeProperty (dget d "id") (dget d "display_label") (dget d "__typename")
  | _ => mkNodeProperty JNull JNull JNull
  end.

Record Attribute := mkAttribute {
  at_name : string;
  at_schema : AttributeSchema;
  at_id : json;
  at_value : SdkValue;
  at_is_default : json;
  at_is_from_profile : json;
  at_is_inherited : json;
  at_updated_at : json;
  at_is_visible : json;
  at_is_protected : json;
  at_source : option NodeProperty;
  at_owner : option NodeProperty;
}.
#[export] Instance Attribute_rebuild : Rebuild Attribute := λ a,
  mkAttribute (at_name a) (at_schema a) (at_id a) (at_value a) (at_is_default a) (at_is_from_profile a) (at_is_inherited a)
    (at_updated_at a) (at_is_visible a) (at_is_protected a) (at_source a) (at_owner a).

(** An integer as an address of its own network *)
Definition int_address (z : Z) : result IPInterface :=
  if ((0 <=? z) && (z <? 2 ^ 32))%Z then Ok (mkIPInterface (mkIPAddress V4 z None) 32)
  else if ((0 <=? z) && (z <? 2 ^ 128))%Z then Ok (mkIPInterface (mkIPAddress V6 z None) 128)
  else Err (ValueError "does not appear to be an IPv4 or IPv6 address").
Definition read_address (read : string → result IPInterface) (v : json) : result IPInterface :=
  match v with JInt z => int_address z | JBool b => int_address (Z.b2z b) | _ => read (py_str v) end.
(** The value of an attribute of a kind, made from the data *)
Definition value_mapper (kind : string) (v : json) : result SdkValue :=
  if negb (truthy_json v) then Ok (SVal v)
  else if decide (kind = "IPHost") then SInterface <$> read_address read_interface v
  else if decide (kind = "IPNetwork") then SNetwork <$> read_address read_network v
  else Ok (SVal v).

Definition attribute_init (name : string) (schema : AttributeSchema) (data : json) : result Attribute :=
  let d := match data with
           | JDict d => if dict_mem d "value" then d else [("value", data)]
           | _ => [("value", data)] end in
  value ← value_mapper (as_kind schema) (dget d "value");
  let property name := if truthy_json (dget d name) then Some (node_property (dget d name)) else None in
  mret (mkAttribute name schema (dget d "id") value (dget d "is_default") (dget d "is_from_profile") (dget d "is_inherited")
    (dget d "updated_at") (dget d "is_visible") (dget d "is_protected") (property "source") (property "owner")).

(** ** The client *)

(** A loop whose body gives the next value of an accumulator *)
Fixpoint fold_exec {S A B} (f : A → B → Exec S A) (acc : A) (l : list B) : Exec S A :=
  match l with [] => mret acc | x :: l' => acc ← f acc x; fold_exec f acc l' end.

(** The store of the client, and how many identifiers were generated. *)
Record Client := mkClient { cl_store : NodeStore; cl_uuids : nat }.
#[export] Instance Client_rebuild : Rebuild Client := λ c, mkClient (cl_store c) (cl_uuids c).
Definition in_store {A} (m : Exec NodeStore A) : Exec Client A :=
  λ c, let '(r, s) := m (cl_store c) in (r, c <| cl_store := s |>).

(** ** Related nodes and managers *)

Record RelatedNode := mkRelatedNode {
  rn_schema : RelationshipSchema;
  rn_name : option string;
  rn_peer : option nat;
  rn_id : json;
  rn_display_label : json;
  rn_typename : json;
  rn_properties : list (string * json);
}.
(** What a relationship is given: a node object, or data.  (A [RelatedNode] object, which
    the signature of [add] allows too, is not data: the code takes the object itself for
    an id, which the model leaves out.) *)
Inductive RelData := RPeer (node : nat) | RData (v : json).

Definition property_value (properties_data : list (string * json)) (prop : string) : json :=
  let prop_data := default (dget properties_data ("_relation__" +:+ prop)) (dict_get properties_data prop) in
  match prop_data with
  | JDict d => if dict_mem d "id" then dget d "id" else JNull
  | JStr _ | JBool _ => if truthy_json prop_data then prop_data else JNull
  | _ => JNull
  end.
Definition clean_typename (typename : json) : result json :=
  if negb (truthy_json typename) then Ok typename else
  match typename with
  | JStr t => Ok (JStr (default t (strip_prefix "Related" t)))
  | _ => Err (AttributeError "startswith")
  end.
Definition related_node (schema : RelationshipSchema) (name : option string) (data : RelData) : result RelatedNode :=
  match data with
  | RPeer node => Ok (mkRelatedNode schema name (Some node) JNull JNull JNull ((λ prop, (prop, JNull)) <$> PROPERTIES))
  | RData v =>
      let d := match v with JDict d => d | _ => [("id", v)] end in
      let node_data := default (JDict d) (dict_get d "node") in
      nd ← (if negb (truthy_json node_data) then Ok [] else
            match node_data with JDict nd => Ok nd | _ => Err (AttributeError "get") end);
      typename ← clean_typename (dget nd "__typename");
      pd ← (match default (JDict d) (dict_get d "properties") with JDict pd => Ok pd | _ => Err (AttributeError "get") end);
      mret (mkRelatedNode schema name None (dget nd "id") (dget nd "display_label") typename
        ((λ prop, (prop, property_value pd prop)) <$> PROPERTIES))
  end.

Record RelationshipManager := mkRelationshipManager {
  rm_initialized : bool;
  rm_has_update : bool;
  rm_name : string;
  rm_schema : RelationshipSchema;
  rm_peers : list RelatedNode;
}.
#[export] Instance RelationshipManager_rebuild : Rebuild RelationshipManager := λ m,
  mkRelationshipManager (rm_initialized m) (rm_has_update m) (rm_name m) (rm_schema m) (rm_peers m).

(** [for item in v] *)
Definition iterate (v : json) : result (list json) :=
  match v with
  | JList l => Ok l
  | JDict d => Ok (JStr <$> dict_keys d)
  | JStr s => Ok ((λ c, JStr (String c "")) <$> String.list_ascii_of_string s)
  | _ => Err (TypeError "object is not iterable")
  end.
Definition relationship_manager (name : string) (schema : RelationshipSchema) (data : json) : result RelationshipManager :=
  match data with
  | JNull => Ok (mkRelationshipManager false false name schema [])
  | _ =>
      items ← (match data with
               | JList l => Ok l
               | JDict d => match dict_get d "edges" with Some edges => iterate edges | None => Err (ValueError "Unexpected format") end
               | _ => Err (ValueError "Unexpected format") end);
      peers ← mapM (λ item, related_node schema (Some name) (RData item)) items;
      mret (mkRelationshipManager true true name schema peers)
  end.

(** ** Nodes *)

Inductive Relationship := ROne (r : option RelatedNode) | RMany (m : RelationshipManager).
Record SdkNode := mkSdkNode {
  nd_schema : BaseNodeSchema;
  nd_data : json;
  nd_branch : string;
  nd_existing : bool;
  nd_id : json;
  nd_display_label : json;
  nd_typename : json;
  nd_attributes : list (string * Attribute);
  nd_relationships : list (string * Relationship);
}.
#[export] Instance SdkNode_rebuild : Rebuild SdkNode := λ n,
  mkSdkNode (nd_schema n) (nd_data n) (nd_branch n) (nd_existing n) (nd_id n) (nd_display_label n) (nd_typename n)
    (nd_attributes n) (nd_relationships n).

(** The setter of a relationship of cardinality one, for data *)
Definition relationship_value (schema : BaseNodeSchema) (name : string) (value : RelData) : result Relationship :=
  match value with
  | RData JNull => Ok (ROne None)
  | _ => rel ← get_relationship schema name; r ← related_node rel (Some name) value; mret (ROne (Some r))
  end.
Definition set_relationship (name : string) (value : RelData) (n : SdkNode) : result SdkNode :=
  r ← relationship_value (nd_schema n) name value; mret (n <| nd_relationships := dict_set (nd_relationships n) name r |>).

Definition init_attributes (schema : BaseNodeSchema) (data : json) : result (list (string * Attribute)) :=
  foldM (λ attrs name,
    attr_schema ← get_attribute schema name;
    attr ← attribute_init name attr_schema (data_get data name);
    mret (dict_set attrs name attr)) [] (attribute_names schema).
Definition init_relationships (schema : BaseNodeSchema) (data : json) : result (list (string * Relationship)) :=
  foldM (λ rels name,
    rel_schema ← get_relationship schema name;
    rel ← (match rs_cardinality rel_schema with
           | ONE => relationship_value schema name (RData (data_get data name))
           | MANY => RMany <$> relationship_manager name rel_schema (data_get data name)
           end);
    mret (dict_set rels name rel)) [] (relationship_names schema).
(** [InfrahubNode.__init__] *)
Definition node_init (schema : BaseNodeSchema) (branch : string) (data : json) : result SdkNode :=
  let data := match data with JDict d => default data (dict_get d "node") | _ => data end in
  let typename := match data with JDict d => default (JStr (kind schema)) (dict_get d "__typename") | _ => JStr (kind schema) end in
  attributes ← init_attributes schema data;
  relationships ← init_relationships schema data;
  mret (mkSdkNode schema data branch (truthy_json (data_get data "id")) (data_get data "id") (data_get data "display_label") typename
    attributes relationships).

Section client.
Context (nodes : nat → SdkNode).
(** [UUIDT.new().hex] of the n-th call, and the text of an object without [__str__] *)
Context (hex : nat → string) (object_text : string).

Definition is_resource_pool (n : SdkNode) : bool :=
  match inherit_from (nd_schema n) with Some l => bool_decide ("CoreResourcePool" ∈ l) | None => false end.

(** ** Operations of the related nodes and of the managers *)

Definition related_id (r : RelatedNode) : json := match rn_peer r with Some p => nd_id (nodes p) | None => rn_id r end.
Definition related_is_pool (r : RelatedNode) : bool :=
  match rn_peer r with Some p => is_resource_pool (nodes p) | None => false end.
Definition related_initialized (r : RelatedNode) : bool := truthy_json (related_id r).

Definition related_input (r : RelatedNode) : json :=
  if related_is_pool r then JDict [("from_pool", JDict [("id", related_id r)])] else
  JDict ((match related_id r with JNull => [] | id => [("id", id)] end) ++
         omap (λ kv, match kv.2 with JNull => None | v => Some ("_relation__" +:+ kv.1, v) end) (rn_properties r)).
Definition peer_query : json := JDict [("id", JNull); ("display_label", JNull); ("__typename", JNull)].
Definition related_mutation_query (r : RelatedNode) : list (string * json) :=
  if truthy_str (rn_name r) && related_is_pool r then [(default "" (rn_name r), JDict [("node", peer_query)])] else [].

Definition peer_ids (m : RelationshipManager) : list json := filter (λ id, truthy_json id = true) (related_id <$> rm_peers m).
(** [id in l] *)
Definition id_in (id : json) (l : list json) : bool := existsb (py_eq id) l.

Definition check_initialized : Exec RelationshipManager unit :=
  m ← get_state; if rm_initialized m then mret tt else raise (Error "UninitializedError").
Definition manager_add (data : RelData) : Exec RelationshipManager unit :=
  _ ← check_initialized;
  m ← get_state;
  new_node ← lift (related_node (rm_schema m) None data);
  let id := related_id new_node in
  if truthy_json id && negb (id_in id (peer_ids m))
  then modify (λ m, m <| rm_peers := rm_peers m ++ [new_node] |> <| rm_has_update := true |>) else mret tt.
Definition manager_extend (data : list RelData) : Exec RelationshipManager unit := for_each manager_add data.
Definition manager_remove (data : RelData) : Exec RelationshipManager unit :=
  _ ← check_initialized;
  m ← get_state;
  node_to_remove ← lift (related_node (rm_schema m) None data);
  let id := related_id node_to_remove in
  match (if truthy_json id then list_find (λ x, py_eq id x = true) (peer_ids m) else None) with
  | None => mret tt
  | Some (idx, _) =>
      match rm_peers m !! idx with
      | Some peer =>
          if py_eq (related_id peer) id
          then modify (λ m, m <| rm_peers := delete idx (rm_peers m) |> <| rm_has_update := true |>)
          else raise IndexError
      | None => raise IndexError
      end
  end.

(** [RelatedNode.get]: only a related node given as an object has a human friendly id, and
    its peer is returned first. *)
Definition related_get (r : RelatedNode) : Exec Client nat :=
  match rn_peer r with
  | Some p => mret p
  | None =>
      if truthy_json (rn_id r) && truthy_json (rn_typename r) then
        match rn_id r, rn_typename r with
        | JStr id, JStr typename =>
            node ← in_store (store_get id (Some typename) true);
            match node with Some p => mret p | None => raise (NodeNotFoundError id) end
        | id, _ => raise (NodeNotFoundError (py_str id))
        end
      else raise (ValueError "Node must have at least one identifier (ID or HFID) to query it.")
  end.

(** ** Paths and human friendly ids *)

(** What [getattr] gives: a value, an attribute, a related node, another object, or the human
    friendly id of a node. *)
Inductive PathValue := PVal (v : SdkValue) | PAttr (a : Attribute) | PRel (r : RelatedNode) | PObject | PHfid (l : list string).
Definition PNone : PathValue := PVal (SVal JNull).

(** [getattr(x, name, None)], for the names of the data of an object *)
Definition property_object (p : option NodeProperty) : PathValue := match p with Some _ => PObject | None => PNone end.
Definition attribute_getattr (a : Attribute) (name : string) : PathValue :=
  default PNone (dict_get [("id", PVal (SVal (at_id a))); ("name", PVal (SVal (JStr (at_name a)))); ("value", PVal (at_value a));
    ("is_default", PVal (SVal (at_is_default a))); ("is_from_profile", PVal (SVal (at_is_from_profile a)));
    ("is_inherited", PVal (SVal (at_is_inherited a))); ("updated_at", PVal (SVal (at_updated_at a)));
    ("is_visible", PVal (SVal (at_is_visible a))); ("is_protected", PVal (SVal (at_is_protected a)));
    ("source", property_object (at_source a)); ("owner", property_object (at_owner a))] name).
Definition related_getattr (r : RelatedNode) (name : string) : PathValue :=
  match dict_get (rn_properties r) name with
  | Some v => PVal (SVal v)
  | None =>
      if decide (name = "id") then PVal (SVal (related_id r))
      else if decide (name = "display_label") then
        PVal (SVal (match rn_peer r with Some p => nd_display_label (nodes p) | None => rn_display_label r end))
      else if decide (name = "typename") then
        PVal (SVal (match rn_peer r with Some p => nd_typename (nodes p) | None => rn_typename r end))
      else PNone
  end.
Definition node_getattr (n : SdkNode) (name : string) : PathValue :=
  match dict_get (nd_attributes n) name, dict_get (nd_relationships n) name with
  | Some a, _ => PAttr a
  | None, Some (ROne (Some r)) => PRel r
  | None, Some (ROne None) => PNone
  | None, Some (RMany _) => PObject
  | None, None =>
      if decide (name = "id") then PVal (SVal (nd_id n)) else if decide (name = "display_label") then PVal (SVal (nd_display_label n))
      else if decide (name = "typename") then PVal (SVal (nd_typename n)) else PNone
  end.
Definition path_getattr (v : PathValue) (name : string) : PathValue :=
  match v with PAttr a => attribute_getattr a name | PRel r => related_getattr r name | _ => PNone end.
(** [path_parts[i]], when it is there and not empty *)
Definition piece (parts : list string) (i : nat) : option string :=
  match parts !! i with Some (String c s) => Some (String c s) | _ => None end.
Definition ip_text (i : IPInterface) : string := network_with_prefixlen i.
(** [str(v)] *)
Definition path_text (v : PathValue) : string :=
  match v with
  | PVal (SVal v) => py_str v
  | PVal (SInterface i) | PVal (SNetwork i) => ip_text i
  | PHfid l => py_str (JList (JStr <$> l))
  | PAttr _ | PRel _ | PObject => object_text
  end.

(** The lookup of a peer in the store may fail; the path then has no value. *)
Definition peer_or_none (r : RelatedNode) : Exec Client (option nat) :=
  catch (Some <$> related_get r) (λ e, match e with NodeNotFoundError _ | ValueError _ => Some (mret None) | _ => None end).
Definition get_path_value (peer_hfid : SdkNode → Exec Client (option (list string))) (n : SdkNode) (path : string) : Exec Client PathValue :=
  let parts := py_split "__" path in
  let name := default "" (head parts) in
  found ← (if decide (name ∈ relationship_names (nd_schema n)) then
             match dict_get (nd_relationships n) name with
             | Some (ROne (Some r)) =>
                 peer ← peer_or_none r;
                 match peer, piece parts 1 with
                 | None, _ => mret (inl PNone)
                 | Some p, None =>
                     hfid ← peer_hfid (nodes p);
                     mret (inl (match hfid with Some (x :: l) => PHfid (x :: l) | _ => PVal (SVal (nd_id (nodes p))) end))
                 | Some p, Some attribute =>
                     let v := node_getattr (nodes p) attribute in
                     mret (inr (match piece parts 2 with Some property => path_getattr v property | None => v end))
                 end
             | Some (RMany _) => raise (AttributeError "get")
             | _ => mret (inl PNone)
             end
           else mret (inr PNone));
  match found with
  | inl v => mret v
  | inr v =>
      mret (if decide (name ∈ attribute_names (nd_schema n)) then
              let a := from_option PAttr PNone (dict_get (nd_attributes n) name) in
              match piece parts 1 with Some property => path_getattr a property | None => a end
            else v)
  end.
(** [get_human_friendly_id]; [depth] is the limit that Python puts on recursion. *)
Fixpoint get_human_friendly_id (depth : nat) (n : SdkNode) : Exec Client (option (list string)) :=
  match human_friendly_id (nd_schema n) with
  | None | Some [] => mret None
  | Some paths =>
      match depth with
      | O => raise (RuntimeError "maximum recursion depth exceeded")
      | S depth =>
          texts ← mapM (λ path, v ← get_path_value (get_human_friendly_id depth) n path; mret (path_text v)) paths;
          mret (Some texts)
      end
  end.
Definition get_human_friendly_id_as_string (depth : nat) (n : SdkNode) (include_kind : bool) : Exec Client (option string) :=
  hfid ← get_human_friendly_id depth n;
  mret (match hfid with
        | None | Some [] => None
        | Some l => Some (py_join "__" ((if include_kind then [kind (nd_schema n)] else []) ++ l))
        end).

(** ** Input data *)

Definition next_uuid : Exec Client string := n ← gets cl_uuids; _ ← modify (λ c, c <| cl_uuids := S n |>); mret (hex n).

(** [Attribute._generate_input_data]: the data and the variables, or nothing for an attribute
    without value *)
Definition not_none (name : string) (v : json) : list (string * json) := match v with JNull => [] | _ => [(name, v)] end.
Definition property_input (name : string) (p : option NodeProperty) : list (string * json) :=
  match p with Some p => [(name, np_id p)] | None => [] end.
Definition attribute_input (a : Attribute) : Exec Client (option (list (string * json) * list (string * json))) :=
  let properties := not_none "is_visible" (at_is_visible a) ++ not_none "is_protected" (at_is_protected a) ++
                    property_input "source" (at_source a) ++ property_input "owner" (at_owner a) in
  match at_value a with
  | SVal JNull => mret None
  | SVal (JStr s) =>
      if SAFE_VALUE s then mret (Some (("value", JStr s) :: properties, [])) else
      id ← next_uuid;
      let var_name := "value_" +:+ id in
      mret (Some (("value", JStr ("$" +:+ var_name)) :: properties, [(var_name, JStr s)]))
  | SInterface i => mret (Some (("value", JStr (interface_with_prefixlen i)) :: properties, []))
  | SNetwork i => mret (Some (("value", JStr (network_with_prefixlen i)) :: properties, []))
  | SVal v => mret (Some (("value", v) :: properties, []))
  end.

(** The data of a mutation and its variables, while they are made *)
Definition Payload : Type := list (string * json) * list (string * json).
Definition add_attribute (n : SdkNode) (name : string) (p : Payload) : Exec Client Payload :=
  match dict_get (nd_attributes n) name with
  | None => raise (AttributeError name)
  | Some attr =>
      if as_read_only (at_schema attr) then mret p else
      input ← attribute_input attr;
      mret (match input with
            | Some (data, variables) => (dict_set p.1 name (JDict data), dict_update p.2 variables)
            | None => p
            end)
  end.
Definition add_relationship (n : SdkNode) (name : string) (p : Payload) : Exec Client Payload :=
  rel_schema ← lift (get_relationship (nd_schema n) name);
  if rs_read_only rel_schema then mret p else
  match dict_get (nd_relationships n) name with
  | None => raise (AttributeError name)
  | Some (ROne None) => mret p
  | Some (ROne (Some r)) => mret (if related_initialized r then (dict_set p.1 name (related_input r), p.2) else p)
  | Some (RMany m) => mret (if rm_initialized m then (dict_set p.1 name (JList (related_input <$> rm_peers m)), p.2) else p)
  end.

(** ** The data that did not change *)

(** The data of the mutation, the data that were read and the variables: the three
    dictionaries that [_strip_unmodified_dict] changes. *)
Record Stripping := mkStripping {
  st_data : list (string * json);
  st_original : list (string * json);
  st_variables : list (string * json);
}.
#[export] Instance Stripping_rebuild : Rebuild Stripping := λ s, mkStripping (st_data s) (st_original s) (st_variables s).

Definition dict_of (v : json) : list (string * json) := match v with JDict d => d | _ => [] end.
(** [original_data[item][property] = original_data[item][property]["id"]] *)
Definition flatten_property (original_item : list (string * json)) (item_key : string) : list (string * json) :=
  if decide (item_key ∈ PROPERTIES_OBJECT) then
    match dict_get original_item item_key with
    | Some (JDict d) => if truthy_json (dget d "id") then dict_set original_item item_key (dget d "id") else original_item
    | _ => original_item
    end
  else original_item.
(** One key of an entry: the entry in the original, in the data, and the variables *)
Definition strip_key (item_key : string) (s : list (string * json) * list (string * json) * list (string * json)) :
    list (string * json) * list (string * json) * list (string * json) :=
  let '(original_item, data_item, variables) := s in
  let original_item := flatten_property original_item item_key in
  match dict_get data_item item_key with
  | None => (original_item, data_item, variables)
  | Some value =>
      if bool_decide (item_key = "id") && (1 <? length data_item) then (original_item, data_item, variables) else
      let variable_key := match value with JStr (String _ key) => Some key | _ => None end in
      if py_eq (dget original_item item_key) value then (original_item, dict_del data_item item_key, variables)
      else match variable_key with
           | Some (String c k) =>
               match dict_get variables (String c k) with
               | Some v => if py_eq (dget original_item item_key) v
                           then (original_item, dict_del data_item item_key, dict_del variables (String c k))
                           else (original_item, data_item, variables)
               | None => (original_item, data_item, variables)
               end
           | _ => (original_item, data_item, variables)
           end
  end.
Definition strip_unmodified_dict (item : string) : Exec Stripping unit :=
  s ← get_state;
  _ ← (match dict_get (st_original s) item, dict_get (st_data s) item with
       | Some (JDict original_item), Some (JDict data_item) =>
           let '(original_item, data_item, variables) :=
             foldl (λ s item_key, strip_key item_key s) (original_item, data_item, st_variables s) (dict_keys original_item) in
           modify (λ s, mkStripping (dict_set (st_data s) item (JDict data_item)) (dict_set (st_original s) item (JDict original_item)) variables)
       | _, _ => mret tt
       end);
  s ← get_state;
  (* [if not data_item and data_item != []: data.pop(item)] *)
  let data_item := dget (st_data s) item in
  if truthy_json data_item || bool_decide (data_item = JList []) then mret tt else
  if dict_mem (st_data s) item then modify (λ s, s <| st_data := dict_del (st_data s) item |>) else raise (KeyError item).

(** [relationship_data_cardinality_one]: a shallow copy where the item is its node; its
    changes are those of the node of the original. *)
Definition strip_node (item : string) : Exec Stripping unit :=
  λ s, let original_item := dict_of (dget (st_original s) item) in
       let '(r, s') := strip_unmodified_dict item (s <| st_original := dict_set (st_original s) item (dget original_item "node") |>) in
       (r, s' <| st_original := dict_set (st_original s) item (JDict (dict_set original_item "node" (dget (st_original s') item))) |>).

Definition strip_item (n : SdkNode) (item : string) : Exec Stripping unit :=
  s ← get_state;
  match dict_get (st_data s) item with
  | None => mret tt
  | Some data_item =>
      if py_eq data_item (dget (st_original s) item) then modify (λ s, s <| st_data := dict_del (st_data s) item |>) else
      match dget (st_original s) item with
      | JDict _ =>
          _ ← strip_unmodified_dict item;
          s ← get_state;
          if bool_decide (item ∈ relationship_names (nd_schema n)) && truthy_json (data_get (dget (st_original s) item) "node")
          then _ ← strip_node item; strip_node item else mret tt
      | _ => mret tt
      end
  end.
(** A relationship that was not changed is left out. *)
Definition strip_relationship (n : SdkNode) (name : string) : Exec Stripping unit :=
  s ← get_state;
  match dict_get (nd_relationships n) name with
  | None => raise (AttributeError name)
  | Some (ROne None) => mret tt
  | Some rel =>
      if negb (dict_mem (st_data s) name) then mret tt else
      let unchanged := match rel with
                       | ROne (Some r) => negb (related_initialized r)
                       | ROne None => false
                       | RMany m => negb (rm_initialized m) || negb (rm_has_update m)
                       end in
      if unchanged then modify (λ s, s <| st_data := dict_del (st_data s) name |>) else mret tt
  end.
Definition strip_unmodified (n : SdkNode) : Exec Stripping unit :=
  _ ← for_each (strip_relationship n) (relationship_names (nd_schema n));
  s ← get_state;
  for_each (strip_item n) (dict_keys (st_original s)).

(** ** Mutations *)

(** What [_generate_input_data] returns, and the data of the node after it. *)
Record InputData := mkInputData {
  in_data : list (string * json);
  in_variables : list (string * json);
  in_mutation_variables : list (string * PyType);
  in_node : SdkNode;
}.
Definition RECURSION_LIMIT : nat := 1000.

Definition all_input (n : SdkNode) : Exec Client Payload :=
  p ← fold_exec (λ p name, add_attribute n name p) ([], []) (attribute_names (nd_schema n));
  fold_exec (λ p name, add_relationship n name p) p (relationship_names (nd_schema n)).
Definition generate_input_data (exclude_unmodified exclude_hfid : bool) (n : SdkNode) : Exec Client InputData :=
  '(data, variables) ← all_input n;
  '(data, variables, n) ← (if exclude_unmodified then
      let '(r, s) := strip_unmodified n (mkStripping data (dict_of (nd_data n)) variables) in
      _ ← lift r;
      mret (st_data s, st_variables s, n <| nd_data := match nd_data n with JDict _ => JDict (st_original s) | v => v end |>)
    else mret (data, variables, n));
  let mutation_variables := (λ kv, (kv.1, py_type kv.2)) <$> variables in
  data ← match nd_id n with
         | JNull =>
             hfid ← get_human_friendly_id RECURSION_LIMIT n;
             match hfid with
             | Some _ =>
                 if exclude_hfid then mret data else
                 (* [self.hfid] is read again, after the store was *)
                 hfid ← get_human_friendly_id RECURSION_LIMIT n;
                 mret (dict_set data "hfid" (match hfid with Some l => JList (JStr <$> l) | None => JNull end))
             | None => mret data
             end
         | id => mret (dict_set data "id" id)
         end;
  mret (mkInputData data variables mutation_variables n).

Definition generate_mutation_query (n : SdkNode) : list (string * json) :=
  [("ok", JNull);
   ("object", JDict (foldl (λ d name, match dict_get (nd_relationships n) name with
                                      | Some (ROne (Some r)) => dict_update d (related_mutation_query r)
                                      | _ => d end) [("id", JNull)] (relationship_names (nd_schema n))))].

(** A request: its text, its variables and its tracker *)
Record Request := mkRequest { rq_query : string; rq_variables : list (string * json); rq_tracker : string }.
Definition tracker (n : SdkNode) (action : string) : string := "mutation-" +:+ py_lower (kind (nd_schema n)) +:+ "-" +:+ action.
Definition mutation_of (n : SdkNode) (action : string) (input : InputData) : Mutation :=
  mkMutation (mkGraphQLQuery (generate_mutation_query n) (Some (in_mutation_variables input)) "")
    (kind (nd_schema n) +:+ action) [("data", JDict (in_data input))].

(** The requests that [create], [update] and [delete] send, with the node as they leave it
    before the answer. *)
Definition create_request (allow_upsert : bool) (n : SdkNode) : Exec Client (Request * SdkNode) :=
  input ← generate_input_data false true n;
  text ← lift (render_mutation (mutation_of n (if allow_upsert then "Upsert" else "Create") input));
  mret (mkRequest text (in_variables input) (tracker n (if allow_upsert then "upsert" else "create")), in_node input).
Definition update_request (do_full_update : bool) (n : SdkNode) : Exec Client (Request * SdkNode) :=
  input ← generate_input_data (negb do_full_update) false n;
  text ← lift (render_mutation (mutation_of n "Update" input));
  mret (mkRequest text (in_variables input) (tracker n "update"), in_node input).
Definition delete_request (n : SdkNode) : Exec Client Request :=
  text ← lift (render_mutation (mkMutation (mkGraphQLQuery [("ok", JNull)] None "") (kind (nd_schema n) +:+ "Delete")
                                 [("data", JDict [("id", nd_id n)])]));
  mret (mkRequest text [] (tracker n "delete")).
Definition save_request (allow_upsert : bool) (n : SdkNode) : Exec Client (Request * SdkNode) :=
  if negb (nd_existing n) || allow_upsert then create_request allow_upsert n else update_request false n.

(** [_relationship_mutation] *)
Definition relationship_mutation (action relation_to_update : string) (related_nodes : list string) (n : SdkNode) : string :=
  let line k s := indent k +:+ s +:+ newline in
  let related_node_str := (λ node, "{ id: " +:+ quote +:+ node +:+ quote +:+ " }") <$> related_nodes in
  newline +:+ line 8 "mutation {" +:+ line 12 ("Relationship" +:+ action +:+ "(") +:+ line 16 "data: {" +:+
  line 20 ("id: " +:+ quote +:+ py_str (nd_id n) +:+ quote +:+ ",") +:+
  line 20 ("name: " +:+ quote +:+ relation_to_update +:+ quote +:+ ",") +:+
  line 20 ("nodes: [" +:+ py_join ", " related_node_str +:+ "]") +:+
  line 16 "}" +:+ line 12 ") {" +:+ line 16 "ok" +:+ line 12 "}" +:+ line 8 "}" +:+ indent 8.
End client.

(** [_strip_alias] *)
Definition strip_alias (data : list (string * json)) : result (list (string * json)) :=
  let clean d := foldl (λ clean kv, dict_set clean (if str_contains "__alias__" kv.1 then List.last (py_split "__" kv.1) "" else kv.1) kv.2) [] d in
  match dict_get data "node" with
  | Some (JDict node) => Ok (dict_set (dict_del data "node") "node" (JDict (clean node)))
  | Some _ => Err (AttributeError "items")
  | None => Ok (clean data)
  end.

(** A node of the tests of the SDK: what its update sends. *)
Example update_example :
  let attr name := attribute_schema name "Text" in
  let schema := mkBaseNodeSchema (NodeSchema [] None None None) None PRESENT "Location" None "Builtin" None
    [attr "name"; attr "description"; attr "type"] [relationship_schema "tags" "BuiltinTag"] [] in
  let data := JDict [("node", JDict [("__typename", JStr "BuiltinLocation"); ("id", JStr "llll"); ("display_label", JStr "dfw1");
    ("name", JDict [("value", JStr "DFW"); ("is_protected", JBool true); ("source", JDict [("id", JStr "cccc")])]);
    ("description", JDict [("value", JNull)]); ("type", JDict [("value", JStr "SITE")]);
    ("tags", JDict [("edges", JList [JDict [("node", JDict [("id", JStr "bbbb")])]])])])] in
  let nodes _ := mkSdkNode schema JNull "main" false JNull JNull JNull [] [] in
  let run (change : SdkNode → SdkNode) :=
    n ← node_init schema "main" data;
    input ← (generate_input_data nodes (λ _, "0") "" true false (change n) (mkClient new_store 0)).1;
    Ok (in_data input, in_variables input) in
  let set_value name v n :=
    n <| nd_attributes := match dict_get (nd_attributes n) name with
                          | Some a => dict_set (nd_attributes n) name (a <| at_value := SVal v |>) | None => nd_attributes n end |> in
  run id = Ok ([("tags", JList [JDict [("id", JStr "bbbb")]]); ("id", JStr "llll")], []) ∧
  run (set_value "name" (JStr "two 'words'")) =
    Ok ([("name", JDict [("value", JStr "$value_0")]); ("tags", JList [JDict [("id", JStr "bbbb")]]); ("id", JStr "llll")],
        [("value_0", JStr "two 'words'")]) ∧
  run (set_value "type" JNull) = run id.
Proof. by vm_compute. Qed.
