(* ===== verification/SdkNodeFacts.v ===== *)
(** * Theorems about the nodes of the SDK

    The managers of relationships hold a set of ids; an update sends what differs from the
    data that were read; and what the server reads in a mutation is what the object holds. *)

From stdpp Require Import prelude strings pretty.
From Stdlib Require Import Ascii.
From S2P Require Import Prelude PyString PyDict SdkUtils HashModel IpNetwork IpText SdkSchema SdkStore SdkGraphql SdkGraphqlFacts SdkNode.

#[local] Open Scope nat_scope.

Lemma filter_all {A} (P : A → Prop) `{∀ x, Decision (P x)} (l : list A) : (∀ x, x ∈ l → P x) → filter P l = l.
Proof.
  induction l as [|y l IH]; intros HP; [done|]. rewrite filter_cons, decide_True by (apply HP; left).
  rewrite IH; [done|]. intros x Hx. apply HP. by right.
Qed.

(** ** The managers of relationships *)

Section manager.
Context (nodes : nat → SdkNode).
Implicit Types (m : RelationshipManager) (r : RelatedNode).

(** A related node with an id, which is a text *)
Definition id_text r : string := match related_id nodes r with JStr s => s | _ => "" end.
Definition has_id r : Prop := related_id nodes r = JStr (id_text r) ∧ id_text r ≠ "".
(** The data [d] are those of a node of id [x]. *)
Definition data_id (schema : RelationshipSchema) (d : RelData) (x : string) : Prop :=
  ∃ r, related_node schema None d = Ok r ∧ related_id nodes r = JStr x ∧ x ≠ "".
Definition ids m : list string := id_text <$> rm_peers m.
Definition manager_ok m : Prop := rm_initialized m = true ∧ Forall has_id (rm_peers m) ∧ NoDup (ids m).

Lemma truthy_text x : x ≠ "" → truthy_json (JStr x) = true.
Proof. intros Hx. cbn. by rewrite bool_decide_eq_false_2. Qed.
Lemma peer_ids_ok m : Forall has_id (rm_peers m) → peer_ids nodes m = JStr <$> ids m.
Proof.
  unfold peer_ids, ids. induction 1 as [|r l [Hr Hne] _ IH]; [done|]. rewrite !fmap_cons, filter_cons, Hr.
  rewrite decide_True by by apply truthy_text. by rewrite IH.
Qed.
Lemma id_in_text x l : id_in (JStr x) (JStr <$> l) = bool_decide (x ∈ l).
Proof.
  unfold id_in. induction l as [|y l IH]; [done|]. rewrite fmap_cons. cbn [existsb]. rewrite IH. cbn.
  apply eq_true_iff_eq. rewrite orb_true_iff, !bool_decide_eq_true, elem_of_cons. naive_solver.
Qed.

Lemma manager_add_run d x m : manager_ok m → data_id (rm_schema m) d x →
  ∃ r, id_text r = x ∧ has_id r ∧
    manager_add nodes d m =
      (Ok tt, if bool_decide (x ∈ ids m) then m else m <| rm_peers := rm_peers m ++ [r] |> <| rm_has_update := true |>).
Proof.
  intros (Hi & Hids & _) (r & Hr & Hid & Hne). exists r. unfold id_text, has_id, id_text. rewrite Hid. split_and!; [done..|].
  unfold manager_add, check_initialized. erewrite exec_step by (unfold mbind, exec_bind; cbn; rewrite Hi; done).
  erewrite exec_step by reflexivity. rewrite Hr. erewrite exec_step by reflexivity.
  rewrite Hid, truthy_text, peer_ids_ok, id_in_text by done. by destruct (bool_decide (x ∈ ids m)).
Qed.

Lemma list_find_text x l : list_find (λ y, py_eq (JStr x) y = true) (JStr <$> l) = prod_map id JStr <$> list_find (λ y, y = x) l.
Proof.
  induction l as [|y l IH]; [done|]. rewrite fmap_cons. cbn. destruct (decide (y = x)) as [->|Hne].
  - rewrite bool_decide_eq_true_2 by done. by rewrite decide_True.
  - rewrite bool_decide_eq_false_2 by done. rewrite decide_False by done. cbn in IH. rewrite IH.
    by destruct (list_find (λ y, y = x) l) as [[]|].
Qed.
Lemma manager_remove_run d x m : manager_ok m → data_id (rm_schema m) d x →
  manager_remove nodes d m =
    (Ok tt, match list_find (λ y, y = x) (ids m) with
            | None => m
            | Some (idx, _) => m <| rm_peers := delete idx (rm_peers m) |> <| rm_has_update := true |> end).
Proof.
  intros (Hi & Hids & _) (r & Hr & Hid & Hne). unfold manager_remove, check_initialized.
  erewrite exec_step by (unfold mbind, exec_bind; cbn; rewrite Hi; done).
  erewrite exec_step by reflexivity. rewrite Hr. erewrite exec_step by reflexivity.
  rewrite Hid, truthy_text, peer_ids_ok, list_find_text by done.
  destruct (list_find (λ y, y = x) (ids m)) as [[idx y]|] eqn:Hf; [|done]. cbn.
  apply list_find_Some in Hf as (Hy & -> & _). unfold ids in Hy. rewrite list_lookup_fmap in Hy.
  destruct (rm_peers m !! idx) as [peer|] eqn:Hp; [|done]. cbn in Hy. injection Hy as Hy.
  eapply Forall_lookup in Hids as [Hpid _]; [|done]. rewrite Hpid, Hy. cbn. by rewrite bool_decide_eq_true_2.
Qed.

(** The calls on a manager, and what they do to its ids: the abstract specification is a list
    of distinct ids with a flag. *)
Inductive manager_call := CAdd (d : RelData) | CExtend (l : list RelData) | CRemove (d : RelData).
Definition run_call (c : manager_call) : Exec RelationshipManager unit :=
  match c with CAdd d => manager_add nodes d | CExtend l => manager_extend nodes l | CRemove d => manager_remove nodes d end.
Inductive id_op := IAdd (x : string) | IRemove (x : string).
Definition id_step (s : list string * bool) (o : id_op) : list string * bool :=
  match o with
  | IAdd x => if decide (x ∈ s.1) then s else (s.1 ++ [x], true)
  | IRemove x => if decide (x ∈ s.1) then (filter (.≠ x) s.1, true) else s
  end.
Inductive call_means (schema : RelationshipSchema) : manager_call → list id_op → Prop :=
  | add_means d x : data_id schema d x → call_means schema (CAdd d) [IAdd x]
  | extend_means l xs : Forall2 (data_id schema) l xs → call_means schema (CExtend l) (IAdd <$> xs)
  | remove_means d x : data_id schema d x → call_means schema (CRemove d) [IRemove x].

Lemma fmap_delete {A B} (f : A → B) (l : list A) (i : nat) : f <$> delete i l = delete i (f <$> l).
Proof. revert i. induction l as [|y l IH]; intros [|i]; try done. cbn. by rewrite <-IH. Qed.
Lemma delete_filter (l : list string) i x : NoDup l → l !! i = Some x → delete i l = filter (.≠ x) l.
Proof.
  revert i. induction l as [|y l IH]; intros i Hnd Hi; [done|]. apply NoDup_cons in Hnd as [Hy Hnd]. rewrite filter_cons.
  destruct i as [|i]; cbn in *.
  - injection Hi as ->. rewrite decide_False by naive_solver. symmetry. apply filter_all. by intros z Hz ->.
  - rewrite decide_True; [by apply (f_equal (cons y)), IH|]. intros ->. apply Hy. by eapply list_elem_of_lookup_2.
Qed.

(** The states of the manager and of its specification *)
Definition simulates m (s : list string * bool) : Prop := manager_ok m ∧ (ids m, rm_has_update m) = s.
Lemma add_simulates m s d x : simulates m s → data_id (rm_schema m) d x →
  ∃ m', manager_add nodes d m = (Ok tt, m') ∧ rm_schema m' = rm_schema m ∧ simulates m' (id_step s (IAdd x)).
Proof.
  intros [Hm <-] Hd. destruct (manager_add_run d x m Hm Hd) as (r & Hr & Hhas & Hrun). eexists. split; [exact Hrun|].
  cbn. destruct (decide (x ∈ ids m)) as [Hin|Hin].
  - rewrite bool_decide_eq_true_2 by done. done.
  - rewrite bool_decide_eq_false_2 by done. split; [done|]. destruct Hm as (Hi & Hall & Hnd).
    assert (ids (m <| rm_peers := rm_peers m ++ [r] |> <| rm_has_update := true |>) = ids m ++ [x]) as Hids
      by (unfold ids; cbn; by rewrite fmap_app; cbn; rewrite Hr).
    split; [|by rewrite Hids]. split; [done|]. split; [by apply Forall_app; split; [|constructor]|].
    rewrite Hids. apply NoDup_app. split_and!; [done| |apply NoDup_singleton]. by intros y Hy ->%list_elem_of_singleton.
Qed.
Lemma remove_simulates m s d x : simulates m s → data_id (rm_schema m) d x →
  ∃ m', manager_remove nodes d m = (Ok tt, m') ∧ rm_schema m' = rm_schema m ∧ simulates m' (id_step s (IRemove x)).
Proof.
  intros [Hm <-] Hd. eexists. split; [by apply manager_remove_run|]. cbn.
  destruct (list_find (λ y, y = x) (ids m)) as [[idx y]|] eqn:Hf.
  - apply list_find_Some in Hf as (Hy & -> & _). split; [done|]. rewrite decide_True by by eapply list_elem_of_lookup_2.
    destruct Hm as (Hi & Hall & Hnd).
    assert (ids (m <| rm_peers := delete idx (rm_peers m) |> <| rm_has_update := true |>) = filter (.≠ x) (ids m)) as Hids
      by (unfold ids; cbn; rewrite <-(delete_filter _ idx x) by done; apply fmap_delete).
    split; [|by rewrite Hids]. split; [done|]. split; [by apply Forall_delete|]. rewrite Hids. by apply NoDup_filter.
  - apply list_find_None in Hf. rewrite decide_False; [done|]. intros Hin. rewrite Forall_forall in Hf. by apply (Hf x).
Qed.
Lemma extend_simulates l xs : ∀ m s, simulates m s → Forall2 (data_id (rm_schema m)) l xs →
  ∃ m', manager_extend nodes l m = (Ok tt, m') ∧ rm_schema m' = rm_schema m ∧ simulates m' (foldl id_step s (IAdd <$> xs)).
Proof.
  revert xs. induction l as [|d l IH]; intros xs m s Hm Hl; inv Hl; [by eexists|].
  destruct (add_simulates m s d y) as (m1 & Hrun & Hs1 & Hm1); [done..|].
  destruct (IH l' m1 _ Hm1) as (m' & Hrun' & Hs' & Hm'); [by rewrite Hs1|]. exists m'. split_and!; [|congruence|done].
  unfold manager_extend in *. cbn [for_each]. by erewrite exec_step by exact Hrun.
Qed.
Lemma call_simulates m s c ops : simulates m s → call_means (rm_schema m) c ops →
  ∃ m', run_call c m = (Ok tt, m') ∧ rm_schema m' = rm_schema m ∧ simulates m' (foldl id_step s ops).
Proof. intros Hm Hc. inv Hc; [by apply add_simulates|by apply extend_simulates|by apply remove_simulates]. Qed.
End manager.

(** C21: Whatever calls are made on the manager of a relationship that was read, with data that
    identify a node, they all return, its ids stay distinct, they are those of a list where
    [add] appends an id that is not there and [remove] takes one away, and [has_update] is
    set exactly when one of the calls changed it (or it was before). *)
Theorem manager_refines (nodes : nat → SdkNode) (m : RelationshipManager) (calls : list manager_call) (ops : list (list id_op))
    (Hm : manager_ok nodes m) (Hcalls : Forall2 (call_means nodes (rm_schema m)) calls ops) :
  ∃ m', for_each (run_call nodes) calls m = (Ok tt, m') ∧ manager_ok nodes m' ∧
    (ids nodes m', rm_has_update m') = foldl id_step (ids nodes m, rm_has_update m) (concat ops).
Proof.
  enough (∃ m', for_each (run_call nodes) calls m = (Ok tt, m') ∧ simulates nodes m' (foldl id_step (ids nodes m, rm_has_update m) (concat ops)))
    as (m' & Hrun & Hok & Hs) by (by exists m').
  assert (simulates nodes m (ids nodes m, rm_has_update m)) as Hsim by done. revert Hsim. clear Hm.
  generalize (ids nodes m, rm_has_update m) as s. revert m ops Hcalls.
  induction calls as [|c calls IH]; intros m ops Hcalls s Hsim; inv Hcalls; [by exists m|].
  destruct (call_simulates nodes m s c y) as (m1 & Hrun & Hs1 & Hm1); [done..|].
  destruct (IH m1 l' ltac:(by rewrite Hs1) _ Hm1) as (m' & Hrun' & Hm'). exists m'. split.
  - cbn [for_each]. by erewrite exec_step by exact Hrun.
  - cbn [concat]. by rewrite foldl_app.
Qed.

#[local] Abbreviation demo_rel := (relationship_schema "tags" "BuiltinTag").
#[local] Abbreviation no_node := (mkSdkNode (mkBaseNodeSchema (GenericSchema []) None PRESENT "" None "" None [] [] []) JNull "main" false JNull JNull JNull [] []).
#[local] Abbreviation demo_peer x := (mkRelatedNode demo_rel None None (JStr x) JNull JNull ((λ prop, (prop, JNull)) <$> PROPERTIES)).
#[local] Abbreviation demo_manager := (mkRelationshipManager true false "tags" demo_rel [demo_peer "a"; demo_peer "b"]).
Lemma manager_refines_witness :
  let calls := [CAdd (RData (JStr "c")); CRemove (RData (JDict [("id", JStr "a")])); CExtend [RData (JStr "b"); RData (JStr "d")]] in
  let ops := [[IAdd "c"]; [IRemove "a"]; [IAdd "b"; IAdd "d"]] in
  (manager_ok (λ _, no_node) demo_manager ∧ Forall2 (call_means (λ _, no_node) demo_rel) calls ops) ∧
  ∃ m', for_each (run_call (λ _, no_node)) calls demo_manager = (Ok tt, m') ∧ manager_ok (λ _, no_node) m' ∧
    (ids (λ _, no_node) m', rm_has_update m') = (["b"; "c"; "d"], true).
Proof.
  intros calls ops. assert (manager_ok (λ _, no_node) demo_manager) as Hm.
  { split_and!; [done| |apply (bool_decide_unpack _); by vm_compute]. by repeat constructor. }
  assert (∀ v x, x ≠ "" → (∃ r, related_node demo_rel None (RData v) = Ok r ∧ related_id (λ _, no_node) r = JStr x) →
    data_id (λ _, no_node) demo_rel (RData v) x) as Hdata by (intros v x Hx (r & ? & ?); by exists r).
  assert (Forall2 (call_means (λ _, no_node) demo_rel) calls ops) as Hcalls.
  { constructor; [constructor; apply Hdata; [done|by eexists]|]. constructor; [constructor; apply Hdata; [done|by eexists]|].
    constructor; [|constructor]. apply (extend_means _ _ _ ["b"; "d"]).
    constructor; [apply Hdata; [done|by eexists]|]. constructor; [apply Hdata; [done|by eexists]|constructor]. }
  split; [done|]. exact (manager_refines (λ _, no_node) demo_manager calls ops Hm Hcalls).
Defined.

(** A peer that is not saved yet has no id and is not counted in [peer_ids]: the index that
    [remove] finds is not that of the peer it removes, and it raises. *)
Theorem remove_after_unsaved :
  let nodes (k : nat) := if decide (k = 0) then no_node <| nd_id := JNull |> else no_node in
  let unsaved := mkRelatedNode demo_rel None (Some 0) JNull JNull JNull [] in
  let m := demo_manager <| rm_peers := [unsaved; demo_peer "a"] |> in
  manager_remove nodes (RData (JStr "a")) m = (Err IndexError, m).
Proof. by vm_compute. Qed.

(** A flag that is false is lost: a relationship cannot be made invisible when it is created. *)
Theorem false_property_lost r :
  related_node demo_rel None (RData (JDict [("id", JStr "a"); ("_relation__is_visible", JBool false); ("_relation__is_protected", JBool true)])) = Ok r →
  related_input (λ _, no_node) r = JDict [("id", JStr "a"); ("_relation__is_protected", JBool true)].
Proof. intros [= <-]. by vm_compute. Qed.

(** ** Stripping the data that did not change *)

(** The value of the original that a key of the data is compared with: what was read, and
    the id of the owner or of the source, where an object with an id was read *)
Definition original_value (original_item : list (string * json)) (key : string) : json :=
  let v := default JNull (dict_get original_item key) in
  match v with
  | JDict d => if bool_decide (key = "source" ∨ key = "owner")
               then match dict_get d "id" with
                    | Some id => if truthy_json id then id else v
                    | None => v
                    end
               else v
  | _ => v
  end.
(** The variable that a value can be *)
Definition variable_of (v : json) : option string := match v with JStr (String _ (String c k)) => Some (String c k) | _ => None end.
Definition same_value (variables : list (string * json)) (o v : json) : bool :=
  py_eq o v || match variable_of v with
               | Some x => match dict_get variables x with Some w => py_eq o w | None => false end
               | None => false
               end.
(** A key of the data that was read with the same value *)
Definition unchanged (original_item variables : list (string * json)) (kv : string * json) : bool :=
  bool_decide (kv.1 ∈ dict_keys original_item) && same_value variables (original_value original_item kv.1) kv.2.

Lemma flatten_original_value original_item key : dget (flatten_property original_item key) key = original_value original_item key.
Proof.
  unfold original_value, flatten_property, dget. destruct (dict_get original_item key) as [v|] eqn:Ho; cbn [default from_option id]; [|by case_decide; rewrite Ho].
  case_decide as Hkey; unfold PROPERTIES_OBJECT in Hkey; rewrite !elem_of_cons, elem_of_nil in Hkey.
  - destruct v as [| | | | |d]; try by rewrite Ho. rewrite bool_decide_eq_true_2 by naive_solver. destruct (dict_get d "id") as [i|]; cbn [default from_option id]; [|cbn; by rewrite Ho].
    destruct (truthy_json i); [by rewrite dict_get_set_eq|by rewrite Ho].
  - rewrite Ho. destruct v; try done. by rewrite bool_decide_eq_false_2 by naive_solver.
Qed.
Lemma dget_flatten_ne original_item key key' : key ≠ key' → dget (flatten_property original_item key) key' = dget original_item key'.
Proof.
  intros Hne. unfold flatten_property, dget. case_decide; [|done]. destruct (dict_get original_item key) as [[]|]; try done.
  destruct (truthy_json _); [|done]. by rewrite dict_get_set_ne.
Qed.
Lemma flatten_flatten_ne original_item key key' : key ≠ key' →
  original_value (flatten_property original_item key) key' = original_value original_item key'.
Proof.
  intros Hne. rewrite <-!flatten_original_value.
  assert (dict_get (flatten_property original_item key) key' = dict_get original_item key') as Hget.
  { unfold flatten_property. case_decide; [|done]. destruct (dict_get original_item key) as [[]|]; try done.
    destruct (truthy_json _); [|done]. by rewrite dict_get_set_ne. }
  unfold flatten_property at 1 3. rewrite Hget. case_decide; [|unfold dget; by rewrite Hget].
  unfold dget. destruct (dict_get original_item key') as [[]|] eqn:Ho; rewrite ?Hget, ?Ho; try done.
  destruct (truthy_json _); [by rewrite !dict_get_set_eq|by rewrite Hget, Ho].
Qed.

(** A variable that is no longer used: the value of the variable was read. *)
Definition dropped (ks : list string) (original_item d variables : list (string * json)) (x : string) : bool :=
  existsb (λ kv, bool_decide (kv.1 ∈ ks ∧ variable_of kv.2 = Some x) && negb (py_eq (original_value original_item kv.1) kv.2) &&
                 same_value variables (original_value original_item kv.1) kv.2) d.
(** Each variable is that of one entry. *)
Definition one_mention (d variables : list (string * json)) : Prop :=
  ∀ x kv kv', dict_mem variables x = true → kv ∈ d → kv' ∈ d → variable_of kv.2 = Some x → variable_of kv'.2 = Some x → kv.1 = kv'.1.

Lemma dict_get_kept (P : string → json → Prop) `{∀ kv, Decision (P kv.1 kv.2)} (d : list (string * json)) k :
  NoDup (dict_keys d) → dict_get (filter (λ kv, P kv.1 kv.2) d) k =
    match dict_get d k with Some v => if decide (P (k, v).1 (k, v).2) then Some v else None | None => None end.
Proof.
  induction d as [|[k' v] d IH]; [done|]. intros [Hk Hd]%NoDup_cons. rewrite filter_cons. cbn [dict_get]. specialize (IH Hd).
  destruct (decide (k = k')) as [->|Hne].
  - destruct (decide (P (k', v).1 (k', v).2)); [cbn; by rewrite decide_True|].
    rewrite IH. by rewrite (proj2 (dict_get_None d k')).
  - destruct (decide (P (k', v).1 (k', v).2)); [|done]. cbn. by rewrite decide_False.
Qed.

Lemma dropped_variable ks original_item d variables x : dropped ks original_item d variables x = true →
  ∃ kv, kv ∈ d ∧ kv.1 ∈ ks ∧ variable_of kv.2 = Some x ∧ dict_mem variables x = true ∧
    py_eq (original_value original_item kv.1) kv.2 = false ∧ same_value variables (original_value original_item kv.1) kv.2 = true.
Proof.
  unfold dropped. rewrite existsb_exists. intros (kv & Hin%list_elem_of_In & Hd). rewrite !andb_true_iff, negb_true_iff, bool_decide_eq_true in Hd.
  destruct Hd as (((Hk & Hx) & Heq) & Hs). exists kv. split_and!; try done.
  unfold same_value in Hs. rewrite Heq, Hx in Hs. unfold dict_mem. by destruct (dict_get variables x).
Qed.

Lemma strip_key_variable key original_item data_item variables value : key ≠ "id" → dict_get data_item key = Some value →
  strip_key key (original_item, data_item, variables) =
    let o := original_value original_item key in
    (flatten_property original_item key,
     if same_value variables o value then dict_del data_item key else data_item,
     match variable_of value with
     | Some x => if negb (py_eq o value) && same_value variables o value then dict_del variables x else variables
     | None => variables
     end).
Proof.
  intros Hid Hv. unfold strip_key, same_value. rewrite Hv, bool_decide_eq_false_2 by done. cbn [andb].
  rewrite flatten_original_value.
  destruct (py_eq _ value); [by destruct (variable_of value)|]. cbn [orb negb andb].
  destruct value as [| | |[|c0 [|c1 rest]]| |]; try done. cbn [variable_of].
  destruct (dict_get variables (String c1 rest)); [|done]. by destruct (py_eq _ _).
Qed.

Section strip_keys.
Context (original_item d variables : list (string * json)).
Context (Hd : NoDup (dict_keys d)) (Hid : "id" ∉ dict_keys d) (Hone : one_mention d variables).

Definition kept (ks : list string) (kv : string * json) : Prop :=
  ¬ (kv.1 ∈ ks ∧ same_value variables (original_value original_item kv.1) kv.2 = true).
#[local] Instance kept_dec ks kv : Decision (kept ks kv).
Proof. unfold kept. apply _. Defined.
Definition stripped (ks : list string) (s : list (string * json) * list (string * json) * list (string * json)) : Prop :=
  (∀ k, k ∉ ks → original_value s.1.1 k = original_value original_item k) ∧
  s.1.2 = filter (λ kv, kept ks kv) d ∧
  ∀ x, dict_get s.2 x = if dropped ks original_item d variables x then None else dict_get variables x.

Lemma stripped_lookup ks s k : stripped ks s → k ∉ ks → dict_get s.1.2 k = dict_get d k.
Proof.
  intros (_ & -> & _) Hk. rewrite (dict_get_kept (λ k v, kept ks (k, v))) by done.
  destruct (dict_get d k); [|done]. rewrite decide_True; [done|]. intros [? _]. done.
Qed.
Lemma stripped_variable ks s k v x : stripped ks s → k ∉ ks → (k, v) ∈ d → variable_of v = Some x → dict_get s.2 x = dict_get variables x.
Proof.
  intros (_ & _ & ->) Hk Hv Hx. destruct (dropped _ _ _ _ _) eqn:Hdr; [|done].
  apply dropped_variable in Hdr as (kv & Hin & Hks & Hkx & Hmem & _). contradict Hk.
  assert (kv.1 = k) as <- by exact (Hone x kv (k, v) Hmem Hin Hv Hkx Hx). done.
Qed.

Lemma kept_snoc ks k : k ∉ ks → filter (λ kv, kept (ks ++ [k]) kv) d =
  match dict_get d k with
  | Some v => if same_value variables (original_value original_item k) v then dict_del (filter (λ kv, kept ks kv) d) k else filter (λ kv, kept ks kv) d
  | None => filter (λ kv, kept ks kv) d
  end.
Proof.
  intros Hk.
  assert (∀ kv, kv ∈ d → kv.1 = k → dict_get d k = Some kv.2) as Hget by (intros [k' v] Hin <-; by apply dict_get_in).
  assert (∀ kv, kv.1 ≠ k → kept (ks ++ [k]) kv ↔ kept ks kv) as Hother.
  { intros kv Hne. unfold kept. rewrite elem_of_app, list_elem_of_singleton. naive_solver. }
  assert (∀ kv, kv.1 = k → kept ks kv) as Hnew by (intros kv Heq [? _]; by rewrite Heq in *).
  destruct (dict_get d k) as [v|] eqn:Hv.
  2:{ apply list_filter_ext. intros kv Hin. apply Hother. intros Heq. by specialize (Hget _ Hin Heq). }
  destruct (same_value variables (original_value original_item k) v) eqn:Hs.
  - unfold dict_del. rewrite list_filter_filter. apply list_filter_ext. intros kv Hin. destruct (decide (kv.1 = k)) as [Heq|Hne].
    + specialize (Hget _ Hin Heq) as [= Hkv]. split; [|naive_solver]. intros []. rewrite Heq, <-Hkv. split; [set_solver|done].
    + rewrite Hother by done. naive_solver.
  - apply list_filter_ext. intros kv Hin. destruct (decide (kv.1 = k)) as [Heq|Hne]; [|by apply Hother].
    specialize (Hget _ Hin Heq) as [= Hkv]. split; [by intros _; apply Hnew|]. intros _ [_ Hsv]. rewrite Heq, <-Hkv in Hsv. congruence.
Qed.
Lemma dropped_snoc ks k x : k ∉ ks → dropped (ks ++ [k]) original_item d variables x =
  dropped ks original_item d variables x ||
  match dict_get d k with
  | Some v => bool_decide (variable_of v = Some x) && negb (py_eq (original_value original_item k) v) &&
              same_value variables (original_value original_item k) v
  | None => false
  end.
Proof.
  intros Hk. apply eq_true_iff_eq. rewrite orb_true_iff. unfold dropped. rewrite !existsb_exists. setoid_rewrite <-list_elem_of_In. split.
  - intros ([k' v] & Hin & Hkv). cbn [fst snd] in Hkv. rewrite !andb_true_iff, bool_decide_eq_true, elem_of_app, list_elem_of_singleton in Hkv.
    destruct Hkv as ((([Hks| ->] & Hx) & Heq) & Hs).
    + left. exists (k', v). split; [done|]. cbn. rewrite Heq, Hs, bool_decide_eq_true_2; done.
    + right. rewrite (dict_get_in _ _ _ Hd Hin), Heq, Hs, bool_decide_eq_true_2; done.
  - intros [([k' v] & Hin & Hkv)|Hv].
    + exists (k', v). split; [done|]. cbn [fst snd] in *. rewrite !andb_true_iff, bool_decide_eq_true in *. set_solver.
    + destruct (dict_get d k) as [v|] eqn:Hv'; [|done]. exists (k, v). split; [by apply dict_get_Some_in|]. cbn [fst snd].
      rewrite !andb_true_iff, bool_decide_eq_true in *. set_solver.
Qed.

Lemma strip_key_stripped ks k s : k ∉ ks → stripped ks s → stripped (ks ++ [k]) (strip_key k s).
Proof.
  intros Hk Hs. pose proof (stripped_lookup ks s k Hs Hk) as Hget. pose proof (stripped_variable ks s k) as Hvar.
  pose proof Hs as (Horig & Hfilter & Hvars). destruct s as [[oa1 d1] v1]. cbn [fst snd] in *.
  assert (∀ k', k' ∉ ks ++ [k] → original_value (flatten_property oa1 k) k' = original_value original_item k') as Hothers.
  { intros k' [Hk' Hne]%not_elem_of_app. rewrite flatten_flatten_ne by set_solver. by apply Horig. }
  destruct (dict_get d k) as [v|] eqn:Hv.
  2:{ unfold strip_key. rewrite Hget. split_and!; [done| |]; cbn [fst snd].
      - by rewrite kept_snoc, Hv.
      - intros x. rewrite dropped_snoc, Hv, orb_false_r by done. apply Hvars. }
  assert (k ≠ "id") as Hne by (intros ->; apply Hid; apply dict_get_is_Some; by eexists).
  apply dict_get_Some_in in Hv as Hin.
  assert (same_value v1 (original_value original_item k) v = same_value variables (original_value original_item k) v) as Hsame.
  { unfold same_value. destruct (variable_of v) as [x|] eqn:Hx; [|done]. by rewrite (Hvar v x). }
  rewrite (strip_key_variable _ _ _ _ v) by done. cbn zeta. rewrite (Horig k), Hsame by done.
  split_and!; [done| |]; cbn [fst snd].
  - rewrite kept_snoc, Hv by done. by rewrite Hfilter.
  - intros x. rewrite dropped_snoc, Hv by done. destruct (variable_of v) as [y|] eqn:Hy.
    + destruct (decide (y = x)) as [->|Hyx].
      * rewrite bool_decide_eq_true_2 by done. cbn [andb]. destruct (negb _ && _) eqn:Hdrop.
        -- rewrite dict_get_del, decide_True by done. by rewrite orb_true_r.
        -- rewrite orb_false_r. apply Hvars.
      * rewrite bool_decide_eq_false_2 by naive_solver. cbn [andb]. rewrite orb_false_r.
        destruct (negb _ && _); [rewrite dict_get_del, decide_False by done|]; apply Hvars.
    + rewrite bool_decide_eq_false_2 by done. cbn [andb]. rewrite orb_false_r. apply Hvars.
Qed.
Lemma strip_keys_stripped ks : NoDup ks → stripped ks (foldl (λ s key, strip_key key s) (original_item, d, variables) ks).
Proof.
  induction ks as [|k ks IH] using rev_ind; intros Hnd.
  - split_and!; [done| |].
    + symmetry. apply filter_all. intros kv _. by intros [[]%elem_of_nil _].
    + intros x. cbn. unfold dropped. destruct (existsb _ d) eqn:He; [|done]. apply existsb_exists in He as (kv & _ & Hkv).
      rewrite !andb_true_iff, bool_decide_eq_true in Hkv. destruct Hkv as [[[[]%elem_of_nil _] _] _].
  - apply NoDup_app in Hnd as (Hnd & Hdis & _). rewrite foldl_snoc. apply strip_key_stripped; [|by apply IH].
    intros Hin. by apply (Hdis k Hin), list_elem_of_singleton.
Qed.
End strip_keys.

(** What is left of an entry of the data, given the entry that was read. *)
Definition left_over (original_item d variables : list (string * json)) : option json :=
  match filter (λ kv, unchanged original_item variables kv = false) d with [] => None | l => Some (JDict l) end.

(** The state after an entry was stripped: the entry itself, the other ones, and the
    variables that only it used. *)
Record item_stripped (item : string) (original_item d : list (string * json)) (s s' : Stripping) : Prop := {
  is_item : dict_get (st_data s') item = left_over original_item d (st_variables s);
  is_other : ∀ other, other ≠ item → dict_get (st_data s') other = dict_get (st_data s) other;
  is_original : ∀ other, other ≠ item → dict_get (st_original s') other = dict_get (st_original s) other;
  is_variables : ∀ x, dict_get (st_variables s') x =
    if dropped (dict_keys original_item) original_item d (st_variables s) x then None else dict_get (st_variables s) x;
}.

Lemma strip_unmodified_dict_spec item original_item d s :
  dict_get (st_original s) item = Some (JDict original_item) → dict_get (st_data s) item = Some (JDict d) →
  NoDup (dict_keys original_item) → NoDup (dict_keys d) → "id" ∉ dict_keys d → one_mention d (st_variables s) →
  ∃ s', strip_unmodified_dict item s = (Ok tt, s') ∧ item_stripped item original_item d s s'.
Proof.
  intros Ho Hdata Hno Hnd Hid Hone.
  pose proof (strip_keys_stripped original_item d (st_variables s) Hnd Hid Hone (dict_keys original_item) Hno) as Hst.
  unfold strip_unmodified_dict. erewrite exec_step by reflexivity. rewrite Ho, Hdata.
  destruct (foldl _ _ _) as [[oa d'] vars']. destruct Hst as (_ & Hfilter & Hvars). cbn [fst snd] in *.
  set (s1 := mkStripping (dict_set (st_data s) item (JDict d')) (dict_set (st_original s) item (JDict oa)) vars').
  assert (left_over original_item d (st_variables s) = match d' with [] => None | _ => Some (JDict d') end) as Hl.
  { assert (filter (λ kv, unchanged original_item (st_variables s) kv = false) d = d') as Hd'; [|unfold left_over; rewrite Hd'; by destruct d'].
    rewrite Hfilter. apply list_filter_ext. intros kv Hin. unfold unchanged, kept. by rewrite <-not_true_iff_false, andb_true_iff, bool_decide_eq_true. }
  erewrite exec_step by reflexivity. erewrite exec_step by reflexivity.
  assert (dget (st_data s1) item = JDict d') as Hitem by (unfold dget; cbn; by rewrite dict_get_set_eq).
  change (st_data (mkStripping _ _ _)) with (st_data s1). rewrite Hitem. unfold s1. cbn [st_data st_original st_variables].
  assert (dict_mem (dict_set (st_data s) item (JDict d')) item = true) as -> by (unfold dict_mem; by rewrite dict_get_set_eq).
  assert (∀ other, other ≠ item → dict_get (dict_set (st_data s) item (JDict d')) other = dict_get (st_data s) other) as Hother
    by (intros; by rewrite dict_get_set_ne).
  destruct d' as [|kv d']; eexists; (split; [reflexivity|]); (split; [rewrite Hl|..]; cbn).
  - by rewrite dict_get_del, decide_True.
  - intros other Hne. rewrite dict_get_del, decide_False by done. by apply Hother.
  - intros other Hne. by rewrite dict_get_set_ne.
  - exact Hvars.
  - by rewrite dict_get_set_eq.
  - exact Hother.
  - intros other Hne. by rewrite dict_get_set_ne.
  - exact Hvars.
Qed.

(** What stripping one entry does not touch: the other entries, and the variables that the
    entry does not use. *)
Definition mentions (data : list (string * json)) (item x : string) : Prop :=
  ∃ d kv, dict_get data item = Some (JDict d) ∧ kv ∈ d ∧ variable_of kv.2 = Some x.
Record frame (item : string) (s s' : Stripping) : Prop := {
  fr_data : ∀ other, other ≠ item → dict_get (st_data s') other = dict_get (st_data s) other;
  fr_original : ∀ other, other ≠ item → dict_get (st_original s') other = dict_get (st_original s) other;
  fr_item : ∀ x, mentions (st_data s') item x → mentions (st_data s) item x;
  fr_variables : ∀ x, dict_get (st_variables s') x = dict_get (st_variables s) x ∨
    dict_get (st_variables s') x = None ∧ mentions (st_data s) item x;
}.
Lemma frame_refl item s : frame item s s.
Proof. by split; auto. Qed.
Lemma frame_trans item s1 s2 s3 : frame item s1 s2 → frame item s2 s3 → frame item s1 s3.
Proof.
  intros [D1 O1 I1 V1] [D2 O2 I2 V2]. split.
  - intros other Hne. by rewrite D2, D1.
  - intros other Hne. by rewrite O2, O1.
  - intros x Hx. by apply I1, I2.
  - intros x. destruct (V2 x) as [->|[-> Hx]]; [apply V1|right; split; [done|by apply I1]].
Qed.
(** Changes of the entry alone *)
Lemma frame_change item s data original variables :
  (∀ other, other ≠ item → dict_get data other = dict_get (st_data s) other) →
  (∀ other, other ≠ item → dict_get original other = dict_get (st_original s) other) →
  (∀ x, mentions data item x → mentions (st_data s) item x) →
  (∀ x, dict_get variables x = dict_get (st_variables s) x ∨ dict_get variables x = None ∧ mentions (st_data s) item x) →
  frame item s (mkStripping data original variables).
Proof. by split. Qed.
Lemma frame_del item s : frame item s (s <| st_data := dict_del (st_data s) item |>).
Proof.
  apply frame_change; try by auto.
  - intros other Hne. by rewrite dict_get_del, decide_False.
  - intros x (d & kv & Hd & _). by rewrite dict_get_del, decide_True in Hd.
Qed.

Lemma strip_key_frame key original_item d variables original_item' d' variables' :
  strip_key key (original_item, d, variables) = (original_item', d', variables') →
  (∀ kv, kv ∈ d' → kv ∈ d) ∧ ∀ x, dict_get variables' x = dict_get variables x ∨
    dict_get variables' x = None ∧ ∃ kv, kv ∈ d ∧ variable_of kv.2 = Some x.
Proof.
  destruct (dict_get d key) as [v|] eqn:Hv.
  2:{ unfold strip_key. rewrite Hv. intros [= _ <- <-]. auto. }
  destruct (decide (key = "id" ∧ 1 < length d)) as [[-> Hlen]|Hid].
  { unfold strip_key. rewrite Hv. apply Nat.ltb_lt in Hlen. rewrite bool_decide_eq_true_2, Hlen by done. intros [= _ <- <-]. auto. }
  assert (bool_decide (key = "id") && (1 <? length d) = false) as Hguard.
  { destruct (bool_decide (key = "id")) eqn:Hk; [|done]. apply bool_decide_eq_true in Hk.
    rewrite andb_true_l. apply Nat.ltb_ge. destruct (decide (1 < length d)); [tauto|lia]. }
  assert (∀ kv, kv ∈ dict_del d key → kv ∈ d) as Hdel by (intros kv; apply elem_of_dict_del).
  unfold strip_key. rewrite Hv, Hguard. destruct (py_eq _ v); [intros [= _ <- <-]; auto|].
  destruct v as [| | |[|c0 [|c1 rest]]| |]; try (intros [= _ <- <-]; auto).
  destruct (dict_get variables (String c1 rest)); [|intros [= _ <- <-]; auto].
  destruct (py_eq _ _); intros [= _ <- <-]; [|auto]. split; [done|]. intros x. rewrite dict_get_del.
  destruct (decide (String c1 rest = x)) as [Hx|Hx]; [|auto].
  right. split; [done|]. exists (key, JStr (String c0 (String c1 rest))). split; [by apply dict_get_Some_in|]. cbn. by rewrite Hx.
Qed.
Lemma strip_keys_frame ks original_item d variables original_item' d' variables' :
  foldl (λ s key, strip_key key s) (original_item, d, variables) ks = (original_item', d', variables') →
  (∀ kv, kv ∈ d' → kv ∈ d) ∧ ∀ x, dict_get variables' x = dict_get variables x ∨
    dict_get variables' x = None ∧ ∃ kv, kv ∈ d ∧ variable_of kv.2 = Some x.
Proof.
  revert original_item d variables. induction ks as [|k ks IH]; intros oa d vars; [intros [= _ <- <-]; auto|].
  cbn [foldl]. destruct (strip_key k (oa, d, vars)) as [[oa1 d1] v1] eqn:Hk. intros H.
  apply strip_key_frame in Hk as [Hd1 Hv1]. apply IH in H as [Hd' Hv']. split; [auto|].
  intros x. destruct (Hv' x) as [->|(-> & kv & Hkv & Hx)]; [apply Hv1|]. right. split; [done|]. exists kv. auto.
Qed.
Lemma strip_unmodified_dict_frame item s : frame item s (strip_unmodified_dict item s).2.
Proof.
  unfold strip_unmodified_dict. erewrite exec_step by reflexivity.
  match goal with |- frame _ _ ((?m ≫= ?f) s).2 => set (cont := f); set (strip := m) end.
  assert (∀ s1, frame item s1 (cont tt s1).2) as Hcont.
  { intros s1. unfold cont. erewrite exec_step by reflexivity. destruct (_ || _); [apply frame_refl|].
    destruct (dict_mem _ _); [apply frame_del|apply frame_refl]. }
  assert (∃ s1, strip s = (Ok tt, s1) ∧ frame item s s1) as (s1 & Hs1 & Hf).
  { unfold strip. destruct (dict_get (st_original s) item) as [[| | | | |oa]|] eqn:Ho; try (exists s; by split; [|apply frame_refl]).
    destruct (dict_get (st_data s) item) as [[| | | | |d]|] eqn:Hd; try (exists s; by split; [|apply frame_refl]).
    destruct (foldl _ _ _) as [[oa' d'] vars'] eqn:Hfold. apply strip_keys_frame in Hfold as [Hd' Hv'].
    eexists. split; [done|]. apply frame_change.
    - intros other Hne. by rewrite dict_get_set_ne.
    - intros other Hne. by rewrite dict_get_set_ne.
    - intros x (e & kv & He & Hkv & Hx). rewrite dict_get_set_eq in He. injection He as <-. exists d, kv. auto.
    - intros x. destruct (Hv' x) as [->|(-> & kv & Hkv & Hx)]; [auto|]. right. split; [done|]. by exists d, kv. }
  erewrite exec_step by exact Hs1. eapply frame_trans; [exact Hf|apply Hcont].
Qed.

Definition framed {A} (item : string) (m : Exec Stripping A) : Prop := ∀ s, frame item s (m s).2.
Lemma framed_bind {A B} item (m : Exec Stripping A) (f : A → Exec Stripping B) :
  framed item m → (∀ a, framed item (f a)) → framed item (m ≫= f).
Proof.
  intros Hm Hf s. specialize (Hm s). unfold mbind, exec_bind. destruct (m s) as [[a|e] s1]; [|done].
  eapply frame_trans; [exact Hm|apply Hf].
Qed.
Lemma framed_ret {A} item (a : A) : framed item (mret a).
Proof. intros s. apply frame_refl. Qed.
Lemma framed_get item : framed item get_state.
Proof. intros s. apply frame_refl. Qed.
Lemma framed_del item : framed item (modify (λ s, s <| st_data := dict_del (st_data s) item |>)).
Proof. intros s. apply frame_del. Qed.
Lemma strip_node_framed item : framed item (strip_node item).
Proof.
  intros s. unfold strip_node. set (s1 := s <| st_original := _ |>).
  pose proof (strip_unmodified_dict_frame item s1) as [Hd Ho Hi Hv]. destruct (strip_unmodified_dict item s1) as [r s2]. cbn [snd] in *.
  apply (frame_change item s (st_data s2) _ (st_variables s2)); try done. intros other Hne. by rewrite dict_get_set_ne.
Qed.
Lemma strip_item_framed n item : framed item (strip_item n item).
Proof.
  apply framed_bind; [apply framed_get|intros s]. destruct (dict_get (st_data s) item); [|apply framed_ret].
  destruct (py_eq _ _); [apply framed_del|]. destruct (dget (st_original s) item); try apply framed_ret.
  apply framed_bind; [exact (strip_unmodified_dict_frame item)|intros _]. apply framed_bind; [apply framed_get|intros s1].
  destruct (_ && _); [|apply framed_ret]. apply framed_bind; [apply strip_node_framed|intros _; apply strip_node_framed].
Qed.
(** A relationship is left out whole, and nothing else changes. *)
Lemma strip_relationship_run nodes n name s r s' : strip_relationship nodes n name s = (r, s') →
  s' = s ∨ s' = s <| st_data := dict_del (st_data s) name |>.
Proof.
  unfold strip_relationship. erewrite exec_step by reflexivity. destruct (dict_get (nd_relationships n) name) as [rel|]; [|intros [= _ <-]; auto].
  destruct rel as [[r0|]|m]; cbn zeta; try (intros [= _ <-]; auto);
    destruct (negb (dict_mem _ _)); try (intros [= _ <-]; auto); match goal with |- context [if ?b then _ else _] => destruct b end; intros [= _ <-]; auto.
Qed.
Lemma strip_relationships_run nodes n names s r s' : for_each (strip_relationship nodes n) names s = (r, s') →
  st_original s' = st_original s ∧ st_variables s' = st_variables s ∧
  (∀ other, other ∉ names → dict_get (st_data s') other = dict_get (st_data s) other) ∧
  ∀ other x, mentions (st_data s') other x → mentions (st_data s) other x.
Proof.
  revert s. induction names as [|name names IH]; intros s; [intros [= _ <-]; auto|]. cbn [for_each].
  unfold mbind at 1, exec_bind. destruct (strip_relationship nodes n name s) as [r1 s1] eqn:Hs1.
  assert (st_original s1 = st_original s ∧ st_variables s1 = st_variables s ∧
    (∀ other, other ≠ name → dict_get (st_data s1) other = dict_get (st_data s) other) ∧
    ∀ other x, mentions (st_data s1) other x → mentions (st_data s) other x) as (Ho1 & Hv1 & Hd1 & Hm1).
  { destruct (strip_relationship_run _ _ _ _ _ _ Hs1) as [->| ->]; [auto|]. split_and!; [done|done| |].
    - intros other Hne. cbn. by rewrite dict_get_del, decide_False.
    - intros other x (d & kv & Hd & ?). cbn in Hd. rewrite dict_get_del in Hd. case_decide; [done|]. by exists d, kv. }
  destruct r1 as [[]|e].
  - intros (Ho & Hv & Hd & Hm)%IH. rewrite Ho, Hv. split_and!; [done|done| |auto].
    intros other [Hne Hin]%not_elem_of_cons. by rewrite Hd, Hd1.
  - intros [= _ <-]. split_and!; [done|done| |done]. intros other [Hne _]%not_elem_of_cons. auto.
Qed.

Lemma for_each_app_ok {B} (f : B → Exec Stripping unit) l1 l2 s s' : for_each f (l1 ++ l2) s = (Ok tt, s') →
  ∃ s1, for_each f l1 s = (Ok tt, s1) ∧ for_each f l2 s1 = (Ok tt, s').
Proof.
  revert s. induction l1 as [|x l1 IH]; intros s; [by eexists|]. cbn [for_each app]. intros ([] & s0 & Hx & (s1 & H1 & H2)%IH)%exec_bind_ok.
  exists s1. split; [|done]. by erewrite exec_step by exact Hx.
Qed.

(** The variables [X] are used by no other entry than [item]. *)
Definition own (X : string → Prop) (item : string) (s : Stripping) : Prop :=
  ∀ x other, X x → other ≠ item → ¬ mentions (st_data s) other x.
Lemma frame_own X item other s s' : frame other s s' → own X item s → own X item s'.
Proof.
  intros Hf Hown x o Hx Hne Hm. apply (Hown x o Hx Hne). destruct (decide (o = other)) as [->|Ho]; [by apply (fr_item _ _ _ Hf)|].
  destruct Hm as (d & kv & Hd & ?). rewrite (fr_data _ _ _ Hf) in Hd by done. by exists d, kv.
Qed.
Lemma strip_others X n item l s s' : item ∉ l → own X item s → for_each (strip_item n) l s = (Ok tt, s') →
  dict_get (st_data s') item = dict_get (st_data s) item ∧ dict_get (st_original s') item = dict_get (st_original s) item ∧
  own X item s' ∧ ∀ x, dict_get (st_variables s') x = dict_get (st_variables s) x ∨ dict_get (st_variables s') x = None ∧ ¬ X x.
Proof.
  revert s. induction l as [|other l IH]; intros s; [intros _ Hown [= <-]; auto|].
  intros [Hne Hin]%not_elem_of_cons Hown ([] & s1 & Hs1 & Hs')%exec_bind_ok.
  pose proof (strip_item_framed n other s) as Hf. rewrite Hs1 in Hf. cbn [snd] in Hf.
  destruct (IH s1 Hin (frame_own _ _ _ _ _ Hf Hown) Hs') as (Hd & Ho & Hown' & Hv).
  rewrite Hd, Ho, (fr_data _ _ _ Hf), (fr_original _ _ _ Hf) by done. split_and!; [done|done|done|].
  intros x. destruct (Hv x) as [->|?]; [|by right]. destruct (fr_variables _ _ _ Hf x) as [->|[-> Hm]]; [by left|].
  right. split; [done|]. intros Hx. by apply (Hown x other).
Qed.

(** The entry of an attribute: what it holds, what was read, and its own variables *)
Record attribute_entry (n : SdkNode) (s : Stripping) (item : string) (original_item d : list (string * json)) : Prop := {
  ae_attribute : item ∉ relationship_names (nd_schema n);
  ae_data : dict_get (st_data s) item = Some (JDict d);
  ae_original : dict_get (st_original s) item = Some (JDict original_item);
  ae_keys : NoDup (dict_keys (st_original s)) ∧ NoDup (dict_keys original_item) ∧ NoDup (dict_keys d) ∧ "id" ∉ dict_keys d;
  ae_mention : one_mention d (st_variables s);
  ae_own : own (λ x, dict_mem (st_variables s) x = true ∧ mentions (st_data s) item x) item s;
}.
Definition sent (original_item d variables : list (string * json)) : option json :=
  if py_eq (JDict d) (JDict original_item) then None else left_over original_item d variables.
Definition unused (original_item d variables : list (string * json)) (x : string) : bool :=
  negb (py_eq (JDict d) (JDict original_item)) && dropped (dict_keys original_item) original_item d variables x.

(** Only the variables that the entry uses matter. *)
Lemma same_variables original_item d variables variables' :
  (∀ kv x, kv ∈ d → variable_of kv.2 = Some x → dict_get variables' x = dict_get variables x) →
  sent original_item d variables' = sent original_item d variables ∧
  (∀ x, unused original_item d variables' x = unused original_item d variables x) ∧
  (one_mention d variables → one_mention d variables').
Proof.
  intros Hsame.
  assert (∀ kv, kv ∈ d → ∀ o, same_value variables' o kv.2 = same_value variables o kv.2) as Hv.
  { intros kv Hkv o. unfold same_value. destruct (variable_of kv.2) as [x|] eqn:Hx; [|done]. by rewrite (Hsame kv x). }
  split_and!.
  - unfold sent, left_over. destruct (py_eq _ _); [done|].
    rewrite (list_filter_ext (λ kv, unchanged original_item variables' kv = false) (λ kv, unchanged original_item variables kv = false)); [done|].
    intros kv Hkv. unfold unchanged. by rewrite Hv.
  - intros x. unfold unused, dropped. f_equal. apply eq_true_iff_eq. rewrite !existsb_exists. setoid_rewrite <-list_elem_of_In.
    split; intros (kv & Hkv & H); exists kv; (split; [done|]); [rewrite <-Hv by done|rewrite Hv by done]; done.
  - intros Hone x kv kv' Hmem Hkv Hkv' Hx Hx'. apply (Hone x kv kv'); try done.
    unfold dict_mem in *. by rewrite <-(Hsame kv x).
Qed.
Lemma strip_item_spec n s item original_item d :
  item ∉ relationship_names (nd_schema n) → dict_get (st_data s) item = Some (JDict d) →
  dict_get (st_original s) item = Some (JDict original_item) →
  NoDup (dict_keys original_item) ∧ NoDup (dict_keys d) ∧ "id" ∉ dict_keys d → one_mention d (st_variables s) →
  ∃ s', strip_item n item s = (Ok tt, s') ∧ dict_get (st_data s') item = sent original_item d (st_variables s) ∧
    ∀ x, dict_get (st_variables s') x = if unused original_item d (st_variables s) x then None else dict_get (st_variables s) x.
Proof.
  intros Hrel Hd Ho (Hno & Hnd & Hid) Hone. unfold strip_item, sent, unused. erewrite exec_step by reflexivity. rewrite Hd.
  assert (dget (st_original s) item = JDict original_item) as -> by (unfold dget; by rewrite Ho).
  destruct (py_eq (JDict d) (JDict original_item)).
  { eexists. split; [done|]. cbn. by rewrite dict_get_del, decide_True. }
  destruct (strip_unmodified_dict_spec item original_item d s) as (s' & Hs' & [Hi _ _ Hv]); [done..|].
  exists s'. split; [|by split]. erewrite exec_step by exact Hs'. erewrite exec_step by reflexivity.
  by rewrite bool_decide_eq_false_2.
Qed.

(** C19: What an update sends of an attribute that was read.  Nothing of an entry that is as
    a whole the one that was read.  Otherwise the keys that remain are exactly those that were
    not read or whose value is not equal to what was read (an owner and a source being
    compared by the id of the object that was read, and a variable by its value), nothing
    remains when no key does, and the variables that leave are exactly those of the keys that
    leave: the request declares a variable of the attribute if and only if it uses it.  For an
    entry without the key id, whose variables are each used once and by no other entry (the
    variables that the attributes make have fresh names), when the stripping does not raise. *)
Theorem update_sends_changes (nodes : nat → SdkNode) (n : SdkNode) (s s' : Stripping) (item : string) (original_item d : list (string * json))
    (Hitem : attribute_entry n s item original_item d) (Hkey : strip_unmodified nodes n s = (Ok tt, s')) :
  dict_get (st_data s') item = sent original_item d (st_variables s) ∧
  ∀ x, dict_mem (st_variables s) x = true → mentions (st_data s) item x →
    dict_get (st_variables s') x = if unused original_item d (st_variables s) x then None else dict_get (st_variables s) x.
Proof.
  apply exec_bind_ok in Hkey as ([] & s1 & Hs1 & Hrun). apply exec_bind_ok in Hrun as (? & ? & [= <- <-] & Hrun).
  apply strip_relationships_run in Hs1 as (Ho1 & Hv1 & Hd1 & Hm1).
  set (X x := dict_mem (st_variables s) x = true ∧ mentions (st_data s) item x).
  assert (own X item s1) as Hown1.
  { intros x other Hx Hne Hm. by apply (ae_own _ _ _ _ _ Hitem x other Hx Hne), Hm1. }
  destruct Hitem as [Hrel Hd Ho Hkeys Hone _]. specialize (Hd1 item Hrel).
  assert (item ∈ dict_keys (st_original s1)) as Hin by (rewrite Ho1; apply dict_get_is_Some; by eexists).
  apply list_elem_of_split in Hin as (l1 & l2 & Hl). rewrite Hl in Hrun. rewrite <-Ho1, Hl in Hkeys.
  destruct Hkeys as ((_ & Hdis & [Hl2 _]%NoDup_cons)%NoDup_app & Hkeys).
  apply for_each_app_ok in Hrun as (s2 & Hs2 & Hrun).
  destruct (strip_others X n item l1 s1 s2) as (Hd2 & Ho2 & Hown2 & Hv2); [intros Hin; apply (Hdis _ Hin); left|done..|].
  rewrite Hv1 in Hv2. rewrite Hd1, Hd in Hd2. rewrite Ho1, Ho in Ho2.
  assert (∀ x, mentions (st_data s) item x → dict_get (st_variables s2) x = dict_get (st_variables s) x) as Hsame.
  { intros x Hx. destruct (Hv2 x) as [?|[-> HX]]; [done|]. destruct (dict_get (st_variables s) x) eqn:Hg; [|done].
    destruct HX. split; [|done]. unfold dict_mem. by rewrite Hg. }
  destruct (same_variables original_item d (st_variables s) (st_variables s2)) as (Hsent & Hunused & Hone2).
  { intros kv x Hkv Hx. apply Hsame. by exists d, kv. }
  destruct (strip_item_spec n s2 item original_item d) as (s3 & Hs3 & Hi3 & Hv3); [done..|by apply Hone2|].
  apply exec_bind_ok in Hrun as ([] & ? & Hs3' & Hrun). rewrite Hs3 in Hs3'. injection Hs3' as <-.
  pose proof (strip_item_framed n item s2) as Hf3. rewrite Hs3 in Hf3. cbn [snd] in Hf3.
  destruct (strip_others X n item l2 s3 s') as (Hd4 & _ & _ & Hv4); [done|by eapply frame_own|done|].
  rewrite Hd4, Hi3, Hsent. split; [done|]. intros x Hmem Hx. rewrite <-Hunused, <-(Hsame x Hx), <-Hv3.
  destruct (Hv4 x) as [?|[_ HX]]; [done|]. by destruct HX.
Qed.

#[local] Abbreviation demo_schema rels := (mkBaseNodeSchema (NodeSchema [] None None None) None PRESENT "Location" None "Builtin" None
  [attribute_schema "name" "Text"] rels []).
#[local] Abbreviation demo_node := (no_node <| nd_schema := demo_schema [] |>).
#[local] Abbreviation demo_data := ([("value", JStr "$value_0"); ("is_protected", JBool true); ("source", JStr "cccc")]).
#[local] Abbreviation demo_original := ([("value", JStr "DFW"); ("is_protected", JBool true); ("source", JDict [("id", JStr "cccc")])]).
#[local] Abbreviation demo_state := (mkStripping [("name", JDict demo_data)] [("name", JDict demo_original)] [("value_0", JStr "two 'words'")]).
Lemma update_sends_changes_witness :
  attribute_entry demo_node demo_state "name" demo_original demo_data ∧
  ∃ s', strip_unmodified (λ _, no_node) demo_node demo_state = (Ok tt, s') ∧
    dict_get (st_data s') "name" = Some (JDict [("value", JStr "$value_0")]) ∧
    dict_get (st_variables s') "value_0" = Some (JStr "two 'words'").
Proof.
  assert (attribute_entry demo_node demo_state "name" demo_original demo_data) as Hentry.
  { split; [by intros []%elem_of_nil|done|done| | |].
    - split_and!; try (apply (bool_decide_unpack _); by vm_compute).
    - intros x kv kv' _ Hkv Hkv' Hx Hx'. rewrite !elem_of_cons, elem_of_nil in Hkv, Hkv'.
      destruct Hkv as [->|[->|[->|[]]]], Hkv' as [->|[->|[->|[]]]]; cbn in *; congruence.
    - intros x other [_ _] Hne (d & kv & Hd & _). cbn in Hd. by rewrite decide_False in Hd. }
  split; [done|]. eexists. split; [by vm_compute|].
  pose proof (update_sends_changes (λ _, no_node) demo_node demo_state _ "name" demo_original demo_data Hentry eq_refl) as [Hd Hv].
  split; [exact Hd|]. refine (eq_trans (Hv "value_0" eq_refl _) eq_refl).
  exists demo_data, ("value", JStr "$value_0"). split_and!; [done|left|done].
Defined.

(** ** What updates and creations do otherwise *)

#[local] Abbreviation demo_hex := (λ n : nat, pretty (N.of_nat n)).
#[local] Abbreviation tag_rel cardinality :=
  (mkRelationshipSchema None PRESENT "tags" "BuiltinTag" GENERIC None None None false cardinality None true false []).
#[local] Abbreviation run_update cardinality data change :=
  (n ← node_init (demo_schema [tag_rel cardinality]) "main" (JDict data);
   input ← (generate_input_data (λ _, no_node) demo_hex "" true false (change n) (mkClient new_store 0)).1;
   Ok (in_data input)).
#[local] Abbreviation set_name v := (λ n, n <| nd_attributes :=
  match dict_get (nd_attributes n) "name" with Some a => [("name", a <| at_value := SVal v |>)] | None => [] end |>).
#[local] Abbreviation name_data := ([("id", JStr "l1"); ("name", JDict [("value", JStr "DFW")])]).

(** A relationship of cardinality one that was read without properties and was not changed makes
    the update raise: its entry is removed at the second pass, and again at the third. *)
Theorem unchanged_relationship_raises :
  run_update ONE (name_data ++ [("tags", JDict [("node", JDict [("id", JStr "t1")])])]) (set_name (JStr "JFK")) = Err (KeyError "tags").
Proof. by vm_compute. Qed.

(** The relationships that were read with their edges are sent although they were not changed. *)
Theorem unchanged_relationships_sent :
  run_update MANY (name_data ++ [("tags", JDict [("edges", JList [JDict [("node", JDict [("id", JStr "t1")])]])])]) id =
    Ok [("tags", JList [JDict [("id", JStr "t1")]]); ("id", JStr "l1")].
Proof. by vm_compute. Qed.

(** An attribute that is set to None is not sent: its value stays what it was. *)
Theorem null_not_sent : run_update MANY name_data (set_name JNull) = Ok [("id", JStr "l1")].
Proof. by vm_compute. Qed.

(** A text that ends with an end of line passes for safe, and the mutation cannot be read. *)
Theorem final_newline_unreadable :
  let text s := n ← node_init (demo_schema []) "main" (JDict [("name", JStr s)]);
                '(request, _) ← (create_request (λ _, no_node) demo_hex "" false n (mkClient new_store 0)).1;
                Ok (rq_query request) in
  (∃ query, text ("atl1" +:+ newline) = Ok query ∧ read_document query = None) ∧
  (∃ query, text ("atl1" +:+ newline +:+ "b") = Ok query ∧ read_document query ≠ None).
Proof. split; (eexists; split; [vm_compute; reflexivity|]); by vm_compute. Qed.

(** ** What the server reads in a creation *)

Lemma fold_exec_inv {S A B} (I : list B → A → S → Prop) (f : A → B → Exec S A) l acc s :
  (∀ done x todo acc s, l = done ++ x :: todo → I done acc s → ∃ acc' s', f acc x s = (Ok acc', s') ∧ I (done ++ [x]) acc' s') →
  I [] acc s → ∃ acc' s', fold_exec f acc l s = (Ok acc', s') ∧ I l acc' s'.
Proof.
  intros Hstep HI.
  enough (∀ todo done acc s, l = done ++ todo → I done acc s → ∃ acc' s', fold_exec f acc todo s = (Ok acc', s') ∧ I l acc' s') as H by by apply (H l []).
  clear HI. induction todo as [|x todo IH]; intros done acc' s' Hl HI.
  { rewrite app_nil_r in Hl. subst. by eexists _, _. }
  destruct (Hstep done x todo acc' s' Hl HI) as (acc1 & s1 & Hf & HI1).
  destruct (IH (done ++ [x]) acc1 s1) as (acc2 & s2 & Hrun & HI2); [by rewrite <-app_assoc|done|].
  exists acc2, s2. split; [|done]. cbn [fold_exec]. by erewrite exec_step by exact Hf.
Qed.

Lemma safe_not_variable s : SAFE_VALUE s = true → startswith s "$" = false.
Proof.
  destruct s as [|c s]; [done|]. cbn [SAFE_VALUE]. intros Hs. unfold startswith. cbn. destruct (decide ("$"%char = c)) as [<-|]; [|done].
  cbn in Hs. by rewrite bool_decide_eq_false_2 in Hs by naive_solver.
Qed.

Section create.
Context (nodes : nat → SdkNode) (hex : nat → string) (object_text : string) (n : SdkNode).
Context (Hhex : ∀ k, is_name ("value_" +:+ hex k) = true) (Hinj : Inj (=) (=) hex).

(** The values that a mutation can carry besides texts: the other values and the properties
    hold nothing that the reader refuses. *)
Definition attribute_properties (a : Attribute) : list (string * json) :=
  not_none "is_visible" (at_is_visible a) ++ not_none "is_protected" (at_is_protected a) ++
  property_input "source" (at_source a) ++ property_input "owner" (at_owner a).
Definition plain_attribute (a : Attribute) : bool :=
  forallb (λ kv, plain_input kv.2) (attribute_properties a) &&
  match at_value a with
  | SVal (JStr s) => negb (SAFE_VALUE s) || plain_text s
  | SVal v => plain_input v
  | SInterface i => plain_str (interface_with_prefixlen i)
  | SNetwork i => plain_str (network_with_prefixlen i)
  end.

(** An entry of the data that stands for the text [s] *)
Definition text_entry (variables d : list (string * json)) (s : string) : Prop :=
  dict_get d "value" = Some (JStr s) ∧ startswith s "$" = false ∨
  ∃ x, dict_get d "value" = Some (JStr ("$" +:+ x)) ∧ dict_get variables x = Some (JStr s).
Record payload_ok (p : Payload) (c : Client) : Prop := {
  po_data : ∀ kv, kv ∈ p.1 → is_name kv.1 = true ∧ plain_input kv.2 = true;
  po_variables : ∀ kv, kv ∈ p.2 → ∃ k s, k < cl_uuids c ∧ kv = ("value_" +:+ hex k, JStr s);
  po_keys : NoDup (dict_keys p.2);
}.

Lemma property_names a kv : kv ∈ attribute_properties a → is_name kv.1 = true.
Proof.
  unfold attribute_properties. rewrite !elem_of_app. unfold not_none, property_input.
  destruct (at_is_visible a), (at_is_protected a), (at_source a), (at_owner a); set_solver.
Qed.
Lemma plain_attribute_data a v : plain_attribute a = true → plain_input v = true → plain_input (JDict (("value", v) :: attribute_properties a)) = true.
Proof.
  intros [Hprops _]%andb_true_iff Hv. cbn. rewrite Hv. cbn. apply forallb_forall. intros kv Hin.
  rewrite (property_names a) by by apply list_elem_of_In. by rewrite forallb_forall in Hprops; apply Hprops.
Qed.
Lemma variable_plain k : plain_input (JStr ("$" +:+ "value_" +:+ hex k)) = true.
Proof.
  change (plain_str ("$" +:+ "value_" +:+ hex k) = true). unfold plain_str.
  rewrite (proj2 (startswith_spec _ _)) by by eexists. apply is_variable_spec. by eexists.
Qed.

(** What an attribute gives: nothing without value, or plain data with at most one new variable. *)
Lemma attribute_input_run a c : plain_attribute a = true →
  ∃ out c', attribute_input hex a c = (Ok out, c') ∧ cl_uuids c ≤ cl_uuids c' ∧
    match out with
    | None => at_value a = SVal JNull
    | Some (d, vars) =>
        plain_input (JDict d) = true ∧
        (∀ kv, kv ∈ vars → ∃ s, kv = ("value_" +:+ hex (cl_uuids c), JStr s) ∧ cl_uuids c < cl_uuids c') ∧ NoDup (dict_keys vars) ∧
        ∀ s variables, at_value a = SVal (JStr s) → (∀ x v, dict_get vars x = Some v → dict_get variables x = Some v) → text_entry variables d s
    end.
Proof.
  intros Ha. pose proof (plain_attribute_data a) as Hplain. apply andb_true_iff in Ha as Hv. destruct Hv as [_ Hv].
  assert (∀ v, plain_input v = true → (∀ s, at_value a = SVal (JStr s) → v = JStr s ∧ startswith s "$" = false) →
    plain_input (JDict (("value", v) :: attribute_properties a)) = true ∧
    (∀ kv : string * json, kv ∈ [] → ∃ s, kv = ("value_" +:+ hex (cl_uuids c), JStr s) ∧ cl_uuids c < cl_uuids c) ∧
    NoDup (dict_keys (@nil (string * json))) ∧
    ∀ s variables, at_value a = SVal (JStr s) → (∀ x v, dict_get [] x = Some v → dict_get variables x = Some v) →
      text_entry variables (("value", v) :: attribute_properties a) s) as Hdirect.
  { intros v Hp Hs. split_and!; [by apply Hplain|by intros kv []%elem_of_nil|constructor|].
    intros s variables [-> Hsafe]%Hs _. by left. }
  unfold attribute_input. fold (attribute_properties a).
  destruct (at_value a) as [[| | |s| |]|i|i] eqn:Hval; cbn [plain_input] in *;
    try (eexists _, c; split; [reflexivity|]; split; [reflexivity|]; first [done|apply Hdirect; [done|naive_solver]]).
  destruct (SAFE_VALUE s) eqn:Hsafe.
  - eexists _, c. split; [done|]. split; [done|]. apply safe_not_variable in Hsafe as Hd. apply Hdirect; [|by intros ? [= ->]].
    cbn. unfold plain_str. by rewrite Hd.
  - eexists _, _. split; [done|]. split; [cbn; lia|].
    split_and!; [by apply (plain_attribute_data a), variable_plain| |apply NoDup_singleton|].
    + intros kv ->%list_elem_of_singleton. exists s. split; [done|cbn; lia].
    + intros s' variables [= <-] Hvars. right. exists ("value_" +:+ hex (cl_uuids c)). split; [done|]. apply Hvars. cbn. by rewrite decide_True.
Qed.

(** A node whose names and values can be sent. *)
Definition plain_relationship (r : Relationship) : Prop :=
  match r with
  | ROne None => True
  | ROne (Some r) => related_initialized nodes r = true → plain_input (related_input nodes r) = true
  | RMany m => rm_initialized m = true → plain_input (JList (related_input nodes <$> rm_peers m)) = true
  end.
Record plain_node : Prop := {
  pn_kind : is_name (kind (nd_schema n)) = true;
  pn_distinct : NoDup (attribute_names (nd_schema n));
  pn_attributes : ∀ name, name ∈ attribute_names (nd_schema n) →
    is_name name = true ∧ name ≠ "id" ∧ (name ∉ relationship_names (nd_schema n)) ∧
    ∃ a, dict_get (nd_attributes n) name = Some a ∧ (as_read_only (at_schema a) = false → plain_attribute a = true);
  pn_relationships : ∀ name, name ∈ relationship_names (nd_schema n) →
    is_name name = true ∧ (∃ schema, get_relationship (nd_schema n) name = Ok schema) ∧
    ∃ r, dict_get (nd_relationships n) name = Some r ∧ plain_relationship r;
  pn_id : plain_input (nd_id n) = true;
  pn_hfid : nd_id n = JNull → ∀ c, ∃ hfid c', get_human_friendly_id nodes object_text RECURSION_LIMIT n c = (Ok hfid, c');
  pn_query : plain_query (JDict (generate_mutation_query nodes n)) = true;
}.

(** The texts of the attributes [names] are in the data, as they are or by a variable. *)
Definition texts_sent (names : list string) (data variables : list (string * json)) : Prop :=
  ∀ name a s, name ∈ names → dict_get (nd_attributes n) name = Some a → as_read_only (at_schema a) = false →
    at_value a = SVal (JStr s) → ∃ d, dict_get data name = Some (JDict d) ∧ text_entry variables d s.

Lemma payload_ok_set p c name v : payload_ok p c → is_name name = true → plain_input v = true → payload_ok (dict_set p.1 name v, p.2) c.
Proof.
  intros [Hd Hv Hk] Hn Hp. split; [|done|done]. intros kv [?| ->]%elem_of_dict_set; auto.
Qed.
Lemma texts_sent_set names data variables name v : name ∉ names → texts_sent names data variables → texts_sent names (dict_set data name v) variables.
Proof.
  intros Hn Ht name' a s Hin Ha Hro Hs. destruct (Ht name' a s) as (d & Hd & He); [done..|]. exists d. split; [|done].
  rewrite dict_get_set_ne; [done|]. by intros ->.
Qed.
Lemma text_entry_mono variables variables' d s : (∀ x v, dict_get variables x = Some v → dict_get variables' x = Some v) →
  text_entry variables d s → text_entry variables' d s.
Proof. intros Hv [?|(x & Hx & Hs)]; [by left|]. right. exists x. auto. Qed.

Lemma fresh_variable p c : payload_ok p c → "value_" +:+ hex (cl_uuids c) ∉ dict_keys p.2.
Proof.
  intros [_ Hv _] ([x v] & Hx & Hin)%list_elem_of_fmap. apply Hv in Hin as (k & s & Hk & Heq). cbn in Hx.
  injection Heq as -> ->. apply (inj (String.append "value_")), Hinj in Hx. lia.
Qed.
Lemma payload_ok_variables p c c' vars : payload_ok p c → cl_uuids c ≤ cl_uuids c' →
  (∀ kv, kv ∈ vars → ∃ s, kv = ("value_" +:+ hex (cl_uuids c), JStr s) ∧ cl_uuids c < cl_uuids c') → NoDup (dict_keys vars) →
  payload_ok (p.1, dict_update p.2 vars) c' ∧
  (∀ x v, dict_get p.2 x = Some v → dict_get (dict_update p.2 vars) x = Some v) ∧
  (∀ x v, dict_get vars x = Some v → dict_get (dict_update p.2 vars) x = Some v).
Proof.
  intros Hp Hle Hvars Hnd. pose proof (fresh_variable p c Hp) as Hfresh. destruct Hp as [Hd Hv Hk].
  assert (∀ x, x ∈ dict_keys vars → x = "value_" +:+ hex (cl_uuids c)) as Hkeys.
  { intros x ([y v] & -> & (s & [= -> ->] & _)%Hvars)%list_elem_of_fmap. done. }
  assert (NoDup (dict_keys p.2 ++ dict_keys vars)) as Hdis.
  { apply NoDup_app. split_and!; [done| |done]. by intros x Hx ->%Hkeys. }
  rewrite dict_update_NoDup by done.
  assert (∀ x v, dict_get p.2 x = Some v → dict_get (p.2 ++ vars) x = Some v) as Hold.
  { intros x v Hx. apply dict_get_in; [unfold dict_keys; by rewrite fmap_app|]. apply elem_of_app. left. by apply dict_get_Some_in. }
  split_and!; [split; cbn|done|].
  - done.
  - intros kv [(k & s & Hlt & ->)%Hv|(s & -> & Hlt)%Hvars]%elem_of_app; [exists k, s|exists (cl_uuids c), s]; (split; [lia|done]).
  - unfold dict_keys. by rewrite fmap_app.
  - intros x v Hx. apply dict_get_in; [unfold dict_keys; by rewrite fmap_app|]. apply elem_of_app. right. by apply dict_get_Some_in.
Qed.

Lemma attributes_sent c : plain_node →
  ∃ p c', fold_exec (λ p name, add_attribute hex n name p) ([], []) (attribute_names (nd_schema n)) c = (Ok p, c') ∧
    payload_ok p c' ∧ texts_sent (attribute_names (nd_schema n)) p.1 p.2.
Proof.
  intros Hn. apply (fold_exec_inv (λ done p c, payload_ok p c ∧ texts_sent done p.1 p.2)).
  2:{ split; [split; [by intros kv []%elem_of_nil|by intros kv []%elem_of_nil|constructor]|]. by intros name a s []%elem_of_nil. }
  intros done name todo p c1 Hl [Hp Ht].
  destruct (pn_attributes Hn name) as (Hname & _ & _ & a & Ha & Hplain); [rewrite Hl; set_solver|].
  assert (name ∉ done) as Hnew.
  { pose proof (pn_distinct Hn) as Hnd. rewrite Hl in Hnd. apply NoDup_app in Hnd as (_ & Hdis & _). intros Hin. apply (Hdis name Hin). left. }
  unfold add_attribute. rewrite Ha. destruct (as_read_only (at_schema a)) eqn:Hro.
  { eexists _, _. split; [done|]. split; [done|]. intros name' a' s [Hin| ->%list_elem_of_singleton]%elem_of_app Ha'; [by eapply Ht|].
    rewrite Ha in Ha'. injection Ha' as <-. by rewrite Hro. }
  destruct (attribute_input_run a c1) as (out & c2 & Hrun & Hle & Hout); [by apply Hplain|].
  eexists _, _. split; [by erewrite exec_step by exact Hrun|]. destruct out as [[d vars]|].
  - destruct Hout as (Hd & Hvars & Hnd & Htext). destruct (payload_ok_variables p c1 c2 vars) as (Hok & Hold & Hnewv); [done..|].
    split; [by apply (payload_ok_set (p.1, dict_update p.2 vars))|]. cbn [fst snd].
    intros name' a' s [Hin| ->%list_elem_of_singleton]%elem_of_app Ha' Hro' Hs.
    + destruct (texts_sent_set done p.1 p.2 name (JDict d) Hnew Ht name' a' s) as (e & He & Hte); [done..|].
      exists e. split; [done|]. exact (text_entry_mono _ _ e s Hold Hte).
    + rewrite Ha in Ha'. injection Ha' as <-. exists d. rewrite dict_get_set_eq. split; [done|]. by apply Htext.
  - split.
    + destruct Hp as [H1 H2 H3]. split; [done| |done]. intros kv (k & s & Hk & ->)%H2. exists k, s. split; [lia|done].
    + intros name' a' s [Hin| ->%list_elem_of_singleton]%elem_of_app Ha' Hro' Hs; [by eapply Ht|].
      rewrite Ha in Ha'. injection Ha' as <-. congruence.
Qed.

Lemma relationships_sent p c : plain_node → payload_ok p c → texts_sent (attribute_names (nd_schema n)) p.1 p.2 →
  ∃ p' c', fold_exec (λ p name, add_relationship nodes n name p) p (relationship_names (nd_schema n)) c = (Ok p', c') ∧
    payload_ok p' c' ∧ texts_sent (attribute_names (nd_schema n)) p'.1 p'.2.
Proof.
  intros Hn Hp Ht. apply (fold_exec_inv (λ _ p c, payload_ok p c ∧ texts_sent (attribute_names (nd_schema n)) p.1 p.2)); [|done].
  clear p c Hp Ht. intros done name todo p c Hl [Hp Ht].
  assert (name ∈ relationship_names (nd_schema n)) as Hin by (rewrite Hl; set_solver).
  destruct (pn_relationships Hn name Hin) as (Hname & (schema & Hschema) & r & Hr & Hplain).
  assert (name ∉ attribute_names (nd_schema n)) as Hnot.
  { intros Ha. by destruct (pn_attributes Hn name Ha) as (_ & _ & Hne & _). }
  assert (∀ v, plain_input v = true →
    payload_ok (dict_set p.1 name v, p.2) c ∧ texts_sent (attribute_names (nd_schema n)) (dict_set p.1 name v) p.2) as Hset.
  { intros v Hv. split; [by apply payload_ok_set|by apply texts_sent_set]. }
  unfold add_relationship. rewrite Hschema. erewrite exec_step by reflexivity. rewrite Hr.
  destruct (rs_read_only schema); [by eexists _, _|]. destruct r as [[r|]|m]; [|by eexists _, _|].
  - destruct (related_initialized nodes r) eqn:Hi; eexists _, _; (split; [reflexivity|]); [|done]. by apply Hset, Hplain.
  - destruct (rm_initialized m) eqn:Hi; eexists _, _; (split; [reflexivity|]); [|done]. by apply Hset, Hplain.
Qed.
Lemma creation_data c : plain_node → ∃ input c' c2,
  generate_input_data nodes hex object_text false true n c = (Ok input, c') ∧
  in_node input = n ∧ in_mutation_variables input = (λ kv, (kv.1, py_type kv.2)) <$> in_variables input ∧
  payload_ok (in_data input, in_variables input) c2 ∧ texts_sent (attribute_names (nd_schema n)) (in_data input) (in_variables input).
Proof.
  intros Hn. destruct (attributes_sent c Hn) as (p1 & c1 & Hrun1 & Hp1 & Ht1).
  destruct (relationships_sent p1 c1 Hn Hp1 Ht1) as ([data variables] & c2 & Hrun2 & Hp2 & Ht2).
  assert (all_input nodes hex n c = (Ok (data, variables), c2)) as Hall by (unfold all_input; by erewrite exec_step by exact Hrun1).
  unfold generate_input_data. erewrite exec_step by exact Hall. cbn beta iota. erewrite exec_step by reflexivity. cbn beta iota zeta.
  destruct (decide (nd_id n = JNull)) as [Hid|Hid].
  - destruct (pn_hfid Hn Hid c2) as (hfid & c3 & Hhfid). rewrite Hid. exists (mkInputData data variables ((λ kv, (kv.1, py_type kv.2)) <$> variables) n), c3, c2.
    split; [|done]. erewrite exec_step; [done|]. erewrite exec_step by exact Hhfid. by destruct hfid.
  - exists (mkInputData (dict_set data "id" (nd_id n)) variables ((λ kv, (kv.1, py_type kv.2)) <$> variables) n), c2, c2.
    split; [erewrite exec_step; [done|by destruct (nd_id n)]|]. split; [done|]. split; [done|]. split.
    + by apply (payload_ok_set (data, variables)); [| |apply (pn_id Hn)].
    + apply texts_sent_set; [|done]. intros Hin. by destruct (pn_attributes Hn "id" Hin) as (_ & ? & _).
Qed.

(** The variables are declared as texts. *)
Lemma declared_texts p c : payload_ok p c →
  forallb (λ kv, is_name kv.1) ((λ kv, (kv.1, py_type kv.2)) <$> p.2) = true ∧
  variables_of (Some ((λ kv, (kv.1, py_type kv.2)) <$> p.2)) = (λ kv, ("$" +:+ kv.1, "String!")) <$> p.2.
Proof.
  intros [_ Hv _]. induction p.2 as [|kv l IH]; [done|]. destruct IH as [IH1 IH2]; [intros; apply Hv; by right|].
  destruct (Hv kv) as (k & s & _ & ->); [left|]. split.
  - rewrite fmap_cons. cbn [forallb fst]. by rewrite Hhex, IH1.
  - rewrite !fmap_cons. exact (f_equal (cons ("$" +:+ "value_" +:+ hex k, "String!")) IH2).
Qed.
Lemma is_name_app a b : is_name a = true → str_forall (λ c, name_start c || is_digit c) b = true → is_name (a +:+ b) = true.
Proof.
  destruct a as [|c a]; [done|]. cbn [is_name]. rewrite str_app_cons, andb_true_iff. intros [Hc Ha] Hb. cbn [is_name].
  by rewrite Hc, str_forall_app, Ha, Hb.
Qed.
Lemma creation_plain input c action : plain_node → payload_ok (in_data input, in_variables input) c →
  in_mutation_variables input = (λ kv, (kv.1, py_type kv.2)) <$> in_variables input →
  str_forall (λ c, name_start c || is_digit c) action = true → plain_mutation (mutation_of nodes n action input) = true.
Proof.
  intros Hn Hp Hvars Haction. destruct (declared_texts _ _ Hp) as [Hnames Hdeclared]. cbn [snd] in *.
  destruct Hp as [Hd _ Hk]. cbn [fst snd] in *. unfold plain_mutation, plain_base, mutation_of. cbn [mu_base mu_mutation mu_input_data gq_name gq_variables gq_query default].
  unfold id. rewrite Hvars, Hnames, Hdeclared, (is_name_app _ _ (pn_kind Hn) Haction), (pn_query Hn).
  rewrite !andb_true_iff. split_and!; try done.
  - apply bool_decide_eq_true. by rewrite <-list_fmap_compose.
  - rewrite orb_true_iff. destruct (in_variables input); [by left|by right].
  - cbn. rewrite andb_true_r. apply forallb_forall. intros kv Hin%list_elem_of_In. by destruct (Hd kv Hin) as [-> ->].
Qed.
End create.

(** The text that a value read by the server stands for: itself, or the value of a variable that
    the operation declares as a text. *)
Definition server_text (variables : list (string * json)) (declared : list (string * string)) (g : gvalue) : option string :=
  match g with
  | GStr s => Some s
  | GVar w => x ← strip_prefix "$" w;
               if decide ((w, "String!") ∈ declared) then match dict_get variables x with Some (JStr s) => Some s | _ => None end else None
  | _ => None
  end.
#[local] Abbreviation written := (GEnum "None").
Lemma arguments_get d k : dict_get (arguments_of written d) k = gvalue_of written <$> dict_get d k.
Proof. unfold arguments_of. induction d as [|[k' v] d IH]; [done|]. rewrite fmap_cons. cbn. by case_decide. Qed.
Lemma server_text_entry variables d s : text_entry variables d s → ∃ g,
  dict_get (arguments_of written d) "value" = Some g ∧
  server_text variables ((λ kv, ("$" +:+ kv.1, "String!")) <$> variables) g = Some s.
Proof.
  rewrite arguments_get. intros [[-> Hs]|(x & -> & Hx)]; cbn [fmap option_fmap option_map gvalue_of].
  - rewrite Hs. by exists (GStr s).
  - rewrite (proj2 (startswith_spec ("$" +:+ x) "$")) by by exists x. eexists. split; [done|].
    unfold server_text. rewrite (proj2 (strip_prefix_spec "$" _ x)) by done. cbn [mbind option_bind].
    rewrite decide_True, Hx; [done|]. apply list_elem_of_fmap. exists (x, JStr s). split; [done|by apply dict_get_Some_in].
Qed.

(** C18: Creating a node sends a mutation that the server reads as the creation (or the upsert) of a
    node of its kind, where each attribute that holds a text and is not read-only has exactly
    this text as value, whatever its characters, in the document or through a variable that
    the mutation declares and the request gives; the names and the other values being those
    of GraphQL, and no text that passes for safe ending with an end of line. *)
Theorem creation_reads (nodes : nat → SdkNode) (hex : nat → string) (object_text : string) (n : SdkNode) (allow_upsert : bool) (c : Client)
    (Hhex : ∀ k, is_name ("value_" +:+ hex k) = true) (Hinj : Inj (=) (=) hex) (Hn : plain_node nodes object_text n) :
  ∃ request c' op fields sub,
    create_request nodes hex object_text allow_upsert n c = (Ok (request, n), c') ∧
    read_document (rq_query request) = Some op ∧ op_type op = "mutation" ∧
    op_selections op = [Sel None (kind (nd_schema n) +:+ (if allow_upsert then "Upsert" else "Create")) [("data", GObj fields)] sub] ∧
    ∀ name a s, name ∈ attribute_names (nd_schema n) → dict_get (nd_attributes n) name = Some a →
      as_read_only (at_schema a) = false → at_value a = SVal (JStr s) →
      ∃ d g, dict_get fields name = Some (GObj d) ∧ dict_get d "value" = Some g ∧
        server_text (rq_variables request) (op_variables op) g = Some s.
Proof.
  destruct (creation_data nodes hex object_text n Hhex Hinj c Hn) as (input & c' & c2 & Hrun & Hnode & Hvars & Hp & Ht).
  set (action := if allow_upsert then "Upsert" else "Create").
  assert (plain_mutation (mutation_of nodes n action input) = true) as Hplain.
  { apply (creation_plain nodes hex object_text n Hhex input c2 action Hn Hp Hvars). by destruct allow_upsert. }
  destruct (mutation_reads _ Hplain) as (text & Htext & Hread).
  exists (mkRequest text (in_variables input) (tracker n (if allow_upsert then "upsert" else "create"))), c'.
  eexists _, (arguments_of written (in_data input)), _. split; [|split; [exact Hread|]].
  - unfold create_request. erewrite exec_step by exact Hrun. fold action. rewrite Htext. erewrite exec_step by reflexivity. by rewrite Hnode.
  - split; [done|]. split; [done|]. cbn [op_variables rq_variables]. destruct (declared_texts hex Hhex _ _ Hp) as [_ Hdeclared].
    unfold mutation_of. cbn [mu_base gq_variables]. cbn [snd] in Hdeclared. rewrite Hvars, Hdeclared.
    intros name a s Hin Ha Hro Hs. destruct (Ht name a s Hin Ha Hro Hs) as (d & Hd & He).
    destruct (server_text_entry _ _ _ He) as (g & Hg & Hserver). exists (arguments_of written d), g. split_and!; [|done|done].
    by rewrite arguments_get, Hd.
Qed.

#[local] Abbreviation quoted_name := ("the " +:+ quote +:+ "one" +:+ quote).
#[local] Abbreviation new_node := (mkSdkNode (demo_schema [tag_rel MANY]) JNull "main" false JNull JNull (JStr "BuiltinLocation")
  [("name", mkAttribute "name" (attribute_schema "name" "Text") JNull (SVal (JStr quoted_name)) JNull JNull JNull JNull JNull (JBool true) None None)]
  [("tags", RMany (mkRelationshipManager true true "tags" (tag_rel MANY) [demo_peer "t1"]))]).
#[local] Abbreviation unary_hex := (λ n : nat, Nat.iter n (String "f"%char) "").
Lemma creation_reads_witness :
  (plain_node (λ _, no_node) "" new_node ∧ (∀ k, is_name ("value_" +:+ unary_hex k) = true) ∧ Inj (=) (=) unary_hex) ∧
  ∃ request c' op fields sub,
    create_request (λ _, no_node) unary_hex "" false new_node (mkClient new_store 0) = (Ok (request, new_node), c') ∧
    read_document (rq_query request) = Some op ∧ op_type op = "mutation" ∧
    op_selections op = [Sel None "BuiltinLocationCreate" [("data", GObj fields)] sub] ∧
    ∃ d g, dict_get fields "name" = Some (GObj d) ∧ dict_get d "value" = Some g ∧
      server_text (rq_variables request) (op_variables op) g = Some quoted_name.
Proof.
  assert (∀ k, is_name ("value_" +:+ unary_hex k) = true) as Hhex.
  { intros k. change (str_forall (λ c, name_start c || is_digit c) (unary_hex k) = true). induction k as [|k IH]; [done|exact IH]. }
  assert (Inj (=) (=) unary_hex) as Hinj.
  { intros k. induction k as [|k IH]; intros [|j] Hj; try done. cbn in Hj. injection Hj as Hj. by rewrite (IH j Hj). }
  assert (plain_node (λ _, no_node) "" new_node) as Hn.
  { split; try done.
    - apply NoDup_singleton.
    - intros name ->%list_elem_of_singleton. split_and!; [done|done|by intros ?%list_elem_of_singleton|]. eexists. split; [done|].
      by vm_compute.
    - intros name ->%list_elem_of_singleton. split_and!; [done|by eexists|]. eexists. split; [done|]. by vm_compute.
    - intros _ c. by eexists _, _. }
  split; [done|].
  destruct (creation_reads (λ _, no_node) unary_hex "" new_node false (mkClient new_store 0) Hhex Hinj Hn)
    as (request & c' & op & fields & sub & Hrun & Hread & Hty & Hsel & Htexts).
  exists request, c', op, fields, sub. split; [exact Hrun|]. split; [exact Hread|]. split; [exact Hty|]. split; [exact Hsel|].
  refine (Htexts "name" _ quoted_name _ eq_refl eq_refl eq_refl). apply list_elem_of_singleton. reflexivity.
Defined.
