(* ===== verification/SdkQuery.v ===== *)
(** * The queries of the SDK nodes

    [python_sdk/infrahub_sdk/node.py]: the dictionaries of the queries that read the nodes of
    a kind, with their filters, the fields that are asked for, the fragments of the kinds
    that inherit from a generic, and the fields of the peers that are read ahead.  The
    schemas of the peers come from the cache of [SdkSchema]. *)

From stdpp Require Import prelude strings pretty.
From S2P Require Import Prelude PyString PyDict SdkUtils SdkSchema SdkGraphql SdkGraphqlFacts SdkNode.

#[local] Open Scope nat_scope.

Definition property_fields : list (string * json) :=
  [("is_visible", JNull); ("is_protected", JNull); ("source", peer_query); ("owner", peer_query)].
(** [Attribute._generate_query_data] *)
Definition attribute_query_data : list (string * json) :=
  [("value", JNull); ("is_default", JNull); ("is_from_profile", JNull)] ++ property_fields.
(** [RelatedNodeBase._generate_query_data] and [RelationshipManagerBase._generate_query_data] *)
Definition peer_fields (peer_data : list (string * json)) : json :=
  JDict (dict_update [("id", JNull); ("display_label", JNull); ("__typename", JNull)] peer_data).
Definition related_query_data (peer_data : list (string * json)) : list (string * json) :=
  [("node", peer_fields peer_data); ("properties", JDict property_fields)].
Definition manager_query_data (peer_data : list (string * json)) : list (string * json) :=
  [("count", JNull); ("edges", JDict [("node", peer_fields peer_data); ("properties", JDict property_fields)])].

(** The parameters of a query *)
Record Selection := mkSelection {
  sl_include : list string;
  sl_exclude : list string;
  sl_inherited : bool;
  sl_insert_alias : bool;
}.
Definition wants_attribute (o : Selection) (a : AttributeSchema) : bool :=
  negb (bool_decide (as_name a ∈ sl_exclude o)) && (sl_inherited o || negb (as_inherited a)).
(** A relationship of cardinality many is only read when it is a parent or an attribute, or when
    it is asked for. *)
Definition wants_relationship (o : Selection) (r : RelationshipSchema) : bool :=
  negb (bool_decide (rs_name r ∈ sl_exclude o)) && (sl_inherited o || negb (rs_inherited r)) &&
  (bool_decide (rs_cardinality r = ONE) || bool_decide (rs_kind r = ATTRIBUTE ∨ rs_kind r = PARENT) || bool_decide (rs_name r ∈ sl_include o)).

Definition with_alias (o : Selection) (schema : BaseNodeSchema) (name : string) (d : list (string * json)) : json :=
  JDict (if sl_insert_alias o then dict_set d ALIAS_KEY (JStr ("__alias__" +:+ kind schema +:+ "__" +:+ name)) else d).
Definition relationship_query_data (r : RelationshipSchema) (peer_data : list (string * json)) : list (string * json) :=
  match rs_cardinality r with ONE => related_query_data peer_data | MANY => manager_query_data peer_data end.

(** The attributes of [generate_query_data_node], and its relationships when the peers are not
    read ahead *)
Definition attribute_fields (o : Selection) (schema : BaseNodeSchema) : list (string * json) :=
  foldl (λ data name,
    match get_attribute schema name with
    | Ok a => if wants_attribute o a then dict_set data name (with_alias o schema name attribute_query_data) else data
    | Err _ => data
    end) [] (attribute_names schema).
Definition add_relationship_fields (o : Selection) (schema : BaseNodeSchema) (peer_data : list (string * json)) (data : list (string * json))
    (name : string) : list (string * json) :=
  match get_relationship schema name with
  | Ok r => if wants_relationship o r then dict_set data name (with_alias o schema name (relationship_query_data r peer_data)) else data
  | Err _ => data
  end.
Definition node_fields (o : Selection) (schema : BaseNodeSchema) : list (string * json) :=
  foldl (add_relationship_fields o schema []) (attribute_fields o schema) (relationship_names schema).

Section queries.
Context `{SetOrder}.
Context (server : nat → string → list string → result (list BaseNodeSchema * list BaseNodeSchema * list BaseNodeSchema)).
Context (default_branch : string).

(** [generate_query_data_node] *)
Definition generate_query_data_node (o : Selection) (prefetch_relationships : bool) (schema : BaseNodeSchema) :
    Exec SchemaCache (list (string * json)) :=
  fold_exec (λ data name,
    match get_relationship schema name with
    | Ok r =>
        if wants_relationship o r && prefetch_relationships then
          peer_schema ← get server (rs_peer r) default_branch false;
          mret (add_relationship_fields o schema (node_fields (mkSelection (sl_include o) (sl_exclude o) false false) peer_schema) data name)
        else mret (add_relationship_fields o schema [] data name)
    | Err e => raise e
    end) (attribute_fields o schema) (relationship_names schema).

(** The filters with the arguments of a page *)
Definition query_filters (filters : list (string * json)) (offset limit : option Z) (partial_match : bool) : list (string * json) :=
  let number key n d := match n with Some n => if (n =? 0)%Z then d else dict_set d key (JInt n) | None => d end in
  let filters := number "limit" limit (number "offset" offset filters) in
  if partial_match then dict_set filters "partial_match" (JBool true) else filters.
(** [generate_query_data_init] *)
Definition generate_query_data_init (filters : list (string * json)) (offset limit : option Z) (include exclude : list string)
    (partial_match : bool) : result (list (string * json)) :=
  _ ← raise_if (negb (bool_decide ((compare_lists include exclude).1.1 = [])) &&
                negb (bool_decide (include = [])) && negb (bool_decide (exclude = [])))
        (ValueError "part of both include and exclude");
  mret [("count", JNull);
        ("edges", JDict [("node", JDict [("id", JNull); ("hfid", JNull); ("display_label", JNull); ("__typename", JNull)])]);
        (FILTERS_KEY, JDict (query_filters filters offset limit partial_match))].

(** [data["edges"]["node"]], given another value *)
Definition update_node (f : list (string * json) → list (string * json)) (data : list (string * json)) : list (string * json) :=
  let edges := dict_of (dget data "edges") in
  dict_set data "edges" (JDict (dict_set edges "node" (JDict (f (dict_of (dget edges "node")))))).
(** [generate_query_data] *)
Definition generate_query_data (filters : list (string * json)) (offset limit : option Z) (include exclude : list string)
    (fragment prefetch_relationships partial_match : bool) (schema : BaseNodeSchema) : Exec SchemaCache (list (string * json)) :=
  data ← lift (generate_query_data_init filters offset limit include exclude partial_match);
  node ← generate_query_data_node (mkSelection include exclude true false) prefetch_relationships schema;
  let data := update_node (λ d, dict_update d node) data in
  data ← (match bs_class schema with
          | GenericSchema used_by =>
              if fragment then
                fold_exec (λ data child,
                  child_schema ← get server child default_branch false;
                  let exclude_parent := attribute_names schema ++ relationship_names schema in
                  let exclude_child := (compare_lists include exclude_parent).2 ++ exclude in
                  child_data ← generate_query_data_node (mkSelection include exclude_child false true) prefetch_relationships child_schema;
                  mret (match child_data with [] => data | _ => update_node (λ d, dict_set d ("...on " +:+ child) (JDict child_data)) data end))
                  data used_by
              else mret data
          | _ => mret data
          end);
  mret [(kind schema, JDict data)].
End queries.

(** ** What is asked for *)

#[local] Abbreviation written := (GEnum "None").
Definition sel_name (s : selection) : string := match s with Sel _ name _ _ => name end.

(** An entry that the reader reads as a field. *)
Definition field_entry (kv : string * json) : Prop := plain_entry kv = true ∧ rendered kv = true.
Lemma field_entries_plain items : items ≠ [] → Forall field_entry items → plain_query (JDict items) = true.
Proof.
  intros Hne Hall. change (existsb rendered items && forallb plain_entry items = true). apply andb_true_iff. split.
  - destruct items as [|kv items]; [done|]. inv Hall. rename select (field_entry _) into Hkv. apply existsb_exists. exists kv. split; [by left|apply Hkv].
  - apply forallb_Forall, (Forall_impl _ _ _ Hall). by intros kv [? _].
Qed.
Lemma selection_names items : Forall field_entry items → sel_name <$> selections_of written (JDict items) = dict_keys items.
Proof.
  rewrite selections_of_dict. unfold dict_keys. induction 1 as [|[k v] items [_ Hr] _ IH]; [done|]. rewrite !fmap_cons. cbn [concat].
  rewrite fmap_app, IH. unfold rendered, entry_selections in *. cbn [fst snd] in *. apply andb_true_iff in Hr as [Hk Hv].
  rewrite negb_true_iff, bool_decide_eq_false in Hk. rewrite decide_False by done. by destruct v.
Qed.

Lemma name_not_keyword name : is_name name = true → name ∉ KEYWORDS_TO_SKIP.
Proof. intros Hn. unfold KEYWORDS_TO_SKIP. rewrite !not_elem_of_cons. split_and!; [by intros ->|by intros ->|by intros ?%elem_of_nil]. Qed.
Lemma dict_field_entry name v : is_name name = true → plain_heading name v = true → only_alias v = false → plain_query (JDict v) = true →
  field_entry (name, JDict v).
Proof.
  intros Hn Hh Ho Hq. pose proof (name_not_keyword _ Hn). unfold field_entry, plain_entry, rendered. cbn [fst snd].
  by rewrite Hh, Ho, Hq, bool_decide_eq_false_2.
Qed.
Lemma alias_name s name : is_name (kind s) = true → is_name name = true → is_name ("__alias__" +:+ kind s +:+ "__" +:+ name) = true.
Proof.
  assert (∀ w, is_name w = true → IpText.str_forall (λ c, name_start c || is_digit c) w = true) as Hchars.
  { intros [|c w]; [done|]. cbn [is_name]. intros [Hc Hw]%andb_true_iff. unfold IpText.str_forall. cbn. by rewrite Hc. }
  intros Hk%Hchars Hn%Hchars. cbn [is_name]. rewrite <-(str_app_assoc (kind s)).
  change (IpText.str_forall (λ c, name_start c || is_digit c) ("_alias__" +:+ (kind s +:+ "__") +:+ name) = true).
  by rewrite !IpText.str_forall_app, Hk, Hn.
Qed.

Section fields.
Context (o : Selection) (schema : BaseNodeSchema).
Context (Hkind : is_name (kind schema) = true).
Context (Hattributes : Forall (λ name, is_name name = true) (attribute_names schema)).
Context (Hrelationships : Forall (λ name, is_name name = true) (relationship_names schema)).

Lemma with_alias_entry name d : is_name name = true →
  d = attribute_query_data ∨ d = related_query_data [] ∨ d = manager_query_data [] → field_entry (name, with_alias o schema name d).
Proof.
  intros Hn Hd. pose proof (alias_name _ _ Hkind Hn) as Ha. unfold with_alias. destruct (sl_insert_alias o).
  - destruct Hd as [->|[->| ->]]; (apply dict_field_entry; [done| |done|done]);
      cbn [plain_heading]; unfold plain_heading; cbn [option_of]; unfold option_of, filter_items, option_of;
      match goal with |- context [dict_get ?d ALIAS_KEY] => change (dict_get d ALIAS_KEY) with (Some (JStr ("__alias__" +:+ kind schema +:+ "__" +:+ name))) end;
      cbn [truthy_json]; rewrite bool_decide_eq_false_2 by done; cbn [negb]; by rewrite Ha, Hn.
  - destruct Hd as [->|[->| ->]]; (apply dict_field_entry; [done| |done|done]); unfold plain_heading; cbn; unfold field_name; by rewrite Hn.
Qed.

Definition wanted (name : string) : Prop :=
  (∃ a, get_attribute schema name = Ok a ∧ wants_attribute o a = true) ∨ (∃ r, get_relationship schema name = Ok r ∧ wants_relationship o r = true).

(** A fold that adds a field for some of the names *)
Lemma fold_fields (step : list (string * json) → string → list (string * json)) (P : string → Prop) names : ∀ data,
  (∀ data name, name ∈ names → Forall field_entry data →
     Forall field_entry (step data name) ∧ ∀ k, k ∈ dict_keys (step data name) ↔ k ∈ dict_keys data ∨ k = name ∧ P name) →
  Forall field_entry data →
  Forall field_entry (foldl step data names) ∧ ∀ k, k ∈ dict_keys (foldl step data names) ↔ k ∈ dict_keys data ∨ k ∈ names ∧ P k.
Proof.
  induction names as [|name names IH]; intros data Hstep Hdata; cbn [foldl].
  - split; [done|]. intros k. rewrite elem_of_nil. naive_solver.
  - destruct (Hstep data name) as [Hd Hk]; [by left|done|].
    destruct (IH (step data name)) as [Hd' Hk']; [intros; apply Hstep; [by right|done]|done|].
    split; [done|]. intros k. rewrite Hk', Hk, elem_of_cons. naive_solver.
Qed.
Lemma add_field data name v (P : Prop) : P → Forall field_entry data → field_entry (name, v) →
  Forall field_entry (dict_set data name v) ∧ ∀ k, k ∈ dict_keys (dict_set data name v) ↔ k ∈ dict_keys data ∨ k = name ∧ P.
Proof.
  intros HP Hd Hv. split; [|intros k; rewrite elem_of_dict_keys_set; naive_solver].
  apply Forall_forall. intros kv Hkv%elem_of_dict_set. destruct Hkv as [Hkv| ->]; [|done]. by apply (proj1 (Forall_forall _ _) Hd).
Qed.
Lemma keep_fields data name (P : Prop) : ¬ P → Forall field_entry data →
  Forall field_entry data ∧ ∀ k : string, k ∈ dict_keys data ↔ k ∈ dict_keys data ∨ k = name ∧ P.
Proof. intros HP Hd. split; [done|]. naive_solver. Qed.

Lemma attribute_fields_spec : Forall field_entry (attribute_fields o schema) ∧
  ∀ k, k ∈ dict_keys (attribute_fields o schema) ↔
    k ∈ attribute_names schema ∧ ∃ a, get_attribute schema k = Ok a ∧ wants_attribute o a = true.
Proof.
  destruct (fold_fields (λ data name, match get_attribute schema name with
      | Ok a => if wants_attribute o a then dict_set data name (with_alias o schema name attribute_query_data) else data | Err _ => data end)
      (λ k, ∃ a, get_attribute schema k = Ok a ∧ wants_attribute o a = true) (attribute_names schema) []) as [Hd Hk]; [|done|].
  - intros data name Hname Hdata. destruct (get_attribute schema name) as [a|]; [|by apply keep_fields; [intros (? & ? & _)|]].
    destruct (wants_attribute o a) eqn:Hw; [|by apply keep_fields; [intros (? & [= <-] & ?); congruence|]].
    apply add_field; [by exists a|done|]. apply with_alias_entry; [by apply (proj1 (Forall_forall _ _) Hattributes)|by left].
  - split; [done|]. intros k. rewrite (Hk k). cbn. rewrite elem_of_nil. naive_solver.
Qed.

Lemma attribute_known k a : get_attribute schema k = Ok a → k ∈ attribute_names schema.
Proof.
  unfold get_attribute, get_attribute_or_none, attribute_names. destruct (list_find _ _) as [[i b]|] eqn:Hf; [|done]. intros _.
  apply list_find_Some in Hf as (Hi & <- & _). apply list_elem_of_fmap_2, (list_elem_of_lookup_2 _ _ _ Hi).
Qed.
Lemma relationship_known k r : get_relationship schema k = Ok r → k ∈ relationship_names schema.
Proof.
  unfold get_relationship, get_relationship_or_none, relationship_names. destruct (list_find _ _) as [[i b]|] eqn:Hf; [|done]. intros _.
  apply list_find_Some in Hf as (Hi & <- & _). apply list_elem_of_fmap_2, (list_elem_of_lookup_2 _ _ _ Hi).
Qed.
Lemma known_relationship k : k ∈ relationship_names schema → ∃ r, get_relationship schema k = Ok r.
Proof.
  intros (r & -> & Hr)%list_elem_of_fmap. unfold get_relationship, get_relationship_or_none.
  destruct (list_find_elem_of (λ item, rs_name item = rs_name r) _ r Hr) as [[i b] ->]; [done|]. by eexists.
Qed.

(** The fields asked for: the attributes and the relationships that are wanted, and no other. *)
Lemma node_fields_spec : Forall field_entry (node_fields o schema) ∧ ∀ k, k ∈ dict_keys (node_fields o schema) ↔ wanted k.
Proof.
  destruct attribute_fields_spec as [Ha Hka].
  destruct (fold_fields (add_relationship_fields o schema []) (λ k, ∃ r, get_relationship schema k = Ok r ∧ wants_relationship o r = true)
      (relationship_names schema) (attribute_fields o schema)) as [Hd Hk]; [|done|].
  - intros data name Hname Hdata. unfold add_relationship_fields.
    destruct (get_relationship schema name) as [r|]; [|by apply keep_fields; [intros (? & ? & _)|]].
    destruct (wants_relationship o r) eqn:Hw; [|by apply keep_fields; [intros (? & [= <-] & ?); congruence|]].
    apply add_field; [by exists r|done|]. apply with_alias_entry; [by apply (proj1 (Forall_forall _ _) Hrelationships)|].
    unfold relationship_query_data. destruct (rs_cardinality r); auto.
  - split; [done|]. intros k. unfold node_fields. rewrite (Hk k), Hka. unfold wanted.
    pose proof attribute_known. pose proof relationship_known. naive_solver.
Qed.
End fields.

(** The fields that the parameters [include] and [exclude] ask for, in the words of the schema *)
Definition asked (include exclude : list string) (schema : BaseNodeSchema) (name : string) : Prop :=
  (name ∉ exclude) ∧
  (name ∈ attribute_names schema ∨
   ∃ r, r ∈ bs_relationships schema ∧ rs_name r = name ∧
     (rs_cardinality r = ONE ∨ rs_kind r = ATTRIBUTE ∨ rs_kind r = PARENT ∨ name ∈ include)).
Lemma get_attribute_name schema k a : get_attribute schema k = Ok a → as_name a = k.
Proof.
  unfold get_attribute, get_attribute_or_none. destruct (list_find _ _) as [[i b]|] eqn:Hf; [|done]. intros [= <-].
  by apply list_find_Some in Hf as (_ & <- & _).
Qed.
Lemma get_relationship_name schema k r : get_relationship schema k = Ok r → rs_name r = k ∧ r ∈ bs_relationships schema.
Proof.
  unfold get_relationship, get_relationship_or_none. destruct (list_find _ _) as [[i b]|] eqn:Hf; [|done]. intros [= <-].
  apply list_find_Some in Hf as (Hi & <- & _). split; [done|apply (list_elem_of_lookup_2 _ _ _ Hi)].
Qed.
Lemma known_attribute schema k : k ∈ attribute_names schema → ∃ a, get_attribute schema k = Ok a.
Proof.
  intros (a & -> & Ha)%list_elem_of_fmap. unfold get_attribute, get_attribute_or_none.
  destruct (list_find_elem_of (λ item, as_name item = as_name a) _ a Ha) as [[i b] ->]; [done|]. by eexists.
Qed.
Lemma wanted_asked include exclude schema k : NoDup (relationship_names schema) →
  wanted (mkSelection include exclude true false) schema k ↔ asked include exclude schema k.
Proof.
  intros Hnd. unfold wanted, asked, wants_attribute, wants_relationship. cbn [sl_inherited sl_exclude sl_include orb].
  setoid_rewrite andb_true_r. setoid_rewrite andb_true_iff. setoid_rewrite negb_true_iff. setoid_rewrite orb_true_iff. setoid_rewrite orb_true_iff.
  setoid_rewrite bool_decide_eq_false. setoid_rewrite bool_decide_eq_true. split.
  - intros [(a & Ha & Hw)|(r & Hr & Hx & Hw)].
    + pose proof (attribute_known _ _ _ Ha). apply get_attribute_name in Ha as <-. tauto.
    + apply get_relationship_name in Hr as [<- Hr]. split; [done|]. right. exists r. tauto.
  - intros [Hx [(a & Ha)%known_attribute|(r & Hr & <- & Hw)]].
    + left. exists a. by rewrite (get_attribute_name _ _ _ Ha).
    + right. exists r. rewrite (get_relationship_elem _ _ Hnd Hr). tauto.
Qed.

Section documents.
Context `{SetOrder}.
Context (server : nat → string → list string → result (list BaseNodeSchema * list BaseNodeSchema * list BaseNodeSchema)).
Context (default_branch : string).

(** Without reading ahead, the cache of the schemas is not used. *)
Lemma query_data_node o schema c : generate_query_data_node server default_branch o false schema c = (Ok (node_fields o schema), c).
Proof.
  unfold generate_query_data_node, node_fields. generalize (attribute_fields o schema) as data.
  assert (∀ name, name ∈ relationship_names schema → ∃ r, get_relationship schema name = Ok r) as Hall by apply known_relationship.
  induction (relationship_names schema) as [|name names IH]; intros data; [done|]. cbn [fold_exec foldl].
  destruct (Hall name) as [r Hr]; [by left|]. rewrite Hr, andb_false_r. erewrite exec_step by reflexivity.
  apply IH. intros k Hk. apply Hall. by right.
Qed.

Lemma fields_not_option items k : Forall field_entry items → k ∈ KEYWORDS_TO_SKIP → option_of items k = None.
Proof.
  intros Hall Hk. unfold option_of. replace (dict_get items k) with (@None json); [done|]. symmetry. apply dict_get_None.
  intros ([k' v] & -> & Hin)%list_elem_of_fmap. apply (proj1 (Forall_forall _ _) Hall) in Hin as [_ Hr].
  unfold rendered in Hr. cbn [fst] in *. by rewrite bool_decide_eq_true_2 in Hr.
Qed.
Lemma fields_entry key items : is_name key = true → items ≠ [] → Forall field_entry items →
  field_entry (key, JDict items) ∧ entry_selections (key, JDict items) = [Sel None key [] (selections_of written (JDict items))].
Proof.
  intros Hkey Hne Hall. pose proof (name_not_keyword _ Hkey) as Hkw.
  pose proof (fields_not_option _ ALIAS_KEY Hall ltac:(unfold KEYWORDS_TO_SKIP; set_solver)) as Ha.
  pose proof (fields_not_option _ FILTERS_KEY Hall ltac:(unfold KEYWORDS_TO_SKIP; set_solver)) as Hf.
  assert (only_alias items = false) as Ho by (unfold only_alias; by rewrite Ha, andb_false_r).
  split.
  - apply dict_field_entry; [done| |done|by apply field_entries_plain]. unfold plain_heading, filter_items, field_name. by rewrite Ha, Hf, Hkey.
  - unfold entry_selections. cbn [fst snd]. rewrite decide_False, Ho, Ha by done. unfold filters_of, filter_items. by rewrite Hf.
Qed.

Lemma update_fields base items : Forall field_entry base → Forall field_entry items → Forall field_entry (dict_update base items).
Proof.
  unfold dict_update. intros Hbase Hitems. revert base Hbase. induction Hitems as [|[k v] items Hv _ IH]; intros base Hbase; [done|].
  apply IH, (add_field base k v True); done.
Qed.

#[local] Abbreviation base_fields := [("id", JNull); ("hfid", JNull); ("display_label", JNull); ("__typename", JNull)].
Lemma base_fields_entries : Forall field_entry base_fields.
Proof. repeat constructor. Qed.

Lemma query_filters_plain filters offset limit partial_match : Forall (λ kv, is_name kv.1 = true ∧ plain_value kv.2 = true) filters →
  Forall (λ kv, is_name kv.1 = true ∧ plain_value kv.2 = true) (query_filters filters offset limit partial_match).
Proof.
  intros Hall. set (Pl := λ kv : string * json, is_name kv.1 = true ∧ plain_value kv.2 = true) in *.
  assert (∀ d k v, Pl (k, v) → Forall Pl d → Forall Pl (dict_set d k v)) as Hset.
  { intros d k v Hv Hd. apply Forall_forall. intros kv [Hkv| ->]%elem_of_dict_set; [|done]. by apply (proj1 (Forall_forall _ _) Hd). }
  unfold query_filters. destruct offset, limit, partial_match; repeat case_match; repeat (apply Hset; [done|]); done.
Qed.
(** The dictionary of a query: the filters are read back with the page. *)
Lemma query_document name items filters : is_name name = true → items ≠ [] → Forall field_entry items →
  Forall (λ kv, is_name kv.1 = true ∧ plain_value kv.2 = true) filters →
  let data := [(name, JDict [("count", JNull); ("edges", JDict [("node", JDict items)]); (FILTERS_KEY, JDict filters)])] in
  plain_query (JDict data) = true ∧
  selections_of written (JDict data) = [Sel None name (arguments_of written filters)
    [Sel None "count" [] []; Sel None "edges" [] [Sel None "node" [] (selections_of written (JDict items))]]].
Proof.
  intros Hname Hne Hitems Hfilters. cbn zeta. pose proof (name_not_keyword _ Hname) as Hkw.
  destruct (fields_entry "node" items) as [Hnode Hnodes]; [done..|].
  destruct (fields_entry "edges" [("node", JDict items)]) as [Hedges Hedge]; [done|done|by constructor|].
  set (content := [("count", JNull); ("edges", JDict [("node", JDict items)]); (FILTERS_KEY, JDict filters)]).
  assert (filter_items content = Ok filters) as Hf.
  { unfold filter_items, option_of. change (dict_get content FILTERS_KEY) with (Some (JDict filters)). cbn [truthy_json]. by destruct filters. }
  assert (plain_query (JDict content) = true) as Hcontent.
  { change (existsb rendered content && forallb plain_entry content = true). apply andb_true_iff. split; [done|].
    unfold content. cbn [forallb]. destruct Hedges as [-> _]. done. }
  split.
  - apply field_entries_plain; [done|]. constructor; [|done]. apply dict_field_entry; [done| |done|done].
    unfold plain_heading, field_name. change (option_of content ALIAS_KEY) with (@None json). rewrite Hf, Hname. cbn [orb andb].
    apply forallb_Forall, (Forall_impl _ _ _ Hfilters). intros kv [-> ->]. done.
  - rewrite selections_of_dict. cbn [fmap list_fmap concat]. unfold entry_selections at 1. cbn [fst snd]. rewrite decide_False by done.
    change (only_alias content) with false. change (option_of content ALIAS_KEY) with (@None json). cbn iota. rewrite app_nil_r. unfold filters_of.
    rewrite Hf. cbn [fmap option_fmap option_map]. do 2 f_equal. rewrite selections_of_dict. unfold content. cbn [fmap list_fmap concat].
    rewrite Hedge, selections_of_dict. cbn [fmap list_fmap concat]. rewrite Hnodes. done.
Qed.

(** The arguments of the page: an offset and a limit that are not zero, and the flag *)
Definition page_argument (offset limit : option Z) (partial_match : bool) (k : string) : option gvalue :=
  let number (n : option Z) := n ← n; if decide (n = 0%Z) then None else Some (GInt (pretty n)) in
  if decide (k = "offset") then number offset
  else if decide (k = "limit") then number limit
  else if decide (k = "partial_match") then if partial_match then Some (GBool true) else None
  else None.
Lemma arguments_NoDup none filters offset limit partial_match : NoDup (dict_keys filters) →
  NoDup (dict_keys (arguments_of none (query_filters filters offset limit partial_match))).
Proof.
  intros Hd. assert (∀ d, dict_keys (arguments_of none d) = dict_keys d) as -> by (intros d; unfold dict_keys, arguments_of; by rewrite <-list_fmap_compose).
  unfold query_filters. destruct offset, limit, partial_match; repeat case_match; repeat apply NoDup_dict_set; done.
Qed.
Lemma dict_get_no_none filters k : no_none (JDict filters) = true → gvalue_of written <$> dict_get filters k = gvalue_of GNull <$> dict_get filters k.
Proof.
  intros Hnone. destruct (dict_get filters k) as [v|] eqn:Hv; [|done]. cbn. f_equal. apply gvalue_of_no_none. cbn in Hnone.
  rewrite forallb_forall in Hnone. apply (Hnone (k, v)), list_elem_of_In. by apply dict_get_Some_in.
Qed.
Lemma page_arguments none filters offset limit partial_match k :
  dict_get (arguments_of none (query_filters filters offset limit partial_match)) k =
  match page_argument offset limit partial_match k with Some v => Some v | None => gvalue_of none <$> dict_get filters k end.
Proof.
  assert (∀ d, dict_get (arguments_of none d) k = gvalue_of none <$> dict_get d k) as ->.
  { unfold arguments_of. intros d. induction d as [|[k' v] d IH]; [done|]. rewrite fmap_cons. cbn. by case_decide. }
  unfold query_filters, page_argument. cbv beta zeta.
  assert (∀ d key n, gvalue_of none <$> dict_get (match n with Some n => if (n =? 0)%Z then d else dict_set d key (JInt n) | None => d end) k =
    match (if decide (k = key) then n ← n; if decide (n = 0%Z) then None else Some (GInt (pretty n)) else None) with
    | Some v => Some v | None => gvalue_of none <$> dict_get d k end) as Hnumber.
  { intros d key [n|]; cbn; [|by case_decide]. destruct (Z.eqb_spec n 0) as [->|Hn]; [by case_decide|].
    rewrite dict_get_set. destruct (decide (k = key)) as [->|Hk]; [by rewrite (decide_False _ _ Hn), decide_True|by rewrite decide_False]. }
  assert (gvalue_of none <$> dict_get (if partial_match then dict_set (query_filters filters offset limit false) "partial_match" (JBool true)
    else query_filters filters offset limit false) k =
    if decide (k = "partial_match" ∧ partial_match = true) then Some (GBool true)
    else gvalue_of none <$> dict_get (query_filters filters offset limit false) k) as Hp.
  { destruct partial_match; [rewrite dict_get_set|by rewrite decide_False by naive_solver]. destruct (decide ("partial_match" = k)) as [<-|];
      [by rewrite decide_True|by rewrite (decide_False (P := _ ∧ _)) by naive_solver]. }
  unfold query_filters in Hp. cbv beta zeta in Hp. rewrite Hp, !Hnumber. destruct partial_match; repeat case_decide; try done; try (by naive_solver).
Qed.

(** C22: The query for the nodes of a kind, the fragments and the peers left aside: the
    server reads as arguments, each once, the filters given and those of the page (an offset
    and a limit that are not zero, the flag of partial matches), which win over a filter of
    the same name; and for each node its identifiers and exactly its attributes and those of
    its relationships that are single, hold its parent or are attributes, or that are
    included, less what is excluded.  For a kind, fields and filters whose names are names
    of GraphQL, distinct relationships, values of the filters that are integers, booleans,
    lists of them, variables or texts without quote, escape or end of line (and not [None]),
    and when nothing is both included and excluded. *)
Theorem query_asks (filters : list (string * json)) (offset limit : option Z) (include exclude : list string) (partial_match : bool)
    (schema : BaseNodeSchema) (c : SchemaCache)
    (Hkind : is_name (kind schema) = true)
    (Hattributes : Forall (λ name, is_name name = true) (attribute_names schema))
    (Hrelationships : Forall (λ name, is_name name = true) (relationship_names schema))
    (Hdistinct : NoDup (relationship_names schema))
    (Hfilters : Forall (λ kv, is_name kv.1 = true ∧ plain_value kv.2 = true) filters)
    (Hnone : no_none (JDict filters) = true)
    (Honce : NoDup (dict_keys filters))
    (Hboth : (compare_lists include exclude).1.1 = []) :
  ∃ data text args node,
    generate_query_data server default_branch filters offset limit include exclude false false partial_match schema c = (Ok data, c) ∧
    render_query (mkGraphQLQuery data None "") = Ok text ∧
    read_document text = Some (mkOperation "query" "" []
      [Sel None (kind schema) args [Sel None "count" [] []; Sel None "edges" [] [Sel None "node" [] node]]]) ∧
    NoDup (dict_keys args) ∧
    (∀ k, dict_get args k =
       match page_argument offset limit partial_match k with Some v => Some v | None => gvalue_of GNull <$> dict_get filters k end) ∧
    ∀ k, k ∈ sel_name <$> node ↔
      k ∈ ["id"; "hfid"; "display_label"; "__typename"] ∨ asked include exclude schema k.
Proof.
  destruct (node_fields_spec (mkSelection include exclude true false) schema Hkind Hattributes Hrelationships) as [Hfields Hwanted].
  set (items := dict_update base_fields (node_fields (mkSelection include exclude true false) schema)).
  pose proof (update_fields _ _ base_fields_entries Hfields) as Hitems. fold items in Hitems.
  assert (∀ k, k ∈ dict_keys items ↔ k ∈ dict_keys base_fields ∨ wanted (mkSelection include exclude true false) schema k) as Hkeys.
  { intros k. unfold items. by rewrite dict_keys_update, Hwanted. }
  assert (items ≠ []) as Hne.
  { intros He. specialize (Hkeys "id"). rewrite He in Hkeys. apply (not_elem_of_nil "id"), Hkeys. left. by left. }
  destruct (query_document (kind schema) items (query_filters filters offset limit partial_match)) as [Hplain Hsel]; [done..|by apply query_filters_plain|].
  set (data := [(kind schema, _)]) in *.
  destruct (query_reads (mkGraphQLQuery data None "")) as (text & Htext & Hread); [unfold plain_base; cbn [gq_name gq_variables gq_query]; by rewrite Hplain|].
  exists data, text, (arguments_of written (query_filters filters offset limit partial_match)), (selections_of written (JDict items)).
  split_and!; [|done|rewrite Hread; cbn [gq_name gq_variables gq_query]; by rewrite Hsel|by apply arguments_NoDup| |
    intros k; by rewrite selection_names, Hkeys, wanted_asked].
  2: { intros k. rewrite page_arguments, (dict_get_no_none filters k) by done. done. }
  unfold generate_query_data, generate_query_data_init. rewrite Hboth. erewrite exec_step by reflexivity. cbn beta iota.
  erewrite exec_step by apply query_data_node. cbn beta iota. erewrite exec_step by (by destruct (bs_class schema)). done.
Qed.
End documents.

(** A kind with two attributes and two relationships, of which the query excludes one attribute
    and asks for the tags. *)
#[local] Abbreviation schema_of name attributes relationships :=
  (mkBaseNodeSchema (NodeSchema [] None None None) None PRESENT name None "Infra" None attributes relationships []).
#[local] Abbreviation rack_schema :=
  (schema_of "Rack" [attribute_schema "name" "Text"; attribute_schema "height" "Number"]
     [relationship_schema "tags" "BuiltinTag"; relationship_schema "devices" "InfraDevice"]).
#[local] Abbreviation no_server := (λ (_ : nat) (_ : string) (_ : list string), Err (RuntimeError "no server")).
Lemma query_asks_witness :
  ∃ data text args node,
    @generate_query_data insertion_order no_server "main" [("name__value", JStr "r1")] None (Some 10%Z) ["tags"] ["height"] false false true rack_schema
      (mkSchemaCache [] 0) = (Ok data, mkSchemaCache [] 0) ∧
    render_query (mkGraphQLQuery data None "") = Ok text ∧
    read_document text = Some (mkOperation "query" "" []
      [Sel None "InfraRack" args [Sel None "count" [] []; Sel None "edges" [] [Sel None "node" [] node]]]) ∧
    dict_get args "name__value" = Some (GStr "r1") ∧ dict_get args "limit" = Some (GInt "10") ∧ dict_get args "offset" = None ∧
    ∀ k, k ∈ sel_name <$> node ↔
      k ∈ ["id"; "hfid"; "display_label"; "__typename"] ∨ asked ["tags"] ["height"] rack_schema k.
Proof.
  destruct (@query_asks insertion_order no_server "main" [("name__value", JStr "r1")] None (Some 10%Z) ["tags"] ["height"] true rack_schema (mkSchemaCache [] 0))
    as (data & text & args & node & Hd & Ht & Hr & _ & Hargs & Hk).
  - reflexivity.
  - by repeat constructor.
  - by repeat constructor.
  - apply NoDup_cons. split; [by intros ?%list_elem_of_singleton|apply NoDup_singleton].
  - by repeat constructor.
  - reflexivity.
  - apply NoDup_singleton.
  - reflexivity.
  - exists data, text, args, node. split_and!; [exact Hd|exact Ht|exact Hr|by rewrite Hargs|by rewrite Hargs|by rewrite Hargs|exact Hk].
Defined.

(** The peers are read ahead with the schemas of the default branch: for a node of another
    branch, whose kind has a relationship to a kind that only this branch has, the query is
    refused though the schema of the peer is cached for the branch. *)
Theorem prefetch_ignores_branch :
  let device := schema_of "Device" [attribute_schema "name" "Text"] [] in
  let rack := schema_of "Rack" [attribute_schema "name" "Text"] [relationship_schema "devices" "InfraDevice"] in
  let server (_ : nat) branch (_ : list string) :=
    Ok (if decide (branch = "b2") then [rack; device] else [], @nil BaseNodeSchema, @nil BaseNodeSchema) in
  let run branch :=
    (_ ← get server "InfraRack" "b2" false;
     @generate_query_data insertion_order server branch [] None None ["devices"] [] false true false rack) (mkSchemaCache [] 0) in
  (run "main").1 = Err (SchemaNotFoundError "InfraDevice") ∧ ∃ data, (run "b2").1 = Ok data.
Proof. split; [by vm_compute|]. eexists. by vm_compute. Qed.
