(* ===== verification/Auth.v ===== *)
(** * Authentication and permissions

    [auth.py], [core/account.py], [models.py], [api/auth.py], [api/dependencies.py]: the
    login with a password, the access and refresh tokens, the API keys, the session of a
    request; [graphql/auth] with the analysis of [python_sdk/infrahub_sdk/analyzer.py]: which
    GraphQL documents a session may execute; [graphql/mutations/account.py]: what an account
    changes of itself.

    JWT, bcrypt and the query that looks for an API key are parameters.  The database is a
    dictionary of the nodes that this part reads and writes; a uuid is its canonical text.
    Times are seconds, and the clock does not advance during a request. *)

From stdpp Require Import prelude strings.
From S2P Require Import Prelude PyString PyDict SdkUtils.

#[local] Open Scope nat_scope.

(** ** Sessions *)

Inductive AuthType := NONE | JWT | API.
#[export] Instance AuthType_eq_dec : EqDecision AuthType.
Proof. solve_decision. Defined.

Record AccountSession := mkAccountSession {
  authenticated : bool;
  account_id : string;
  session_id : option string;
  role : string;
  auth_type : AuthType;
}.
Definition read_only (s : AccountSession) : bool := bool_decide (role s = "read-only").
Definition authenticated_by_jwt (s : AccountSession) : bool := bool_decide (auth_type s = JWT).
Definition anonymous_session : AccountSession := mkAccountSession false "anonymous" None "read-only" NONE.

Record PasswordCredential := mkPasswordCredential { username : string; password : string }.
Record UserToken := mkUserToken { access_token : string; refresh_token : string }.
Record RefreshTokenData := mkRefreshTokenData { rd_account_id : string; rd_session_id : string }.

(** What [jwt] computes with the secret key of the server: a token for a payload, and the
    payload of a token at a time. *)
Definition Claims : Type := list (string * json).
Inductive Decoded := Payload (p : Claims) | ExpiredSignatureError | InvalidTokenError.
Class Jwt := { jwt_encode : Claims → string; jwt_decode : Z → string → Decoded }.

(** ** The database *)

Record Account := mkAccount {
  ac_name : string;
  ac_password : option string;
  ac_role : string;
  ac_description : option string;
}.
#[export] Instance Account_rebuild : Rebuild Account := λ a, mkAccount (ac_name a) (ac_password a) (ac_role a) (ac_description a).
Inductive DbNode :=
  | NAccount (a : Account)
  | NRefreshToken (account : string) (expiration : Z)
  | NAccountToken (account token : string) (name expiration : option string)
  | NOther.

(** The nodes of the database with their ids, the time, and how many ids were generated. *)
Record World := mkWorld { w_nodes : list (string * DbNode); w_clock : Z; w_ids : nat }.
#[export] Instance World_rebuild : Rebuild World := λ w, mkWorld (w_nodes w) (w_clock w) (w_ids w).

(** What the code asks of the settings *)
Record Settings := mkSettings { access_token_lifetime : Z; refresh_token_lifetime : Z; allow_anonymous_access : bool }.

Section auth.
Context `{Jwt} (settings : Settings).
(** [bcrypt.checkpw] and the digest of a password with a salt; [str(UUIDT())] of the n-th call *)
Context (checkpw : string → string → result bool) (hash_password : nat → string → string) (uuid : nat → string).

Definition now : Exec World Z := gets w_clock.
Definition new_id : Exec World string := n ← gets w_ids; _ ← modify (λ w, w <| w_ids := S n |>); mret (uuid n).
(** [NodeManager.get_one], without kind *)
Definition get_one (id : string) : Exec World (option DbNode) := gets (λ w, dict_get (w_nodes w) id).
Definition save_node (id : string) (n : DbNode) : Exec World unit := modify (λ w, w <| w_nodes := dict_set (w_nodes w) id n |>).
Definition delete_node (id : string) : Exec World unit := modify (λ w, w <| w_nodes := dict_del (w_nodes w) id |>).

(** ** Tokens *)

Definition access_data (at_ : Z) (account_id role session_id : string) : Claims :=
  [("sub", JStr account_id); ("iat", JInt at_); ("nbf", JInt at_); ("exp", JInt (at_ + access_token_lifetime settings));
   ("fresh", JBool false); ("type", JStr "access"); ("session_id", JStr session_id); ("user_claims", JDict [("role", JStr role)])].
Definition generate_access_token (account_id role session_id : string) : Exec World string :=
  now ← now; mret (jwt_encode (access_data now account_id role session_id)).
Definition refresh_data (at_ : Z) (account_id session_id : string) (expiration : Z) : Claims :=
  [("sub", JStr account_id); ("iat", JInt at_); ("nbf", JInt at_); ("exp", JInt expiration); ("fresh", JBool false);
   ("type", JStr "refresh"); ("session_id", JStr session_id)].
Definition generate_refresh_token (account_id session_id : string) (expiration : Z) : Exec World string :=
  now ← now; mret (jwt_encode (refresh_data now account_id session_id expiration)).

Definition create_db_refresh_token (account_id : string) (expiration : Z) : Exec World string :=
  id ← new_id; _ ← save_node id (NRefreshToken account_id expiration); mret id.

(** [NodeManager.query] of the accounts of a name, limited to one *)
Definition account_of_name (username : string) (nodes : list (string * DbNode)) : option (string * Account) :=
  head (omap (λ kv, match kv.2 with NAccount a => if decide (ac_name a = username) then Some (kv.1, a) else None | _ => None end) nodes).
Definition authenticate_with_password (credentials : PasswordCredential) : Exec World UserToken :=
  response ← gets (λ w, account_of_name (username credentials) (w_nodes w));
  match response with
  | None => raise (NodeNotFoundError (username credentials))
  | Some (id, account) =>
      valid_credentials ← lift (checkpw (password credentials) (default "" (ac_password account)));
      if negb valid_credentials then raise (AuthorizationError "Incorrect password") else
      now ← now;
      let refresh_expires := (now + refresh_token_lifetime settings)%Z in
      session_id ← create_db_refresh_token id refresh_expires;
      access_token ← generate_access_token id (ac_role account) session_id;
      refresh_token ← generate_refresh_token id session_id refresh_expires;
      mret (mkUserToken access_token refresh_token)
  end.

Definition create_fresh_access_token (data : RefreshTokenData) : Exec World string :=
  refresh_token ← get_one (rd_session_id data);
  match refresh_token with
  | None => raise (AuthorizationError "The provided refresh token has been invalidated in the database")
  | Some _ =>
      account ← get_one (rd_account_id data);
      match account with
      | None => raise (NodeNotFoundError (rd_account_id data))
      | Some (NAccount account) => generate_access_token (rd_account_id data) (ac_role account) (rd_session_id data)
      | Some _ => raise (AttributeError "role")
      end
  end.
Definition invalidate_refresh_token (token_id : string) : Exec World unit :=
  refresh_token ← get_one token_id;
  match refresh_token with Some _ => delete_node token_id | None => mret tt end.

(** [payload[key]], and a field that must be a text *)
Definition claim (p : Claims) (key : string) : option json := dict_get p key.
Definition text_field (v : json) : result string := match v with JStr s => Ok s | _ => Err (ValidationError "Input should be a valid string") end.
Definition decode (token : string) : Exec World Claims :=
  now ← now;
  match jwt_decode now token with
  | Payload p => mret p
  | ExpiredSignatureError => raise (AuthorizationError "Expired Signature")
  | InvalidTokenError => raise (AuthorizationError "Invalid token")
  end.
Definition claim_or_invalid (p : Claims) (key : string) : Exec World json :=
  match claim p key with Some v => mret v | None => raise (AuthorizationError "Invalid token") end.
Definition role_claim (p : Claims) : option json :=
  match claim p "user_claims" with Some (JDict d) => dict_get d "role" | _ => None end.
Definition type_claim (p : Claims) : Exec World json :=
  match claim p "type" with Some v => mret v | None => raise (KeyError "type") end.

Definition validate_jwt_access_token (token : string) : Exec World AccountSession :=
  payload ← decode token;
  account_id ← claim_or_invalid payload "sub";
  role ← (match role_claim payload with Some v => mret v | None => raise (AuthorizationError "Invalid token") end);
  session_id ← claim_or_invalid payload "session_id";
  type ← type_claim payload;
  if negb (bool_decide (type = JStr "access")) then raise (AuthorizationError "Invalid token, current token is not an access token") else
  account_id ← lift (text_field account_id);
  role ← lift (text_field role);
  session_id ← lift (match session_id with JNull => Ok None | v => Some <$> text_field v end);
  mret (mkAccountSession true account_id session_id role JWT).
Definition validate_jwt_refresh_token (token : string) : Exec World RefreshTokenData :=
  payload ← decode token;
  account_id ← claim_or_invalid payload "sub";
  session_id ← claim_or_invalid payload "session_id";
  type ← type_claim payload;
  if negb (bool_decide (type = JStr "refresh")) then raise (AuthorizationError "Invalid token, current token is not a refresh token") else
  account_id ← lift (text_field account_id);
  session_id ← lift (text_field session_id);
  mret (mkRefreshTokenData account_id session_id).

(** ** API keys *)

(** The account of a row of [AccountTokenValidateQuery], and its role *)
Record TokenRow := mkTokenRow { tr_account_id : string; tr_role : string }.
Context (token_rows : list (string * DbNode) → string → list TokenRow).
Definition get_account_id (rows : list TokenRow) : option string := tr_account_id <$> head rows.
Definition get_account_role (rows : list TokenRow) : string := from_option tr_role "read-only" (head rows).
Definition validate_token (token : string) : Exec World (option string * string) :=
  rows ← gets (λ w, token_rows (w_nodes w) token); mret (get_account_id rows, get_account_role rows).
Definition validate_api_key (token : string) : Exec World AccountSession :=
  '(account_id, role) ← validate_token token;
  match account_id with
  | Some (String c id) => mret (mkAccountSession true (String c id) None role API)
  | _ => raise (AuthorizationError "Invalid token")
  end.

Definition authentication_token (jwt_token api_key : option string) : Exec World AccountSession :=
  match api_key, jwt_token with
  | Some (String c s), _ => validate_api_key (String c s)
  | _, Some (String c s) => validate_jwt_access_token (String c s)
  | _, _ => mret anonymous_session
  end.

(** ** The HTTP handlers *)

Record HttpRequest := mkHttpRequest {
  rq_bearer : option string;
  rq_access_cookie : option string;
  rq_refresh_cookie : option string;
  rq_api_key : option string;
  rq_method : string;
  rq_path : string;
}.
Definition get_access_token (r : HttpRequest) : Exec World AccountSession :=
  match rq_bearer r, rq_access_cookie r with
  | Some token, _ => validate_jwt_access_token token
  | None, Some (String c s) => validate_jwt_access_token (String c s)
  | None, _ => raise (AuthorizationError "A JWT access token is required to perform this operation.")
  end.
(** [a or b] *)
Definition or_else (a b : option string) : option string := match a with Some (String c s) => a | _ => b end.
Definition get_refresh_token (r : HttpRequest) : Exec World RefreshTokenData :=
  match or_else (rq_bearer r) (rq_refresh_cookie r) with
  | Some (String c s) => validate_jwt_refresh_token (String c s)
  | _ => raise (AuthorizationError "A JWT refresh token is required to perform this operation.")
  end.
Definition get_current_user (r : HttpRequest) : Exec World AccountSession :=
  account_session ← authentication_token (or_else (rq_bearer r) (rq_access_cookie r)) (rq_api_key r);
  if authenticated account_session || startswith (rq_path r) "/graphql" then mret account_session
  else if allow_anonymous_access settings && bool_decide (py_lower (rq_method r) ∈ ["get"; "options"]) then mret account_session
  else if bool_decide (py_lower (rq_method r) = "post") && read_only account_session
  then raise (PermissionDeniedError "You are not allowed to perform this operation")
  else raise (AuthorizationError "Authentication is required").

Definition login_user : PasswordCredential → Exec World UserToken := authenticate_with_password.
Definition refresh_jwt_token (r : HttpRequest) : Exec World string :=
  refresh_token ← get_refresh_token r; create_fresh_access_token refresh_token.
Definition logout (r : HttpRequest) : Exec World unit :=
  user_session ← get_access_token r;
  match session_id user_session with
  | Some (String c s) => invalidate_refresh_token (String c s)
  | _ => mret tt
  end.

(** ** GraphQL documents *)

(** The syntax of a document, as [graphql.parse] gives it, the arguments and the directives
    left aside *)
Inductive OperationType := QUERY | MUTATION | SUBSCRIPTION.
#[export] Instance OperationType_eq_dec : EqDecision OperationType.
Proof. solve_decision. Defined.
Inductive SelectionNode :=
  | FieldNode (alias : option string) (name : string) (selection_set : list SelectionNode)
  | InlineFragmentNode (type_condition : option string) (selection_set : list SelectionNode)
  | FragmentSpreadNode (name : string).
Inductive DefinitionNode :=
  | OperationDefinitionNode (operation : OperationType) (name : option string) (selection_set : list SelectionNode)
  | FragmentDefinitionNode (name type_condition : string) (selection_set : list SelectionNode).
Definition DocumentNode : Type := list DefinitionNode.

Definition nbr_queries (document : DocumentNode) : nat := length document.
Record GraphQLOperation := mkGraphQLOperation { op_name : string; op_operation_type : OperationType }.
Definition field_operation (operation_type : OperationType) (node : SelectionNode) : option GraphQLOperation :=
  match node with FieldNode _ name _ => Some (mkGraphQLOperation name operation_type) | _ => None end.
Definition operations (document : DocumentNode) : list GraphQLOperation :=
  concat ((λ definition, match definition with
                         | OperationDefinitionNode operation _ selections => omap (field_operation operation) selections
                         | FragmentDefinitionNode _ _ _ => [] end) <$> document).
Definition contains_mutation (document : DocumentNode) : bool :=
  existsb (λ op, bool_decide (op_operation_type op = MUTATION)) (operations document).

(** The checkers of [graphql/auth/query_permission_checker], tried in order *)
Record PermissionChecker := mkPermissionChecker {
  supports : AccountSession → bool;
  check_query : DocumentNode → result unit;
}.
Definition read_write_checker : PermissionChecker :=
  mkPermissionChecker (λ s, authenticated s && negb (read_only s)) (λ _, Ok tt).
Definition allowed_readonly_mutations : list string := ["CoreAccountSelfUpdate"].
Definition read_only_checker : PermissionChecker :=
  mkPermissionChecker (λ s, authenticated s && read_only s)
    (for_all (λ operation, raise_if (bool_decide (op_operation_type operation = MUTATION) && negb (bool_decide (op_name operation ∈ allowed_readonly_mutations)))
                (PermissionDeniedError "The current account is not authorized to perform this operation")) ∘ operations).
Definition anonymous_checker : PermissionChecker :=
  mkPermissionChecker (λ s, negb (authenticated s))
    (λ document, raise_if (negb (allow_anonymous_access settings && negb (contains_mutation document)))
                   (AuthorizationError "Authentication is required to perform this operation")).
Definition default_checker : PermissionChecker :=
  mkPermissionChecker (λ _, true) (λ _, Err (AuthorizationError "Authentication is required to perform this operation")).
Fixpoint check_permission (sub_checkers : list PermissionChecker) (account_session : AccountSession) (document : DocumentNode) : result unit :=
  match sub_checkers with
  | [] => Err (PermissionDeniedError "The current account is not authorized to perform this operation")
  | sub_checker :: rest =>
      if supports sub_checker account_session then check_query sub_checker document else check_permission rest account_session document
  end.
Definition build_graphql_query_permission_checker : list PermissionChecker :=
  [read_write_checker; read_only_checker; anonymous_checker; default_checker].

(** [InfrahubGraphQLApp]: the session of a request and the check, before the execution *)
Definition graphql_session (r : HttpRequest) : Exec World AccountSession :=
  let jwt_token := match rq_bearer r with
                   | Some token => Some token
                   | None => match rq_api_key r with Some (String _ _) => None | _ => rq_access_cookie r end end in
  authentication_token jwt_token (rq_api_key r).
Definition handle_graphql {A} (r : HttpRequest) (document : DocumentNode) (execute : AccountSession → Exec World A) : Exec World A :=
  account_session ← graphql_session r;
  _ ← lift (check_permission build_graphql_query_permission_checker account_session document);
  execute account_session.

(** ** Permissions of the mutations on accounts *)

Definition _validate_is_admin (s : AccountSession) : result unit :=
  raise_if (negb (bool_decide (role s = "admin"))) (PermissionError "You are not authorized to perform this operation").
Definition allowed_fields : list string := ["description"; "label"; "password"].
Definition _validate_update_account (s : AccountSession) (node_id : string) (fields : list string) : result unit :=
  if bool_decide (role s = "admin") then Ok tt else
  _ ← raise_if (negb (bool_decide (account_id s = node_id))) (PermissionError "You are not allowed to modify this account");
  for_all (λ field, raise_if (negb (bool_decide (field ∈ allowed_fields))) (PermissionError ("You are not allowed to modify " +:+ field))) fields.
Definition validate_mutation_permissions (operation : string) (s : AccountSession) : result unit :=
  if decide (operation ∈ ["CoreAccountCreate"; "CoreAccountDelete"; "CoreAccountUpsert"]) then _validate_is_admin s else Ok tt.
Definition validate_mutation_permissions_update_node (operation node_id : string) (s : AccountSession) (fields : list string) : result unit :=
  if decide (operation ∈ ["CoreAccountUpdate"; "CoreAccountUpsert"]) then _validate_update_account s node_id fields else Ok tt.

(** ** What an account changes of itself *)

Inductive AccountMutation :=
  | CoreAccountTokenCreate (name expiration : option string)
  | CoreAccountTokenDelete (id : string)
  | CoreAccountSelfUpdate (password description : option string).

(** The result is the token that is created. *)
Definition create_token (account : string) (name expiration : option string) : Exec World (option string) :=
  id ← new_id; token ← new_id; _ ← save_node id (NAccountToken account token name expiration); mret (Some token).
Definition delete_token (account token_id : string) : Exec World (option string) :=
  node ← get_one token_id;
  match node with
  | Some (NAccountToken owner _ _ _) =>
      if decide (owner = account) then _ ← delete_node token_id; mret None else raise (NodeNotFoundError token_id)
  | _ => raise (NodeNotFoundError token_id)
  end.
(** [account.save]: the value of the password is a text, or the digest that was loaded; both are
    hashed ([HashedPassword.serialize_value]). *)
Definition save_account (id : string) (account : Account) : Exec World unit :=
  salt ← gets w_ids; save_node id (NAccount (account <| ac_password := hash_password salt <$> ac_password account |>)).
Definition update_self (id : string) (account : Account) (password description : option string) : Exec World (option string) :=
  let account := match password with Some (String c s) => account <| ac_password := Some (String c s) |> | _ => account end in
  let account := match description with Some (String c s) => account <| ac_description := Some (String c s) |> | _ => account end in
  _ ← save_account id account; mret None.
Definition account_mutate (s : option AccountSession) (data : AccountMutation) : Exec World (option string) :=
  match s with
  | None => raise (ValueError "An account_session is mandatory to execute this mutation")
  | Some s =>
      if negb (authenticated_by_jwt s) then raise (PermissionDeniedError "This operation requires authentication with a JWT token") else
      account ← get_one (account_id s);
      match account with
      | Some (NAccount account) =>
          match data with
          | CoreAccountTokenCreate name expiration => create_token (account_id s) name expiration
          | CoreAccountTokenDelete id => delete_token (account_id s) id
          | CoreAccountSelfUpdate password description => update_self (account_id s) account password description
          end
      | _ => raise (NodeNotFoundError (account_id s))
      end
  end.
End auth.
