(* ===== verification/AuthFacts.v ===== *)
(** * Theorems of authentication

    What a session can do with a document, that the tokens of a login are accepted as what
    they are, and the safety of the sessions over whole runs of the server. *)

From Stdlib Require Import Ascii.
From stdpp Require Import prelude strings countable.
From S2P Require Import Prelude PyString PyDict SdkUtils Auth.

#[local] Open Scope nat_scope.

(** ** Documents *)

(** The root fields that the execution of a selection may run: the fields, and those of the
    fragments. *)
Inductive root_field (document : DocumentNode) : list SelectionNode → string → Prop :=
  | root_here sels alias name sub : FieldNode alias name sub ∈ sels → root_field document sels name
  | root_inline sels type sub name : InlineFragmentNode type sub ∈ sels → root_field document sub name → root_field document sels name
  | root_spread sels fragment type sub name : FragmentSpreadNode fragment ∈ sels →
      FragmentDefinitionNode fragment type sub ∈ document → root_field document sub name → root_field document sels name.
(** A mutation that the document may run *)
Definition runs_mutation (document : DocumentNode) (name : string) : Prop :=
  ∃ op_name sels, OperationDefinitionNode MUTATION op_name sels ∈ document ∧ root_field document sels name.
(** The operations only select fields. *)
Definition direct (document : DocumentNode) : Prop :=
  ∀ operation name sels node, OperationDefinitionNode operation name sels ∈ document → node ∈ sels → ∃ alias field sub, node = FieldNode alias field sub.

Lemma direct_root document operation name sels field : direct document → OperationDefinitionNode operation name sels ∈ document →
  root_field document sels field ↔ ∃ alias sub, FieldNode alias field sub ∈ sels.
Proof.
  intros Hd Hin. split; [|intros (alias & sub & Hf); by eapply root_here].
  destruct 1 as [sels alias f sub Hf|sels type sub f Hf _|sels fragment type sub f Hf _ _]; [by eexists _, _| |];
    by destruct (Hd _ _ _ _ Hin Hf) as (? & ? & ? & ?).
Qed.
Lemma elem_of_operations document op : op ∈ operations document ↔
  ∃ name sels alias sub, OperationDefinitionNode (op_operation_type op) name sels ∈ document ∧ FieldNode alias (op_name op) sub ∈ sels.
Proof.
  unfold operations. rewrite list_elem_of_In, in_concat. setoid_rewrite <-list_elem_of_In. split.
  - intros (ops & ([type name sels|] & -> & Hin)%list_elem_of_fmap & Hop); [|by apply elem_of_nil in Hop].
    apply list_elem_of_omap in Hop as ([alias f sub| |] & Hf & [= <-]). by exists name, sels, alias, sub.
  - intros (name & sels & alias & sub & Hin & Hf). eexists. split; [apply list_elem_of_fmap; eexists; split; [reflexivity|exact Hin]|].
    apply list_elem_of_omap. exists (FieldNode alias (op_name op) sub). by destruct op.
Qed.
Lemma runs_direct document name : direct document → runs_mutation document name ↔ mkGraphQLOperation name MUTATION ∈ operations document.
Proof.
  intros Hd. rewrite elem_of_operations. unfold runs_mutation. cbn [op_name op_operation_type]. split.
  - intros (n & sels & Hin & Hr). apply (direct_root _ _ _ _ _ Hd Hin) in Hr as (alias & sub & Hf). by exists n, sels, alias, sub.
  - intros (n & sels & alias & sub & Hin & Hf). exists n, sels. split; [done|]. apply (direct_root _ _ _ _ _ Hd Hin). by exists alias, sub.
Qed.

Section checker.
Context (settings : Settings).

(** C5: Which documents pass the permission checkers: all of them for an account that may write; for
    a read-only account, those that run no mutation but [CoreAccountSelfUpdate]; without
    authentication those that run no mutation, when anonymous access is allowed; provided
    that the operations of the document select fields, not fragments. *)
Theorem permission_check_spec (session : AccountSession) (document : DocumentNode) (Hdirect : direct document) :
  check_permission (build_graphql_query_permission_checker settings) session document = Ok tt ↔
  if authenticated session then
    read_only session = false ∨ ∀ name, runs_mutation document name → name = "CoreAccountSelfUpdate"
  else allow_anonymous_access settings = true ∧ ∀ name, ¬ runs_mutation document name.
Proof.
  pose proof (λ name, runs_direct document name Hdirect) as Hruns. unfold build_graphql_query_permission_checker.
  cbn [check_permission read_write_checker read_only_checker anonymous_checker supports check_query].
  destruct (authenticated session); cbn [andb negb].
  - destruct (read_only session); cbn [negb]; [|tauto]. unfold compose. rewrite for_all_ok. setoid_rewrite raise_if_ok. split.
    + intros Hall. right. intros name Hin%Hruns. specialize (Hall _ Hin). cbn [op_name op_operation_type] in Hall.
      rewrite bool_decide_eq_true_2 in Hall by done. cbn [andb] in Hall. rewrite negb_false_iff, bool_decide_eq_true in Hall.
      by apply list_elem_of_singleton in Hall.
    + intros [?|Hall] [name type] Hin; [done|]. cbn [op_name op_operation_type]. case_bool_decide as Ht; [|done]. subst type.
      apply Hruns, Hall in Hin as ->. done.
  - rewrite raise_if_ok, negb_false_iff, andb_true_iff, negb_true_iff. f_equiv. unfold contains_mutation. rewrite <-not_true_iff_false, existsb_exists.
    setoid_rewrite <-list_elem_of_In. split.
    + intros Hno name Hin%Hruns. apply Hno. by exists (mkGraphQLOperation name MUTATION).
    + intros Hno ([name type] & Hin & Ht%bool_decide_eq_true). cbn in Ht. subst type. by apply (Hno name), Hruns.
Qed.
End checker.

Lemma permission_check_spec_witness :
  let settings := mkSettings 3600 86400 true in
  let document := [OperationDefinitionNode MUTATION None [FieldNode None "CoreAccountSelfUpdate" [FieldNode None "ok" []]]] in
  let session := mkAccountSession true "a1" None "read-only" JWT in
  direct document ∧
  (check_permission (build_graphql_query_permission_checker settings) session document = Ok tt ↔
    read_only session = false ∨ ∀ name, runs_mutation document name → name = "CoreAccountSelfUpdate") ∧
  check_permission (build_graphql_query_permission_checker settings) session document = Ok tt.
Proof.
  intros settings document session.
  assert (direct document) as Hdirect.
  { intros operation name sels node [= -> -> ->]%list_elem_of_singleton ->%list_elem_of_singleton. by eexists _, _, _. }
  split; [exact Hdirect|]. split; [exact (permission_check_spec settings session document Hdirect)|reflexivity].
Defined.

(** The checkers only look at the fields that the operations select themselves: a mutation in
    a fragment passes for no mutation, so that an anonymous request, or a read-only account,
    deletes a branch. *)
Theorem fragment_bypasses_checkers (settings : Settings) (session : AccountSession) :
  allow_anonymous_access settings = true ∨ authenticated session = true →
  let document := [OperationDefinitionNode MUTATION None [FragmentSpreadNode "f"];
                   FragmentDefinitionNode "f" "Mutation" [FieldNode None "BranchDelete" [FieldNode None "ok" []]]] in
  runs_mutation document "BranchDelete" ∧
  check_permission (build_graphql_query_permission_checker settings) session document = Ok tt.
Proof.
  intros Hs document. split.
  - eexists None, _. split; [by left|]. eapply root_spread; [by left|by right; left|]. eapply root_here. by left.
  - unfold build_graphql_query_permission_checker. cbn. destruct (authenticated session), (read_only session); try done; cbn;
      (destruct Hs as [->|?]; [done|done]).
Qed.

(** ** Tokens *)

(** What the code relies on of [jwt]: a token gives its payload back during its period, the
    token of a payload gives no other, and an expired payload is refused. *)
Definition current (now : Z) (p : Claims) : Prop :=
  (∀ t, dict_get p "iat" = Some (JInt t) ∨ dict_get p "nbf" = Some (JInt t) → (t ≤ now)%Z) ∧
  ∀ t, dict_get p "exp" = Some (JInt t) → (now < t)%Z.
Class JwtLaws `{Jwt} := {
  decode_encode : ∀ now p, json_wf (JDict p) → current now p → jwt_decode now (jwt_encode p) = Payload p;
  encode_decode : ∀ now p q, jwt_decode now (jwt_encode p) = Payload q → q = p;
  decode_expires : ∀ now t p e, jwt_decode now t = Payload p → dict_get p "exp" = Some (JInt e) → (now < e)%Z;
}.

Section tokens.
Context `{JwtLaws} (settings : Settings).
Context (checkpw : string → string → result bool) (uuid : nat → string).

#[local] Abbreviation session_of w := (uuid (w_ids w)).
#[local] Abbreviation authenticate := (authenticate_with_password settings checkpw uuid).

(** A login that succeeds *)
Lemma login_run creds w tok w' : authenticate creds w = (Ok tok, w') →
  ∃ id a, account_of_name (username creds) (w_nodes w) = Some (id, a) ∧
    checkpw (password creds) (default "" (ac_password a)) = Ok true ∧
    access_token tok = jwt_encode (access_data settings (w_clock w) id (ac_role a) (session_of w)) ∧
    refresh_token tok = jwt_encode (refresh_data (w_clock w) id (session_of w) (w_clock w + refresh_token_lifetime settings)) ∧
    w' = mkWorld (dict_set (w_nodes w) (session_of w) (NRefreshToken id (w_clock w + refresh_token_lifetime settings)%Z)) (w_clock w) (S (w_ids w)).
Proof.
  unfold authenticate_with_password. intros Hrun. apply exec_bind_ok in Hrun as (r & ? & [= <- <-] & Hrun).
  destruct (account_of_name _ _) as [[id a]|]; [|done]. apply exec_bind_ok in Hrun as (valid & ? & Hv & Hrun).
  unfold lift in Hv. injection Hv as Hv <-. destruct valid; [|done]. cbn [negb] in Hrun.
  exists id, a. split; [done|]. split; [done|].
  do 2 erewrite exec_step in Hrun by reflexivity. cbn beta iota in Hrun. do 2 erewrite exec_step in Hrun by reflexivity. cbn beta iota in Hrun.
  injection Hrun as <- <-. done.
Qed.

Lemma decode_run t w p : decode t w = (Ok p, w) ↔ jwt_decode (w_clock w) t = Payload p.
Proof. unfold decode. erewrite exec_step by reflexivity. destruct (jwt_decode _ t); [|done|done]. split; [by intros [= ->]|by intros [= ->]]. Qed.
Lemma access_current now at_ account role session : (at_ ≤ now < at_ + access_token_lifetime settings)%Z →
  jwt_decode now (jwt_encode (access_data settings at_ account role session)) = Payload (access_data settings at_ account role session).
Proof.
  intros Hnow. apply decode_encode.
  - constructor; [apply (bool_decide_unpack _); by vm_compute|]. repeat constructor. by intros ?%elem_of_nil.
  - split; [intros t [[= <-]|[= <-]]|intros t [= <-]]; lia.
Qed.
Lemma refresh_current now at_ account session expiration : (at_ ≤ now < expiration)%Z →
  jwt_decode now (jwt_encode (refresh_data at_ account session expiration)) = Payload (refresh_data at_ account session expiration).
Proof.
  intros Hnow. apply decode_encode.
  - constructor; [apply (bool_decide_unpack _); by vm_compute|]. repeat constructor.
  - split; [intros t [[= <-]|[= <-]]|intros t [= <-]]; lia.
Qed.
Lemma accept_access t w at_ account role session : jwt_decode (w_clock w) t = Payload (access_data settings at_ account role session) →
  validate_jwt_access_token t w = (Ok (mkAccountSession true account (Some session) role JWT), w).
Proof. intros Hd%decode_run. unfold validate_jwt_access_token. by erewrite exec_step by exact Hd. Qed.
Lemma accept_refresh t w at_ account session e : jwt_decode (w_clock w) t = Payload (refresh_data at_ account session e) →
  validate_jwt_refresh_token t w = (Ok (mkRefreshTokenData account session), w).
Proof. intros Hd%decode_run. unfold validate_jwt_refresh_token. by erewrite exec_step by exact Hd. Qed.
Lemma refuse_refresh t w at_ account session e : jwt_decode (w_clock w) t = Payload (refresh_data at_ account session e) →
  validate_jwt_access_token t w = (Err (AuthorizationError "Invalid token"), w).
Proof. intros Hd%decode_run. unfold validate_jwt_access_token. by erewrite exec_step by exact Hd. Qed.
Lemma refuse_access t w at_ account role session : jwt_decode (w_clock w) t = Payload (access_data settings at_ account role session) →
  validate_jwt_refresh_token t w = (Err (AuthorizationError "Invalid token, current token is not a refresh token"), w).
Proof. intros Hd%decode_run. unfold validate_jwt_refresh_token. by erewrite exec_step by exact Hd. Qed.

(** C6: The tokens of a login are read back as what they are: during its lifetime the access token
    gives the session of the account, with its role and the id of the session, and the
    refresh token gives the account and the same session; neither passes for the other. *)
Theorem tokens_roundtrip (creds : PasswordCredential) (w w' : World) (tok : UserToken) (Hlogin : authenticate creds w = (Ok tok, w')) :
  ∃ id a session, account_of_name (username creds) (w_nodes w) = Some (id, a) ∧ dict_mem (w_nodes w') session = true ∧
    ∀ later, (w_clock w ≤ w_clock later)%Z →
      ((w_clock later < w_clock w + access_token_lifetime settings)%Z →
        validate_jwt_access_token (access_token tok) later = (Ok (mkAccountSession true id (Some session) (ac_role a) JWT), later) ∧
        validate_jwt_refresh_token (access_token tok) later = (Err (AuthorizationError "Invalid token, current token is not a refresh token"), later)) ∧
      ((w_clock later < w_clock w + refresh_token_lifetime settings)%Z →
        validate_jwt_refresh_token (refresh_token tok) later = (Ok (mkRefreshTokenData id session), later) ∧
        validate_jwt_access_token (refresh_token tok) later = (Err (AuthorizationError "Invalid token"), later)).
Proof.
  destruct (login_run _ _ _ _ Hlogin) as (id & a & Hfind & _ & Ha & Hr & ->). exists id, a, (session_of w). split; [done|].
  split; [cbn; unfold dict_mem; by rewrite dict_get_set_eq|]. intros later Hlater. rewrite Ha, Hr. split; intros Hnow.
  - by split; [eapply accept_access, access_current|eapply refuse_access, access_current].
  - by split; [eapply accept_refresh, refresh_current|eapply refuse_refresh, refresh_current].
Qed.
End tokens.

(** ** Sessions over the runs of the server *)

Section runs.
Context `{JwtLaws} (settings : Settings).
Context (checkpw : string → string → result bool) (uuid : nat → string).

#[local] Abbreviation authenticate := (authenticate_with_password settings checkpw uuid).

(** A login that was made: the account, the session, the time, and the password that was given
    for the digest that was stored *)
Record Login := mkLogin { lg_account : string; lg_session : string; lg_at : Z; lg_password : string; lg_digest : string }.
(** The state of the server with its history: the tokens it gave, the logins, and the sessions
    that were closed with the times. *)
Record Server := mkServer { sv_world : World; sv_issued : list string; sv_logins : list Login; sv_logouts : list (string * Z) }.

(** The tokens that clients present cannot be forged: one that [jwt] accepts has the payload of
    a token that the server gave. *)
Definition genuine (s : Server) (token : string) : Prop :=
  ∀ now p, jwt_decode now token = Payload p → ∃ issued, issued ∈ sv_issued s ∧ jwt_decode now issued = Payload p.
Definition genuine_request (s : Server) (r : HttpRequest) : Prop :=
  ∀ token, rq_bearer r = Some token ∨ rq_access_cookie r = Some token ∨ rq_refresh_cookie r = Some token → genuine s token.

(** Time passes; the other operations change the database as they will, but for bringing back
    the id of a session; logins, refreshes and logouts. *)
Inductive server_step : Server → Server → Prop :=
  | step_clock s t : (w_clock (sv_world s) ≤ t)%Z →
      server_step s (mkServer (mkWorld (w_nodes (sv_world s)) t (w_ids (sv_world s))) (sv_issued s) (sv_logins s) (sv_logouts s))
  | step_database s nodes ids : w_ids (sv_world s) ≤ ids →
      (∀ lg, lg ∈ sv_logins s → lg_session lg ∈ dict_keys nodes → lg_session lg ∈ dict_keys (w_nodes (sv_world s))) →
      server_step s (mkServer (mkWorld nodes (w_clock (sv_world s)) ids) (sv_issued s) (sv_logins s) (sv_logouts s))
  | step_login s creds tok w' id a : account_of_name (username creds) (w_nodes (sv_world s)) = Some (id, a) →
      login_user settings checkpw uuid creds (sv_world s) = (Ok tok, w') →
      server_step s (mkServer w' (access_token tok :: refresh_token tok :: sv_issued s)
        (mkLogin id (uuid (w_ids (sv_world s))) (w_clock (sv_world s)) (password creds) (default "" (ac_password a)) :: sv_logins s)
        (sv_logouts s))
  | step_refresh s r token w' : genuine_request s r → refresh_jwt_token settings r (sv_world s) = (Ok token, w') →
      server_step s (mkServer w' (token :: sv_issued s) (sv_logins s) (sv_logouts s))
  | step_logout s r session w' : genuine_request s r → get_access_token r (sv_world s) = (Ok session, sv_world s) →
      logout r (sv_world s) = (Ok tt, w') →
      server_step s (mkServer w' (sv_issued s) (sv_logins s)
        (match session_id session with Some x => (x, w_clock (sv_world s)) :: sv_logouts s | None => sv_logouts s end)).
Definition initial (s : Server) : Prop := sv_issued s = [] ∧ sv_logins s = [] ∧ sv_logouts s = [].

(** What a token that the server gave says *)
Definition token_of (s : Server) (lg : Login) (token : string) : Prop :=
  token = jwt_encode (refresh_data (lg_at lg) (lg_account lg) (lg_session lg) (lg_at lg + refresh_token_lifetime settings)) ∨
  ∃ at_ role, token = jwt_encode (access_data settings at_ (lg_account lg) role (lg_session lg)) ∧
    (at_ ≤ w_clock (sv_world s))%Z ∧ (at_ ≤ lg_at lg + refresh_token_lifetime settings)%Z ∧
    ∀ t, (lg_session lg, t) ∈ sv_logouts s → (at_ ≤ t)%Z.
Record server_ok (s : Server) : Prop := mkServerOk {
  so_logins : ∀ lg, lg ∈ sv_logins s → (lg_at lg ≤ w_clock (sv_world s))%Z ∧ checkpw (lg_password lg) (lg_digest lg) = Ok true ∧
    ∃ k, k < w_ids (sv_world s) ∧ lg_session lg = uuid k;
  so_logouts : ∀ x t, (x, t) ∈ sv_logouts s → (t ≤ w_clock (sv_world s))%Z ∧ (x ∉ dict_keys (w_nodes (sv_world s))) ∧
    ∃ lg, lg ∈ sv_logins s ∧ lg_session lg = x;
  so_issued : ∀ token, token ∈ sv_issued s → ∃ lg, lg ∈ sv_logins s ∧ token_of s lg token;
}.

Lemma access_inv token w session w' : validate_jwt_access_token token w = (Ok session, w') →
  w' = w ∧ auth_type session = JWT ∧ authenticated session = true ∧ ∃ p v, jwt_decode (w_clock w) token = Payload p ∧
    claim p "type" = Some (JStr "access") ∧ claim p "sub" = Some (JStr (account_id session)) ∧ role_claim p = Some (JStr (role session)) ∧
    claim p "session_id" = Some v ∧ ∀ x, v = JStr x → session_id session = Some x.
Proof.
  unfold validate_jwt_access_token. intros Hrun. apply exec_bind_ok in Hrun as (p & w1 & Hd & Hrun).
  assert (w1 = w) as -> by (unfold decode in Hd; erewrite exec_step in Hd by reflexivity; destruct (jwt_decode _ _); by injection Hd).
  apply decode_run in Hd. unfold claim_or_invalid, type_claim in Hrun.
  destruct (claim p "sub") as [sub|] eqn:Hsub; [|by erewrite exec_err in Hrun by reflexivity].
  erewrite exec_step in Hrun by reflexivity. destruct (role_claim p) as [r|] eqn:Hrole; [|by erewrite exec_err in Hrun by reflexivity].
  erewrite exec_step in Hrun by reflexivity. destruct (claim p "session_id") as [v|] eqn:Hsession; [|by erewrite exec_err in Hrun by reflexivity].
  erewrite exec_step in Hrun by reflexivity. destruct (claim p "type") as [t|] eqn:Htype; [|by erewrite exec_err in Hrun by reflexivity].
  erewrite exec_step in Hrun by reflexivity. case_bool_decide as Ht; [|done]. subst t. cbn [negb] in Hrun.
  destruct sub as [| | |sub| |]; try done. erewrite exec_step in Hrun by reflexivity.
  destruct r as [| | |r| |]; try done. erewrite exec_step in Hrun by reflexivity.
  destruct v as [| | |x| |]; try done; erewrite exec_step in Hrun by reflexivity; injection Hrun as <- <-;
    (split; [done|]; split; [done|]; split; [done|]; eexists p, _; split_and!; [done..|]; by intros y [= ->]).
Qed.
Lemma refresh_inv token w d w' : validate_jwt_refresh_token token w = (Ok d, w') →
  w' = w ∧ ∃ p, jwt_decode (w_clock w) token = Payload p ∧ claim p "type" = Some (JStr "refresh") ∧
    claim p "sub" = Some (JStr (rd_account_id d)) ∧ claim p "session_id" = Some (JStr (rd_session_id d)).
Proof.
  unfold validate_jwt_refresh_token. intros Hrun. apply exec_bind_ok in Hrun as (p & w1 & Hd & Hrun).
  assert (w1 = w) as -> by (unfold decode in Hd; erewrite exec_step in Hd by reflexivity; destruct (jwt_decode _ _); by injection Hd).
  apply decode_run in Hd. unfold claim_or_invalid, type_claim in Hrun.
  destruct (claim p "sub") as [sub|] eqn:Hsub; [|by erewrite exec_err in Hrun by reflexivity].
  erewrite exec_step in Hrun by reflexivity. destruct (claim p "session_id") as [v|] eqn:Hsession; [|by erewrite exec_err in Hrun by reflexivity].
  erewrite exec_step in Hrun by reflexivity. destruct (claim p "type") as [t|] eqn:Htype; [|by erewrite exec_err in Hrun by reflexivity].
  erewrite exec_step in Hrun by reflexivity. case_bool_decide as Ht; [|done]. subst t. cbn [negb] in Hrun.
  destruct sub as [| | |sub| |]; try done. erewrite exec_step in Hrun by reflexivity.
  destruct v as [| | |x| |]; try done. erewrite exec_step in Hrun by reflexivity. injection Hrun as <- <-. split; [done|]. by exists p.
Qed.

(** What the session of an accepted token is *)
Lemma accepted_access s token session w' : server_ok s → genuine s token →
  validate_jwt_access_token token (sv_world s) = (Ok session, w') →
  w' = sv_world s ∧ auth_type session = JWT ∧ authenticated session = true ∧
  ∃ lg at_, lg ∈ sv_logins s ∧ account_id session = lg_account lg ∧ session_id session = Some (lg_session lg) ∧
    (at_ ≤ w_clock (sv_world s) < at_ + access_token_lifetime settings)%Z ∧ (at_ ≤ lg_at lg + refresh_token_lifetime settings)%Z ∧
    ∀ t, (lg_session lg, t) ∈ sv_logouts s → (at_ ≤ t)%Z.
Proof.
  intros Hok Hgen (-> & Hty & Hau & p & v & Hd & Htype & Hsub & _ & Hv & Hsession)%access_inv. split_and!; [done..|].
  destruct (Hgen _ _ Hd) as (issued & Hissued & Hdi). destruct (so_issued s Hok _ Hissued) as (lg & Hlg & [->|(at_ & role & -> & Hat & Har & Hout)]).
  - apply encode_decode in Hdi as ->. done.
  - pose proof (encode_decode _ _ _ Hdi) as ->. injection Hsub as Hsub. injection Hv as <-. exists lg, at_.
    split; [done|]. split; [done|]. split; [by apply Hsession|]. split; [|done]. split; [done|]. by eapply decode_expires.
Qed.
Lemma accepted_refresh s token d w' : server_ok s → genuine s token → validate_jwt_refresh_token token (sv_world s) = (Ok d, w') →
  w' = sv_world s ∧ ∃ lg, lg ∈ sv_logins s ∧ rd_account_id d = lg_account lg ∧ rd_session_id d = lg_session lg ∧
    (w_clock (sv_world s) < lg_at lg + refresh_token_lifetime settings)%Z.
Proof.
  intros Hok Hgen (-> & p & Hd & Htype & Hsub & Hsession)%refresh_inv. split; [done|].
  destruct (Hgen _ _ Hd) as (issued & Hissued & Hdi). destruct (so_issued s Hok _ Hissued) as (lg & Hlg & [->|(at_ & role & -> & _)]).
  - pose proof (encode_decode _ _ _ Hdi) as ->. injection Hsub as Hsub. injection Hsession as Hsession. exists lg.
    split_and!; [done..|]. by eapply decode_expires.
  - apply encode_decode in Hdi as ->. done.
Qed.
Lemma fresh_access_run d w token w' : create_fresh_access_token settings d w = (Ok token, w') →
  w' = w ∧ rd_session_id d ∈ dict_keys (w_nodes w) ∧
  ∃ role, token = jwt_encode (access_data settings (w_clock w) (rd_account_id d) role (rd_session_id d)).
Proof.
  unfold create_fresh_access_token. intros Hrun. apply exec_bind_ok in Hrun as (n & ? & [= <- <-] & Hrun).
  destruct (dict_get (w_nodes w) (rd_session_id d)) eqn:Hg; [|done]. apply exec_bind_ok in Hrun as (a & ? & [= <- <-] & Hrun).
  destruct (dict_get (w_nodes w) (rd_account_id d)) as [[a| | |]|]; try done. injection Hrun as <- <-. split; [done|].
  split; [apply dict_get_is_Some; by eexists|by eexists].
Qed.
Lemma get_refresh_run r w d w' : get_refresh_token r w = (Ok d, w') →
  ∃ token, (rq_bearer r = Some token ∨ rq_refresh_cookie r = Some token) ∧ validate_jwt_refresh_token token w = (Ok d, w').
Proof.
  unfold get_refresh_token, or_else. destruct (rq_bearer r) as [[|c b]|]; [|intros; exists (String c b); by auto|];
    (destruct (rq_refresh_cookie r) as [[|c' k]|]; [done|intros; exists (String c' k); by auto|done]).
Qed.
Lemma get_access_run r w session w' : get_access_token r w = (Ok session, w') →
  ∃ token, (rq_bearer r = Some token ∨ rq_access_cookie r = Some token) ∧ validate_jwt_access_token token w = (Ok session, w').
Proof.
  unfold get_access_token. destruct (rq_bearer r) as [b|]; [intros; exists b; by auto|].
  destruct (rq_access_cookie r) as [[|c k]|]; [done|intros; exists (String c k); by auto|done].
Qed.

Context (Huuid : ∀ k, uuid k ≠ "") (Hinj : Inj (=) (=) uuid) (Hlifetime : (0 ≤ refresh_token_lifetime settings)%Z).

Lemma logout_run r w session w' x : get_access_token r w = (Ok session, w) → logout r w = (Ok tt, w') → session_id session = Some x → x ≠ "" →
  w' = mkWorld (dict_del (w_nodes w) x) (w_clock w) (w_ids w) ∨ w' = w ∧ x ∉ dict_keys (w_nodes w).
Proof.
  intros Hget Hrun Hx Hne. unfold logout in Hrun. erewrite exec_step in Hrun by exact Hget. rewrite Hx in Hrun. destruct x as [|c x]; [done|].
  unfold invalidate_refresh_token in Hrun. erewrite exec_step in Hrun by reflexivity.
  destruct (dict_get (w_nodes w) (String c x)) eqn:Hg; injection Hrun as <-; [by left|right]. split; [done|by apply dict_get_None].
Qed.
Lemma token_of_mono s s' lg token : token_of s lg token → (w_clock (sv_world s) ≤ w_clock (sv_world s'))%Z →
  (∀ t, (lg_session lg, t) ∈ sv_logouts s' → (lg_session lg, t) ∈ sv_logouts s ∨ (w_clock (sv_world s) ≤ t)%Z) → token_of s' lg token.
Proof.
  intros [->|(at_ & role & -> & Hat & Har & Hout)] Hclock Hlogouts; [by left|right]. exists at_, role. split; [done|].
  split; [lia|]. split; [done|]. intros t [Ht|Ht]%Hlogouts; [by apply Hout|lia].
Qed.

Lemma clock_ok s t : (w_clock (sv_world s) ≤ t)%Z → server_ok s →
  server_ok (mkServer (mkWorld (w_nodes (sv_world s)) t (w_ids (sv_world s))) (sv_issued s) (sv_logins s) (sv_logouts s)).
Proof.
  intros Ht [Hl Ho Hi]. split; cbn.
  - intros lg (? & ? & ?)%Hl. split; [lia|done].
  - intros x t' (? & ? & ?)%Ho. split; [lia|done].
  - intros token (lg & Hlg & Htok)%Hi. exists lg. split; [done|]. eapply token_of_mono; [done|cbn; lia|by left].
Qed.
Lemma database_ok s nodes ids : w_ids (sv_world s) ≤ ids →
  (∀ lg, lg ∈ sv_logins s → lg_session lg ∈ dict_keys nodes → lg_session lg ∈ dict_keys (w_nodes (sv_world s))) → server_ok s →
  server_ok (mkServer (mkWorld nodes (w_clock (sv_world s)) ids) (sv_issued s) (sv_logins s) (sv_logouts s)).
Proof.
  intros Hids Hnodes [Hl Ho Hi]. split; cbn; [| |done].
  - intros lg (? & ? & k & ? & ?)%Hl. split_and!; [done..|]. exists k. split; [lia|done].
  - intros x t (? & Hx & lg & Hlg & <-)%Ho. split; [done|]. split; [|by exists lg]. intros Hin. by apply Hx, Hnodes.
Qed.
Lemma login_ok s creds tok w' id a : account_of_name (username creds) (w_nodes (sv_world s)) = Some (id, a) →
  login_user settings checkpw uuid creds (sv_world s) = (Ok tok, w') → server_ok s →
  server_ok (mkServer w' (access_token tok :: refresh_token tok :: sv_issued s)
    (mkLogin id (uuid (w_ids (sv_world s))) (w_clock (sv_world s)) (password creds) (default "" (ac_password a)) :: sv_logins s) (sv_logouts s)).
Proof.
  intros Hfind (id' & a' & Hfind' & Hpw & Ha & Hr & ->)%login_run Hok. rewrite Hfind in Hfind'. injection Hfind' as <- <-.
  pose proof Hok as [Hl Ho Hi]. split; cbn.
  - intros lg [->|Hlg]%elem_of_cons; cbn.
    + split; [done|]. split; [done|]. exists (w_ids (sv_world s)). split; [lia|done].
    + destruct (Hl _ Hlg) as (? & ? & k & ? & ?). split_and!; [done..|]. exists k. split; [lia|done].
  - intros x t (Ht & Hx & lg & Hlg & <-)%Ho. split; [done|]. split.
    + rewrite elem_of_dict_keys_set. intros [Heq|?]; [|done]. destruct (Hl _ Hlg) as (_ & _ & k & Hk & Hs). rewrite Hs in Heq.
      apply Hinj in Heq. lia.
    + exists lg. split; [by right|done].
  - intros token [->|[->|Hin]%elem_of_cons]%elem_of_cons.
    + eexists. split; [by left|]. right. exists (w_clock (sv_world s)), (ac_role a). cbn. split; [done|]. split; [done|]. split; [lia|].
      intros t (_ & _ & lg & Hlg & Hs)%Ho. destruct (Hl _ Hlg) as (_ & _ & k & Hk & Hk'). rewrite Hk' in Hs. apply Hinj in Hs. lia.
    + eexists. split; [by left|]. by left.
    + destruct (Hi _ Hin) as (lg & Hlg & Htok). exists lg. split; [by right|]. eapply token_of_mono; [done|done|by left].
Qed.
Lemma refresh_ok s r token w' : genuine_request s r → refresh_jwt_token settings r (sv_world s) = (Ok token, w') → server_ok s →
  server_ok (mkServer w' (token :: sv_issued s) (sv_logins s) (sv_logouts s)).
Proof.
  intros Hgen Hrun Hok. apply exec_bind_ok in Hrun as (d & w1 & Hd & Hrun). apply get_refresh_run in Hd as (presented & Hp & Hd).
  assert (genuine s presented) as Hg by (apply Hgen; tauto).
  destruct (accepted_refresh _ _ _ _ Hok Hg Hd) as (-> & lg & Hlg & Hac & Hse & Hexp).
  destruct (fresh_access_run _ _ _ _ Hrun) as (-> & Hin & role & ->). destruct Hok as [Hl Ho Hi]. split; cbn; [done|done|].
  intros t [->|Ht]%elem_of_cons; [|by apply Hi]. exists lg. split; [done|]. right. exists (w_clock (sv_world s)), role. cbn.
  split; [by rewrite Hac, Hse|]. split; [done|]. split; [lia|]. intros t' (_ & Hx & _)%Ho. by rewrite Hse in Hin.
Qed.
Lemma logout_ok s r session w' : genuine_request s r → get_access_token r (sv_world s) = (Ok session, sv_world s) →
  logout r (sv_world s) = (Ok tt, w') → server_ok s →
  server_ok (mkServer w' (sv_issued s) (sv_logins s)
    (match session_id session with Some x => (x, w_clock (sv_world s)) :: sv_logouts s | None => sv_logouts s end)).
Proof.
  intros Hgen Hget Hrun Hok. pose proof Hget as Hacc. apply get_access_run in Hacc as (presented & Hp & Hacc).
  assert (genuine s presented) as Hg by (apply Hgen; tauto).
  destruct (accepted_access _ _ _ _ Hok Hg Hacc) as (_ & _ & _ & lg & at_ & Hlg & _ & Hse & _).
  pose proof Hok as [Hl Ho Hi]. destruct (Hl _ Hlg) as (Hat & _ & k & Hk & Hsk). rewrite Hse.
  assert (w_clock w' = w_clock (sv_world s) ∧ w_ids w' = w_ids (sv_world s) ∧ (lg_session lg ∉ dict_keys (w_nodes w')) ∧
          ∀ x, x ∈ dict_keys (w_nodes w') → x ∈ dict_keys (w_nodes (sv_world s))) as (Hc & Hids & Hout & Hnodes).
  { destruct (logout_run _ _ _ _ _ Hget Hrun Hse) as [->|[-> Hx]]; [rewrite Hsk; apply Huuid| |done]. cbn.
    split; [done|]. split; [done|]. split; [|intros x]; rewrite dict_keys_del, list_elem_of_filter; tauto. }
  split; cbn; rewrite ?Hc, ?Hids.
  - done.
  - intros x t [[= -> ->]|(? & Hx & ?)%Ho]%elem_of_cons; [split; [done|]; split; [done|by exists lg]|].
    split; [done|]. split; [|done]. by intros ?%Hnodes.
  - intros token (lg' & Hlg' & Htok)%Hi. exists lg'. split; [done|]. eapply token_of_mono; [done|cbn; lia|].
    intros t [[= _ ->]|?]%elem_of_cons; [by right|by left].
Qed.
Lemma step_ok s s' : server_step s s' → server_ok s → server_ok s'.
Proof.
  destruct 1; [by apply clock_ok|by apply database_ok|by eapply login_ok|by eapply refresh_ok|by eapply logout_ok].
Qed.
Lemma server_reachable_ok s0 s : initial s0 → rtc server_step s0 s → server_ok s.
Proof.
  intros (Hi & Hl & Ho) Hrun. assert (server_ok s0) as Hok.
  { split; rewrite ?Hi, ?Hl, ?Ho; [intros lg|intros x t|intros token]; by intros ?%elem_of_nil. }
  clear Hi Hl Ho. induction Hrun as [|s0 s1 s Hstep _ IH]; [done|]. by eapply IH, step_ok.
Qed.
End runs.

(** C4: Whatever happened since the server started, an access token is only accepted for the account
    of a login that was made with the right password, while the refresh token of this login
    and one access token more can last; and once the session was closed by a logout, at most
    for the lifetime of one access token. *)
Theorem session_safety `{JwtLaws} (settings : Settings) (checkpw : string → string → result bool) (uuid : nat → string)
    (s0 s : Server) (token : string) (session : AccountSession) (w' : World)
    (Huuid : ∀ k, uuid k ≠ "") (Hinj : Inj (=) (=) uuid) (Hlifetime : (0 ≤ refresh_token_lifetime settings)%Z)
    (Hinit : initial s0) (Hrun : rtc (server_step settings checkpw uuid) s0 s) (Hgenuine : genuine s token)
    (Haccept : validate_jwt_access_token token (sv_world s) = (Ok session, w')) :
  w' = sv_world s ∧ authenticated session = true ∧ auth_type session = JWT ∧
  ∃ lg, lg ∈ sv_logins s ∧ account_id session = lg_account lg ∧ session_id session = Some (lg_session lg) ∧
    checkpw (lg_password lg) (lg_digest lg) = Ok true ∧
    (lg_at lg ≤ w_clock (sv_world s) < lg_at lg + refresh_token_lifetime settings + access_token_lifetime settings)%Z ∧
    ∀ t, (lg_session lg, t) ∈ sv_logouts s → (w_clock (sv_world s) < t + access_token_lifetime settings)%Z.
Proof.
  pose proof (server_reachable_ok settings checkpw uuid Huuid Hinj Hlifetime _ _ Hinit Hrun) as Hok.
  destruct (accepted_access _ _ _ _ _ _ _ Hok Hgenuine Haccept) as (-> & Hty & Hau & lg & at_ & Hlg & Hac & Hse & Hnow & Hbound & Hout).
  split_and!; [done..|]. exists lg. destruct (so_logins _ _ _ _ Hok _ Hlg) as (Hat & Hpw & _). split_and!; [done..|lia| |].
  - lia.
  - intros t Ht%Hout. lia.
Qed.

(** ** A library of tokens that satisfies the laws *)

Fixpoint json_tree (j : json) : gen_tree (bool + Z + string) :=
  match j with
  | JNull => GenNode 0 []
  | JBool b => GenLeaf (inl (inl b))
  | JInt z => GenLeaf (inl (inr z))
  | JStr s => GenLeaf (inr s)
  | JList l => GenNode 1 (json_tree <$> l)
  | JDict d => GenNode 2 ((λ kv, GenNode 3 [GenLeaf (inr kv.1); json_tree kv.2]) <$> d)
  end.
Fixpoint tree_json (t : gen_tree (bool + Z + string)) : json :=
  match t with
  | GenLeaf (inl (inl b)) => JBool b
  | GenLeaf (inl (inr z)) => JInt z
  | GenLeaf (inr s) => JStr s
  | GenNode 1 l => JList (tree_json <$> l)
  | GenNode 2 l => JDict ((λ t, match t with GenNode _ [GenLeaf (inr k); v] => (k, tree_json v) | _ => ("", JNull) end) <$> l)
  | GenNode _ _ => JNull
  end.
Lemma tree_json_tree j : tree_json (json_tree j) = j.
Proof.
  induction j as [| | | |l IH|d IH] using json_nested_ind; try done; cbn [json_tree tree_json]; f_equal; rewrite <-list_fmap_compose.
  - induction IH as [|j l Hj _ IH]; [done|]. rewrite fmap_cons. unfold compose at 1. by rewrite Hj, IH.
  - induction IH as [|[k j] d Hj _ IH]; [done|]. rewrite fmap_cons. unfold compose at 1. cbn [fst snd] in *. by rewrite Hj, IH.
Qed.
Fixpoint digits (p : positive) : string :=
  match p with xH => "" | xO p => String "0"%char (digits p) | xI p => String "1"%char (digits p) end.
Fixpoint of_digits (s : string) : positive :=
  match s with EmptyString => xH | String c s => if decide (c = "0"%char) then xO (of_digits s) else xI (of_digits s) end.
Lemma of_digits_digits p : of_digits (digits p) = p.
Proof. induction p as [p IH|p IH|]; cbn; by rewrite ?IH. Qed.

Definition claim_time (p : Claims) (key : string) : option Z := match dict_get p key with Some (JInt t) => Some t | _ => None end.
Definition in_period (now : Z) (p : Claims) : bool :=
  from_option (λ t, t <=? now)%Z true (claim_time p "iat") && from_option (λ t, t <=? now)%Z true (claim_time p "nbf") &&
  from_option (λ t, now <? t)%Z true (claim_time p "exp").
Definition text_jwt : Jwt := {|
  jwt_encode p := digits (countable.encode (json_tree (JDict p)));
  jwt_decode now token :=
    match tree_json <$> countable.decode (of_digits token) with
    | Some (JDict p) => if in_period now p then Payload p else ExpiredSignatureError
    | _ => InvalidTokenError
    end |}.
Lemma text_decode_encode now p : @jwt_decode text_jwt now (@jwt_encode text_jwt p) = if in_period now p then Payload p else ExpiredSignatureError.
Proof.
  cbn [jwt_decode jwt_encode text_jwt]. rewrite of_digits_digits, countable.decode_encode. cbn [fmap option_fmap option_map]. by rewrite tree_json_tree.
Qed.
Lemma text_jwt_laws : @JwtLaws text_jwt.
Proof.
  split.
  - intros now p _ [Hpast Hexp]. rewrite text_decode_encode. unfold in_period, claim_time.
    replace (_ && _) with true; [done|]. symmetry. rewrite !andb_true_iff. split_and!.
    + destruct (dict_get p "iat") as [[]|] eqn:Ht; try done. cbn. apply Z.leb_le. apply Hpast. by left.
    + destruct (dict_get p "nbf") as [[]|] eqn:Ht; try done. cbn. apply Z.leb_le. apply Hpast. by right.
    + destruct (dict_get p "exp") as [[]|] eqn:Ht; try done. cbn. apply Z.ltb_lt. by apply Hexp.
  - intros now p q. rewrite text_decode_encode. destruct (in_period now p); [by intros [= ->]|done].
  - intros now t p e. cbn [jwt_decode text_jwt]. destruct (tree_json <$> _) as [[| | | | |q]|]; try done.
    destruct (in_period now q) eqn:Hq; [|done]. intros [= ->] He. unfold in_period, claim_time in Hq. rewrite He in Hq.
    apply andb_true_iff in Hq as [_ Hq]. cbn in Hq. lia.
Qed.

(** ** A run: a login, a refresh, and a logout *)

#[local] Existing Instance text_jwt.
#[local] Existing Instance text_jwt_laws.
#[local] Abbreviation demo_settings := (mkSettings 3600 86400 false).
#[local] Abbreviation demo_checkpw := (λ password digest, Ok (bool_decide (digest = String "h"%char password))).
Definition unary_id (k : nat) : string := String "u"%char (Nat.iter k (String "a"%char) "").
#[export] Instance unary_id_inj : Inj (=) (=) unary_id.
Proof.
  intros k. unfold unary_id. induction k as [|k IH]; intros [|j] Hj; try done. cbn in Hj. injection Hj as Hj. f_equal. apply IH. exact (f_equal (String "u"%char) Hj).
Qed.
#[local] Abbreviation demo_account := (mkAccount "alice" (Some "hsecret") "read-write" None).
#[local] Abbreviation demo_world := (mkWorld [("a1", NAccount demo_account)] 0 0).
#[local] Abbreviation demo_creds := (mkPasswordCredential "alice" "secret").
#[local] Abbreviation demo_access t := (jwt_encode (access_data demo_settings t "a1" "read-write" "u")).
#[local] Abbreviation demo_refresh := (jwt_encode (refresh_data 0 "a1" "u" 86400)).
#[local] Abbreviation bearer token := (mkHttpRequest (Some token) None None None "POST" "/api/auth/").
#[local] Abbreviation demo_nodes := [("a1", NAccount demo_account); ("u", NRefreshToken "a1" 86400)].

Lemma demo_login : authenticate_with_password demo_settings demo_checkpw unary_id demo_creds demo_world =
  (Ok (mkUserToken (demo_access 0) demo_refresh), mkWorld demo_nodes 0 1).
Proof. reflexivity. Qed.
Lemma tokens_roundtrip_witness :
  authenticate_with_password demo_settings demo_checkpw unary_id demo_creds demo_world =
    (Ok (mkUserToken (demo_access 0) demo_refresh), mkWorld demo_nodes 0 1) ∧
  ∃ id a session, account_of_name "alice" (w_nodes demo_world) = Some (id, a) ∧ dict_mem demo_nodes session = true ∧
    ∀ later, (0 ≤ w_clock later)%Z →
      ((w_clock later < 0 + 3600)%Z →
        validate_jwt_access_token (demo_access 0) later = (Ok (mkAccountSession true id (Some session) (ac_role a) JWT), later) ∧
        validate_jwt_refresh_token (demo_access 0) later = (Err (AuthorizationError "Invalid token, current token is not a refresh token"), later)) ∧
      ((w_clock later < 0 + 86400)%Z →
        validate_jwt_refresh_token demo_refresh later = (Ok (mkRefreshTokenData id session), later) ∧
        validate_jwt_access_token demo_refresh later = (Err (AuthorizationError "Invalid token"), later)).
Proof.
  split; [exact demo_login|]. exact (tokens_roundtrip demo_settings demo_checkpw unary_id demo_creds demo_world _ _ demo_login).
Defined.

#[local] Abbreviation demo_logins := [mkLogin "a1" "u" 0 "secret" "hsecret"].
#[local] Abbreviation demo_server := (mkServer (mkWorld [("a1", NAccount demo_account)] 30 1) [demo_access 10; demo_access 0; demo_refresh] demo_logins [("u", 20%Z)]).
Lemma issued_genuine s token : token ∈ sv_issued s → genuine s token.
Proof. intros Hin now p Hd. by exists token. Qed.
Lemma bearer_genuine s token : token ∈ sv_issued s → genuine_request s (bearer token).
Proof. intros Hin t [[= <-]|[?|?]]; [by apply issued_genuine|done|done]. Qed.
Lemma demo_access_session w t : (t ≤ w_clock w < t + 3600)%Z →
  validate_jwt_access_token (demo_access t) w = (Ok (mkAccountSession true "a1" (Some "u") "read-write" JWT), w).
Proof. intros Hw. by eapply (accept_access demo_settings), access_current. Qed.
Lemma bearer_refresh token w d : token ≠ "" → validate_jwt_refresh_token token w = (Ok d, w) → get_refresh_token (bearer token) w = (Ok d, w).
Proof. by destruct token. Qed.
Lemma demo_run : rtc (server_step demo_settings demo_checkpw unary_id) (mkServer demo_world [] [] []) demo_server.
Proof.
  eapply rtc_l; [apply (step_login _ _ _ (mkServer demo_world [] [] []) demo_creds (mkUserToken (demo_access 0) demo_refresh) (mkWorld demo_nodes 0 1) "a1" demo_account); [reflexivity|exact demo_login]|].
  eapply rtc_l; [apply (step_clock _ _ _ _ 10); by cbn|]. cbn [sv_world sv_issued sv_logins sv_logouts w_nodes w_ids access_token refresh_token].
  eapply rtc_l; [apply (step_refresh _ _ _ _ (bearer demo_refresh) (demo_access 10) (mkWorld demo_nodes 10 1)); [apply bearer_genuine; by right; left|]|].
  { unfold refresh_jwt_token. erewrite exec_step; [|apply bearer_refresh; [vm_compute; discriminate|]; by apply (accept_refresh demo_refresh _ 0 "a1" "u" 86400), refresh_current].
    reflexivity. }
  eapply rtc_l; [apply (step_clock _ _ _ _ 20); by cbn|]. cbn [sv_world sv_issued sv_logins sv_logouts w_nodes w_ids].
  eapply rtc_l; [apply (step_logout _ _ _ _ (bearer (demo_access 0)) (mkAccountSession true "a1" (Some "u") "read-write" JWT)
    (mkWorld [("a1", NAccount demo_account)] 20 1)); [apply bearer_genuine; by right; left|by apply demo_access_session|]|].
  { unfold logout. erewrite exec_step by by apply demo_access_session. reflexivity. }
  eapply rtc_l; [apply (step_clock _ _ _ _ 30); by cbn|]. apply rtc_refl.
Qed.
Lemma session_safety_witness :
  (rtc (server_step demo_settings demo_checkpw unary_id) (mkServer demo_world [] [] []) demo_server ∧ genuine demo_server (demo_access 10) ∧
   validate_jwt_access_token (demo_access 10) (sv_world demo_server) = (Ok (mkAccountSession true "a1" (Some "u") "read-write" JWT), sv_world demo_server)) ∧
  ∃ lg, lg ∈ demo_logins ∧ "a1" = lg_account lg ∧ Some "u" = Some (lg_session lg) ∧
    Ok (bool_decide (lg_digest lg = String "h"%char (lg_password lg))) = Ok true ∧
    (lg_at lg ≤ 30 < lg_at lg + 86400 + 3600)%Z ∧ ∀ t, (lg_session lg, t) ∈ [("u", 20%Z)] → (30 < t + 3600)%Z.
Proof.
  assert (genuine demo_server (demo_access 10)) as Hgenuine by (apply issued_genuine; by left).
  assert (validate_jwt_access_token (demo_access 10) (sv_world demo_server) =
    (Ok (mkAccountSession true "a1" (Some "u") "read-write" JWT), sv_world demo_server)) as Haccept by by apply demo_access_session.
  split; [exact (conj demo_run (conj Hgenuine Haccept))|].
  assert (initial (mkServer demo_world [] [] [])) as Hinit by done.
  assert (0 ≤ refresh_token_lifetime demo_settings)%Z as Hlifetime by (vm_compute; discriminate).
  assert (∀ k, unary_id k ≠ "") as Huuid by done.
  destruct (session_safety demo_settings demo_checkpw unary_id _ _ _ _ _ Huuid unary_id_inj Hlifetime Hinit demo_run Hgenuine Haccept)
    as (_ & _ & _ & Hlogin). exact Hlogin.
Defined.

(** ** Accounts *)

(** Who may create, delete or change an account *)
Lemma account_permissions (session : AccountSession) (operation node_id : string) (fields : list string) :
  (validate_mutation_permissions operation session = Ok tt ↔
    (operation = "CoreAccountCreate" ∨ operation = "CoreAccountDelete" ∨ operation = "CoreAccountUpsert" → role session = "admin")) ∧
  (validate_mutation_permissions_update_node operation node_id session fields = Ok tt ↔
    (operation = "CoreAccountUpdate" ∨ operation = "CoreAccountUpsert" → role session = "admin" ∨
       account_id session = node_id ∧ ∀ field, field ∈ fields → field ∈ ["description"; "label"; "password"])).
Proof.
  unfold validate_mutation_permissions, validate_mutation_permissions_update_node, _validate_is_admin, _validate_update_account. split.
  - case_decide as Ho; rewrite !elem_of_cons, elem_of_nil in Ho; [|tauto]. rewrite raise_if_ok, negb_false_iff, bool_decide_eq_true. tauto.
  - case_decide as Ho; rewrite !elem_of_cons, elem_of_nil in Ho; [|tauto]. case_bool_decide as Ha; [tauto|].
    rewrite raise_if_bind, negb_false_iff, bool_decide_eq_true, for_all_ok. setoid_rewrite raise_if_ok. setoid_rewrite negb_false_iff.
    setoid_rewrite bool_decide_eq_true. tauto.
Qed.

(** An account that only changes its description saves its password too, and the digest that was
    loaded is hashed again: the account cannot log in any more. *)
Theorem self_update_locks_out :
  let checkpw password digest := Ok (bool_decide (digest = "h" +:+ password)) in
  let session := mkAccountSession true "a1" (Some "u") "read-write" JWT in
  let '(r, w) := account_mutate (λ _ password, "h" +:+ password) unary_id (Some session) (CoreAccountSelfUpdate None (Some "network team")) demo_world in
  r = Ok None ∧ (∃ tok, (authenticate_with_password demo_settings checkpw unary_id demo_creds demo_world).1 = Ok tok) ∧
  (authenticate_with_password demo_settings checkpw unary_id demo_creds w).1 = Err (AuthorizationError "Incorrect password").
Proof. split; [done|]. split; [by eexists|done]. Qed.
